(* ===== verification/_CoqProject ===== *)
-Q . S2P
Prelude.v
CString.v
Spinlock.v
Layout.v
Grep.v
Pipe.v
Buf.v
Log.v
Kalloc.v
Proc.v
Kthread.v
Trapasm.v
Block.v
Inode.v
Content.v
Dinode.v
Icache.v
Dir.v
Dirent.v
Trunc.v
Vm.v
Uvm.v
Copyuvm.v
Ulib.v
Sh.v
Shparse.v
Syscall.v
File.v
Sysfile.v
Descr.v
Sysproc.v
Umalloc.v
Console.v
Lineedit.v
Ide.v
Trap.v
Intr.v
Startap.v
Exec.v
Boot.v
Image.v
Kernel.v
Mkfs.v
Fsimage.v
Mount.v
Mp.v
Uprog.v
