(* ===== verification/Prelude.v ===== *)
(** * xv6 with kernel threads: a verification development

    The program is the teaching kernel xv6 in the version with kernel threads: the boot
    loader, the kernel, its file system, the program that builds the disk image, and the
    user programs.  The development models the C code and part of the assembly as executable
    definitions on explicit states, and proves what makes each part correct.

    ** The parts and how they interact

    bootmain.c loads the kernel from the disk.  main.c sets the machine up: mp.c finds the
    processors, picirq.c, ioapic.c, lapic.c and timer.c program the interrupt controllers,
    and startothers starts the other processors.  Every process has an address space and up
    to sixteen kernel threads (proc.c, kthread.c).  A thread enters the kernel through
    vectors.S and trapasm.S, which call trap() of trap.c; a system call goes on to
    syscall.c, which fetches the arguments and calls sysproc.c or sysfile.c, an interrupt
    to the clock, the console (console.c, kbd.c, uart.c) or the disk (ide.c).  The file
    calls work on the file table of file.c, whose files are pipes (pipe.c) or inodes (fs.c).
    fs.c reads and writes blocks through the buffer cache (bio.c) on the disk (ide.c, or
    memide.c in the kernel that keeps its disk in memory), and hands the blocks it changes
    to the log (log.c), which makes all the writes of a call reach the disk together.  exec.c
    loads programs.  Pages come from kalloc.c, page tables are built in them by vm.c.
    Everything that is shared is protected by the locks of spinlock.c and the sleep and
    wakeup of proc.c.  The user side is the library (ulib.c, printf.c, umalloc.c, usys.S),
    the shell (sh.c) and small programs.  mkfs.c runs on the host and builds the image.

    ** The files of the development

    - [Prelude]: machine integers with their wrap-around ([u8], [u16], [u32], [i16],
      [i32]), little-endian words, slices, and the monad [M S A := S -> res S A] in which
      the routines are written.  A routine returns ([Ret]), panics ([Panic], with the
      message of the code), goes to sleep on a channel ([Sleep]), follows a bad pointer
      ([Fault]) or exceeds the bound on its rounds ([Fuel]).  [wp] is total: it asks for
      [Ret].  [keeps] is preservation of an invariant wherever a routine returns or sleeps.
    - [CString]: string.c.  [Mem] is mem* on a byte-addressed memory, [Str] is str* on
      bytes that end with a NUL.
    - [Spinlock]: spinlock.c.  [Cli] is pushcli and popcli; [Sys] the steps of acquire and
      release on any number of processors; [Ctx] the view of the locks that the other
      components take (locks held, wakeups made, killed).
    - Storage.  [Layout]: fs.h.  [Buf]: bio.c and memide.c; [Buf.Contract] is the abstract
      disk they implement.  [Ide]: ide.c; [Ide.Queue] interleaves requests and interrupts.
      [Log]: log.c with its crash model; [Log.Ops] is its concurrent use.
    - File system.  [Block], [Inode], [Content], [Dinode], [Icache], [Dir], [Dirent],
      [Trunc]: fs.c from the bottom up.  [Block] states what fs.c needs of the log as the
      classes [BlockLayer] and [BlockLaws], and shows that [Log] is an instance; everything
      above is proved against the classes.  [Mkfs], [Fsimage]: mkfs.c and the image it
      builds; [Mount]: the kernel on that image.
    - Files and calls.  [Pipe]: pipe.c without pipealloc; [Pipe.Sched] is its concurrent
      use.  [File]: file.c and pipealloc.  [Syscall]: syscall.c.  [Sysfile]: sysfile.c.
      [Sysproc]: sysproc.c.  [Descr]: the theorems on files and descriptors.
    - Memory.  [Kalloc]: kalloc.c.  [Vm], [Uvm], [Copyuvm]: vm.c on the memory of [Kalloc].
      [Exec], [Image]: exec.c with loaduvm, and the memory it builds.
    - Processes.  [Proc], [Kthread]: proc.c and kthread.c; [Kthread.System] runs any
      interleaving of the pieces of their routines.  [Kernel]: proc.c on the allocator, the
      page tables, the file table and the inode cache of the other files.
    - Traps and devices.  [Trapasm]: vectors.S, trapasm.S, swtch.S, usys.S, tvinit, seginit
      and the task state of switchuvm on a machine with registers and memory.  [Trap]:
      trap() over the process table, the clock, the console and the disk.  [Intr]: the
      interrupt controllers, the timer, uartinit and the clock of lapic.c.  [Console],
      [Lineedit]: console.c, kbd.c and uart.c.
    - Start.  [Boot]: bootmain.c.  [Mp]: mp.c.  [Startap]: startothers of main.c with
      entrypgdir and the loads of entryother.S.
    - User programs.  [Ulib]: ulib.c and printf.c.  [Umalloc]: umalloc.c.  [Grep]: the
      matcher and the loop of grep.c.  [Sh]: sh.c; [Shparse]: its grammar.  [Uprog]: cat, echo, grep, init, kill,
      ln, ls, mkdir, rm, wc and zombie as interaction trees over the system calls.

    Definitions have the names of the C functions.  struct pointers into a table are
    indices into a list, pointers into memory are numbers, null is [None] or 0.  A loop that
    is not structural has its own [Fixpoint] named after the function ([f_loop]).

    ** What the theorems show

    - Crash safety: a transaction is on the disk as a whole or not at all, at whatever
      sector write the machine stops, and however often it stops again while it recovers
      ([Log.transaction_atomic]); calls that keep to what they reserved never overflow the
      log ([Log.Ops.calls_never_panic]).
    - The buffer cache is a disk: it refines a map from sectors to contents
      ([Buf.Contract.bcache_refines]).  The driver serves its requests in order and loses
      none ([Ide.Queue.ide_serves_in_order]).
    - The file system: reading back what was written, with growth, allocation and the inode
      on disk ([Icache.writei_readi]); adding a name to a directory
      ([Dirent.dirlink_adds_name]); the last iput gives every block of the file back
      ([Trunc.iput_frees_file]).  mkfs builds a file system that has this shape
      ([Fsimage.mkfs_builds]), and a kernel that boots on it finds and reads the files
      ([Mount.mkfs_boot_read]).
    - Memory: the page allocator and malloc hand out disjoint memory and never follow a
      pointer a client wrote ([Kalloc.kalloc_safe], [Umalloc.malloc_safe]); growing,
      shrinking and copying an address space ([Uvm.allocuvm_deallocuvm],
      [Copyuvm.copyuvm_spec]); the segments and the stack with the arguments that a new
      program finds ([Image.loaduvm_loads], [Image.exec_stack]).
    - Files and calls: every reference count is the number of descriptors
      ([Descr.descriptors_counted]), the checks of arguments ([Syscall.args_checked]).
    - Processes: the process table stays well formed under every interleaving of the
      routines cut at their lock operations, as long as no thread of a process exits while
      another one is in fork and identifiers do not wrap around
      ([Kthread.System.process_table_safe]); fork gives the child the memory, the files and
      the registers of its parent ([Kernel.fork_makes_child]); wait ([Proc.wait_spec]).
    - Traps: the frame trap() gets describes the interrupted state whatever the trap, and
      trapret restores it ([Trapasm.trap_roundtrip]); swtch resumes what it saved
      ([Trapasm.swtch_resumes]); the clock interrupt ([Trap.timer_interrupt]); no return to
      user code in a killed process ([Trap.no_return_when_killed]).
    - Devices and start: the kernel is loaded as its file says ([Boot.bootmain_loads]); the
      lines of the devices in use, and no others, reach the vectors of trap()
      ([Intr.interrupts_routed]); the processors are found ([Mp.mpinit_reads_table]) and
      started ([Startap.startothers_starts]); the time is not torn
      ([Intr.cmostime_not_torn]); the console is a line editor
      ([Lineedit.console_edits_lines]).
    - Concurrency: mutual exclusion ([Spinlock.Sys.mutual_exclusion]); pipes deliver the
      bytes in order and lose no wakeup ([Pipe.Sched.pipe_fifo], [Pipe.Sched.no_lost_wakeup]).
    - User programs: the matcher of grep is the meaning of the pattern
      ([Grep.match_correct]), the parser of the shell ends and accepts exactly the lines of
      a grammar, with the commands the grammar gives ([Sh.parsecmd_terminates],
      [Shparse.parsecmd_grammar]), pipelines are wired up as written ([Sh.pipeline_wired]),
      cat copies, wc counts and ls lists ([Uprog.cat_copies], [Uprog.wc_counts],
      [Uprog.ls_lists]).

    ** Bounds and fuel

    Loops that are not structural take a number of rounds computed from the data: readi and
    writei one more than the bytes asked for, directory scans the size of the directory,
    namex the length of the path, balloc the blocks of the disk, walks over lists in memory
    the size of the memory.  Waits for a device or a processor take a bound [spins], which
    the theorems ask to exceed the time the device takes.  The theorems conclude [Ret], or
    exclude [Fuel], so the bounds are enough.  The parser of the shell recurses with a bound
    that grows with the line, and [Sh.parsecmd_terminates] shows that it is not reached.
    The interaction trees of [Uprog] need no bound; [ends] says that a program ends.

    ** Parameters

    Code outside the repository and facts about the machine are arguments: the linker's
    [end] and [data], the addresses of assembly labels (trapret, forkret, mpenter), the
    bytes of binaries that the build makes (initcode, entryother), the devices behind devsw,
    the disks behind the ports (the classes [Ide.Ports], [Ide.Drive] and [Boot.BootDrive],
    with instances), the times devices take, the answer of the kernel to sbrk in [Umalloc]
    ([grows], with the hypothesis that a process stays below KERNBASE), the contents that
    reads return to user programs.  proc.c is modelled against the interface [ProcEnv] of
    what it calls, of which [Kernel] has the instance; trap() takes the routines of the system
    calls as an argument.

    ** Not modelled

    - Sleeping in the file system: bread, ilock and begin_op end with [Sleep] where the code
      waits, and the call ends there; pipes, wait, join, sys_sleep, the console and the disk
      driver are resumed.
    - Changes of processor mode: bootasm.S, entry.S, the first part of entryother.S and
      initcode.S, and the loads of cr3, the task and descriptor table registers (kvmalloc,
      switchkvm, idtinit).  Of main() only the calls that set up memory, interrupts and
      processors are put together.
    - The test programs, and the headers of monitors that have no implementation.
    - getcallerpcs and the names of locks, which only serve debugging. *)

From stdpp Require Import base list numbers strings.

Open Scope Z_scope.

(** ** Machine integers

    C integers of width [w] are kept as [Z]; every operation that can leave the
    range is followed by the wrap-around of its C type. *)

Definition u8 (x : Z) : Z := x mod 2 ^ 8.
Definition u16 (x : Z) : Z := x mod 2 ^ 16.
Definition u32 (x : Z) : Z := x mod 2 ^ 32.
Definition i16 (x : Z) : Z := (x + 2 ^ 15) mod 2 ^ 16 - 2 ^ 15.
Definition i32 (x : Z) : Z := (x + 2 ^ 31) mod 2 ^ 32 - 2 ^ 31.

Create Rewrite HintDb kint.

Lemma u32_range x : 0 <= u32 x < 2 ^ 32.
Proof. unfold u32. apply Z.mod_pos_bound. lia. Qed.

Lemma u8_range x : 0 <= u8 x < 256.
Proof. unfold u8. apply Z.mod_pos_bound. lia. Qed.

Lemma u16_range x : 0 <= u16 x < 2 ^ 16.
Proof. unfold u16. apply Z.mod_pos_bound. lia. Qed.

Lemma u32_small x : 0 <= x < 2 ^ 32 -> u32 x = x.
Proof. intros. unfold u32. by apply Z.mod_small. Qed.

Lemma u8_small x : 0 <= x < 256 -> u8 x = x.
Proof. intros. unfold u8. by apply Z.mod_small. Qed.

Lemma u16_small x : 0 <= x < 2 ^ 16 -> u16 x = x.
Proof. intros. unfold u16. by apply Z.mod_small. Qed.

Lemma i32_range x : - 2 ^ 31 <= i32 x < 2 ^ 31.
Proof. unfold i32. pose proof (Z.mod_pos_bound (x + 2 ^ 31) (2 ^ 32)). lia. Qed.

Lemma i32_small x : - 2 ^ 31 <= x < 2 ^ 31 -> i32 x = x.
Proof. intros. unfold i32. rewrite Z.mod_small; lia. Qed.

Lemma i16_small x : - 2 ^ 15 <= x < 2 ^ 15 -> i16 x = x.
Proof. intros. unfold i16. rewrite Z.mod_small; lia. Qed.

#[export] Hint Rewrite u32_small u8_small u16_small i32_small i16_small using lia : kint.

(** ** Bytes, little-endian words and buffers

    A byte is a [Z] between 0 and 255, a buffer a list of bytes. *)

Definition byte (b : Z) : Prop := 0 <= b < 256.
Definition bytes (l : list Z) : Prop := Forall byte l.

Fixpoint to_le (n : nat) (x : Z) : list Z :=
  match n with
  | O => []
  | S n => x mod 256 :: to_le n (x / 256)
  end.

Fixpoint of_le (l : list Z) : Z :=
  match l with
  | [] => 0
  | b :: l => b + 256 * of_le l
  end.

Lemma length_to_le n x : length (to_le n x) = n.
Proof. revert x. induction n; intros; simpl; auto. Qed.

Lemma bytes_to_le n x : bytes (to_le n x).
Proof.
  revert x. induction n; intros; simpl; constructor; [|apply IHn].
  unfold byte. pose proof (Z.mod_pos_bound x 256). lia.
Qed.

Lemma of_le_to_le n x : of_le (to_le n x) = x mod 256 ^ Z.of_nat n.
Proof.
  revert x. induction n; intros.
  - simpl. by rewrite Z.mod_1_r.
  - cbn [to_le of_le]. rewrite IHn, Nat2Z.inj_succ, Z.pow_succ_r by lia.
    rewrite Z.rem_mul_r by lia. lia.
Qed.

Lemma of_le_range l : bytes l -> 0 <= of_le l < 256 ^ Z.of_nat (length l).
Proof.
  induction 1 as [|b l Hb _ IH]; [simpl; lia|].
  cbn [of_le length]. rewrite Nat2Z.inj_succ, Z.pow_succ_r by lia.
  unfold byte in Hb. lia.
Qed.

Lemma to_le_of_le l : bytes l -> to_le (length l) (of_le l) = l.
Proof.
  induction 1 as [|b l Hb _ IH]; [done|]. unfold byte in Hb.
  cbn [of_le length to_le]. rewrite (Z.mul_comm 256), Z_mod_plus_full, Z.mod_small by lia.
  rewrite Z.div_add, Z.div_small, Z.add_0_l by lia. by rewrite IH.
Qed.

(** [slice off n l]: the [n] bytes at [off]; [splice off x l]: [l] with the bytes
    from [off] on overwritten by [x]. *)

Definition slice {A} (off n : nat) (l : list A) : list A := take n (drop off l).
Definition splice {A} (off : nat) (x l : list A) : list A :=
  take off l ++ x ++ drop (off + length x) l.

Section Slices.
Context {A : Type}.
Implicit Types (l x : list A).

Lemma length_splice off x l :
  (off + length x <= length l)%nat -> length (splice off x l) = length l.
Proof. intros. unfold splice. rewrite !length_app, length_take, length_drop. lia. Qed.

Lemma length_slice off n l : (off + n <= length l)%nat -> length (slice off n l) = n.
Proof. intros. unfold slice. rewrite length_take, length_drop. lia. Qed.

Lemma lookup_splice off x l i :
  (off + length x <= length l)%nat ->
  splice off x l !! i =
    if decide (off <= i < off + length x)%nat then x !! (i - off)%nat else l !! i.
Proof.
  intros H. unfold splice. case_decide as Hi.
  - rewrite lookup_app_r by (rewrite length_take; lia).
    rewrite length_take, Nat.min_l, lookup_app_l by lia. done.
  - destruct (decide (i < off)%nat).
    + rewrite lookup_app_l by (rewrite length_take; lia). by rewrite lookup_take_lt.
    + rewrite lookup_app_r by (rewrite length_take; lia).
      rewrite length_take, Nat.min_l, lookup_app_r by lia.
      rewrite lookup_drop. f_equal. lia.
Qed.

Lemma lookup_slice off n l i :
  slice off n l !! i = if decide (i < n)%nat then l !! (off + i)%nat else None.
Proof.
  unfold slice. case_decide.
  - by rewrite lookup_take_lt, lookup_drop by lia.
  - by rewrite lookup_take_ge by lia.
Qed.

Lemma slice_splice_same off x l :
  (off + length x <= length l)%nat -> slice off (length x) (splice off x l) = x.
Proof.
  intros H. apply list_eq. intros i. rewrite lookup_slice.
  case_decide; [|symmetry; apply lookup_ge_None; lia].
  rewrite lookup_splice by done. rewrite decide_True by lia. f_equal. lia.
Qed.

Lemma slice_splice_disj off x l off' n :
  (off + length x <= length l)%nat ->
  (off' + n <= off \/ off + length x <= off')%nat ->
  slice off' n (splice off x l) = slice off' n l.
Proof.
  intros H Hd. apply list_eq. intros i. rewrite !lookup_slice.
  case_decide; [|done]. rewrite lookup_splice by done. by rewrite decide_False by lia.
Qed.

Lemma splice_slice_id off n l :
  (off + n <= length l)%nat -> splice off (slice off n l) l = l.
Proof.
  intros H. apply list_eq. intros i.
  rewrite lookup_splice by (rewrite length_slice; lia).
  rewrite length_slice by lia. case_decide; [|done].
  rewrite lookup_slice, decide_True by lia. f_equal. lia.
Qed.

(** Overwriting the first [sz] elements, [x] possibly reaching past them. *)
Lemma take_splice off x l sz :
  (off <= sz <= length l)%nat -> (off + length x <= length l)%nat ->
  take (Nat.max sz (off + length x)) (splice off x l) = splice off x (take sz l).
Proof.
  intros H1 H2. unfold splice. rewrite take_take, Nat.min_l by lia.
  rewrite !take_app, !length_take, Nat.min_l, take_take, Nat.min_r, (take_ge x) by lia.
  do 2 f_equal. destruct (decide (off + length x <= sz)%nat).
  - rewrite take_drop_commute. do 2 f_equal. lia.
  - rewrite (drop_ge (take sz l)) by (rewrite length_take; lia).
    replace (_ - _ - _)%nat with 0%nat by lia. done.
Qed.

Lemma splice_app_l off x y l :
  (off + length (x ++ y) <= length l)%nat ->
  splice (off + length x) y (splice off x l) = splice off (x ++ y) l.
Proof.
  rewrite length_app. intros H. apply list_eq. intros i.
  rewrite lookup_splice by (rewrite length_splice; lia).
  rewrite !lookup_splice by (rewrite ?length_app; lia). rewrite length_app.
  repeat case_decide; try lia; try done.
  - rewrite lookup_app_r by lia. f_equal. lia.
  - by rewrite lookup_app_l by lia.
Qed.

Lemma Forall_splice (P : A -> Prop) off x l :
  Forall P x -> Forall P l -> Forall P (splice off x l).
Proof.
  intros Hx Hl. unfold splice. apply Forall_app. split; [by apply Forall_take|].
  apply Forall_app. split; [done|by apply Forall_drop].
Qed.

Lemma Forall_slice (P : A -> Prop) off n l : Forall P l -> Forall P (slice off n l).
Proof. intros Hl. unfold slice. by apply Forall_take, Forall_drop. Qed.
End Slices.

(** ** The kernel monad

    A kernel routine is run from a state to a result: it returns, it calls
    [panic], it goes to sleep on a channel (the state is the one it sleeps in),
    it makes an access outside the object it has, or a bounded loop of the model
    runs out of fuel. *)

Inductive chan :=
| ChBuf (i : Z) | ChInode (i : Z) | ChLog | ChTicks | ChInput
| ChPipeRead | ChPipeWrite | ChProc (p : Z) | ChThread (p t : Z).

#[export] Instance chan_eq_dec : EqDecision chan.
Proof. solve_decision. Defined.

Inductive res (S A : Type) :=
| Ret (a : A) (s : S)
| Panic (msg : string)
| Sleep (c : chan) (s : S)
| Fault
| Fuel.
Arguments Ret {S A} a s.
Arguments Panic {S A} msg.
Arguments Sleep {S A} c s.
Arguments Fault {S A}.
Arguments Fuel {S A}.

Definition M (S A : Type) : Type := S -> res S A.

Section Monad.
Context {S : Type}.

Definition ret {A} (a : A) : M S A := fun s => Ret a s.

Definition bind {A B} (m : M S A) (k : A -> M S B) : M S B := fun s =>
  match m s with
  | Ret a s' => k a s'
  | Panic msg => Panic msg
  | Sleep c s' => Sleep c s'
  | Fault => Fault
  | Fuel => Fuel
  end.

Definition panic {A} (msg : string) : M S A := fun _ => Panic msg.
Definition fault {A} : M S A := fun _ => Fault.
Definition out_of_fuel {A} : M S A := fun _ => Fuel.
Definition sleep_on {A} (c : chan) : M S A := fun s => Sleep c s.
Definition gets {A} (f : S -> A) : M S A := fun s => Ret (f s) s.
Definition modify (f : S -> S) : M S unit := fun s => Ret tt (f s).

(** An array access: outside the array it is a fault. *)
Definition lift_opt {A} (o : option A) : M S A :=
  match o with Some a => ret a | None => fault end.

Fixpoint forM {A} (l : list A) (f : A -> M S unit) : M S unit :=
  match l with
  | [] => ret tt
  | a :: l => bind (f a) (fun _ => forM l f)
  end.

(** Total correctness: [wp m Q s] says that [m] run from [s] returns, and that
    [Q] holds of its result and final state. *)
Definition wp {A} (m : M S A) (Q : A -> S -> Prop) (s : S) : Prop :=
  match m s with Ret a s' => Q a s' | _ => False end.

Lemma wp_ret {A} (a : A) Q s : Q a s -> wp (ret a) Q s.
Proof. done. Qed.

Lemma wp_bind {A B} (m : M S A) (k : A -> M S B) Q s :
  wp m (fun a s' => wp (k a) Q s') s -> wp (bind m k) Q s.
Proof. unfold wp, bind. by destruct (m s). Qed.

Lemma wp_mono {A} (m : M S A) (Q Q' : A -> S -> Prop) s :
  wp m Q s -> (forall a s', Q a s' -> Q' a s') -> wp m Q' s.
Proof. unfold wp. destruct (m s); naive_solver. Qed.

Lemma wp_run {A} (m : M S A) Q s :
  wp m Q s -> exists a s', m s = Ret a s' /\ Q a s'.
Proof. unfold wp. destruct (m s); naive_solver. Qed.

Lemma wp_of_run {A} (m : M S A) (Q : A -> S -> Prop) s a s' :
  m s = Ret a s' -> Q a s' -> wp m Q s.
Proof. unfold wp. by intros ->. Qed.

Lemma wp_gets {A} (f : S -> A) Q s : Q (f s) s -> wp (gets f) Q s.
Proof. done. Qed.

Lemma wp_modify f Q s : Q tt (f s) -> wp (modify f) Q s.
Proof. done. Qed.

Lemma wp_lift_opt {A} (o : option A) Q s a :
  o = Some a -> Q a s -> wp (lift_opt o) Q s.
Proof. by intros ->. Qed.

(** The rule for a counted loop: [I k] holds after [k] iterations. *)
Lemma wp_forM {A} (l : list A) (f : A -> M S unit) (I : nat -> S -> Prop) s :
  I 0%nat s ->
  (forall k a s', l !! k = Some a -> I k s' -> wp (f a) (fun _ => I (Datatypes.S k)) s') ->
  wp (forM l f) (fun _ => I (length l)) s.
Proof.
  revert I s. induction l as [|a l IH]; intros I s H0 Hstep; [exact H0|].
  cbn [forM]. apply wp_bind. eapply wp_mono; [apply (Hstep 0%nat a); done|].
  intros [] s' H1. apply (IH (fun k => I (Datatypes.S k))); [done|].
  intros k b s'' Hk HI. by apply (Hstep (Datatypes.S k)).
Qed.
End Monad.

(** A routine of a component, run inside a larger state that contains it. *)
Definition zoom {S T A : Type} (get : T -> S) (put : S -> T -> T) (m : M S A) : M T A := fun t =>
  match m (get t) with
  | Ret a s => Ret a (put s t)
  | Panic msg => Panic msg
  | Sleep c s => Sleep c (put s t)
  | Fault => Fault
  | Fuel => Fuel
  end.

Lemma wp_zoom {S T A : Type} (get : T -> S) put (m : M S A) (Q : A -> T -> Prop) t :
  wp m (fun a s => Q a (put s t)) (get t) -> wp (zoom get put m) Q t.
Proof. unfold wp, zoom. by destruct (m (get t)). Qed.

(** ** Preservation *)

(** [keeps I m]: [m] keeps [I] wherever it returns or goes to sleep. *)
Definition keeps {S A} (I : S -> Prop) (m : M S A) : Prop :=
  forall s, I s -> match m s with Ret _ s' => I s' | Sleep _ s' => I s' | _ => True end.

Create HintDb keeps.

Section Keeps.
Context {S : Type} (I : S -> Prop).

Lemma keeps_ret {A} (a : A) : keeps I (ret a).
Proof. by intros s. Qed.
Lemma keeps_panic {A} m : keeps (A := A) I (panic m).
Proof. by intros s. Qed.
Lemma keeps_fault {A} : keeps (A := A) I fault.
Proof. by intros s. Qed.
Lemma keeps_sleep_on {A} c : keeps (A := A) I (sleep_on c).
Proof. by intros s. Qed.
Lemma keeps_gets {A} (f : S -> A) : keeps I (gets f).
Proof. by intros s. Qed.
Lemma keeps_lift_opt {A} (o : option A) : keeps I (lift_opt o).
Proof. intros s. by destruct o. Qed.
Lemma keeps_bind {A B} (m : M S A) (k : A -> M S B) :
  keeps I m -> (forall a, keeps I (k a)) -> keeps I (bind m k).
Proof.
  intros Hm Hk s Hs. unfold bind. specialize (Hm s Hs). destruct (m s); try done. by apply Hk.
Qed.
Lemma keeps_forM {A} (l : list A) (f : A -> M S unit) : (forall a, keeps I (f a)) -> keeps I (forM l f).
Proof. intros Hf. induction l; simpl; [apply keeps_ret|]. by apply keeps_bind. Qed.
Lemma keeps_if {A} (b : bool) (m1 m2 : M S A) : keeps I m1 -> keeps I m2 -> keeps I (if b then m1 else m2).
Proof. by destruct b. Qed.
End Keeps.

#[export] Hint Resolve keeps_ret keeps_panic keeps_fault keeps_sleep_on keeps_gets keeps_lift_opt
  keeps_forM keeps_if : keeps.
#[export] Hint Extern 1 (keeps _ (bind _ _)) => apply keeps_bind; [|intros ?] : keeps.
#[export] Hint Extern 1 (keeps _ (forM _ _)) => apply keeps_forM; intros ? : keeps.
#[export] Hint Extern 2 (keeps _ (match ?x with _ => _ end)) => destruct x : keeps.

Declare Scope kernel_scope.
Delimit Scope kernel_scope with kernel.
Notation "x <- m ;; k" := (bind m (fun x => k))
  (at level 100, m at next level, right associativity) : kernel_scope.
Notation "m ;; k" := (bind m (fun _ => k))
  (at level 100, right associativity) : kernel_scope.
Notation "'when' b 'do' m" := (if b then m else ret tt)
  (at level 99, b at level 9, m at level 98) : kernel_scope.

(** One symbolic execution step of a goal [wp m Q s]. *)
Ltac wp_step :=
  lazymatch goal with
  | |- wp (bind _ _) _ _ => apply wp_bind
  | |- wp (ret _) _ _ => apply wp_ret
  | |- wp (gets _) _ _ => apply wp_gets
  | |- wp (modify _) _ _ => apply wp_modify
  end; cbv beta.
Ltac wp_steps := repeat wp_step.

(** Case analysis on a boolean test, as propositions over [Z]. *)
Ltac zbool :=
  repeat match goal with
  | H : _ && _ = true |- _ => apply andb_prop in H as [? ?]
  | H : _ || _ = false |- _ => apply orb_false_iff in H as [? ?]
  | H : negb _ = true |- _ => apply negb_true_iff in H
  | H : negb _ = false |- _ => apply negb_false_iff in H
  | H : (_ =? _) = true |- _ => apply Z.eqb_eq in H
  | H : (_ =? _) = false |- _ => apply Z.eqb_neq in H
  | H : (_ <? _) = true |- _ => apply Z.ltb_lt in H
  | H : (_ <? _) = false |- _ => apply Z.ltb_ge in H
  | H : (_ <=? _) = true |- _ => apply Z.leb_le in H
  | H : (_ <=? _) = false |- _ => apply Z.leb_gt in H
  end.
