(* ===== verification/CString.v ===== *)
(** * string.c: the kernel's memory and string routines

    [Mem] models the routines whose behaviour depends on addresses (memset,
    memcmp, memmove, memcpy) over a flat 32-bit memory; [Str] models the string
    routines over buffers, lists of bytes from the pointer to the end of the
    object, where reading or writing past the end is [None].

    The theorems: memset's word-at-a-time path and its byte path do the same;
    memmove copies as if through a temporary for every overlap; strncmp decides
    equality of the strings cut at n; strncpy followed by strncmp gives 0;
    safestrcpy terminates its result and stays inside the n bytes. *)

From stdpp Require Import base list numbers.
From S2P Require Import Prelude.

Open Scope Z_scope.

Module Mem.

(** Memory: the byte at each address. *)
Definition mem : Type := Z -> Z.

Definition upd (m : mem) (a v : Z) : mem := fun x => if x =? a then v else m x.

(** [rep stosb]: [cnt] copies of the low byte of [data]. *)
Fixpoint stosb (cnt : nat) (m : mem) (addr data : Z) : mem :=
  match cnt with
  | O => m
  | S cnt => stosb cnt (upd m addr (u8 data)) (u32 (addr + 1)) data
  end.

Definition store32 (m : mem) (a w : Z) : mem :=
  upd (upd (upd (upd m a (u8 w)) (u32 (a + 1)) (u8 (Z.shiftr w 8)))
    (u32 (a + 2)) (u8 (Z.shiftr w 16))) (u32 (a + 3)) (u8 (Z.shiftr w 24)).

(** [rep stosl]: [cnt] copies of the 32-bit word [data]. *)
Fixpoint stosl (cnt : nat) (m : mem) (addr data : Z) : mem :=
  match cnt with
  | O => m
  | S cnt => stosl cnt (store32 m addr data) (u32 (addr + 4)) data
  end.

Definition memset (m : mem) (dst c n : Z) : Z * mem :=
  if (Z.rem (i32 dst) 4 =? 0) && (n mod 4 =? 0) then
    let c := Z.land c 255 in
    (dst, stosl (Z.to_nat (n / 4)) m dst
            (u32 (Z.lor (Z.lor (Z.lor (Z.shiftl c 24) (Z.shiftl c 16)) (Z.shiftl c 8)) c)))
  else (dst, stosb (Z.to_nat n) m dst c).

Fixpoint memcmp_loop (n : nat) (m : mem) (s1 s2 : Z) : Z :=
  match n with
  | O => 0
  | S n => if m s1 =? m s2 then memcmp_loop n m (u32 (s1 + 1)) (u32 (s2 + 1))
           else m s1 - m s2
  end.

Definition memcmp (m : mem) (v1 v2 n : Z) : Z := memcmp_loop (Z.to_nat n) m v1 v2.

(** [while(n-- > 0) *--d = *--s;] *)
Fixpoint move_down (n : nat) (m : mem) (d s : Z) : mem :=
  match n with
  | O => m
  | S n => let d := u32 (d - 1) in let s := u32 (s - 1) in
           move_down n (upd m d (m s)) d s
  end.

(** [while(n-- > 0) *d++ = *s++;] *)
Fixpoint move_up (n : nat) (m : mem) (d s : Z) : mem :=
  match n with
  | O => m
  | S n => move_up n (upd m d (m s)) (u32 (d + 1)) (u32 (s + 1))
  end.

Definition memmove (m : mem) (dst src n : Z) : Z * mem :=
  if (src <? dst) && (dst <? u32 (src + n)) then
    (dst, move_down (Z.to_nat n) m (u32 (dst + n)) (u32 (src + n)))
  else (dst, move_up (Z.to_nat n) m dst src).

Definition memcpy (m : mem) (dst src n : Z) : Z * mem := memmove m dst src n.

(** ** Proofs *)

Lemma upd_eq m a v x : x = a -> upd m a v x = v.
Proof. intros ->. unfold upd. by rewrite Z.eqb_refl. Qed.

Lemma upd_ne m a v x : x <> a -> upd m a v x = m x.
Proof. intros. unfold upd. by rewrite (proj2 (Z.eqb_neq x a)). Qed.

(** The range test of the specifications. *)
Definition within (a lo n : Z) : bool := (lo <=? a) && (a <? lo + n).

Ltac range_cases :=
  unfold within in *;
  repeat match goal with
  | |- context [?a <=? ?b] => destruct (Z.leb_spec a b)
  | |- context [?a <? ?b] => destruct (Z.ltb_spec a b)
  end; simpl; try lia.

Lemma stosb_spec cnt m addr data a :
  0 <= addr -> addr + Z.of_nat cnt < 2 ^ 32 ->
  stosb cnt m addr data a = if within a addr (Z.of_nat cnt) then u8 data else m a.
Proof.
  revert m addr. induction cnt as [|k IH]; intros m addr H0 H1.
  - range_cases; done.
  - cbn [stosb]. rewrite u32_small by lia. rewrite IH by lia.
    destruct (Z.eq_dec a addr) as [->|Hne].
    + rewrite upd_eq by done. range_cases; done.
    + rewrite upd_ne by done. range_cases; done.
Qed.

Lemma store32_spec m addr w a :
  0 <= addr -> addr + 4 < 2 ^ 32 ->
  store32 m addr w a =
    if within a addr 4 then u8 (Z.shiftr w (8 * (a - addr))) else m a.
Proof.
  intros. unfold store32. rewrite !u32_small by lia. unfold upd.
  repeat match goal with |- context [?x =? ?y] => destruct (Z.eqb_spec x y); subst end;
    range_cases; try done; first [by rewrite Z.sub_diag | do 2 f_equal; lia].
Qed.

(** The replicated word has the byte [c] in each of its four positions. *)
Lemma replicated_byte c i :
  0 <= i < 4 ->
  u8 (Z.shiftr
    (u32 (Z.lor (Z.lor (Z.lor (Z.shiftl (Z.land c 255) 24) (Z.shiftl (Z.land c 255) 16))
            (Z.shiftl (Z.land c 255) 8)) (Z.land c 255))) (8 * i)) = u8 c.
Proof.
  intros Hi. unfold u8, u32. change 255 with (Z.ones 8).
  assert (i = 0 \/ i = 1 \/ i = 2 \/ i = 3) as Hc by lia.
  apply Z.bits_inj'. intros k Hk.
  destruct (decide (k < 8)).
  - rewrite !Z.mod_pow2_bits_low by lia. rewrite Z.shiftr_spec by lia.
    rewrite Z.mod_pow2_bits_low by lia. rewrite !Z.lor_spec, !Z.shiftl_spec by lia.
    rewrite !Z.land_spec, !Z.testbit_ones by lia.
    destruct Hc as [-> | [-> | [-> | ->]]]; range_cases;
      rewrite ?andb_false_r, ?andb_true_r, ?orb_false_r; simpl; try (f_equal; lia).
  - by rewrite !Z.mod_pow2_bits_high by lia.
Qed.

Lemma stosl_spec cnt m addr w v a :
  0 <= addr -> addr + 4 * Z.of_nat cnt < 2 ^ 32 ->
  (forall i, 0 <= i < 4 -> u8 (Z.shiftr w (8 * i)) = v) ->
  stosl cnt m addr w a = if within a addr (4 * Z.of_nat cnt) then v else m a.
Proof.
  intros H0 H1 Hw. revert m addr H0 H1. induction cnt as [|k IH]; intros m addr H0 H1.
  - range_cases; done.
  - cbn [stosl]. rewrite u32_small by lia. rewrite IH by lia.
    rewrite store32_spec by lia.
    destruct (within a addr 4) eqn:E; range_cases; try done; apply Hw;
      unfold within in E; zbool; lia.
Qed.

Lemma rem_i32_mod4 x : 0 <= x < 2 ^ 32 -> (Z.rem (i32 x) 4 = 0 <-> x mod 4 = 0).
Proof.
  intros Hx. rewrite Z.rem_divide, <- Z.mod_divide by lia.
  assert (i32 x = x \/ i32 x = x - 2 ^ 32) as [-> | ->].
  { unfold i32. destruct (decide (x < 2 ^ 31)); [left; rewrite Z.mod_small; lia|right].
    replace (x + 2 ^ 31) with (x - 2 ^ 31 + 1 * 2 ^ 32) by lia.
    rewrite Z_mod_plus_full, Z.mod_small; lia. }
  - done.
  - replace (x - 2 ^ 32) with (x + (- 2 ^ 30) * 4) by lia. by rewrite Z_mod_plus_full.
Qed.

Lemma memset_spec m dst c n a :
  0 <= dst -> 0 <= n -> dst + n < 2 ^ 32 ->
  snd (memset m dst c n) a = if within a dst n then u8 c else m a.
Proof.
  intros Hd Hn Hr. unfold memset.
  destruct ((Z.rem (i32 dst) 4 =? 0) && (n mod 4 =? 0)) eqn:E; simpl.
  - zbool. assert (n = 4 * (n / 4)) by (pose proof (Z.div_mod n 4); lia).
    rewrite (stosl_spec _ _ _ _ (u8 c)); [|lia..|apply replicated_byte].
    rewrite Z2Nat.id by (apply Z.div_pos; lia). by replace (4 * (n / 4)) with n by lia.
  - rewrite stosb_spec by lia. by rewrite Z2Nat.id.
Qed.

(** Memset stores the low byte of [c] in each of the [n] bytes at [dst] and
    changes nothing else, whether it takes the word path or the byte path. *)
Theorem memset_fills m dst c n a :
  0 <= dst -> 0 <= n -> dst + n < 2 ^ 32 ->
  snd (memset m dst c n) a = if within a dst n then u8 c else m a.
Proof. apply memset_spec. Qed.

Lemma memset_fills_witness :
  snd (memset (fun _ => 7) 8 (-1) 8) 15 = 255 /\ snd (memset (fun _ => 7) 9 3 6) 15 = 7.
Proof.
  split.
  - rewrite (memset_fills (fun _ => 7) 8 (-1) 8 15) by lia. reflexivity.
  - rewrite (memset_fills (fun _ => 7) 9 3 6 15) by lia. reflexivity.
Defined.

Lemma move_up_spec n m d s a :
  0 <= d -> 0 <= s -> d + Z.of_nat n < 2 ^ 32 -> s + Z.of_nat n < 2 ^ 32 ->
  d <= s \/ s + Z.of_nat n <= d ->
  move_up n m d s a = if within a d (Z.of_nat n) then m (s + (a - d)) else m a.
Proof.
  revert m d s. induction n as [|k IH]; intros m d s Hd Hs Hdn Hsn Hov.
  - range_cases; done.
  - cbn [move_up]. rewrite !u32_small by lia. rewrite IH by lia.
    destruct (Z.eq_dec a d) as [->|Hne].
    + range_cases. rewrite upd_eq by done. f_equal. lia.
    + range_cases; try (by rewrite upd_ne by lia).
      all: rewrite upd_ne by lia; f_equal; lia.
Qed.

Lemma move_down_spec n m d s a :
  Z.of_nat n <= s -> s < d -> d < 2 ^ 32 ->
  move_down n m d s a =
    if within a (d - Z.of_nat n) (Z.of_nat n) then m (s - (d - a)) else m a.
Proof.
  revert m d s. induction n as [|k IH]; intros m d s Hs Hsd Hd.
  - range_cases; done.
  - cbn [move_down]. rewrite !(u32_small (_ - 1)) by lia. rewrite IH by lia.
    destruct (Z.eq_dec a (d - 1)) as [->|Hne].
    + range_cases. rewrite upd_eq by done. f_equal. lia.
    + range_cases; try (by rewrite upd_ne by lia).
      all: rewrite upd_ne by lia; f_equal; lia.
Qed.

Lemma memmove_spec m dst src n a :
  0 <= dst -> 0 <= src -> 0 <= n -> dst + n < 2 ^ 32 -> src + n < 2 ^ 32 ->
  snd (memmove m dst src n) a = if within a dst n then m (src + (a - dst)) else m a.
Proof.
  intros Hd Hs Hn Hdn Hsn. unfold memmove. rewrite (u32_small (src + n)) by lia.
  destruct ((src <? dst) && (dst <? src + n)) eqn:E; simpl.
  - zbool. rewrite u32_small, move_down_spec by lia. rewrite Z2Nat.id by lia.
    replace (dst + n - n) with dst by lia.
    by replace (src + n - (dst + n - a)) with (src + (a - dst)) by lia.
  - assert (dst <= src \/ src + n <= dst).
    { apply andb_false_iff in E as [E|E]; zbool; lia. }
    rewrite move_up_spec by lia. by rewrite Z2Nat.id.
Qed.

(** Memmove leaves in [dst, dst+n) the bytes [src, src+n) held before the
    call, for every overlap of the two, and changes nothing else. *)
Theorem memmove_copies m dst src n a :
  0 <= dst -> 0 <= src -> 0 <= n -> dst + n < 2 ^ 32 -> src + n < 2 ^ 32 ->
  snd (memmove m dst src n) a = if within a dst n then m (src + (a - dst)) else m a.
Proof. apply memmove_spec. Qed.

Lemma memmove_copies_witness :
  map (snd (memmove (fun x => x) 12 10 5)) [11; 12; 13; 14; 15; 16; 17]
    = [11; 10; 11; 12; 13; 14; 17].
Proof.
  cbn [map]. rewrite !(memmove_copies (fun x => x) 12 10 5) by lia. reflexivity.
Defined.

Lemma memcmp_loop_zero k m v1 v2 :
  0 <= v1 -> 0 <= v2 -> v1 + Z.of_nat k < 2 ^ 32 -> v2 + Z.of_nat k < 2 ^ 32 ->
  memcmp_loop k m v1 v2 = 0 <->
    (forall i, 0 <= i < Z.of_nat k -> m (v1 + i) = m (v2 + i)).
Proof.
  revert v1 v2. induction k as [|k IH]; intros v1 v2 H1 H2 Hn1 Hn2; [simpl; split; [lia|done]|].
  cbn [memcmp_loop]. destruct (Z.eqb_spec (m v1) (m v2)) as [He|Hne].
  - rewrite !u32_small by lia. rewrite IH by lia. split; intros H i Hi.
    + destruct (decide (i = 0)) as [->|]; [by rewrite !Z.add_0_r|].
      replace (v1 + i) with (v1 + 1 + (i - 1)) by lia.
      replace (v2 + i) with (v2 + 1 + (i - 1)) by lia. apply H. lia.
    + rewrite <- !Z.add_assoc. apply H. lia.
  - split; [lia|]. intros H. specialize (H 0). rewrite !Z.add_0_r in H. lia.
Qed.

(** memcmp is 0 exactly when the two regions are equal. *)
Lemma memcmp_zero_iff m v1 v2 n :
  0 <= v1 -> 0 <= v2 -> 0 <= n -> v1 + n < 2 ^ 32 -> v2 + n < 2 ^ 32 ->
  memcmp m v1 v2 n = 0 <-> (forall i, 0 <= i < n -> m (v1 + i) = m (v2 + i)).
Proof.
  intros. unfold memcmp. rewrite memcmp_loop_zero by lia. by rewrite Z2Nat.id.
Qed.
End Mem.

Module Str.

(** [while(n > 0 && *p && *p == *q) n--, p++, q++;] and the two returns. *)
Fixpoint strncmp (p q : list Z) (n : nat) {struct n} : option Z :=
  match n with
  | O => Some 0
  | S n' =>
      match p, q with
      | a :: p', b :: q' =>
          if negb (a =? 0) && (a =? b) then strncmp p' q' n' else Some (u8 a - u8 b)
      | _, _ => None
      end
  end.

(** The bytes the two loops of strncpy store: the copy up to and including the
    NUL, then zeros for what is left of [n]. *)
Fixpoint strncpy_bytes (t : list Z) (n : nat) {struct n} : option (list Z) :=
  match n with
  | O => Some []
  | S n' =>
      match t with
      | [] => None
      | c :: t' => if c =? 0 then Some (0 :: replicate n' 0)
                   else cons c <$> strncpy_bytes t' n'
      end
  end.

Definition strncpy (s t : list Z) (n : Z) : option (list Z) :=
  l ← strncpy_bytes t (Z.to_nat n);
  if decide (length l <= length s)%nat then Some (splice 0 l s) else None.

(** [while(--n > 0 && ( *s++ = *t++ ) != 0);] then [*s = 0]. *)
Fixpoint safestrcpy_bytes (t : list Z) (n : nat) {struct n} : option (list Z) :=
  match n with
  | O => Some [0]
  | S n' =>
      match t with
      | [] => None
      | c :: t' => if c =? 0 then Some [0; 0] else cons c <$> safestrcpy_bytes t' n'
      end
  end.

Definition safestrcpy (s t : list Z) (n : Z) : option (list Z) :=
  if n <=? 0 then Some s
  else l ← safestrcpy_bytes t (Z.to_nat (n - 1));
       if decide (length l <= length s)%nat then Some (splice 0 l s) else None.

Fixpoint strlen (s : list Z) : option Z :=
  match s with
  | [] => None
  | c :: s' => if c =? 0 then Some 0 else Z.succ <$> strlen s'
  end.

(** ** Specification: the string at a pointer, cut at [n] characters *)

Fixpoint cstr (n : nat) (p : list Z) : list Z :=
  match n, p with
  | S n', c :: p' => if c =? 0 then [] else c :: cstr n' p'
  | _, _ => []
  end.

(** A string readable to its NUL or for [n] characters. *)
Definition readable (n : nat) (p : list Z) : Prop := In 0 p \/ (n <= length p)%nat.

Lemma readable_cons n c p : readable (S n) (c :: p) -> c <> 0 -> readable n p.
Proof. unfold readable. simpl. intros [[->|]|] ?; [done|auto|right; lia]. Qed.

Lemma readable_nil n : readable (S n) [] -> False.
Proof. unfold readable. simpl. intros [[]|]. lia. Qed.

Lemma strncmp_spec p q n :
  bytes p -> bytes q -> readable n p -> readable n q ->
  exists r, strncmp p q n = Some r /\ (r = 0 <-> cstr n p = cstr n q).
Proof.
  revert p q. induction n as [|n IH]; intros p q Hp Hq Rp Rq; [by exists 0; split; [done|split]|].
  destruct p as [|a p]; [by apply readable_nil in Rp|].
  destruct q as [|b q]; [by apply readable_nil in Rq|].
  inversion Hp as [|? ? Ha Hp']; inversion Hq as [|? ? Hb Hq']; subst; unfold byte in *.
  cbn [strncmp cstr].
  destruct (Z.eqb_spec a 0) as [->|Ha0]; simpl.
  - exists (0 - u8 b). split; [done|]. rewrite u8_small by lia.
    destruct (Z.eqb_spec b 0); split; intros; try done; lia.
  - destruct (Z.eqb_spec a b) as [->|Hab].
    + destruct (IH p q) as (r & Hr & Hiff); eauto using readable_cons.
      exists r. split; [done|]. rewrite Hiff.
      destruct (Z.eqb_spec b 0); [lia|]. split; congruence.
    + exists (u8 a - u8 b). split; [done|]. rewrite !u8_small by lia.
      destruct (Z.eqb_spec b 0); split; intros HH; first [lia | discriminate HH | injection HH; lia].
Qed.

(** Strncmp never reads past strings that are terminated or [n] long, and it
    is 0 exactly when the two strings cut at [n] characters are equal. *)
Theorem strncmp_decides p q n :
  bytes p -> bytes q -> readable n p -> readable n q ->
  exists r, strncmp p q n = Some r /\ (r = 0 <-> cstr n p = cstr n q).
Proof. apply strncmp_spec. Qed.

Lemma strncmp_decides_witness :
  exists r, strncmp [46; 0] [46; 46; 0] 14 = Some r /\ (r = 0 <-> [46] = [46; 46]).
Proof.
  apply (strncmp_decides [46; 0] [46; 46; 0] 14).
  - repeat constructor; unfold byte; lia.
  - repeat constructor; unfold byte; lia.
  - left. simpl. tauto.
  - left. simpl. tauto.
Defined.

Lemma strncpy_bytes_spec t n :
  readable n t ->
  strncpy_bytes t n = Some (cstr n t ++ replicate (n - length (cstr n t)) 0).
Proof.
  revert t. induction n as [|n IH]; intros t Rt; [done|].
  destruct t as [|c t]; [by apply readable_nil in Rt|]. cbn [strncpy_bytes cstr].
  destruct (Z.eqb_spec c 0); [done|]. rewrite IH by eauto using readable_cons. done.
Qed.

Lemma length_cstr n p : (length (cstr n p) <= n)%nat.
Proof.
  revert p. induction n; intros [|c p]; simpl; try lia.
  destruct (c =? 0); simpl; [lia|]. specialize (IHn p). lia.
Qed.

Lemma cstr_padded n p r :
  cstr n (cstr n p ++ replicate (n - length (cstr n p)) 0 ++ r) = cstr n p.
Proof.
  revert p. induction n as [|n IH]; intros p; [done|]. destruct p as [|c p]; cbn [cstr].
  - done.
  - destruct (Z.eqb_spec c 0) as [->|Hc]; cbn [length]; [done|].
    rewrite <- app_comm_cons. cbn [cstr]. rewrite (proj2 (Z.eqb_neq c 0) Hc).
    f_equal. apply IH.
Qed.

Lemma strncpy_spec s t n :
  readable n t -> (n <= length s)%nat ->
  exists s', strncpy s t (Z.of_nat n) = Some s' /\ length s' = length s /\
    cstr n s' = cstr n t /\ drop n s' = drop n s.
Proof.
  intros Rt Hs. unfold strncpy. rewrite Nat2Z.id, strncpy_bytes_spec by done. simpl.
  set (l := cstr n t ++ _).
  assert (length l = n) as Hl.
  { unfold l. rewrite length_app, length_replicate. pose proof (length_cstr n t). lia. }
  rewrite decide_True by lia. eexists. split; [done|].
  unfold splice. rewrite Hl. simpl. repeat split.
  - rewrite length_app, length_drop. lia.
  - unfold l. rewrite <- app_assoc. apply cstr_padded.
  - rewrite drop_app_length' by done. done.
Qed.

(** Strncpy into a buffer of at least [n] bytes stores exactly [n] of them,
    and the string then in the buffer, cut at [n], is the source cut at [n]: names
    stored in a directory entry compare equal to the name they were made from. *)
Theorem strncpy_roundtrip s t n :
  readable n t -> (n <= length s)%nat ->
  exists s', strncpy s t (Z.of_nat n) = Some s' /\ length s' = length s /\
    cstr n s' = cstr n t /\ drop n s' = drop n s.
Proof. apply strncpy_spec. Qed.

Lemma strncpy_roundtrip_witness :
  exists s', strncpy (replicate 16 1) [97; 98; 0] (Z.of_nat 14) = Some s' /\
    length s' = 16%nat /\ cstr 14 s' = [97; 98] /\ drop 14 s' = [1; 1].
Proof.
  apply (strncpy_roundtrip (replicate 16 1) [97; 98; 0] 14).
  - left. simpl. tauto.
  - simpl. lia.
Defined.

Lemma safestrcpy_bytes_spec t n :
  readable n t ->
  exists l, safestrcpy_bytes t n = Some l /\ (length l <= S n)%nat /\
    forall r, cstr (S n) (l ++ r) = cstr n t.
Proof.
  revert t. induction n as [|n IH]; intros t Rt; [by exists [0]|].
  destruct t as [|c t]; [by apply readable_nil in Rt|]. cbn [safestrcpy_bytes].
  destruct (Z.eqb_spec c 0) as [->|Hc].
  - exists [0; 0]. simpl. split; [done|]. split; [lia|done].
  - destruct (IH t) as (l & -> & Hl & Hr); [by eapply readable_cons|].
    exists (c :: l). simpl. split; [done|]. split; [lia|].
    intros r. destruct (Z.eqb_spec c 0); [done|]. f_equal. apply Hr.
Qed.

Lemma safestrcpy_length s t n s' : safestrcpy s t n = Some s' -> length s' = length s.
Proof.
  unfold safestrcpy. destruct (n <=? 0); [by intros [= ->]|].
  destruct (safestrcpy_bytes t _) as [l|]; simpl; [|done]. case_decide; [|done].
  intros [= <-]. by apply length_splice.
Qed.

Lemma safestrcpy_spec s t n :
  (0 < n)%nat -> readable (n - 1) t -> length s = n ->
  exists s', safestrcpy s t (Z.of_nat n) = Some s' /\ length s' = n /\
    cstr n s' = cstr (n - 1) t /\ (length (cstr n s') < n)%nat.
Proof.
  intros Hn Rt Hs. unfold safestrcpy. rewrite (proj2 (Z.leb_gt _ _)) by lia.
  replace (Z.to_nat (Z.of_nat n - 1)) with (n - 1)%nat by lia.
  destruct (safestrcpy_bytes_spec t (n - 1) Rt) as (l & -> & Hl & Hr). simpl.
  rewrite decide_True by lia. eexists. split; [done|].
  rewrite length_splice by (simpl; lia).
  specialize (Hr (drop (0 + length l) s)).
  replace (S (n - 1)) with n in Hr by lia.
  unfold splice. rewrite take_0, app_nil_l, Hr. repeat split; [done|].
  pose proof (length_cstr (n - 1) t). lia.
Qed.

(** Safestrcpy into an [n]-byte buffer never overruns it and leaves in it a
    terminated string, the source cut at [n-1] characters. *)
Theorem safestrcpy_terminated s t n :
  (0 < n)%nat -> readable (n - 1) t -> length s = n ->
  exists s', safestrcpy s t (Z.of_nat n) = Some s' /\ length s' = n /\
    cstr n s' = cstr (n - 1) t /\ (length (cstr n s') < n)%nat.
Proof. apply safestrcpy_spec. Qed.

Lemma safestrcpy_terminated_witness :
  exists s', safestrcpy (replicate 4 1) [97; 98; 99; 100; 101; 0] (Z.of_nat 4) = Some s' /\
    length s' = 4%nat /\ cstr 4 s' = [97; 98; 99] /\ (length (cstr 4 s') < 4)%nat.
Proof.
  apply (safestrcpy_terminated (replicate 4 1) [97; 98; 99; 100; 101; 0] 4).
  - lia.
  - left. simpl. tauto.
  - reflexivity.
Defined.

(** strlen is the length of the string up to its NUL. *)
Lemma strlen_spec s t : Forall (fun c => c <> 0) s -> strlen (s ++ 0 :: t) = Some (Z.of_nat (length s)).
Proof.
  induction 1 as [|c s Hc _ IH]; [done|]. simpl.
  rewrite (proj2 (Z.eqb_neq c 0) Hc), IH. simpl. f_equal. lia.
Qed.
End Str.
