(* ===== verification/Spinlock.v ===== *)
(** * spinlock.c: interrupt nesting and spin locks

    [Cli] is one processor: its flags register, the nesting depth of pushcli and
    the saved interrupt flag; pushcli and popcli as the code has them.  [Sys] is
    the multiprocessor: acquire and release are cut at every access to shared
    memory (the test of [holding], the atomic exchange, the write of the owner),
    any processor may take the next step, and a processor that is between calls may
    call acquire or release on any lock.  Mutual exclusion, the absence of
    spurious panics and "interrupts are off while a lock is held" are invariants
    of every interleaving.

    [Ctx] is the view the other components take of the locks: the locks the running
    processor holds, innermost first, the wakeups it issued and the killed flag of
    its process. *)

From stdpp Require Import base list numbers strings functions gmap.
From S2P Require Import Prelude.

Open Scope Z_scope.

Definition FL_IF : Z := 512.

Module Cli.
Local Open Scope kernel_scope.

(** The part of [struct cpu] and of the processor the code touches. *)
Record cpu := mkcpu { eflags : Z; ncli : Z; intena : Z }.

Definition readeflags : M cpu Z := gets eflags.
Definition cli : M cpu unit :=
  modify (fun s => mkcpu (Z.ldiff (eflags s) FL_IF) (ncli s) (intena s)).
Definition sti : M cpu unit :=
  modify (fun s => mkcpu (Z.lor (eflags s) FL_IF) (ncli s) (intena s)).
Definition set_ncli (n : Z) : M cpu unit :=
  modify (fun s => mkcpu (eflags s) n (intena s)).
Definition set_intena (v : Z) : M cpu unit :=
  modify (fun s => mkcpu (eflags s) (ncli s) v).

Definition pushcli : M cpu unit :=
  fl <- readeflags ;;
  cli ;;
  n <- gets ncli ;;
  set_ncli (n + 1) ;;
  if n =? 0 then set_intena (Z.land fl FL_IF) else ret tt.

Definition popcli : M cpu unit :=
  fl <- readeflags ;;
  if negb (Z.land fl FL_IF =? 0) then panic "popcli - interruptible" else
  n <- gets ncli ;;
  set_ncli (n - 1) ;;
  if n - 1 <? 0 then panic "popcli" else
  ie <- gets intena ;;
  if (n - 1 =? 0) && negb (ie =? 0) then sti else ret tt.

(** Interrupts enabled. *)
Definition irq (s : cpu) : bool := negb (Z.land (eflags s) FL_IF =? 0).

Lemma land_if_cases e : Z.land e FL_IF = 0 \/ Z.land e FL_IF = FL_IF.
Proof.
  unfold FL_IF. change 512 with (2 ^ 9).
  destruct (Z.testbit e 9) eqn:E; [right|left]; apply Z.bits_inj'; intros k Hk;
    rewrite Z.land_spec, Z.pow2_bits_eqb by lia; destruct (Z.eqb_spec 9 k); subst;
    rewrite ?E, ?andb_false_r, ?andb_true_r; rewrite ?Z.bits_0, ?Z.pow2_bits_true by lia;
    try done.
Qed.

Lemma cli_off e : Z.land (Z.ldiff e FL_IF) FL_IF = 0.
Proof.
  apply Z.bits_inj'. intros k Hk. rewrite Z.land_spec, Z.ldiff_spec, Z.bits_0.
  by destruct (Z.testbit e k), (Z.testbit FL_IF k).
Qed.

Lemma cli_id e : Z.land e FL_IF = 0 -> Z.ldiff e FL_IF = e.
Proof.
  intros H. apply Z.bits_inj'. intros k Hk. rewrite Z.ldiff_spec.
  apply (f_equal (fun x => Z.testbit x k)) in H. rewrite Z.land_spec, Z.bits_0 in H.
  by destruct (Z.testbit e k), (Z.testbit FL_IF k).
Qed.

Lemma sti_cli e : Z.land e FL_IF = FL_IF -> Z.lor (Z.ldiff e FL_IF) FL_IF = e.
Proof.
  intros H. apply Z.bits_inj'. intros k Hk. rewrite Z.lor_spec, Z.ldiff_spec.
  apply (f_equal (fun x => Z.testbit x k)) in H. rewrite Z.land_spec in H.
  by destruct (Z.testbit e k), (Z.testbit FL_IF k).
Qed.

(** The invariant of a processor's nesting state. *)
Definition cpu_ok (s : cpu) : Prop := 0 <= ncli s /\ (0 < ncli s -> irq s = false).

Lemma pushcli_spec s :
  cpu_ok s ->
  pushcli s = Ret tt (mkcpu (Z.ldiff (eflags s) FL_IF) (ncli s + 1)
    (if ncli s =? 0 then Z.land (eflags s) FL_IF else intena s)).
Proof. intros _. unfold pushcli, bind. simpl. by destruct (ncli s =? 0). Qed.

Lemma popcli_spec s :
  0 < ncli s -> irq s = false ->
  popcli s = Ret tt (mkcpu
    (if (ncli s =? 1) && negb (intena s =? 0) then Z.lor (eflags s) FL_IF else eflags s)
    (ncli s - 1) (intena s)).
Proof.
  intros Hn Hi. unfold irq in Hi. unfold popcli, bind. simpl. rewrite Hi. simpl.
  rewrite (proj2 (Z.ltb_ge _ _)) by lia. simpl.
  replace (ncli s - 1 =? 0) with (ncli s =? 1) by (destruct (Z.eqb_spec (ncli s) 1),
    (Z.eqb_spec (ncli s - 1) 0); lia || done).
  by destruct ((ncli s =? 1) && negb (intena s =? 0)).
Qed.

Lemma pushcli_ok s s' : cpu_ok s -> pushcli s = Ret tt s' -> cpu_ok s' /\ irq s' = false.
Proof.
  intros Hok. rewrite pushcli_spec by done. intros [= <-]. unfold cpu_ok, irq in *. simpl.
  rewrite cli_off. simpl. split; [split; [lia|done]|done].
Qed.

(** Matched sequences of calls: [NPush w w'] is pushcli, [w], popcli, [w']. *)
Inductive call := Push | Pop.
Definition run1 (c : call) : M cpu unit := match c with Push => pushcli | Pop => popcli end.
Definition run (w : list call) : M cpu unit := forM w run1.

Inductive nested : list call -> Prop :=
| NNil : nested []
| NPush w w' : nested w -> nested w' -> nested (Push :: w ++ Pop :: w').

Lemma run_app w w' s : run (w ++ w') s = bind (run w) (fun _ => run w') s.
Proof.
  unfold run. revert s. induction w as [|c w IH]; intros s; [done|].
  cbn [forM app]. unfold bind at 1 2 3. destruct (run1 c s); auto.
Qed.

(** Below the outermost level the saved flag is not touched. *)
Lemma nested_inner w s :
  nested w -> 0 < ncli s -> irq s = false -> run w s = Ret tt s.
Proof.
  intros Hw. revert s. induction Hw as [|w w' _ IH1 _ IH2]; intros s Hn Hi; [done|].
  assert (cpu_ok s) as Hok by (split; [lia|done]).
  cbn [run forM]. unfold bind at 1. cbn [run1]. rewrite pushcli_spec by done.
  rewrite (proj2 (Z.eqb_neq (ncli s) 0)) by lia.
  assert (Z.ldiff (eflags s) FL_IF = eflags s) as ->.
  { apply cli_id. unfold irq in Hi. by zbool. }
  fold (run (w ++ Pop :: w')). rewrite run_app. unfold bind at 1.
  rewrite IH1; [|simpl; lia|done]. cbn [run forM]. unfold bind at 1. cbn [run1].
  rewrite popcli_spec; [|simpl; lia|done]. simpl.
  rewrite (proj2 (Z.eqb_neq (ncli s + 1) 1)) by lia. simpl.
  replace (ncli s + 1 - 1) with (ncli s) by lia. fold (run w').
  destruct s. by rewrite IH2.
Qed.

(** The same sequence at any level. *)
Lemma nested_run w s :
  nested w -> cpu_ok s ->
  exists s', run w s = Ret tt s' /\ eflags s' = eflags s /\ ncli s' = ncli s.
Proof.
  intros Hw Hok. destruct (decide (0 < ncli s)) as [Hn|Hn].
  { exists s. split; [|done]. apply nested_inner; [done|done|by apply Hok]. }
  assert (ncli s = 0) as H0 by (destruct Hok; lia). clear Hn.
  revert s Hok H0. induction Hw as [|w w' Hw _ _ IH]; intros s Hok H0; [by exists s|].
  cbn [run forM]. unfold bind at 1. cbn [run1]. rewrite pushcli_spec by done.
  rewrite H0. simpl. fold (run (w ++ Pop :: w')). rewrite run_app. unfold bind at 1.
  rewrite (nested_inner w); [|done|simpl; lia|unfold irq; simpl; by rewrite cli_off].
  cbn [run forM]. unfold bind at 1. cbn [run1].
  rewrite popcli_spec; [|simpl; lia|unfold irq; simpl; by rewrite cli_off]. simpl.
  fold (run w').
  destruct (IH (mkcpu (eflags s) 0 (Z.land (eflags s) FL_IF))) as (s' & Hr & He & Hn);
    [split; simpl; lia|done|].
  exists s'. simpl in He, Hn. rewrite He, Hn. split; [|done]. rewrite <- Hr. f_equal. f_equal.
  destruct (land_if_cases (eflags s)) as [E|E]; rewrite E; simpl.
  - by apply cli_id.
  - by apply sti_cli.
Qed.

Lemma push_pop k k1 k2 :
  cpu_ok k -> pushcli k = Ret tt k1 -> popcli k1 = Ret tt k2 ->
  eflags k2 = eflags k /\ ncli k2 = ncli k.
Proof.
  intros Hok H1 H2. destruct (nested_run [Push; Pop] k) as (k' & Hr & He & Hn); [|done|].
  { apply (NPush [] []); constructor. }
  assert (run [Push; Pop] k = bind pushcli (fun _ => bind popcli (fun _ => ret tt)) k) as E
    by done.
  rewrite E in Hr. unfold bind in Hr. rewrite H1, H2 in Hr. by injection Hr as ->.
Qed.

(** Any properly nested sequence of pushcli and popcli runs without a panic and
    leaves the flags register and the nesting depth as it found them: interrupts
    that were on are on again, interrupts that were off stay off. *)
Theorem nested_cli_restores w s :
  nested w -> cpu_ok s ->
  exists s', run w s = Ret tt s' /\ eflags s' = eflags s /\ ncli s' = ncli s.
Proof.
  apply nested_run.
Qed.

Lemma nested_cli_restores_witness :
  exists s', run [Push; Push; Pop; Pop; Push; Pop] (mkcpu 514 0 0) = Ret tt s' /\
    eflags s' = 514 /\ ncli s' = 0.
Proof.
  apply (nested_cli_restores [Push; Push; Pop; Pop; Push; Pop] (mkcpu 514 0 0)).
  - apply (NPush [Push; Pop] [Push; Pop]); apply (NPush [] []); constructor.
  - split; simpl; lia.
Defined.
End Cli.

Module Sys.
Import Cli.

(** [struct spinlock], without the fields kept for debugging (name, pcs). *)
Record spinlock := mklock { locked : Z; lcpu : option nat }.

Definition initlock : spinlock := mklock 0 None.

(** Where a processor is in acquire or release. *)
Inductive activity :=
| Run                    (* outside both *)
| AcqTest (l : nat)      (* holding(lk): read lk->locked *)
| AcqTest2 (l : nat)     (* holding(lk): read lk->cpu *)
| AcqSpin (l : nat)      (* while(xchg(&lk->locked, 1) != 0) *)
| AcqRecord (l : nat)    (* lk->cpu = cpu *)
| RelTest (l : nat)
| RelTest2 (l : nat)
| RelClear (l : nat)     (* lk->cpu = 0 *)
| RelXchg (l : nat)      (* xchg(&lk->locked, 0) *)
| RelPop                 (* popcli() *)
| Panicked.

Inductive request := CallAcquire (l : nat) | CallRelease (l : nat).

(** [held] is the list of locks whose acquire has returned on that processor and
    whose release has not begun to give them up. *)
Record sys := mksys {
  cpus : nat -> cpu;
  locks : nat -> spinlock;
  act : nat -> activity;
  held : nat -> list nat }.

Definition set_act (c : nat) (a : activity) (s : sys) : sys :=
  mksys (cpus s) (locks s) (<[c:=a]> (act s)) (held s).
Definition set_cpu (c : nat) (k : cpu) (s : sys) : sys :=
  mksys (<[c:=k]> (cpus s)) (locks s) (act s) (held s).
Definition set_lock (l : nat) (k : spinlock) (s : sys) : sys :=
  mksys (cpus s) (<[l:=k]> (locks s)) (act s) (held s).
Definition set_held (c : nat) (h : list nat) (s : sys) : sys :=
  mksys (cpus s) (locks s) (act s) (<[c:=h]> (held s)).

Definition owner_is (s : sys) (l c : nat) : bool :=
  bool_decide (lcpu (locks s l) = Some c).

(** The acquire routine, one access to shared memory at a time. *)
Definition acquire_step (s : sys) (c : nat) (a : activity) : sys :=
  match a with
  | AcqTest l =>
      if locked (locks s l) =? 0 then set_act c (AcqSpin l) s else set_act c (AcqTest2 l) s
  | AcqTest2 l =>
      if owner_is s l c then set_act c Panicked s else set_act c (AcqSpin l) s
  | AcqSpin l =>
      let old := locked (locks s l) in
      let s' := set_lock l (mklock 1 (lcpu (locks s l))) s in
      if negb (old =? 0) then s' else set_act c (AcqRecord l) s'
  | AcqRecord l =>
      set_act c Run (set_held c (l :: held s c)
        (set_lock l (mklock (locked (locks s l)) (Some c)) s))
  | _ => s
  end.

(** The release routine. *)
Definition release_step (s : sys) (c : nat) (a : activity) : sys :=
  match a with
  | RelTest l =>
      if locked (locks s l) =? 0 then set_act c Panicked s else set_act c (RelTest2 l) s
  | RelTest2 l =>
      if owner_is s l c then set_act c (RelClear l) s else set_act c Panicked s
  | RelClear l =>
      set_act c (RelXchg l) (set_held c (filter (fun x => x <> l) (held s c))
        (set_lock l (mklock (locked (locks s l)) None) s))
  | RelXchg l => set_act c RelPop (set_lock l (mklock 0 (lcpu (locks s l))) s)
  | RelPop =>
      match popcli (cpus s c) with
      | Ret _ k => set_act c Run (set_cpu c k s)
      | _ => set_act c Panicked s
      end
  | _ => s
  end.

Definition cpu_step (s : sys) (c : nat) (r : request) : sys :=
  match act s c with
  | Run =>
      match r with
      | CallAcquire l =>
          match pushcli (cpus s c) with
          | Ret _ k => set_act c (AcqTest l) (set_cpu c k s)
          | _ => set_act c Panicked s
          end
      | CallRelease l => set_act c (RelTest l) s
      end
  | (AcqTest _ | AcqTest2 _ | AcqSpin _ | AcqRecord _) as a => acquire_step s c a
  | a => release_step s c a
  end.

(** At boot every lock is free, no processor is in acquire or release and the
    nesting depth is 0. *)
Definition boot (s : sys) : Prop :=
  (forall l, locks s l = initlock) /\
  (forall c, act s c = Run /\ held s c = [] /\ ncli (cpus s c) = 0).

Inductive reachable : sys -> Prop :=
| reach_boot s : boot s -> reachable s
| reach_step s c r : reachable s -> reachable (cpu_step s c r).

(** ** The invariant *)

Definition owns (s : sys) (c l : nat) : Prop :=
  l ∈ held s c \/ act s c = AcqRecord l \/ act s c = RelXchg l.

(** pushcli calls of the acquire or release in progress. *)
Definition pending (a : activity) : Z :=
  match a with
  | AcqTest _ | AcqTest2 _ | AcqSpin _ | AcqRecord _ | RelXchg _ | RelPop => 1
  | _ => 0
  end.

(** What a processor's own position implies. *)
Definition act_ok (s : sys) (c : nat) : Prop :=
  match act s c with
  | AcqSpin l | AcqRecord l | RelXchg l => l ∉ held s c
  | RelClear l => l ∈ held s c
  | _ => True
  end.

Record inv (s : sys) : Prop := {
  inv_locked l : locked (locks s l) <> 0 <-> exists c, owns s c l;
  inv_unique l c1 c2 : owns s c1 l -> owns s c2 l -> c1 = c2;
  inv_owner l c : lcpu (locks s l) = Some c <-> l ∈ held s c;
  inv_nodup c : NoDup (held s c);
  inv_act c : act_ok s c;
  inv_ncli c : act s c <> Panicked ->
    ncli (cpus s c) = Z.of_nat (length (held s c)) + pending (act s c);
  inv_irq c : cpu_ok (cpus s c) }.

(** A change of position that neither takes nor gives up a lock. *)
Lemma inv_set_act s c a :
  inv s ->
  (forall l, act s c <> AcqRecord l /\ act s c <> RelXchg l) ->
  (forall l, a <> AcqRecord l /\ a <> RelXchg l) ->
  act_ok (set_act c a s) c ->
  (a <> Panicked -> act s c <> Panicked /\ pending a = pending (act s c)) ->
  inv (set_act c a s).
Proof.
  intros I Hold Hnew Hok Hp.
  assert (forall c' l, owns (set_act c a s) c' l <-> owns s c' l) as Howns.
  { intros c' l. unfold owns. simpl. destruct (decide (c' = c)) as [->|Hne].
    - rewrite fn_lookup_insert. specialize (Hold l). specialize (Hnew l). tauto.
    - by rewrite fn_lookup_insert_ne. }
  constructor.
  - intros l. simpl. rewrite (inv_locked _ I). by setoid_rewrite Howns.
  - intros l c1 c2. rewrite !Howns. apply (inv_unique _ I).
  - apply (inv_owner _ I).
  - apply (inv_nodup _ I).
  - intros c'. destruct (decide (c' = c)) as [->|Hne]; [done|].
    pose proof (inv_act _ I c') as H. unfold act_ok in *. simpl.
    by rewrite fn_lookup_insert_ne.
  - intros c'. simpl. destruct (decide (c' = c)) as [->|Hne].
    + rewrite fn_lookup_insert. intros Ha. destruct (Hp Ha) as [Hs Hp'].
      rewrite Hp'. by apply (inv_ncli _ I).
    + rewrite fn_lookup_insert_ne by done. apply (inv_ncli _ I).
  - apply (inv_irq _ I).
Qed.

Ltac fn_cases :=
  repeat match goal with
  | H : context [<[?a:=_]> _ ?b] |- _ =>
      destruct (decide (a = b)) as [<-|];
      [rewrite !fn_lookup_insert in H | rewrite !fn_lookup_insert_ne in H by done]
  | |- context [<[?a:=_]> _ ?b] =>
      destruct (decide (a = b)) as [<-|];
      [rewrite !fn_lookup_insert | rewrite !fn_lookup_insert_ne by done]
  end; simpl in *.

(** The state after a step that takes or gives up a lock is described by how it
    changes the owners; the remaining clauses are about one processor. *)
Lemma inv_spin_fail s l :
  inv s -> locked (locks s l) <> 0 ->
  inv (set_lock l (mklock 1 (lcpu (locks s l))) s).
Proof.
  intros I Hl. destruct I as [I1 I2 I3 I4 I5 I6 I7]. constructor; try done.
  - intros l'. simpl. fn_cases; [|apply I1]. split; [intros _; by apply I1|done].
  - intros l' c'. simpl. fn_cases; apply I3.
Qed.

Lemma inv_spin_ok s c l :
  inv s -> act s c = AcqSpin l -> locked (locks s l) = 0 ->
  inv (set_act c (AcqRecord l) (set_lock l (mklock 1 (lcpu (locks s l))) s)).
Proof.
  intros I Ha Hl. destruct I as [I1 I2 I3 I4 I5 I6 I7].
  assert (forall c', ~ owns s c' l) as Hfree.
  { intros c' Ho. destruct (I1 l) as [_ H]. apply H; [by exists c'|done]. }
  assert (forall c' l', owns (set_act c (AcqRecord l)
      (set_lock l (mklock 1 (lcpu (locks s l))) s)) c' l' <->
      owns s c' l' \/ (c' = c /\ l' = l)) as Howns.
  { intros c' l'. unfold owns. simpl. fn_cases; [rewrite Ha|]; naive_solver. }
  constructor.
  - intros l'. setoid_rewrite Howns. simpl. fn_cases; [split; [|done]; eauto|].
    rewrite I1. naive_solver.
  - intros l' c1 c2. rewrite !Howns. intros [H1|[-> ->]] [H2|[-> ?]]; subst; eauto;
      exfalso; eapply Hfree; eauto.
  - intros l' c'. simpl. fn_cases; apply I3.
  - apply I4.
  - intros c'. pose proof (I5 c') as H. unfold act_ok in *. simpl. fn_cases; [|done].
    by rewrite Ha in H.
  - intros c'. simpl. pose proof (I6 c') as H. fn_cases; [|done]. rewrite Ha in H.
    intros _. by apply H.
  - apply I7.
Qed.

Lemma inv_record s c l :
  inv s -> act s c = AcqRecord l ->
  inv (set_act c Run (set_held c (l :: held s c)
        (set_lock l (mklock (locked (locks s l)) (Some c)) s))).
Proof.
  intros I Ha. destruct I as [I1 I2 I3 I4 I5 I6 I7].
  assert (owns s c l) as Hown by (right; by left).
  assert (l ∉ held s c) as Hnot by (pose proof (I5 c) as H; unfold act_ok in H; by rewrite Ha in H).
  set (s' := set_act _ _ _).
  assert (forall c' l', owns s' c' l' <-> owns s c' l') as Howns.
  { intros c' l'. unfold owns. simpl. fn_cases; [rewrite Ha|done].
    rewrite elem_of_cons. naive_solver. }
  constructor.
  - intros l'. setoid_rewrite Howns. simpl. fn_cases; apply I1.
  - intros l' c1 c2. rewrite !Howns. apply I2.
  - intros l' c'. simpl. fn_cases; rewrite ?elem_of_cons; rewrite <- ?I3.
    + naive_solver.
    + split; [congruence|]. rewrite I3. intros H. exfalso.
      assert (owns s c' l) by (by left). naive_solver.
    + rewrite I3. naive_solver.
    + done.
  - intros c'. simpl. fn_cases; [|done]. by constructor.
  - intros c'. pose proof (I5 c') as H. unfold act_ok in *. simpl. fn_cases; done.
  - intros c'. simpl. pose proof (I6 c') as H. fn_cases; [|done]. rewrite Ha in H.
    simpl in H. intros _. rewrite H by done. lia.
  - apply I7.
Qed.

Lemma length_filter_ne (l : nat) (h : list nat) :
  NoDup h -> l ∈ h ->
  length h = S (length (filter (fun x => x <> l) h)).
Proof.
  induction 1 as [|x h Hx Hnd IH]; intros Hl; [by apply not_elem_of_nil in Hl|].
  rewrite filter_cons. destruct (decide (x = l)) as [->|Hne].
  - rewrite decide_False by tauto. simpl. f_equal.
    clear IH Hl Hnd. induction h as [|y h IH]; [done|].
    rewrite not_elem_of_cons in Hx. rewrite filter_cons, decide_True by naive_solver.
    simpl. f_equal. apply IH. naive_solver.
  - rewrite decide_True by done. simpl. f_equal. apply IH.
    apply elem_of_cons in Hl. naive_solver.
Qed.

Lemma inv_clear s c l :
  inv s -> act s c = RelClear l ->
  inv (set_act c (RelXchg l) (set_held c (filter (fun x => x <> l) (held s c))
        (set_lock l (mklock (locked (locks s l)) None) s))).
Proof.
  intros I Ha. destruct I as [I1 I2 I3 I4 I5 I6 I7].
  assert (l ∈ held s c) as Hin by (pose proof (I5 c) as H; unfold act_ok in H; by rewrite Ha in H).
  set (s' := set_act _ _ _).
  assert (forall c' l', owns s' c' l' <-> owns s c' l') as Howns.
  { intros c' l'. unfold owns. simpl. fn_cases; [rewrite Ha|done].
    rewrite list_elem_of_filter. destruct (decide (l' = l)); naive_solver. }
  constructor.
  - intros l'. setoid_rewrite Howns. simpl. fn_cases; apply I1.
  - intros l' c1 c2. rewrite !Howns. apply I2.
  - intros l' c'. simpl. fn_cases; rewrite ?list_elem_of_filter, <- ?I3.
    + naive_solver.
    + split; [congruence|]. rewrite I3. intros H.
      assert (owns s c l) by (by left). assert (owns s c' l) by (by left). naive_solver.
    + naive_solver.
    + done.
  - intros c'. simpl. fn_cases; [|done]. by apply NoDup_filter.
  - intros c'. pose proof (I5 c') as H. unfold act_ok in *. simpl. fn_cases; [|done].
    rewrite list_elem_of_filter. naive_solver.
  - intros c'. simpl. pose proof (I6 c') as H. fn_cases; [|done]. rewrite Ha in H.
    simpl in H. intros _. rewrite H by done. rewrite (length_filter_ne l (held s c)) by done. lia.
  - apply I7.
Qed.

Lemma inv_unlock s c l :
  inv s -> act s c = RelXchg l ->
  inv (set_act c RelPop (set_lock l (mklock 0 (lcpu (locks s l))) s)).
Proof.
  intros I Ha. destruct I as [I1 I2 I3 I4 I5 I6 I7].
  assert (owns s c l) as Hown by (right; by right).
  assert (l ∉ held s c) as Hnot by (pose proof (I5 c) as H; unfold act_ok in H; by rewrite Ha in H).
  set (s' := set_act _ _ _).
  assert (forall c' l', owns s' c' l' <-> owns s c' l' /\ l' <> l) as Howns.
  { intros c' l'. unfold owns. simpl. fn_cases.
    - rewrite Ha. destruct (decide (l' = l)) as [->|]; naive_solver.
    - split; [|tauto]. intros Ho. split; [done|]. intros ->.
      assert (owns s c' l) by done. naive_solver. }
  constructor.
  - intros l'. setoid_rewrite Howns. simpl. fn_cases; [naive_solver|].
    rewrite I1. naive_solver.
  - intros l' c1 c2. rewrite !Howns. intros [? _] [? _]. eauto.
  - intros l' c'. simpl. fn_cases; apply I3.
  - apply I4.
  - intros c'. pose proof (I5 c') as H. unfold act_ok in *. simpl. fn_cases; done.
  - intros c'. simpl. pose proof (I6 c') as H. fn_cases; [|done]. rewrite Ha in H.
    intros _. by apply H.
  - apply I7.
Qed.

(** A pushcli or popcli of the acquire or release in progress. *)
Lemma inv_cpu s c k a :
  inv s -> (forall l, act s c <> AcqRecord l /\ act s c <> RelXchg l) ->
  (forall l, a <> AcqRecord l /\ a <> RelXchg l) ->
  act_ok (set_act c a s) c -> cpu_ok k ->
  ncli k = Z.of_nat (length (held s c)) + pending a ->
  inv (set_act c a (set_cpu c k s)).
Proof.
  intros I Hold Hnew Hok Hk Hn.
  assert (forall c' l, owns (set_act c a (set_cpu c k s)) c' l <-> owns s c' l) as Howns.
  { intros c' l. unfold owns. simpl. specialize (Hold l). specialize (Hnew l).
    fn_cases; tauto. }
  destruct I as [I1 I2 I3 I4 I5 I6 I7]. constructor; simpl.
  - intros l. rewrite I1. by setoid_rewrite Howns.
  - intros l c1 c2. rewrite !Howns. apply I2.
  - apply I3.
  - apply I4.
  - intros c'. pose proof (I5 c') as H. unfold act_ok in *. simpl in *.
    rewrite fn_lookup_insert in Hok. fn_cases; [done|apply H].
  - intros c' Hc. destruct (decide (c = c')) as [<-|].
    + by rewrite !fn_lookup_insert.
    + rewrite !fn_lookup_insert_ne in * by done. by apply I6.
  - intros c'. pose proof (I7 c') as H. fn_cases; auto.
Qed.

Lemma inv_boot s : boot s -> inv s.
Proof.
  intros [Hl Hc].
  assert (forall c l, ~ owns s c l) as Hno.
  { intros c l. unfold owns. destruct (Hc c) as (-> & -> & _).
    rewrite elem_of_nil. naive_solver. }
  constructor.
  - intros l. rewrite Hl. simpl. split; [done|]. intros [c Ho]. by apply Hno in Ho.
  - intros l c1 c2 Ho. by apply Hno in Ho.
  - intros l c. rewrite Hl. destruct (Hc c) as (_ & -> & _). rewrite elem_of_nil. done.
  - intros c. destruct (Hc c) as (_ & -> & _). constructor.
  - intros c. unfold act_ok. by destruct (Hc c) as (-> & _).
  - intros c _. destruct (Hc c) as (-> & -> & ->). done.
  - intros c. destruct (Hc c) as (_ & _ & Hn). unfold cpu_ok. rewrite Hn. lia.
Qed.

Ltac no_take := by intros; split; congruence.

Lemma inv_step s c r : inv s -> inv (cpu_step s c r).
Proof.
  intros I. unfold cpu_step. pose proof (inv_act _ I c) as Ha. unfold act_ok in Ha.
  pose proof (inv_ncli _ I c) as Hn. pose proof (inv_irq _ I c) as Hk.
  destruct (act s c) as [|l|l|l|l|l|l|l|l| |] eqn:E; cbn [acquire_step release_step].
  - destruct r as [l|l].
    + rewrite pushcli_spec by done. apply inv_cpu; try done; try no_take.
      * unfold act_ok. simpl. by rewrite fn_lookup_insert.
      * eapply pushcli_ok; [done|by rewrite pushcli_spec].
      * simpl. rewrite Hn by done. simpl. lia.
    + apply inv_set_act; try done; try no_take.
      * unfold act_ok. simpl. by rewrite fn_lookup_insert.
      * by rewrite E.
  - destruct (Z.eqb_spec (locked (locks s l)) 0); apply inv_set_act; try done;
      try no_take; try (by rewrite E); unfold act_ok; simpl; rewrite fn_lookup_insert; [|done].
    intros Hin. assert (owns s c l) by (by left).
    destruct (inv_locked _ I l) as [_ Hl]. apply Hl; eauto.
  - unfold owner_is. case_bool_decide; apply inv_set_act; try done; try no_take;
      try (by rewrite E); unfold act_ok; simpl; rewrite fn_lookup_insert; [done|].
    by rewrite <- (inv_owner _ I).
  - destruct (Z.eqb_spec (locked (locks s l)) 0); simpl.
    + by apply inv_spin_ok.
    + by apply inv_spin_fail.
  - by apply inv_record.
  - destruct (locked (locks s l) =? 0); apply inv_set_act; try done; try no_take;
      try (by rewrite E); unfold act_ok; simpl; by rewrite fn_lookup_insert.
  - unfold owner_is. case_bool_decide as Ho; apply inv_set_act; try done; try no_take;
      try (by rewrite E); unfold act_ok; simpl; rewrite fn_lookup_insert; [|done].
    by apply (inv_owner _ I).
  - by apply inv_clear.
  - by apply inv_unlock.
  - specialize (Hn ltac:(done)). simpl in Hn. destruct Hk as [Hk1 Hk2].
    assert (0 < ncli (cpus s c)) as Hpos by lia. rewrite popcli_spec by auto.
    apply inv_cpu; try done; try no_take.
    + unfold act_ok. simpl. by rewrite fn_lookup_insert.
    + split; simpl; [lia|]. intros Hd.
      rewrite (proj2 (Z.eqb_neq _ 1)) by lia. by apply Hk2.
    + simpl. lia.
  - done.
Qed.

Lemma reachable_inv s : reachable s -> inv s.
Proof. induction 1; eauto using inv_boot, inv_step. Qed.

(** C37: in every interleaving of any number of processors, two processors never
    both hold the same lock. *)
Theorem mutual_exclusion s c1 c2 l :
  reachable s -> l ∈ held s c1 -> l ∈ held s c2 -> c1 = c2.
Proof.
  intros H H1 H2. eapply (inv_unique _ (reachable_inv s H)); by left.
Qed.

(** While a processor holds a lock its interrupts are off, its nesting depth is
    the number of locks it holds plus the acquire or release in progress, and it
    panics only by calling acquire on a lock it holds or release on one it does
    not hold. *)
Theorem lock_discipline s c r :
  reachable s -> act s c <> Panicked ->
  ncli (cpus s c) = Z.of_nat (length (held s c)) + pending (act s c) /\
  (held s c <> [] -> irq (cpus s c) = false) /\
  (act (cpu_step s c r) c = Panicked ->
    (exists l, act s c = AcqTest2 l /\ l ∈ held s c) \/
    (exists l, (act s c = RelTest l \/ act s c = RelTest2 l) /\ l ∉ held s c)).
Proof.
  intros Hr Hp. pose proof (reachable_inv s Hr) as I.
  pose proof (inv_ncli _ I c Hp) as Hn. destruct (inv_irq _ I c) as [Hk1 Hk2].
  split; [done|]. split.
  { intros Hh. apply Hk2. rewrite Hn. destruct (held s c); [done|]. simpl.
    destruct (act s c); simpl; lia. }
  unfold cpu_step. destruct (act s c) as [|l|l|l|l|l|l|l|l| |] eqn:E;
    cbn [acquire_step release_step]; try done.
  - destruct r as [l|l]; [rewrite pushcli_spec by done|]; simpl; by rewrite fn_lookup_insert.
  - destruct (_ =? _); simpl; by rewrite fn_lookup_insert.
  - unfold owner_is. case_bool_decide as Ho; simpl; rewrite fn_lookup_insert; [|done].
    intros _. left. exists l. split; [done|]. by apply (inv_owner _ I).
  - destruct (_ =? _); simpl; [by rewrite fn_lookup_insert|]. by rewrite E.
  - simpl. by rewrite fn_lookup_insert.
  - destruct (Z.eqb_spec (locked (locks s l)) 0) as [H0|]; simpl; rewrite fn_lookup_insert; [|done].
    intros _. right. exists l. split; [by left|]. intros Hin.
    apply (inv_locked _ I l); [|done]. exists c. by left.
  - unfold owner_is. case_bool_decide as Ho; simpl; rewrite fn_lookup_insert; [done|].
    intros _. right. exists l. split; [by right|]. by rewrite <- (inv_owner _ I).
  - simpl. by rewrite fn_lookup_insert.
  - simpl. by rewrite fn_lookup_insert.
  - simpl in Hn. rewrite popcli_spec by (try apply Hk2; lia).
    simpl. by rewrite fn_lookup_insert.
Qed.

(** A two-processor run in which processor 0 takes lock 0 while processor 1 spins. *)
Definition boot0 : sys :=
  mksys (fun _ => mkcpu FL_IF 0 0) (fun _ => initlock) (fun _ => Run) (fun _ => []).
Definition contended : sys :=
  fold_left (fun s c => cpu_step s c (CallAcquire 0)) [0; 0; 1; 1; 0; 0; 1; 1; 1]%nat boot0.

Lemma reachable_run r cs s :
  reachable s -> reachable (fold_left (fun s c => cpu_step s c r) cs s).
Proof.
  revert s. induction cs as [|c cs IH]; intros s Hs; [done|]. simpl. apply IH.
  by apply reach_step.
Qed.

Lemma contended_reachable : reachable contended.
Proof. apply reachable_run, reach_boot. by repeat split. Qed.

Lemma mutual_exclusion_witness :
  held contended 0 = [0%nat] /\ act contended 1 = AcqSpin 0 /\ 0%nat = 0%nat.
Proof.
  split; [reflexivity|]. split; [reflexivity|].
  apply (mutual_exclusion contended 0 0 0); [apply contended_reachable|..];
    vm_compute; left.
Defined.

Lemma lock_discipline_witness :
  ncli (cpus contended 0) = 1 /\ irq (cpus contended 0) = false.
Proof.
  destruct (lock_discipline contended 0 (CallRelease 0)) as (H1 & H2 & _).
  - apply contended_reachable.
  - vm_compute. discriminate.
  - split; [exact H1|]. apply H2. vm_compute. discriminate.
Defined.
End Sys.

Module Ctx.
Local Open Scope kernel_scope.

Inductive lock :=
| LkPtable | LkBcache | LkIcache | LkLog | LkFtable | LkKmem | LkIde | LkPipe
| LkCons | LkInput | LkTicks.

#[export] Instance lock_eq_dec : EqDecision lock.
Proof. solve_decision. Defined.

(** What a component sees of the processor and the process it runs for: the locks
    held, innermost first; the channels woken so far, last first; proc->killed. *)
Record kctx := mkctx { held : list lock; woken : list chan; killed : bool }.

(** A component state that contains such a context. *)
Class HasCtx (S : Type) := {
  ctx : S -> kctx;
  with_ctx : kctx -> S -> S;
  ctx_with k s : ctx (with_ctx k s) = k;
  with_with k k' s : with_ctx k (with_ctx k' s) = with_ctx k s;
  with_same s : with_ctx (ctx s) s = s }.

Section Ops.
Context {S : Type} `{HasCtx S}.

Definition set_held (h : list lock) : M S unit :=
  modify (fun s => with_ctx (mkctx h (woken (ctx s)) (killed (ctx s))) s).

(** acquire and release as one processor sees them: acquire panics on a lock it
    holds and otherwise returns holding it, release panics on one it does not
    hold ([Sys.lock_discipline]). *)
Definition acquire (l : lock) : M S unit :=
  h <- gets (fun s => held (ctx s)) ;;
  if bool_decide (l ∈ h) then panic "acquire" else set_held (l :: h).

Fixpoint remove1 (l : lock) (h : list lock) : list lock :=
  match h with
  | [] => []
  | x :: h => if decide (x = l) then h else x :: remove1 l h
  end.

Definition release (l : lock) : M S unit :=
  h <- gets (fun s => held (ctx s)) ;;
  if bool_decide (l ∈ h) then set_held (remove1 l h) else panic "release".

(** proc.c wakeup: the threads asleep on [c] become runnable ([Proc.wakeup1]). *)
Definition wakeup (c : chan) : M S unit :=
  acquire LkPtable ;;
  modify (fun s => with_ctx (mkctx (held (ctx s)) (c :: woken (ctx s)) (killed (ctx s))) s) ;;
  release LkPtable.

Definition proc_killed : M S bool := gets (fun s => killed (ctx s)).

Lemma wp_acquire l Q s :
  l ∉ held (ctx s) ->
  Q tt (with_ctx (mkctx (l :: held (ctx s)) (woken (ctx s)) (killed (ctx s))) s) ->
  wp (acquire l) Q s.
Proof.
  intros Hl HQ. unfold acquire. wp_steps. by rewrite bool_decide_eq_false_2.
Qed.

Lemma wp_release l h Q s :
  held (ctx s) = l :: h ->
  Q tt (with_ctx (mkctx h (woken (ctx s)) (killed (ctx s))) s) ->
  wp (release l) Q s.
Proof.
  intros Hl HQ. unfold release. wp_steps. rewrite Hl, bool_decide_eq_true_2 by left.
  simpl. by rewrite decide_True.
Qed.

Lemma wp_wakeup c Q s :
  LkPtable ∉ held (ctx s) ->
  Q tt (with_ctx (mkctx (held (ctx s)) (c :: woken (ctx s)) (killed (ctx s))) s) ->
  wp (wakeup c) Q s.
Proof.
  intros Hl HQ. unfold wakeup. wp_steps. apply wp_acquire; [done|]. wp_steps.
  eapply wp_release; [by rewrite !ctx_with|]. by rewrite !with_with, !ctx_with.
Qed.
End Ops.
End Ctx.

(** The step-by-step acquire and release, run by one processor on a lock nobody
    contends for, have the effect [Ctx] gives them. *)
Module Alone.
Import Cli Sys.

Fixpoint steps (n : nat) (r : request) (c : nat) (s : sys) : sys :=
  match n with
  | O => s
  | S n => steps n r c (cpu_step s c r)
  end.

Lemma steps_S n r c s : steps (S n) r c s = steps n r c (cpu_step s c r).
Proof. done. Qed.

(** Evaluates the next step of a run. *)
Ltac eval_step :=
  rewrite steps_S; unfold cpu_step, acquire_step, release_step, owner_is;
  cbn [act locks cpus held set_act set_lock set_cpu set_held];
  rewrite ?fn_lookup_insert.

Lemma acquire_alone s c l s1 :
  inv s -> act s c = Run -> locked (locks s l) = 0 ->
  s1 = steps 4 (CallAcquire l) c s ->
  act s1 c = Run /\ held s1 c = l :: held s c /\ locks s1 l = mklock 1 (Some c) /\
  pushcli (cpus s c) = Ret tt (cpus s1 c).
Proof.
  intros I Ha Hl ->.
  set (k := mkcpu (Z.ldiff (eflags (cpus s c)) FL_IF) (ncli (cpus s c) + 1)
    (if ncli (cpus s c) =? 0 then Z.land (eflags (cpus s c)) FL_IF else intena (cpus s c))).
  assert (pushcli (cpus s c) = Ret tt k) as Hp by (apply pushcli_spec, (inv_irq _ I)).
  eassert (steps 4 (CallAcquire l) c s = _) as ->.
  { eval_step. rewrite Ha, Hp. eval_step. rewrite Hl. cbn [Z.eqb].
    eval_step. rewrite Hl. cbn [Z.eqb negb]. eval_step. reflexivity. }
  simpl. by rewrite !fn_lookup_insert.
Qed.

Lemma release_alone s c l h s2 :
  act s c = Run -> locks s l = mklock 1 (Some c) -> held s c = l :: h -> l ∉ h ->
  0 < ncli (cpus s c) -> irq (cpus s c) = false ->
  s2 = steps 6 (CallRelease l) c s ->
  act s2 c = Run /\ held s2 c = h /\ locked (locks s2 l) = 0 /\
  popcli (cpus s c) = Ret tt (cpus s2 c).
Proof.
  intros Ha Hl Hh Hn H0 Hi ->.
  pose proof (popcli_spec _ H0 Hi) as Hp. set (k := mkcpu _ _ _) in Hp.
  eassert (steps 6 (CallRelease l) c s = _) as ->.
  { eval_step. rewrite Ha. eval_step. rewrite Hl. cbn [Z.eqb locked].
    eval_step. rewrite Hl. rewrite bool_decide_eq_true_2 by done.
    eval_step. eval_step. eval_step. rewrite Hp. reflexivity. }
  simpl. rewrite !fn_lookup_insert. repeat split; auto.
  rewrite Hh, filter_cons, decide_False by tauto. clear - Hn.
  induction h as [|x h IH]; [done|]. rewrite not_elem_of_cons in Hn.
  rewrite filter_cons, decide_True by naive_solver. f_equal. naive_solver.
Qed.

(** From any reachable state, a processor that calls acquire on a free lock and
    runs undisturbed holds the lock after four steps; release then gives it up in
    six, and the locks held, the nesting depth and the flags are as before. *)
Theorem acquire_release_alone s c l :
  reachable s -> act s c = Run -> locked (locks s l) = 0 ->
  let s1 := steps 4 (CallAcquire l) c s in
  let s2 := steps 6 (CallRelease l) c s1 in
  (act s1 c = Run /\ held s1 c = l :: held s c /\ lcpu (locks s1 l) = Some c) /\
  (act s2 c = Run /\ held s2 c = held s c /\ locked (locks s2 l) = 0 /\
   eflags (cpus s2 c) = eflags (cpus s c) /\ ncli (cpus s2 c) = ncli (cpus s c)).
Proof.
  intros Hr Ha Hl. cbv zeta. remember (steps 4 (CallAcquire l) c s) as s1 eqn:E1.
  remember (steps 6 (CallRelease l) c s1) as s2 eqn:E2.
  pose proof (reachable_inv s Hr) as I. pose proof (inv_irq _ I c) as Hk.
  destruct (acquire_alone s c l s1 I Ha Hl E1) as (A1 & A2 & A3 & A4).
  assert (l ∉ held s c) as Hn.
  { intros Hin. destruct (inv_locked _ I l) as [_ H]. apply H; [exists c; by left|done]. }
  destruct (pushcli_ok _ _ Hk A4) as [_ Hi].
  pose proof (pushcli_spec _ Hk) as Hs. rewrite A4 in Hs. injection Hs as Hs.
  destruct (release_alone s1 c l (held s c) s2) as (B1 & B2 & B3 & B4); try done.
  { rewrite Hs. simpl. destruct Hk. lia. }
  split; [by rewrite A3|]. do 3 (split; [done|]).
  exact (push_pop _ _ _ Hk A4 B4).
Qed.

Lemma acquire_release_alone_witness :
  let s1 := steps 4 (CallAcquire 3) 0 boot0 in
  act s1 0 = Run /\ held s1 0 = [3%nat] /\ lcpu (locks s1 3) = Some 0%nat.
Proof.
  apply (acquire_release_alone boot0 0 3).
  - apply reach_boot. by repeat split.
  - reflexivity.
  - reflexivity.
Defined.
End Alone.
