(* ===== verification/Layout.v ===== *)
(** * fs.h: words in blocks and the super block

    A block is a list of 512 bytes.  [get32]/[put32] and [get16]/[put16] are the
    loads and stores the code makes through a struct pointer into a block's data;
    the layout of each struct is its field offsets. *)

From stdpp Require Import base list numbers strings.
From S2P Require Import Prelude.

Open Scope Z_scope.

Definition ROOTINO : Z := 1.
Definition ROOTDEV : Z := 1.
Definition MAXOPBLOCKS : Z := 10.
Definition LOGSIZE : Z := MAXOPBLOCKS * 3.
Definition NDIRECT : Z := 12.
Definition NINDIRECT : Z := 128.
Definition MAXFILE : Z := NDIRECT + NINDIRECT.
Definition IPB : Z := 8.
Definition BPB : Z := 4096.
Definition DIRSIZ : nat := 14.

(** The block that holds inode [i]; the block of the bitmap that holds the bit of
    block [b]. *)
Definition IBLOCK (i : Z) : Z := i / IPB + 2.
Definition BBLOCK (b ninodes : Z) : Z := b / BPB + ninodes / IPB + 3.

Definition get32 (d : list Z) (off : nat) : Z := of_le (slice off 4 d).
Definition put32 (d : list Z) (off : nat) (v : Z) : list Z := splice off (to_le 4 v) d.
Definition get16 (d : list Z) (off : nat) : Z := of_le (slice off 2 d).
Definition put16 (d : list Z) (off : nat) (v : Z) : list Z := splice off (to_le 2 v) d.

(** Loads that fault outside the block. *)
Definition rd32 (d : list Z) (off : nat) : option Z :=
  if (off + 4 <=? length d)%nat then Some (get32 d off) else None.

Record superblock := mksb { sb_size : Z; sb_nblocks : Z; sb_ninodes : Z; sb_nlog : Z }.

(** memmove(sb, bp->data, sizeof( *sb)). *)
Definition sb_of (d : list Z) : superblock :=
  mksb (get32 d 0) (get32 d 4) (get32 d 8) (get32 d 12).

Lemma length_put32 d off v : (off + 4 <= length d)%nat -> length (put32 d off v) = length d.
Proof. intros. apply length_splice. by rewrite length_to_le. Qed.

Lemma get32_put32 d off v :
  (off + 4 <= length d)%nat -> get32 (put32 d off v) off = u32 v.
Proof.
  intros H. unfold get32, put32.
  pose proof (slice_splice_same off (to_le 4 v) d) as E. rewrite length_to_le in E.
  rewrite E by done. rewrite of_le_to_le. done.
Qed.

Lemma get32_put32_ne d off off' v :
  (off + 4 <= length d)%nat -> (off' + 4 <= off \/ off + 4 <= off')%nat ->
  get32 (put32 d off v) off' = get32 d off'.
Proof.
  intros H Hd. unfold get32, put32. rewrite slice_splice_disj; rewrite ?length_to_le; done.
Qed.

Lemma length_put16 d off v : (off + 2 <= length d)%nat -> length (put16 d off v) = length d.
Proof. intros. apply length_splice. by rewrite length_to_le. Qed.

Lemma get16_put16 d off v :
  (off + 2 <= length d)%nat -> get16 (put16 d off v) off = u16 v.
Proof.
  intros H. unfold get16, put16.
  pose proof (slice_splice_same off (to_le 2 v) d) as E. rewrite length_to_le in E.
  rewrite E by done. rewrite of_le_to_le. done.
Qed.

Lemma get32_range d off : bytes d -> 0 <= get32 d off < 2 ^ 32.
Proof.
  intros H. unfold get32. pose proof (of_le_range (slice off 4 d) (Forall_slice _ _ _ _ H)) as Hr.
  assert (length (slice off 4 d) <= 4)%nat as Hl by (unfold slice; rewrite length_take; lia).
  assert (256 ^ Z.of_nat (length (slice off 4 d)) <= 256 ^ 4) by (apply Z.pow_le_mono_r; lia).
  lia.
Qed.

Lemma bytes_put32 d off v : bytes d -> bytes (put32 d off v).
Proof. intros. apply Forall_splice; [apply bytes_to_le|done]. Qed.

Lemma i32_u32 x : - 2 ^ 31 <= x < 2 ^ 31 -> i32 (u32 x) = x.
Proof. intros H. unfold i32, u32. rewrite Zplus_mod_idemp_l, Z.mod_small; lia. Qed.
