(* ===== verification/Grep.v ===== *)
(** * grep.c: the regular expression matcher and the line loop

    Strings are lists of non-zero characters; the end of the list is the
    terminating NUL.  [matchhere], [matchstar] and [match_] follow the C routines;
    [sem] is the declarative meaning of a pattern, and the matcher is shown
    equivalent to it.  [grep] is the loop over the reads of a file, on the static
    buffer and with its pointers; on an input that arrives in one read it prints
    exactly the lines that match. *)

From stdpp Require Import base list numbers.
From S2P Require Import Prelude.

Open Scope Z_scope.

Definition CARET : Z := 94.   (* ^ *)
Definition DOLLAR : Z := 36.  (* $ *)
Definition STAR : Z := 42.    (* * *)
Definition DOT : Z := 46.     (* . *)
Definition NL : Z := 10.

(** matchstar(c, re, text) with [mh] for matchhere(re, _):
    do ... while( *text != 0 && ( *text++ == c || c == '.')). *)
Fixpoint matchstar_loop (mh : list Z -> bool) (c : Z) (text : list Z) : bool :=
  if mh text then true
  else match text with
       | [] => false
       | t :: text' => if (t =? c) || (c =? DOT) then matchstar_loop mh c text' else false
       end.

Fixpoint matchhere (re text : list Z) {struct re} : bool :=
  match re with
  | [] => true
  | c :: re1 =>
      let rest (_ : unit) :=
        if (c =? DOLLAR) && (match re1 with [] => true | _ => false end) then
          match text with [] => true | _ => false end
        else match text with
             | [] => false
             | t :: text1 => if (c =? DOT) || (c =? t) then matchhere re1 text1 else false
             end in
      match re1 with
      | d :: re2 => if d =? STAR then matchstar_loop (matchhere re2) c text else rest tt
      | [] => rest tt
      end
  end.

Definition matchstar (c : Z) (re text : list Z) : bool := matchstar_loop (matchhere re) c text.

(** do { ... } while( *text++ != 0 ) *)
Fixpoint match_loop (re text : list Z) : bool :=
  if matchhere re text then true
  else match text with [] => false | _ :: text' => match_loop re text' end.

Definition match_ (re text : list Z) : bool :=
  match re with
  | c :: re1 => if c =? CARET then matchhere re1 text else match_loop re text
  | [] => match_loop re text
  end.

(** ** The meaning of a pattern *)

Inductive item := One (c : Z) | Star (c : Z) | End.

Fixpoint parse (re : list Z) : list item :=
  match re with
  | [] => []
  | c :: re1 =>
      match re1 with
      | d :: re2 => if d =? STAR then Star c :: parse re2 else One c :: parse re1
      | [] => if c =? DOLLAR then [End] else [One c]
      end
  end.

Definition atom (c x : Z) : Prop := c = DOT \/ c = x.

(** [sem its s r]: the items match exactly [s] when followed by [r]. *)
Inductive sem : list item -> list Z -> list Z -> Prop :=
| sem_nil r : sem [] [] r
| sem_end : sem [End] [] []
| sem_one c x its s r : atom c x -> sem its s r -> sem (One c :: its) (x :: s) r
| sem_star c xs its s r : Forall (atom c) xs -> sem its s r -> sem (Star c :: its) (xs ++ s) r.

(** A pattern matches a text when it matches a part of it, at the start of the text
    if the pattern begins with a caret. *)
Definition matches (re text : list Z) : Prop :=
  match re with
  | c :: re1 =>
      if c =? CARET then exists s r, text = s ++ r /\ sem (parse re1) s r
      else exists p s r, text = p ++ s ++ r /\ sem (parse re) s r
  | [] => exists p s r, text = p ++ s ++ r /\ sem (parse re) s r
  end.

Definition here (its : list item) (text : list Z) : Prop :=
  exists s r, text = s ++ r /\ sem its s r.

Lemma matchstar_loop_spec mh its c text :
  (forall t, mh t = true <-> here its t) ->
  matchstar_loop mh c text = true <-> here (Star c :: its) text.
Proof.
  intros Hmh. split.
  - induction text as [|t text IH]; simpl.
    + destruct (mh []) eqn:E; [|done]. intros _. apply Hmh in E as (s & r & Ht & Hs).
      exists s, r. split; [done|]. by apply (sem_star c []).
    + destruct (mh (t :: text)) eqn:E.
      { intros _. apply Hmh in E as (s & r & Ht & Hs).
        exists s, r. split; [done|]. by apply (sem_star c []). }
      destruct ((t =? c) || (c =? DOT)) eqn:Ec; [|done]. intros H.
      destruct (IH H) as (s & r & Ht & Hs). inversion Hs as [| | |? xs ? s' ? Hxs Hs']; subst.
      exists (t :: xs ++ s'), r. split; [done|]. apply (sem_star c (t :: xs)); [|done].
      constructor; [|done]. unfold atom. apply orb_prop in Ec as [Ec|Ec]; zbool; auto.
  - intros (s & r & -> & Hs). inversion Hs as [| | |? xs ? s' ? Hxs Hs']; subst. clear Hs.
    rewrite <- app_assoc. assert (mh (s' ++ r) = true) as Hend.
    { apply Hmh. by exists s', r. }
    induction Hxs as [|x xs Hx _ IH]; simpl.
    + destruct (s' ++ r); simpl; by rewrite Hend.
    + destruct (mh (x :: xs ++ s' ++ r)); [done|].
      assert ((x =? c) || (c =? DOT) = true) as ->; [|done].
      destruct Hx as [->| ->]; [by rewrite Z.eqb_refl, orb_true_r|by rewrite Z.eqb_refl].
Qed.

Lemma here_one c its text :
  here (One c :: its) text <->
  exists t text1, text = t :: text1 /\ atom c t /\ here its text1.
Proof.
  split.
  - intros (s & r & -> & Hs). inversion Hs as [| |? x ? s' ? Hx Hs'|]; subst.
    exists x, (s' ++ r). repeat split; auto. by exists s', r.
  - intros (t & text1 & -> & Hc & s & r & -> & Hs). exists (t :: s), r.
    split; [done|]. by constructor.
Qed.

Lemma here_end text : here [End] text <-> text = [].
Proof.
  split; [|intros ->; exists [], []; split; [done|constructor]].
  intros (s & r & -> & Hs). by inversion Hs.
Qed.

(** The step of matchhere that consumes one character. *)
Lemma consume_spec c (mh : list Z -> bool) its text :
  (forall t, mh t = true <-> here its t) ->
  (match text with
   | [] => false
   | t :: text1 => if (c =? DOT) || (c =? t) then mh text1 else false
   end) = true <-> here (One c :: its) text.
Proof.
  intros H. rewrite here_one. split.
  - destruct text as [|t text1]; [done|].
    destruct ((c =? DOT) || (c =? t)) eqn:E; [|done]. intros Hm.
    exists t, text1. split; [done|]. split; [|by apply H].
    apply orb_prop in E as [E|E]; zbool; [by left|by right].
  - intros (t & text1 & -> & Hc & Hh). apply H in Hh.
    destruct Hc as [->| ->]; by rewrite Z.eqb_refl, ?orb_true_r.
Qed.

(** matchhere decides whether the pattern matches at the start of the text. *)
Lemma matchhere_spec re text : matchhere re text = true <-> here (parse re) text.
Proof.
  revert text. remember (length re) as n eqn:Hn. assert (length re <= n)%nat as Hle by lia.
  clear Hn. revert re Hle. induction n as [|n IH]; intros re Hle text.
  { destruct re; [|simpl in Hle; lia]. simpl. split; [|done]. intros _.
    exists [], text. split; [done|constructor]. }
  destruct re as [|c re1]; simpl.
  { split; [|done]. intros _. exists [], text. split; [done|constructor]. }
  simpl in Hle. destruct re1 as [|d re2].
  - rewrite andb_true_r. destruct (c =? DOLLAR).
    + rewrite here_end. by destruct text.
    + apply (consume_spec c (fun _ => true) []). intros t. split; [|done]. intros _.
      exists [], t. split; [done|constructor].
  - simpl in Hle. destruct (d =? STAR).
    + apply matchstar_loop_spec. intros t. apply IH. lia.
    + rewrite andb_false_r. apply (consume_spec c (matchhere (d :: re2))).
      intros t. apply IH. simpl. lia.
Qed.

Lemma match_loop_spec re text :
  match_loop re text = true <-> exists p s r, text = p ++ s ++ r /\ sem (parse re) s r.
Proof.
  split.
  - induction text as [|t text IH]; cbn [match_loop].
    + destruct (matchhere re []) eqn:E; [|done]. intros _.
      apply matchhere_spec in E as (s & r & H & Hs). exists [], s, r. by split.
    + destruct (matchhere re (t :: text)) eqn:E.
      * intros _. apply matchhere_spec in E as (s & r & H & Hs). exists [], s, r. by split.
      * intros H. destruct (IH H) as (p & s & r & -> & Hs). by exists (t :: p), s, r.
  - intros (p & s & r & -> & Hs). induction p as [|t p IH]; simpl.
    + assert (matchhere re (s ++ r) = true) as Hm by (apply matchhere_spec; by exists s, r).
      destruct (s ++ r); simpl; by rewrite Hm.
    + by destruct (matchhere re _).
Qed.

(** C36: the backtracking matcher is exact: for every pattern and text it returns 1 if
    and only if the pattern, read as items with their stars, dots and anchors,
    matches a part of the text. *)
Theorem match_correct re text : match_ re text = true <-> matches re text.
Proof.
  unfold match_, matches. destruct re as [|c re1]; [apply match_loop_spec|].
  destruct (c =? CARET); [apply matchhere_spec|apply match_loop_spec].
Qed.

(** ** The line loop *)

(** The static buffer, char buf[1024]. *)
Definition BUFSZ : nat := 1024.

(** strchr(p, '\n') from offset [p] of the buffer: the offset of the newline, [None]
    inside for a NUL first; running off the buffer is the outer [None]. *)
Fixpoint strchr_nl (l : list Z) (p : nat) : option (option nat) :=
  match l with
  | [] => None
  | c :: l' => if c =? 0 then Some None
               else if c =? NL then Some (Some p) else strchr_nl l' (S p)
  end.

(** The inner loop: [fuel] bounds the number of lines; it returns the buffer, the
    offset p and the bytes written to standard output. *)
Fixpoint lines_loop (fuel : nat) (re : list Z) (buf : list Z) (p : nat) (out : list Z)
  : option (list Z * nat * list Z) :=
  match fuel with
  | O => None
  | S fuel =>
      match strchr_nl (drop p buf) p with
      | None => None
      | Some None => Some (buf, p, out)
      | Some (Some q) =>
          let line := slice p (q - p) buf in
          if match_ re line then
            lines_loop fuel re buf (S q) (out ++ line ++ [NL])
          else lines_loop fuel re (<[q := 0]> buf) (S q) out
      end
  end.

(** while((n = read(fd, buf+m, sizeof(buf)-m)) > 0) over the results of the reads;
    a negative [m] makes the next read store below the buffer ([None]). *)
Fixpoint grep_loop (re : list Z) (reads : list (list Z)) (buf : list Z) (m : Z) (out : list Z)
  : option (list Z * Z * list Z) :=
  match reads with
  | [] => Some (buf, m, out)
  | chunk :: reads =>
      if (m <? 0) || (Z.of_nat BUFSZ <? m + Z.of_nat (length chunk)) then None else
      let buf := splice (Z.to_nat m) chunk buf in
      let m := m + Z.of_nat (length chunk) in
      match lines_loop (S BUFSZ) re buf 0 out with
      | None => None
      | Some (buf, p, out) =>
          let m := if Nat.eqb p 0 then 0 else m in
          if 0 <? m then
            let m := m - Z.of_nat p in
            grep_loop re reads (splice 0 (slice p (Z.to_nat m) buf) buf) m out
          else grep_loop re reads buf m out
      end
  end.

Definition grep (re : list Z) (reads : list (list Z)) : option (list Z) :=
  match grep_loop re reads (replicate BUFSZ 0) 0 [] with
  | Some (_, _, out) => Some out
  | None => None
  end.

(** The intended output: the matching lines, each with its newline. *)
Definition selected (re : list Z) (ls : list (list Z)) : list Z :=
  concat (map (fun l => l ++ [NL]) (filter (fun l => match_ re l = true) ls)).
Definition text_of (ls : list (list Z)) : list Z := concat (map (fun l => l ++ [NL]) ls).

Definition plain (l : list Z) : Prop := Forall (fun c => c <> 0 /\ c <> NL) l.

Lemma strchr_nl_line l rest p :
  plain l -> strchr_nl (l ++ NL :: rest) p = Some (Some (p + length l)%nat).
Proof.
  intros H. revert p. induction H as [|c l [H0 H1] _ IH]; intros p; simpl.
  - by rewrite Nat.add_0_r.
  - rewrite (proj2 (Z.eqb_neq c 0)), (proj2 (Z.eqb_neq c NL)), IH by done.
    do 2 f_equal. lia.
Qed.

Lemma insert_line_end (pre l rest : list Z) v w :
  <[(length pre + length l)%nat := v]> (pre ++ l ++ w :: rest) = pre ++ l ++ v :: rest.
Proof.
  rewrite !insert_app_r_alt by lia.
  by replace (length pre + length l - length pre - length l)%nat with 0%nat by lia.
Qed.

Lemma lines_loop_spec re ls buf pre rest out fuel :
  Forall plain ls -> (length ls < fuel)%nat ->
  buf = pre ++ text_of ls ++ 0 :: rest ->
  exists buf', lines_loop fuel re buf (length pre) out =
    Some (buf', (length pre + length (text_of ls))%nat, out ++ selected re ls).
Proof.
  intros Hls. revert buf pre out fuel.
  induction Hls as [|l ls Hl Hls IH]; intros buf pre out fuel Hf Hb.
  - destruct fuel as [|fuel]; [lia|]. simpl in Hb. cbn [lines_loop].
    rewrite Hb, drop_app_length. cbn [strchr_nl Z.eqb].
    eexists. cbn. by rewrite Nat.add_0_r, app_nil_r.
  - destruct fuel as [|fuel]; [lia|]. simpl in Hf. cbn [lines_loop].
    assert (buf = pre ++ l ++ NL :: text_of ls ++ 0 :: rest) as Hb'.
    { rewrite Hb. unfold text_of. simpl. by rewrite <- !app_assoc. }
    rewrite Hb', drop_app_length, strchr_nl_line by done.
    replace (length pre + length l - length pre)%nat with (length l) by lia.
    unfold slice. rewrite drop_app_length, take_app_length.
    assert (S (length pre + length l) = length ((pre ++ l) ++ [NL])) as Hlen
      by (rewrite !length_app; simpl; lia).
    assert (length (text_of (l :: ls)) = S (length l) + length (text_of ls))%nat as Htl.
    { unfold text_of. simpl. rewrite !length_app. simpl. lia. }
    rewrite Htl. unfold selected. rewrite filter_cons.
    destruct (match_ re l) eqn:Em; case_decide as Hd; try done.
    + rewrite Hlen.
      destruct (IH (pre ++ l ++ NL :: text_of ls ++ 0 :: rest) ((pre ++ l) ++ [NL])
        (out ++ l ++ [NL]) fuel) as (buf' & Hr); [lia|by rewrite <- !app_assoc|].
      exists buf'. rewrite Hr. f_equal. f_equal.
      * f_equal. rewrite !length_app. simpl. lia.
      * unfold selected. simpl. by rewrite <- !app_assoc.
    + rewrite insert_line_end.
      assert (S (length pre + length l) = length ((pre ++ l) ++ [0])) as ->
        by (rewrite !length_app; simpl; lia).
      destruct (IH (pre ++ l ++ 0 :: text_of ls ++ 0 :: rest) ((pre ++ l) ++ [0]) out fuel)
        as (buf' & Hr); [lia|by rewrite <- !app_assoc|].
      exists buf'. rewrite Hr. f_equal. f_equal. f_equal. rewrite !length_app. simpl. lia.
Qed.

Lemma text_of_lines ls : (length ls <= length (text_of ls))%nat.
Proof.
  induction ls as [|l ls IH]; [done|]. unfold text_of in *. simpl.
  rewrite !length_app. simpl. lia.
Qed.

(** When the whole input arrives in one read and leaves room for the terminating
    NUL, grep prints exactly the lines that match, in order. *)
Theorem grep_one_read re ls :
  Forall plain ls -> (length (text_of ls) < BUFSZ)%nat ->
  grep re [text_of ls] = Some (selected re ls).
Proof.
  intros Hls Hlen. unfold grep. cbn [grep_loop].
  rewrite (proj2 (Z.ltb_ge (Z.of_nat BUFSZ) _)) by lia. cbn [orb Z.ltb Z.compare].
  change (Z.to_nat 0) with 0%nat.
  assert (splice 0 (text_of ls) (replicate BUFSZ 0) =
    [] ++ text_of ls ++ 0 :: replicate (BUFSZ - S (length (text_of ls))) 0) as ->.
  { unfold splice. rewrite take_0, drop_replicate. simpl. f_equal.
    replace (BUFSZ - length (text_of ls))%nat with (S (BUFSZ - S (length (text_of ls)))) by lia.
    done. }
  set (buf := [] ++ text_of ls ++ _).
  destruct (lines_loop_spec re ls buf [] (replicate (BUFSZ - S (length (text_of ls))) 0) []
    (S BUFSZ) Hls) as (buf' & Hr); [pose proof (text_of_lines ls); lia|done|].
  cbn [length] in Hr. rewrite Hr. cbn [grep_loop].
  match goal with |- context [if ?b then Some _ else _] => by destruct b end.
Qed.

(** "ab$" on the two lines "cab" and "abc". *)
Lemma grep_one_read_witness :
  grep [97; 98; DOLLAR] [text_of [[99; 97; 98]; [97; 98; 99]]] = Some [99; 97; 98; NL].
Proof.
  rewrite (grep_one_read [97; 98; DOLLAR] [[99; 97; 98]; [97; 98; 99]]).
  - reflexivity.
  - repeat constructor; discriminate.
  - apply Nat.ltb_lt. reflexivity.
Defined.

(** The buffer is not terminated after a read, so a read that is shorter than
    what the buffer held leaves old lines behind the new data, and they are printed
    again: on the lines "aaaa", "ba" and then "a" the pattern "a" prints "a", and
    after it the stale "a" and "ba". *)
Theorem grep_prints_stale_lines :
  let first := [[97; 97; 97; 97]; [98; 97]] in
  let second := [[97]] in
  grep [97] [text_of first; text_of second] =
    Some (selected [97] (first ++ second) ++ text_of [[97; 97]; [98; 97]]) /\
  Forall plain (first ++ second).
Proof. split; [vm_compute; reflexivity|]. repeat constructor; discriminate. Qed.
