(* ===== verification/Pipe.v ===== *)
(** * pipe.c: the bounded pipe

    [pstate] is struct pipe with the running processor's context.  The counters
    nread and nwrite are 32-bit and wrap; [contents] is the abstract queue.
    pipewrite and piperead are cut where they sleep: each section runs with the pipe
    lock held until the call returns or sleeps, and a call that slept resumes at the
    test of its while loop.  [Sched] interleaves any number of readers and writers
    at that granularity, with their sleeps and wakeups. *)

From stdpp Require Import base list numbers strings sets.
From S2P Require Import Prelude Spinlock.
Import Ctx.

Open Scope Z_scope.

Definition PIPESIZE : Z := 512.

Record pstate := mkp {
  data : list Z;
  nread : Z;
  nwrite : Z;
  readopen : Z;
  writeopen : Z;
  pctx : kctx }.

#[export] Program Instance pstate_ctx : HasCtx pstate := {|
  ctx := pctx;
  with_ctx k p := mkp (data p) (nread p) (nwrite p) (readopen p) (writeopen p) k |}.
Next Obligation. done. Qed.
Next Obligation. done. Qed.
Next Obligation. by intros []. Qed.

Local Open Scope kernel_scope.

(** The initialisation of a new pipe in pipealloc; the page's old contents stay in
    data. *)
Definition pipe_init (page : list Z) (k : kctx) : pstate := mkp page 0 0 1 1 k.

Definition set_open (r w : Z) : M pstate unit :=
  modify (fun p => mkp (data p) (nread p) (nwrite p) r w (pctx p)).
Definition set_nread (v : Z) : M pstate unit :=
  modify (fun p => mkp (data p) v (nwrite p) (readopen p) (writeopen p) (pctx p)).

(** p->data[p->nwrite++ % PIPESIZE] = c *)
Definition put (c : Z) : M pstate unit :=
  modify (fun p => mkp (<[Z.to_nat (nwrite p mod PIPESIZE) := c]> (data p))
    (nread p) (u32 (nwrite p + 1)) (readopen p) (writeopen p) (pctx p)).

(** How a section of pipewrite ends: it returns [r] having stored up to index [i],
    or it sleeps on nwrite with index [i] still to store. *)
Inductive wres := WDone (r : Z) (i : nat) | WSleep (i : nat).

(** The for loop of pipewrite from index [i] with [k] bytes to go. *)
Fixpoint pipewrite_loop (k : nat) (addr : list Z) (n : Z) (i : nat) : M pstate wres :=
  match k with
  | O => wakeup ChPipeRead ;; release LkPipe ;; ret (WDone n i)
  | S k' =>
      p <- gets id ;;
      if nwrite p =? u32 (nread p + PIPESIZE) then
        kd <- proc_killed ;;
        if (readopen p =? 0) || kd then release LkPipe ;; ret (WDone (-1) i)
        else wakeup ChPipeRead ;; release LkPipe ;; ret (WSleep i)
      else
        c <- lift_opt (addr !! i) ;;
        put c ;;
        pipewrite_loop k' addr n (S i)
  end.

(** A section of pipewrite(p, addr, n): the call itself for [i = 0], the
    continuation after a sleep otherwise. *)
Definition pipewrite (addr : list Z) (n : Z) (i : nat) : M pstate wres :=
  acquire LkPipe ;; pipewrite_loop (Z.to_nat n - i) addr n i.

(** How a section of piperead ends: it returns [r] and the bytes stored at addr, or
    it sleeps on nread. *)
Inductive rres := RDone (r : Z) (bs : list Z) | RSleep.

(** The copying loop: stops when the pipe is empty. *)
Fixpoint piperead_copy (k : nat) : M pstate (list Z) :=
  match k with
  | O => ret []
  | S k' =>
      p <- gets id ;;
      if nread p =? nwrite p then ret []
      else
        c <- lift_opt (data p !! Z.to_nat (nread p mod PIPESIZE)) ;;
        set_nread (u32 (nread p + 1)) ;;
        bs <- piperead_copy k' ;;
        ret (c :: bs)
  end.

Definition piperead (n : Z) : M pstate rres :=
  acquire LkPipe ;;
  p <- gets id ;;
  if (nread p =? nwrite p) && negb (writeopen p =? 0) then
    kd <- proc_killed ;;
    if kd then release LkPipe ;; ret (RDone (-1) [])
    else release LkPipe ;; ret RSleep
  else
    bs <- piperead_copy (Z.to_nat n) ;;
    wakeup ChPipeWrite ;;
    release LkPipe ;;
    ret (RDone (Z.of_nat (length bs)) bs).

(** pipeclose: the result says whether the page of the pipe is freed. *)
Definition pipeclose (writable : bool) : M pstate bool :=
  acquire LkPipe ;;
  p <- gets id ;;
  (if writable then set_open (readopen p) 0 ;; wakeup ChPipeRead
   else set_open 0 (writeopen p) ;; wakeup ChPipeWrite) ;;
  p <- gets id ;;
  if (readopen p =? 0) && (writeopen p =? 0) then release LkPipe ;; ret true
  else release LkPipe ;; ret false.

(** ** The queue a pipe holds *)

Definition count (p : pstate) : Z := u32 (nwrite p - nread p).

Definition at_ (p : pstate) (k : nat) : Z :=
  default 0 (data p !! Z.to_nat ((nread p + Z.of_nat k) mod PIPESIZE)).

Definition contents (p : pstate) : list Z := at_ p <$> seq 0 (Z.to_nat (count p)).

Record pipe_ok (p : pstate) : Prop := {
  ok_len : length (data p) = Z.to_nat PIPESIZE;
  ok_nread : 0 <= nread p < 2 ^ 32;
  ok_nwrite : 0 <= nwrite p < 2 ^ 32;
  ok_count : count p <= PIPESIZE }.

Lemma length_contents p : length (contents p) = Z.to_nat (count p).
Proof. unfold contents. by rewrite length_fmap, length_seq. Qed.

Lemma count_nonneg p : 0 <= count p.
Proof. unfold count. pose proof (u32_range (nwrite p - nread p)). lia. Qed.

Lemma u32_sub_cases a b :
  0 <= a < 2 ^ 32 -> 0 <= b < 2 ^ 32 ->
  u32 (a - b) = if b <=? a then a - b else a - b + 2 ^ 32.
Proof.
  intros. unfold u32. destruct (Z.leb_spec b a).
  - rewrite Z.mod_small; lia.
  - replace (a - b) with (a - b + 2 ^ 32 + (-1) * 2 ^ 32) by lia.
    rewrite Z_mod_plus_full, Z.mod_small; lia.
Qed.

Lemma u32_add_cases a b :
  0 <= a < 2 ^ 32 -> 0 <= b < 2 ^ 32 ->
  u32 (a + b) = if a + b <? 2 ^ 32 then a + b else a + b - 2 ^ 32.
Proof.
  intros. unfold u32. destruct (Z.ltb_spec (a + b) (2 ^ 32)).
  - rewrite Z.mod_small; lia.
  - replace (a + b) with (a + b - 2 ^ 32 + 1 * 2 ^ 32) by lia.
    rewrite Z_mod_plus_full, Z.mod_small; lia.
Qed.

(** Counters wrap at a multiple of the buffer size. *)
Lemma u32_mod_pipesize x : u32 x mod PIPESIZE = x mod PIPESIZE.
Proof.
  unfold u32, PIPESIZE. apply Z.mod_mod_divide. by exists (2 ^ 23).
Qed.

Lemma full_iff p :
  pipe_ok p -> nwrite p = u32 (nread p + PIPESIZE) <-> count p = PIPESIZE.
Proof.
  intros [_ Hr Hw _]. unfold count, PIPESIZE. rewrite u32_add_cases, u32_sub_cases by lia.
  destruct (Z.ltb_spec (nread p + 512) (2 ^ 32)), (Z.leb_spec (nread p) (nwrite p)); lia.
Qed.

Lemma empty_iff p : pipe_ok p -> nread p = nwrite p <-> count p = 0.
Proof.
  intros [_ Hr Hw _]. unfold count. rewrite u32_sub_cases by lia.
  destruct (Z.leb_spec (nread p) (nwrite p)); lia.
Qed.

Lemma nwrite_index p :
  pipe_ok p -> nwrite p mod PIPESIZE = (nread p + count p) mod PIPESIZE.
Proof.
  intros [_ Hr Hw _]. unfold count. rewrite <- (u32_mod_pipesize (nread p + _)).
  f_equal. rewrite u32_sub_cases by lia.
  pose proof (u32_small (nwrite p)). unfold u32 in *.
  destruct (Z.leb_spec (nread p) (nwrite p)).
  - replace (nread p + (nwrite p - nread p)) with (nwrite p) by lia. lia.
  - replace (nread p + (nwrite p - nread p + 2 ^ 32)) with (nwrite p + 1 * 2 ^ 32) by lia.
    rewrite Z_mod_plus_full. lia.
Qed.

(** The slots of a window of at most 512 consecutive counters are distinct. *)
Lemma slots_distinct r i j :
  0 <= i < j -> j < PIPESIZE + i -> (r + i) mod PIPESIZE <> (r + j) mod PIPESIZE.
Proof.
  unfold PIPESIZE. intros Hi Hj E.
  pose proof (Z.div_mod (r + i) 512). pose proof (Z.div_mod (r + j) 512). lia.
Qed.

Definition put_state (c : Z) (p : pstate) : pstate :=
  mkp (<[Z.to_nat (nwrite p mod PIPESIZE) := c]> (data p))
    (nread p) (u32 (nwrite p + 1)) (readopen p) (writeopen p) (pctx p).

Definition take_state (p : pstate) : pstate :=
  mkp (data p) (u32 (nread p + 1)) (nwrite p) (readopen p) (writeopen p) (pctx p).

Lemma count_put c p : pipe_ok p -> count p < PIPESIZE -> count (put_state c p) = count p + 1.
Proof.
  intros [_ Hr Hw _]. unfold count, PIPESIZE. simpl.
  rewrite u32_sub_cases by lia. rewrite u32_add_cases by lia.
  destruct (Z.leb_spec (nread p) (nwrite p)), (Z.ltb_spec (nwrite p + 1) (2 ^ 32));
    intros Hc; rewrite u32_sub_cases by lia;
    match goal with |- context [?a <=? ?b] => destruct (Z.leb_spec a b) end; lia.
Qed.

Lemma count_take p : pipe_ok p -> 0 < count p -> count (take_state p) = count p - 1.
Proof.
  intros [_ Hr Hw Hc]. unfold count, PIPESIZE in *. simpl. revert Hc.
  rewrite u32_sub_cases by lia. rewrite u32_add_cases by lia.
  destruct (Z.leb_spec (nread p) (nwrite p)), (Z.ltb_spec (nread p + 1) (2 ^ 32));
    intros Hc Hpos; rewrite u32_sub_cases by lia;
    match goal with |- context [?a <=? ?b] => destruct (Z.leb_spec a b) end; lia.
Qed.

Lemma put_ok c p : pipe_ok p -> count p < PIPESIZE -> pipe_ok (put_state c p).
Proof.
  intros Hok Hc. pose proof (count_put c p Hok Hc). destruct Hok as [H1 H2 H3 H4].
  constructor; simpl; auto using u32_range.
  - by rewrite length_insert.
  - lia.
Qed.

Lemma take_ok p : pipe_ok p -> 0 < count p -> pipe_ok (take_state p).
Proof.
  intros Hok Hc. pose proof (count_take p Hok Hc). destruct Hok as [H1 H2 H3 H4].
  constructor; simpl; auto using u32_range. lia.
Qed.

Lemma contents_put c p :
  pipe_ok p -> count p < PIPESIZE -> contents (put_state c p) = contents p ++ [c].
Proof.
  intros Hok Hc. unfold contents. rewrite count_put by done.
  pose proof (count_nonneg p) as H0.
  replace (Z.to_nat (count p + 1)) with (S (Z.to_nat (count p))) by lia.
  rewrite seq_S, fmap_app. f_equal.
  - apply list_fmap_ext. intros i k Hk. apply lookup_seq in Hk as [-> Hk].
    unfold at_. simpl. rewrite list_lookup_insert_ne; [done|].
    rewrite nwrite_index by done.
    pose proof (Z.mod_pos_bound (nread p + Z.of_nat i) PIPESIZE).
    pose proof (Z.mod_pos_bound (nread p + count p) PIPESIZE).
    pose proof (slots_distinct (nread p) (Z.of_nat i) (count p)). unfold PIPESIZE in *. lia.
  - simpl. unfold at_. simpl. rewrite nwrite_index by done.
    replace (nread p + Z.of_nat (Z.to_nat (count p))) with (nread p + count p) by lia.
    rewrite list_lookup_insert_eq; [done|]. rewrite (ok_len p Hok).
    pose proof (Z.mod_pos_bound (nread p + count p) PIPESIZE). unfold PIPESIZE in *. lia.
Qed.

Lemma contents_take p :
  pipe_ok p -> 0 < count p -> contents p = at_ p 0 :: contents (take_state p).
Proof.
  intros Hok Hc. unfold contents. rewrite count_take by done.
  replace (Z.to_nat (count p)) with (S (Z.to_nat (count p - 1))) by lia.
  cbn [seq fmap list_fmap]. f_equal. rewrite <- fmap_S_seq, <- list_fmap_compose.
  apply list_fmap_ext. intros i k _. unfold at_. simpl. f_equal. f_equal. f_equal.
  rewrite <- (Zplus_mod_idemp_l (u32 _)), u32_mod_pipesize, Zplus_mod_idemp_l. f_equal. lia.
Qed.

Lemma at_head p : pipe_ok p -> data p !! Z.to_nat (nread p mod PIPESIZE) = Some (at_ p 0).
Proof.
  intros Hok. unfold at_. rewrite Z.add_0_r.
  destruct (lookup_lt_is_Some_2 (data p) (Z.to_nat (nread p mod PIPESIZE))) as [c ->]; [|done].
  rewrite (ok_len p Hok). pose proof (Z.mod_pos_bound (nread p) PIPESIZE).
  unfold PIPESIZE in *. lia.
Qed.

(** [with_ctx] does not touch the queue. *)
Lemma contents_ctx k p : contents (with_ctx k p) = contents p.
Proof. done. Qed.

Lemma pipe_ok_ctx k p : pipe_ok p -> pipe_ok (with_ctx k p).
Proof. intros [H1 H2 H3 H4]. by constructor. Qed.

(** ** What the sections do *)

(** What no section changes. *)
Definition frame (p p' : pstate) : Prop :=
  pipe_ok p' /\ held (pctx p') = held (pctx p) /\ killed (pctx p') = killed (pctx p) /\
  readopen p' = readopen p /\ writeopen p' = writeopen p.

(** The end of a section of pipewrite that starts at index [i]. *)
Definition write_post (addr : list Z) (n : Z) (i : nat) (p : pstate) (r : wres) (p' : pstate)
  : Prop :=
  frame p p' /\
  match r with
  | WDone v i' =>
      (i <= i')%nat /\ contents p' = contents p ++ slice i (i' - i) addr /\
      ((v = n /\ i' = Nat.max i (Z.to_nat n) /\
        woken (pctx p') = ChPipeRead :: woken (pctx p)) \/
       (v = -1 /\ (i' < Z.to_nat n)%nat /\ count p' = PIPESIZE /\
        (readopen p = 0 \/ killed (pctx p) = true) /\ woken (pctx p') = woken (pctx p)))
  | WSleep i' =>
      (i <= i' < Z.to_nat n)%nat /\ contents p' = contents p ++ slice i (i' - i) addr /\
      count p' = PIPESIZE /\ readopen p <> 0 /\ killed (pctx p) = false /\
      woken (pctx p') = ChPipeRead :: woken (pctx p)
  end.

Lemma slice_0 {A} i (l : list A) : slice i 0 l = [].
Proof. by unfold slice. Qed.

Lemma slice_S {A} i n (l : list A) c :
  l !! i = Some c -> slice i (S n) l = c :: slice (S i) n l.
Proof.
  intros H. unfold slice. apply drop_S in H. rewrite H. done.
Qed.

Lemma pipewrite_loop_spec k addr n i p :
  pipe_ok p -> held (pctx p) = [LkPipe] ->
  (i + k = Nat.max i (Z.to_nat n))%nat -> (i + k <= length addr)%nat ->
  wp (pipewrite_loop k addr n i)
     (write_post addr n i (with_ctx (mkctx [] (woken (pctx p)) (killed (pctx p))) p)) p.
Proof.
  revert i p. induction k as [|k IH]; intros i p Hok Hh Hk Hlen; cbn [pipewrite_loop].
  - wp_steps. apply wp_wakeup; [simpl; rewrite Hh; set_solver|].
    wp_steps. eapply wp_release; [done|]. wp_steps.
    split; [split; [by repeat apply pipe_ok_ctx|done]|].
    split; [lia|]. rewrite Nat.sub_diag, slice_0, app_nil_r. split; [done|].
    left. split; [done|]. split; [lia|done].
  - wp_steps. unfold id. destruct (Z.eqb_spec (nwrite p) (u32 (nread p + PIPESIZE))) as [E|E].
    + apply full_iff in E; [|done]. unfold proc_killed. wp_steps.
      destruct ((readopen p =? 0) || killed (ctx p)) eqn:Ek.
      * wp_steps. eapply wp_release; [done|]. wp_steps.
        split; [split; [by apply pipe_ok_ctx|done]|].
        split; [lia|]. rewrite Nat.sub_diag, slice_0, app_nil_r. split; [done|].
        right. split; [done|]. split; [lia|]. split; [done|]. split; [|done].
        apply orb_prop in Ek as [Ek|Ek]; zbool; auto.
      * zbool. wp_steps. apply wp_wakeup; [simpl; rewrite Hh; set_solver|].
        wp_steps. eapply wp_release; [done|]. wp_steps.
        split; [split; [by repeat apply pipe_ok_ctx|done]|].
        split; [lia|]. rewrite Nat.sub_diag, slice_0, app_nil_r. by repeat split.
    + assert (count p < PIPESIZE) as Hc.
      { pose proof (ok_count p Hok). assert (count p <> PIPESIZE) by (by rewrite <- full_iff).
        lia. }
      wp_steps. destruct (lookup_lt_is_Some_2 addr i) as [c Hi]; [lia|].
      eapply wp_lift_opt; [done|]. unfold put. wp_steps. fold (put_state c p).
      eapply wp_mono; [apply IH; [by apply put_ok|done|lia|lia]|].
      intros r p' [Hf Hr]. split; [done|].
      change (contents (with_ctx _ (put_state c p))) with (contents (put_state c p)) in Hr.
      rewrite contents_put in Hr by done.
      destruct r as [v i'|i']; destruct Hr as (Hi' & Hcon & Hr);
        rewrite <- app_assoc in Hcon; simpl in Hcon;
        (split; [lia|]); replace (i' - i)%nat with (S (i' - S i)) by lia;
        rewrite (slice_S i _ addr c) by done; (split; [done|]).
      * destruct Hr as [(-> & Hr & Hw)|Hr]; [left|right; done].
        split; [done|]. split; [lia|done].
      * done.
Qed.

Lemma pipewrite_spec addr n i p :
  pipe_ok p -> held (pctx p) = [] ->
  (Z.to_nat n <= length addr)%nat -> (i <= Z.to_nat n)%nat ->
  wp (pipewrite addr n i) (write_post addr n i p) p.
Proof.
  intros Hok Hh Hn Hi. unfold pipewrite. wp_steps.
  apply wp_acquire; [simpl; rewrite Hh; set_solver|].
  eapply wp_mono; [apply pipewrite_loop_spec; [by apply pipe_ok_ctx|simpl; by rewrite Hh|lia|lia]|].
  intros r p' H. rewrite with_with in H. simpl in H. rewrite <- Hh in H.
  destruct p as [? ? ? ? ? []]. exact H.
Qed.

(** The end of a section of piperead. *)
Definition read_post (n : Z) (p : pstate) (r : rres) (p' : pstate) : Prop :=
  frame p p' /\
  match r with
  | RDone v bs =>
      contents p = bs ++ contents p' /\
      ((v = Z.of_nat (length bs) /\ length bs = Nat.min (Z.to_nat n) (length (contents p)) /\
        (contents p = [] -> writeopen p = 0) /\
        woken (pctx p') = ChPipeWrite :: woken (pctx p)) \/
       (v = -1 /\ bs = [] /\ contents p = [] /\ killed (pctx p) = true /\
        writeopen p <> 0 /\ woken (pctx p') = woken (pctx p)))
  | RSleep =>
      contents p = [] /\ contents p' = [] /\ writeopen p <> 0 /\ killed (pctx p) = false /\
      woken (pctx p') = woken (pctx p)
  end.

Lemma piperead_copy_spec k p :
  pipe_ok p ->
  wp (piperead_copy k) (fun bs p' =>
    pipe_ok p' /\ pctx p' = pctx p /\ readopen p' = readopen p /\ writeopen p' = writeopen p /\
    contents p = bs ++ contents p' /\ length bs = Nat.min k (length (contents p))) p.
Proof.
  revert p. induction k as [|k IH]; intros p Hok; cbn [piperead_copy].
  { wp_steps. by split_and!. }
  wp_steps. unfold id. destruct (Z.eqb_spec (nread p) (nwrite p)) as [E|E].
  - wp_steps. apply empty_iff in E; [|done].
    rewrite length_contents, E. by split_and!.
  - assert (0 < count p) as Hc.
    { pose proof (count_nonneg p). assert (count p <> 0) by (by rewrite <- empty_iff). lia. }
    wp_steps. eapply wp_lift_opt; [by apply at_head|]. unfold set_nread. wp_steps.
    fold (take_state p).
    eapply wp_mono; [apply IH; by apply take_ok|].
    intros bs p' (H1 & H2 & H3 & H4 & H5 & H6). wp_steps.
    repeat (split; [done|]). rewrite contents_take by done. simpl. by rewrite H6, <- H5.
Qed.

Lemma piperead_spec n p :
  pipe_ok p -> held (pctx p) = [] -> wp (piperead n) (read_post n p) p.
Proof.
  intros Hok Hh. unfold piperead. wp_steps.
  apply wp_acquire; [simpl; rewrite Hh; set_solver|]. wp_steps. unfold id. simpl.
  destruct ((nread p =? nwrite p) && negb (writeopen p =? 0)) eqn:E.
  - zbool. assert (contents p = []) as Hemp.
    { apply nil_length_inv. rewrite length_contents. by rewrite (proj1 (empty_iff p Hok)). }
    unfold proc_killed. wp_steps. simpl. destruct (killed (pctx p)) eqn:Ek.
    + wp_steps. eapply wp_release; [done|]. wp_steps. simpl. rewrite Hh.
      split; [split; [by repeat apply pipe_ok_ctx|]; simpl; by rewrite Hh|].
      split; [done|]. right. by split_and!.
    + wp_steps. eapply wp_release; [done|]. wp_steps. simpl. rewrite Hh.
      split; [split; [by repeat apply pipe_ok_ctx|]; simpl; by rewrite Hh|]. by split_and!.
  - wp_steps. eapply wp_mono; [apply piperead_copy_spec; by apply pipe_ok_ctx|].
    intros bs p' (H1 & H2 & H3 & H4 & H5 & H6).
    wp_steps. apply wp_wakeup; [simpl; rewrite H2; simpl; rewrite Hh; set_solver|].
    wp_steps. eapply wp_release; [simpl; by rewrite H2|]. wp_steps. simpl. rewrite H2. simpl.
    split; [split; [by repeat apply pipe_ok_ctx|done]|].
    split; [done|]. left. split; [done|]. split; [done|]. split; [|done].
    intros Hemp. apply andb_false_iff in E as [E|E]; zbool; [|done].
    exfalso. apply E. apply empty_iff; [done|].
    apply (f_equal length) in Hemp. rewrite length_contents in Hemp. simpl in Hemp.
    pose proof (count_nonneg p). lia.
Qed.

(** ** Readers and writers together *)

Module Sched.

(** A call of pipewrite (with the index it is at) or of piperead. *)
Inductive job := Writer (addr : list Z) (n : Z) (i : nat) | Reader (n : Z).
Inductive status := Runnable | Asleep (c : chan) | Finished (r : Z).
Record thread := mkth { jb : job; st : status; tkilled : bool }.

(** [written] and [received]: the bytes stored by all writers and delivered to all
    readers so far, in order. *)
Record sys := mksys {
  pipe : pstate;
  threads : list thread;
  written : list Z;
  received : list Z }.

(** wakeup1, on the threads of the model. *)
Definition wake (cs : list chan) (th : thread) : thread :=
  match st th with
  | Asleep c => if bool_decide (c ∈ cs) then mkth (jb th) Runnable (tkilled th) else th
  | _ => th
  end.

(** Runs the next section of thread [t]. *)
Definition run_thread (s : sys) (t : nat) : option sys :=
  match threads s !! t with
  | Some (mkth j Runnable kd) =>
      let p0 := with_ctx (mkctx [] [] kd) (pipe s) in
      match j with
      | Writer addr n i =>
          match pipewrite addr n i p0 with
          | Ret (WDone v i') p' =>
              Some (mksys p' (<[t := mkth (Writer addr n i') (Finished v) kd]>
                                (wake (woken (pctx p')) <$> threads s))
                      (written s ++ slice i (i' - i) addr) (received s))
          | Ret (WSleep i') p' =>
              Some (mksys p' (<[t := mkth (Writer addr n i') (Asleep ChPipeWrite) kd]>
                                (wake (woken (pctx p')) <$> threads s))
                      (written s ++ slice i (i' - i) addr) (received s))
          | _ => None
          end
      | Reader n =>
          match piperead n p0 with
          | Ret (RDone v bs) p' =>
              Some (mksys p' (<[t := mkth j (Finished v) kd]>
                                (wake (woken (pctx p')) <$> threads s))
                      (written s) (received s ++ bs))
          | Ret RSleep p' =>
              Some (mksys p' (<[t := mkth j (Asleep ChPipeRead) kd]>
                                (wake (woken (pctx p')) <$> threads s))
                      (written s) (received s))
          | _ => None
          end
      end
  | _ => None
  end.

Inductive event :=
| Spawn (j : job)          (* a process makes the call *)
| Run (t : nat)            (* the scheduler runs thread t *)
| Kill (t : nat)           (* kill(): sets killed and makes a sleeper runnable *)
| Close (writable : bool).

Definition job_ok (j : job) : Prop :=
  match j with
  | Writer addr n i => (Z.to_nat n <= length addr)%nat /\ (i <= Z.to_nat n)%nat
  | Reader _ => True
  end.

#[export] Instance job_ok_dec j : Decision (job_ok j).
Proof. destruct j; simpl; apply _. Defined.

Definition step (s : sys) (e : event) : option sys :=
  match e with
  | Spawn j => if decide (job_ok j)
               then Some (mksys (pipe s) (threads s ++ [mkth j Runnable false])
                            (written s) (received s))
               else None
  | Run t => run_thread s t
  | Kill t =>
      match threads s !! t with
      | Some th =>
          let st' := match st th with Asleep _ => Runnable | x => x end in
          Some (mksys (pipe s) (<[t := mkth (jb th) st' true]> (threads s))
                  (written s) (received s))
      | None => None
      end
  | Close w =>
      match pipeclose w (with_ctx (mkctx [] [] false) (pipe s)) with
      | Ret _ p' => Some (mksys p' (wake (woken (pctx p')) <$> threads s)
                            (written s) (received s))
      | _ => None
      end
  end.

Definition is_kill (e : event) : bool := match e with Kill _ => true | _ => false end.

(** [reachable kills s]: [s] arises from a new pipe; with [kills = false] no process
    is killed. *)
Inductive reachable (kills : bool) : sys -> Prop :=
| reach_init page k :
    length page = Z.to_nat PIPESIZE ->
    reachable kills (mksys (pipe_init page k) [] [] [])
| reach_step s e s' :
    reachable kills s -> (is_kill e = true -> kills = true) -> step s e = Some s' ->
    reachable kills s'.

(** *** The bytes: nothing is lost, duplicated or reordered *)

Record inv (s : sys) : Prop := {
  inv_ok : pipe_ok (pipe s);
  inv_jobs : Forall (fun th => job_ok (jb th)) (threads s);
  inv_fifo : written s = received s ++ contents (pipe s) }.

Lemma jobs_wake cs ts :
  Forall (fun th => job_ok (jb th)) ts ->
  Forall (fun th => job_ok (jb th)) (wake cs <$> ts).
Proof.
  intros H. apply Forall_fmap. eapply Forall_impl; [done|]. intros th Hth. simpl.
  unfold wake. destruct (st th); try done. by case_bool_decide.
Qed.

Lemma pipeclose_spec w p :
  pipe_ok p -> held (pctx p) = [] ->
  wp (pipeclose w) (fun freed p' =>
    pipe_ok p' /\ contents p' = contents p /\
    woken (pctx p') = (if w then ChPipeRead else ChPipeWrite) :: woken (pctx p) /\
    readopen p' = (if w then readopen p else 0) /\
    writeopen p' = (if w then 0 else writeopen p) /\
    (freed = true <-> readopen p' = 0 /\ writeopen p' = 0)) p.
Proof.
  intros Hok Hh. unfold pipeclose. wp_steps.
  apply wp_acquire; [simpl; rewrite Hh; set_solver|].
  wp_steps. unfold id. simpl. destruct w; unfold set_open; wp_steps;
    (apply wp_wakeup; [simpl; rewrite Hh; set_solver|]); wp_steps; simpl;
    (lazymatch goal with |- wp (if ?b then _ else _) _ _ => destruct b eqn:E end); wp_steps; (eapply wp_release; [done|]); wp_steps; simpl;
    (split; [destruct Hok; by constructor|]); (split; [done|]);
    split_and!; try done; zbool; try (split; [done|]); try tauto; intros [H1 H2]; exfalso;
    rewrite ?H1, ?H2 in E; done.
Qed.

Lemma sched_inv_step s e s' : inv s -> step s e = Some s' -> inv s'.
Proof.
  intros [I1 I2 I3] Hs. destruct e as [j|t|t|w]; cbn [step] in Hs.
  - case_decide; simplify_eq. constructor; simpl; auto.
    apply Forall_app. split; [done|]. by repeat constructor.
  - unfold run_thread in Hs.
    destruct (threads s !! t) as [[j [] kd]|] eqn:Ht; try done.
    pose proof (Forall_lookup_1 _ _ _ _ I2 Ht) as Hj. simpl in Hj.
    destruct j as [addr n i|n].
    + destruct Hj as [Hn Hi].
      destruct (wp_run _ _ _ (pipewrite_spec addr n i (with_ctx (mkctx [] [] kd) (pipe s))
        (pipe_ok_ctx _ _ I1) eq_refl Hn Hi)) as (r & p' & Hr & Hf & Hpost).
      rewrite Hr in Hs. rewrite contents_ctx in Hpost.
      destruct r as [v i'|i']; simplify_eq; destruct Hpost as (Hi' & Hc & Hw);
        (constructor; simpl; [apply Hf| |by rewrite Hc, I3, app_assoc]);
        apply Forall_insert; auto using jobs_wake; simpl; (split; [done|]).
      * destruct Hw as [(? & ? & ?)|(? & ? & ?)]; lia.
      * lia.
    + destruct (wp_run _ _ _ (piperead_spec n (with_ctx (mkctx [] [] kd) (pipe s))
        (pipe_ok_ctx _ _ I1) eq_refl)) as (r & p' & Hr & Hf & Hpost).
      rewrite Hr in Hs. rewrite contents_ctx in Hpost.
      destruct r as [v bs|]; simplify_eq; constructor; simpl; try apply Hf;
        try (apply Forall_insert; auto using jobs_wake).
      * destruct Hpost as [Hc _]. by rewrite I3, Hc, app_assoc.
      * destruct Hpost as (Hc & Hc' & _). by rewrite I3, Hc, Hc'.
  - destruct (threads s !! t) as [th|] eqn:Ht; simplify_eq. constructor; simpl; auto.
    apply Forall_insert; [done|]. simpl. by apply (Forall_lookup_1 _ _ _ _ I2 Ht).
  - destruct (wp_run _ _ _ (pipeclose_spec w (with_ctx (mkctx [] [] false) (pipe s))
      (pipe_ok_ctx _ _ I1) eq_refl)) as (b & p' & Hr & Hok & Hc & _).
    rewrite Hr in Hs. simplify_eq. constructor; simpl; auto using jobs_wake.
    by rewrite Hc, contents_ctx.
Qed.

Lemma sched_reachable_inv kills s : reachable kills s -> inv s.
Proof.
  induction 1 as [page k Hl|s e s' _ IH _ Hs]; [|by eapply sched_inv_step].
  constructor; simpl; auto. constructor; simpl; done || lia.
Qed.

(** C7: for every interleaving of readers, writers, kills and closes, and however often
    the 32-bit counters wrap, the bytes delivered to readers followed by the bytes in
    the pipe are exactly the bytes written, in order; the pipe never holds more than
    512 of them; and no section panics or faults: a runnable call can always be run. *)
Theorem pipe_fifo kills s :
  reachable kills s ->
  written s = received s ++ contents (pipe s) /\
  Z.of_nat (length (contents (pipe s))) <= PIPESIZE /\
  (forall t th, threads s !! t = Some th -> st th = Runnable -> is_Some (run_thread s t)).
Proof.
  intros Hr. destruct (sched_reachable_inv _ _ Hr) as [I1 I2 I3]. split; [done|]. split.
  { rewrite length_contents. pose proof (ok_count _ I1). pose proof (count_nonneg (pipe s)). lia. }
  intros t [j ? kd] Ht Hst. simpl in Hst. subst. unfold run_thread. rewrite Ht.
  pose proof (Forall_lookup_1 _ _ _ _ I2 Ht) as Hj. destruct j as [addr n i|n].
  - destruct Hj as [Hn Hi].
    destruct (wp_run _ _ _ (pipewrite_spec addr n i (with_ctx (mkctx [] [] kd) (pipe s))
      (pipe_ok_ctx _ _ I1) eq_refl Hn Hi)) as (r & p' & -> & _). by destruct r.
  - destruct (wp_run _ _ _ (piperead_spec n (with_ctx (mkctx [] [] kd) (pipe s))
      (pipe_ok_ctx _ _ I1) eq_refl)) as (r & p' & -> & _). by destruct r.
Qed.

(** A run of events. *)
Fixpoint run (s : sys) (es : list event) : option sys :=
  match es with [] => Some s | e :: es => s' ← step s e; run s' es end.

Lemma sched_reachable_run kills s es s' :
  reachable kills s -> Forall (fun e => is_kill e = true -> kills = true) es ->
  run s es = Some s' -> reachable kills s'.
Proof.
  intros Hr H. revert s Hr. induction H as [|e es He _ IH]; intros s Hr Hrun; simpl in Hrun.
  - by simplify_eq.
  - destruct (step s e) as [s1|] eqn:E; [|done]. eapply IH; [|done]. by eapply reach_step.
Qed.

Definition page0 : list Z := replicate (Z.to_nat PIPESIZE) 0.
Definition new_pipe : sys := mksys (pipe_init page0 (mkctx [] [] false)) [] [] [].

(** A reader that sleeps on the empty pipe, a writer of 3 bytes, the reader again. *)
Definition demo : option sys :=
  run new_pipe [Spawn (Reader 2); Run 0; Spawn (Writer [7; 8; 9] 3 0); Run 1; Run 0].

Definition demo_state : sys := default new_pipe demo.

Lemma demo_reachable : reachable false demo_state.
Proof.
  apply (sched_reachable_run false new_pipe
    [Spawn (Reader 2); Run 0; Spawn (Writer [7; 8; 9] 3 0); Run 1; Run 0]).
  - apply reach_init. reflexivity.
  - repeat constructor; discriminate.
  - vm_compute. reflexivity.
Qed.

Lemma pipe_fifo_witness :
  received demo_state = [7; 8] /\ written demo_state = [7; 8] ++ contents (pipe demo_state).
Proof.
  assert (received demo_state = [7; 8]) as E by (vm_compute; reflexivity).
  split; [exact E|]. rewrite <- E. apply (pipe_fifo false demo_state), demo_reachable.
Defined.

(** *** The sleepers: no wakeup is lost unless a writer is killed *)

(** What justifies a sleeping thread. *)
Definition justified (p : pstate) (th : thread) : Prop :=
  tkilled th = false /\
  match st th with
  | Asleep ChPipeWrite => Z.of_nat (length (contents p)) = PIPESIZE /\ readopen p <> 0
  | Asleep ChPipeRead => readopen p <> 0 -> contents p = [] /\ writeopen p <> 0
  | Asleep _ => False
  | _ => True
  end.

Definition sleepers_ok (s : sys) : Prop := Forall (justified (pipe s)) (threads s).

(** A sleeper not woken stays justified when its own condition is kept. *)
Lemma sleepers_wake cs p p' ts :
  Forall (justified p) ts ->
  (forall th, justified p th -> st th = Asleep ChPipeWrite -> ChPipeWrite ∉ cs -> justified p' th) ->
  (forall th, justified p th -> st th = Asleep ChPipeRead -> ChPipeRead ∉ cs -> justified p' th) ->
  Forall (justified p') (wake cs <$> ts).
Proof.
  intros H Hw Hr. apply Forall_fmap. eapply Forall_impl; [done|]. intros th Hth. simpl.
  unfold wake. destruct (st th) as [|c|] eqn:E.
  - unfold justified in *. by rewrite E in *.
  - case_bool_decide as Hc.
    + destruct Hth as [Hk _]. split; [done|]. done.
    + destruct c; try (destruct Hth as [_ Hth]; rewrite E in Hth; done); eauto.
  - unfold justified in *. by rewrite E in *.
Qed.

Lemma contents_bound p : pipe_ok p -> Z.of_nat (length (contents p)) <= PIPESIZE.
Proof.
  intros H. rewrite length_contents. pose proof (ok_count p H). pose proof (count_nonneg p). lia.
Qed.

Lemma justified_full p p' th l :
  justified p th -> st th = Asleep ChPipeWrite -> pipe_ok p' ->
  contents p' = contents p ++ l -> readopen p' = readopen p -> justified p' th.
Proof.
  intros [Hk H] E Hok Hc Hr. unfold justified. rewrite E in *. split; [done|].
  pose proof (contents_bound p' Hok) as Hb. rewrite Hc, length_app in *. rewrite Hr.
  destruct H. lia.
Qed.

Lemma justified_empty p p' th l :
  justified p th -> st th = Asleep ChPipeRead ->
  contents p = l ++ contents p' -> readopen p' = readopen p -> writeopen p' = writeopen p ->
  justified p' th.
Proof.
  intros [Hk H] E Hc Hr Hw. unfold justified. rewrite E in *. split; [done|].
  rewrite Hr, Hw. intros Hro. destruct (H Hro) as [He Hwo]. split; [|done].
  rewrite He in Hc. symmetry in Hc. by apply app_eq_nil in Hc as [_ ?].
Qed.

Lemma sleepers_run s t s' :
  inv s -> sleepers_ok s -> run_thread s t = Some s' -> sleepers_ok s'.
Proof.
  intros [I1 I2 _] Hs Hrun. unfold run_thread in Hrun.
  destruct (threads s !! t) as [[j [] kd]|] eqn:Ht; try done.
  pose proof (Forall_lookup_1 _ _ _ _ I2 Ht) as Hj. simpl in Hj.
  destruct (Forall_lookup_1 _ _ _ _ Hs Ht) as [Hkd _]. simpl in Hkd. subst kd.
  destruct j as [addr n i|n].
  - destruct Hj as [Hn Hi].
    destruct (wp_run _ _ _ (pipewrite_spec addr n i (with_ctx (mkctx [] [] false) (pipe s))
      (pipe_ok_ctx _ _ I1) eq_refl Hn Hi)) as (r & p' & Hr & Hf & Hpost).
    rewrite Hr in Hrun. rewrite contents_ctx in Hpost. destruct Hf as (Hok & _ & _ & Hro & Hwo).
    destruct r as [v i'|i']; simplify_eq; destruct Hpost as (Hi' & Hc & Hw);
      unfold sleepers_ok; simpl; apply Forall_insert.
    + apply (sleepers_wake _ (pipe s)); [done|eauto using justified_full|].
      intros th Hth E Hnw. destruct Hw as [(_ & _ & Hw)|(_ & _ & _ & Hw & _)].
      * rewrite Hw in Hnw. simpl in Hnw. set_solver.
      * destruct Hth as [Hk _]. split; [done|]. rewrite E, Hro. simpl.
        destruct Hw as [Hw|Hw]; done.
    + done.
    + destruct Hw as (_ & _ & _ & Hw).
      apply (sleepers_wake _ (pipe s)); [done|eauto using justified_full|].
      intros th _ _ Hnw. rewrite Hw in Hnw. set_solver.
    + destruct Hw as (Hcnt & Hr0 & _). split; [done|]. simpl. rewrite length_contents, Hro.
      split; [by rewrite Hcnt|done].
  - destruct (wp_run _ _ _ (piperead_spec n (with_ctx (mkctx [] [] false) (pipe s))
      (pipe_ok_ctx _ _ I1) eq_refl)) as (r & p' & Hr & Hf & Hpost).
    rewrite Hr in Hrun. rewrite contents_ctx in Hpost. destruct Hf as (Hok & _ & _ & Hro & Hwo).
    destruct r as [v bs|]; simplify_eq; unfold sleepers_ok; simpl; apply Forall_insert; try done.
    + destruct Hpost as (Hc & [(_ & _ & _ & Hw)|(_ & _ & _ & Hw & _)]); [|done].
      apply (sleepers_wake _ (pipe s)); [done| |eauto using justified_empty].
      intros th _ _ Hnw. rewrite Hw in Hnw. set_solver.
    + destruct Hpost as (Hc & Hc' & Hw0 & _ & Hw).
      apply (sleepers_wake _ (pipe s)); [done| |].
      * intros th [_ Hth] E _. rewrite E in Hth. rewrite Hc in Hth. by destruct Hth.
      * intros th Hth E _. apply (justified_empty (pipe s) _ _ []); auto. by rewrite Hc, Hc'.
    + destruct Hpost as (Hc & Hc' & Hw0 & _ & Hw). split; [done|]. simpl. intros _.
      by rewrite Hc', Hwo.
Qed.

Lemma sleepers_step s e s' :
  inv s -> sleepers_ok s -> is_kill e = false -> step s e = Some s' -> sleepers_ok s'.
Proof.
  intros I Hs Hk Hstep. destruct e as [j|t|t|w]; cbn [step] in Hstep; try done.
  - case_decide; simplify_eq. unfold sleepers_ok. simpl. apply Forall_app. split; [done|].
    by repeat constructor.
  - by eapply sleepers_run.
  - destruct I as [I1 _ _].
    destruct (wp_run _ _ _ (pipeclose_spec w (with_ctx (mkctx [] [] false) (pipe s))
      (pipe_ok_ctx _ _ I1) eq_refl)) as (b & p' & Hr & Hok & Hc & Hw & Hro & Hwo & _).
    rewrite Hr in Hstep. simplify_eq. unfold sleepers_ok. simpl. rewrite contents_ctx in Hc.
    apply (sleepers_wake _ (pipe s)); [done| |]; intros th Hth E Hnw; rewrite Hw in Hnw;
      destruct w; simpl in *; try set_solver.
    + apply (justified_full (pipe s) p' th []); auto. by rewrite app_nil_r.
    + destruct Hth as [Hk' _]. split; [done|]. rewrite E, Hro. done.
Qed.

(** C32: as long as no process is killed and the read end is open, a sleeping writer finds
    the pipe full, and a sleeping reader finds it empty with its write end open: no wakeup
    is lost, in any interleaving.  (When the read end is closed a writer leaves without
    waking the readers that are still asleep.) *)
Theorem no_lost_wakeup s t th :
  reachable false s -> threads s !! t = Some th -> readopen (pipe s) <> 0 ->
  (st th = Asleep ChPipeWrite -> Z.of_nat (length (contents (pipe s))) = PIPESIZE) /\
  (st th = Asleep ChPipeRead -> contents (pipe s) = [] /\ writeopen (pipe s) <> 0).
Proof.
  intros Hr Ht Hro.
  assert (sleepers_ok s) as Hs.
  { clear Ht Hro. induction Hr as [page k Hl|s e s' Hr IH Hk Hs]; [constructor|].
    eapply sleepers_step; [by eapply sched_reachable_inv|done| |done].
    destruct (is_kill e); [|done]. by specialize (Hk eq_refl). }
  destruct (Forall_lookup_1 _ _ _ _ Hs Ht) as [_ H].
  split; intros E; rewrite E in H; naive_solver.
Qed.

(** The demo state before the writer runs: the reader sleeps on the empty pipe. *)
Definition demo1_state : sys :=
  default new_pipe (run new_pipe [Spawn (Reader 2); Run 0; Spawn (Writer [7; 8; 9] 3 0)]).

Lemma demo1_reachable : reachable false demo1_state.
Proof.
  apply (sched_reachable_run false new_pipe [Spawn (Reader 2); Run 0; Spawn (Writer [7; 8; 9] 3 0)]).
  - apply reach_init. reflexivity.
  - repeat constructor; discriminate.
  - vm_compute. reflexivity.
Qed.

Lemma no_lost_wakeup_witness :
  contents (pipe demo1_state) = [] /\ writeopen (pipe demo1_state) <> 0.
Proof.
  apply (no_lost_wakeup demo1_state 0 (mkth (Reader 2) (Asleep ChPipeRead) false)).
  - apply demo1_reachable.
  - vm_compute. reflexivity.
  - vm_compute. discriminate.
  - reflexivity.
Defined.

(** The run in which a killed writer fills the pipe while a reader sleeps. *)
Definition killed_events : list event :=
  [Spawn (Reader 1); Run 0; Spawn (Writer (replicate 513 7) 513 0); Kill 1; Run 1].
Definition killed_state : sys := default new_pipe (run new_pipe killed_events).

(** A killed writer that has filled the pipe returns -1 without waking the readers:
    there is a run in which a reader stays asleep on a pipe that is full and whose write
    end is open, and no thread is left that will wake it. *)
Theorem killed_writer_loses_wakeup :
  run new_pipe killed_events = Some killed_state /\ reachable true killed_state /\
  st <$> threads killed_state = [Asleep ChPipeRead; Finished (-1)] /\
  Z.of_nat (length (contents (pipe killed_state))) = PIPESIZE /\
  writeopen (pipe killed_state) = 1.
Proof.
  assert (run new_pipe killed_events = Some killed_state) as E by (vm_compute; reflexivity).
  split; [done|]. split.
  { eapply sched_reachable_run; [|by apply Forall_true|exact E]. apply reach_init. reflexivity. }
  split; [vm_compute; reflexivity|]. split; vm_compute; reflexivity.
Qed.
End Sched.
