(* ===== verification/Buf.v ===== *)
(** * bio.c and memide.c: the buffer cache on a disk

    [bst] is the buffer cache (the array of buffers and the list head, with their
    prev and next pointers as indices), the disk as memide.c keeps it (an array of
    512-byte sectors) and the history of the sectors written to it, which is what a
    crash can cut.  The operations follow the code pointer by pointer.

    [bcache_ok] is the invariant: the list through next and prev is a cycle through
    all the buffers, two buffers never cache the same sector, and a buffer nobody
    holds and nobody has marked dirty has the contents of the disk.  Under it
    [view] is the disk as the file system sees it, and bread, bwrite and brelse are
    specified by what they do to the view and to the disk. *)

From stdpp Require Import base list numbers strings gmap sets functions.
From S2P Require Import Prelude Spinlock.
Import Ctx.

Open Scope Z_scope.
Local Open Scope kernel_scope.

Definition NBUF : nat := 30.
(** The index of bcache.head, after the buffers. *)
Definition HEAD : nat := 30.
Definition BSIZE : nat := 512.

Definition B_BUSY : Z := 1.
Definition B_VALID : Z := 2.
Definition B_DIRTY : Z := 4.

(** (uint)-1, the device of a buffer that was never used. *)
Definition NODEV : Z := 4294967295.

Record buf := mkbuf {
  flags : Z;
  dev : Z;
  sector : Z;
  prev : nat;
  next : nat;
  bdata : list Z }.

Record bst := mkbst {
  bufs : list buf;
  disk : list (list Z);
  hist : list (Z * list Z);
  bctx : kctx }.

#[export] Program Instance bst_ctx : HasCtx bst := {|
  ctx := bctx;
  with_ctx k s := mkbst (bufs s) (disk s) (hist s) k |}.
Next Obligation. done. Qed.
Next Obligation. done. Qed.
Next Obligation. by intros []. Qed.

(** Field updates through a pointer: reading or writing through an index that is not
    a buffer is a fault. *)
Definition getb (b : nat) : M bst buf :=
  l <- gets bufs ;; lift_opt (l !! b).

Definition setb (b : nat) (f : buf -> buf) : M bst unit :=
  x <- getb b ;;
  modify (fun s => mkbst (<[b := f x]> (bufs s)) (disk s) (hist s) (bctx s)).

Definition w_flags v x := mkbuf v (dev x) (sector x) (prev x) (next x) (bdata x).
Definition w_dev v x := mkbuf (flags x) v (sector x) (prev x) (next x) (bdata x).
Definition w_sector v x := mkbuf (flags x) (dev x) v (prev x) (next x) (bdata x).
Definition w_prev v x := mkbuf (flags x) (dev x) (sector x) v (next x) (bdata x).
Definition w_next v x := mkbuf (flags x) (dev x) (sector x) (prev x) v (bdata x).
Definition w_data v x := mkbuf (flags x) (dev x) (sector x) (prev x) (next x) v.

Definition has (fl m : Z) : bool := negb (Z.land fl m =? 0).

(** Body of the loop of binit. *)
Definition binit_link (b : nat) : M bst unit :=
  h <- getb HEAD ;;
  setb b (w_next (next h)) ;;
  setb b (w_prev HEAD) ;;
  setb b (w_dev NODEV) ;;
  setb (next h) (w_prev b) ;;
  setb HEAD (w_next b).

Definition binit : M bst unit :=
  setb HEAD (w_prev HEAD) ;;
  setb HEAD (w_next HEAD) ;;
  forM (seq 0 NBUF) binit_link.

(** for(b = bcache.head.next; b != &bcache.head; b = b->next): the buffer for the
    sector. *)
Fixpoint scan_next (fuel : nat) (b : nat) (dv sec : Z) : M bst (option nat) :=
  match fuel with
  | O => out_of_fuel
  | S fuel =>
      if Nat.eqb b HEAD then ret None else
      x <- getb b ;;
      if (dev x =? dv) && (sector x =? sec) then ret (Some b)
      else scan_next fuel (next x) dv sec
  end.

(** for(b = bcache.head.prev; b != &bcache.head; b = b->prev): a buffer that is not
    busy and clean. *)
Fixpoint scan_prev (fuel : nat) (b : nat) : M bst (option nat) :=
  match fuel with
  | O => out_of_fuel
  | S fuel =>
      if Nat.eqb b HEAD then ret None else
      x <- getb b ;;
      if negb (has (flags x) B_BUSY) && negb (has (flags x) B_DIRTY) then ret (Some b)
      else scan_prev fuel (prev x)
  end.

Definition bget (dv sec : Z) : M bst nat :=
  acquire LkBcache ;;
  h <- getb HEAD ;;
  r <- scan_next (S NBUF) (next h) dv sec ;;
  match r with
  | Some b =>
      x <- getb b ;;
      if negb (has (flags x) B_BUSY) then
        setb b (w_flags (Z.lor (flags x) B_BUSY)) ;;
        release LkBcache ;;
        ret b
      else release LkBcache ;; sleep_on (ChBuf (Z.of_nat b))
  | None =>
      r <- scan_prev (S NBUF) (prev h) ;;
      match r with
      | Some b =>
          setb b (w_dev dv) ;;
          setb b (w_sector sec) ;;
          setb b (w_flags B_BUSY) ;;
          release LkBcache ;;
          ret b
      | None => panic "bget: no buffers"
      end
  end.

(** memide.c: the transfer is done at once. *)
Definition iderw (b : nat) : M bst unit :=
  x <- getb b ;;
  if negb (has (flags x) B_BUSY) then panic "iderw: buf not busy" else
  if Z.land (flags x) (Z.lor B_VALID B_DIRTY) =? B_VALID then panic "iderw: nothing to do" else
  if negb (dev x =? 1) then panic "iderw: request not for disk 1" else
  d <- gets disk ;;
  if Z.of_nat (length d) <=? sector x then panic "iderw: sector out of range" else
  (if has (flags x) B_DIRTY then
     setb b (w_flags (Z.ldiff (flags x) B_DIRTY)) ;;
     modify (fun s => mkbst (bufs s) (<[Z.to_nat (sector x) := bdata x]> (disk s))
                        (hist s ++ [(sector x, bdata x)]) (bctx s))
   else
     p <- lift_opt (d !! Z.to_nat (sector x)) ;;
     setb b (w_data p)) ;;
  x <- getb b ;;
  setb b (w_flags (Z.lor (flags x) B_VALID)).

Definition bread (dv sec : Z) : M bst nat :=
  b <- bget dv sec ;;
  x <- getb b ;;
  (if negb (has (flags x) B_VALID) then iderw b else ret tt) ;;
  ret b.

Definition bwrite (b : nat) : M bst unit :=
  x <- getb b ;;
  if negb (has (flags x) B_BUSY) then panic "bwrite" else
  setb b (w_flags (Z.lor (flags x) B_DIRTY)) ;;
  iderw b.

(** The pointer moves of brelse: out of the list, then to its front. *)
Definition brelse_move (b : nat) : M bst unit :=
  x <- getb b ;;
  setb (next x) (w_prev (prev x)) ;;
  x <- getb b ;;
  setb (prev x) (w_next (next x)) ;;
  h <- getb HEAD ;;
  setb b (w_next (next h)) ;;
  setb b (w_prev HEAD) ;;
  h <- getb HEAD ;;
  setb (next h) (w_prev b) ;;
  setb HEAD (w_next b).

Definition brelse (b : nat) : M bst unit :=
  x <- getb b ;;
  if negb (has (flags x) B_BUSY) then panic "brelse" else
  acquire LkBcache ;;
  brelse_move b ;;
  x <- getb b ;;
  setb b (w_flags (Z.ldiff (flags x) B_BUSY)) ;;
  wakeup (ChBuf (Z.of_nat b)) ;;
  release LkBcache.

(** The contents of a buffer, and a change of them by the process that holds it. *)
Definition buf_data (b : nat) : M bst (list Z) := x <- getb b ;; ret (bdata x).
Definition set_data (b : nat) (d : list Z) : M bst unit := setb b (w_data d).

(** A machine at boot: zeroed static memory, the given disk. *)
Definition boot (d : list (list Z)) : bst :=
  mkbst (replicate (S NBUF) (mkbuf 0 0 0 0 0 (replicate BSIZE 0))) d [] (mkctx [] [] false).

(** ** The list through next and prev *)

Definition nx (bs : list buf) (i : nat) : nat :=
  match bs !! i with Some x => next x | None => HEAD end.
Definition pv (bs : list buf) (i : nat) : nat :=
  match bs !! i with Some x => prev x | None => HEAD end.

(** [chain N P a L]: following N from [a] visits [L] in order, and P goes back. *)
Fixpoint chain (N P : nat -> nat) (a : nat) (L : list nat) : Prop :=
  match L with
  | [] => True
  | b :: L' => N a = b /\ P b = a /\ chain N P b L'
  end.

(** [dll bs l]: the list through next from the head is [l], all the buffers, and the
    list through prev is its reverse. *)
Record dll (bs : list buf) (l : list nat) : Prop := {
  dll_len : length bs = S NBUF;
  dll_chain : chain (nx bs) (pv bs) HEAD (l ++ [HEAD]);
  dll_perm : l ≡ₚ seq 0 NBUF }.

Lemma chain_app N P a L1 b L2 :
  chain N P a (L1 ++ b :: L2) <-> chain N P a (L1 ++ [b]) /\ chain N P b L2.
Proof.
  revert a. induction L1 as [|c L1 IH]; intros a; simpl; [tauto|]. rewrite IH. tauto.
Qed.

(** The chain depends on N at the nodes it leaves and on P at the nodes it enters. *)
Lemma chain_same N P N' P' a L b :
  chain N P a (L ++ [b]) ->
  (forall x, x = a \/ x ∈ L -> N' x = N x) ->
  (forall x, x ∈ L \/ x = b -> P' x = P x) ->
  chain N' P' a (L ++ [b]).
Proof.
  revert a. induction L as [|c L IH]; intros a; simpl.
  - intros (H1 & H2 & _) HN HP. rewrite HN, HP; auto.
  - intros (H1 & H2 & H3) HN HP. rewrite HN, HP by (auto; left; left).
    split; [done|]. split; [done|]. apply IH; [done|..].
    + intros x [->|Hx]; apply HN; right; set_solver.
    + intros x [Hx| ->]; apply HP; [left; set_solver|by right].
Qed.

Lemma dll_nodup bs l : dll bs l -> NoDup l.
Proof. intros [_ _ Hp]. rewrite Hp. apply NoDup_seq. Qed.

Lemma dll_elem bs l i : dll bs l -> i ∈ l <-> (i < NBUF)%nat.
Proof. intros [_ _ Hp]. rewrite Hp, elem_of_seq. lia. Qed.

Lemma dll_lookup bs l i : dll bs l -> i ∈ l \/ i = HEAD -> is_Some (bs !! i).
Proof.
  intros H Hi. apply lookup_lt_is_Some_2. rewrite (dll_len _ _ H).
  destruct Hi as [Hi| ->]; [apply (dll_elem bs l) in Hi; [|done]|]; unfold NBUF, HEAD in *; lia.
Qed.

(** ** Field updates *)

Lemma nx_alter_next bs b v i :
  (b < length bs)%nat -> nx (alter (w_next v) b bs) i = if decide (i = b) then v else nx bs i.
Proof.
  intros Hb. unfold nx. case_decide as E.
  - subst. rewrite list_lookup_alter_eq. by destruct (lookup_lt_is_Some_2 bs b Hb) as [x ->].
  - by rewrite list_lookup_alter_ne.
Qed.

Lemma pv_alter_prev bs b v i :
  (b < length bs)%nat -> pv (alter (w_prev v) b bs) i = if decide (i = b) then v else pv bs i.
Proof.
  intros Hb. unfold pv. case_decide as E.
  - subst. rewrite list_lookup_alter_eq. by destruct (lookup_lt_is_Some_2 bs b Hb) as [x ->].
  - by rewrite list_lookup_alter_ne.
Qed.

(** An update that keeps the pointers. *)
Definition keeps_links (f : buf -> buf) : Prop := forall x, next (f x) = next x /\ prev (f x) = prev x.

Lemma nx_alter f b bs i :
  (forall x, next (f x) = next x) -> nx (alter f b bs) i = nx bs i.
Proof.
  intros Hf. unfold nx. destruct (decide (i = b)) as [->|].
  - rewrite list_lookup_alter_eq. by destruct (bs !! b); simpl.
  - by rewrite list_lookup_alter_ne.
Qed.

Lemma pv_alter f b bs i :
  (forall x, prev (f x) = prev x) -> pv (alter f b bs) i = pv bs i.
Proof.
  intros Hf. unfold pv. destruct (decide (i = b)) as [->|].
  - rewrite list_lookup_alter_eq. by destruct (bs !! b); simpl.
  - by rewrite list_lookup_alter_ne.
Qed.

Lemma dll_alter f b bs l : keeps_links f -> dll bs l -> dll (alter f b bs) l.
Proof.
  intros Hf [H1 H2 H3]. constructor; [by rewrite length_alter| |done].
  eapply chain_same; [done|..]; intros x _; [apply nx_alter|apply pv_alter]; apply Hf.
Qed.

Lemma alter_alter (f g : buf -> buf) (b : nat) (bs : list buf) :
  alter f b (alter g b bs) = alter (fun x => f (g x)) b bs.
Proof.
  apply list_eq. intros i. destruct (decide (i = b)) as [->|].
  - rewrite !list_lookup_alter_eq. by destruct (bs !! b).
  - by rewrite !list_lookup_alter_ne.
Qed.

(** What a buffer holds, without its place in the list. *)
Definition core (x : buf) : Z * Z * Z * list Z := (flags x, dev x, sector x, bdata x).

Lemma core_alter f (b : nat) (bs : list buf) :
  (forall x, core (f x) = core x) -> core <$> alter f b bs = core <$> bs.
Proof.
  intros Hf. apply list_eq. intros i. rewrite !list_lookup_fmap.
  destruct (decide (i = b)) as [->|].
  - rewrite list_lookup_alter_eq. destruct (bs !! b); simpl; [by rewrite Hf|done].
  - by rewrite list_lookup_alter_ne.
Qed.

Lemma core_lookup (bs bs' : list buf) i x' :
  core <$> bs' = core <$> bs -> bs' !! i = Some x' ->
  exists x, bs !! i = Some x /\ core x = core x'.
Proof.
  intros H Hi. apply (f_equal (fun l => l !! i)) in H. rewrite !list_lookup_fmap, Hi in H.
  simpl in H. destruct (bs !! i) as [x|]; simpl in H; [|done].
  exists x. split; [done|]. congruence.
Qed.

(** ** Symbolic execution of buffer accesses *)

Definition with_bufs (bs : list buf) (s : bst) : bst := mkbst bs (disk s) (hist s) (bctx s).

Lemma wp_getb b x Q s : bufs s !! b = Some x -> Q x s -> wp (getb b) Q s.
Proof. intros H HQ. unfold getb. wp_steps. by eapply wp_lift_opt. Qed.

Lemma wp_setb b f Q s :
  is_Some (bufs s !! b) -> Q tt (with_bufs (alter f b (bufs s)) s) -> wp (setb b f) Q s.
Proof.
  intros [x Hx] HQ. unfold setb. wp_steps. eapply wp_getb; [done|]. wp_steps.
  assert (<[b:=f x]> (bufs s) = alter f b (bufs s)) as ->; [|done].
  apply list_eq. intros i. destruct (decide (i = b)) as [->|].
  - rewrite list_lookup_alter_eq, Hx, list_lookup_insert_eq; [done|]. by eapply lookup_lt_Some.
  - by rewrite list_lookup_alter_ne, list_lookup_insert_ne.
Qed.

(** ** The two scans *)

Definition matchb (bs : list buf) (dv sec : Z) (i : nat) : bool :=
  match bs !! i with Some x => (dev x =? dv) && (sector x =? sec) | None => false end.
Definition freeb (bs : list buf) (i : nat) : bool :=
  match bs !! i with
  | Some x => negb (has (flags x) B_BUSY) && negb (has (flags x) B_DIRTY)
  | None => false
  end.

Lemma scan_next_chain fuel a l dv sec s bs :
  bufs s = bs -> chain (nx bs) (pv bs) a (l ++ [HEAD]) ->
  Forall (fun i => i <> HEAD /\ is_Some (bs !! i)) l -> (length l < fuel)%nat ->
  scan_next fuel (nx bs a) dv sec s = Ret (List.find (matchb bs dv sec) l) s.
Proof.
  intros <- Hc Hl. revert a fuel Hc.
  induction Hl as [|b l [Hb [x Hx]] _ IH]; intros a fuel Hc Hf; (destruct fuel; [simpl in Hf; lia|]).
  - simpl in Hc. destruct Hc as (-> & _). done.
  - destruct Hc as (-> & _ & Hc). cbn [scan_next]. rewrite (proj2 (Nat.eqb_neq b HEAD) Hb).
    unfold bind, getb, bind. simpl. unfold matchb at 1. rewrite Hx. simpl.
    destruct ((dev x =? dv) && (sector x =? sec)); [done|].
    assert (next x = nx (bufs s) b) as -> by (unfold nx; by rewrite Hx).
    apply IH; [done|simpl in Hf; lia].
Qed.

Lemma scan_prev_chain fuel l c s bs :
  bufs s = bs -> chain (nx bs) (pv bs) HEAD (l ++ [c]) ->
  Forall (fun i => i <> HEAD /\ is_Some (bs !! i)) l -> (length l < fuel)%nat ->
  scan_prev fuel (pv bs c) s = Ret (List.find (freeb bs) (rev l)) s.
Proof.
  intros <-. revert fuel c. induction l as [|b l IH] using rev_ind; intros fuel c Hc Hl Hf;
    (destruct fuel; [simpl in Hf; lia|]).
  - destruct Hc as (_ & -> & _). done.
  - rewrite <- app_assoc in Hc. simpl in Hc. apply chain_app in Hc as (Hc & _ & Hp & _).
    apply Forall_app in Hl as [Hl Hb]. apply Forall_singleton in Hb as [Hb [x Hx]].
    rewrite Hp, rev_app_distr. cbn [scan_prev app rev].
    rewrite (proj2 (Nat.eqb_neq b HEAD) Hb).
    unfold bind, getb, bind. simpl. unfold freeb at 1. rewrite Hx. simpl.
    destruct (negb _ && negb _); [done|].
    assert (prev x = pv (bufs s) b) as -> by (unfold pv; by rewrite Hx).
    rewrite length_app in Hf. simpl in Hf. apply IH; [done|done|lia].
Qed.

Lemma dll_forall bs l : dll bs l -> Forall (fun i => i <> HEAD /\ is_Some (bs !! i)) l.
Proof.
  intros H. apply list.Forall_forall. intros i Hi. split.
  - apply (dll_elem bs l) in Hi; [|done]. unfold NBUF, HEAD in *. lia.
  - apply (dll_lookup bs l); auto.
Qed.

Lemma dll_length bs l : dll bs l -> length l = NBUF.
Proof. intros [_ _ Hp]. rewrite Hp. by rewrite length_seq. Qed.

(** ** Moving a buffer to the front *)

Lemma chain_prev_in N P a l1 b L : chain N P a (l1 ++ b :: L) -> P b ∈ a :: l1.
Proof.
  revert a. induction l1 as [|d l1 IH]; intros a; simpl.
  - intros (_ & -> & _). left.
  - intros (_ & _ & H). apply IH in H. by right.
Qed.

Lemma chain_next_in N P a l1 b L c :
  chain N P a (l1 ++ b :: L ++ [c]) -> N b ∈ L ++ [c].
Proof.
  rewrite chain_app. intros [_ H]. destruct L; simpl in H; destruct H as [-> _]; left.
Qed.

Lemma chain_unlink N P N1 P1 a l1 b L e :
  chain N P a (l1 ++ b :: L ++ [e]) ->
  NoDup (a :: l1 ++ b :: L) -> e ∉ l1 ++ b :: L ->
  (forall x, N1 x = if decide (x = P b) then N b else N x) ->
  (forall x, P1 x = if decide (x = N b) then P b else P x) ->
  chain N1 P1 a (l1 ++ L ++ [e]).
Proof.
  intros Hc Hd He HN HP. revert a Hc Hd. induction l1 as [|d l1 IH]; intros a Hc Hd.
  - simpl in *. destruct Hc as (HNa & HPb & Hc).
    destruct L as [|c L]; simpl in *.
    + destruct Hc as (HNb & HPe & _). rewrite HN, HP, decide_True, decide_True by congruence.
      split; [done|]. split; [done|done].
    + destruct Hc as (HNb & HPc & Hc). rewrite HN, HP, decide_True, decide_True by congruence.
      split; [done|]. split; [done|].
      apply list.NoDup_cons in Hd as [Ha Hd]. apply list.NoDup_cons in Hd as [Hb Hd].
      apply list.NoDup_cons in Hd as [Hc' Hd].
      eapply chain_same; [exact Hc|..]; intros x Hx; [rewrite HN, HPb|rewrite HP, HNb];
        rewrite decide_False; try done; set_solver.
  - simpl in *. destruct Hc as (HNa & HPd & Hc).
    pose proof (chain_prev_in _ _ _ _ _ _ Hc) as Hpin.
    pose proof (chain_next_in _ _ _ _ _ _ _ Hc) as Hnin.
    rewrite list.NoDup_cons in Hd. destruct Hd as [Ha Hd].
    rewrite HN, HP, !decide_False.
    + split; [done|]. split; [done|]. apply IH; [set_solver|done|done].
    + intros ->. rewrite list.NoDup_cons in Hd. set_solver.
    + intros ->. set_solver.
Qed.

Lemma chain_push N P N1 P1 l b :
  chain N P HEAD (l ++ [HEAD]) -> b ∉ l -> b <> HEAD -> NoDup l -> HEAD ∉ l ->
  (forall x, N1 x = if decide (x = HEAD) then b else if decide (x = b) then N HEAD else N x) ->
  (forall x, P1 x = if decide (x = N HEAD) then b else if decide (x = b) then HEAD else P x) ->
  chain N1 P1 HEAD (b :: l ++ [HEAD]).
Proof.
  intros Hc Hb Hh Hd Hl HN HP. simpl. rewrite HN, decide_True by done. split; [done|].
  destruct l as [|h l]; simpl in *.
  - destruct Hc as (HNh & HPh & _). rewrite !HP, HN, !HNh.
    split_and!; repeat case_decide; first [done|congruence].
  - destruct Hc as (HNh & HPh & Hc). rewrite !HP, HN, HNh.
    assert (b <> h) by set_solver.
    split; [repeat case_decide; congruence|].
    split; [repeat case_decide; congruence|].
    split; [repeat case_decide; congruence|].
    rewrite list.NoDup_cons in Hd. eapply chain_same; [exact Hc|..]; intros x Hx;
      [rewrite HN|rewrite HP, HNh]; rewrite !decide_False; try done; set_solver.
Qed.

Lemma lookup_links (bs : list buf) b x : bs !! b = Some x -> next x = nx bs b /\ prev x = pv bs b.
Proof. unfold nx, pv. by intros ->. Qed.

Lemma dll_pair bs l1 b l2 :
  dll bs (l1 ++ b :: l2) ->
  NoDup (HEAD :: l1 ++ b :: l2) /\ (b < S NBUF)%nat /\ (nx bs b < S NBUF)%nat /\ (pv bs b < S NBUF)%nat.
Proof.
  intros H. pose proof (dll_forall _ _ H) as Hf. rewrite list.Forall_forall in Hf.
  assert (Hlt : forall i, i ∈ l1 ++ b :: l2 \/ i = HEAD -> (i < S NBUF)%nat).
  { intros i Hi. rewrite <- (dll_len _ _ H). apply lookup_lt_is_Some_1. by eapply dll_lookup. }
  pose proof (dll_chain _ _ H) as Hc. rewrite <- app_assoc in Hc. simpl in Hc.
  pose proof (chain_prev_in _ _ _ _ _ _ Hc). pose proof (chain_next_in _ _ _ _ _ _ _ Hc).
  split; [|split_and!; apply Hlt; set_solver].
  apply list.NoDup_cons. split; [|by eapply dll_nodup].
  intros Hh. by destruct (Hf HEAD Hh).
Qed.

(** The list after the pointer moves: [b] in front, the others in their order. *)
Lemma dll_move bs bs' l1 b l2 (h : nat) :
  dll bs (l1 ++ b :: l2) ->
  let N1 x := if decide (x = pv bs b) then nx bs b else nx bs x in
  let P1 x := if decide (x = nx bs b) then pv bs b else pv bs x in
  h = N1 HEAD -> length bs' = length bs ->
  (forall x, nx bs' x = if decide (x = HEAD) then b else if decide (x = b) then h else N1 x) ->
  (forall x, pv bs' x = if decide (x = h) then b else if decide (x = b) then HEAD else P1 x) ->
  dll bs' (b :: l1 ++ l2).
Proof.
  intros H N1 P1 -> Hlen HN HP. destruct (dll_pair _ _ _ _ H) as (Hd & _).
  pose proof (dll_chain _ _ H) as Hc. rewrite <- app_assoc in Hc. simpl in Hc.
  apply list.NoDup_cons in Hd as [Hh Hd].
  constructor.
  - rewrite Hlen. apply H.
  - simpl. rewrite <- app_assoc. 
    rewrite (app_assoc l1 l2 [HEAD]). apply (chain_push N1 P1); try done.
    + rewrite <- app_assoc. eapply chain_unlink; [exact Hc|..]; try done.
      by apply list.NoDup_cons.
    + apply list.NoDup_app in Hd as (_ & Hd & Hd2). apply list.NoDup_cons in Hd2. set_solver.
    + intros ->. set_solver.
    + rewrite <- Permutation_middle in Hd. by apply list.NoDup_cons in Hd as [_ ?].
    + set_solver.
  - rewrite Permutation_middle. apply H.
Qed.

Ltac buf_len := rewrite ?length_alter; unfold NBUF, HEAD in *; lia.

Lemma wp_getb_links b Q s :
  (b < length (bufs s))%nat ->
  (forall x, bufs s !! b = Some x -> next x = nx (bufs s) b -> prev x = pv (bufs s) b -> Q x s) ->
  wp (getb b) Q s.
Proof.
  intros Hb HQ. destruct (lookup_lt_is_Some_2 _ _ Hb) as [x Hx].
  eapply wp_getb; [done|]. by apply HQ; [|apply lookup_links..].
Qed.

Lemma wp_setb_lt b f Q s :
  (b < length (bufs s))%nat -> Q tt (with_bufs (alter f b (bufs s)) s) -> wp (setb b f) Q s.
Proof. intros Hb. apply wp_setb. by apply lookup_lt_is_Some_2. Qed.

Lemma nx_w_prev bs b v i : nx (alter (w_prev v) b bs) i = nx bs i.
Proof. by apply nx_alter. Qed.
Lemma pv_w_next bs b v i : pv (alter (w_next v) b bs) i = pv bs i.
Proof. by apply pv_alter. Qed.

Ltac links :=
  repeat first
    [ rewrite nx_w_prev | rewrite pv_w_next
    | rewrite nx_alter_next by buf_len | rewrite pv_alter_prev by buf_len ].

Lemma wp_brelse_move b l1 l2 s Q :
  dll (bufs s) (l1 ++ b :: l2) ->
  (forall bs', dll bs' (b :: l1 ++ l2) -> core <$> bs' = core <$> bufs s ->
     Q tt (with_bufs bs' s)) ->
  wp (brelse_move b) Q s.
Proof.
  intros H HQ. destruct (dll_pair _ _ _ _ H) as (Hd & Hb & Hn & Hp).
  pose proof (dll_len _ _ H) as Hlen. apply list.NoDup_cons in Hd as [Hh _].
  assert (Hbh : b <> HEAD) by set_solver.
  set (h := if decide (HEAD = pv (bufs s) b) then nx (bufs s) b else nx (bufs s) HEAD).
  assert (Hhl : (h < S NBUF)%nat).
  { unfold h. case_decide; [done|]. pose proof (dll_chain _ _ H) as Hc.
    destruct l1 as [|c l1]; simpl in Hc; destruct Hc as (-> & _); [done|].
    assert (c ∈ (c :: l1) ++ b :: l2) as Hc by set_solver.
    apply (dll_elem _ _ _ H) in Hc. lia. }
  unfold brelse_move. wp_steps.
  apply wp_getb_links; [buf_len|]. intros x _ -> ->. wp_steps.
  apply wp_setb_lt; [buf_len|]. cbn [bufs with_bufs]. wp_steps.
  apply wp_getb_links; cbn [bufs with_bufs]; [buf_len|]. intros ? _ -> ->. links.
  assert ((if decide (b = nx (bufs s) b) then pv (bufs s) b else pv (bufs s) b) = pv (bufs s) b)
    as -> by (by case_decide).
  wp_steps. apply wp_setb_lt; cbn [bufs with_bufs]; [buf_len|]. wp_steps.
  apply wp_getb_links; cbn [bufs with_bufs]; [buf_len|]. intros ? _ -> _. links. fold h.
  wp_steps. apply wp_setb_lt; cbn [bufs with_bufs]; [buf_len|].
  wp_steps. apply wp_setb_lt; cbn [bufs with_bufs]; [buf_len|].
  wp_steps. apply wp_getb_links; cbn [bufs with_bufs]; [buf_len|]. intros ? _ -> _. links.
  rewrite (decide_False (P := HEAD = b)) by done. fold h.
  wp_steps. apply wp_setb_lt; cbn [bufs with_bufs]; [buf_len|].
  wp_steps. apply wp_setb_lt; cbn [bufs with_bufs]; [buf_len|].
  apply HQ.
  - eapply (dll_move (bufs s) _ l1 b l2 h); [done|done|by rewrite !length_alter|..];
      intros y; links; repeat case_decide; congruence.
  - by rewrite !core_alter.
Qed.

(** ** What the cache represents *)

(** The flags of a buffer that holds sector [n]: always valid between operations. *)
Definition fl (D B : gset Z) (n : Z) : Z :=
  B_VALID + (if decide (n ∈ B) then B_BUSY else 0) + (if decide (n ∈ D) then B_DIRTY else 0).

Definition buf_ok (V : Z -> list Z) (D B : gset Z) (nsec : Z) (x : buf) : Prop :=
  (dev x = NODEV /\ flags x = 0) \/
  (dev x = 1 /\ 0 <= sector x < nsec /\ flags x = fl D B (sector x) /\ bdata x = V (sector x)).

(** [rep s V D B]: the cache is well formed, [B] are the sectors some process holds,
    [D] the sectors marked dirty, and [V] is the contents the file system sees: the
    buffer's for a sector in the cache, the disk's otherwise.  A sector that is
    neither held nor dirty has the same contents in the cache and on the disk. *)
Record rep (s : bst) (V : Z -> list Z) (D B : gset Z) : Prop := {
  rep_dll : exists l, dll (bufs s) l;
  rep_buf : forall i x, (i < NBUF)%nat -> bufs s !! i = Some x ->
    buf_ok V D B (Z.of_nat (length (disk s))) x;
  rep_uniq : forall i j x y, (i < NBUF)%nat -> (j < NBUF)%nat ->
    bufs s !! i = Some x -> bufs s !! j = Some y ->
    dev x = 1 -> dev y = 1 -> sector x = sector y -> i = j;
  rep_cached : forall n, n ∈ D ∪ B ->
    exists i x, (i < NBUF)%nat /\ bufs s !! i = Some x /\ dev x = 1 /\ sector x = n;
  rep_disk : forall n, 0 <= n < Z.of_nat (length (disk s)) -> n ∉ D -> n ∉ B ->
    disk s !! Z.to_nat n = Some (V n);
  rep_lock : (LkBcache ∉ held (bctx s)) /\ (LkPtable ∉ held (bctx s)) }.

(** Buffer [b] is the one for sector [n]. *)
Definition owned (s : bst) (b : nat) (n : Z) : Prop :=
  (b < NBUF)%nat /\ exists x, bufs s !! b = Some x /\ dev x = 1 /\ sector x = n.

Definition same_ctx (s s' : bst) : Prop :=
  held (bctx s') = held (bctx s) /\ killed (bctx s') = killed (bctx s).

(** A buffer changes and the others keep what they hold: the case of every operation. *)
Lemma rep_upd s s' V V' D D' B B' b n y :
  rep s V D B -> (b < NBUF)%nat -> (exists l, dll (bufs s') l) ->
  bufs s' !! b = Some y -> dev y = 1 -> sector y = n ->
  0 <= n < Z.of_nat (length (disk s)) -> flags y = fl D' B' n -> bdata y = V' n ->
  (forall c : nat, c <> b -> core <$> (bufs s' !! c) = core <$> (bufs s !! c)) ->
  (forall c x, c <> b -> (c < NBUF)%nat -> bufs s !! c = Some x -> dev x = 1 -> sector x <> n) ->
  (forall x, bufs s !! b = Some x -> dev x = 1 -> sector x <> n -> sector x ∉ D ∪ B) ->
  (forall m, m <> n -> V' m = V m /\ (m ∈ D' <-> m ∈ D) /\ (m ∈ B' <-> m ∈ B)) ->
  (forall m, 0 <= m -> m <> n -> disk s' !! Z.to_nat m = disk s !! Z.to_nat m) ->
  length (disk s') = length (disk s) ->
  (n ∉ D' -> n ∉ B' -> disk s' !! Z.to_nat n = Some (V' n)) ->
  (LkBcache ∉ held (bctx s')) /\ (LkPtable ∉ held (bctx s')) ->
  rep s' V' D' B'.
Proof.
  intros R Hb Hd Hy Hdev Hsec Hn Hfl Hdata Hc Hoth Hold Hm Hdm Hlen Hdn Hlk.
  assert (Hc' : forall c x, c <> b -> bufs s' !! c = Some x ->
            exists x', bufs s !! c = Some x' /\ core x' = core x).
  { intros c x Hcb Hx. specialize (Hc c Hcb). rewrite Hx in Hc.
    destruct (bufs s !! c) as [x'|]; simpl in Hc; [|done]. exists x'. split; congruence. }
  constructor; [done|..|done].
  - intros i x Hi Hx. rewrite Hlen. destruct (decide (i = b)) as [->|Hib].
    + assert (x = y) as -> by congruence. right. by subst.
    + destruct (Hc' i x Hib Hx) as (x' & Hx' & E). injection E as E1 E2 E3 E4.
      destruct (rep_buf _ _ _ _ R i x' Hi Hx') as [H|H]; [left; rewrite <- E1, <- E2; done|right].
      rewrite <- E1, <- E2, <- E3, <- E4. destruct H as (H1 & H2 & H3 & H4).
      destruct (Hm (sector x')) as (F1 & F2 & F3); [by eapply Hoth|].
      split_and!; try lia; try done; [|by rewrite F1].
      rewrite H3. unfold fl. by rewrite (decide_ext _ _ _ _ F2), (decide_ext _ _ _ _ F3).
  - intros i j x z Hi Hj Hx Hz Hdx Hdz Hs.
    destruct (decide (i = b)) as [->|Hib], (decide (j = b)) as [->|Hjb]; [done|..].
    + exfalso. destruct (Hc' j z Hjb Hz) as (z' & Hz' & E). injection E as E1 E2 E3 E4.
      apply (Hoth j z'); congruence.
    + exfalso. destruct (Hc' i x Hib Hx) as (z' & Hz' & E). injection E as E1 E2 E3 E4.
      apply (Hoth i z'); congruence.
    + destruct (Hc' j z Hjb Hz) as (z' & Hz' & E). injection E as E1 E2 E3 E4.
      destruct (Hc' i x Hib Hx) as (x' & Hx' & E). injection E as F1 F2 F3 F4.
      eapply (rep_uniq _ _ _ _ R); eauto; congruence.
  - intros m Hmem. destruct (decide (m = n)) as [->|Hne]; [by exists b, y|].
    destruct (Hm m Hne) as (_ & F2 & F3).
    destruct (rep_cached _ _ _ _ R m) as (i & x & Hi & Hx & Hdx & Hsx); [set_solver|].
    assert (i <> b). { intros ->. apply (Hold x); [done|done|congruence|set_solver]. }
    specialize (Hc i ltac:(done)). rewrite Hx in Hc.
    destruct (bufs s' !! i) as [x'|] eqn:Hx'; simpl in Hc; [|done].
    exists i, x'. injection Hc as ????. split_and!; congruence.
  - intros m Hr HD HB. destruct (decide (m = n)) as [->|Hne]; [auto|].
    destruct (Hm m Hne) as (-> & F2 & F3). rewrite Hdm by (done || lia).
    apply (rep_disk _ _ _ _ R); [lia|tauto..].
Qed.

Lemma owned_core s s' c m :
  core <$> (bufs s' !! c) = core <$> (bufs s !! c) -> owned s c m -> owned s' c m.
Proof.
  intros H [Hc (x & Hx & Hd & Hs)]. split; [done|]. rewrite Hx in H.
  destruct (bufs s' !! c) as [x'|]; simpl in H; [|done]. exists x'.
  injection H as ????. split_and!; congruence.
Qed.

Lemma rep_owned_inj s V D B b c n : rep s V D B -> owned s b n -> owned s c n -> b = c.
Proof.
  intros R [Hb (x & Hx & ? & ?)] [Hc (y & Hy & ? & ?)].
  eapply (rep_uniq _ _ _ _ R); eauto; congruence.
Qed.

(** ** bread *)

(** With room in the cache there is a buffer to recycle. *)
Lemma rep_free_buffer s V D B l :
  rep s V D B -> dll (bufs s) l -> (size (D ∪ B) < NBUF)%nat ->
  exists b, List.find (freeb (bufs s)) (rev l) = Some b.
Proof.
  intros R Hd Hsz. destruct (List.find _ _) as [b|] eqn:E; [by exists b|exfalso].
  set (sec := fun i : nat => match bufs s !! i with Some x => sector x | None => 0 end).
  assert (Hall : forall i, (i < NBUF)%nat ->
            exists x, bufs s !! i = Some x /\ dev x = 1 /\ sector x ∈ D ∪ B).
  { intros i Hi. pose proof (proj2 (dll_elem _ _ i Hd) Hi) as Hil.
    destruct (dll_lookup _ _ i Hd) as [x Hx]; [by left|].
    assert (freeb (bufs s) i = false) as Hf.
    { eapply List.find_none; [done|]. apply -> in_rev. by apply list_elem_of_In. }
    exists x. unfold freeb in Hf. rewrite Hx in Hf.
    destruct (rep_buf _ _ _ _ R i x Hi Hx) as [[_ H0]|(H1 & _ & H3 & _)].
    - by rewrite H0 in Hf.
    - split_and!; [done..|]. rewrite H3 in Hf. unfold fl in Hf.
      repeat case_decide; set_solver. }
  assert (length (sec <$> seq 0 NBUF) <= size (D ∪ B))%nat as Hle.
  { rewrite <- (size_list_to_set (C := gset Z)).
    - apply subseteq_size. intros m Hm. apply elem_of_list_to_set, list_elem_of_fmap in Hm.
      destruct Hm as (i & -> & Hi). apply elem_of_seq in Hi.
      destruct (Hall i) as (x & Hx & _ & Hin); [lia|]. unfold sec. by rewrite Hx.
    - apply NoDup_fmap_2_strong; [|apply NoDup_seq]. intros i j Hi Hj Hs.
      apply elem_of_seq in Hi, Hj. destruct (Hall i) as (x & Hx & Hdx & _); [lia|].
      destruct (Hall j) as (y & Hy & Hdy & _); [lia|]. unfold sec in Hs. rewrite Hx, Hy in Hs.
      eapply (rep_uniq _ _ _ _ R); eauto; lia. }
  rewrite length_fmap, length_seq in Hle. lia.
Qed.

(** The buffer bget takes for a sector: the one that caches it, or the least recently
    released free one, which it makes over. *)
Definition bget_buf (n : Z) (hit : bool) (x : buf) : buf :=
  if hit then w_flags (Z.lor (flags x) B_BUSY) x
  else w_flags B_BUSY (w_sector n (w_dev 1 x)).

Lemma bget_miss s V D B l n c x :
  rep s V D B -> dll (bufs s) l -> List.find (matchb (bufs s) 1 n) l = None ->
  (c < NBUF)%nat -> bufs s !! c = Some x -> dev x = 1 -> sector x <> n.
Proof.
  intros R Hd E Hc Hx Hdx Hs.
  assert (matchb (bufs s) 1 n c = false) as Hm.
  { eapply List.find_none; [done|]. apply list_elem_of_In. by apply (dll_elem _ _ _ Hd). }
  unfold matchb in Hm. rewrite Hx, Hdx, Hs in Hm. by rewrite !Z.eqb_refl in Hm.
Qed.

Lemma wp_bget s V D B l n Q :
  rep s V D B -> dll (bufs s) l -> n ∉ B -> (n ∈ D \/ (size (D ∪ B) < NBUF)%nat) ->
  (forall b x (hit : bool), (b < NBUF)%nat -> bufs s !! b = Some x ->
     (if hit then dev x = 1 /\ sector x = n
      else List.find (matchb (bufs s) 1 n) l = None /\
           List.find (freeb (bufs s)) (rev l) = Some b /\ freeb (bufs s) b = true) ->
     Q b (with_bufs (alter (bget_buf n hit) b (bufs s)) s)) ->
  wp (bget 1 n) Q s.
Proof.
  intros R Hd HnB Hroom HQ. pose proof (dll_len _ _ Hd) as Hlen.
  unfold bget. wp_steps. apply wp_acquire; [apply (rep_lock _ _ _ _ R)|].
  wp_steps. apply wp_getb_links; cbn; [rewrite Hlen; buf_len|]. intros h _ -> ->. wp_steps.
  eapply wp_of_run.
  { apply (scan_next_chain (S NBUF) HEAD l); [done|..].
    - apply Hd.
    - by apply dll_forall.
    - rewrite (dll_length _ _ Hd). lia. }
  cbn [bufs with_ctx bst_ctx].
  destruct (List.find (matchb (bufs s) 1 n) l) as [b|] eqn:E.
  - apply List.find_some in E as [Hb Hm]. apply list_elem_of_In, (dll_elem _ _ _ Hd) in Hb.
    unfold matchb in Hm. destruct (bufs s !! b) as [x|] eqn:Hx; [|done].
    apply andb_prop in Hm as [Hdx Hsx]. zbool.
    wp_steps. eapply wp_getb; [exact Hx|].
    assert (has (flags x) B_BUSY = false) as ->.
    { destruct (rep_buf _ _ _ _ R b x Hb Hx) as [[H0 _]|(_ & _ & H3 & _)];
        [unfold NODEV in *; lia|]. rewrite H3, Hsx.
      unfold fl. rewrite (decide_False (P := n ∈ B)) by done. by case_decide. }
    cbn [negb]. wp_steps. apply wp_setb; [by exists x|]. wp_steps.
    eapply wp_release; [done|]. wp_steps.
    specialize (HQ b x true Hb Hx (conj Hdx Hsx)). 
    assert (alter (bget_buf n true) b (bufs s) = alter (w_flags (Z.lor (flags x) B_BUSY)) b (bufs s))
      as Ealt by (apply list_alter_ext; [|done]; intros y Hy; by replace y with x by congruence).
    rewrite Ealt in HQ. by destruct s as [? ? ? []].
  - wp_steps. destruct Hroom as [HnD|Hsz].
    { exfalso. destruct (rep_cached _ _ _ _ R n) as (i & x & Hi & Hx & Hdx & Hs); [set_solver|].
      by eapply bget_miss. }
    destruct (rep_free_buffer _ _ _ _ _ R Hd Hsz) as [b Hf].
    eapply wp_of_run.
    { apply (scan_prev_chain (S NBUF) l); [done|..].
      - apply Hd.
      - by apply dll_forall.
      - rewrite (dll_length _ _ Hd). lia. }
    cbn [bufs with_ctx bst_ctx]. rewrite Hf. pose proof Hf as Hf0.
    apply List.find_some in Hf as [Hb Hfree].
    apply in_rev, list_elem_of_In, (dll_elem _ _ _ Hd) in Hb.
    assert (b < length (bufs s))%nat as Hbl by (rewrite Hlen; lia).
    destruct (lookup_lt_is_Some_2 _ _ Hbl) as [x Hx].
    wp_steps. apply wp_setb_lt; cbn; [done|]. wp_steps. apply wp_setb_lt; cbn; [buf_len|].
    wp_steps. apply wp_setb_lt; cbn; [buf_len|]. wp_steps. eapply wp_release; [done|]. wp_steps.
    specialize (HQ b x false Hb Hx (conj eq_refl (conj Hf0 Hfree))).
    rewrite !alter_alter. by destruct s as [? ? ? []].
Qed.

Lemma fl_busy D B n : fl D ({[n]} ∪ B) n = B_VALID + B_BUSY + (if decide (n ∈ D) then B_DIRTY else 0).
Proof. unfold fl. rewrite (decide_True (P := n ∈ {[n]} ∪ B)) by set_solver. lia. Qed.

Lemma fl_free D B n : n ∉ B -> fl D B n = B_VALID + (if decide (n ∈ D) then B_DIRTY else 0).
Proof. intros H. unfold fl. rewrite (decide_False (P := n ∈ B)) by done. lia. Qed.

(** A free buffer caches a sector that is neither held nor dirty, if any. *)
Lemma freeb_clean s V D B b x :
  rep s V D B -> (b < NBUF)%nat -> bufs s !! b = Some x -> freeb (bufs s) b = true ->
  dev x = 1 -> sector x ∉ D ∪ B.
Proof.
  intros R Hb Hx Hf Hdx. unfold freeb in Hf. rewrite Hx in Hf.
  destruct (rep_buf _ _ _ _ R b x Hb Hx) as [[H0 _]|(_ & _ & H3 & _)];
    [unfold NODEV in *; lia|].
  rewrite H3 in Hf. unfold fl in Hf. repeat case_decide; (done || set_solver).
Qed.

(** iderw on a buffer bget has just made over: it fetches the sector. *)
Lemma wp_iderw_read s b x p Q :
  bufs s !! b = Some x -> flags x = B_BUSY -> dev x = 1 ->
  0 <= sector x < Z.of_nat (length (disk s)) -> disk s !! Z.to_nat (sector x) = Some p ->
  Q tt (with_bufs (alter (fun y => w_flags (B_BUSY + B_VALID) (w_data p y)) b (bufs s)) s) ->
  wp (iderw b) Q s.
Proof.
  intros Hx Hf Hd Hn Hp HQ. unfold iderw. wp_steps. eapply wp_getb; [done|].
  rewrite Hf, Hd. simpl. wp_steps. rewrite (proj2 (Z.leb_gt _ _)) by lia.
  wp_steps. eapply wp_lift_opt; [done|]. apply wp_setb; [by exists x|]. wp_steps.
  eapply wp_getb; [simpl; by rewrite list_lookup_alter_eq, Hx|]. simpl. rewrite Hf.
  apply wp_setb; [exists (w_data p x); simpl; by rewrite list_lookup_alter_eq, Hx|].
  simpl. rewrite alter_alter. done.
Qed.

Lemma dll_alter_ex f b bs : keeps_links f -> (exists l, dll bs l) -> exists l, dll (alter f b bs) l.
Proof. intros Hf [l Hl]. exists l. by apply dll_alter. Qed.

Lemma core_alter_ne f (b c : nat) (bs : list buf) :
  c <> b -> core <$> (alter f b bs !! c) = core <$> (bs !! c).
Proof. intros H. by rewrite list_lookup_alter_ne. Qed.

Lemma owned_upd s s' b y (X : gset Z) :
  bufs s' !! b = Some y -> dev y = 1 ->
  (forall c : nat, c <> b -> core <$> (bufs s' !! c) = core <$> (bufs s !! c)) ->
  (forall x, bufs s !! b = Some x -> dev x = 1 -> sector x <> sector y -> sector x ∉ X) ->
  forall c m, m ∈ X -> owned s c m -> owned s' c m.
Proof.
  intros Hy Hdy Hc Hold c m Hm Ho. destruct (decide (c = b)) as [->|Hne].
  - destruct Ho as [Hb (x & Hx & Hdx & Hsx)]. split; [done|]. exists y. split_and!; try done.
    destruct (decide (sector x = sector y)); [congruence|]. exfalso. by apply (Hold x); subst.
  - eapply owned_core; [|done]. auto.
Qed.

(** A buffer taken for sector [n] and filled with its contents. *)
Lemma rep_take s V D B n b x g :
  rep s V D B -> (b < NBUF)%nat -> bufs s !! b = Some x -> keeps_links g ->
  0 <= n < Z.of_nat (length (disk s)) ->
  dev (g x) = 1 -> sector (g x) = n -> flags (g x) = fl D ({[n]} ∪ B) n -> bdata (g x) = V n ->
  (forall c y, c <> b -> (c < NBUF)%nat -> bufs s !! c = Some y -> dev y = 1 -> sector y <> n) ->
  (dev x = 1 -> sector x <> n -> sector x ∉ D ∪ B) ->
  let s' := with_bufs (alter g b (bufs s)) s in
  rep s' V D ({[n]} ∪ B) /\ owned s' b n /\
  (forall c m, m ∈ D ∪ B -> owned s c m -> owned s' c m).
Proof.
  intros R Hb Hx Hg Hn Hd Hs Hf Hv Hoth Hold s'.
  assert (bufs s' !! b = Some (g x)) as Hy by (simpl; by rewrite list_lookup_alter_eq, Hx).
  assert (forall c : nat, c <> b -> core <$> (bufs s' !! c) = core <$> (bufs s !! c)) as Hc.
  { intros c Hne. by apply core_alter_ne. }
  split_and!.
  - eapply (rep_upd s s' V V D D B _ b n (g x)); try done.
    + apply dll_alter_ex; [done|]. apply (rep_dll _ _ _ _ R).
    + intros y Hyb. assert (y = x) as -> by congruence. done.
    + intros m Hm. set_solver.
    + set_solver.
    + apply (rep_lock _ _ _ _ R).
  - split; [done|]. by exists (g x).
  - eapply owned_upd; [done..|]. intros y Hyb. assert (y = x) as -> by congruence.
    by rewrite Hs.
Qed.

(** bread takes a buffer for the sector, with the contents the file system sees; no
    other sector is touched, nothing is written. *)
Lemma wp_bread_at s V D B n l Q :
  rep s V D B -> dll (bufs s) l -> n ∉ B -> 0 <= n < Z.of_nat (length (disk s)) ->
  (n ∈ D \/ (size (D ∪ B) < NBUF)%nat) ->
  (forall b bs', dll bs' l ->
     (List.find (matchb (bufs s) 1 n) l = None -> List.find (freeb (bufs s)) (rev l) = Some b) ->
     let s' := with_bufs bs' s in
     rep s' V D ({[n]} ∪ B) -> owned s' b n ->
     (forall c m, m ∈ D ∪ B -> owned s c m -> owned s' c m) -> Q b s') ->
  wp (bread 1 n) Q s.
Proof.
  intros R Hl HnB Hn Hroom HQ.
  unfold bread. wp_steps. eapply wp_bget; [done..|]. intros b x hit Hb Hx Hhit. wp_steps.
  eapply wp_getb; [simpl; by rewrite list_lookup_alter_eq, Hx|].
  destruct hit.
  - destruct Hhit as [Hdx Hsx]. cbn [bget_buf flags w_flags].
    destruct (rep_buf _ _ _ _ R b x Hb Hx) as [[H0 _]|(_ & _ & H3 & H4)];
      [unfold NODEV in *; lia|]. rewrite Hsx in *. rewrite fl_free in H3 by done.
    assert (Hv : has (Z.lor (flags x) B_BUSY) B_VALID = true) by (rewrite H3; by case_decide).
    rewrite Hv. cbn [negb]. wp_steps.
    edestruct (rep_take s V D B n b x (bget_buf n true)) as (R' & O & F); try done.
    + simpl. rewrite fl_busy, H3. by case_decide.
    + intros c y Hc Hcn Hy Hdy Hs. apply Hc. eapply (rep_uniq _ _ _ _ R); eauto; lia.
    + apply HQ; try done.
      * apply dll_alter; [by intros []|done].
      * intros Hmiss. exfalso. by eapply (bget_miss s V D B l n b x).
  - destruct Hhit as (Hmiss & Hlru & Hfree).
    assert (HnD : n ∉ D).
    { intros HD. destruct (rep_cached _ _ _ _ R n) as (i & y & Hi & Hy & Hdy & Hs);
        [set_solver|]. by eapply bget_miss. }
    cbn [bget_buf flags w_flags]. simpl (negb _). cbn iota. wp_steps.
    eapply wp_iderw_read with (x := bget_buf n false x); try done.
    + simpl. by rewrite list_lookup_alter_eq, Hx.
    + apply (rep_disk _ _ _ _ R); done.
    + wp_steps. simpl. rewrite alter_alter.
      set (g := fun y : buf => _).
      edestruct (rep_take s V D B n b x g) as (R' & O & F); try done.
      * simpl. by rewrite fl_busy, decide_False.
      * intros c y _ Hc Hy. by eapply bget_miss.
      * intros Hdx _. by eapply freeb_clean.
      * apply HQ; try done. apply dll_alter; [by intros []|done].
Qed.

Lemma wp_bread s V D B n Q :
  rep s V D B -> n ∉ B -> 0 <= n < Z.of_nat (length (disk s)) ->
  (n ∈ D \/ (size (D ∪ B) < NBUF)%nat) ->
  (forall b bs', let s' := with_bufs bs' s in
     rep s' V D ({[n]} ∪ B) -> owned s' b n ->
     (forall c m, m ∈ D ∪ B -> owned s c m -> owned s' c m) -> Q b s') ->
  wp (bread 1 n) Q s.
Proof.
  intros R HnB Hn Hroom HQ. destruct (rep_dll _ _ _ _ R) as [l Hl].
  eapply wp_bread_at; [done..|]. intros b bs' _ _. apply HQ.
Qed.

(** ** Operations on a held buffer *)

(** The buffer of sector [n] as the representation has it. *)
Lemma rep_owned_buf s V D B b n :
  rep s V D B -> owned s b n ->
  exists x, (b < NBUF)%nat /\ bufs s !! b = Some x /\ dev x = 1 /\ sector x = n /\
    0 <= n < Z.of_nat (length (disk s)) /\ flags x = fl D B n /\ bdata x = V n.
Proof.
  intros R [Hb (x & Hx & Hd & Hs)]. exists x.
  destruct (rep_buf _ _ _ _ R b x Hb Hx) as [[H0 _]|(_ & H2 & H3 & H4)];
    [unfold NODEV in *; lia|]. subst n. done.
Qed.

Lemma rep_hold s s' V V' D D' B B' b n y :
  rep s V D B -> owned s b n -> (exists l, dll (bufs s') l) ->
  bufs s' !! b = Some y -> dev y = 1 -> sector y = n ->
  flags y = fl D' B' n -> bdata y = V' n ->
  (forall c : nat, c <> b -> core <$> (bufs s' !! c) = core <$> (bufs s !! c)) ->
  (forall m, m <> n -> V' m = V m /\ (m ∈ D' <-> m ∈ D) /\ (m ∈ B' <-> m ∈ B)) ->
  (forall m, 0 <= m -> m <> n -> disk s' !! Z.to_nat m = disk s !! Z.to_nat m) ->
  length (disk s') = length (disk s) ->
  (n ∉ D' -> n ∉ B' -> disk s' !! Z.to_nat n = Some (V' n)) ->
  held (bctx s') = held (bctx s) ->
  rep s' V' D' B' /\ (forall c m, owned s c m -> owned s' c m).
Proof.
  intros R O Hd Hy Hdy Hsy Hf Hv Hc Hm Hdm Hlen Hdn Hh.
  destruct (rep_owned_buf _ _ _ _ _ _ R O) as (x & Hb & Hx & Hdx & Hsx & Hn & _).
  split.
  - eapply (rep_upd s s' V V' D D' B B' b n y); try done.
    + intros c z Hne Hcn Hz Hdz Hs. apply Hne. eapply (rep_uniq _ _ _ _ R); eauto; lia.
    + intros z Hz _ Hs. congruence.
    + rewrite Hh. apply (rep_lock _ _ _ _ R).
  - intros c m Ho. eapply (owned_upd s s' b y {[m]}); try done; [|set_solver].
    intros z Hz _ Hs. congruence.
Qed.

Lemma wp_buf_data s V D B b n Q :
  rep s V D B -> owned s b n -> Q (V n) s -> wp (buf_data b) Q s.
Proof.
  intros R O HQ. destruct (rep_owned_buf _ _ _ _ _ _ R O) as (x & _ & Hx & _ & _ & _ & _ & Hv).
  unfold buf_data. wp_steps. eapply wp_getb; [done|]. wp_steps. by rewrite Hv.
Qed.

(** An update of the buffer of [n] that keeps its place and its sector. *)
Lemma rep_alter s V V' D D' B B' b n f :
  rep s V D B -> owned s b n -> keeps_links f ->
  (forall x, flags x = fl D B n -> bdata x = V n -> dev x = 1 -> sector x = n ->
     dev (f x) = 1 /\ sector (f x) = n /\ flags (f x) = fl D' B' n /\ bdata (f x) = V' n) ->
  (forall m, m <> n -> V' m = V m /\ (m ∈ D' <-> m ∈ D) /\ (m ∈ B' <-> m ∈ B)) ->
  (n ∉ D' -> n ∉ B' -> disk s !! Z.to_nat n = Some (V' n)) ->
  let s' := with_bufs (alter f b (bufs s)) s in
  rep s' V' D' B' /\ (forall c m, owned s c m -> owned s' c m).
Proof.
  intros R O Hf Hfx Hm Hdn s'.
  destruct (rep_owned_buf _ _ _ _ _ _ R O) as (x & Hb & Hx & Hdx & Hsx & Hn & Hfl & Hv).
  destruct (Hfx x) as (F1 & F2 & F3 & F4); [done..|].
  eapply (rep_hold s s' V V' D D' B B' b n (f x)); try done.
  - apply dll_alter_ex; [done|]. apply (rep_dll _ _ _ _ R).
  - simpl. by rewrite list_lookup_alter_eq, Hx.
  - intros c Hc. by apply core_alter_ne.
Qed.

Lemma wp_set_data s V D B b n d Q :
  rep s V D B -> owned s b n -> n ∈ B ->
  (forall bs', let s' := with_bufs bs' s in
     rep s' (<[n := d]> V) D B -> (forall c m, owned s c m -> owned s' c m) -> Q tt s') ->
  wp (set_data b d) Q s.
Proof.
  intros R O HB HQ.
  destruct (rep_alter s V (<[n := d]> V) D D B B b n (w_data d)) as [R' F]; try done.
  - intros x ????. by rewrite fn_lookup_insert.
  - intros m Hm. by rewrite fn_lookup_insert_ne.
  - apply wp_setb_lt; [|by apply HQ].
    destruct (rep_owned_buf _ _ _ _ _ _ R O) as (x & _ & Hx & _). by eapply lookup_lt_Some.
Qed.

(** b->flags |= B_DIRTY, which log_write does to keep the buffer in the cache. *)
Definition mark_dirty (b : nat) : M bst unit :=
  x <- getb b ;; setb b (w_flags (Z.lor (flags x) B_DIRTY)).

Lemma wp_mark_dirty s V D B b n Q :
  rep s V D B -> owned s b n ->
  (forall bs', let s' := with_bufs bs' s in
     rep s' V ({[n]} ∪ D) B -> (forall c m, owned s c m -> owned s' c m) -> Q tt s') ->
  wp (mark_dirty b) Q s.
Proof.
  intros R O HQ.
  destruct (rep_owned_buf _ _ _ _ _ _ R O) as (x & _ & Hx & _ & _ & _ & Hf & _).
  destruct (rep_alter s V V D ({[n]} ∪ D) B B b n (w_flags (Z.lor (flags x) B_DIRTY)))
    as [R' F]; try done.
  - intros y Hy ? ? ?. split_and!; try done. simpl. rewrite Hf. unfold fl.
    rewrite (decide_True (P := n ∈ {[n]} ∪ D)) by set_solver. by repeat case_decide.
  - set_solver.
  - set_solver.
  - unfold mark_dirty. wp_steps. eapply wp_getb; [done|]. apply wp_setb; [by exists x|].
    by apply HQ.
Qed.

(** iderw on a dirty buffer: it writes the sector out. *)
Lemma wp_iderw_write s b x Q :
  bufs s !! b = Some x -> flags x = B_BUSY + B_VALID + B_DIRTY -> dev x = 1 ->
  0 <= sector x < Z.of_nat (length (disk s)) ->
  Q tt (mkbst (alter (w_flags (B_BUSY + B_VALID)) b (bufs s))
          (<[Z.to_nat (sector x) := bdata x]> (disk s)) (hist s ++ [(sector x, bdata x)])
          (bctx s)) ->
  wp (iderw b) Q s.
Proof.
  intros Hx Hf Hd Hn HQ. unfold iderw. wp_steps. eapply wp_getb; [done|].
  rewrite Hf, Hd. simpl. wp_steps. rewrite (proj2 (Z.leb_gt _ _)) by lia.
  wp_steps. apply wp_setb; [by exists x|]. wp_steps.
  eapply wp_getb; [simpl; by rewrite list_lookup_alter_eq, Hx|]. simpl.
  apply wp_setb; [simpl; rewrite list_lookup_alter_eq, Hx; simpl; by eexists|].
  unfold with_bufs. simpl. rewrite alter_alter. done.
Qed.

(** bwrite makes the buffer's contents the disk's: one sector write. *)
Lemma wp_bwrite s V D B b n Q :
  rep s V D B -> owned s b n -> n ∈ B ->
  (forall bs', let s' := mkbst bs' (<[Z.to_nat n := V n]> (disk s)) (hist s ++ [(n, V n)]) (bctx s) in
     rep s' V (D ∖ {[n]}) B -> (forall c m, owned s c m -> owned s' c m) -> Q tt s') ->
  wp (bwrite b) Q s.
Proof.
  intros R O HB HQ.
  destruct (rep_owned_buf _ _ _ _ _ _ R O) as (x & Hb & Hx & Hd & Hs & Hn & Hf & Hv).
  unfold bwrite. wp_steps. eapply wp_getb; [done|].
  assert (flags x = B_BUSY + B_VALID + (if decide (n ∈ D) then B_DIRTY else 0)) as Hf'.
  { rewrite Hf. unfold fl. rewrite (decide_True (P := n ∈ B)) by done. lia. }
  assert (has (flags x) B_BUSY = true) as -> by (rewrite Hf'; by case_decide).
  simpl. wp_steps. apply wp_setb; [by exists x|].
  eapply wp_iderw_write; [simpl; by rewrite list_lookup_alter_eq, Hx|..]; simpl; [|done|by rewrite Hs|].
  { rewrite Hf'. by case_decide. }
  rewrite alter_alter, Hs, Hv. simpl.
  set (f := fun y : buf => _).
  edestruct (rep_hold s (mkbst (alter f b (bufs s)) (<[Z.to_nat n := V n]> (disk s))
    (hist s ++ [(n, V n)]) (bctx s)) V V D (D ∖ {[n]}) B B b n (f x)) as [R' F]; try done.
  - apply dll_alter_ex; [by intros []|]. apply (rep_dll _ _ _ _ R).
  - simpl. by rewrite list_lookup_alter_eq, Hx.
  - simpl. unfold fl. rewrite decide_True, decide_False by set_solver. done.
  - intros c Hc. by apply core_alter_ne.
  - set_solver.
  - intros m H0 Hm. simpl. rewrite list_lookup_insert_ne by lia. done.
  - simpl. by rewrite length_insert.
  - by apply HQ.
Qed.

(** brelse gives the buffer back, to the front of the list; what it holds must be on
    the disk unless it is marked dirty. *)
Lemma wp_brelse_at s V D B b n l1 l2 Q :
  rep s V D B -> owned s b n -> n ∈ B -> dll (bufs s) (l1 ++ b :: l2) ->
  (n ∈ D \/ disk s !! Z.to_nat n = Some (V n)) ->
  (forall bs', dll bs' (b :: l1 ++ l2) -> let s' := mkbst bs' (disk s) (hist s)
       (mkctx (held (bctx s)) (ChBuf (Z.of_nat b) :: woken (bctx s)) (killed (bctx s))) in
     rep s' V D (B ∖ {[n]}) -> (forall c m, owned s c m -> owned s' c m) -> Q tt s') ->
  wp (brelse b) Q s.
Proof.
  intros R O HB Hl Hdn HQ.
  destruct (rep_owned_buf _ _ _ _ _ _ R O) as (x & Hb & Hx & Hd & Hs & Hn & Hf & Hv).
  destruct (rep_lock _ _ _ _ R) as [Hk1 Hk2].
  unfold brelse. wp_steps. eapply wp_getb; [done|].
  assert (has (flags x) B_BUSY = true) as ->.
  { rewrite Hf. unfold fl. rewrite (decide_True (P := n ∈ B)) by done. by case_decide. }
  simpl. wp_steps. apply wp_acquire; [done|]. wp_steps.
  eapply wp_brelse_move; [exact Hl|]. intros bs Hbs Hcore. cbn [bufs with_ctx bst_ctx] in Hcore.
  assert (exists x', bs !! b = Some x' /\ core x' = core x) as (x' & Hx' & Ex).
  { assert (core <$> bufs s = core <$> bs) as Hcore' by done.
    apply (core_lookup bs (bufs s) b x Hcore' Hx). }
  injection Ex as E1 E2 E3 E4.
  wp_steps. eapply wp_getb; [exact Hx'|]. wp_steps. apply wp_setb; [by exists x'|].
  wp_steps. eapply wp_wakeup; [by apply not_elem_of_cons|]. wp_steps.
  eapply wp_release; [done|].
  set (f := w_flags (Z.ldiff (flags x') B_BUSY)). simpl.
  edestruct (rep_hold s (mkbst (alter f b bs) (disk s) (hist s) (mkctx (held (bctx s))
    (ChBuf (Z.of_nat b) :: woken (bctx s)) (killed (bctx s)))) V V D D B (B ∖ {[n]}) b n (f x'))
    as [R' F]; try done.
  - apply dll_alter_ex; [by intros []|]. by eexists.
  - simpl. by rewrite list_lookup_alter_eq, Hx'.
  - simpl. congruence.
  - simpl. congruence.
  - simpl. rewrite E1, Hf, (fl_free D (B ∖ {[n]})) by set_solver. unfold fl.
    rewrite (decide_True (P := n ∈ B)) by done. by case_decide.
  - simpl. congruence.
  - intros c Hc. simpl. rewrite core_alter_ne by done.
    rewrite <- !list_lookup_fmap. by rewrite Hcore.
  - set_solver.
  - intros HD _. by destruct Hdn.
  - apply HQ; [|done..]. by apply dll_alter; [intros []|].
Qed.

Lemma wp_brelse s V D B b n Q :
  rep s V D B -> owned s b n -> n ∈ B ->
  (n ∈ D \/ disk s !! Z.to_nat n = Some (V n)) ->
  (forall bs', let s' := mkbst bs' (disk s) (hist s)
       (mkctx (held (bctx s)) (ChBuf (Z.of_nat b) :: woken (bctx s)) (killed (bctx s))) in
     rep s' V D (B ∖ {[n]}) -> (forall c m, owned s c m -> owned s' c m) -> Q tt s') ->
  wp (brelse b) Q s.
Proof.
  intros R O HB Hdn HQ. destruct (rep_dll _ _ _ _ R) as [l Hl].
  pose proof (proj2 (dll_elem _ _ b Hl) (proj1 O)) as Hbl.
  apply list_elem_of_split in Hbl as (l1 & l2 & ->).
  eapply wp_brelse_at; [done..|]. intros bs' _. apply HQ.
Qed.

(** ** Initialisation *)

Definition boot_bufs : list buf :=
  match binit (boot []) with Ret _ s => bufs s | _ => [] end.

Definition disk_view (d : list (list Z)) (n : Z) : list Z := default [] (d !! Z.to_nat n).

Lemma binit_boot d : binit (boot d) = Ret tt (with_bufs boot_bufs (boot d)).
Proof. vm_compute. reflexivity. Qed.

Lemma boot_dll : dll boot_bufs (rev (seq 0 NBUF)).
Proof.
  constructor; [vm_compute; reflexivity| |by rewrite <- Permutation_rev].
  vm_compute. repeat split.
Qed.

Lemma boot_unused i x : boot_bufs !! i = Some x -> (i < NBUF)%nat -> dev x = NODEV /\ flags x = 0.
Proof.
  intros Hx Hi.
  assert (Forall (fun x => dev x = NODEV /\ flags x = 0) (take NBUF boot_bufs)) as H
    by (vm_compute; repeat constructor).
  rewrite list.Forall_lookup in H. apply (H i). by rewrite lookup_take_lt.
Qed.

Lemma rep_boot d : rep (with_bufs boot_bufs (boot d)) (disk_view d) ∅ ∅.
Proof.
  constructor; simpl.
  - eexists. apply boot_dll.
  - intros i x Hi Hx. left. by eapply boot_unused.
  - intros i j x y Hi Hj Hx Hy Hdx. destruct (boot_unused i x Hx Hi). unfold NODEV in *. lia.
  - set_solver.
  - intros n Hn _ _. unfold disk_view.
    destruct (lookup_lt_is_Some_2 d (Z.to_nat n)) as [p ->]; [lia|done].
  - set_solver.
Qed.

(** ** The contract of the buffer cache, and that bio.c implements it *)

Module Contract.

(** What a client may think the cache is: the contents it sees, the disk and the
    writes done to it, the sectors marked dirty and the sectors it holds. *)
Record aspec := mkaspec {
  aview : Z -> list Z;
  adisk : list (list Z);
  ahist : list (Z * list Z);
  adirty : gset Z;
  abusy : gset Z }.

Inductive op :=
| OpRead (n : Z)                (* bread, then a look at the data *)
| OpSet (n : Z) (d : list Z)    (* the holder changes the data *)
| OpDirty (n : Z)               (* flags |= B_DIRTY *)
| OpWrite (n : Z)               (* bwrite *)
| OpRelse (n : Z).              (* brelse *)

(** One operation in the contract; None when the client may not do it. *)
Definition spec_step (a : aspec) (o : op) : option (list Z * aspec) :=
  let '(mkaspec V dk h D B) := a in
  match o with
  | OpRead n =>
      if bool_decide (n ∉ B) && (0 <=? n) && (n <? Z.of_nat (length dk)) &&
         (bool_decide (n ∈ D) || (size (D ∪ B) <? NBUF)%nat)
      then Some (V n, mkaspec V dk h D ({[n]} ∪ B)) else None
  | OpSet n d =>
      if bool_decide (n ∈ B) then Some ([], mkaspec (<[n := d]> V) dk h D B) else None
  | OpDirty n =>
      if bool_decide (n ∈ B) then Some ([], mkaspec V dk h ({[n]} ∪ D) B) else None
  | OpWrite n =>
      if bool_decide (n ∈ B) then
        Some ([], mkaspec V (<[Z.to_nat n := V n]> dk) (h ++ [(n, V n)]) (D ∖ {[n]}) B)
      else None
  | OpRelse n =>
      if bool_decide (n ∈ B) && (bool_decide (n ∈ D) || bool_decide (dk !! Z.to_nat n = Some (V n)))
      then Some ([], mkaspec V dk h D (B ∖ {[n]})) else None
  end.

Fixpoint spec_run (a : aspec) (os : list op) : option (list (list Z) * aspec) :=
  match os with
  | [] => Some ([], a)
  | o :: os =>
      '(r, a) ← spec_step a o; '(rs, a) ← spec_run a os; Some (r :: rs, a)
  end.

(** The same operations with bio.c's functions; [h] is the buffer the client got for
    each sector. *)
Definition impl_step (h : gmap Z nat) (o : op) : M bst (list Z * gmap Z nat) :=
  match o with
  | OpRead n => b <- bread 1 n ;; d <- buf_data b ;; ret (d, <[n := b]> h)
  | OpSet n d => b <- lift_opt (h !! n) ;; set_data b d ;; ret ([], h)
  | OpDirty n => b <- lift_opt (h !! n) ;; mark_dirty b ;; ret ([], h)
  | OpWrite n => b <- lift_opt (h !! n) ;; bwrite b ;; ret ([], h)
  | OpRelse n => b <- lift_opt (h !! n) ;; brelse b ;; ret ([], delete n h)
  end.

Fixpoint impl_run (h : gmap Z nat) (os : list op) : M bst (list (list Z)) :=
  match os with
  | [] => ret []
  | o :: os =>
      rh <- impl_step h o ;;
      rs <- impl_run (snd rh) os ;;
      ret (fst rh :: rs)
  end.

(** The relation between a cache with its client's handles and the contract. *)
Definition refines (s : bst) (h : gmap Z nat) (a : aspec) : Prop :=
  rep s (aview a) (adirty a) (abusy a) /\ disk s = adisk a /\ hist s = ahist a /\
  forall n, n ∈ abusy a -> exists b, h !! n = Some b /\ owned s b n.

Lemma refines_step s h a o r a' :
  refines s h a -> spec_step a o = Some (r, a') ->
  wp (impl_step h o) (fun rh s' => fst rh = r /\ refines s' (snd rh) a') s.
Proof.
  destruct a as [V dk hs D B]. intros (R & Hd & Hh & Ho) E. simpl in *.
  assert (Hget : forall n, n ∈ B -> exists b, h !! n = Some b /\ owned s b n) by done.
  destruct o as [n|n d|n|n|n]; simpl in *; case_match eqn:Ec; simplify_eq/=; zbool.
  - repeat match goal with H : bool_decide _ = true |- _ => apply bool_decide_eq_true_1 in H end.
    assert (n ∈ D \/ (size (D ∪ B) < NBUF)%nat) as Hroom.
    { destruct (bool_decide (n ∈ D)) eqn:E1; [left; by apply bool_decide_eq_true_1 in E1|].
      right. by apply Nat.ltb_lt. }
    wp_steps. eapply wp_bread; [done..|]. intros b bs' s' R' O F. wp_steps.
    eapply wp_buf_data; [done..|]. wp_steps. simpl. split; [done|]. split_and!; [done..|].
    intros m Hm. simpl in *. destruct (decide (m = n)) as [->|Hne].
    + exists b. by rewrite lookup_insert_eq.
    + rewrite lookup_insert_ne by done. destruct (Ho m) as (c & Hc & Hoc); [set_solver|].
      exists c. split; [done|]. apply F; [set_solver|done].
  - apply bool_decide_eq_true_1 in Ec. destruct (Hget n Ec) as (b & Hb & O).
    wp_steps. eapply wp_lift_opt; [done|]. wp_steps. eapply wp_set_data; [done..|].
    intros bs' s' R' F. wp_steps. split; [done|]. split_and!; [done..|]. naive_solver.
  - apply bool_decide_eq_true_1 in Ec. destruct (Hget n Ec) as (b & Hb & O).
    wp_steps. eapply wp_lift_opt; [done|]. wp_steps. eapply wp_mark_dirty; [done..|].
    intros bs' s' R' F. wp_steps. split; [done|]. split_and!; [done..|]. naive_solver.
  - apply bool_decide_eq_true_1 in Ec. destruct (Hget n Ec) as (b & Hb & O).
    wp_steps. eapply wp_lift_opt; [done|]. wp_steps. eapply wp_bwrite; [done..|].
    intros bs' s' R' F. wp_steps. split; [done|]. split_and!; [done..|]. naive_solver.
  - apply bool_decide_eq_true_1 in H. destruct (Hget n H) as (b & Hb & O).
    wp_steps. eapply wp_lift_opt; [done|]. wp_steps. eapply wp_brelse; [done..| |].
    { apply orb_prop in H0 as [E|E]; apply bool_decide_eq_true_1 in E; auto. }
    intros bs' s' R' F. wp_steps. split; [done|]. split_and!; [done..|].
    intros m Hm. simpl in *. destruct (Ho m) as (c & Hc & Hoc); [set_solver|].
    exists c. rewrite lookup_delete_ne by set_solver. auto.
Qed.

Lemma refines_run s h a os rs a' :
  refines s h a -> spec_run a os = Some (rs, a') ->
  wp (impl_run h os) (fun r s' => r = rs /\ exists h', refines s' h' a') s.
Proof.
  revert s h a rs. induction os as [|o os IH]; intros s h a rs R E; simpl in *.
  - simplify_eq. wp_steps. eauto.
  - destruct (spec_step a o) as [[r a1]|] eqn:E1; simpl in E; [|done].
    destruct (spec_run a1 os) as [[rs1 a2]|] eqn:E2; simpl in E; [|done]. simplify_eq.
    wp_steps. eapply wp_mono; [by eapply refines_step|]. intros [r' h'] s' [Hr R']. simpl in *.
    wp_steps. eapply wp_mono; [by eapply IH|]. intros rs' s'' [-> Hh]. wp_steps.
    by subst.
Qed.

Definition init_spec (d : list (list Z)) : aspec := mkaspec (disk_view d) d [] ∅ ∅.

(** C2: after binit, bio.c over memide.c implements the contract: every sequence of
    bread, changes, bwrite and brelse the contract allows runs without a panic or a
    sleep, reads what the contract says, and leaves the contract's disk, reached by the
    contract's sector writes in that order. *)
Theorem bcache_refines d os rs a' :
  spec_run (init_spec d) os = Some (rs, a') ->
  exists s0 s', binit (boot d) = Ret tt s0 /\ impl_run ∅ os s0 = Ret rs s' /\
    disk s' = adisk a' /\ hist s' = ahist a' /\ rep s' (aview a') (adirty a') (abusy a').
Proof.
  intros E. exists (with_bufs boot_bufs (boot d)).
  destruct (wp_run _ _ _ (refines_run (with_bufs boot_bufs (boot d)) ∅ (init_spec d) os rs a'
    ltac:(split_and!; [apply rep_boot|done|done|set_solver]) E)) as (r & s' & H & -> & h' & R').
  exists s'. destruct R' as (R1 & R2 & R3 & _).
  split_and!; [apply binit_boot|exact H|exact R2|exact R3|exact R1].
Qed.

Definition demo_ops : list op :=
  [OpRead 1; OpSet 1 [7]; OpDirty 1; OpRelse 1; OpRead 2; OpRead 1; OpWrite 1; OpRelse 1; OpRelse 2].

Lemma bcache_refines_witness :
  exists s0 s', binit (boot [[0]; [1]; [2]]) = Ret tt s0 /\
    impl_run ∅ demo_ops s0 = Ret [[1]; []; []; []; [2]; [7]; []; []; []] s' /\
    disk s' = [[0]; [7]; [2]] /\ hist s' = [(1, [7])].
Proof.
  set (a' := snd (default ([], init_spec []) (spec_run (init_spec [[0]; [1]; [2]]) demo_ops))).
  destruct (bcache_refines [[0]; [1]; [2]] demo_ops [[1]; []; []; []; [2]; [7]; []; []; []] a')
    as (s0 & s' & H1 & H2 & H3 & H4 & _); [vm_compute; reflexivity|].
  exists s0, s'. split_and!; [exact H1|exact H2|rewrite H3; vm_compute; reflexivity|
    rewrite H4; vm_compute; reflexivity].
Defined.

(** The cache is kept in the order of release.  A sector that is not cached is
    read into the least recently released buffer that is neither held nor dirty, and
    brelse makes its buffer the most recent one, the others keeping their order. *)
Theorem bread_brelse_lru s V D B l n :
  rep s V D B -> dll (bufs s) l -> List.find (matchb (bufs s) 1 n) l = None ->
  n ∉ B -> n ∉ D -> 0 <= n < Z.of_nat (length (disk s)) -> (size (D ∪ B) < NBUF)%nat ->
  exists b s1 s2 l1 l2,
    bread 1 n s = Ret b s1 /\ List.find (freeb (bufs s)) (rev l) = Some b /\
    brelse b s1 = Ret tt s2 /\ l = l1 ++ b :: l2 /\ dll (bufs s2) (b :: l1 ++ l2) /\
    rep s2 V D B.
Proof.
  intros R Hl Hmiss HB HD Hn Hsz.
  destruct (wp_run (bread 1 n) (fun b s' => dll (bufs s') l /\
    List.find (freeb (bufs s)) (rev l) = Some b /\ disk s' = disk s /\
    rep s' V D ({[n]} ∪ B) /\ owned s' b n) s) as (b & s1 & E1 & Hl1 & Hb & Hd & R1 & O1).
  { eapply wp_bread_at; [done..|by right|]. naive_solver. }
  pose proof (proj2 (dll_elem _ _ b Hl1) (proj1 O1)) as Hbl.
  apply list_elem_of_split in Hbl as (l1 & l2 & ->).
  destruct (wp_run (brelse b) (fun _ s' => dll (bufs s') (b :: l1 ++ l2) /\
    rep s' V D B) s1) as ([] & s2 & E2 & Hl2 & R2).
  { eapply wp_brelse_at; [done..|set_solver|done| |].
    - right. rewrite Hd. by apply (rep_disk _ _ _ _ R).
    - intros bs' Hl2 s' R2 _. split; [done|].
      by replace B with (({[n]} ∪ B) ∖ {[n]}) by set_solver. }
  by exists b, s1, s2, l1, l2.
Qed.

Lemma bread_brelse_lru_witness :
  exists b s1 s2 l1 l2, let s := with_bufs boot_bufs (boot [[4]; [5]]) in
    bread 1 1 s = Ret b s1 /\ List.find (freeb (bufs s)) (rev (rev (seq 0 NBUF))) = Some b /\
    brelse b s1 = Ret tt s2 /\ rev (seq 0 NBUF) = l1 ++ b :: l2 /\ dll (bufs s2) (b :: l1 ++ l2) /\
    rep s2 (disk_view [[4]; [5]]) ∅ ∅.
Proof.
  apply (bread_brelse_lru (with_bufs boot_bufs (boot [[4]; [5]]))).
  - apply rep_boot.
  - apply boot_dll.
  - vm_compute. reflexivity.
  - set_solver.
  - set_solver.
  - simpl. lia.
  - rewrite union_empty_l_L, size_empty. unfold NBUF. lia.
Defined.

End Contract.
