(* ===== verification/Log.v ===== *)
(** * log.c: the redo log

    [logst] is log.c's struct log together with the buffer cache it works on.  The
    routines follow the code; begin_op and end_op are also given as the steps of
    concurrent system calls ([Ops]), where the reservation of log space is.

    The crash model is the one of [Buf]: the disk goes through the sector writes of
    [hist] one by one, and a crash leaves any prefix of them done.  [mount] is what
    the next boot runs. *)

From stdpp Require Import base list numbers strings gmap sets functions.
From S2P Require Import Prelude Layout Spinlock Buf.
Import Ctx.

Open Scope Z_scope.
Local Open Scope kernel_scope.

Record log := mklog {
  lstart : Z;
  lsize : Z;
  outstanding : Z;
  committing : Z;
  ldev : Z;
  lh_n : Z;
  lh_sector : list Z }.

Record logst := mklogst { lg : log; lb : bst }.

#[export] Program Instance logst_ctx : HasCtx logst := {|
  ctx s := bctx (lb s);
  with_ctx k s := mklogst (lg s) (with_ctx k (lb s)) |}.
Next Obligation. done. Qed.
Next Obligation. done. Qed.
Next Obligation. by intros [? []]. Qed.

(** A routine of bio.c, run from log.c. *)
Definition bio {A} (m : M bst A) : M logst A := zoom lb (fun b s => mklogst (lg s) b) m.

Definition w_outstanding v l := mklog (lstart l) (lsize l) v (committing l) (ldev l) (lh_n l) (lh_sector l).
Definition w_committing v l := mklog (lstart l) (lsize l) (outstanding l) v (ldev l) (lh_n l) (lh_sector l).
Definition w_n v l := mklog (lstart l) (lsize l) (outstanding l) (committing l) (ldev l) v (lh_sector l).
Definition w_lsector v l := mklog (lstart l) (lsize l) (outstanding l) (committing l) (ldev l) (lh_n l) v.
Definition w_geom st sz dv l := mklog st sz (outstanding l) (committing l) dv (lh_n l) (lh_sector l).

Definition mod_log (f : log -> log) : M logst unit := modify (fun s => mklogst (f (lg s)) (lb s)).

(** log.lh.sector[i] = v; outside the array it is a fault. *)
Definition set_sector (i : nat) (v : Z) : M logst unit :=
  l <- gets lg ;;
  lift_opt (lh_sector l !! i) ;;
  mod_log (fun l => w_lsector (<[i := v]> (lh_sector l)) l).

(** fs.c readsb. *)
Definition readsb (dev : Z) : M bst superblock :=
  bp <- bread dev 1 ;;
  d <- buf_data bp ;;
  brelse bp ;;
  ret (sb_of d).

Definition install_one (tail : nat) : M logst unit :=
  l <- gets lg ;;
  lbuf <- bio (bread (u32 (ldev l)) (u32 (lstart l + Z.of_nat tail + 1))) ;;
  t <- lift_opt (lh_sector l !! tail) ;;
  dbuf <- bio (bread (u32 (ldev l)) (u32 t)) ;;
  d <- bio (buf_data lbuf) ;;
  bio (set_data dbuf d) ;;
  bio (bwrite dbuf) ;;
  bio (brelse lbuf) ;;
  bio (brelse dbuf).

(** The loops run for tail = 0 .. log.lh.n - 1: their bodies do not change log.lh.n. *)
Definition install_trans : M logst unit :=
  l <- gets lg ;; forM (seq 0 (Z.to_nat (lh_n l))) install_one.

Definition read_head : M logst unit :=
  l <- gets lg ;;
  b <- bio (bread (u32 (ldev l)) (u32 (lstart l))) ;;
  lh <- bio (buf_data b) ;;
  n <- lift_opt (rd32 lh 0) ;;
  mod_log (w_n (i32 n)) ;;
  forM (seq 0 (Z.to_nat (i32 n))) (fun i =>
    v <- lift_opt (rd32 lh (4 + 4 * i)) ;; set_sector i (i32 v)) ;;
  bio (brelse b).

(** A 32-bit store into the data of a buffer. *)
Definition store32 (b : nat) (off : nat) (v : Z) : M bst unit :=
  d <- buf_data b ;;
  if (off + 4 <=? length d)%nat then set_data b (put32 d off v) else fault.

Definition write_head : M logst unit :=
  l <- gets lg ;;
  b <- bio (bread (u32 (ldev l)) (u32 (lstart l))) ;;
  bio (store32 b 0 (lh_n l)) ;;
  forM (seq 0 (Z.to_nat (lh_n l))) (fun i =>
    v <- lift_opt (lh_sector l !! i) ;; bio (store32 b (4 + 4 * i) v)) ;;
  bio (bwrite b) ;;
  bio (brelse b).

Definition recover_from_log : M logst unit :=
  read_head ;;
  install_trans ;;
  mod_log (w_n 0) ;;
  write_head.

(** sizeof(struct logheader) is 4 * (1 + LOGSIZE). *)
Definition initlog : M logst unit :=
  if Z.of_nat BSIZE <=? 4 * (1 + LOGSIZE) then panic "initlog: too big logheader" else
  sb <- bio (readsb ROOTDEV) ;;
  mod_log (w_geom (i32 (u32 (sb_size sb - sb_nlog sb))) (i32 (sb_nlog sb)) ROOTDEV) ;;
  recover_from_log.

Definition begin_op : M logst unit :=
  acquire LkLog ;;
  l <- gets lg ;;
  if negb (committing l =? 0) then release LkLog ;; sleep_on ChLog else
  if LOGSIZE <? lh_n l + (outstanding l + 1) * MAXOPBLOCKS then release LkLog ;; sleep_on ChLog else
  mod_log (w_outstanding (outstanding l + 1)) ;;
  release LkLog.

Definition write_log_one (tail : nat) : M logst unit :=
  l <- gets lg ;;
  to <- bio (bread (u32 (ldev l)) (u32 (lstart l + Z.of_nat tail + 1))) ;;
  t <- lift_opt (lh_sector l !! tail) ;;
  from <- bio (bread (u32 (ldev l)) (u32 t)) ;;
  d <- bio (buf_data from) ;;
  bio (set_data to d) ;;
  bio (bwrite to) ;;
  bio (brelse from) ;;
  bio (brelse to).

Definition write_log : M logst unit :=
  l <- gets lg ;; forM (seq 0 (Z.to_nat (lh_n l))) write_log_one.

Definition commit : M logst unit :=
  l <- gets lg ;;
  if 0 <? lh_n l then
    write_log ;;
    write_head ;;
    install_trans ;;
    mod_log (w_n 0) ;;
    write_head
  else ret tt.

Definition end_op : M logst unit :=
  acquire LkLog ;;
  mod_log (fun l => w_outstanding (outstanding l - 1) l) ;;
  l <- gets lg ;;
  if negb (committing l =? 0) then panic "log.committing" else
  (if outstanding l =? 0 then mod_log (w_committing 1) else wakeup ChLog) ;;
  release LkLog ;;
  if outstanding l =? 0 then
    commit ;;
    acquire LkLog ;;
    mod_log (w_committing 0) ;;
    wakeup ChLog ;;
    release LkLog
  else ret tt.

(** The search loop of log_write: the index of the sector in the header, or log.lh.n. *)
Fixpoint find_sector (l : list Z) (n : nat) (sec : Z) : nat :=
  match n, l with
  | S n, t :: l => if u32 t =? sec then O else S (find_sector l n sec)
  | _, _ => O
  end.

Definition log_write (b : nat) : M logst unit :=
  l <- gets lg ;;
  if (LOGSIZE <=? lh_n l) || (lsize l - 1 <=? lh_n l) then panic "too big a transaction" else
  if outstanding l <? 1 then panic "log_write outside of trans" else
  acquire LkLog ;;
  x <- bio (getb b) ;;
  let i := find_sector (lh_sector l) (Z.to_nat (lh_n l)) (sector x) in
  set_sector i (i32 (sector x)) ;;
  (if Nat.eqb i (Z.to_nat (lh_n l)) then mod_log (fun l => w_n (lh_n l + 1) l) else ret tt) ;;
  bio (mark_dirty b) ;;
  release LkLog.

(** What the boot runs on a disk image before the first file-system call: binit (from
    main) and initlog (from the first process). *)
Definition zero_log : log := mklog 0 0 0 0 0 0 (replicate 30 0).
Definition mount : M logst unit := bio binit ;; initlog.
Definition power_on (d : list (list Z)) : logst := mklogst zero_log (boot d).

(** ** Disks and sector writes *)

Definition blocks_ok (d : list (list Z)) : Prop := Forall (fun p => length p = BSIZE) d.

(** The disk after the given sector writes. *)
Definition apply_writes (w : list (Z * list Z)) (d : list (list Z)) : list (list Z) :=
  foldl (fun d x => <[Z.to_nat (fst x) := snd x]> d) d w.

Lemma apply_app w1 w2 d : apply_writes (w1 ++ w2) d = apply_writes w2 (apply_writes w1 d).
Proof. apply foldl_app. Qed.

Lemma length_apply w d : length (apply_writes w d) = length d.
Proof. revert d. induction w as [|x w IH]; intros d; simpl; [done|]. by rewrite IH, length_insert. Qed.

(** A sector none of the writes is to keeps its contents. *)
Lemma apply_other w d m :
  0 <= m -> (forall x, x ∈ w -> 0 <= fst x /\ fst x <> m) ->
  apply_writes w d !! Z.to_nat m = d !! Z.to_nat m.
Proof.
  intros Hm. revert d. induction w as [|x w IH]; intros d Hw; simpl; [done|].
  rewrite IH by (intros; apply Hw; by right).
  destruct (Hw x) as [H1 H2]; [by left|]. rewrite list_lookup_insert_ne by lia. done.
Qed.

(** The last write to a sector is what it holds. *)
Lemma apply_last w1 w2 d m p :
  0 <= m < Z.of_nat (length d) -> (forall x, x ∈ w2 -> 0 <= fst x /\ fst x <> m) ->
  apply_writes (w1 ++ (m, p) :: w2) d !! Z.to_nat m = Some p.
Proof.
  intros Hm Hw. rewrite apply_app. simpl. rewrite apply_other by (done || lia).
  apply list_lookup_insert_eq. rewrite length_apply. lia.
Qed.

Lemma blocks_ok_apply w d :
  blocks_ok d -> Forall (fun x => length (snd x) = BSIZE) w -> blocks_ok (apply_writes w d).
Proof.
  intros Hd Hw. revert d Hd. induction Hw as [|x w Hx _ IH]; intros d Hd; simpl; [done|].
  apply IH. by apply Forall_insert.
Qed.

(** ** The header block *)

Definition hdr_n (h : list Z) : Z := i32 (get32 h 0).
Definition hdr_sec (h : list Z) (i : nat) : Z := i32 (get32 h (4 + 4 * i)).
Definition hdr_secs (h : list Z) : list Z := hdr_sec h <$> seq 0 (Z.to_nat (hdr_n h)).

(** The header block write_head makes out of the old one. *)
Definition put_secs (h : list Z) (secs : list Z) : list Z :=
  foldl (fun h '(i, v) => put32 h (4 + 4 * i) v) h (imap pair secs).
Definition make_head (h : list Z) (secs : list Z) : list Z :=
  put_secs (put32 h 0 (Z.of_nat (length secs))) secs.

Lemma put_secs_snoc h secs v :
  put_secs h (secs ++ [v]) = put32 (put_secs h secs) (4 + 4 * length secs) v.
Proof.
  unfold put_secs. rewrite imap_app, foldl_app.
  cbn -[put32 Nat.add Nat.mul]. by rewrite Nat.add_0_r.
Qed.

Lemma put_secs_spec h secs :
  length h = BSIZE -> (length secs <= 30)%nat ->
  length (put_secs h secs) = BSIZE /\
  get32 (put_secs h secs) 0 = get32 h 0 /\
  (forall i v, secs !! i = Some v -> get32 (put_secs h secs) (4 + 4 * i) = u32 v).
Proof.
  intros Hh. unfold BSIZE in *. induction secs as [|v secs IH] using rev_ind; intros Hl.
  - split_and!; try done.
  - rewrite length_app in Hl. simpl in Hl. destruct IH as (L & E0 & E); [lia|].
    rewrite put_secs_snoc. split_and!.
    + rewrite length_put32; lia.
    + rewrite get32_put32_ne by lia. done.
    + intros i w Hi. destruct (decide (i = length secs)) as [->|Hne].
      * rewrite lookup_app_r, Nat.sub_diag in Hi by lia. simplify_eq/=.
        apply get32_put32. lia.
      * apply lookup_lt_Some in Hi as Hlt. rewrite length_app in Hlt. simpl in Hlt.
        rewrite lookup_app_l in Hi by lia. rewrite get32_put32_ne by lia. auto.
Qed.

Lemma make_head_spec h secs :
  length h = BSIZE -> (length secs <= 30)%nat -> Forall (fun v => 0 <= v < 2 ^ 31) secs ->
  length (make_head h secs) = BSIZE /\ hdr_n (make_head h secs) = Z.of_nat (length secs) /\
  hdr_secs (make_head h secs) = secs.
Proof.
  intros Hh Hl Hr. unfold make_head. set (h0 := put32 h 0 _).
  assert (length h0 = BSIZE) as Hh0 by (unfold h0; rewrite length_put32; unfold BSIZE in *; lia).
  destruct (put_secs_spec h0 secs Hh0 Hl) as (L & E0 & E).
  assert (hdr_n (put_secs h0 secs) = Z.of_nat (length secs)) as En.
  { unfold hdr_n. rewrite E0. unfold h0. rewrite get32_put32 by (unfold BSIZE in *; lia).
    apply i32_u32. lia. }
  split_and!; [done|done|]. unfold hdr_secs. rewrite En, Nat2Z.id.
  apply list_eq. intros i. rewrite list_lookup_fmap.
  destruct (decide (i < length secs)%nat) as [Hi|Hi].
  - rewrite lookup_seq_lt by done. simpl. destruct (lookup_lt_is_Some_2 _ _ Hi) as [v Hv].
    rewrite Hv. f_equal. unfold hdr_sec. rewrite (E i v Hv).
    rewrite list.Forall_lookup in Hr. specialize (Hr i v Hv). apply i32_u32. lia.
  - rewrite lookup_seq_ge by lia. symmetry. apply lookup_ge_None. lia.
Qed.

(** ** Copying a block through the cache *)

(** [wrote b b' w]: from [b] to [b'] the sector writes are [w]. *)
Definition wrote (b b' : bst) (w : list (Z * list Z)) : Prop :=
  disk b' = apply_writes w (disk b) /\ hist b' = hist b ++ w /\ same_ctx b b'.

Lemma wrote_nil b b' :
  disk b' = disk b -> hist b' = hist b -> same_ctx b b' -> wrote b b' [].
Proof. intros H1 H2 H3. split_and!; [done|by rewrite H2, app_nil_r|done]. Qed.

Lemma wrote_trans b1 b2 b3 w1 w2 : wrote b1 b2 w1 -> wrote b2 b3 w2 -> wrote b1 b3 (w1 ++ w2).
Proof.
  intros (H1 & H2 & H3 & H4) (F1 & F2 & F3 & F4). split_and!.
  - by rewrite apply_app, F1, H1.
  - by rewrite F2, H2, app_assoc.
  - split; congruence.
Qed.

Lemma wrote_len b b' w : wrote b b' w -> length (disk b') = length (disk b).
Proof. intros (-> & _). apply length_apply. Qed.

(** Only the contents of the sectors of the disk matter. *)
Lemma rep_ext s V V' D B :
  (forall n, 0 <= n < Z.of_nat (length (disk s)) -> V' n = V n) -> rep s V D B -> rep s V' D B.
Proof.
  intros E [H1 H2 H3 H4 H5 H6]. constructor; try done.
  - intros i x Hi Hx. destruct (H2 i x Hi Hx) as [H|(F1 & F2 & F3 & F4)]; [by left|right].
    by rewrite E.
  - intros n Hn HD HB. rewrite E by done. auto.
Qed.

Lemma wp_bio {A} (m : M bst A) (Q : A -> logst -> Prop) s :
  wp m (fun a b => Q a (mklogst (lg s) b)) (lb s) -> wp (bio m) Q s.
Proof. intros H. by apply wp_zoom. Qed.

(** With the buffers of [src] and [dst] held: copy, write, release both. *)
Lemma wp_copy_tail s V D B bs bd src dst (Q : unit -> logst -> Prop) :
  rep (lb s) V D B -> B = {[src]} ∪ {[dst]} -> owned (lb s) bs src -> owned (lb s) bd dst ->
  src <> dst -> 0 <= src -> 0 <= dst -> (src ∈ D \/ disk (lb s) !! Z.to_nat src = Some (V src)) ->
  (forall b', rep b' (<[dst := V src]> V) (D ∖ {[dst]}) ∅ ->
     wrote (lb s) b' [(dst, V src)] -> Q tt (mklogst (lg s) b')) ->
  wp (d <- bio (buf_data bs) ;; bio (set_data bd d) ;; bio (bwrite bd) ;;
      bio (brelse bs) ;; bio (brelse bd)) Q s.
Proof.
  intros R EB Os Od Hne Hs0 Hd0 Hsrc HQ. wp_steps. apply wp_bio. eapply wp_buf_data; [done..|].
  wp_steps. apply wp_bio. eapply wp_set_data; [done..|set_solver|]. intros bs1 s1 R1 F1.
  wp_steps. apply wp_bio. eapply wp_bwrite; [exact R1|by apply F1|set_solver|].
  intros bs2 s2 R2 F2. cbn [bufs disk hist bctx with_bufs s1] in *.
  wp_steps. apply wp_bio. eapply wp_brelse; [exact R2|by apply F2, F1|set_solver| |].
  { rewrite fn_lookup_insert_ne by done. simpl. rewrite ?fn_lookup_insert.
    rewrite list_lookup_insert_ne by lia. set_solver. }
  intros bs3 s3 R3 F3. apply wp_bio.
  eapply wp_brelse; [exact R3|by apply F3, F2, F1|set_solver| |].
  { right. rewrite ?fn_lookup_insert. simpl. rewrite ?fn_lookup_insert.
    apply list_lookup_insert_eq.
    destruct (rep_owned_buf _ _ _ _ _ _ R Od) as (_ & _ & _ & _ & _ & Hr & _). lia. }
  intros bs4 s4 R4 F4. apply HQ.
  - replace ((B ∖ {[src]}) ∖ {[dst]}) with (∅ : gset Z) in R4 by set_solver. done.
  - unfold wrote, same_ctx. simpl. rewrite ?fn_lookup_insert. done.
Qed.

(** ** The geometry of the log *)

(** The log's blocks are [lstart .. lstart + lsize - 1], the header first, and lie on
    the disk after the blocks of the file system. *)
Record geom (l : log) (nd : Z) : Prop := {
  g_dev : ldev l = 1;
  g_start : 2 <= lstart l;
  g_size : 1 <= lsize l;
  g_end : lstart l + lsize l <= nd;
  g_max : nd < 2 ^ 31 }.

(** A block of the file system the log may hold: not the super block. *)
Definition home (l : log) (m : Z) : Prop := 0 <= m < lstart l /\ m <> 1.

Lemma wp_write_log_one s V D k t Q :
  geom (lg s) (Z.of_nat (length (disk (lb s)))) ->
  rep (lb s) V D ∅ -> (size D < NBUF)%nat -> lh_sector (lg s) !! k = Some t ->
  t ∈ D -> home (lg s) t -> (forall m, m ∈ D -> home (lg s) m) ->
  Z.of_nat k + 1 < lsize (lg s) ->
  (forall b', rep b' (<[lstart (lg s) + Z.of_nat k + 1 := V t]> V) D ∅ ->
     wrote (lb s) b' [(lstart (lg s) + Z.of_nat k + 1, V t)] -> Q tt (mklogst (lg s) b')) ->
  wp (write_log_one k) Q s.
Proof.
  intros [G1 G2 G3 G4 G5] R Hsz Ht HtD [Ht1 Ht2] HD Hk HQ.
  set (n1 := lstart (lg s) + Z.of_nat k + 1) in *.
  assert (n1 ∉ D) as Hn1 by (intros H; apply HD in H as [H _]; lia).
  assert (t <> n1) as Hne by lia.
  unfold write_log_one. wp_steps. fold n1. rewrite G1, !u32_small by lia.
  apply wp_bio. eapply wp_bread; [done|set_solver|lia|right; by rewrite union_empty_r_L|].
  intros to bs1 s1 R1 O1 F1. wp_steps. eapply wp_lift_opt; [done|].
  wp_steps. rewrite u32_small by lia.
  apply wp_bio. eapply wp_bread; [exact R1|by rewrite union_empty_r_L, not_elem_of_singleton|simpl; lia|by left|].
  intros from bs2 s2 R2 O2 F2.
  eapply (wp_copy_tail _ V D _ from to t n1);
    [exact R2|by rewrite union_empty_r_L|exact O2|apply F2; [|exact O1]|lia..|by left|].
  { rewrite union_empty_r_L. apply elem_of_union_r, elem_of_singleton_2. done. }
  intros b' R' W. apply HQ; [|done]. by replace (D ∖ {[n1]}) with D in R' by set_solver.
Qed.

Lemma wp_install_one s V D k t Q :
  geom (lg s) (Z.of_nat (length (disk (lb s)))) ->
  rep (lb s) V D ∅ -> (size D < NBUF)%nat -> lh_sector (lg s) !! k = Some t ->
  (t ∈ D \/ D = ∅) -> home (lg s) t -> (forall m, m ∈ D -> home (lg s) m) ->
  Z.of_nat k + 1 < lsize (lg s) ->
  (forall b', rep b' (<[t := V (lstart (lg s) + Z.of_nat k + 1)]> V) (D ∖ {[t]}) ∅ ->
     wrote (lb s) b' [(t, V (lstart (lg s) + Z.of_nat k + 1))] -> Q tt (mklogst (lg s) b')) ->
  wp (install_one k) Q s.
Proof.
  intros [G1 G2 G3 G4 G5] R Hsz Ht HtD [Ht1 Ht2] HD Hk HQ.
  set (n1 := lstart (lg s) + Z.of_nat k + 1) in *.
  assert (n1 ∉ D) as Hn1 by (intros H; apply HD in H as [H _]; lia).
  assert (t <> n1) as Hne by lia.
  unfold install_one. wp_steps. fold n1. rewrite G1, !u32_small by lia.
  apply wp_bio. eapply wp_bread; [done|set_solver|lia|right; by rewrite union_empty_r_L|].
  intros lbuf bs1 s1 R1 O1 F1. wp_steps. eapply wp_lift_opt; [done|].
  wp_steps. rewrite u32_small by lia.
  apply wp_bio. eapply wp_bread; [exact R1|by rewrite union_empty_r_L, not_elem_of_singleton|simpl; lia| |].
  { destruct HtD as [HtD| ->]; [by left|right].
    rewrite union_empty_l_L, union_empty_r_L, size_singleton. unfold NBUF. lia. }
  intros dbuf bs2 s2 R2 O2 F2.
  eapply (wp_copy_tail _ V D _ lbuf dbuf n1 t);
    [exact R2|by rewrite union_empty_r_L, union_comm_L|apply F2; [|exact O1]|exact O2|lia..| |done].
  { rewrite union_empty_r_L. apply elem_of_union_r, elem_of_singleton_2. done. }
  right. simpl. apply (rep_disk _ _ _ _ R); [lia|done|set_solver].
Qed.

(** ** The loops *)

(** The file system's view after sector writes. *)
Definition apply_view (w : list (Z * list Z)) (V : Z -> list Z) : Z -> list Z :=
  foldl (fun V x => <[fst x := snd x]> V) V w.

Lemma apply_view_snoc w x V : apply_view (w ++ [x]) V = <[fst x := snd x]> (apply_view w V).
Proof. unfold apply_view. by rewrite foldl_app. Qed.

Lemma apply_view_other w V m : (forall x, x ∈ w -> fst x <> m) -> apply_view w V m = V m.
Proof.
  induction w as [|x w IH] using rev_ind; intros H; [done|].
  rewrite apply_view_snoc, fn_lookup_insert_ne by (apply H; set_solver).
  apply IH. intros y Hy. apply H. set_solver.
Qed.

(** What write_log writes for the logged sectors, and what install_trans writes. *)
Definition log_writes (st : Z) (V : Z -> list Z) (secs : list Z) : list (Z * list Z) :=
  imap (fun i t => (st + Z.of_nat i + 1, V t)) secs.
Definition home_writes (st : Z) (V : Z -> list Z) (secs : list Z) : list (Z * list Z) :=
  imap (fun i t => (t, V (st + Z.of_nat i + 1))) secs.

Lemma log_writes_elem st V secs x :
  x ∈ log_writes st V secs ->
  exists i t, secs !! i = Some t /\ x = (st + Z.of_nat i + 1, V t).
Proof.
  intros Hx. apply list_elem_of_lookup in Hx as [i Hi]. unfold log_writes in Hi.
  rewrite list_lookup_imap in Hi. destruct (secs !! i) as [t|] eqn:E; [|done].
  exists i, t. by simplify_eq/=.
Qed.

Lemma home_writes_elem st V secs x :
  x ∈ home_writes st V secs ->
  exists i t, secs !! i = Some t /\ x = (t, V (st + Z.of_nat i + 1)).
Proof.
  intros Hx. apply list_elem_of_lookup in Hx as [i Hi]. unfold home_writes in Hi.
  rewrite list_lookup_imap in Hi. destruct (secs !! i) as [t|] eqn:E; [|done].
  exists i, t. by simplify_eq/=.
Qed.

Lemma elem_of_take_list {A} (x : A) k (l : list A) : x ∈ take k l -> x ∈ l.
Proof. intros H. rewrite <- (take_drop k l). set_solver. Qed.

(** The sectors in the in-memory header. *)
Definition logged (l : log) : list Z := take (Z.to_nat (lh_n l)) (lh_sector l).

Lemma logged_lookup l i t :
  logged l !! i = Some t -> lh_sector l !! i = Some t /\ (i < Z.to_nat (lh_n l))%nat.
Proof. unfold logged. intros H. by apply lookup_take_Some in H as [? ?]. Qed.

Record log_fits (l : log) : Prop := {
  lf_len : length (lh_sector l) = 30%nat;
  lf_n : 0 <= lh_n l < Z.of_nat NBUF;
  lf_size : lh_n l < lsize l;
  lf_home : forall m, m ∈ logged l -> home l m }.

Lemma length_logged l : log_fits l -> length (logged l) = Z.to_nat (lh_n l).
Proof.
  intros [H1 H2 _ _]. unfold logged. rewrite length_take, H1. unfold NBUF in *. lia.
Qed.

Lemma seq_lookup_eq n k i : seq 0 n !! k = Some i -> i = k /\ (k < n)%nat.
Proof. intros H. apply lookup_seq in H as [-> ?]. done. Qed.

Lemma wp_write_log s V D Q :
  geom (lg s) (Z.of_nat (length (disk (lb s)))) -> log_fits (lg s) ->
  rep (lb s) V D ∅ -> D = list_to_set (logged (lg s)) -> NoDup (logged (lg s)) ->
  (forall b', let w := log_writes (lstart (lg s)) V (logged (lg s)) in
     rep b' (apply_view w V) D ∅ -> wrote (lb s) b' w -> Q tt (mklogst (lg s) b')) ->
  wp write_log Q s.
Proof.
  intros G LF R ED ND HQ. set (w := log_writes (lstart (lg s)) V (logged (lg s))) in *.
  pose proof (length_logged _ LF) as Hlen.
  assert (length w = Z.to_nat (lh_n (lg s))) as Hw by (unfold w, log_writes; by rewrite length_imap).
  assert (size D < NBUF)%nat as Hsz.
  { rewrite ED, size_list_to_set, Hlen by done. pose proof (lf_n _ LF). lia. }
  unfold write_log. wp_steps.
  eapply wp_mono; [apply (wp_forM _ _ (fun k s' => lg s' = lg s /\
    rep (lb s') (apply_view (take k w) V) D ∅ /\ wrote (lb s) (lb s') (take k w)))|].
  - split_and!; [done|done|by apply wrote_nil].
  - intros k i s' Hk (El & R' & W'). apply seq_lookup_eq in Hk as [-> Hk].
    destruct (lookup_lt_is_Some_2 (logged (lg s)) k) as [t Ht]; [lia|].
    destruct (logged_lookup _ _ _ Ht) as [Ht' _].
    assert (t ∈ logged (lg s)) as Htin by (by eapply list_elem_of_lookup_2).
    assert (w !! k = Some (lstart (lg s) + Z.of_nat k + 1, V t)) as Hwk
      by (unfold w, log_writes; by rewrite list_lookup_imap, Ht).
    pose proof (lf_home _ LF t Htin) as Hhome. pose proof (lf_size _ LF).
    assert (apply_view (take k w) V t = V t) as Evt.
    { apply apply_view_other. intros x Hx. apply elem_of_take_list, log_writes_elem in Hx.
      destruct Hx as (j & u & _ & ->). simpl. destruct Hhome. lia. }
    eapply (wp_write_log_one s' _ D k t); rewrite ?El; try done.
    + by rewrite (wrote_len _ _ _ W').
    + rewrite ED. by apply elem_of_list_to_set.
    + intros m Hm. rewrite ED in Hm. apply elem_of_list_to_set in Hm. by apply LF.
    + lia.
    + rewrite Evt. intros b' R2 W2. simpl. split; [done|].
      rewrite (take_S_r _ _ _ Hwk), apply_view_snoc. split; [done|]. by eapply wrote_trans.
  - intros [] [l' b'] (El & R' & W'). simpl in *. subst l'.
    rewrite length_seq, <- Hw, firstn_all in R', W'. by apply HQ.
Qed.

Lemma list_to_set_drop_S (secs : list Z) k t :
  NoDup secs -> secs !! k = Some t ->
  (list_to_set (drop k secs) : gset Z) ∖ {[t]} = list_to_set (drop (S k) secs).
Proof.
  intros ND Ht. rewrite (drop_S _ _ _ Ht). simpl.
  assert (t ∉ drop (S k) secs) as Hni.
  { rewrite <- (take_drop_middle _ _ _ Ht) in ND. apply list.NoDup_app in ND as (_ & _ & ND).
    by apply list.NoDup_cons in ND as [? _]. }
  set_solver.
Qed.

(** install_trans after a commit ([D] the logged sectors) or at recovery ([D] empty). *)
Lemma wp_install_trans s V D Q :
  geom (lg s) (Z.of_nat (length (disk (lb s)))) -> log_fits (lg s) ->
  rep (lb s) V D ∅ -> (D = ∅ \/ (D = list_to_set (logged (lg s)) /\ NoDup (logged (lg s)))) ->
  (forall b', let w := home_writes (lstart (lg s)) V (logged (lg s)) in
     rep b' (apply_view w V) ∅ ∅ -> wrote (lb s) b' w -> Q tt (mklogst (lg s) b')) ->
  wp install_trans Q s.
Proof.
  intros G LF R HD HQ. set (w := home_writes (lstart (lg s)) V (logged (lg s))) in *.
  pose proof (length_logged _ LF) as Hlen.
  assert (length w = Z.to_nat (lh_n (lg s))) as Hw by (unfold w, home_writes; by rewrite length_imap).
  unfold install_trans. wp_steps.
  eapply wp_mono; [apply (wp_forM _ _ (fun k s' => lg s' = lg s /\ exists D',
    rep (lb s') (apply_view (take k w) V) D' ∅ /\ wrote (lb s) (lb s') (take k w) /\
    (D' = ∅ \/ (D' = list_to_set (drop k (logged (lg s))) /\ NoDup (logged (lg s))))))|].
  - split; [done|]. exists D. split_and!; [done|by apply wrote_nil|done].
  - intros k i s' Hk (El & D' & R' & W' & HD'). apply seq_lookup_eq in Hk as [-> Hk].
    destruct (lookup_lt_is_Some_2 (logged (lg s)) k) as [t Ht]; [lia|].
    destruct (logged_lookup _ _ _ Ht) as [Ht' _].
    assert (t ∈ logged (lg s)) as Htin by (by eapply list_elem_of_lookup_2).
    assert (w !! k = Some (t, V (lstart (lg s) + Z.of_nat k + 1))) as Hwk
      by (unfold w, home_writes; by rewrite list_lookup_imap, Ht).
    pose proof (lf_home _ LF t Htin) as Hhome. pose proof (lf_size _ LF). pose proof (lf_n _ LF).
    assert (apply_view (take k w) V (lstart (lg s) + Z.of_nat k + 1)
            = V (lstart (lg s) + Z.of_nat k + 1)) as Evt.
    { apply apply_view_other. intros x Hx. apply elem_of_take_list, home_writes_elem in Hx.
      destruct Hx as (j & u & Hu & ->). simpl.
      destruct (lf_home _ LF u) as [Hu1 _]; [by eapply list_elem_of_lookup_2|]. lia. }
    eapply (wp_install_one s' _ D' k t); rewrite ?El; try done.
    + by rewrite (wrote_len _ _ _ W').
    + destruct HD' as [->|[-> ND]]; [rewrite size_empty; unfold NBUF; lia|].
      rewrite size_list_to_set by (by eapply sublist_NoDup; [|apply sublist_drop]).
      rewrite length_drop, Hlen. lia.
    + destruct HD' as [->|[-> ND]]; [by right|left]. rewrite (drop_S _ _ _ Ht). set_solver.
    + intros m Hm. destruct HD' as [->|[-> ND]]; [set_solver|].
      apply elem_of_list_to_set in Hm. apply LF. rewrite <- (take_drop k). set_solver.
    + lia.
    + rewrite Evt. intros b' R2 W2. simpl. split; [done|]. exists (D' ∖ {[t]}).
      rewrite (take_S_r _ _ _ Hwk), apply_view_snoc. split_and!; [done|by eapply wrote_trans|].
      destruct HD' as [->|[-> ND]]; [left; set_solver|right].
      split; [|done]. by apply list_to_set_drop_S.
  - intros [] [l' b'] (El & D' & R' & W' & HD'). simpl in *. subst l'.
    rewrite length_seq, <- Hw, firstn_all in R', W'. apply HQ; [|done].
    destruct HD' as [->|[-> ND]]; [done|].
    rewrite length_seq, <- Hlen, drop_all in R'. done.
Qed.

(** ** The header in memory and on the disk *)

Lemma wp_store32 s V D B b n off v (Q : unit -> bst -> Prop) :
  rep s V D B -> owned s b n -> n ∈ B -> (off + 4 <= length (V n))%nat ->
  (forall bs', let s' := with_bufs bs' s in
     rep s' (<[n := put32 (V n) off v]> V) D B -> (forall c m, owned s c m -> owned s' c m) ->
     Q tt s') ->
  wp (store32 b off v) Q s.
Proof.
  intros R O HB Hl HQ. unfold store32. wp_steps. eapply wp_buf_data; [done..|].
  rewrite (proj2 (Nat.leb_le _ _) Hl). by eapply wp_set_data.
Qed.

Lemma insert_insert_view (V : Z -> list Z) n x y m : (<[n := y]> (<[n := x]> V)) m = (<[n := y]> V) m.
Proof.
  destruct (decide (m = n)) as [->|]; [by rewrite !fn_lookup_insert|].
  by rewrite !fn_lookup_insert_ne.
Qed.

Lemma wp_write_head s V D Q :
  geom (lg s) (Z.of_nat (length (disk (lb s)))) -> log_fits (lg s) ->
  rep (lb s) V D ∅ -> (size D < NBUF)%nat -> (forall m, m ∈ D -> home (lg s) m) ->
  length (V (lstart (lg s))) = BSIZE ->
  (forall b', let n0 := lstart (lg s) in
     let h := make_head (V n0) (logged (lg s)) in
     rep b' (<[n0 := h]> V) D ∅ -> wrote (lb s) b' [(n0, h)] -> Q tt (mklogst (lg s) b')) ->
  wp write_head Q s.
Proof.
  intros [G1 G2 G3 G4 G5] LF R Hsz HD Hh HQ. set (n0 := lstart (lg s)) in *.
  set (h0 := put32 (V n0) 0 (lh_n (lg s))).
  assert (n0 ∉ D) as Hn0 by (intros H; apply HD in H as [H _]; lia).
  pose proof (length_logged _ LF) as Hlen. pose proof (lf_n _ LF).
  assert (length h0 = BSIZE) as Hh0 by (unfold h0; rewrite length_put32; unfold BSIZE in *; lia).
  unfold write_head. wp_steps. fold n0. rewrite G1, !u32_small by lia.
  apply wp_bio. eapply wp_bread; [done|set_solver|lia|right; by rewrite union_empty_r_L|].
  rewrite union_empty_r_L. intros b bs1 s1 R1 O1 _. wp_steps.
  apply wp_bio. eapply wp_store32; [exact R1|exact O1|set_solver|unfold BSIZE in *; lia|].
  intros bs2 s2 R2 F2. wp_steps.
  eapply wp_mono; [apply (wp_forM _ _ (fun k s' => lg s' = lg s /\
    rep (lb s') (<[n0 := put_secs h0 (take k (logged (lg s)))]> V) D {[n0]} /\
    owned (lb s') b n0 /\ wrote (lb s) (lb s') []))|].
  - split_and!; [done|done|by apply F2|by apply wrote_nil].
  - intros k i s' Hk (El & R' & O' & W'). apply seq_lookup_eq in Hk as [-> Hk].
    destruct (lookup_lt_is_Some_2 (logged (lg s)) k) as [t Ht]; [lia|].
    destruct (logged_lookup _ _ _ Ht) as [Ht' _].
    wp_steps. eapply wp_lift_opt; [done|]. apply wp_bio.
    destruct (put_secs_spec h0 (take k (logged (lg s)))) as (L & _);
      [done|rewrite length_take; unfold NBUF in *; lia|].
    assert (length (take k (logged (lg s))) = k) as Htk by (rewrite length_take; lia).
    eapply wp_store32; [exact R'|exact O'|set_solver|rewrite fn_lookup_insert, L; unfold BSIZE, NBUF in *; lia|].
    intros bs3 s3 R3 F3. cbn [lg lb]. split_and!; [done| |by apply F3|].
    + eapply rep_ext; [|exact R3]. intros m _. rewrite insert_insert_view.
      by rewrite fn_lookup_insert, (take_S_r _ _ _ Ht), put_secs_snoc, Htk.
    + destruct W' as (W1 & W2 & W3). by split_and!.
  - intros [] [l' b'] (El & R' & O' & W'). cbn [lg lb] in *. subst l'. wp_steps.
    rewrite length_seq, <- Hlen, firstn_all in R'.
    assert (put_secs h0 (logged (lg s)) = make_head (V n0) (logged (lg s))) as Eh.
    { unfold make_head, h0. rewrite Hlen, Z2Nat.id by lia. done. }
    rewrite Eh in R'.
    apply wp_bio. eapply wp_bwrite; [exact R'|exact O'|set_solver|].
    intros bs4 s4 R4 F4. apply wp_bio.
    destruct (rep_owned_buf _ _ _ _ _ _ R' O') as (_ & _ & _ & _ & _ & Hr & _).
    eapply wp_brelse; [exact R4|by apply F4|set_solver| |].
    { right. cbn [lb disk s4]. apply list_lookup_insert_eq. lia. }
    intros bs5 s5 R5 F5. apply HQ.
    + replace (D ∖ {[n0]}) with D in R5 by set_solver.
      by rewrite difference_diag_L in R5.
    + destruct W' as (W1 & W2 & W3 & W4). unfold wrote, same_ctx, s5, s4.
      cbn [disk hist bctx held killed lb apply_writes foldl fst snd].
      rewrite W1, W2, W3, W4, fn_lookup_insert, app_nil_r. done.
Qed.

Lemma wp_read_head s V Q :
  geom (lg s) (Z.of_nat (length (disk (lb s)))) -> length (lh_sector (lg s)) = 30%nat ->
  rep (lb s) V ∅ ∅ -> let h := V (lstart (lg s)) in length h = BSIZE -> 0 <= hdr_n h < Z.of_nat NBUF ->
  (forall b' secs', take (Z.to_nat (hdr_n h)) secs' = hdr_secs h -> length secs' = 30%nat ->
     rep b' V ∅ ∅ -> wrote (lb s) b' [] -> Q tt (mklogst (w_lsector secs' (w_n (hdr_n h) (lg s))) b')) ->
  wp read_head Q s.
Proof.
  intros [G1 G2 G3 G4 G5] H30 R h Hh Hn HQ. set (n0 := lstart (lg s)) in *.
  assert (length (hdr_secs h) = Z.to_nat (hdr_n h)) as Hlen
    by (unfold hdr_secs; by rewrite length_fmap, length_seq).
  unfold read_head. wp_steps. fold n0. rewrite G1, !u32_small by lia.
  apply wp_bio. eapply wp_bread; [done|set_solver|lia|right; rewrite union_empty_r_L, size_empty; unfold NBUF; lia|].
  rewrite union_empty_r_L. intros b bs1 s1 R1 O1 _. wp_steps.
  apply wp_bio. eapply wp_buf_data; [done..|]. fold h. wp_steps.
  eapply wp_lift_opt; [unfold rd32; by rewrite Hh|]. unfold mod_log at 1. wp_steps. fold (hdr_n h).
  set (s2 := mklogst _ _).
  eapply wp_mono; [apply (wp_forM _ _ (fun k s' => lb s' = s1 /\
    lg s' = w_lsector (take k (hdr_secs h) ++ drop k (lh_sector (lg s))) (w_n (hdr_n h) (lg s))))|].
  - split; [done|]. unfold s2. by destruct (lg s).
  - intros k i s' Hk (Eb & El). apply seq_lookup_eq in Hk as [-> Hk]. unfold NBUF in *.
    destruct (lookup_lt_is_Some_2 (hdr_secs h) k) as [t Ht]; [lia|].
    wp_steps. eapply wp_lift_opt.
    { unfold rd32. rewrite Hh. rewrite (proj2 (Nat.leb_le _ _)) by (unfold BSIZE; lia). done. }
    fold (hdr_sec h k). unfold set_sector. wp_steps. rewrite El. cbn [lh_sector w_lsector].
    assert (length (take k (hdr_secs h)) = k) as Htk by (rewrite length_take; lia).
    destruct (lookup_lt_is_Some_2 (lh_sector (lg s)) k) as [x Hx]; [lia|].
    eapply wp_lift_opt.
    { rewrite lookup_app_r, Htk, Nat.sub_diag, lookup_drop, Nat.add_0_r by lia. exact Hx. }
    unfold mod_log. wp_steps. split; [done|]. cbn [lg lb]. rewrite El. unfold w_lsector. simpl.
    f_equal. rewrite insert_app_r_alt, Htk, Nat.sub_diag by lia.
    rewrite (drop_S _ _ _ Hx). simpl. rewrite (take_S_r _ _ _ Ht), <- app_assoc. simpl.
    do 2 f_equal. unfold hdr_secs in Ht. rewrite list_lookup_fmap, lookup_seq_lt in Ht by lia.
    by simplify_eq/=.
  - intros [] [l' b'] (Eb & El). cbn [lg lb] in *. subst l' b'.
    apply wp_bio. eapply wp_brelse; [exact R1|exact O1|set_solver| |].
    { right. cbn [lb]. apply (rep_disk _ _ _ _ R); [lia|set_solver..]. }
    intros bs5 s5 R5 F5. cbn [lg]. apply HQ.
    + rewrite length_seq, <- Hlen, firstn_all, take_app_length. done.
    + rewrite length_seq, length_app, length_take, length_drop. unfold NBUF in *. lia.
    + by rewrite difference_diag_L in R5.
    + by apply wrote_nil.
Qed.

(** ** Views of a disk after writes *)

Definition in_range (nd : Z) (w : list (Z * list Z)) : Prop := Forall (fun x => 0 <= fst x < nd) w.

Lemma disk_view_insert d k p m :
  0 <= m -> 0 <= k < Z.of_nat (length d) ->
  disk_view (<[Z.to_nat k := p]> d) m = (<[k := p]> (disk_view d)) m.
Proof.
  intros Hm Hk. unfold disk_view. destruct (decide (m = k)) as [->|Hne].
  - rewrite fn_lookup_insert, list_lookup_insert_eq by lia. done.
  - rewrite fn_lookup_insert_ne, list_lookup_insert_ne by (done || lia). done.
Qed.

Lemma view_apply w d m :
  0 <= m -> in_range (Z.of_nat (length d)) w ->
  disk_view (apply_writes w d) m = apply_view w (disk_view d) m.
Proof.
  intros Hm. induction w as [|x w IH] using rev_ind; intros Hw; [done|].
  apply Forall_app in Hw as [Hw Hx]. rewrite list.Forall_singleton in Hx.
  rewrite apply_app, apply_view_snoc. simpl.
  rewrite disk_view_insert by (rewrite ?length_apply; lia).
  destruct (decide (m = fst x)) as [->|Hne]; [by rewrite !fn_lookup_insert|].
  rewrite !fn_lookup_insert_ne by done. auto.
Qed.

Lemma apply_view_app w1 w2 V : apply_view (w1 ++ w2) V = apply_view w2 (apply_view w1 V).
Proof. apply foldl_app. Qed.

Lemma apply_view_cons x w V : apply_view (x :: w) V = apply_view w (<[fst x := snd x]> V).
Proof. done. Qed.

Lemma apply_view_last w1 w2 V m p :
  (forall x, x ∈ w2 -> fst x <> m) -> apply_view (w1 ++ (m, p) :: w2) V m = p.
Proof.
  intros H. rewrite apply_view_app. simpl. rewrite apply_view_other by done.
  by rewrite fn_lookup_insert.
Qed.

Lemma apply_view_map secs (V V0 : Z -> list Z) m :
  apply_view ((fun t => (t, V t)) <$> secs) V0 m = if decide (m ∈ secs) then V m else V0 m.
Proof.
  induction secs as [|t secs IH] using rev_ind; [by rewrite decide_False by set_solver|].
  rewrite fmap_app. change ((fun t => (t, V t)) <$> [t]) with [(t, V t)].
  rewrite apply_view_snoc. simpl. destruct (decide (m = t)) as [->|Hne].
  - rewrite fn_lookup_insert, decide_True by set_solver. done.
  - rewrite fn_lookup_insert_ne by done. rewrite IH. repeat case_decide; set_solver.
Qed.

Lemma apply_view_log st V V0 secs i t :
  secs !! i = Some t ->
  apply_view (log_writes st V secs) V0 (st + Z.of_nat i + 1) = V t.
Proof.
  revert i t. induction secs as [|u secs IH] using rev_ind; intros i t Hi; [done|].
  unfold log_writes. rewrite imap_app. cbn [imap].
  rewrite apply_view_snoc. cbn [fst snd]. rewrite Nat.add_0_r. destruct (decide (i = length secs)) as [->|Hne].
  - rewrite lookup_app_r, Nat.sub_diag in Hi by lia. simplify_eq/=. by rewrite fn_lookup_insert.
  - apply lookup_lt_Some in Hi as Hlt. rewrite length_app in Hlt. simpl in Hlt.
    rewrite lookup_app_l in Hi by lia. rewrite fn_lookup_insert_ne by lia. by apply IH.
Qed.

(** Log blocks that hold the logged sectors install them. *)
Lemma home_writes_logged st V V' secs :
  (forall i t, secs !! i = Some t -> V' (st + Z.of_nat i + 1) = V t) ->
  home_writes st V' secs = (fun t => (t, V t)) <$> secs.
Proof.
  intros H. unfold home_writes. apply list_eq. intros i.
  rewrite list_lookup_imap, list_lookup_fmap. destruct (secs !! i) as [t|] eqn:E; [|done].
  simpl. by rewrite (H i t E).
Qed.

(** ** commit *)

(** The sector writes of a commit, in order: the logged blocks to the log, the header
    (the commit point), the blocks to their homes, the cleared header. *)
Definition commit_writes (st : Z) (V : Z -> list Z) (h : list Z) (secs : list Z) :
    list (Z * list Z) :=
  log_writes st V secs ++ (st, make_head h secs) ::
  ((fun t => (t, V t)) <$> secs) ++ [(st, make_head (make_head h secs) [])].

Lemma log_writes_ne st V secs m x : m <= st -> x ∈ log_writes st V secs -> fst x <> m.
Proof. intros Hm Hx. apply log_writes_elem in Hx as (i & t & _ & ->). simpl. lia. Qed.

Lemma wp_commit s V Q :
  geom (lg s) (Z.of_nat (length (disk (lb s)))) -> log_fits (lg s) ->
  rep (lb s) V (list_to_set (logged (lg s))) ∅ -> NoDup (logged (lg s)) -> 0 < lh_n (lg s) ->
  length (V (lstart (lg s))) = BSIZE ->
  (forall b' V', rep b' V' ∅ ∅ -> (forall m, 0 <= m < lstart (lg s) -> V' m = V m) ->
     wrote (lb s) b' (commit_writes (lstart (lg s)) V (V (lstart (lg s))) (logged (lg s))) ->
     Q tt (mklogst (w_n 0 (lg s)) b')) ->
  wp commit Q s.
Proof.
  intros G LF R ND Hn Hh HQ. set (st := lstart (lg s)) in *. set (secs := logged (lg s)) in *.
  assert (Hsecs : forall t, t ∈ secs -> 0 <= t < st) by (intros t Ht; by apply (lf_home _ LF)).
  unfold commit. wp_steps. rewrite (proj2 (Z.ltb_lt _ _) Hn). wp_steps.
  eapply wp_write_log; [done..|]. fold st secs. intros b1 w1 R1 W1.
  assert (apply_view w1 V st = V st) as E1.
  { apply apply_view_other. intros x. by apply log_writes_ne. }
  wp_steps. eapply wp_write_head; cbn [lg lb]; fold st secs;
    [by rewrite (wrote_len _ _ _ W1)|done|exact R1| | |by rewrite E1|].
  { rewrite size_list_to_set by done. unfold secs. rewrite length_logged by done.
    pose proof (lf_n _ LF). lia. }
  { intros m Hm. apply elem_of_list_to_set in Hm. by apply LF. }
  intros b2 R2 W2. rewrite E1 in R2, W2.
  set (H1 := make_head (V st) secs) in *. cbn [lb] in W2.
  pose proof (wrote_trans _ _ _ _ _ W1 W2) as W12.
  wp_steps. eapply wp_install_trans; cbn [lg lb]; fold st secs;
    [by rewrite (wrote_len _ _ _ W12)|done|exact R2|by right|].
  rewrite (home_writes_logged st V).
  2:{ intros i t Hi. rewrite fn_lookup_insert_ne by lia. by apply apply_view_log. }
  intros b3 R3 W3. pose proof (wrote_trans _ _ _ _ _ W12 W3) as W123.
  set (w3 := (fun t : Z => (t, V t)) <$> secs) in *.
  set (V3 := apply_view w3 _) in R3.
  assert (V3 st = H1) as E3.
  { unfold V3, w3. rewrite apply_view_map, decide_False; [by rewrite fn_lookup_insert|].
    intros Hs. apply Hsecs in Hs. lia. }
  assert (HL : length H1 = BSIZE).
  { apply make_head_spec; [done|..].
    - unfold secs. rewrite length_logged by done. pose proof (lf_n _ LF). unfold NBUF in *. lia.
    - apply list.Forall_forall. intros t Ht. destruct G. apply Hsecs in Ht. fold st in g_end0. lia. }
  unfold mod_log. wp_steps. eapply wp_write_head with (D := ∅); cbn [lg lb lstart w_n]; fold st.
  - rewrite (wrote_len _ _ _ W123). destruct G. by constructor.
  - destruct LF. constructor; cbn [lh_sector lh_n lsize w_n]; [done|unfold NBUF; lia|lia|].
    intros m Hm. unfold logged in Hm. simpl in Hm. set_solver.
  - exact R3.
  - rewrite size_empty. unfold NBUF. lia.
  - intros m Hm. by apply not_elem_of_empty in Hm.
  - by rewrite E3.
  - intros b4 R4 W4. rewrite E3 in R4, W4.
    pose proof (wrote_trans _ _ _ _ _ W123 W4) as W. rewrite <- !app_assoc in W.
    eapply HQ; [exact R4| |exact W]. intros m Hm. rewrite fn_lookup_insert_ne by lia.
    unfold V3, w3. rewrite apply_view_map. case_decide; [done|].
    rewrite fn_lookup_insert_ne by lia. apply apply_view_other.
    intros x Hx. eapply log_writes_ne; [|exact Hx]. lia.
Qed.

(** ** Recovery *)

(** A disk that recovery handles: a super block that gives the geometry, a header
    within the log, homes for its sectors. *)
Record valid_log (d : list (list Z)) (st sz : Z) : Prop := {
  vl_blocks : blocks_ok d;
  vl_start : i32 (u32 (sb_size (sb_of (disk_view d 1)) - sb_nlog (sb_of (disk_view d 1)))) = st;
  vl_size : i32 (sb_nlog (sb_of (disk_view d 1))) = sz;
  vl_geom : 2 <= st /\ 1 <= sz /\ st + sz <= Z.of_nat (length d) /\ Z.of_nat (length d) < 2 ^ 31;
  vl_n : 0 <= hdr_n (disk_view d st) < Z.min (Z.of_nat NBUF) sz;
  vl_home : forall m, m ∈ hdr_secs (disk_view d st) -> 0 <= m < st /\ m <> 1 }.

(** The sector writes of recovery. *)
Definition recovery_writes (d : list (list Z)) (st : Z) : list (Z * list Z) :=
  home_writes st (disk_view d) (hdr_secs (disk_view d st)) ++
  [(st, make_head (disk_view d st) [])].

Lemma view_block d m : blocks_ok d -> 0 <= m < Z.of_nat (length d) -> length (disk_view d m) = BSIZE.
Proof.
  intros H Hm. unfold disk_view.
  destruct (lookup_lt_is_Some_2 d (Z.to_nat m)) as [p Hp]; [lia|]. rewrite Hp. simpl.
  unfold blocks_ok in H. rewrite list.Forall_lookup in H. by eapply H.
Qed.

Lemma wp_readsb s V Q :
  rep s V ∅ ∅ -> 1 < Z.of_nat (length (disk s)) ->
  (forall b', rep b' V ∅ ∅ -> wrote s b' [] -> Q (sb_of (V 1)) b') ->
  wp (readsb 1) Q s.
Proof.
  intros R Hl HQ. unfold readsb. wp_steps.
  eapply wp_bread; [done|set_solver|lia|right; rewrite union_empty_r_L, size_empty; unfold NBUF; lia|].
  rewrite union_empty_r_L. intros b bs1 s1 R1 O1 _. wp_steps. eapply wp_buf_data; [done..|].
  wp_steps. eapply wp_brelse; [exact R1|exact O1|set_solver| |].
  { right. apply (rep_disk _ _ _ _ R); [lia|set_solver..]. }
  intros bs2 s2 R2 _. wp_steps. apply HQ; [by rewrite difference_diag_L in R2|by apply wrote_nil].
Qed.

Lemma rep_disk_view b V : rep b V ∅ ∅ -> rep b (disk_view (disk b)) ∅ ∅.
Proof.
  intros R. eapply rep_ext; [|exact R]. intros n Hn. unfold disk_view.
  by rewrite (rep_disk _ _ _ _ R n Hn) by set_solver.
Qed.

Lemma wp_recover d st sz n0 secs0 b0 (Q : unit -> logst -> Prop) :
  valid_log d st sz -> rep b0 (disk_view d) ∅ ∅ -> length (disk b0) = length d ->
  length secs0 = 30%nat ->
  (forall b' V' secs, rep b' V' ∅ ∅ -> wrote b0 b' (recovery_writes d st) ->
     length secs = 30%nat -> Q tt (mklogst (mklog st sz 0 0 1 0 secs) b')) ->
  wp recover_from_log Q (mklogst (mklog st sz 0 0 1 n0 secs0) b0).
Proof.
  intros [V1 V2 V3 (V4 & V5 & V6 & V7) V8 V9] R1 L1 H0 HQ.
  unfold recover_from_log. wp_steps.
  eapply wp_read_head; cbn [lg lb lstart];
    [rewrite L1; by constructor|done|exact R1|apply view_block; [done|lia]|lia|].
  unfold w_lsector, w_n. cbn [lsize lstart outstanding committing ldev lh_n lh_sector].
  intros b2 secs Hs H30 R2 W2. pose proof (wrote_len _ _ _ W2) as L2. wp_steps.
  eapply (wp_install_trans _ (disk_view d) ∅); unfold logged; cbn [lg lb lh_sector lh_n lstart];
    [rewrite L2, L1; by constructor| |exact R2|by left|].
  { constructor; unfold logged; cbn [lh_sector lh_n lsize]; [done|lia|lia|].
    rewrite Hs. intros m Hm. apply V9 in Hm. done. }
  rewrite Hs. intros b3 R3 W3. pose proof (wrote_trans _ _ _ _ _ W2 W3) as W23.
  set (w3 := home_writes st _ _) in *. pose proof (wrote_len _ _ _ W23) as L3.
  assert (apply_view w3 (disk_view d) st = disk_view d st) as E3.
  { apply apply_view_other. intros x Hx. apply home_writes_elem in Hx as (i & t & Ht & ->).
    simpl. apply list_elem_of_lookup_2, V9 in Ht. lia. }
  unfold mod_log, w_n. wp_steps. cbn [lg lb lsize lstart outstanding committing ldev lh_n lh_sector].
  eapply (wp_write_head _ (apply_view w3 (disk_view d)) ∅); cbn [lg lb lstart];
    [rewrite L3, L1; by constructor| |exact R3|rewrite size_empty; unfold NBUF; lia| | |].
  { constructor; cbn [lh_sector lh_n lsize]; [done|unfold NBUF; lia|lia|].
    unfold logged. simpl. intros m Hm. inversion Hm. }
  { intros m Hm. by apply not_elem_of_empty in Hm. }
  { rewrite E3. apply view_block; [done|lia]. }
  intros b4 R4 W4. rewrite E3 in W4. eapply HQ; [exact R4| |done].
  by apply (wrote_trans _ _ _ _ _ W23 W4).
Qed.

(** The boot on a valid disk: it returns with the log's sectors installed and the header
    cleared. *)
Lemma wp_mount d st sz :
  valid_log d st sz ->
  wp mount (fun _ s => rep (lb s) (disk_view (disk (lb s))) ∅ ∅ /\
    disk (lb s) = apply_writes (recovery_writes d st) d /\
    hist (lb s) = recovery_writes d st /\ held (bctx (lb s)) = [] /\
    exists secs, length secs = 30%nat /\ lg s = mklog st sz 0 0 1 0 secs) (power_on d).
Proof.
  intros VL. pose proof VL as [V1 V2 V3 (V4 & V5 & V6 & V7) V8 V9].
  unfold mount. wp_steps. apply wp_bio. eapply wp_of_run; [apply binit_boot|]. unfold initlog.
  rewrite (proj2 (Z.leb_gt _ _)) by (unfold BSIZE, LOGSIZE, MAXOPBLOCKS; lia).
  wp_steps. apply wp_bio. eapply wp_readsb; [apply rep_boot|simpl; lia|].
  intros b1 R1 W1. unfold mod_log. wp_steps. rewrite V2, V3.
  eapply wp_recover; [done|exact R1|exact (wrote_len _ _ _ W1)|done|].
  intros b' V' secs R' W' Hs. pose proof (wrote_trans _ _ _ _ _ W1 W') as (D & H & C & _).
  split_and!; [by eapply rep_disk_view|exact D|exact H|exact C|]. by exists secs.
Qed.

(** ** Crashes *)

(** [recovers d st sz C]: recovery on [d] restores the contents [C] of the blocks of the
    file system. *)
Definition recovers (d : list (list Z)) (st sz : Z) (C : Z -> list Z) : Prop :=
  valid_log d st sz /\
  forall m, 0 <= m < st -> disk_view (apply_writes (recovery_writes d st) d) m = C m.

Lemma prefix_app_cases {A} (P l1 l2 : list A) :
  P `prefix_of` l1 ++ l2 -> P `prefix_of` l1 \/ exists P', P = l1 ++ P' /\ P' `prefix_of` l2.
Proof.
  revert P. induction l1 as [|x l1 IH]; intros P H; [right; by exists P|].
  destruct P as [|y P]; [left; apply prefix_nil|]. simpl in H.
  apply prefix_cons_inv_1 in H as Exy. apply prefix_cons_inv_2 in H. subst y.
  destruct (IH P H) as [H1|(P' & -> & H1)]; [left; by apply prefix_cons|right]. by exists P'.
Qed.

Lemma prefix_elem {A} (P l : list A) x : P `prefix_of` l -> x ∈ P -> x ∈ l.
Proof. intros [k ->]. set_solver. Qed.

Lemma prefix_Forall {A} (R : A -> Prop) P l : P `prefix_of` l -> Forall R l -> Forall R P.
Proof. intros [k ->] H. by apply Forall_app in H as [? _]. Qed.

(** A write list that stays inside the log and the homes of [secs], with whole blocks,
    and ends with a good header, leaves a valid log. *)
Lemma valid_log_apply d st sz w secs h :
  valid_log d st sz -> (length secs < NBUF)%nat -> Z.of_nat (length secs) < sz ->
  (forall m, m ∈ secs -> 0 <= m < st /\ m <> 1) ->
  in_range (Z.of_nat (length d)) w -> Forall (fun x => length (snd x) = BSIZE) w ->
  (forall x, x ∈ w -> fst x <> 1) ->
  apply_view w (disk_view d) st = h -> hdr_n h = Z.of_nat (length secs) -> hdr_secs h = secs ->
  valid_log (apply_writes w d) st sz.
Proof.
  intros [V1 V2 V3 V4 V5 V6] Hl Hsz Hs Hr Hb H1 Hh Hn Hsecs.
  assert (disk_view (apply_writes w d) 1 = disk_view d 1) as E1.
  { rewrite view_apply by (done || lia). by apply apply_view_other. }
  assert (disk_view (apply_writes w d) st = h) as Est by (rewrite view_apply by (done || lia); done).
  constructor.
  - by apply blocks_ok_apply.
  - by rewrite E1.
  - by rewrite E1.
  - by rewrite length_apply.
  - rewrite Est, Hn. lia.
  - rewrite Est, Hsecs. done.
Qed.

Lemma make_head_nil h : make_head h [] = put32 h 0 0.
Proof. done. Qed.

Lemma in_range_home nd st V (secs : list Z) :
  st <= nd -> (forall m, m ∈ secs -> 0 <= m < st) -> in_range nd (home_writes st V secs).
Proof.
  intros Hn Hs. apply list.Forall_forall. intros x Hx.
  apply home_writes_elem in Hx as (i & t & Ht & ->). simpl.
  apply list_elem_of_lookup_2, Hs in Ht. lia.
Qed.

(** Recovery on a valid disk, and the contents it restores. *)
Lemma recovery_view d st sz m :
  valid_log d st sz -> 0 <= m < st ->
  disk_view (apply_writes (recovery_writes d st) d) m =
  apply_view (home_writes st (disk_view d) (hdr_secs (disk_view d st))) (disk_view d) m.
Proof.
  intros [V1 V2 V3 V4 V5 V6] Hm. unfold recovery_writes. rewrite view_apply; [|lia|].
  - rewrite apply_view_snoc. simpl. by rewrite fn_lookup_insert_ne by lia.
  - apply Forall_app. split; [|apply list.Forall_singleton; simpl; lia].
    apply in_range_home; [lia|]. intros t Ht. by apply V6.
Qed.

(** Recovery that finds the header [secs] with their contents in the log. *)
Lemma recovers_logged d st sz (V : Z -> list Z) secs :
  valid_log d st sz -> hdr_secs (disk_view d st) = secs ->
  (forall i t, secs !! i = Some t -> disk_view d (st + Z.of_nat i + 1) = V t) ->
  (forall m, 0 <= m < st -> m ∉ secs -> disk_view d m = V m) ->
  recovers d st sz V.
Proof.
  intros VL Hs Hlog Hhome. split; [done|]. intros m Hm. rewrite (recovery_view d st sz) by done.
  rewrite Hs, (home_writes_logged st V) by done. rewrite apply_view_map.
  case_decide; [done|]. auto.
Qed.

Section CommitCrash.
Context (d : list (list Z)) (st sz : Z) (V : Z -> list Z) (secs : list Z).
Hypothesis VL : valid_log d st sz.
Hypothesis Hclear : hdr_n (disk_view d st) = 0.
Hypothesis Hnum : (length secs < NBUF)%nat /\ Z.of_nat (length secs) < sz.
Hypothesis Hhome : forall m, m ∈ secs -> 0 <= m < st /\ m <> 1.
Hypothesis Hblk : forall m, m ∈ secs -> length (V m) = BSIZE.
Hypothesis Hsame : forall m, 0 <= m < st -> m ∉ secs -> V m = disk_view d m.

Let h := disk_view d st.
Let lw := log_writes st V secs.
Let hw := (fun t => (t, V t)) <$> secs.

Lemma cc_head :
  length h = BSIZE /\ length (make_head h secs) = BSIZE /\
  hdr_n (make_head h secs) = Z.of_nat (length secs) /\ hdr_secs (make_head h secs) = secs.
Proof.
  destruct VL as [V1 V2 V3 V4 V5 V6].
  assert (length h = BSIZE) as Hh by (apply view_block; [done|lia]).
  split; [done|]. apply make_head_spec; [done|unfold NBUF in *; lia|].
  apply list.Forall_forall. intros t Ht. apply Hhome in Ht. lia.
Qed.

Lemma cc_log x : x ∈ lw -> st < fst x < st + sz /\ length (snd x) = BSIZE.
Proof.
  intros Hx. apply log_writes_elem in Hx as (i & t & Ht & ->). simpl.
  apply lookup_lt_Some in Ht as Hi. apply list_elem_of_lookup_2 in Ht.
  split; [lia|auto].
Qed.

Lemma cc_homew x : x ∈ hw -> 0 <= fst x < st /\ fst x <> 1 /\ fst x ∈ secs /\ length (snd x) = BSIZE.
Proof.
  intros Hx. apply list_elem_of_fmap in Hx as (t & -> & Ht). simpl.
  destruct (Hhome t Ht). auto.
Qed.

(** The writes of a commit are whole blocks, on the disk, and not to the super block. *)
Lemma cc_writes x :
  x ∈ commit_writes st V h secs ->
  0 <= fst x < Z.of_nat (length d) /\ fst x <> 1 /\ length (snd x) = BSIZE.
Proof.
  destruct VL as [V1 V2 V3 V4 V5 V6]. destruct cc_head as (H1 & H2 & _).
  unfold commit_writes. fold lw hw. intros Hx. apply elem_of_app in Hx as [Hx|Hx].
  - apply cc_log in Hx as [? ?]. split_and!; (done || lia).
  - apply elem_of_cons in Hx as [->|Hx]; [simpl; split_and!; (done || lia)|].
    apply elem_of_app in Hx as [Hx|Hx].
    + apply cc_homew in Hx as (? & ? & _ & ?). split_and!; (done || lia).
    + apply list_elem_of_singleton in Hx as ->. cbn [fst snd]. split_and!; [lia..|].
      apply make_head_spec; [done|simpl; lia|constructor].
Qed.

Lemma cc_prefix P :
  P `prefix_of` commit_writes st V h secs ->
  in_range (Z.of_nat (length d)) P /\ Forall (fun x => length (snd x) = BSIZE) P /\
  (forall x, x ∈ P -> fst x <> 1).
Proof.
  intros HP. split_and!.
  - apply list.Forall_forall. intros x Hx. eapply cc_writes, prefix_elem; done.
  - apply list.Forall_forall. intros x Hx. eapply cc_writes, prefix_elem; done.
  - intros x Hx. eapply cc_writes, prefix_elem; done.
Qed.

(** A crash before the header is written: nothing happened. *)
Lemma crash_before P : P `prefix_of` lw -> recovers (apply_writes P d) st sz (disk_view d).
Proof.
  intros HP.
  assert (P `prefix_of` commit_writes st V h secs) as HP' by (by apply prefix_app_r).
  destruct (cc_prefix P HP') as (F1 & F2 & F3).
  destruct VL as [V1 V2 V3 V4 V5 V6].
  assert (forall m, 0 <= m <= st -> disk_view (apply_writes P d) m = disk_view d m) as E.
  { intros m Hm. rewrite view_apply by (done || lia). apply apply_view_other.
    intros x Hx. pose proof (cc_log x (prefix_elem _ _ _ HP Hx)). lia. }
  assert (hdr_secs (disk_view (apply_writes P d) st) = []) as Hs.
  { rewrite E by lia. unfold hdr_secs. by rewrite Hclear. }
  apply (recovers_logged _ _ _ _ []); [|done|done|intros; apply E; lia].
  eapply (valid_log_apply d st sz P [] h); try done.
  - simpl. unfold NBUF. lia.
  - simpl. lia.
  - intros m Hm. inversion Hm.
  - rewrite <- view_apply by (done || lia). apply E. lia.
  - unfold hdr_secs. fold h in Hclear. by rewrite Hclear.
Qed.

(** The disk after the header and some of the home writes: the header names [secs] and
    the log has their contents. *)
Lemma cc_installing P (d' := apply_writes (lw ++ (st, make_head h secs) :: P) d) :
  P `prefix_of` hw ->
  disk_view d' st = make_head h secs /\
  (forall i t, secs !! i = Some t -> disk_view d' (st + Z.of_nat i + 1) = V t) /\
  (forall m, 0 <= m < st -> m ∉ secs -> disk_view d' m = V m).
Proof.
  intros HP. destruct VL as [V1 V2 V3 V4 V5 V6].
  assert (lw ++ (st, make_head h secs) :: P `prefix_of` commit_writes st V h secs) as HP'.
  { apply prefix_app, prefix_cons. by apply prefix_app_r. }
  destruct (cc_prefix _ HP') as (F1 & _ & _).
  assert (forall x, x ∈ P -> 0 <= fst x < st /\ fst x ∈ secs) as HPh.
  { intros x Hx. pose proof (cc_homew x (prefix_elem _ _ _ HP Hx)). tauto. }
  assert (forall m, 0 <= m -> disk_view d' m =
    apply_view (lw ++ (st, make_head h secs) :: P) (disk_view d) m) as E
    by (intros m Hm; by apply view_apply).
  split_and!.
  - rewrite E by lia. apply apply_view_last. intros x Hx. apply HPh in Hx. lia.
  - intros i t Hi. rewrite E, apply_view_app, apply_view_cons by lia. cbn [fst snd].
    rewrite apply_view_other; [|intros x Hx; apply HPh in Hx; lia].
    rewrite fn_lookup_insert_ne by lia. by apply apply_view_log.
  - intros m Hm Hns. rewrite E, apply_view_app, apply_view_cons by lia. cbn [fst snd].
    rewrite apply_view_other; [|intros x Hx; apply HPh in Hx as [_ Hx]; congruence].
    rewrite fn_lookup_insert_ne by lia. rewrite apply_view_other; [by rewrite Hsame|].
    intros x Hx. apply cc_log in Hx. lia.
Qed.

(** A crash after the header is written: the transaction happened. *)
Lemma crash_after P :
  P `prefix_of` hw -> recovers (apply_writes (lw ++ (st, make_head h secs) :: P) d) st sz V.
Proof.
  intros HP. destruct (cc_installing P HP) as (E1 & E2 & E3). destruct cc_head as (_ & _ & H3 & H4).
  assert (lw ++ (st, make_head h secs) :: P `prefix_of` commit_writes st V h secs) as HP'.
  { apply prefix_app, prefix_cons. by apply prefix_app_r. }
  destruct (cc_prefix _ HP') as (F1 & F2 & F3).
  eapply (recovers_logged _ _ _ _ secs); [|by rewrite E1|done|done].
  apply (valid_log_apply d st sz _ secs (make_head h secs)); try done; try lia.
  rewrite <- view_apply; [done| |done]. destruct VL as [_ _ _ V4 _ _]. lia.
Qed.

Lemma cc_clear (h0 := make_head (make_head h secs) []) :
  apply_view (commit_writes st V h secs) (disk_view d) st = h0 /\ hdr_n h0 = 0 /\
  hdr_n (disk_view (apply_writes (commit_writes st V h secs) d) st) = 0.
Proof.
  destruct (cc_prefix _ (reflexivity _)) as (F1 & F2 & F3).
  destruct cc_head as (H1 & H2 & H3 & H4). destruct VL as [V1 V2 V3 V4 V5 V6].
  destruct (make_head_spec (make_head h secs) []) as (L0 & N0 & S0); [done|simpl; lia|constructor|].
  assert (apply_view (commit_writes st V h secs) (disk_view d) st = h0) as Est.
  { unfold commit_writes. rewrite app_comm_cons, app_assoc.
    apply apply_view_last. intros x Hx. inversion Hx. }
  split_and!; [done|done|]. rewrite view_apply by (done || lia). by rewrite Est.
Qed.

(** The whole commit, header cleared. *)
Lemma crash_done : recovers (apply_writes (commit_writes st V h secs) d) st sz V.
Proof.
  destruct (cc_prefix _ (reflexivity _)) as (F1 & F2 & F3).
  destruct cc_clear as (Est & N0 & _). destruct VL as [V1 V2 V3 V4 V5 V6].
  set (h0 := make_head (make_head h secs) []) in *.
  assert (hdr_secs h0 = []) as S0 by (unfold hdr_secs; by rewrite N0).
  eapply (recovers_logged _ _ _ _ []); [..|done|].
  - apply (valid_log_apply d st sz _ [] h0); try done; [simpl; unfold NBUF; lia|simpl; lia|].
    intros m Hm. inversion Hm.
  - rewrite view_apply by (done || lia). by rewrite Est.
  - intros m Hm _. rewrite view_apply by (done || lia). unfold commit_writes.
    rewrite app_comm_cons, app_assoc, apply_view_snoc. cbn [fst snd].
    rewrite fn_lookup_insert_ne, apply_view_app, apply_view_cons by lia. cbn [fst snd].
    rewrite apply_view_map. case_decide; [done|].
    rewrite fn_lookup_insert_ne by lia.
    rewrite apply_view_other; [by rewrite Hsame|]. intros x Hx. apply cc_log in Hx. lia.
Qed.

(** Whatever prefix of a commit's writes is done, recovery restores the contents before
    it or the contents after it. *)
Lemma crash_commit P :
  P `prefix_of` commit_writes st V h secs ->
  recovers (apply_writes P d) st sz (disk_view d) \/ recovers (apply_writes P d) st sz V.
Proof.
  unfold commit_writes. fold lw hw. intros HP.
  apply prefix_app_cases in HP as [HP|(P1 & -> & HP)]; [left; by apply crash_before|].
  destruct P1 as [|x P1]; [left; rewrite app_nil_r; by apply crash_before|].
  pose proof (prefix_cons_inv_1 _ _ _ _ HP) as ->. apply prefix_cons_inv_2 in HP. right.
  apply prefix_app_cases in HP as [HP|(P2 & -> & HP)]; [by apply crash_after|].
  destruct P2 as [|y P2]; [rewrite app_nil_r; by apply crash_after|].
  pose proof (prefix_cons_inv_1 _ _ _ _ HP) as ->. apply prefix_cons_inv_2 in HP.
  apply prefix_nil_inv in HP as ->. apply crash_done.
Qed.
End CommitCrash.

(** What a write list leaves depends on the old contents only where it does not write. *)
Lemma apply_view_eq w (V V' : Z -> list Z) m :
  (V m = V' m \/ exists x, x ∈ w /\ fst x = m) -> apply_view w V m = apply_view w V' m.
Proof.
  induction w as [|x w IH] using rev_ind; intros H.
  - destruct H as [H|(x & Hx & _)]; [done|inversion Hx].
  - rewrite !apply_view_snoc. destruct (decide (m = fst x)) as [->|Hne].
    + by rewrite !fn_lookup_insert.
    + rewrite !fn_lookup_insert_ne by done. apply IH. destruct H as [H|(y & Hy & E)]; [by left|].
      right. exists y. split; [|done]. apply elem_of_app in Hy as [Hy|Hy]; [done|].
      apply list_elem_of_singleton in Hy as ->. congruence.
Qed.

Section RecoveryCrash.
Context (d : list (list Z)) (st sz : Z).
Hypothesis VL : valid_log d st sz.

Let h := disk_view d st.
Let secs := hdr_secs h.
Let hw := home_writes st (disk_view d) secs.

Lemma rc_len : length secs = Z.to_nat (hdr_n h).
Proof. unfold secs, hdr_secs. by rewrite length_fmap, length_seq. Qed.

Lemma rc_home x :
  x ∈ hw -> 0 <= fst x < st /\ fst x <> 1 /\ length (snd x) = BSIZE.
Proof.
  destruct VL as [V1 V2 V3 V4 V5 V6]. pose proof rc_len.
  intros Hx. apply home_writes_elem in Hx as (i & t & Ht & ->). cbn [fst snd].
  apply lookup_lt_Some in Ht as Hi. apply list_elem_of_lookup_2 in Ht.
  destruct (V6 t Ht). split_and!; try lia. apply view_block; [done|]. fold h in V5. lia.
Qed.

Lemma rc_prefix P :
  P `prefix_of` recovery_writes d st ->
  in_range (Z.of_nat (length d)) P /\ Forall (fun x => length (snd x) = BSIZE) P /\
  (forall x, x ∈ P -> fst x <> 1).
Proof.
  intros HP. destruct VL as [V1 V2 V3 V4 V5 V6].
  assert (Hall : forall x, x ∈ recovery_writes d st ->
            0 <= fst x < Z.of_nat (length d) /\ fst x <> 1 /\ length (snd x) = BSIZE).
  { intros x Hx. apply elem_of_app in Hx as [Hx|Hx].
    - apply rc_home in Hx as (? & ? & ?). split_and!; (done || lia).
    - apply list_elem_of_singleton in Hx as ->. cbn [fst snd]. split_and!; try lia.
      apply make_head_spec; [apply view_block; [done|lia]|simpl; lia|constructor]. }
  split_and!.
  - apply list.Forall_forall. intros x Hx. eapply Hall, prefix_elem; done.
  - apply list.Forall_forall. intros x Hx. eapply Hall, prefix_elem; done.
  - intros x Hx. eapply Hall, prefix_elem; done.
Qed.

(** A crash while the blocks are being installed. *)
Lemma crash_installing P (d' := apply_writes P d) :
  P `prefix_of` hw ->
  valid_log d' st sz /\
  forall m, 0 <= m < st -> disk_view (apply_writes (recovery_writes d' st) d') m =
                           disk_view (apply_writes (recovery_writes d st) d) m.
Proof.
  intros HP. destruct (rc_prefix P) as (F1 & F2 & F3); [by apply prefix_app_r|].
  pose proof rc_len. pose proof VL as [V1 V2 V3 V4 V5 V6]. fold h in V5.
  assert (E : forall m, st <= m -> disk_view d' m = disk_view d m).
  { intros m Hm. unfold d'. rewrite view_apply by (done || lia). apply apply_view_other.
    intros x Hx. pose proof (rc_home x (prefix_elem _ _ _ HP Hx)). lia. }
  assert (valid_log d' st sz) as VL'.
  { apply (valid_log_apply d st sz P secs h); try done; try lia.
    rewrite <- view_apply by (done || lia). apply E. lia. }
  split; [done|]. intros m Hm. rewrite !(recovery_view _ st sz) by done.
  rewrite (E st) by lia. fold h secs hw.
  assert (home_writes st (disk_view d') secs = hw) as ->.
  { unfold hw, home_writes. apply imap_ext. intros i t _. by rewrite E by lia. }
  apply apply_view_eq. unfold d'. rewrite view_apply by (done || lia).
  destruct (decide (m ∈ fst <$> P)) as [Hin|Hni].
  - right. apply list_elem_of_fmap in Hin as (x & -> & Hx). exists x.
    split; [by eapply prefix_elem|done].
  - left. apply apply_view_other. intros x Hx <-. apply Hni. by apply list_elem_of_fmap_2.
Qed.

(** A crash when recovery is done. *)
Lemma crash_recovered (d' := apply_writes (recovery_writes d st) d) :
  valid_log d' st sz /\ hdr_n (disk_view d' st) = 0 /\
  forall m, 0 <= m < st -> disk_view (apply_writes (recovery_writes d' st) d') m = disk_view d' m.
Proof.
  destruct (rc_prefix _ (reflexivity _)) as (F1 & F2 & F3). pose proof VL as [V1 V2 V3 V4 V5 V6].
  destruct (make_head_spec h []) as (L0 & N0 & S0);
    [apply view_block; [done|lia]|simpl; lia|constructor|].
  assert (apply_view (recovery_writes d st) (disk_view d) st = make_head h []) as Est.
  { apply apply_view_last. intros x Hx. inversion Hx. }
  assert (valid_log d' st sz) as VL'.
  { apply (valid_log_apply d st sz _ [] (make_head h [])); try done;
      [simpl; unfold NBUF; lia|simpl; lia|]. intros m Hm. inversion Hm. }
  assert (disk_view d' st = make_head h []) as E by (unfold d'; by rewrite view_apply by (done || lia)).
  split_and!; [done|by rewrite E|]. intros m Hm. rewrite (recovery_view _ st sz) by done.
  by rewrite E, S0.
Qed.
End RecoveryCrash.

(** A crash during recovery changes nothing for the next recovery. *)
Lemma crash_recovery d st sz C P :
  recovers d st sz C -> P `prefix_of` recovery_writes d st -> recovers (apply_writes P d) st sz C.
Proof.
  intros [VL HC] HP. apply prefix_app_cases in HP as [HP|(P' & -> & HP)].
  - destruct (crash_installing d st sz VL P HP) as [VL' E]. split; [done|].
    intros m Hm. rewrite E by done. auto.
  - destruct P' as [|x P'].
    + rewrite app_nil_r. destruct (crash_installing d st sz VL _ (reflexivity _)) as [VL' E].
      split; [done|]. intros m Hm. rewrite E by done. auto.
    + pose proof (prefix_cons_inv_1 _ _ _ _ HP) as ->. apply prefix_cons_inv_2 in HP.
      apply prefix_nil_inv in HP as ->. destruct (crash_recovered d st sz VL) as (VL' & _ & E).
      split; [exact VL'|]. intros m Hm. etransitivity; [exact (E m Hm)|]. auto.
Qed.

(** ** The invariant between operations *)

(** [log_ok s V B]: the buffers of the logged sectors are pinned (dirty), the header on
    the disk is clear, and [B] are the file-system blocks held. *)
Record log_ok (s : logst) (V : Z -> list Z) (B : gset Z) : Prop := {
  lo_dev : ldev (lg s) = 1;
  lo_fits : log_fits (lg s);
  lo_rep : rep (lb s) V (list_to_set (logged (lg s))) B;
  lo_nodup : NoDup (logged (lg s));
  lo_disk : valid_log (disk (lb s)) (lstart (lg s)) (lsize (lg s));
  lo_clear : hdr_n (disk_view (disk (lb s)) (lstart (lg s))) = 0;
  lo_view : forall m, 0 <= m < Z.of_nat (length (disk (lb s))) -> length (V m) = BSIZE;
  lo_busy : forall m, m ∈ B -> m < lstart (lg s);
  lo_lock : LkLog ∉ held (bctx (lb s)) }.

Lemma lo_geom s V B : log_ok s V B -> geom (lg s) (Z.of_nat (length (disk (lb s)))).
Proof.
  intros L. destruct (lo_disk _ _ _ L) as [_ _ _ (?&?&?&?) _ _].
  constructor; try done. apply (lo_dev _ _ _ L).
Qed.

Lemma find_sector_spec l n sec :
  (n <= length l)%nat -> Forall (fun t => 0 <= t < 2 ^ 31) (take n l) ->
  let i := find_sector l n sec in
  (i = n /\ sec ∉ take n l) \/ ((i < n)%nat /\ l !! i = Some sec).
Proof.
  revert n. induction l as [|t l IH]; intros [|n] Hl Hf; simpl in *; try lia.
  - left. split; [done|]. intros H. inversion H.
  - left. split; [done|]. intros H. inversion H.
  - inversion Hf as [|? ? Ht Hf']; subst. rewrite u32_small by lia.
    destruct (Z.eqb_spec t sec) as [->|Hne]; [right; split; [lia|done]|].
    destruct (IH n ltac:(lia) Hf') as [[-> Hni]|[Hi E]].
    + left. split; [done|]. set_solver.
    + right. split; [lia|done].
Qed.

Lemma logged_snoc l n v :
  length (lh_sector l) = 30%nat -> (n < 30)%nat -> lh_n l = Z.of_nat n ->
  logged (w_n (lh_n l + 1) (w_lsector (<[n := v]> (lh_sector l)) l)) = logged l ++ [v].
Proof.
  intros H30 Hn E. unfold logged, w_n, w_lsector. cbn [lh_n lh_sector].
  rewrite E. replace (Z.to_nat (Z.of_nat n + 1)) with (S n) by lia. rewrite Nat2Z.id.
  rewrite (take_S_r _ n v) by (apply list_lookup_insert_eq; lia).
  by rewrite take_insert_ge by lia.
Qed.

(** What log_write does to the in-memory header. *)
Definition log_add (l : log) (n : Z) : log :=
  if decide (n ∈ logged l) then l
  else w_n (lh_n l + 1) (w_lsector (<[Z.to_nat (lh_n l) := n]> (lh_sector l)) l).

Lemma log_add_fits l n :
  log_fits l -> home l n -> lh_n l + 1 < Z.of_nat NBUF -> lh_n l + 1 < lsize l ->
  log_fits (log_add l n) /\ lstart (log_add l n) = lstart l /\ lsize (log_add l n) = lsize l /\
  ldev (log_add l n) = ldev l /\
  logged (log_add l n) = if decide (n ∈ logged l) then logged l else logged l ++ [n].
Proof.
  intros LF Hn H1 H2. unfold log_add. case_decide as Hin; [done|].
  pose proof LF as [F1 F2 F3 F4]. unfold NBUF in *.
  assert (logged (w_n (lh_n l + 1) (w_lsector (<[Z.to_nat (lh_n l) := n]> (lh_sector l)) l))
          = logged l ++ [n]) as E by (apply logged_snoc; lia).
  split_and!; try done. constructor; cbn [lh_sector lh_n lsize w_n w_lsector].
  - by rewrite length_insert.
  - unfold NBUF. lia.
  - lia.
  - intros m Hm. rewrite E in Hm. apply elem_of_app in Hm as [Hm|Hm]; [by apply F4|].
    apply list_elem_of_singleton in Hm as ->. done.
Qed.

Lemma log_ok_ctx s V B k :
  log_ok s V B -> held k = held (bctx (lb s)) -> log_ok (with_ctx k s) V B.
Proof.
  intros [L1 L2 [R1 R2 R3 R4 R5 R6] L4 L5 L6 L7 L8 L9] Hk.
  constructor; try done; [constructor; try done|]; simpl; by rewrite Hk.
Qed.

Lemma find_sector_add l n (i := find_sector (lh_sector l) (Z.to_nat (lh_n l)) n) :
  log_fits l -> lstart l < 2 ^ 31 ->
  exists t, lh_sector l !! i = Some t /\
    (let l' := w_lsector (<[i := n]> (lh_sector l)) l in
     if Nat.eqb i (Z.to_nat (lh_n l)) then w_n (lh_n l' + 1) l' else l') = log_add l n.
Proof.
  intros LF Hst. pose proof LF as [F1 F2 F3 F4]. unfold NBUF in *.
  destruct (find_sector_spec (lh_sector l) (Z.to_nat (lh_n l)) n) as [[Hi Hni]|[Hi E]].
  - lia.
  - apply list.Forall_forall. intros t Ht. destruct (F4 t Ht). lia.
  - fold i in Hi. destruct (lookup_lt_is_Some_2 (lh_sector l) i) as [t Ht]; [lia|].
    exists t. split; [done|]. cbn zeta. unfold log_add, logged. rewrite decide_False by done.
    by rewrite Hi, Nat.eqb_refl.
  - fold i in Hi, E. exists n. split; [done|]. cbn zeta. unfold log_add. rewrite decide_True.
    + rewrite (proj2 (Nat.eqb_neq _ _)) by lia. rewrite list_insert_id by done. by destruct l.
    + unfold logged. apply (list_elem_of_lookup_2 _ i). rewrite lookup_take_lt by lia. done.
Qed.

(** Adding a sector to the header and pinning its buffer keeps the invariant. *)
Lemma log_ok_add s V B n bs' (s' := mklogst (log_add (lg s) n) (with_bufs bs' (lb s))) :
  log_ok s V B -> home (lg s) n -> lh_n (lg s) + 1 < Z.of_nat NBUF ->
  lh_n (lg s) + 1 < lsize (lg s) ->
  rep (with_bufs bs' (lb s)) V ({[n]} ∪ list_to_set (logged (lg s))) B -> log_ok s' V B.
Proof.
  intros [L1 L2 L3 L4 L5 L6 L7 L8 L9] Hn H1 H2 R.
  destruct (log_add_fits (lg s) n) as (A1 & A2 & A3 & A4 & A5); [done..|].
  constructor; unfold s'; cbn [lg lb disk bctx with_bufs]; rewrite ?A2, ?A3, ?A4; try done.
  - rewrite A5. replace (list_to_set _) with ({[n]} ∪ list_to_set (logged (lg s)) : gset Z); [done|].
    case_decide; set_solver.
  - rewrite A5. case_decide as Hin; [done|]. apply list.NoDup_app. split_and!; [done| |].
    + intros m Hm Hm'. apply list_elem_of_singleton in Hm' as ->. done.
    + apply NoDup_singleton.
Qed.

Lemma rep_ctx b k V D B :
  rep b V D B -> (LkBcache ∉ held k) /\ (LkPtable ∉ held k) -> rep (with_ctx k b) V D B.
Proof. intros [R1 R2 R3 R4 R5 R6] Hk. by constructor. Qed.

Lemma ctx_eta k : mkctx (held k) (woken k) (killed k) = k.
Proof. by destruct k. Qed.

Lemma wp_log_write s V B b n Q :
  log_ok s V B -> owned (lb s) b n -> n ∈ B -> home (lg s) n -> 1 <= outstanding (lg s) ->
  lsize (lg s) <= LOGSIZE -> lh_n (lg s) < lsize (lg s) - 1 ->
  (forall bs', let s' := mklogst (log_add (lg s) n) (with_bufs bs' (lb s)) in
     log_ok s' V B -> (forall c m, owned (lb s) c m -> owned (lb s') c m) -> Q tt s') ->
  wp (log_write b) Q s.
Proof.
  intros L O HB Hn Ho Hls Hroom HQ. pose proof L as [L1 L2 L3 L4 L5 L6 L7 L8 L9].
  pose proof (lo_geom _ _ _ L) as [G1 G2 G3 G4 G5].
  destruct (rep_owned_buf _ _ _ _ _ _ L3 O) as (x & Hb & Hx & Hdx & Hsx & Hr & _).
  unfold LOGSIZE, MAXOPBLOCKS in *. unfold log_write. wp_steps. unfold LOGSIZE, MAXOPBLOCKS.
  rewrite (proj2 (Z.leb_gt _ _)), (proj2 (Z.leb_gt _ _)) by lia. cbn [orb].
  rewrite (proj2 (Z.ltb_ge _ _)) by lia. wp_steps. apply wp_acquire; [done|]. wp_steps.
  apply wp_bio. eapply wp_getb; [exact Hx|]. rewrite Hsx. unfold set_sector. wp_steps.
  assert (i32 n = n) as -> by (apply i32_small; lia).
  destruct (find_sector_add (lg s) n) as (t & Ht & Eadd); [done|lia|].
  set (i := find_sector _ _ _) in *. cbn [lg with_ctx logst_ctx].
  eapply wp_lift_opt; [exact Ht|]. unfold mod_log. wp_steps. cbn [lg with_ctx logst_ctx].
  set (k := with_ctx _ _). set (l' := w_lsector _ _) in *. cbn zeta in Eadd.
  assert (Hfin : wp (bio (mark_dirty b)) (fun _ s' => wp (release LkLog) Q s')
                   (mklogst (log_add (lg s) n) k)).
  { apply wp_bio. eapply (wp_mark_dirty k V _ B b n); [|exact O|].
    - apply (rep_ctx (lb s)); [done|]. simpl. destruct (rep_lock _ _ _ _ L3).
      split; by apply not_elem_of_cons.
    - intros bs' s'' R'' F. eapply wp_release; [done|].
      apply (rep_ctx _ (bctx (lb s))) in R''; [|apply (rep_lock _ _ _ _ L3)].
      specialize (HQ bs'). cbn [ctx with_ctx logst_ctx bst_ctx lg lb s'' k with_bufs bctx bufs disk hist
        held woken killed]. rewrite ctx_eta. apply HQ.
      + apply log_ok_add; try done; unfold NBUF; lia.
      + intros c m Hc. by apply (F c m). }
  destruct (Nat.eqb i (Z.to_nat (lh_n (lg s)))); wp_steps; rewrite <- Eadd in Hfin; exact Hfin.
Qed.

(** ** commit keeps the invariant, and crashes are atomic *)

(** Recovery after a crash in the middle of writes [w] restores [C] or [C']. *)
Definition atomic (d : list (list Z)) (st sz : Z) (w : list (Z * list Z)) (C C' : Z -> list Z) : Prop :=
  forall P, P `prefix_of` w ->
    recovers (apply_writes P d) st sz C \/ recovers (apply_writes P d) st sz C'.

Lemma hdr_secs_clear h : hdr_n h = 0 -> hdr_secs h = [].
Proof. intros E. unfold hdr_secs. by rewrite E. Qed.

(** The state of the disk under the invariant: what is not logged is there. *)
Lemma log_ok_home s V m :
  log_ok s V ∅ -> 0 <= m < lstart (lg s) -> m ∉ logged (lg s) -> V m = disk_view (disk (lb s)) m.
Proof.
  intros L Hm Hni. pose proof (lo_geom _ _ _ L) as [_ G2 G3 G4 _]. unfold disk_view.
  rewrite (rep_disk _ _ _ _ (lo_rep _ _ _ L) m); [done|lia| |set_solver].
  by rewrite elem_of_list_to_set.
Qed.

Section LogOkCrash.
Context (s : logst) (V : Z -> list Z).
Hypothesis L : log_ok s V ∅.
Let d := disk (lb s).
Let st := lstart (lg s).
Let sz := lsize (lg s).
Let secs := logged (lg s).

Lemma log_ok_num : (length secs < NBUF)%nat /\ Z.of_nat (length secs) < sz.
Proof.
  unfold secs. rewrite (length_logged _ (lo_fits _ _ _ L)).
  destruct (lo_fits _ _ _ L) as [F1 F2 F3 F4]. unfold sz. lia.
Qed.

Lemma log_ok_home_in m : m ∈ secs -> 0 <= m < st /\ m <> 1.
Proof. intros Hm. by apply (lf_home _ (lo_fits _ _ _ L)). Qed.

Lemma log_ok_blk m : m ∈ secs -> length (V m) = BSIZE.
Proof.
  intros Hm. pose proof (lo_geom _ _ _ L) as [_ G2 G3 G4 _].
  apply log_ok_home_in in Hm. apply (lo_view _ _ _ L). unfold st in *. lia.
Qed.

Lemma log_ok_head : V st = disk_view d st.
Proof.
  pose proof (lo_geom _ _ _ L) as [_ G2 G3 G4 _]. unfold disk_view, d, st.
  rewrite (rep_disk _ _ _ _ (lo_rep _ _ _ L)); [done|lia| |set_solver].
  rewrite elem_of_list_to_set. intros H. apply log_ok_home_in in H. unfold st in H. lia.
Qed.

Lemma log_ok_atomic : atomic d st sz (commit_writes st V (V st) secs) (disk_view d) V.
Proof.
  intros P HP. rewrite log_ok_head in HP.
  apply (crash_commit d st sz V secs (lo_disk _ _ _ L) (lo_clear _ _ _ L) log_ok_num
    log_ok_home_in log_ok_blk); [|done].
  intros m Hm Hni. by apply log_ok_home.
Qed.

Lemma log_ok_done :
  recovers (apply_writes (commit_writes st V (V st) secs) d) st sz V.
Proof.
  rewrite log_ok_head.
  apply (crash_done d st sz V secs (lo_disk _ _ _ L) (lo_clear _ _ _ L) log_ok_num log_ok_home_in log_ok_blk).
  intros m Hm Hni. by apply log_ok_home.
Qed.

Lemma log_ok_cleared :
  hdr_n (disk_view (apply_writes (commit_writes st V (V st) secs) d) st) = 0.
Proof.
  rewrite log_ok_head.
  apply (cc_clear d st sz V secs (lo_disk _ _ _ L) (lo_clear _ _ _ L) log_ok_num log_ok_home_in log_ok_blk).
Qed.
End LogOkCrash.

Lemma commit_ok s V :
  log_ok s V ∅ ->
  wp commit (fun _ s' => lg s' = w_n 0 (lg s) /\ log_ok s' (disk_view (disk (lb s'))) ∅ /\
    (forall m, 0 <= m < lstart (lg s) -> disk_view (disk (lb s')) m = V m) /\
    exists w, wrote (lb s) (lb s') w /\
      atomic (disk (lb s)) (lstart (lg s)) (lsize (lg s)) w (disk_view (disk (lb s))) V) s.
Proof.
  intros L. pose proof L as [L1 L2 L3 L4 L5 L6 L7 L8 L9]. pose proof (lo_geom _ _ _ L) as G.
  destruct (Z.eq_dec (lh_n (lg s)) 0) as [E|E].
  - unfold commit. wp_steps. rewrite E. cbn [Z.ltb Z.compare]. wp_steps.
    assert (logged (lg s) = []) as Elog by (unfold logged; by rewrite E).
    rewrite Elog in L3. pose proof (rep_disk_view _ _ L3) as Rd.
    assert (Hv : forall m, 0 <= m < lstart (lg s) -> disk_view (disk (lb s)) m = V m).
    { intros m Hm. symmetry. apply log_ok_home; [done|done|]. rewrite Elog. intros Hi. inversion Hi. }
    split_and!; [unfold w_n; rewrite <- E; by destruct (lg s)| |done|].
    + constructor; rewrite ?Elog; try done; [apply NoDup_nil_2|]. intros m Hm. apply view_block; [apply L5|done].
    + exists []. split; [by apply wrote_nil|]. intros P HP. apply prefix_nil_inv in HP as ->. left.
      apply (recovers_logged _ _ _ _ []); try done. by apply hdr_secs_clear.
  - eapply wp_commit; [done..|pose proof (lf_n _ L2); lia| |].
    { rewrite (log_ok_head s V L). apply view_block; [apply L5|]. destruct G. lia. }
    intros b' V' R' HV' W. destruct (log_ok_done s V L) as [VL' _]. cbn [lg lb].
    pose proof W as (W1 & W2 & W3 & W4). rewrite <- W1 in VL'.
    pose proof (wrote_len _ _ _ W) as WL.
    assert (Hv : forall m, 0 <= m < Z.of_nat (length (disk b')) -> disk_view (disk b') m = V' m).
    { intros m Hm. unfold disk_view. by rewrite (rep_disk _ _ _ _ R' m) by (done || set_solver). }
    split_and!; [done| | |].
    + constructor; cbn [lg lb w_n ldev lstart lsize]; try done.
      * destruct L2. constructor; cbn [lh_sector lh_n lsize w_n]; [done|unfold NBUF; lia|lia|].
        unfold logged. simpl. intros m Hm. inversion Hm.
      * unfold logged. simpl. by eapply rep_disk_view.
      * unfold logged. simpl. apply NoDup_nil_2.
      * rewrite W1. by apply log_ok_cleared.
      * intros m Hm. apply view_block; [apply VL'|done].
      * by rewrite W3.
    + intros m Hm. destruct G. rewrite Hv by lia. auto.
    + eexists. split; [exact W|]. by apply log_ok_atomic.
Qed.

(** ** begin_op, end_op and the use log.c documents *)

Definition logst_with_bst (b : bst) (s : logst) : logst := mklogst (lg s) b.

Lemma wp_begin_op s V B Q :
  log_ok s V B -> committing (lg s) = 0 ->
  lh_n (lg s) + (outstanding (lg s) + 1) * MAXOPBLOCKS <= LOGSIZE ->
  Q tt (mklogst (w_outstanding (outstanding (lg s) + 1) (lg s)) (lb s)) ->
  wp begin_op Q s.
Proof.
  intros L Hc Hr HQ. unfold begin_op. wp_steps. apply wp_acquire; [apply L|]. wp_steps.
  cbn [lg with_ctx logst_ctx]. rewrite Hc. cbn [Z.eqb negb].
  rewrite (proj2 (Z.ltb_ge _ _)) by done. unfold mod_log. wp_steps.
  eapply wp_release; [done|]. cbn. rewrite ctx_eta. by destruct (lb s).
Qed.

Lemma log_ok_lg s V B l :
  log_ok s V B -> lstart l = lstart (lg s) -> lsize l = lsize (lg s) -> ldev l = ldev (lg s) ->
  lh_n l = lh_n (lg s) -> lh_sector l = lh_sector (lg s) -> log_ok (mklogst l (lb s)) V B.
Proof.
  intros [L1 [F1 F2 F3 F4] L3 L4 L5 L6 L7 L8 L9] E1 E2 E3 E4 E5.
  assert (logged l = logged (lg s)) as El by (unfold logged; by rewrite E4, E5).
  constructor; cbn [lg lb]; rewrite ?El, ?E1, ?E2, ?E3; try done.
  constructor; rewrite ?E4, ?E5, ?E2; try done. intros m Hm. rewrite El in Hm.
  destruct (F4 m Hm). split; [by rewrite E1|done].
Qed.

(** end_op of the last system call in progress. *)
Lemma wp_end_op_last s V :
  log_ok s V ∅ -> outstanding (lg s) = 1 -> committing (lg s) = 0 ->
  wp end_op (fun _ s' => lg s' = w_committing 0 (w_n 0 (w_outstanding 0 (lg s))) /\
    log_ok s' (disk_view (disk (lb s'))) ∅ /\
    (forall m, 0 <= m < lstart (lg s) -> disk_view (disk (lb s')) m = V m) /\
    exists w, wrote (lb s) (lb s') w /\
      atomic (disk (lb s)) (lstart (lg s)) (lsize (lg s)) w (disk_view (disk (lb s))) V) s.
Proof.
  intros L Ho Hc. destruct (rep_lock _ _ _ _ (lo_rep _ _ _ L)) as [K1 K2].
  unfold end_op. wp_steps. apply wp_acquire; [apply L|]. unfold mod_log. wp_steps.
  cbn [lg lb with_ctx logst_ctx w_outstanding committing outstanding]. rewrite Ho, Hc.
  change (1 - 1) with 0. change (0 =? 0) with true. cbn [negb]. wp_steps.
  eapply wp_release; [done|].
  cbn [ctx with_ctx logst_ctx bst_ctx lg lb bctx held woken killed bufs disk hist].
  rewrite ctx_eta. wp_steps. set (l1 := w_committing 1 (w_outstanding 0 (lg s))).
  set (s1 := mklogst l1 _).
  assert (log_ok s1 V ∅) as L1.
  { replace s1 with (mklogst l1 (lb s)) by (unfold s1; by destruct (lb s)).
    by apply log_ok_lg. }
  eapply wp_mono; [apply (commit_ok s1 V L1)|]. intros [] s2 (E2 & L2 & V2 & w & W & A).
  assert (HW : wrote (lb s) (lb s2) w) by (by destruct (lb s)).
  destruct HW as (W1 & W2 & W3 & W4).
  apply wp_bind, wp_acquire; [apply L2|]. wp_steps. apply wp_wakeup.
  { cbn. rewrite W3. by apply not_elem_of_cons. }
  eapply wp_release; [done|].
  cbn [ctx with_ctx logst_ctx bst_ctx lg lb bctx held woken killed bufs disk hist].
  split_and!; [by rewrite E2| |done|].
  - apply (log_ok_ctx (mklogst (w_committing 0 (lg s2)) (lb s2))); [|done]. by apply log_ok_lg.
  - exists w. split; [|by destruct (lb s)]. by split_and!.
Qed.

(** bp = bread(...); modify bp->data[]; log_write(bp); brelse(bp). *)
Definition update : Type := Z * (list Z -> list Z).
Definition do_update (u : update) : M logst unit :=
  b <- bio (bread ROOTDEV (fst u)) ;;
  d <- bio (buf_data b) ;;
  bio (set_data b (snd u d)) ;;
  log_write b ;;
  bio (brelse b).

(** A file-system call that makes the given updates. *)
Definition transaction (us : list update) : M logst unit :=
  begin_op ;;
  forM us do_update ;;
  end_op.

(** The contents after the updates. *)
Definition upd_view (us : list update) (V : Z -> list Z) : Z -> list Z :=
  foldl (fun V u => <[fst u := snd u (V (fst u))]> V) V us.

Lemma log_ok_bst s V V' B B' b' :
  log_ok s V B -> rep b' V' (list_to_set (logged (lg s))) B' ->
  disk b' = disk (lb s) -> held (bctx b') = held (bctx (lb s)) ->
  (forall m, 0 <= m < Z.of_nat (length (disk (lb s))) -> length (V' m) = BSIZE) ->
  (forall m, m ∈ B' -> m < lstart (lg s)) -> log_ok (mklogst (lg s) b') V' B'.
Proof.
  intros [L1 L2 L3 L4 L5 L6 L7 L8 L9] R Hd Hh Hv HB.
  constructor; cbn [lg lb]; rewrite ?Hd, ?Hh; done.
Qed.


Lemma log_add_keeps l n :
  outstanding (log_add l n) = outstanding l /\ committing (log_add l n) = committing l /\
  lh_n (log_add l n) <= lh_n l + 1.
Proof. unfold log_add. case_decide; simpl; lia. Qed.

Lemma insert_len (V : Z -> list Z) n p nd :
  (forall m, 0 <= m < nd -> length (V m) = BSIZE) -> length p = BSIZE ->
  forall m, 0 <= m < nd -> length ((<[n := p]> V) m) = BSIZE.
Proof.
  intros HV Hp m Hm. destruct (decide (m = n)) as [->|]; [by rewrite fn_lookup_insert|].
  rewrite fn_lookup_insert_ne by done. auto.
Qed.

Lemma wp_do_update s V n f Q :
  log_ok s V ∅ -> home (lg s) n -> 1 <= outstanding (lg s) -> lsize (lg s) <= LOGSIZE ->
  lh_n (lg s) < lsize (lg s) - 1 -> length (f (V n)) = BSIZE ->
  (forall b', log_ok (mklogst (log_add (lg s) n) b') (<[n := f (V n)]> V) ∅ ->
     wrote (lb s) b' [] -> Q tt (mklogst (log_add (lg s) n) b')) ->
  wp (do_update (n, f)) Q s.
Proof.
  intros L Hn Ho Hls Hroom Hf HQ. pose proof L as [L1 L2 L3 L4 L5 L6 L7 L8 L9].
  pose proof (lo_geom _ _ _ L) as [G1 G2 G3 G4 G5]. pose proof Hn as [Hn1 Hn2].
  unfold do_update. cbn [fst snd]. unfold ROOTDEV. wp_steps. apply wp_bio.
  eapply wp_bread; [exact L3|set_solver|lia| |].
  { right. rewrite union_empty_r_L, size_list_to_set, length_logged by done.
    destruct L2. lia. }
  rewrite union_empty_r_L. intros b bs1 s1 R1 O1 _. wp_steps. apply wp_bio.
  eapply wp_buf_data; [exact R1|exact O1|]. wp_steps. apply wp_bio.
  eapply wp_set_data; [exact R1|exact O1|set_solver|]. intros bs2 s2 R2 F2. wp_steps.
  assert (log_ok (mklogst (lg s) s2) (<[n := f (V n)]> V) {[n]}) as Lg2.
  { eapply log_ok_bst; [exact L|exact R2|done|done|by apply insert_len|].
    intros m Hm. apply elem_of_singleton in Hm as ->. lia. }
  eapply (wp_log_write (mklogst (lg s) s2) _ _ b n);
    [exact Lg2|by apply F2|set_solver|exact Hn|done..|].
  intros bs3 s3 Lg3 F3. apply wp_bio.
  eapply wp_brelse; [apply (lo_rep _ _ _ Lg3)|by apply F3, F2|set_solver| |].
  { left. apply elem_of_list_to_set. cbn [lg s3].
    destruct (log_add_fits (lg s) n) as (_ & _ & _ & _ & ->); try done;
      [unfold LOGSIZE, MAXOPBLOCKS, NBUF in *; lia|lia|]. case_decide; set_solver. }
  intros bs4 s4 R4 F4. rewrite difference_diag_L in R4. apply HQ; [|by apply wrote_nil].
  eapply (log_ok_bst s3); [exact Lg3|exact R4|done|done| |].
  - intros m Hm. by apply (lo_view _ _ _ Lg3).
  - intros m Hm. by apply not_elem_of_empty in Hm.
Qed.

(** The updates of a system call, one after another. *)
Lemma wp_updates us s V :
  log_ok s V ∅ -> 1 <= outstanding (lg s) -> lsize (lg s) <= LOGSIZE ->
  lh_n (lg s) + Z.of_nat (length us) < lsize (lg s) ->
  (forall u, u ∈ us -> home (lg s) (fst u) /\ forall d, length d = BSIZE -> length (snd u d) = BSIZE) ->
  wp (forM us do_update) (fun _ s' => log_ok s' (upd_view us V) ∅ /\ wrote (lb s) (lb s') [] /\
    lstart (lg s') = lstart (lg s) /\ lsize (lg s') = lsize (lg s) /\
    outstanding (lg s') = outstanding (lg s) /\ committing (lg s') = committing (lg s)) s.
Proof.
  revert s V. induction us as [|[n f] us IH]; intros s V L Ho Hls Hroom Hus.
  - cbn [forM]. wp_steps. split_and!; try done. by apply wrote_nil.
  - cbn [forM length] in *. destruct (Hus (n, f)) as [Hn Hf]; [left|]. cbn [fst snd] in *.
    pose proof (lo_geom _ _ _ L) as [G1 G2 G3 G4 G5].
    assert (length (f (V n)) = BSIZE) as Hfn.
    { apply Hf, (lo_view _ _ _ L). destruct Hn. lia. }
    wp_steps. eapply wp_do_update; [done..|lia|done|]. intros b' L' W'.
    destruct (log_add_keeps (lg s) n) as (A1 & A2 & A3).
    destruct (log_add_fits (lg s) n) as (_ & B1 & B2 & _);
      [apply L|done|unfold NBUF, LOGSIZE, MAXOPBLOCKS in *; lia|lia|].
    eapply wp_mono; [eapply (IH _ _ L'); cbn [lg lb]; rewrite ?A1, ?B2; try done; [lia|]|].
    + intros u Hu. destruct (Hus u) as [H1 H2]; [by right|]. split; [|done].
      unfold home in *. by rewrite B1.
    + intros [] s' (L2 & W2 & E1 & E2 & E3 & E4). cbn [lg lb] in *.
      split_and!; [done|by apply (wrote_trans _ _ _ _ _ W' W2)|congruence..].
Qed.

(** ** Reboots *)

(** A file system between system calls, with nothing in the log. *)
Record quiet (s : logst) : Prop := {
  q_log : log_ok s (disk_view (disk (lb s))) ∅;
  q_size : lsize (lg s) <= LOGSIZE;
  q_state : lh_n (lg s) = 0 /\ outstanding (lg s) = 0 /\ committing (lg s) = 0 }.

(** The disks reached from [d] by boots that crash during recovery. *)
Inductive reboots (d : list (list Z)) : list (list Z) -> Prop :=
| RB_refl : reboots d d
| RB_crash d' s P :
    reboots d d' -> mount (power_on d') = Ret tt s -> P `prefix_of` hist (lb s) ->
    reboots d (apply_writes P d').

(** However often recovery is cut short, the boot that completes returns to a quiet
    file system with the contents [C]. *)
Definition survives_as (d : list (list Z)) (st : Z) (C : Z -> list Z) : Prop :=
  forall d', reboots d d' ->
    exists s, mount (power_on d') = Ret tt s /\ quiet s /\ lstart (lg s) = st /\
      forall m, 0 <= m < st -> disk_view (disk (lb s)) m = C m.

Lemma recovers_reboots d st sz C d' :
  recovers d st sz C -> reboots d d' -> recovers d' st sz C.
Proof.
  intros Hr. induction 1 as [|d' s P _ IH Hm HP]; [done|].
  eapply crash_recovery; [exact IH|].
  destruct (wp_run _ _ _ (wp_mount d' st sz (proj1 IH))) as ([] & s' & E & _ & _ & Eh & _).
  rewrite Hm in E. injection E as <-. by rewrite <- Eh.
Qed.

Lemma mount_quiet d st sz C :
  recovers d st sz C -> sz <= LOGSIZE ->
  exists s, mount (power_on d) = Ret tt s /\ quiet s /\ lstart (lg s) = st /\
    forall m, 0 <= m < st -> disk_view (disk (lb s)) m = C m.
Proof.
  intros [VL HC] Hsz.
  destruct (wp_run _ _ _ (wp_mount d st sz VL)) as ([] & s & E & R & Ed & _ & Hh & secs & H30 & El).
  exists s. split; [exact E|]. clear E. destruct (crash_recovered d st sz VL) as (VL' & N & _).
  rewrite <- Ed in VL', N. pose proof VL as [V1 V2 V3 V4 V5 V6].
  split_and!; [|by rewrite El|intros m Hm; rewrite Ed; auto].
  split; [|by rewrite El|by rewrite El].
  constructor; rewrite ?El; cbn [ldev lstart lsize]; try done.
  - constructor; cbn [lh_sector lh_n lsize]; [done|unfold NBUF; lia|lia|].
    unfold logged. simpl. intros m Hm. inversion Hm.
  - unfold logged. simpl. apply NoDup_nil_2.
  - intros m Hm. apply view_block; [apply VL'|done].
  - rewrite Hh. apply not_elem_of_nil.
Qed.

Lemma recovers_survives d st sz C : recovers d st sz C -> sz <= LOGSIZE -> survives_as d st C.
Proof.
  intros Hr Hsz d' Hd. apply (mount_quiet d' st sz C); [|done]. by apply (recovers_reboots d).
Qed.

(** C1: a file-system call that updates blocks through the log is atomic with respect to
    crashes.  From a quiet file system, begin_op, the updates (at most MAXOPBLOCKS, to
    blocks of the file system other than the super block, that fit in the log) and
    end_op return to a quiet file system whose blocks have all the updates; and if the
    machine stops after any number of the sector writes they make, and then stops again
    during any number of recoveries, the boot that completes restores a quiet file
    system whose blocks have none of the updates or all of them. *)
Theorem transaction_atomic s us :
  quiet s -> Z.of_nat (length us) <= MAXOPBLOCKS -> Z.of_nat (length us) < lsize (lg s) ->
  (forall u, u ∈ us -> home (lg s) (fst u) /\ forall d, length d = BSIZE -> length (snd u d) = BSIZE) ->
  let V := disk_view (disk (lb s)) in
  exists s' w, transaction us s = Ret tt s' /\ quiet s' /\ lstart (lg s') = lstart (lg s) /\
    (forall m, 0 <= m < lstart (lg s) -> disk_view (disk (lb s')) m = upd_view us V m) /\
    hist (lb s') = hist (lb s) ++ w /\ disk (lb s') = apply_writes w (disk (lb s)) /\
    forall P, P `prefix_of` w ->
      survives_as (apply_writes P (disk (lb s))) (lstart (lg s)) V \/
      survives_as (apply_writes P (disk (lb s))) (lstart (lg s)) (upd_view us V).
Proof.
  intros [L Hls (Hn & Ho & Hc)] Hop Hsz Hus V.
  destruct (wp_run (transaction us) (fun _ s' => quiet s' /\ lstart (lg s') = lstart (lg s) /\
    (forall m, 0 <= m < lstart (lg s) -> disk_view (disk (lb s')) m = upd_view us V m) /\
    exists w, wrote (lb s) (lb s') w /\ atomic (disk (lb s)) (lstart (lg s)) (lsize (lg s)) w V
      (upd_view us V)) s) as ([] & s' & E & Q & El & Ev & w & (W1 & W2 & _) & A).
  - unfold transaction. wp_steps. eapply wp_begin_op; [exact L|exact Hc| |].
    { rewrite Hn, Ho. unfold LOGSIZE, MAXOPBLOCKS. lia. }
    wp_steps. eapply wp_mono; [apply (wp_updates us); cbn [lg lb]|].
    + by apply log_ok_lg.
    + cbn [outstanding w_outstanding]. lia.
    + done.
    + cbn [lh_n lsize w_outstanding]. lia.
    + done.
    + intros [] s1 (L1 & W1 & E1 & E2 & E3 & E4). cbn [lg lb lstart lsize outstanding committing w_outstanding] in *.
      eapply wp_mono; [apply (wp_end_op_last s1 _ L1); lia|].
      intros [] s2 (F1 & F2 & F3 & w & F4 & F5). rewrite E1, E2 in *.
      destruct W1 as (D1 & H1 & C1 & C2). simpl in D1. rewrite D1 in F5.
      split_and!.
      * split; [done|rewrite F1; simpl; lia|by rewrite F1].
      * by rewrite F1.
      * done.
      * exists w. split; [|done]. apply (wrote_trans _ (lb s1) _ []); [|done]. by split_and!.
  - exists s', w. split_and!; try done. intros P HP.
    destruct (A P HP) as [H|H]; [left|right]; by apply (recovers_survives _ _ (lsize (lg s))).
Qed.

(** A small disk image: blocks 0 to 2 of the file system, a log of three blocks. *)
Definition demo_disk : list (list Z) :=
  let zero := replicate BSIZE 0 in
  let sb := put32 (put32 zero 0 6) 12 3 in
  [zero; sb; zero; zero; zero; zero].

Lemma demo_valid : valid_log demo_disk 3 3.
Proof.
  constructor.
  - unfold blocks_ok. repeat constructor.
  - vm_compute. reflexivity.
  - vm_compute. reflexivity.
  - simpl. lia.
  - assert (hdr_n (disk_view demo_disk 3) = 0) as -> by (vm_compute; reflexivity).
    unfold NBUF. lia.
  - assert (hdr_secs (disk_view demo_disk 3) = []) as -> by (vm_compute; reflexivity).
    intros m Hm. inversion Hm.
Qed.

Definition demo_update : update := (2, fun _ => replicate BSIZE 7).

Lemma transaction_atomic_witness :
  exists s s' w, mount (power_on demo_disk) = Ret tt s /\
    transaction [demo_update] s = Ret tt s' /\ quiet s' /\
    disk_view (disk (lb s')) 2 = replicate BSIZE 7 /\
    forall P, P `prefix_of` w ->
      survives_as (apply_writes P (disk (lb s))) 3 (disk_view (disk (lb s))) \/
      survives_as (apply_writes P (disk (lb s))) 3 (upd_view [demo_update] (disk_view (disk (lb s)))).
Proof.
  destruct (mount_quiet demo_disk 3 3 (disk_view demo_disk)) as (s & Em & Q & Est & _).
  - apply (recovers_logged _ _ _ _ []); [apply demo_valid|vm_compute; reflexivity|done..].
  - unfold LOGSIZE, MAXOPBLOCKS. lia.
  - destruct (wp_run _ _ _ (wp_mount demo_disk 3 3 demo_valid))
      as ([] & s1 & E1 & _ & _ & _ & _ & secs & _ & El). rewrite Em in E1. injection E1 as <-.
    destruct (transaction_atomic s [demo_update]) as (s' & w & E & Q' & _ & Ev & _ & _ & A).
    + exact Q.
    + unfold MAXOPBLOCKS. simpl. lia.
    + rewrite El. simpl. lia.
    + intros u Hu. apply list_elem_of_singleton in Hu as ->. split.
      * unfold home. rewrite Est. simpl. lia.
      * intros d _. apply length_replicate.
    + exists s, s', w. rewrite Est in Ev, A.
      split; [exact Em|]. split; [exact E|]. split; [exact Q'|]. split; [|exact A].
      rewrite Ev by lia. reflexivity.
Defined.

(** ** Concurrent system calls and the space in the log

    Each entry of the list is a process: [None] outside the file system, [Some k] in a
    call that has updated [k] blocks so far.  A step is one call of begin_op, one update
    or one end_op; the three run under log.lock, and a commit runs with no call in
    progress and holds off new ones. *)

Module Ops.

Inductive call := Begin (i : nat) | Write (i : nat) (u : update) | End (i : nat).

Inductive outcome :=
| Next (s : logst) (ts : list (option nat))
| Waits                 (* begin_op sleeps on the log *)
| NotNow                (* the process is not at such a call *)
| Stuck.                (* a panic, a fault, or a sleep elsewhere *)

(** [q]: how many blocks a call may update. *)
Definition step (q : nat) (s : logst) (ts : list (option nat)) (c : call) : outcome :=
  match c with
  | Begin i =>
      match ts !! i with
      | Some None =>
          match begin_op s with
          | Ret _ s' => Next s' (<[i := Some 0%nat]> ts)
          | Sleep ChLog _ => Waits
          | _ => Stuck
          end
      | _ => NotNow
      end
  | Write i u =>
      match ts !! i with
      | Some (Some k) =>
          if (k <? q)%nat then
            match do_update u s with Ret _ s' => Next s' (<[i := Some (S k)]> ts) | _ => Stuck end
          else NotNow
      | _ => NotNow
      end
  | End i =>
      match ts !! i with
      | Some (Some _) =>
          match end_op s with Ret _ s' => Next s' (<[i := None]> ts) | _ => Stuck end
      | _ => NotNow
      end
  end.

(** An update a system call may make: a block of the file system, by a whole block. *)
Definition good_call (l : log) (c : call) : Prop :=
  match c with
  | Write _ u => home l (fst u) /\ forall d, length d = BSIZE -> length (snd u d) = BSIZE
  | _ => True
  end.

Inductive reachable (q : nat) (s0 : logst) (n : nat) : logst -> list (option nat) -> Prop :=
| R_init : reachable q s0 n s0 (replicate n None)
| R_step s ts c s' ts' :
    reachable q s0 n s ts -> good_call (lg s) c -> step q s ts c = Next s' ts' ->
    reachable q s0 n s' ts'.

(** The blocks the calls in progress may still update, and how many calls there are. *)
Definition left_of (q : nat) (t : option nat) : Z :=
  match t with Some k => Z.of_nat q - Z.of_nat k | None => 0 end.
Definition active (t : option nat) : Z := match t with Some _ => 1 | None => 0 end.

Fixpoint sum {A} (f : A -> Z) (l : list A) : Z :=
  match l with [] => 0 | x :: l => f x + sum f l end.

Lemma sum_insert {A} (f : A -> Z) l i x y :
  l !! i = Some x -> sum f (<[i := y]> l) = sum f l - f x + f y.
Proof.
  revert i. induction l as [|z l IH]; intros [|i] Hi; simplify_eq/=; [lia|].
  rewrite (IH i Hi). lia.
Qed.

Lemma sum_nonneg {A} (f : A -> Z) l : Forall (fun x => 0 <= f x) l -> 0 <= sum f l.
Proof. induction 1; simpl; lia. Qed.

Lemma sum_elem {A} (f : A -> Z) l i x :
  Forall (fun x => 0 <= f x) l -> l !! i = Some x -> f x <= sum f l.
Proof.
  intros Hf. revert i. induction Hf as [|z l Hz Hl IH]; intros [|i] Hi; simplify_eq/=.
  - pose proof (sum_nonneg f l Hl). lia.
  - specialize (IH i Hi). lia.
Qed.

Lemma sum_left_le q ts :
  sum (left_of q) ts <= Z.of_nat q * sum active ts.
Proof. induction ts as [|[k|] ts IH]; simpl; lia. Qed.

Definition bounded (q : nat) (t : option nat) : Prop :=
  match t with Some k => (k <= q)%nat | None => True end.

Record inv (q : nat) (s : logst) (ts : list (option nat)) : Prop := {
  i_ok : exists V, log_ok s V ∅;
  i_size : lsize (lg s) = LOGSIZE;
  i_comm : committing (lg s) = 0;
  i_out : outstanding (lg s) = sum active ts;
  i_bound : Forall (bounded q) ts;
  i_space : lh_n (lg s) + sum (left_of q) ts + sum active ts <= LOGSIZE }.

Lemma wp_end_op_more s V :
  log_ok s V ∅ -> 1 < outstanding (lg s) -> committing (lg s) = 0 ->
  wp end_op (fun _ s' => lg s' = w_outstanding (outstanding (lg s) - 1) (lg s) /\ log_ok s' V ∅) s.
Proof.
  intros L Ho Hc. destruct (rep_lock _ _ _ _ (lo_rep _ _ _ L)) as [K1 K2].
  unfold end_op. wp_steps. apply wp_acquire; [apply L|]. unfold mod_log. wp_steps.
  cbn [lg lb with_ctx logst_ctx w_outstanding committing outstanding]. rewrite Hc.
  rewrite (proj2 (Z.eqb_neq (outstanding (lg s) - 1) 0)) by lia. cbn [Z.eqb negb]. wp_steps.
  apply wp_wakeup; [by apply not_elem_of_cons|]. wp_steps. eapply wp_release; [done|].
  cbn [ctx with_ctx logst_ctx bst_ctx lg lb bctx held woken killed bufs disk hist]. wp_steps.
  cbn [lg]. split; [done|].
  apply (log_ok_ctx (mklogst (w_outstanding (outstanding (lg s) - 1) (lg s)) (lb s))); [|done].
  by apply log_ok_lg.
Qed.

Lemma begin_op_waits s V B :
  log_ok s V B -> committing (lg s) = 0 ->
  LOGSIZE < lh_n (lg s) + (outstanding (lg s) + 1) * MAXOPBLOCKS ->
  exists s', begin_op s = Sleep ChLog s'.
Proof.
  intros L Hc Hr. unfold begin_op, bind, acquire, gets, bind. cbn [held ctx logst_ctx].
  rewrite bool_decide_eq_false_2 by apply L. cbn [set_held modify lg with_ctx logst_ctx].
  rewrite Hc. cbn [Z.eqb negb]. rewrite (proj2 (Z.ltb_lt _ _)) by done.
  unfold release, bind, gets. cbn [held ctx with_ctx logst_ctx bst_ctx bctx lb].
  rewrite bool_decide_eq_true_2 by left. cbn. by eexists.
Qed.

Definition step_ok (q : nat) (o : outcome) : Prop :=
  match o with Next s ts => inv q s ts | Stuck => False | _ => True end.

Lemma step_begin q s ts i :
  (q <= 9)%nat -> inv q s ts -> step_ok q (step q s ts (Begin i)).
Proof.
  intros Hq [[V L] I1 I2 I3 I4 I5]. cbn [step]. destruct (ts !! i) as [[k|]|] eqn:Ei; try done.
  destruct (Z_le_gt_dec (lh_n (lg s) + (outstanding (lg s) + 1) * MAXOPBLOCKS) LOGSIZE) as [Hr|Hr].
  2:{ destruct (begin_op_waits s V ∅ L I2) as [s' ->]; [lia|done]. }
  destruct (wp_run begin_op (fun _ s' =>
    s' = mklogst (w_outstanding (outstanding (lg s) + 1) (lg s)) (lb s)) s) as ([] & s' & E & ->).
  { by eapply wp_begin_op. }
  rewrite E. clear E. cbn [step_ok].
  pose proof (sum_left_le q ts). rewrite I3 in Hr. unfold LOGSIZE, MAXOPBLOCKS in *.
  assert (0 <= sum active ts) by (apply sum_nonneg, list.Forall_forall; intros [|] _; simpl; lia).
  constructor; cbn [lg lb w_outstanding lsize committing outstanding lh_n]; try done.
  - exists V. by apply log_ok_lg.
  - rewrite (sum_insert _ _ _ None) by done. simpl. lia.
  - apply Forall_insert; [done|simpl; lia].
  - rewrite !(sum_insert _ _ _ None) by done. simpl. unfold LOGSIZE, MAXOPBLOCKS. nia.
Qed.

Lemma bounded_left q ts : Forall (bounded q) ts -> Forall (fun t => 0 <= left_of q t) ts.
Proof. intros H. eapply list.Forall_impl; [exact H|]. intros [k|]; simpl; lia. Qed.

Lemma active_nonneg ts : Forall (fun t => 0 <= active t) ts.
Proof. apply list.Forall_forall. intros [|] _; simpl; lia. Qed.

Lemma step_write q s ts i u :
  inv q s ts -> good_call (lg s) (Write i u) -> step_ok q (step q s ts (Write i u)).
Proof.
  intros [[V L] I1 I2 I3 I4 I5] [Hh Hf]. cbn [step]. destruct (ts !! i) as [[k|]|] eqn:Ei; try done.
  destruct (Nat.ltb_spec k q) as [Hk|]; [|done].
  pose proof (sum_elem (left_of q) ts i _ (bounded_left _ _ I4) Ei) as Hl. cbn [left_of] in Hl.
  pose proof (sum_elem active ts i _ (active_nonneg ts) Ei) as Ha. cbn [active] in Ha.
  pose proof (lo_geom _ _ _ L) as [G1 G2 G3 G4 G5]. destruct u as [n f]. cbn [fst snd] in *.
  assert (length (f (V n)) = BSIZE) as Hfn
    by (apply Hf, (lo_view _ _ _ L); destruct Hh; lia).
  destruct (wp_run (do_update (n, f)) (fun _ s' => lg s' = log_add (lg s) n /\
    exists V', log_ok s' V' ∅) s) as ([] & s' & E & El & V' & L').
  { eapply wp_do_update; [done..|lia|lia|lia|done|]. intros b' L' _. eauto. }
  rewrite E. clear E. cbn [step_ok]. destruct (log_add_keeps (lg s) n) as (A1 & A2 & A3).
  assert (lsize (log_add (lg s) n) = lsize (lg s)) as A4 by (unfold log_add; by case_decide).
  constructor; rewrite ?El; try lia.
  - eauto.
  - rewrite (sum_insert _ _ _ (Some k)) by done. simpl. lia.
  - apply Forall_insert; [done|simpl; lia].
  - rewrite !(sum_insert _ _ _ (Some k)) by done. cbn [left_of active]. lia.
Qed.

Lemma step_end q s ts i : inv q s ts -> step_ok q (step q s ts (End i)).
Proof.
  intros [[V L] I1 I2 I3 I4 I5]. cbn [step]. destruct (ts !! i) as [[k|]|] eqn:Ei; try done.
  pose proof (sum_elem (left_of q) ts i _ (bounded_left _ _ I4) Ei) as Hl. cbn [left_of] in Hl.
  pose proof (sum_elem active ts i _ (active_nonneg ts) Ei) as Ha. cbn [active] in Ha.
  pose proof (list.Forall_lookup_1 _ _ _ _ I4 Ei) as Hb. simpl in Hb.
  pose proof (lf_n _ (lo_fits _ _ _ L)) as Hn.
  destruct (wp_run end_op (fun _ s' => (exists V', log_ok s' V' ∅) /\ lsize (lg s') = LOGSIZE /\
    committing (lg s') = 0 /\ outstanding (lg s') = outstanding (lg s) - 1 /\
    lh_n (lg s') <= lh_n (lg s)) s) as ([] & s' & E & L' & E1 & E2 & E3 & E4).
  { destruct (Z.eq_dec (outstanding (lg s)) 1) as [Ho|Ho].
    - eapply wp_mono; [apply (wp_end_op_last s V L Ho I2)|].
      intros [] s' (El & L' & _). rewrite El. simpl. split_and!; [eauto|lia..].
    - eapply wp_mono; [apply (wp_end_op_more s V L); lia|].
      intros [] s' (El & L'). rewrite El. simpl. split_and!; [eauto|lia..]. }
  rewrite E. clear E. cbn [step_ok]. constructor; try done.
  - rewrite (sum_insert _ _ _ (Some k)) by done. simpl. lia.
  - by apply Forall_insert.
  - rewrite !(sum_insert _ _ _ (Some k)) by done. cbn [left_of active]. lia.
Qed.

Lemma step_inv q s ts c :
  (q <= 9)%nat -> inv q s ts -> good_call (lg s) c -> step_ok q (step q s ts c).
Proof.
  intros Hq I G. destruct c; [by apply step_begin|by apply step_write|by apply step_end].
Qed.

Lemma sum_replicate_None {A} (f : option A -> Z) n : f None = 0 -> sum f (replicate n None) = 0.
Proof. intros H. induction n; simpl; lia. Qed.

Lemma ops_reachable_inv q s0 n s ts :
  (q <= 9)%nat -> quiet s0 -> lsize (lg s0) = LOGSIZE -> reachable q s0 n s ts -> inv q s ts.
Proof.
  intros Hq [L Hs (H1 & H2 & H3)] Hl. induction 1 as [|s ts c s' ts' _ IH G E].
  - constructor; try done; [by eexists|..].
    + by rewrite sum_replicate_None.
    + by apply Forall_replicate.
    + rewrite !sum_replicate_None by done. rewrite H1. unfold LOGSIZE, MAXOPBLOCKS. lia.
  - pose proof (step_inv q s ts c Hq IH G) as H. by rewrite E in H.
Qed.

(** C5: with the log mkfs makes (LOGSIZE blocks), any number of processes and any
    interleaving of their system calls, if each call updates at most nine blocks then no
    begin_op, update or end_op panics or faults: begin_op waits when the log could run
    out, and otherwise the call returns. *)
Theorem calls_never_panic q s0 n s ts c :
  (q <= 9)%nat -> quiet s0 -> lsize (lg s0) = LOGSIZE -> reachable q s0 n s ts ->
  good_call (lg s) c -> step q s ts c <> Stuck.
Proof.
  intros Hq Q Hl R G E. pose proof (step_inv q s ts c Hq (ops_reachable_inv _ _ _ _ _ Hq Q Hl R) G) as H.
  by rewrite E in H.
Qed.

(** A disk with the log mkfs makes: 64 blocks, then LOGSIZE log blocks. *)
Definition mkfs_disk : list (list Z) :=
  let zero := replicate BSIZE 0 in
  <[1%nat := put32 (put32 zero 0 94) 12 30]> (replicate 94 zero).

Lemma mkfs_disk_valid : valid_log mkfs_disk 64 30.
Proof.
  constructor.
  - apply Forall_insert; [by apply Forall_replicate|done].
  - vm_compute. reflexivity.
  - vm_compute. reflexivity.
  - unfold mkfs_disk. rewrite length_insert, length_replicate. lia.
  - assert (hdr_n (disk_view mkfs_disk 64) = 0) as -> by (vm_compute; reflexivity). unfold NBUF. lia.
  - assert (hdr_secs (disk_view mkfs_disk 64) = []) as -> by (vm_compute; reflexivity).
    intros m Hm. inversion Hm.
Qed.

Definition mkfs_state : logst :=
  match mount (power_on mkfs_disk) with Ret _ s => s | _ => power_on [] end.

Lemma mkfs_state_quiet : quiet mkfs_state /\ lsize (lg mkfs_state) = LOGSIZE.
Proof.
  destruct (mount_quiet mkfs_disk 64 30 (disk_view mkfs_disk)) as (s & E & Q & _).
  - apply (recovers_logged _ _ _ _ []); [apply mkfs_disk_valid|vm_compute; reflexivity|done..].
  - unfold LOGSIZE, MAXOPBLOCKS. lia.
  - assert (mkfs_state = s) as -> by (unfold mkfs_state; by rewrite E).
    split; [done|]. destruct (wp_run _ _ _ (wp_mount _ _ _ mkfs_disk_valid))
      as ([] & s1 & E1 & _ & _ & _ & _ & secs & _ & El). rewrite E in E1. injection E1 as <-.
    by rewrite El.
Qed.

Lemma calls_never_panic_witness :
  step 9 mkfs_state (replicate 2 None) (Begin 0) <> Stuck.
Proof.
  apply (calls_never_panic 9 mkfs_state 2 mkfs_state (replicate 2 None) (Begin 0)).
  - lia.
  - apply mkfs_state_quiet.
  - apply mkfs_state_quiet.
  - apply R_init.
  - exact I.
Defined.

(** Three calls of MAXOPBLOCKS updates each, to blocks 2 .. 31. *)
Definition three_calls : M logst unit :=
  begin_op ;; begin_op ;; begin_op ;;
  forM (seq 2 30) (fun m => do_update (Z.of_nat m, fun d => d)).

(** Begin_op reserves for LOGSIZE blocks, but log_write takes at most one block
    less than the log has: with the log mkfs makes, three calls that begin_op admits
    together and that each stay within MAXOPBLOCKS make log_write panic. *)
Theorem three_calls_panic : three_calls mkfs_state = Panic "too big a transaction".
Proof. vm_compute. reflexivity. Qed.
End Ops.
