(* ===== verification/Kalloc.v ===== *)
(** * kalloc.c: the page allocator

    The free pages are a list through memory: the first word of a free page is the
    address of the next one.  The state is kmem (the lock, use_lock, the head of the
    list) and the memory itself; [flist] is the list it represents.  The linker's
    [end] is a parameter. *)

From stdpp Require Import base list numbers strings gmap sets.
From S2P Require Import Prelude CString Spinlock.
Import Ctx Mem.

Open Scope Z_scope.
Local Open Scope kernel_scope.

Definition PGSIZE : Z := 4096.
Definition KERNBASE : Z := 2147483648.
Definition PHYSTOP : Z := 234881024.

Definition PGROUNDUP (sz : Z) : Z := Z.ldiff (u32 (sz + PGSIZE - 1)) (PGSIZE - 1).
Definition PGROUNDDOWN (a : Z) : Z := Z.ldiff a (PGSIZE - 1).
Definition v2p (a : Z) : Z := u32 (a - KERNBASE).
Definition p2v (a : Z) : Z := u32 (a + KERNBASE).

(** A 32-bit load. *)
Definition load32 (m : mem) (a : Z) : Z := of_le [m a; m (u32 (a + 1)); m (u32 (a + 2)); m (u32 (a + 3))].

Record kst := mkkst { use_lock : Z; freelist : Z; kmemory : mem; kctx_of : kctx }.

#[export] Program Instance kst_ctx : HasCtx kst := {|
  ctx := kctx_of;
  with_ctx k s := mkkst (use_lock s) (freelist s) (kmemory s) k |}.
Next Obligation. done. Qed.
Next Obligation. done. Qed.
Next Obligation. by intros []. Qed.

Definition set_freelist (r : Z) : M kst unit :=
  modify (fun s => mkkst (use_lock s) r (kmemory s) (kctx_of s)).
Definition set_mem (f : mem -> mem) : M kst unit :=
  modify (fun s => mkkst (use_lock s) (freelist s) (f (kmemory s)) (kctx_of s)).
Definition set_use_lock (v : Z) : M kst unit :=
  modify (fun s => mkkst v (freelist s) (kmemory s) (kctx_of s)).

(** if(kmem.use_lock) acquire(&kmem.lock), and the same for release. *)
Definition klock : M kst unit :=
  u <- gets use_lock ;; when (negb (u =? 0)) do acquire LkKmem.
Definition kunlock : M kst unit :=
  u <- gets use_lock ;; when (negb (u =? 0)) do release LkKmem.

Section Kalloc.
(** The first address after the kernel. *)
Variable end_ : Z.

Definition kfree (v : Z) : M kst unit :=
  if negb (v mod PGSIZE =? 0) || (v <? end_) || (PHYSTOP <=? v2p v) then panic "kfree" else
  set_mem (fun m => snd (memset m v 1 PGSIZE)) ;;
  klock ;;
  r <- gets freelist ;;
  set_mem (fun m => store32 m v r) ;;
  set_freelist v ;;
  kunlock.

Definition kalloc : M kst Z :=
  klock ;;
  r <- gets freelist ;;
  m <- gets kmemory ;;
  (when (negb (r =? 0)) do set_freelist (load32 m r)) ;;
  kunlock ;;
  ret r.

Fixpoint freerange_loop (fuel : nat) (p vend : Z) : M kst unit :=
  match fuel with
  | O => out_of_fuel
  | S fuel =>
      if p + PGSIZE <=? vend then kfree p ;; freerange_loop fuel (p + PGSIZE) vend else ret tt
  end.

Definition freerange (vstart vend : Z) : M kst unit :=
  freerange_loop (S (Z.to_nat (vend / PGSIZE))) (PGROUNDUP vstart) vend.

Definition kinit1 (vstart vend : Z) : M kst unit :=
  set_use_lock 0 ;;
  freerange vstart vend.

Definition kinit2 (vstart vend : Z) : M kst unit :=
  freerange vstart vend ;;
  set_use_lock 1.

(** ** The list in memory *)

(** The addresses of pages the allocator may handle. *)
Definition page (p : Z) : Prop :=
  p mod PGSIZE = 0 /\ end_ <= p < KERNBASE + PHYSTOP /\ KERNBASE <= p.

Fixpoint flist (m : mem) (h : Z) (l : list Z) : Prop :=
  match l with
  | [] => h = 0
  | p :: l => h = p /\ page p /\ flist m (load32 m p) l
  end.

(** A byte of page [p]. *)
Definition in_page (p a : Z) : Prop := p <= a < p + PGSIZE.

Lemma page_range p : page p -> KERNBASE <= p /\ p + PGSIZE <= KERNBASE + PHYSTOP.
Proof.
  unfold page, PGSIZE, KERNBASE, PHYSTOP. intros (Hm & Hr & Hk). split; [lia|].
  apply Z.mod_divide in Hm as [q ->]; [|lia]. lia.
Qed.

Lemma pages_disjoint p q a : page p -> page q -> in_page p a -> in_page q a -> p = q.
Proof.
  unfold page, in_page, PGSIZE. intros (Hp & _) (Hq & _) Ha Hb.
  apply Z.mod_divide in Hp as [x ->]; [|lia]. apply Z.mod_divide in Hq as [y ->]; [|lia]. lia.
Qed.

Lemma load32_ext m m' p :
  page p -> (forall a, in_page p a -> m' a = m a) -> load32 m' p = load32 m p.
Proof.
  intros Hp H. apply page_range in Hp. unfold KERNBASE, PHYSTOP, PGSIZE, in_page in *.
  unfold load32. rewrite !u32_small by lia. by rewrite !H by (unfold PGSIZE; lia).
Qed.

Lemma flist_ext m m' h l :
  (forall p a, p ∈ l -> in_page p a -> m' a = m a) -> flist m h l -> flist m' h l.
Proof.
  revert h. induction l as [|p l IH]; intros h H; simpl; [done|].
  intros (-> & Hp & Hl). split; [done|]. split; [done|].
  rewrite (load32_ext m) by (first [done | intros a Ha; apply (H p a); [left|done]]).
  apply IH; [|done]. intros q a Hq. apply H. by right.
Qed.

Lemma flist_page m h l p : flist m h l -> p ∈ l -> page p.
Proof.
  revert h. induction l as [|q l IH]; intros h; simpl; [intros _ H; inversion H|].
  intros (_ & Hq & Hl) Hp. apply elem_of_cons in Hp as [->|Hp]; [done|eauto].
Qed.

Lemma load_store32 m a w : 0 <= a -> a + 4 < 2 ^ 32 -> load32 (store32 m a w) a = u32 w.
Proof.
  intros H0 H1. unfold load32. rewrite !u32_small by lia.
  rewrite !store32_spec by lia. unfold within.
  rewrite !(proj2 (Z.leb_le _ _)), !(proj2 (Z.ltb_lt _ _)) by lia. cbn [andb].
  replace (8 * (a - a)) with 0 by lia. replace (8 * (a + 1 - a)) with 8 by lia.
  replace (8 * (a + 2 - a)) with 16 by lia. replace (8 * (a + 3 - a)) with 24 by lia.
  rewrite !Z.shiftr_div_pow2 by lia. unfold u8, u32.
  pose proof (of_le_to_le 4 w) as E. cbn [to_le] in E. rewrite !Z.div_div in E by lia.
  rewrite Z.pow_0_r, Z.div_1_r. exact E.
Qed.

(** The allocator with free list [l]. *)
Record kmem_ok (s : kst) (l : list Z) : Prop := {
  ko_list : flist (kmemory s) (freelist s) l;
  ko_nodup : NoDup l;
  ko_lock : LkKmem ∉ held (kctx_of s) }.

(** The context inside the critical section. *)
Definition inside (u : Z) (k : kctx) : kctx :=
  if u =? 0 then k else mkctx (LkKmem :: held k) (woken k) (killed k).

Lemma wp_klock s Q :
  LkKmem ∉ held (kctx_of s) ->
  Q tt (mkkst (use_lock s) (freelist s) (kmemory s) (inside (use_lock s) (kctx_of s))) ->
  wp klock Q s.
Proof.
  intros Hl HQ. unfold klock, inside in *. wp_steps. destruct (use_lock s =? 0); cbn [negb].
  - wp_steps. by destruct s.
  - by apply wp_acquire.
Qed.

Lemma wp_kunlock s k Q :
  kctx_of s = inside (use_lock s) k ->
  Q tt (mkkst (use_lock s) (freelist s) (kmemory s) k) -> wp kunlock Q s.
Proof.
  intros Hk HQ. unfold kunlock, inside in *. wp_steps. destruct (use_lock s =? 0); cbn [negb].
  - wp_steps. rewrite <- Hk in HQ. by destruct s.
  - eapply wp_release; [simpl; by rewrite Hk|]. simpl. rewrite Hk. simpl. by destruct k.
Qed.

Lemma wp_kalloc s l (Q : Z -> kst -> Prop) :
  kmem_ok s l ->
  match l with
  | [] => Q 0 s
  | p :: l' => let s' := mkkst (use_lock s) (load32 (kmemory s) p) (kmemory s) (kctx_of s) in
               kmem_ok s' l' -> Q p s'
  end ->
  wp kalloc Q s.
Proof.
  intros [Hl Hd Hk] HQ. unfold kalloc. wp_steps. apply wp_klock; [done|]. wp_steps. cbn [freelist kmemory].
  destruct l as [|p l]; simpl in Hl.
  - rewrite Hl. cbn [Z.eqb negb]. wp_steps. eapply wp_kunlock; [done|]. wp_steps. cbn.
    destruct s. simpl in *. by subst.
  - destruct Hl as (Hh & Hp & Hl). pose proof (page_range p Hp) as Hr. unfold KERNBASE in Hr.
    rewrite Hh, (proj2 (Z.eqb_neq p 0)) by lia. cbn [negb]. unfold set_freelist. wp_steps.
    eapply wp_kunlock; [done|]. wp_steps. cbn [use_lock freelist kmemory]. apply HQ.
    apply list.NoDup_cons in Hd as [_ Hd]. by constructor.
Qed.

Lemma wp_kfree s l p (Q : unit -> kst -> Prop) :
  kmem_ok s l -> page p -> p ∉ l ->
  (forall m', (forall a, ~ in_page p a -> m' a = kmemory s a) ->
     let s' := mkkst (use_lock s) p m' (kctx_of s) in
     kmem_ok s' (p :: l) -> Q tt s') ->
  wp (kfree p) Q s.
Proof.
  intros [Hl Hd Hk] Hp Hni HQ. pose proof (page_range p Hp) as Hr. pose proof Hp as (Hm & He & _).
  unfold KERNBASE, PHYSTOP, PGSIZE in *.
  unfold kfree, v2p. rewrite u32_small by (unfold KERNBASE; lia).
  unfold KERNBASE, PHYSTOP, PGSIZE. rewrite Hm, (proj2 (Z.ltb_ge _ _)), (proj2 (Z.leb_gt _ _)) by lia.
  cbn [Z.eqb negb orb]. unfold set_mem, set_freelist. wp_steps. apply wp_klock; [done|]. wp_steps.
  eapply wp_kunlock; [done|]. cbn [use_lock freelist kmemory kctx_of].
  set (m' := store32 _ p (freelist s)).
  assert (Hm' : forall a, ~ in_page p a -> m' a = kmemory s a).
  { intros a Ha. unfold in_page, PGSIZE in Ha. unfold m'. rewrite store32_spec, memset_spec by lia.
    unfold within. destruct (Z.leb_spec p a), (Z.ltb_spec a (p + 4)); simpl; try lia;
      destruct (Z.ltb_spec a (p + 4096)); simpl; try lia; done. }
  apply HQ; [done|]. constructor; [|by apply list.NoDup_cons|done]. simpl.
  split; [done|]. split; [done|]. unfold m'. rewrite load_store32 by lia.
  fold m'. assert (u32 (freelist s) = freelist s) as ->.
  { apply u32_small. destruct l as [|q l]; simpl in Hl; [lia|].
    destruct Hl as (-> & Hq & _). apply page_range in Hq. unfold KERNBASE, PHYSTOP, PGSIZE in Hq. lia. }
  eapply flist_ext; [|exact Hl]. intros q a Hq Ha. apply Hm'. intros Ha'.
  assert (q = p) as -> by (eapply pages_disjoint; eauto using flist_page). done.
Qed.

(** ** freerange *)

Definition pages_from (p : Z) (n : nat) : list Z := (fun i => p + PGSIZE * Z.of_nat i) <$> seq 0 n.

Lemma pages_from_S p n : pages_from p (S n) = p :: pages_from (p + PGSIZE) n.
Proof.
  unfold pages_from. simpl. f_equal; [unfold PGSIZE; lia|]. rewrite <- seq_shift, <- list_fmap_compose.
  apply list_fmap_ext. intros i x _. unfold PGSIZE. simpl. lia.
Qed.

Lemma elem_pages_from p n q :
  q ∈ pages_from p n <-> exists i, (i < n)%nat /\ q = p + PGSIZE * Z.of_nat i.
Proof.
  unfold pages_from. rewrite list_elem_of_fmap. split.
  - intros (i & -> & Hi). apply elem_of_seq in Hi. exists i. split; [lia|done].
  - intros (i & Hi & ->). exists i. split; [done|]. apply elem_of_seq. lia.
Qed.

Lemma wp_freerange_loop n fuel p vend s l (Q : unit -> kst -> Prop) :
  (n < fuel)%nat -> p + PGSIZE * Z.of_nat n <= vend < p + PGSIZE * (Z.of_nat n + 1) ->
  kmem_ok s l -> (forall q, q ∈ pages_from p n -> page q /\ q ∉ l) ->
  (forall s', use_lock s' = use_lock s -> kctx_of s' = kctx_of s ->
     kmem_ok s' (rev (pages_from p n) ++ l) -> Q tt s') ->
  wp (freerange_loop fuel p vend) Q s.
Proof.
  revert fuel p s l. induction n as [|n IH]; intros fuel p s l Hf Hr Hk Hp HQ;
    (destruct fuel as [|fuel]; [lia|]); cbn [freerange_loop].
  - rewrite (proj2 (Z.leb_gt _ _)) by (unfold PGSIZE in *; lia). wp_steps. by apply HQ.
  - rewrite (proj2 (Z.leb_le _ _)) by (unfold PGSIZE in *; lia). wp_steps.
    destruct (Hp p) as [Hpp Hpl]; [rewrite pages_from_S; left|].
    eapply wp_kfree; [done..|]. intros m' Hm' s' Hk'.
    eapply (IH fuel (p + PGSIZE) s' (p :: l)); [lia|unfold PGSIZE in *; lia|done| |].
    + intros q Hq. destruct (Hp q) as [Hqp Hql]; [rewrite pages_from_S; by right|].
      split; [done|]. apply not_elem_of_cons. split; [|done].
      apply elem_pages_from in Hq as (i & _ & ->). unfold PGSIZE. lia.
    + intros s2 E1 E2 Hk2. apply HQ; [done|done|].
      rewrite pages_from_S. simpl. by rewrite <- app_assoc.
Qed.

Lemma pgroundup_spec a :
  0 <= a < 2 ^ 32 - PGSIZE ->
  PGROUNDUP a mod PGSIZE = 0 /\ a <= PGROUNDUP a < a + PGSIZE.
Proof.
  intros Ha. unfold PGROUNDUP. unfold PGSIZE in *. rewrite u32_small by lia.
  change (4096 - 1) with (Z.ones 12). rewrite Z.ldiff_ones_r by lia.
  rewrite Z.shiftl_mul_pow2, Z.shiftr_div_pow2 by lia. change (2 ^ 12) with 4096.
  split; [apply Z.mod_mul; lia|].
  pose proof (Z.div_mod (a + 4096 - 1) 4096). pose proof (Z.mod_pos_bound (a + 4096 - 1) 4096). lia.
Qed.

Lemma wp_freerange vstart vend s l (Q : unit -> kst -> Prop) :
  KERNBASE <= vstart <= KERNBASE + PHYSTOP -> end_ <= vstart -> PGROUNDUP vstart <= vend <= KERNBASE + PHYSTOP ->
  kmem_ok s l -> (forall q, q ∈ l -> q < vstart) ->
  (forall s' l', use_lock s' = use_lock s -> kctx_of s' = kctx_of s -> kmem_ok s' l' ->
     (forall q, q ∈ l' <-> q ∈ l \/ (page q /\ vstart <= q /\ q + PGSIZE <= vend)) -> Q tt s') ->
  wp (freerange vstart vend) Q s.
Proof.
  intros Hs He Hv Hk Hl HQ. unfold KERNBASE, PHYSTOP in *.
  destruct (pgroundup_spec vstart) as [Hm Hr]; [unfold PGSIZE; lia|].
  set (p := PGROUNDUP vstart) in *. set (n := Z.to_nat ((vend - p) / PGSIZE)).
  assert (p + PGSIZE * Z.of_nat n <= vend < p + PGSIZE * (Z.of_nat n + 1)) as Hn.
  { unfold n, PGSIZE in *. rewrite Z2Nat.id by (apply Z.div_pos; lia).
    pose proof (Z.div_mod (vend - p) 4096). pose proof (Z.mod_pos_bound (vend - p) 4096). lia. }
  unfold freerange. fold p.
  assert (Hpg : forall q, q ∈ pages_from p n <-> page q /\ vstart <= q /\ q + PGSIZE <= vend).
  { intros q. rewrite elem_pages_from. unfold page, KERNBASE, PHYSTOP, PGSIZE in *. split.
    - intros (i & Hi & ->). split_and!; try lia.
      replace (p + 4096 * Z.of_nat i) with (p + Z.of_nat i * 4096) by lia.
      by rewrite Z_mod_plus_full.
    - intros ((Hq & Hq2) & Hq3 & Hq4). apply Z.mod_divide in Hq as [y ->]; [|lia].
      apply Z.mod_divide in Hm as [x Ex]; [|lia]. rewrite Ex in *.
      exists (Z.to_nat (y - x)). rewrite Z2Nat.id by lia. lia. }
  eapply (wp_freerange_loop n); [|done|done| |].
  - unfold n, PGSIZE in *.
    assert ((vend - p) / 4096 <= vend / 4096) by (apply Z.div_le_mono; lia).
    assert (0 <= (vend - p) / 4096) by (apply Z.div_pos; lia). lia.
  - intros q Hq. apply Hpg in Hq as (Hq & Hq2 & _). split; [done|]. intros Hin. apply Hl in Hin. lia.
  - intros s' E1 E2 Hk'. eapply HQ; [done|done|exact Hk'|].
    intros q. rewrite elem_of_app, <- Hpg. rewrite list_elem_of_In, <- in_rev, <- list_elem_of_In. tauto.
Qed.

(** ** The contract of the allocator *)

(** What a client may do: allocate, free a page it owns, write into a page it owns.
    [A] are the pages it owns. *)
Inductive reach (s0 : kst) : kst -> gset Z -> Prop :=
| K_init : reach s0 s0 ∅
| K_alloc s A p s' :
    reach s0 s A -> kalloc s = Ret p s' -> p <> 0 -> reach s0 s' ({[p]} ∪ A)
| K_full s A s' :
    reach s0 s A -> kalloc s = Ret 0 s' -> reach s0 s' A
| K_free s A p s' :
    reach s0 s A -> p ∈ A -> kfree p s = Ret tt s' -> reach s0 s' (A ∖ {[p]})
| K_write s A p a v :
    reach s0 s A -> p ∈ A -> in_page p a ->
    reach s0 (mkkst (use_lock s) (freelist s) (upd (kmemory s) a v) (kctx_of s)) A.

(** Every page is owned or on the free list, and not both. *)
Record kinv (s : kst) (A : gset Z) : Prop := {
  ki_list : exists l, kmem_ok s l /\ (forall p, p ∈ l <-> page p /\ p ∉ A);
  ki_own : forall p, p ∈ A -> page p }.

Lemma kinv_alloc s A :
  kinv s A ->
  exists p s', kalloc s = Ret p s' /\
    ((p = 0 /\ s' = s /\ forall q, page q -> q ∈ A) \/
     (page p /\ (p ∉ A) /\ kinv s' ({[p]} ∪ A))).
Proof.
  intros [(l & Hk & Hl) Ho]. apply wp_run. eapply wp_kalloc; [exact Hk|].
  destruct l as [|p l].
  - left. split_and!; [done..|]. intros q Hq. destruct (decide (q ∈ A)) as [|Hn]; [done|].
    pose proof (proj2 (Hl q) (conj Hq Hn)) as H. inversion H.
  - intros s' Hk'. right. destruct (proj1 (Hl p)) as [Hp HpA]; [left|]. split_and!; [done..|].
    pose proof (ko_nodup _ _ Hk) as Hd. apply list.NoDup_cons in Hd as [Hpl Hd].
    constructor.
    + exists l. split; [done|]. intros q. specialize (Hl q). rewrite elem_of_cons in Hl.
      rewrite not_elem_of_union, not_elem_of_singleton. destruct (decide (q = p)) as [->|]; tauto.
    + intros q Hq. apply elem_of_union in Hq as [Hq|Hq]; [|by apply Ho].
      by apply elem_of_singleton in Hq as ->.
Qed.

Lemma kinv_free s A p :
  kinv s A -> p ∈ A -> exists s', kfree p s = Ret tt s' /\ kinv s' (A ∖ {[p]}).
Proof.
  intros [(l & Hk & Hl) Ho] Hp.
  destruct (wp_run (kfree p) (fun _ s' => kinv s' (A ∖ {[p]})) s) as ([] & s' & H); [|by exists s'].
  eapply wp_kfree; [exact Hk|by apply Ho| |].
  { intros H. apply Hl in H as [_ H]. done. }
  intros m' _ s' Hk'. constructor.
  - exists (p :: l). split; [done|]. intros q. rewrite elem_of_cons, Hl. specialize (Ho p Hp).
    rewrite not_elem_of_difference, elem_of_singleton. destruct (decide (q = p)) as [->|]; tauto.
  - intros q Hq. apply elem_of_difference in Hq as [Hq _]. auto.
Qed.

Lemma kinv_write s A p a v :
  kinv s A -> p ∈ A -> in_page p a ->
  kinv (mkkst (use_lock s) (freelist s) (upd (kmemory s) a v) (kctx_of s)) A.
Proof.
  intros [(l & [H1 H2 H3] & Hl) Ho] Hp Ha. constructor; [|done]. exists l. split; [|done].
  constructor; [|done|done]. simpl. eapply flist_ext; [|exact H1].
  intros q b Hq Hb. apply upd_ne. intros ->. apply Hl in Hq as [Hq HqA].
  by rewrite (pages_disjoint q p a Hq (Ho p Hp) Hb Ha) in HqA.
Qed.

Lemma reach_kinv s0 s A : kinv s0 ∅ -> reach s0 s A -> kinv s A.
Proof.
  intros I0. induction 1 as [|s A p s' _ IH E Hp|s A s' _ IH E|s A p s' _ IH Hp E|s A p a v _ IH Hp Ha].
  - done.
  - destruct (kinv_alloc s A IH) as (p' & s1 & E1 & H). rewrite E in E1. injection E1 as <- <-.
    destruct H as [(-> & _)|(_ & _ & H)]; done.
  - destruct (kinv_alloc s A IH) as (p' & s1 & E1 & H). rewrite E in E1. injection E1 as <- <-.
    destruct H as [(_ & -> & _)|(H & _)]; [done|]. apply page_range in H. unfold KERNBASE in H. lia.
  - destruct (kinv_free s A p IH Hp) as (s1 & E1 & H). rewrite E in E1. by injection E1 as <-.
  - by apply (kinv_write s A p).
Qed.

(** main: kinit1(end, P2V(4*1024*1024)), then kinit2(P2V(4*1024*1024), P2V(PHYSTOP)); the
    pages main allocates between the two calls are left out. *)
Definition kinit : M kst unit :=
  kinit1 end_ (p2v (4 * 1024 * 1024)) ;;
  kinit2 (p2v (4 * 1024 * 1024)) (p2v PHYSTOP).

Hypothesis end_range : KERNBASE <= end_ <= KERNBASE + 4 * 1024 * 1024.

(** Initialisation frees every page between the kernel and the top of memory. *)
Lemma wp_kinit u m k :
  LkKmem ∉ held k -> wp kinit (fun _ s => kinv s ∅) (mkkst u 0 m k).
Proof.
  intros Hk. unfold kinit, kinit1, kinit2, set_use_lock, p2v.
  rewrite !u32_small by (unfold PHYSTOP, KERNBASE; lia). unfold KERNBASE in *.
  destruct (pgroundup_spec end_) as [P1 P2]; [unfold PGSIZE; lia|].
  wp_steps. eapply (wp_freerange _ _ _ []); unfold KERNBASE, PHYSTOP, PGSIZE in *; [lia|lia| |constructor; [done|apply NoDup_nil_2|done]| |].
  { split; [|lia]. apply Z.mod_divide in P1 as [q Eq]; lia. }
  { intros q Hq. inversion Hq. }
  intros s1 l1 E1 E2 K1 Hl1. wp_steps. cbn [use_lock kctx_of] in *.
  eapply (wp_freerange _ _ _ l1); unfold KERNBASE, PHYSTOP, PGSIZE in *; [lia|lia| |exact K1| |].
  { change (PGROUNDUP (4 * 1024 * 1024 + 2147483648)) with 2151677952. lia. }
  { intros q Hq. apply Hl1 in Hq as [Hq|(_ & _ & Hq)]; [inversion Hq|lia]. }
  intros s2 l2 F1 F2 K2 Hl2. wp_steps. constructor; [|intros p Hp; by apply not_elem_of_empty in Hp].
  exists l2. destruct K2 as [A1 A2 A3]. split; [by constructor|]. intros p. rewrite Hl2, Hl1. split.
  - intros [[H|(H & _)]|(H & _)]; [inversion H|by split; [|apply not_elem_of_empty]..].
  - intros [H _]. pose proof (page_range p H) as Hr. unfold page, KERNBASE, PHYSTOP, PGSIZE in *.
    destruct (Z_le_gt_dec (4 * 1024 * 1024 + 2147483648) p); [right; split_and!; try tauto; lia|].
    left. right. split_and!; try tauto; try lia.
    destruct H as (Hp & _). apply Z.mod_divide in Hp as [q Eq]; lia.
Qed.

(** C33: after kinit1 and kinit2, called one after the other, whatever allocations, frees of owned pages and writes
    into owned pages follow, kfree of an owned page returns, and kalloc returns a page
    that lies between the kernel and PHYSTOP and that nobody owns, or 0 exactly when
    every page is owned: no page is handed out twice, none is lost, and no client write
    reaches the free list. *)
Theorem kalloc_safe u m k :
  LkKmem ∉ held k ->
  exists s0, kinit (mkkst u 0 m k) = Ret tt s0 /\
    forall s A, reach s0 s A ->
      (forall p, p ∈ A -> exists s', kfree p s = Ret tt s') /\
      exists p s', kalloc s = Ret p s' /\
        ((p = 0 /\ forall q, page q -> q ∈ A) \/ (page p /\ p ∉ A)).
Proof.
  intros Hk. destruct (wp_run _ _ _ (wp_kinit u m k Hk)) as ([] & s0 & E & I0).
  exists s0. split; [done|]. intros s A R. pose proof (reach_kinv s0 s A I0 R) as I. split.
  - intros p Hp. destruct (kinv_free s A p I Hp) as (s' & H & _). by exists s'.
  - destruct (kinv_alloc s A I) as (p & s' & H & Hp). exists p, s'. split; [done|]. tauto.
Qed.
End Kalloc.

Lemma kalloc_safe_witness :
  exists s0, kinit (KERNBASE + 1048576) (mkkst 0 0 (fun _ => 0) (mkctx [] [] false)) = Ret tt s0 /\
    exists p s', kalloc s0 = Ret p s' /\
      ((p = 0 /\ forall q, page (KERNBASE + 1048576) q -> q ∈ (∅ : gset Z)) \/
       (page (KERNBASE + 1048576) p /\ p ∉ (∅ : gset Z))).
Proof.
  destruct (kalloc_safe (KERNBASE + 1048576) ltac:(unfold KERNBASE; lia) 0 (fun _ => 0)
    (mkctx [] [] false)) as (s0 & E & H).
  - apply not_elem_of_nil.
  - exists s0. split; [exact E|].
    destruct (H s0 ∅ (K_init _ s0)) as [_ H']. exact H'.
Defined.
