(* ===== verification/Proc.v ===== *)
(** * proc.c: processes, their threads, and the scheduler

    [psys] is ptable (the processes and the table of threads of each), the counters,
    the trap frames and contexts in memory, and the [proc] and [thread] variables of
    the processor that runs.  Pointers to processes and threads are indices; a
    process's [threads] pointer is the index of a row of the thread table, or null.

    A routine is the code between two context switches: [sleep], [yield] and [wait]
    are split at their call of [swtch].  What proc.c calls in other components
    (pages, page tables, files, inodes) is the interface [ProcEnv]. *)

From stdpp Require Import base list numbers strings gmap sets.
From S2P Require Import Prelude CString Spinlock Kalloc.
Import Ctx.

Open Scope Z_scope.
Local Open Scope kernel_scope.

Definition NPROC : nat := 64.
Definition NTHREAD : nat := 16.
Definition NOFILE : nat := 16.
Definition KSTACKSIZE : Z := 4096.

Inductive state := UNUSED | EMBRYO | SLEEPING | RUNNABLE | RUNNING | ZOMBIE.

#[export] Instance state_eq_dec : EqDecision state.
Proof. solve_decision. Defined.

(** struct trapframe; the padding is left out. *)
Record trapframe := mktf {
  tf_edi : Z; tf_esi : Z; tf_ebp : Z; tf_oesp : Z; tf_ebx : Z; tf_edx : Z; tf_ecx : Z; tf_eax : Z;
  tf_gs : Z; tf_fs : Z; tf_es : Z; tf_ds : Z; tf_trapno : Z;
  tf_err : Z; tf_eip : Z; tf_cs : Z; tf_eflags : Z; tf_esp : Z; tf_ss : Z }.
Definition sizeof_trapframe : Z := 76.

Definition zero_tf : trapframe := mktf 0 0 0 0 0 0 0 0 0 0 0 0 0 0 0 0 0 0 0.
Definition tf_set_eax v f := mktf (tf_edi f) (tf_esi f) (tf_ebp f) (tf_oesp f) (tf_ebx f) (tf_edx f)
  (tf_ecx f) v (tf_gs f) (tf_fs f) (tf_es f) (tf_ds f) (tf_trapno f) (tf_err f) (tf_eip f) (tf_cs f)
  (tf_eflags f) (tf_esp f) (tf_ss f).
Definition tf_start eip esp eflags f := mktf (tf_edi f) (tf_esi f) (tf_ebp f) (tf_oesp f) (tf_ebx f)
  (tf_edx f) (tf_ecx f) (tf_eax f) (tf_gs f) (tf_fs f) (tf_es f) (tf_ds f) (tf_trapno f) (tf_err f)
  eip (tf_cs f) eflags esp (tf_ss f).

(** struct context. *)
Record context := mkcontext { c_edi : Z; c_esi : Z; c_ebx : Z; c_ebp : Z; c_eip : Z }.
Definition sizeof_context : Z := 20.

Record kthread := mkth {
  t_kstack : Z;
  t_state : state;
  t_tid : Z;
  t_parent : option nat;
  t_tf : Z;
  t_context : Z;
  t_chan : option chan;
  t_lock : bool;            (* ptableLock is set *)
  t_kernelStack : Z }.

Record proc := mkproc {
  p_sz : Z;
  p_pgdir : Z;
  p_kstack : Z;
  p_state : state;
  p_pid : Z;
  p_parent : option nat;
  p_killed : Z;
  p_ofile : list Z;
  p_cwd : Z;
  p_name : list Z;
  p_threads : option nat }.

Definition tw_kstack v t := mkth v (t_state t) (t_tid t) (t_parent t) (t_tf t) (t_context t) (t_chan t) (t_lock t) (t_kernelStack t).
Definition tw_state v t := mkth (t_kstack t) v (t_tid t) (t_parent t) (t_tf t) (t_context t) (t_chan t) (t_lock t) (t_kernelStack t).
Definition tw_tid v t := mkth (t_kstack t) (t_state t) v (t_parent t) (t_tf t) (t_context t) (t_chan t) (t_lock t) (t_kernelStack t).
Definition tw_parent v t := mkth (t_kstack t) (t_state t) (t_tid t) v (t_tf t) (t_context t) (t_chan t) (t_lock t) (t_kernelStack t).
Definition tw_tf v t := mkth (t_kstack t) (t_state t) (t_tid t) (t_parent t) v (t_context t) (t_chan t) (t_lock t) (t_kernelStack t).
Definition tw_context v t := mkth (t_kstack t) (t_state t) (t_tid t) (t_parent t) (t_tf t) v (t_chan t) (t_lock t) (t_kernelStack t).
Definition tw_chan v t := mkth (t_kstack t) (t_state t) (t_tid t) (t_parent t) (t_tf t) (t_context t) v (t_lock t) (t_kernelStack t).
Definition tw_lock v t := mkth (t_kstack t) (t_state t) (t_tid t) (t_parent t) (t_tf t) (t_context t) (t_chan t) v (t_kernelStack t).
Definition tw_kernelStack v t := mkth (t_kstack t) (t_state t) (t_tid t) (t_parent t) (t_tf t) (t_context t) (t_chan t) (t_lock t) v.

Definition pw_sz v p := mkproc v (p_pgdir p) (p_kstack p) (p_state p) (p_pid p) (p_parent p) (p_killed p) (p_ofile p) (p_cwd p) (p_name p) (p_threads p).
Definition pw_pgdir v p := mkproc (p_sz p) v (p_kstack p) (p_state p) (p_pid p) (p_parent p) (p_killed p) (p_ofile p) (p_cwd p) (p_name p) (p_threads p).
Definition pw_kstack v p := mkproc (p_sz p) (p_pgdir p) v (p_state p) (p_pid p) (p_parent p) (p_killed p) (p_ofile p) (p_cwd p) (p_name p) (p_threads p).
Definition pw_state v p := mkproc (p_sz p) (p_pgdir p) (p_kstack p) v (p_pid p) (p_parent p) (p_killed p) (p_ofile p) (p_cwd p) (p_name p) (p_threads p).
Definition pw_pid v p := mkproc (p_sz p) (p_pgdir p) (p_kstack p) (p_state p) v (p_parent p) (p_killed p) (p_ofile p) (p_cwd p) (p_name p) (p_threads p).
Definition pw_parent v p := mkproc (p_sz p) (p_pgdir p) (p_kstack p) (p_state p) (p_pid p) v (p_killed p) (p_ofile p) (p_cwd p) (p_name p) (p_threads p).
Definition pw_killed v p := mkproc (p_sz p) (p_pgdir p) (p_kstack p) (p_state p) (p_pid p) (p_parent p) v (p_ofile p) (p_cwd p) (p_name p) (p_threads p).
Definition pw_ofile v p := mkproc (p_sz p) (p_pgdir p) (p_kstack p) (p_state p) (p_pid p) (p_parent p) (p_killed p) v (p_cwd p) (p_name p) (p_threads p).
Definition pw_cwd v p := mkproc (p_sz p) (p_pgdir p) (p_kstack p) (p_state p) (p_pid p) (p_parent p) (p_killed p) (p_ofile p) v (p_name p) (p_threads p).
Definition pw_name v p := mkproc (p_sz p) (p_pgdir p) (p_kstack p) (p_state p) (p_pid p) (p_parent p) (p_killed p) (p_ofile p) (p_cwd p) v (p_threads p).
Definition pw_threads v p := mkproc (p_sz p) (p_pgdir p) (p_kstack p) (p_state p) (p_pid p) (p_parent p) (p_killed p) (p_ofile p) (p_cwd p) (p_name p) v.

(** What proc.c relies on in kalloc.c, vm.c, file.c, fs.c and log.c, on their state [E].
    A null result is 0. *)
Class ProcEnv (E : Type) := {
  e_kalloc : M E Z;
  e_kfree : Z -> M E unit;
  e_setupkvm : M E Z;
  e_inituvm : Z -> M E unit;
  e_copyuvm : Z -> Z -> M E Z;
  e_allocuvm : Z -> Z -> Z -> M E Z;
  e_deallocuvm : Z -> Z -> Z -> M E Z;
  e_freevm : Z -> M E unit;
  e_filedup : Z -> M E Z;
  e_fileclose : Z -> M E unit;
  e_idup : Z -> M E Z;
  e_iput : Z -> M E unit;
  e_namei_root : M E Z;
  e_begin_op : M E unit;
  e_end_op : M E unit;
  e_initlog : M E unit }.

Record psys (E : Type) := mkpsys {
  procs : list proc;
  ttable : list (list kthread);
  initproc : option nat;
  nextpid : Z;
  nexttid : Z;
  tfs : gmap Z trapframe;
  contexts : gmap Z context;
  words : gmap Z Z;
  cur : option nat;
  curt : option (nat * nat);
  first : bool;                  (* forkret's static variable *)
  env : E;
  pctx : kctx }.
Arguments mkpsys {E}. Arguments procs {E}. Arguments ttable {E}. Arguments initproc {E}.
Arguments nextpid {E}. Arguments nexttid {E}. Arguments tfs {E}. Arguments contexts {E}.
Arguments words {E}. Arguments cur {E}. Arguments curt {E}. Arguments first {E}.
Arguments env {E}. Arguments pctx {E}.

#[export] Program Instance psys_ctx (E : Type) : HasCtx (psys E) := {|
  ctx := pctx;
  with_ctx k s := mkpsys (procs s) (ttable s) (initproc s) (nextpid s) (nexttid s) (tfs s) (contexts s)
    (words s) (cur s) (curt s) (first s) (env s) k |}.
Next Obligation. done. Qed.
Next Obligation. done. Qed.
Next Obligation. by intros ? []. Qed.

Definition procIsReady (p : proc) : bool :=
  bool_decide (p_state p = RUNNABLE) || bool_decide (p_state p = RUNNING).

Section Ops.
Context {E : Type} `{ProcEnv E}.
(** The addresses of the assembly routine trapret and of forkret. *)
Variables trapret forkret_addr : Z.
Abbreviation PS := (psys E).

(** ** Access to the tables *)

Definition getp (i : nat) : M PS proc := l <- gets procs ;; lift_opt (l !! i).
Definition setp (i : nat) (f : proc -> proc) : M PS unit :=
  getp i ;;
  modify (fun s => mkpsys (alter f i (procs s)) (ttable s) (initproc s) (nextpid s) (nexttid s) (tfs s)
    (contexts s) (words s) (cur s) (curt s) (first s) (env s) (pctx s)).

Definition gett (r t : nat) : M PS kthread :=
  l <- gets ttable ;; row <- lift_opt (l !! r) ;; lift_opt (row !! t).
Definition sett (r t : nat) (f : kthread -> kthread) : M PS unit :=
  gett r t ;;
  modify (fun s => mkpsys (procs s) (alter (alter f t) r (ttable s)) (initproc s) (nextpid s) (nexttid s)
    (tfs s) (contexts s) (words s) (cur s) (curt s) (first s) (env s) (pctx s)).

(** p->threads; null is a fault where it is dereferenced. *)
Definition row_of (i : nat) : M PS nat := p <- getp i ;; lift_opt (p_threads p).

(** The variables proc and thread of this processor. *)
Definition curproc : M PS nat := c <- gets cur ;; lift_opt c.
Definition curthread : M PS (nat * nat) := t <- gets curt ;; lift_opt t.
Definition set_cur (c : option nat) : M PS unit :=
  modify (fun s => mkpsys (procs s) (ttable s) (initproc s) (nextpid s) (nexttid s) (tfs s) (contexts s)
    (words s) c (curt s) (first s) (env s) (pctx s)).
Definition set_curt (t : option (nat * nat)) : M PS unit :=
  modify (fun s => mkpsys (procs s) (ttable s) (initproc s) (nextpid s) (nexttid s) (tfs s) (contexts s)
    (words s) (cur s) t (first s) (env s) (pctx s)).

Definition get_tf (a : Z) : M PS trapframe := m <- gets tfs ;; lift_opt (m !! a).
Definition put_tf (a : Z) (f : trapframe) : M PS unit :=
  modify (fun s => mkpsys (procs s) (ttable s) (initproc s) (nextpid s) (nexttid s) (<[a := f]> (tfs s))
    (contexts s) (words s) (cur s) (curt s) (first s) (env s) (pctx s)).
Definition put_context (a : Z) (c : context) : M PS unit :=
  modify (fun s => mkpsys (procs s) (ttable s) (initproc s) (nextpid s) (nexttid s) (tfs s)
    (<[a := c]> (contexts s)) (words s) (cur s) (curt s) (first s) (env s) (pctx s)).
Definition put_word (a v : Z) : M PS unit :=
  modify (fun s => mkpsys (procs s) (ttable s) (initproc s) (nextpid s) (nexttid s) (tfs s)
    (contexts s) (<[a := v]> (words s)) (cur s) (curt s) (first s) (env s) (pctx s)).
Definition set_nextpid (v : Z) : M PS unit :=
  modify (fun s => mkpsys (procs s) (ttable s) (initproc s) v (nexttid s) (tfs s) (contexts s)
    (words s) (cur s) (curt s) (first s) (env s) (pctx s)).
Definition set_nexttid (v : Z) : M PS unit :=
  modify (fun s => mkpsys (procs s) (ttable s) (initproc s) (nextpid s) v (tfs s) (contexts s)
    (words s) (cur s) (curt s) (first s) (env s) (pctx s)).
Definition set_initproc (v : option nat) : M PS unit :=
  modify (fun s => mkpsys (procs s) (ttable s) v (nextpid s) (nexttid s) (tfs s) (contexts s)
    (words s) (cur s) (curt s) (first s) (env s) (pctx s)).
Definition set_first (v : bool) : M PS unit :=
  modify (fun s => mkpsys (procs s) (ttable s) (initproc s) (nextpid s) (nexttid s) (tfs s) (contexts s)
    (words s) (cur s) (curt s) v (env s) (pctx s)).

(** A call into another component. *)
Definition in_env {A} (m : M E A) : M PS A :=
  zoom env (fun e s => mkpsys (procs s) (ttable s) (initproc s) (nextpid s) (nexttid s) (tfs s) (contexts s)
    (words s) (cur s) (curt s) (first s) e (pctx s)) m.

(** ** Operations *)

(** The first process that is UNUSED. *)
Fixpoint find_unused (l : list proc) (i : nat) : option nat :=
  match l with
  | [] => None
  | p :: l => if bool_decide (p_state p = UNUSED) then Some i else find_unused l (1 + i)
  end.

(** The claim of a slot, under ptable.lock. *)
Definition alloc_slot : M PS (option nat) :=
  acquire LkPtable ;;
  l <- gets procs ;;
  match find_unused l 0 with
  | None => release LkPtable ;; ret None
  | Some i =>
      setp i (pw_state EMBRYO) ;;
      setp i (pw_threads (Some i)) ;;
      n <- gets nextpid ;;
      setp i (pw_pid n) ;;
      set_nextpid (i32 (n + 1)) ;;
      release LkPtable ;;
      ret (Some i)
  end.

(** The kernel stack and the first thread of the new process. *)
Definition alloc_init (i : nat) : M PS (option nat) :=
  k <- in_env e_kalloc ;;
  setp i (pw_kstack k) ;;
  if k =? 0 then setp i (pw_state UNUSED) ;; ret None else
  forM (seq 0 NTHREAD) (fun t =>
    r <- row_of i ;; sett r t (tw_state UNUSED) ;; sett r t (tw_lock true)) ;;
  r <- row_of i ;;
  let sp := k + KSTACKSIZE - sizeof_trapframe in
  sett r 0 (tw_tf sp) ;;
  let sp := sp - 4 in
  put_word sp trapret ;;
  let sp := sp - sizeof_context in
  sett r 0 (tw_context sp) ;;
  put_context sp (mkcontext 0 0 0 0 0) ;;
  put_context sp (mkcontext 0 0 0 0 forkret_addr) ;;
  p <- getp i ;;
  sett r 0 (tw_kstack (p_kstack p)) ;;
  sett r 0 (tw_kernelStack 1) ;;
  sett r 0 (tw_lock true) ;;
  ret (Some i).

Definition allocproc : M PS (option nat) :=
  o <- alloc_slot ;;
  match o with
  | None => ret None
  | Some i => alloc_init i
  end.

(** (SEG_UCODE << 3) | DPL_USER and the like. *)
Definition user_tf : trapframe :=
  mktf 0 0 0 0 0 0 0 0 0 0 43 43 0 0 0 35 512 4096 43.

Definition userinit : M PS unit :=
  o <- allocproc ;;
  set_initproc o ;;
  i <- lift_opt o ;;
  pg <- in_env e_setupkvm ;;
  setp i (pw_pgdir pg) ;;
  if pg =? 0 then panic "userinit: out of memory?" else
  in_env (e_inituvm pg) ;;
  setp i (pw_sz 4096) ;;
  r <- row_of i ;;
  t <- gett r 0 ;;
  put_tf (t_tf t) zero_tf ;;
  put_tf (t_tf t) user_tf ;;
  p <- getp i ;;
  nm <- lift_opt (Str.safestrcpy (p_name p) [105;110;105;116;99;111;100;101;0] 16) ;;
  setp i (pw_name nm) ;;
  d <- in_env e_namei_root ;;
  setp i (pw_cwd d) ;;
  setp i (pw_state RUNNABLE) ;;
  sett r 0 (tw_state RUNNABLE).

(** acquire(thread->ptableLock): a fault when the pointer is null. *)
Definition acquire_via_thread : M PS unit :=
  rt <- curthread ;; th <- gett (fst rt) (snd rt) ;; if t_lock th then acquire LkPtable else fault.
Definition release_via_thread : M PS unit :=
  rt <- curthread ;; th <- gett (fst rt) (snd rt) ;; if t_lock th then release LkPtable else fault.

(** vm.c switchuvm: it panics without a page directory. *)
Definition switchuvm (i : nat) : M PS unit :=
  p <- getp i ;; if p_pgdir p =? 0 then panic "switchuvm: no pgdir" else ret tt.

(** growproc under the lock of the table: the new size, none when it fails. *)
Definition growproc_mem (n : Z) : M PS (option Z) :=
  c <- curproc ;;
  p <- getp c ;;
  let sz := p_sz p in
  acquire_via_thread ;;
  sz' <- (if 0 <? n then in_env (e_allocuvm (p_pgdir p) sz (u32 (sz + n)))
          else if n <? 0 then in_env (e_deallocuvm (p_pgdir p) sz (u32 (sz + n)))
          else ret sz) ;;
  if negb (n =? 0) && (sz' =? 0) then release_via_thread ;; ret None else
  release_via_thread ;;
  ret (Some sz').
(** And after it. *)
Definition growproc_set (sz : Z) : M PS unit :=
  c <- curproc ;; setp c (pw_sz sz) ;; switchuvm c.

Definition growproc (n : Z) : M PS Z :=
  o <- growproc_mem n ;;
  match o with
  | None => ret (-1)
  | Some sz => growproc_set sz ;; ret 0
  end.

(** fork once allocproc has found the slot [np]: the copy of the memory; false when there is
    no memory for it. *)
Definition fork_copy (np : nat) : M PS bool :=
  c <- curproc ;;
  p <- getp c ;;
  pg <- in_env (e_copyuvm (p_pgdir p) (p_sz p)) ;;
  setp np (pw_pgdir pg) ;;
  if pg =? 0 then
    x <- getp np ;;
    in_env (e_kfree (p_kstack x)) ;;
    setp np (pw_kstack 0) ;;
    setp np (pw_state UNUSED) ;;
    ret false
  else
  setp np (pw_sz (p_sz p)) ;;
  setp np (pw_parent (Some c)) ;;
  ret true.

(** The threads, the registers, the open files, the directory and the name of the child. *)
Definition fork_setup (np : nat) : M PS Z :=
  c <- curproc ;;
  p <- getp c ;;
  forM (seq 1 (NTHREAD - 1)) (fun t =>
    r <- row_of np ;; sett r t (tw_state UNUSED) ;; sett r t (tw_lock true)) ;;
  r <- row_of np ;;
  sett r 0 (tw_parent (Some np)) ;;
  ct <- curthread ;;
  th <- gett (fst ct) (snd ct) ;;
  sett r 0 (tw_kstack (t_kstack th)) ;;
  f <- get_tf (t_tf th) ;;
  child <- gett r 0 ;;
  put_tf (t_tf child) f ;;
  sett r 0 (tw_kernelStack (t_kernelStack th)) ;;
  f <- get_tf (t_tf child) ;;
  put_tf (t_tf child) (tf_set_eax 0 f) ;;
  forM (seq 0 NOFILE) (fun fd =>
    f <- lift_opt (p_ofile p !! fd) ;;
    when (negb (f =? 0)) do
      (f' <- in_env (e_filedup f) ;; setp np (fun x => pw_ofile (<[fd := f']> (p_ofile x)) x))) ;;
  d <- in_env (e_idup (p_cwd p)) ;;
  setp np (pw_cwd d) ;;
  x <- getp np ;;
  nm <- lift_opt (Str.safestrcpy (p_name x) (p_name p) 16) ;;
  setp np (pw_name nm) ;;
  ret (p_pid x).

(** The child becomes RUNNABLE, under the lock. *)
Definition fork_ready (np : nat) : M PS unit :=
  acquire LkPtable ;;
  setp np (pw_state RUNNABLE) ;;
  r <- row_of np ;;
  sett r 0 (tw_state RUNNABLE) ;;
  release LkPtable.

Definition fork_child (np : nat) : M PS Z :=
  b <- fork_copy np ;;
  if b : bool then pid <- fork_setup np ;; fork_ready np ;; ret pid else ret (-1).

Definition fork : M PS Z :=
  o <- allocproc ;;
  match o with
  | None => ret (-1)
  | Some np => fork_child np
  end.

(** The checks of sched; the context switch follows.  The check of FL_IF is left out: the
    processor holds a lock here, and acquire disables interrupts. *)
Definition sched : M PS unit :=
  h <- gets (fun s => held (pctx s)) ;;
  if negb (bool_decide (LkPtable ∈ h)) then panic "sched ptable.lock" else
  if negb (Nat.eqb (length h) 1) then panic "sched locks" else
  rt <- curthread ;;
  th <- gett (fst rt) (snd rt) ;;
  if bool_decide (t_state th = RUNNING) then panic "sched running" else
  ret tt.

(** sleep up to the switch, and after it. *)
Definition sleep_enter (c : chan) (lk : lock) : M PS unit :=
  p <- gets cur ;;
  match p with
  | None => panic "sleep"
  | Some _ =>
      (when (negb (bool_decide (lk = LkPtable))) do (acquire LkPtable ;; release lk)) ;;
      rt <- curthread ;;
      sett (fst rt) (snd rt) (tw_chan (Some c)) ;;
      sett (fst rt) (snd rt) (tw_state SLEEPING) ;;
      sched
  end.

Definition sleep_leave (lk : lock) : M PS unit :=
  rt <- curthread ;;
  sett (fst rt) (snd rt) (tw_chan None) ;;
  when (negb (bool_decide (lk = LkPtable))) do (release LkPtable ;; acquire lk).

Definition yield_enter : M PS unit :=
  acquire LkPtable ;;
  rt <- curthread ;;
  sett (fst rt) (snd rt) (tw_state RUNNABLE) ;;
  sched.
Definition yield_leave : M PS unit := release LkPtable.

Definition forkret : M PS unit :=
  release LkPtable ;;
  f <- gets first ;;
  when f do (set_first false ;; in_env e_initlog).

(** if(t->state == SLEEPING && t->chan == chan) t->state = RUNNABLE. *)
Definition wake_one (c : option chan) (r t : nat) : M PS unit :=
  th <- gett r t ;;
  when (bool_decide (t_state th = SLEEPING) && bool_decide (t_chan th = c)) do
    sett r t (tw_state RUNNABLE).

Definition wakeup1 (c : option chan) : M PS unit :=
  forM (seq 0 NPROC) (fun i =>
    p <- getp i ;;
    when (procIsReady p) do
      (r <- row_of i ;; forM (seq 0 NTHREAD) (fun t => wake_one c r t))).

Definition wakeup (c : chan) : M PS unit :=
  acquire LkPtable ;;
  wakeup1 (Some c) ;;
  release LkPtable.

(** The threads of a row that are neither UNUSED nor ZOMBIE. *)
Definition count_live (r : nat) : M PS nat :=
  l <- gets ttable ;;
  row <- lift_opt (l !! r) ;;
  ret (length (filter (fun th => t_state th <> UNUSED /\ t_state th <> ZOMBIE) (take NTHREAD row))).

(** exit before it takes the lock of the table: the open files and the directory. *)
Definition exit_close : M PS unit :=
  c <- curproc ;;
  ip <- gets initproc ;;
  if bool_decide (ip = Some c) then panic "init exiting" else
  forM (seq 0 NOFILE) (fun fd =>
    p <- getp c ;;
    f <- lift_opt (p_ofile p !! fd) ;;
    when (negb (f =? 0)) do
      (in_env (e_fileclose f) ;; setp c (fun x => pw_ofile (<[fd := 0]> (p_ofile x)) x))) ;;
  in_env e_begin_op ;;
  p <- getp c ;;
  in_env (e_iput (p_cwd p)) ;;
  in_env e_end_op ;;
  setp c (pw_cwd 0).

(** And under it, up to the switch it does not come back from. *)
Definition exit_table : M PS unit :=
  acquire LkPtable ;;
  c <- curproc ;;
  ip <- gets initproc ;;
  p <- getp c ;;
  wakeup1 (ChProc ∘ Z.of_nat <$> p_parent p) ;;
  forM (seq 0 NPROC) (fun i =>
    x <- getp i ;;
    when (bool_decide (p_parent x = Some c)) do
      (setp i (pw_parent ip) ;;
       r <- row_of i ;;
       k <- count_live r ;;
       when (Nat.eqb k 0) do setp i (pw_state ZOMBIE))) ;;
  forM (seq 0 NTHREAD) (fun t =>
    r <- row_of c ;;
    sett r t (tw_state ZOMBIE) ;;
    sett r t (tw_tid 0) ;;
    sett r t (tw_parent None) ;;
    sett r t (tw_chan None)) ;;
  setp c (pw_state ZOMBIE) ;;
  setp c (pw_threads None) ;;
  sched.

Definition exit : M PS unit := exit_close ;; exit_table.

(** One pass of wait over the table: the zombie child it reaps, or whether there are
    children. *)
Fixpoint wait_scan (ids : list nat) (c : nat) (havekids : bool) : M PS (Z + bool) :=
  match ids with
  | [] => ret (inr havekids)
  | i :: ids =>
      p <- getp i ;;
      if negb (bool_decide (p_parent p = Some c)) then wait_scan ids c havekids else
      if bool_decide (p_state p = ZOMBIE) then
        in_env (e_kfree (p_kstack p)) ;;
        setp i (pw_kstack 0) ;;
        in_env (e_freevm (p_pgdir p)) ;;
        setp i (pw_state UNUSED) ;;
        setp i (pw_pid 0) ;;
        setp i (pw_parent None) ;;
        setp i (fun x => pw_name (<[0%nat := 0]> (p_name x)) x) ;;
        setp i (pw_killed 0) ;;
        ret (inl (p_pid p))
      else wait_scan ids c true
  end.

(** The loop of wait, with ptable.lock held: it returns, or sleeps on the process. *)
Definition wait_loop : M PS Z :=
  c <- curproc ;;
  r <- wait_scan (seq 0 NPROC) c false ;;
  match r with
  | inl pid => release LkPtable ;; ret pid
  | inr havekids =>
      p <- getp c ;;
      if negb havekids || negb (p_killed p =? 0) then release LkPtable ;; ret (-1) else
      sleep_enter (ChProc (Z.of_nat c)) LkPtable ;;
      sleep_on (ChProc (Z.of_nat c))
  end.

Definition wait : M PS Z := acquire LkPtable ;; wait_loop.

(** After the sleep. *)
Definition wait_resume : M PS Z := sleep_leave LkPtable ;; wait_loop.

(** One pass of the scheduler over the table.  [run] is what the chosen thread does from
    the switch to it until it switches back. *)
Section Scheduler.
Variable run : M PS unit.

Definition sched_one (i t : nat) : M PS unit :=
  r <- row_of i ;;
  th <- gett r t ;;
  when (bool_decide (t_state th = RUNNABLE)) do
    (set_curt (Some (r, t)) ;;
     switchuvm i ;;
     sett r t (tw_state RUNNING) ;;
     run ;;
     set_curt None).

(** The loop ends when p->threads has become null: &p->threads[NTHREAD] is then below t. *)
Fixpoint sched_threads (ts : list nat) (i : nat) : M PS unit :=
  match ts with
  | [] => ret tt
  | t :: ts =>
      p <- getp i ;;
      match p_threads p with
      | None => ret tt
      | Some _ => sched_one i t ;; sched_threads ts i
      end
  end.

Definition scheduler_pass : M PS unit :=
  acquire LkPtable ;;
  forM (seq 0 NPROC) (fun i =>
    p <- getp i ;;
    when (procIsReady p) do
      (set_cur (Some i) ;; sched_threads (seq 0 NTHREAD) i ;; set_cur None)) ;;
  release LkPtable.
End Scheduler.

Fixpoint find_pid (l : list proc) (pid : Z) (i : nat) : option nat :=
  match l with
  | [] => None
  | p :: l => if p_pid p =? pid then Some i else find_pid l pid (1 + i)
  end.

Definition kill (pid : Z) : M PS Z :=
  acquire LkPtable ;;
  l <- gets procs ;;
  match find_pid l pid 0 with
  | None => release LkPtable ;; ret (-1)
  | Some i =>
      setp i (pw_killed 1) ;;
      forM (seq 0 NTHREAD) (fun t =>
        setp i (pw_killed 1) ;;
        r <- row_of i ;;
        th <- gett r t ;;
        when (bool_decide (t_state th = SLEEPING)) do sett r t (tw_state RUNNABLE)) ;;
      release LkPtable ;;
      ret 0
  end.

(** The threads procdump lists, with the process id, the state and the name; the call
    chain it prints for a sleeping thread is left out. *)
Fixpoint dump_threads (ts : list nat) (i : nat) : M PS (list (Z * state * list Z)) :=
  match ts with
  | [] => ret []
  | t :: ts =>
      r <- row_of i ;;
      p <- getp i ;;
      th <- gett r t ;;
      rest <- dump_threads ts i ;;
      ret (if bool_decide (t_state th = UNUSED) then rest
           else (p_pid p, t_state th, p_name p) :: rest)
  end.

Fixpoint dump_procs (ids : list nat) : M PS (list (Z * state * list Z)) :=
  match ids with
  | [] => ret []
  | i :: ids => x <- dump_threads (seq 0 NTHREAD) i ;; rest <- dump_procs ids ;; ret (x ++ rest)
  end.

Definition procdump : M PS (list (Z * state * list Z)) := dump_procs (seq 0 NPROC).
End Ops.

(** ** Symbolic execution *)

Section Exec.
Context {E : Type}.
Implicit Types s : psys E.

Definition with_procs (ps : list proc) s : psys E :=
  mkpsys ps (ttable s) (initproc s) (nextpid s) (nexttid s) (tfs s) (contexts s) (words s) (cur s)
    (curt s) (first s) (env s) (pctx s).
Definition with_ttable (tt : list (list kthread)) s : psys E :=
  mkpsys (procs s) tt (initproc s) (nextpid s) (nexttid s) (tfs s) (contexts s) (words s) (cur s)
    (curt s) (first s) (env s) (pctx s).
Definition with_env (e : E) s : psys E :=
  mkpsys (procs s) (ttable s) (initproc s) (nextpid s) (nexttid s) (tfs s) (contexts s) (words s) (cur s)
    (curt s) (first s) e (pctx s).
Definition with_pctx (k : kctx) s : psys E := with_ctx k s.

Lemma wp_getp i p Q s : procs s !! i = Some p -> Q p s -> wp (getp i) Q s.
Proof. intros Hi HQ. unfold getp. wp_steps. by eapply wp_lift_opt. Qed.

Lemma wp_setp i f Q s :
  is_Some (procs s !! i) -> Q tt (with_procs (alter f i (procs s)) s) -> wp (setp i f) Q s.
Proof. intros [p Hp] HQ. unfold setp. wp_steps. eapply wp_getp; [done|]. by wp_steps. Qed.

Definition thread_at (tt : list (list kthread)) (r t : nat) : option kthread :=
  tt !! r ≫= fun row => row !! t.

Lemma wp_gett r t th Q s : thread_at (ttable s) r t = Some th -> Q th s -> wp (gett r t) Q s.
Proof.
  unfold thread_at. intros Hi HQ. unfold gett. wp_steps.
  destruct (ttable s !! r) as [row|] eqn:E1; [|done]. simpl in Hi.
  eapply wp_lift_opt; [done|]. by eapply wp_lift_opt.
Qed.

Lemma wp_sett r t f Q s :
  is_Some (thread_at (ttable s) r t) ->
  Q tt (with_ttable (alter (alter f t) r (ttable s)) s) -> wp (sett r t f) Q s.
Proof. intros [th Ht] HQ. unfold sett. wp_steps. eapply wp_gett; [done|]. by wp_steps. Qed.

Lemma wp_row_of i p r Q s :
  procs s !! i = Some p -> p_threads p = Some r -> Q r s -> wp (row_of i) Q s.
Proof. intros Hi Hr HQ. unfold row_of. wp_steps. eapply wp_getp; [done|]. by eapply wp_lift_opt. Qed.

Lemma wp_in_env {A} (m : M E A) (Q : A -> psys E -> Prop) s :
  wp m (fun a e => Q a (with_env e s)) (env s) -> wp (in_env m) Q s.
Proof. intros H. by apply wp_zoom. Qed.

Lemma thread_at_alter tt r t r' t' f :
  thread_at (alter (alter f t) r tt) r' t' =
    if decide (r' = r /\ t' = t) then f <$> thread_at tt r' t' else thread_at tt r' t'.
Proof.
  unfold thread_at. destruct (decide (r' = r)) as [->|Hr].
  - rewrite list_lookup_alter_eq. destruct (tt !! r) as [row|]; simpl; [|by case_decide].
    destruct (decide (t' = t)) as [->|Ht].
    + rewrite list_lookup_alter_eq, decide_True by done. done.
    + rewrite list_lookup_alter_ne, decide_False by naive_solver. done.
  - rewrite list_lookup_alter_ne by done. rewrite decide_False by naive_solver. done.
Qed.
End Exec.

(** Reduces the projections of an updated state. *)
Ltac pcbn :=
  cbn [procs ttable initproc nextpid nexttid tfs contexts words cur curt first env pctx
       with_procs with_ttable with_env with_pctx with_ctx psys_ctx].

(** ** The invariant of the process table *)

Definition live (st : state) : Prop := st <> UNUSED /\ st <> ZOMBIE.

#[export] Instance live_dec st : Decision (live st).
Proof. unfold live. apply _. Defined.

(** [proc_ok n i p]: entry [i], with [n] the next process identifier. *)
Record proc_ok (n : Z) (i : nat) (p : proc) : Prop := {
  po_threads : p_threads p = None \/ p_threads p = Some i;
  po_live : live (p_state p) -> p_threads p = Some i;
  po_pid : 0 <= p_pid p < n;
  po_used : live (p_state p) -> 0 < p_pid p;
  po_files : length (p_ofile p) = NOFILE;
  po_name : length (p_name p) = 16%nat;
  po_parent : forall j, p_parent p = Some j -> (j < NPROC)%nat }.

Record table_ok (ps : list proc) (tt : list (list kthread)) (n : Z) : Prop := {
  to_len : length ps = NPROC;
  to_rows : length tt = NPROC /\ Forall (fun row => length row = NTHREAD) tt;
  to_proc : forall i p, ps !! i = Some p -> proc_ok n i p;
  to_uniq : forall i j p q, ps !! i = Some p -> ps !! j = Some q ->
    p_pid p = p_pid q -> p_pid p <> 0 -> i = j }.

Definition sys_ok {E} (s : psys E) : Prop := table_ok (procs s) (ttable s) (nextpid s).

(** Updating an entry that keeps its identifier, or clears it, or takes a new one. *)
Lemma table_ok_setp ps tt n i p f :
  table_ok ps tt n -> ps !! i = Some p -> proc_ok n i (f p) ->
  (p_pid (f p) = p_pid p \/ p_pid (f p) = 0) ->
  table_ok (alter f i ps) tt n.
Proof.
  intros [H1 H2 H3 H4] Hp Hf Hid. constructor; [by rewrite length_alter|done|..].
  - intros j q Hj. destruct (decide (j = i)) as [->|Hne].
    + rewrite list_lookup_alter_eq, Hp in Hj. by simplify_eq/=.
    + rewrite list_lookup_alter_ne in Hj by done. auto.
  - assert (Hl : forall j q, alter f i ps !! j = Some q -> p_pid q <> 0 ->
              exists q', ps !! j = Some q' /\ p_pid q' = p_pid q).
    { intros j q Hj Hq. destruct (decide (j = i)) as [->|Hne].
      - rewrite list_lookup_alter_eq, Hp in Hj. simplify_eq/=. exists p. split; [done|].
        destruct Hid; congruence.
      - rewrite list_lookup_alter_ne in Hj by done. by exists q. }
    intros j k p1 p2 Hj Hk E0 Hn. destruct (Hl j p1 Hj Hn) as (q1 & Hq1 & E1).
    destruct (Hl k p2 Hk) as (q2 & Hq2 & E2); [congruence|].
    eapply H4; [exact Hq1|exact Hq2|congruence|congruence].
Qed.

Lemma table_ok_sett ps tt n r t f : table_ok ps tt n -> table_ok ps (alter (alter f t) r tt) n.
Proof.
  intros [H1 [H2 H2'] H3 H4]. constructor; [done| |done|done].
  split; [by rewrite length_alter|]. apply Forall_alter; [done|].
  intros row Hr Hl. by rewrite length_alter.
Qed.

(** A fresh entry for allocproc. *)
Lemma table_ok_alloc ps tt n i p :
  table_ok ps tt n -> 0 < n -> ps !! i = Some p -> p_state p = UNUSED ->
  table_ok (alter (fun p => pw_pid n (pw_threads (Some i) (pw_state EMBRYO p))) i ps) tt (n + 1).
Proof.
  intros [H1 H2 H3 H4] Hn Hp Hu. constructor; [by rewrite length_alter|done|..].
  - intros j q Hj. destruct (decide (j = i)) as [->|Hne].
    + rewrite list_lookup_alter_eq, Hp in Hj. simplify_eq/=. destruct (H3 i p Hp).
      constructor; simpl; auto; lia.
    + rewrite list_lookup_alter_ne in Hj by done. destruct (H3 j q Hj).
      constructor; auto; lia.
  - intros j k p1 p2 Hj Hk E0 Hz.
    destruct (decide (j = i)) as [->|Hj'], (decide (k = i)) as [->|Hk']; [done|..].
    + rewrite list_lookup_alter_eq, Hp in Hj. rewrite list_lookup_alter_ne in Hk by done.
      simplify_eq/=. pose proof (po_pid _ _ _ (H3 k p2 Hk)). lia.
    + rewrite list_lookup_alter_eq, Hp in Hk. rewrite list_lookup_alter_ne in Hj by done.
      simplify_eq/=. pose proof (po_pid _ _ _ (H3 j p1 Hj)). lia.
    + rewrite list_lookup_alter_ne in Hj, Hk by done. eauto.
Qed.

(** ** Preservation *)

Section Pres.
Context {E : Type} `{ProcEnv E}.
Implicit Types s : psys E.

(** The table is well formed and the entries of [K] have their row of threads and an
    identifier. *)
Definition Inv (K : list nat) s : Prop :=
  (sys_ok s /\ 0 < nextpid s /\ forall j, initproc s = Some j -> (j < NPROC)%nat) /\
  forall i, i ∈ K -> exists p, procs s !! i = Some p /\ p_threads p = Some i /\ 0 < p_pid p.

Lemma keeps_ctx K (m : M (psys E) unit) :
  (forall s, match m s with
             | Ret _ s' => exists k, s' = with_ctx k s
             | Sleep _ s' => exists k, s' = with_ctx k s
             | _ => True end) ->
  keeps (Inv K) m.
Proof. intros Hm s Hs. specialize (Hm s). destruct (m s); try done; by destruct Hm as [k ->]. Qed.

Lemma keeps_acquire K l : keeps (Inv K) (acquire l : M (psys E) unit).
Proof.
  apply keeps_ctx. intros s. unfold acquire, bind, gets. case_bool_decide; [done|]. simpl. by eexists.
Qed.

Lemma keeps_release K l : keeps (Inv K) (release l : M (psys E) unit).
Proof.
  apply keeps_ctx. intros s. unfold release, bind, gets. case_bool_decide; [|done]. simpl. by eexists.
Qed.

Lemma keeps_same K (m : M (psys E) unit) :
  (forall s, exists s', m s = Ret tt s' /\ procs s' = procs s /\ ttable s' = ttable s /\
     nextpid s' = nextpid s /\ initproc s' = initproc s) -> keeps (Inv K) m.
Proof.
  intros Hm s [Hs HK]. destruct (Hm s) as (s' & -> & E1 & E2 & E3 & E4).
  unfold Inv, sys_ok. by rewrite E1, E2, E3, E4.
Qed.

Lemma keeps_in_env {A} K (m : M E A) : keeps (Inv K) (in_env m).
Proof. intros s Hs. unfold in_env, zoom. by destruct (m (env s)). Qed.

(** An update of an entry that is safe whatever the entry is. *)
Definition safe (K : list nat) (i : nat) (f : proc -> proc) : Prop :=
  forall n p, proc_ok n i p -> (i ∈ K -> p_threads p = Some i /\ 0 < p_pid p) ->
    proc_ok n i (f p) /\ (p_pid (f p) = p_pid p \/ p_pid (f p) = 0) /\
    (i ∈ K -> p_threads (f p) = Some i /\ 0 < p_pid (f p)).

Lemma keeps_setp K i f : safe K i f -> keeps (Inv K) (setp i f : M (psys E) unit).
Proof.
  intros Hf s [(Hs & Hn0 & Hi0) HK]. unfold setp, getp, bind, gets, lift_opt.
  destruct (procs s !! i) as [p|] eqn:Hp; [|done]. simpl.
  pose proof (to_proc _ _ _ Hs i p Hp) as Hpo.
  destruct (Hf (nextpid s) p Hpo) as (F1 & F2 & F3).
  { intros Hi. destruct (HK i Hi) as (q & Hq & Ht). by simplify_eq. }
  split; [split_and!; [by apply (table_ok_setp _ _ _ i p)|done|done]|]. simpl. intros j Hj.
  destruct (HK j Hj) as (q & Hq & Ht). destruct (decide (j = i)) as [->|Hne].
  - exists (f p). rewrite list_lookup_alter_eq, Hp. auto.
  - exists q. by rewrite list_lookup_alter_ne.
Qed.

Lemma keeps_getp K i : keeps (Inv K) (getp i : M (psys E) proc).
Proof. unfold getp. auto 10 with keeps. Qed.

Lemma keeps_gett K r t : keeps (Inv K) (gett r t : M (psys E) kthread).
Proof. unfold gett. auto 10 with keeps. Qed.

Lemma keeps_sett K r t f : keeps (Inv K) (sett r t f : M (psys E) unit).
Proof.
  unfold sett. apply keeps_bind; [apply keeps_gett|]. intros _ s [(Hs & Hn0 & Hi0) HK]. simpl.
  split; [split_and!; [by apply table_ok_sett|done|done]|done].
Qed.

Ltac safe_tac :=
  let P := fresh "P" in intros ? ? P ?; destruct P; split_and!;
    [constructor; simpl; rewrite ?length_insert; auto; by intros []|simpl; auto|done].

Lemma safe_sz K i v : safe K i (pw_sz v).
Proof. safe_tac. Qed.
Lemma safe_pgdir K i v : safe K i (pw_pgdir v).
Proof. safe_tac. Qed.
Lemma safe_kstack K i v : safe K i (pw_kstack v).
Proof. safe_tac. Qed.
Lemma safe_killed K i v : safe K i (pw_killed v).
Proof. safe_tac. Qed.
Lemma safe_cwd K i v : safe K i (pw_cwd v).
Proof. safe_tac. Qed.
Lemma safe_unused K i : safe K i (pw_state UNUSED).
Proof. safe_tac. Qed.
Lemma safe_zombie K i : safe K i (pw_state ZOMBIE).
Proof. safe_tac. Qed.
Lemma safe_ofile K i fd v : safe K i (fun x => pw_ofile (<[fd := v]> (p_ofile x)) x).
Proof. safe_tac. Qed.
Lemma safe_name K i v : length v = 16%nat -> safe K i (pw_name v).
Proof. intros Hv. safe_tac. Qed.
Lemma safe_parent K i v : (forall j, v = Some j -> (j < NPROC)%nat) -> safe K i (pw_parent v).
Proof. intros Hv. safe_tac. Qed.
Lemma safe_runnable i : safe [i] i (pw_state RUNNABLE).
Proof.
  intros n p P Hk. destruct P. destruct (Hk ltac:(left)).
  split_and!; [constructor; simpl; auto|simpl; auto|done].
Qed.
Lemma safe_reap i :
  safe [] i (fun x => pw_killed 0 (pw_name (<[0%nat := 0]> (p_name x)) (pw_parent None (pw_pid 0 (pw_state UNUSED x))))).
Proof.
  intros n p P Hk. destruct P. split_and!.
  - constructor; simpl; rewrite ?length_insert; auto; try lia; try done; by intros [].
  - simpl. auto.
  - intros Hi. inversion Hi.
Qed.
Lemma safe_gone i : safe [] i (fun x => pw_threads None (pw_state ZOMBIE x)).
Proof.
  intros n p P Hk. destruct P. split_and!.
  - constructor; simpl; auto; by intros [].
  - simpl. auto.
  - intros Hi. inversion Hi.
Qed.

(** Two updates of an entry are one. *)
Lemma setp_setp {A} i f g (k : unit -> M (psys E) A) s :
  (setp i f ;; bind (setp i g) k) s = (bind (setp i (fun x => g (f x))) k) s.
Proof.
  unfold setp, getp, bind, gets, lift_opt. destruct (procs s !! i) as [p|] eqn:Hp; [|done]. simpl.
  rewrite list_lookup_alter_eq, Hp. simpl. f_equal. unfold modify. simpl. f_equal.
  apply list_eq. intros j. destruct (decide (j = i)) as [->|].
  - rewrite !list_lookup_alter_eq. by rewrite Hp.
  - by rewrite !list_lookup_alter_ne.
Qed.

Lemma keeps_setp2 {A} I i f g (k : unit -> M (psys E) A) :
  keeps I (bind (setp i (fun x => g (f x))) k) -> keeps I (setp i f ;; bind (setp i g) k).
Proof. intros Hk s Hs. rewrite setp_setp. by apply Hk. Qed.

(** What is known of an entry that was read. *)
Lemma keeps_bind_getp {A} K i (k : proc -> M (psys E) A) :
  (forall p n, proc_ok n i p -> (i < NPROC)%nat -> keeps (Inv K) (k p)) -> keeps (Inv K) (bind (getp i) k).
Proof.
  intros Hk s Hs. unfold getp, bind, gets, lift_opt.
  destruct (procs s !! i) as [p|] eqn:Hp; [|done]. simpl. destruct Hs as [(Hs & Hn0 & Hi0) HK].
  apply (Hk p (nextpid s)); [by apply (to_proc _ _ _ Hs)| |done].
  rewrite <- (to_len _ _ _ Hs). by eapply lookup_lt_Some.
Qed.

Lemma keeps_bind_opt {A B} I (o : option A) (k : A -> M (psys E) B) :
  (forall a, o = Some a -> keeps I (k a)) -> keeps I (bind (lift_opt o) k).
Proof. intros Hk s Hs. destruct o as [a|]; [|done]. by apply (Hk a). Qed.

Lemma keeps_bind_init {A} K (k : option nat -> M (psys E) A) :
  (forall ip, (forall j, ip = Some j -> (j < NPROC)%nat) -> keeps (Inv K) (k ip)) ->
  keeps (Inv K) (bind (gets initproc) k).
Proof. intros Hk s [(Hs & Hn0 & Hi0) HK]. simpl. by apply Hk. Qed.

Lemma keeps_set_curt K t : keeps (Inv K) (set_curt t : M (psys E) unit).
Proof. apply keeps_same. intros s. by eexists. Qed.
Lemma keeps_set_cur K c : keeps (Inv K) (set_cur c : M (psys E) unit).
Proof. apply keeps_same. intros s. by eexists. Qed.
Lemma keeps_put_tf K a f : keeps (Inv K) (put_tf a f : M (psys E) unit).
Proof. apply keeps_same. intros s. by eexists. Qed.
Lemma keeps_put_context K a c : keeps (Inv K) (put_context a c : M (psys E) unit).
Proof. apply keeps_same. intros s. by eexists. Qed.
Lemma keeps_put_word K a v : keeps (Inv K) (put_word a v : M (psys E) unit).
Proof. apply keeps_same. intros s. by eexists. Qed.
Lemma keeps_set_nexttid K v : keeps (Inv K) (set_nexttid v : M (psys E) unit).
Proof. apply keeps_same. intros s. by eexists. Qed.
Lemma keeps_set_first K v : keeps (Inv K) (set_first v : M (psys E) unit).
Proof. apply keeps_same. intros s. by eexists. Qed.
End Pres.

#[export] Hint Resolve keeps_acquire keeps_release keeps_in_env keeps_getp keeps_gett keeps_sett
  keeps_set_curt keeps_set_cur keeps_put_tf keeps_put_context keeps_put_word keeps_set_nexttid
  keeps_set_first keeps_setp : keeps.
#[export] Hint Resolve safe_sz safe_pgdir safe_kstack safe_killed safe_cwd safe_unused safe_zombie
  safe_ofile safe_runnable : keeps.

(** Composes the preservation lemmas along the code of a routine. *)
Ltac keeps_step :=
  lazymatch goal with
  | |- keeps _ (bind (setp _ (pw_state ZOMBIE)) (fun _ => bind (setp _ (pw_threads None)) _)) =>
      apply keeps_setp2, keeps_bind; [apply keeps_setp, safe_gone|]
  | |- keeps _ (bind (setp _ (pw_state UNUSED)) (fun _ => bind (setp _ (pw_pid 0)) _)) =>
      do 4 apply keeps_setp2; apply keeps_bind; [apply keeps_setp, safe_reap|]
  | |- keeps _ (bind (getp _) _) => apply keeps_bind_getp
  | |- keeps _ (bind (lift_opt _) _) => apply keeps_bind_opt
  | |- keeps _ (bind (gets initproc) _) => apply keeps_bind_init
  | |- keeps _ (bind _ _) => apply keeps_bind
  | |- keeps _ (forM _ _) => apply keeps_forM
  | |- keeps _ (setp _ (pw_parent _)) => apply keeps_setp, safe_parent; (assumption || (intros; congruence))
  | |- keeps _ (setp _ (pw_name _)) =>
      apply keeps_setp, safe_name; etransitivity; [eapply Str.safestrcpy_length; eassumption|
        eapply po_name; eassumption]
  | |- keeps _ (match ?x with _ => _ end) => destruct x
  | |- keeps _ (let _ := _ in _) => cbv zeta
  | |- keeps _ _ => solve [eauto 3 with keeps]
  end.
Ltac keeps_auto := repeat (intros; keeps_step).

Section PresOps.
Context {E : Type} `{ProcEnv E}.
Variables trapret forkret_addr : Z.

Lemma keeps_row_of K i : keeps (Inv K) (row_of i : M (psys E) nat).
Proof. unfold row_of. keeps_auto. Qed.
Lemma keeps_curproc K : keeps (Inv K) (curproc : M (psys E) nat).
Proof. unfold curproc. keeps_auto. Qed.
Lemma keeps_curthread K : keeps (Inv K) (curthread : M (psys E) (nat * nat)).
Proof. unfold curthread. keeps_auto. Qed.
Lemma keeps_get_tf K a : keeps (Inv K) (get_tf a : M (psys E) trapframe).
Proof. unfold get_tf. keeps_auto. Qed.
#[local] Hint Resolve keeps_row_of keeps_curproc keeps_curthread keeps_get_tf : keeps.

Lemma keeps_switchuvm K i : keeps (Inv K) (switchuvm i : M (psys E) unit).
Proof. unfold switchuvm. keeps_auto. Qed.
Lemma keeps_acquire_via K : keeps (Inv K) (acquire_via_thread : M (psys E) unit).
Proof. unfold acquire_via_thread. keeps_auto. Qed.
Lemma keeps_release_via K : keeps (Inv K) (release_via_thread : M (psys E) unit).
Proof. unfold release_via_thread. keeps_auto. Qed.
Lemma keeps_sched K : keeps (Inv K) (sched : M (psys E) unit).
Proof. unfold sched. keeps_auto. Qed.
#[local] Hint Resolve keeps_switchuvm keeps_acquire_via keeps_release_via keeps_sched : keeps.
Lemma keeps_sleep_enter K c lk : keeps (Inv K) (sleep_enter c lk : M (psys E) unit).
Proof. unfold sleep_enter. keeps_auto. Qed.
Lemma keeps_sleep_leave K lk : keeps (Inv K) (sleep_leave lk : M (psys E) unit).
Proof. unfold sleep_leave. keeps_auto. Qed.
Lemma keeps_yield_enter K : keeps (Inv K) (yield_enter : M (psys E) unit).
Proof. unfold yield_enter. keeps_auto. Qed.
Lemma keeps_yield_leave K : keeps (Inv K) (yield_leave : M (psys E) unit).
Proof. unfold yield_leave. keeps_auto. Qed.
Lemma keeps_forkret K : keeps (Inv K) (forkret : M (psys E) unit).
Proof. unfold forkret. keeps_auto. Qed.
Lemma keeps_wake_one K c r t : keeps (Inv K) (wake_one c r t : M (psys E) unit).
Proof. unfold wake_one. keeps_auto. Qed.
#[local] Hint Resolve keeps_sleep_enter keeps_sleep_leave keeps_wake_one : keeps.
Lemma keeps_wakeup1 K c : keeps (Inv K) (wakeup1 c : M (psys E) unit).
Proof. unfold wakeup1. keeps_auto. Qed.
Lemma keeps_count_live K r : keeps (Inv K) (count_live r : M (psys E) nat).
Proof. unfold count_live. keeps_auto. Qed.
#[local] Hint Resolve keeps_wakeup1 keeps_count_live : keeps.
Lemma keeps_wakeup K c : keeps (Inv K) (wakeup c : M (psys E) unit).
Proof. unfold wakeup. keeps_auto. Qed.
Lemma keeps_growproc_mem K n : keeps (Inv K) (growproc_mem n : M (psys E) (option Z)).
Proof. unfold growproc_mem. keeps_auto. Qed.
Lemma keeps_growproc_set K sz : keeps (Inv K) (growproc_set sz : M (psys E) unit).
Proof. unfold growproc_set. keeps_auto. Qed.
Lemma keeps_kill K pid : keeps (Inv K) (kill pid : M (psys E) Z).
Proof. unfold kill. keeps_auto. Qed.

Lemma Inv_weaken K (s : psys E) : Inv K s -> Inv [] s.
Proof. intros [H1 _]. split; [done|]. intros i Hi. inversion Hi. Qed.

Lemma find_unused_spec l j i :
  find_unused l j = Some i -> exists p, (j <= i)%nat /\ l !! (i - j)%nat = Some p /\ p_state p = UNUSED.
Proof.
  revert j. induction l as [|p l IH]; intros j; simpl; [done|]. case_bool_decide as Hp.
  - intros [= ->]. exists p. rewrite Nat.sub_diag. done.
  - intros Hf. destruct (IH _ Hf) as (q & Hle & Hq & Hs). exists q. split; [lia|].
    replace (i - j)%nat with (Datatypes.S (i - Datatypes.S j)) by lia. done.
Qed.

(** The state after the claim of slot [i]. *)
Definition claimed (i : nat) (s : psys E) : psys E :=
  mkpsys (alter (fun p => pw_pid (nextpid s) (pw_threads (Some i) (pw_state EMBRYO p))) i (procs s))
    (ttable s) (initproc s) (i32 (nextpid s + 1)) (nexttid s) (tfs s) (contexts s) (words s) (cur s)
    (curt s) (first s) (env s) (pctx s).

Lemma Inv_claimed i p (s : psys E) :
  Inv [] s -> nextpid s < 2 ^ 31 - 1 -> procs s !! i = Some p -> p_state p = UNUSED -> Inv [i] (claimed i s).
Proof.
  intros [(Hs & Hn0 & Hi0) _] Hmax Hp Hu. unfold claimed. rewrite i32_small by lia. split.
  - split_and!; [by apply (table_ok_alloc _ _ _ i p)|simpl; lia|done].
  - intros j Hj. apply list_elem_of_singleton in Hj as ->. simpl.
    eexists. rewrite list_lookup_alter_eq, Hp. split; [done|]. simpl. split; [done|lia].
Qed.

Lemma alter_alter_procs (f g : proc -> proc) i (ps : list proc) :
  alter f i (alter g i ps) = alter (fun x => f (g x)) i ps.
Proof.
  apply list_eq. intros j. destruct (decide (j = i)) as [->|].
  - rewrite !list_lookup_alter_eq. by destruct (ps !! i).
  - by rewrite !list_lookup_alter_ne.
Qed.

(** alloc_slot takes the first UNUSED entry, if there is one. *)
Lemma wp_alloc_slot (s : psys E) Q :
  LkPtable ∉ held (pctx s) ->
  match find_unused (procs s) 0 with
  | None => Q None s
  | Some i => Q (Some i) (claimed i s)
  end -> wp alloc_slot Q s.
Proof.
  intros Hl HQ. unfold alloc_slot. wp_steps. apply wp_acquire; [done|]. wp_steps. cbn [procs with_ctx psys_ctx].
  destruct (find_unused (procs s) 0) as [i|] eqn:Ef.
  - apply find_unused_spec in Ef as (p & _ & Hp & _). rewrite Nat.sub_0_r in Hp.
    wp_steps. apply wp_setp; [by exists p|]. wp_steps.
    apply wp_setp; [cbn; rewrite list_lookup_alter_eq, Hp; by eexists|]. wp_steps.
    apply wp_setp; [cbn; rewrite list_lookup_alter_eq, list_lookup_alter_eq, Hp; by eexists|].
    unfold set_nextpid. wp_steps. eapply wp_release; [done|]. wp_steps.
    cbn. rewrite !alter_alter_procs. unfold claimed in HQ. by destruct s as [? ? ? ? ? ? ? ? ? ? ? ? []].
  - wp_steps. eapply wp_release; [done|]. wp_steps. by destruct s as [? ? ? ? ? ? ? ? ? ? ? ? []].
Qed.

Lemma keeps_alloc_init i : keeps (Inv [i]) (alloc_init trapret forkret_addr i : M (psys E) _).
Proof. unfold alloc_init. keeps_auto. Qed.

(** What a routine can return. *)
Definition returns {S A} (P : A -> Prop) (m : M S A) : Prop := forall s a s', m s = Ret a s' -> P a.

Lemma returns_ret {S A} (P : A -> Prop) (a : A) : P a -> returns (S := S) P (ret a).
Proof. intros Ha s b s' [= <- _]. done. Qed.
Lemma returns_bind {S A B} (P : B -> Prop) (m : M S A) (k : A -> M S B) :
  (forall a, returns P (k a)) -> returns P (bind m k).
Proof. intros Hk s b s'. unfold bind. destruct (m s); try done. apply Hk. Qed.

Lemma alloc_init_slot i :
  returns (fun o => o = None \/ o = Some i) (alloc_init trapret forkret_addr i : M (psys E) _).
Proof.
  unfold alloc_init. repeat (apply returns_bind; intros ?). destruct (_ =? 0);
    repeat (apply returns_bind; intros ?); apply returns_ret; auto.
Qed.

Lemma keeps_fork_copy np : keeps (Inv [np]) (fork_copy np : M (psys E) bool).
Proof. unfold fork_copy. keeps_auto. Qed.
Lemma keeps_fork_setup np : keeps (Inv [np]) (fork_setup np : M (psys E) Z).
Proof. unfold fork_setup. keeps_auto. Qed.
Lemma keeps_fork_ready np : keeps (Inv [np]) (fork_ready np : M (psys E) unit).
Proof. unfold fork_ready. keeps_auto. Qed.
#[local] Hint Resolve keeps_fork_copy keeps_fork_setup keeps_fork_ready : keeps.
Lemma keeps_fork_child np : keeps (Inv [np]) (fork_child np : M (psys E) Z).
Proof. unfold fork_child. keeps_auto. Qed.

Lemma alloc_slot_inv (s : psys E) :
  Inv [] s -> nextpid s < 2 ^ 31 - 1 ->
  match alloc_slot s with
  | Ret o s' => Inv (option_list o) s' | Sleep _ s' => Inv [] s' | _ => True end.
Proof.
  intros Hs Hmax. destruct (decide (LkPtable ∈ held (pctx s))) as [Hl|Hl].
  - unfold alloc_slot, acquire, bind at 1, bind at 1, gets. by rewrite bool_decide_eq_true_2.
  - assert (wp alloc_slot (fun o s' => Inv (option_list o) s') s) as Hw.
    { apply wp_alloc_slot; [done|]. destruct (find_unused (procs s) 0) as [i|] eqn:Ef; [|done].
      apply find_unused_spec in Ef as (p & _ & Hp & Hu). rewrite Nat.sub_0_r in Hp.
      by eapply Inv_claimed. }
    unfold wp in Hw. by destruct (alloc_slot s).
Qed.

(** A routine that goes on with the slot it got. *)
Lemma after_slot {A} (k : option nat -> M (psys E) A) (s : psys E) :
  Inv [] s -> nextpid s < 2 ^ 31 - 1 ->
  keeps (Inv []) (k None) -> (forall i, keeps (Inv [i]) (k (Some i))) ->
  match bind alloc_slot k s with Ret _ s' => Inv [] s' | Sleep _ s' => Inv [] s' | _ => True end.
Proof.
  intros Hs Hmax Hn Hk. unfold bind. pose proof (alloc_slot_inv s Hs Hmax) as Ha.
  destruct (alloc_slot s) as [[i|] s1| | | |]; simpl in Ha; try done.
  - specialize (Hk i s1 Ha). destruct (k (Some i) s1); try done; by eapply Inv_weaken.
  - exact (Hn s1 Ha).
Qed.

Lemma fork_inv (s : psys E) :
  Inv [] s -> nextpid s < 2 ^ 31 - 1 ->
  match fork trapret forkret_addr s with Ret _ s' => Inv [] s' | Sleep _ s' => Inv [] s' | _ => True end.
Proof.
  intros Hs Hmax.
  assert (fork trapret forkret_addr s = bind alloc_slot (fun o => match o with
    | None => ret (-1)
    | Some i => o <- alloc_init trapret forkret_addr i ;;
                match o with None => ret (-1) | Some np => fork_child np end end) s) as ->.
  { unfold fork, allocproc, bind. destruct (alloc_slot s) as [[i|] s1| | | |]; done. }
  apply after_slot; [done|done|apply keeps_ret|]. intros i.
  intros s1 H1. unfold bind. pose proof (keeps_alloc_init i s1 H1) as Hi.
  destruct (alloc_init trapret forkret_addr i s1) as [[np|] s2| | | |] eqn:Ei; try done.
  destruct (alloc_init_slot i _ _ _ Ei) as [?|[= ->]]; [done|]. by apply keeps_fork_child.
Qed.

Lemma keeps_exit_close : keeps (Inv []) (exit_close : M (psys E) unit).
Proof. unfold exit_close. keeps_auto. Qed.
Lemma keeps_exit_table : keeps (Inv []) (exit_table : M (psys E) unit).
Proof. unfold exit_table. keeps_auto. Qed.
Lemma keeps_exit : keeps (Inv []) (exit : M (psys E) unit).
Proof. unfold exit. auto using keeps_bind, keeps_exit_close, keeps_exit_table. Qed.

Lemma keeps_wait_scan ids c b : keeps (Inv []) (wait_scan ids c b : M (psys E) _).
Proof. revert b. induction ids as [|i ids IH]; intros b; cbn [wait_scan]; keeps_auto; apply IH. Qed.
#[local] Hint Resolve keeps_wait_scan : keeps.

Lemma keeps_wait_loop : keeps (Inv []) (wait_loop : M (psys E) Z).
Proof. unfold wait_loop. keeps_auto. Qed.
#[local] Hint Resolve keeps_wait_loop : keeps.
Lemma keeps_wait : keeps (Inv []) (wait : M (psys E) Z).
Proof. unfold wait. keeps_auto. Qed.
Lemma keeps_wait_resume : keeps (Inv []) (wait_resume : M (psys E) Z).
Proof. unfold wait_resume. keeps_auto. Qed.

Lemma keeps_sched_one run i t : keeps (Inv []) run -> keeps (Inv []) (sched_one run i t : M (psys E) unit).
Proof. intros Hr. unfold sched_one. keeps_auto. Qed.
#[local] Hint Resolve keeps_sched_one : keeps.
Lemma keeps_sched_threads run ts i :
  keeps (Inv []) run -> keeps (Inv []) (sched_threads run ts i : M (psys E) unit).
Proof. intros Hr. induction ts as [|t ts IH]; cbn [sched_threads]; keeps_auto. Qed.
#[local] Hint Resolve keeps_sched_threads : keeps.
Lemma keeps_scheduler_pass run :
  keeps (Inv []) run -> keeps (Inv []) (scheduler_pass run : M (psys E) unit).
Proof. intros Hr. unfold scheduler_pass. keeps_auto. Qed.

Lemma keeps_set_initproc K i : i ∈ K -> keeps (Inv K) (set_initproc (Some i) : M (psys E) unit).
Proof.
  intros Hi s [(Hs & Hn0 & Hi0) HK]. simpl. split; [|done]. split_and!; [done|done|].
  simpl. intros j [= <-]. destruct (HK i Hi) as (p & Hp & _).
  rewrite <- (to_len _ _ _ Hs). by eapply lookup_lt_Some.
Qed.


Lemma userinit_inv (s : psys E) :
  Inv [] s -> nextpid s < 2 ^ 31 - 1 ->
  match userinit trapret forkret_addr s with Ret _ s' => Inv [] s' | Sleep _ s' => Inv [] s' | _ => True end.
Proof.
  intros Hs Hmax. unfold userinit. set (rest := fun o => bind (set_initproc o) _).
  assert (bind (allocproc trapret forkret_addr) rest s = bind alloc_slot (fun o => match o with
    | None => rest None | Some i => bind (alloc_init trapret forkret_addr i) rest end) s) as ->.
  { unfold allocproc, bind. destruct (alloc_slot s) as [[i|] s1| | | |]; done. }
  apply after_slot; [done|done|by intros s1 H1|]. intros i s1 H1. unfold bind.
  pose proof (keeps_alloc_init i s1 H1) as Hi.
  destruct (alloc_init trapret forkret_addr i s1) as [o s2| | | |] eqn:Ei; try done.
  destruct (alloc_init_slot i _ _ _ Ei) as [->| ->]; [done|].
  revert s2 Ei Hi. intros s2 _. revert s2. change (keeps (Inv [i]) (rest (Some i))). subst rest. cbv beta.
  assert (i ∈ [i]) as Hin by left. pose proof (keeps_set_initproc [i] i Hin).
  apply keeps_bind; [done|]. intros []. apply keeps_bind_opt. intros j [= <-]. keeps_auto.
Qed.
End PresOps.

(** ** wakeup1, exactly *)

Definition wake_th (c : option chan) (th : kthread) : kthread :=
  if bool_decide (t_state th = SLEEPING) && bool_decide (t_chan th = c)
  then tw_state RUNNABLE th else th.

Definition ready_at (ps : list proc) (i : nat) : bool :=
  match ps !! i with Some p => procIsReady p | None => false end.

(** The thread table after wakeup1: the threads asleep on [c] in ready processes. *)
Definition wake_rows (ps : list proc) (c : option chan) (tt : list (list kthread)) :
    list (list kthread) :=
  imap (fun i row => if ready_at ps i then wake_th c <$> row else row) tt.

Section Wakeup.
Context {E : Type} `{ProcEnv E}.
Implicit Types s : psys E.

Lemma alter_id {A} (f : A -> A) i (l : list A) x :
  l !! i = Some x -> f x = x -> alter f i l = l.
Proof.
  intros Hx Hf. apply list_eq. intros j. destruct (decide (j = i)) as [->|].
  - by rewrite list_lookup_alter_eq, Hx; simpl; rewrite Hf.
  - by rewrite list_lookup_alter_ne.
Qed.

Lemma with_ttable_same s : with_ttable (ttable s) s = s.
Proof. by destruct s. Qed.

Lemma wp_wake_one c r t th s (Q : unit -> psys E -> Prop) :
  thread_at (ttable s) r t = Some th ->
  Q tt (with_ttable (alter (alter (wake_th c) t) r (ttable s)) s) -> wp (wake_one c r t) Q s.
Proof.
  intros Ht HQ. unfold wake_one. wp_steps. eapply wp_gett; [done|].
  pose proof Ht as Hta. unfold thread_at in Ht. destruct (ttable s !! r) as [row|] eqn:Hr; [|done]. simpl in Ht.
  destruct (bool_decide (t_state th = SLEEPING) && bool_decide (t_chan th = c)) eqn:Ec.
  - apply wp_sett; [by exists th|].
    assert (alter (alter (wake_th c) t) r (ttable s) = alter (alter (tw_state RUNNABLE) t) r (ttable s)) as <-; [|done].
    apply list_alter_ext; [|done]. intros row' Hr'. simplify_eq.
    apply list_alter_ext; [|done]. intros th' Ht'. simplify_eq. unfold wake_th. by rewrite Ec.
  - wp_steps. assert (alter (alter (wake_th c) t) r (ttable s) = ttable s) as Ealt.
    { apply (alter_id _ _ _ row Hr). apply (alter_id _ _ _ th Ht). unfold wake_th. by rewrite Ec. }
    rewrite Ealt, with_ttable_same in HQ. done.
Qed.

(** [f] on the first [k] threads of a row. *)
Definition map_prefix (f : kthread -> kthread) (k : nat) (row : list kthread) : list kthread :=
  imap (fun t th => if (t <? k)%nat then f th else th) row.

Lemma map_prefix_S f k row : alter f k (map_prefix f k row) = map_prefix f (S k) row.
Proof.
  unfold map_prefix. apply list_eq. intros t. destruct (decide (t = k)) as [->|Hne].
  - rewrite list_lookup_alter_eq, !list_lookup_imap. destruct (row !! k); simpl; [|done].
    rewrite (proj2 (Nat.ltb_ge k k)), (proj2 (Nat.ltb_lt k (S k))) by lia. done.
  - rewrite list_lookup_alter_ne, !list_lookup_imap by done. destruct (row !! t); simpl; [|done].
    destruct (Nat.ltb_spec t k), (Nat.ltb_spec t (S k)); try done; lia.
Qed.

Lemma map_prefix_all f k row : (length row <= k)%nat -> map_prefix f k row = f <$> row.
Proof.
  intros Hl. unfold map_prefix. apply list_eq. intros t. rewrite list_lookup_imap, list_lookup_fmap.
  destruct (row !! t) as [th|] eqn:E1; simpl; [|done]. apply lookup_lt_Some in E1.
  by rewrite (proj2 (Nat.ltb_lt t k)) by lia.
Qed.

(** A loop over a row that applies [f] to each thread. *)
Lemma wp_row_map f (body : nat -> M (psys E) unit) r row s (Q : unit -> psys E -> Prop) :
  ttable s !! r = Some row -> length row = NTHREAD ->
  (forall t th tab Q', thread_at tab r t = Some th ->
     Q' tt (with_ttable (alter (alter f t) r tab) s) -> wp (body t) Q' (with_ttable tab s)) ->
  Q tt (with_ttable (alter (fmap f) r (ttable s)) s) ->
  wp (forM (seq 0 NTHREAD) body) Q s.
Proof.
  intros Hr Hl Hb HQ.
  eapply wp_mono; [apply (wp_forM _ _ (fun k s' => s' = with_ttable (alter (map_prefix f k) r (ttable s)) s))|].
  - rewrite (alter_id _ _ _ row Hr); [by rewrite with_ttable_same|].
    unfold map_prefix. apply list_eq. intros t. rewrite list_lookup_imap. by destruct (row !! t).
  - intros k t s' Hk ->. apply lookup_seq in Hk as [-> Hk]. simpl.
    destruct (lookup_lt_is_Some_2 row k) as [th Hth]; [lia|].
    eapply Hb.
    { unfold thread_at. rewrite list_lookup_alter_eq, Hr. simpl.
      unfold map_prefix. rewrite list_lookup_imap, Hth. done. }
    f_equal. apply list_eq. intros j. destruct (decide (j = r)) as [->|].
    + rewrite !list_lookup_alter_eq, Hr. simpl. by rewrite map_prefix_S.
    + by rewrite !list_lookup_alter_ne.
  - intros [] s' ->. rewrite length_seq.
    assert (alter (map_prefix f NTHREAD) r (ttable s) = alter (fmap f) r (ttable s)) as ->; [|done].
    apply list_alter_ext; [|done]. intros row' Hr'. simplify_eq. apply map_prefix_all. lia.
Qed.

Lemma wp_wake_row c r row s (Q : unit -> psys E -> Prop) :
  ttable s !! r = Some row -> length row = NTHREAD ->
  Q tt (with_ttable (alter (fmap (wake_th c)) r (ttable s)) s) ->
  wp (forM (seq 0 NTHREAD) (fun t => wake_one c r t)) Q s.
Proof. intros Hr Hl HQ. eapply wp_row_map; [done|done| |done]. intros. by eapply wp_wake_one. Qed.

Definition wake_rows_prefix (ps : list proc) (c : option chan) (k : nat) (tt : list (list kthread)) :=
  imap (fun i row => if (i <? k)%nat && ready_at ps i then wake_th c <$> row else row) tt.

Lemma wake_rows_prefix_S ps c k tt :
  wake_rows_prefix ps c (S k) tt =
  if ready_at ps k then alter (fmap (wake_th c)) k (wake_rows_prefix ps c k tt)
  else wake_rows_prefix ps c k tt.
Proof.
  unfold wake_rows_prefix. apply list_eq. intros i. destruct (decide (i = k)) as [->|Hne].
  - destruct (ready_at ps k) eqn:Er.
    + rewrite list_lookup_alter_eq, !list_lookup_imap. destruct (tt !! k); simpl; [|done].
      rewrite (proj2 (Nat.ltb_ge k k)), (proj2 (Nat.ltb_lt k (S k))), Er by lia. done.
    + rewrite !list_lookup_imap. destruct (tt !! k); simpl; [|done].
      by rewrite Er, !andb_false_r.
  - assert ((i <? S k)%nat = (i <? k)%nat) as Ei
      by (destruct (Nat.ltb_spec i (S k)), (Nat.ltb_spec i k); lia).
    destruct (ready_at ps k); [rewrite list_lookup_alter_ne by done|];
      rewrite !list_lookup_imap; destruct (tt !! i); simpl; by rewrite ?Ei.
Qed.

(** wakeup1 returns, and makes RUNNABLE exactly the threads asleep on the channel in the
    processes that are ready. *)
Lemma wp_wakeup1 c s (Q : unit -> psys E -> Prop) :
  sys_ok s -> Q tt (with_ttable (wake_rows (procs s) c (ttable s)) s) -> wp (wakeup1 c) Q s.
Proof.
  intros Hs HQ. unfold wakeup1. pose proof Hs as [T1 [T2 T3] T4 T5].
  eapply wp_mono; [apply (wp_forM _ _ (fun k s' => s' =
    with_ttable (wake_rows_prefix (procs s) c k (ttable s)) s))|].
  - assert (wake_rows_prefix (procs s) c 0 (ttable s) = ttable s) as ->; [|by rewrite with_ttable_same].
    unfold wake_rows_prefix. apply list_eq. intros i. rewrite list_lookup_imap. by destruct (ttable s !! i).
  - intros k i s' Hk ->. apply lookup_seq in Hk as [-> Hk]. simpl. unfold NPROC in Hk.
    destruct (lookup_lt_is_Some_2 (procs s) k) as [p Hp]; [rewrite T1; unfold NPROC; lia|].
    destruct (lookup_lt_is_Some_2 (ttable s) k) as [row Hr]; [rewrite T2; unfold NPROC; lia|].
    rewrite list.Forall_lookup in T3. pose proof (T3 k row Hr) as Hl.
    wp_steps. eapply wp_getp; [done|]. rewrite wake_rows_prefix_S.
    assert (ready_at (procs s) k = procIsReady p) as -> by (unfold ready_at; by rewrite Hp).
    destruct (procIsReady p) eqn:Er; [|by wp_steps]. wp_steps.
    assert (live (p_state p)) as Hlive.
    { unfold procIsReady in Er. unfold live. apply orb_prop in Er as [Er|Er];
        apply bool_decide_eq_true_1 in Er; rewrite Er; done. }
    eapply wp_row_of; [exact Hp|by apply (po_live _ _ _ (T4 k p Hp))|].
    eapply wp_wake_row; [|exact Hl|done]. simpl.
    unfold wake_rows_prefix. rewrite list_lookup_imap, Hr. simpl.
    by rewrite (proj2 (Nat.ltb_ge k k)) by lia.
  - intros [] s' ->. rewrite length_seq.
    assert (wake_rows_prefix (procs s) c NPROC (ttable s) = wake_rows (procs s) c (ttable s)) as ->; [|done].
    unfold wake_rows_prefix, wake_rows. apply list_eq. intros i. rewrite !list_lookup_imap.
    destruct (ttable s !! i) as [row|] eqn:Hr; simpl; [|done]. apply lookup_lt_Some in Hr.
    by rewrite (proj2 (Nat.ltb_lt i NPROC)) by lia.
Qed.

(** wakeup, called without the lock of the table. *)
Lemma wp_wakeup_proc c s (Q : unit -> psys E -> Prop) :
  sys_ok s -> LkPtable ∉ held (pctx s) ->
  Q tt (with_ttable (wake_rows (procs s) (Some c) (ttable s)) s) -> wp (Proc.wakeup c) Q s.
Proof.
  intros Hs Hl HQ. unfold Proc.wakeup. wp_steps. apply wp_acquire; [done|]. wp_steps.
  apply wp_wakeup1; [done|]. eapply wp_release; [done|].
  by destruct s as [? ? ? ? ? ? ? ? ? ? ? ? []].
Qed.
End Wakeup.

(** ** kill and wait, on every branch *)

Definition rouse (th : kthread) : kthread :=
  if bool_decide (t_state th = SLEEPING) then tw_state RUNNABLE th else th.

Section KillWait.
Context {E : Type} `{ProcEnv E}.
Implicit Types s : psys E.

Lemma find_pid_Some l pid j i :
  find_pid l pid j = Some i ->
  exists p, (j <= i)%nat /\ l !! (i - j)%nat = Some p /\ p_pid p = pid.
Proof.
  revert j. induction l as [|p l IH]; intros j; simpl; [done|]. destruct (Z.eqb_spec (p_pid p) pid).
  - intros [= ->]. exists p. by rewrite Nat.sub_diag.
  - intros Hf. destruct (IH _ Hf) as (q & Hle & Hq & Hs). exists q. split; [lia|].
    replace (i - j)%nat with (Datatypes.S (i - Datatypes.S j)) by lia. done.
Qed.

Lemma find_pid_None l pid j : find_pid l pid j = None -> Forall (fun p => p_pid p <> pid) l.
Proof.
  revert j. induction l as [|p l IH]; intros j; simpl; [constructor|].
  destruct (Z.eqb_spec (p_pid p) pid); [done|]. constructor; [done|]. eauto.
Qed.

Lemma find_pid_unique ps tt n i p :
  table_ok ps tt n -> ps !! i = Some p -> p_pid p <> 0 -> find_pid ps (p_pid p) 0 = Some i.
Proof.
  intros [_ _ _ Hu] Hp Hn. destruct (find_pid ps (p_pid p) 0) as [j|] eqn:Ef.
  - apply find_pid_Some in Ef as (q & _ & Hq & Eq). rewrite Nat.sub_0_r in Hq.
    f_equal. eapply Hu; [exact Hq|exact Hp|done|congruence].
  - apply find_pid_None in Ef. rewrite list.Forall_lookup in Ef. by destruct (Ef i p Hp).
Qed.

Lemma with_procs_same s : with_procs (procs s) s = s.
Proof. by destruct s. Qed.

(** kill of a process that has its row of threads. *)
Lemma wp_kill_row i p row s (Q : Z -> psys E -> Prop) :
  LkPtable ∉ held (pctx s) -> find_pid (procs s) (p_pid p) 0 = Some i ->
  procs s !! i = Some p -> p_threads p = Some i -> ttable s !! i = Some row -> length row = NTHREAD ->
  Q 0 (with_ttable (alter (fmap rouse) i (ttable s)) (with_procs (alter (pw_killed 1) i (procs s)) s)) ->
  wp (kill (p_pid p)) Q s.
Proof.
  intros Hl Hf Hp Ht Hr Hlen HQ. unfold kill. wp_steps. apply wp_acquire; [done|]. wp_steps.
  cbn [procs with_ctx psys_ctx]. rewrite Hf. wp_steps. apply wp_setp; [by exists p|]. wp_steps.
  cbn [procs with_procs with_ctx psys_ctx]. set (s1 := with_procs _ _).
  assert (procs s1 !! i = Some (pw_killed 1 p)) as Hp1 by (simpl; by rewrite list_lookup_alter_eq, Hp).
  eapply (wp_row_map rouse); [exact Hr|exact Hlen| |].
  - intros t th tab Q' Hth HQ'. wp_steps. apply wp_setp; [by eexists|].
    assert (with_procs (alter (pw_killed 1) i (procs (with_ttable tab s1))) (with_ttable tab s1) =
      with_ttable tab s1) as ->.
    { unfold with_procs at 1. cbn [procs with_ttable]. by rewrite (alter_id _ _ _ _ Hp1). }
    wp_steps. eapply wp_row_of; [exact Hp1|exact Ht|]. wp_steps. eapply wp_gett; [exact Hth|].
    unfold thread_at in Hth. destruct (tab !! i) as [row'|] eqn:Hr'; [|done]. simpl in Hth.
    assert (forall g, (forall x, row' !! t = Some x -> g x = rouse x) ->
      alter (alter g t) i tab = alter (alter rouse t) i tab) as Hext.
    { intros g Hg. apply list_alter_ext; [|done]. intros y Hy. simplify_eq.
      apply list_alter_ext; [|done]. intros x Hx. by apply Hg. }
    case_bool_decide as Hst.
    + apply wp_sett; [unfold thread_at; simpl; rewrite Hr'; by exists th|]. cbn [ttable with_ttable].
      rewrite Hext; [done|]. intros x Hx. simplify_eq. unfold rouse. by rewrite bool_decide_eq_true_2.
    + wp_steps. assert (alter (alter rouse t) i tab = tab) as Ealt.
      { apply (alter_id _ _ _ row' Hr'). apply (alter_id _ _ _ th Hth). unfold rouse.
        by rewrite bool_decide_eq_false_2. }
      by rewrite Ealt in HQ'.
  - wp_steps. eapply wp_release; [done|]. wp_steps.
    by destruct s as [? ? ? ? ? ? ? ? ? ? ? ? []].
Qed.

Lemma acquire_run l s :
  l ∉ held (pctx s) ->
  acquire l s = Ret tt (with_ctx (mkctx (l :: held (pctx s)) (woken (pctx s)) (killed (pctx s))) s).
Proof. intros Hl. unfold acquire, bind, gets, set_held, modify. simpl. by rewrite bool_decide_eq_false_2. Qed.

Lemma bind_ret {A B} (m : M (psys E) A) (k : A -> M (psys E) B) s a s' :
  m s = Ret a s' -> bind m k s = k a s'.
Proof. unfold bind. by intros ->. Qed.

Lemma getp_run i p s : procs s !! i = Some p -> getp i s = Ret p s.
Proof. intros Hp. unfold getp, bind, gets, lift_opt. by rewrite Hp. Qed.

Lemma setp_run i p f s :
  procs s !! i = Some p -> setp i f s = Ret tt (with_procs (alter f i (procs s)) s).
Proof. intros Hp. unfold setp, bind. by rewrite (getp_run _ _ _ Hp). Qed.

Lemma row_of_null i p s : procs s !! i = Some p -> p_threads p = None -> row_of i s = Fault.
Proof. intros Hp Ht. unfold row_of, bind. by rewrite (getp_run _ _ _ Hp), Ht. Qed.

(** A process in the table whose [threads] is null: the loop over them faults. *)
Lemma kill_null i p s :
  LkPtable ∉ held (pctx s) -> find_pid (procs s) (p_pid p) 0 = Some i ->
  procs s !! i = Some p -> p_threads p = None -> kill (p_pid p) s = Fault.
Proof.
  intros Hl Hf Hp Ht. unfold kill. erewrite bind_ret by (by apply acquire_run).
  set (s1 := with_ctx _ s). erewrite bind_ret by done. cbv beta.
  change (procs s1) with (procs s). rewrite Hf.
  erewrite bind_ret by (by eapply (setp_run i p)). set (s2 := with_procs _ _).
  assert (procs s2 !! i = Some (pw_killed 1 p)) as Hp2 by (simpl; by rewrite list_lookup_alter_eq, Hp).
  unfold NTHREAD. cbn [seq forM]. unfold bind at 1, bind at 1. unfold bind at 1.
  rewrite (setp_run _ _ _ _ Hp2). set (s3 := with_procs _ s2).
  assert (procs s3 !! i = Some (pw_killed 1 (pw_killed 1 p))) as Hp3
    by (simpl; by rewrite !list_lookup_alter_eq, Hp).
  unfold bind at 1. by rewrite (row_of_null _ _ _ Hp3).
Qed.

(** Is entry [i] a child of [c]; is it a zombie one? *)
Definition child_of (ps : list proc) (c i : nat) : bool :=
  match ps !! i with Some p => bool_decide (p_parent p = Some c) | None => false end.
Definition zombie_child (ps : list proc) (c i : nat) : bool :=
  child_of ps c i && match ps !! i with Some p => bool_decide (p_state p = ZOMBIE) | None => false end.

(** The entry wait frees. *)
Definition reap (p : proc) : proc :=
  pw_killed 0 (pw_name (<[0%nat := 0]> (p_name p)) (pw_parent None (pw_pid 0 (pw_state UNUSED (pw_kstack 0 p))))).

Lemma wp_wait_scan ids c hk s (Q : Z + bool -> psys E -> Prop) :
  (forall i, i ∈ ids -> is_Some (procs s !! i)) ->
  match List.find (zombie_child (procs s) c) ids with
  | Some i => exists p e1 e2, procs s !! i = Some p /\ e_kfree (p_kstack p) (env s) = Ret tt e1 /\
      e_freevm (p_pgdir p) e1 = Ret tt e2 /\
      Q (inl (p_pid p)) (with_env e2 (with_procs (alter reap i (procs s)) s))
  | None => Q (inr (hk || existsb (child_of (procs s) c) ids)) s
  end -> wp (wait_scan ids c hk) Q s.
Proof.
  revert hk. induction ids as [|i ids IH]; intros hk Hids HQ.
  { simpl in *. by rewrite orb_false_r in HQ. }
  cbn [wait_scan]. destruct (Hids i ltac:(left)) as [p Hp]. wp_steps. eapply wp_getp; [done|].
  assert (forall j, j ∈ ids -> is_Some (procs s !! j)) as Hids' by (intros j Hj; apply Hids; by right).
  cbn [List.find existsb] in HQ. unfold zombie_child at 1, child_of at 1 2 in HQ. rewrite Hp in HQ.
  destruct (bool_decide (p_parent p = Some c)) eqn:Ec; cbn [negb andb orb] in *; [|by apply IH].
  destruct (bool_decide (p_state p = ZOMBIE)) eqn:Ez.
  - destruct HQ as (p' & e1 & e2 & Hp' & Hk & Hf & HQ). simplify_eq.
    wp_steps. apply wp_in_env. eapply wp_of_run; [exact Hk|]. wp_steps.
    apply wp_setp; [by exists p'|]. wp_steps. apply wp_in_env. cbn [env with_env with_procs].
    eapply wp_of_run; [exact Hf|].
    do 5 (wp_steps; apply wp_setp; [cbn; rewrite ?list_lookup_alter_eq, Hp'; by eexists|]). wp_steps.
    cbn. rewrite !alter_alter_procs. exact HQ.
  - apply IH; [done|]. destruct (List.find _ ids); [exact HQ|]. by rewrite orb_true_r in HQ.
Qed.

Lemma table_ids ps tt n i : table_ok ps tt n -> i ∈ seq 0 NPROC -> is_Some (ps !! i).
Proof.
  intros Ht Hi. apply elem_of_seq in Hi. apply lookup_lt_is_Some. rewrite (to_len _ _ _ Ht). lia.
Qed.

(** The thread that goes to sleep. *)
Definition asleep_on (ch : chan) (th : kthread) : kthread := tw_state SLEEPING (tw_chan (Some ch) th).

Lemma alter_alter_threads (f g : kthread -> kthread) r t (tab : list (list kthread)) :
  alter (alter f t) r (alter (alter g t) r tab) = alter (alter (fun x => f (g x)) t) r tab.
Proof.
  apply list_eq. intros j. destruct (decide (j = r)) as [->|]; [|by rewrite !list_lookup_alter_ne].
  rewrite !list_lookup_alter_eq. destruct (tab !! r) as [row|]; simpl; [|done]. f_equal.
  apply list_eq. intros k. destruct (decide (k = t)) as [->|]; [|by rewrite !list_lookup_alter_ne].
  rewrite !list_lookup_alter_eq. by destruct (row !! t).
Qed.

(** sleep on the lock of the table, the only lock held. *)
Lemma wp_sleep_ptable ch c r t th s (Q : unit -> psys E -> Prop) :
  cur s = Some c -> curt s = Some (r, t) -> thread_at (ttable s) r t = Some th ->
  held (pctx s) = [LkPtable] ->
  Q tt (with_ttable (alter (alter (asleep_on ch) t) r (ttable s)) s) ->
  wp (sleep_enter ch LkPtable) Q s.
Proof.
  intros Hc Hct Hth Hh HQ. unfold sleep_enter. wp_steps. rewrite Hc. wp_steps.
  rewrite bool_decide_eq_true_2 by done. cbn [negb]. unfold curthread. wp_steps.
  eapply wp_lift_opt; [exact Hct|]. cbn [fst snd]. wp_steps. apply wp_sett; [by eexists|]. wp_steps.
  apply wp_sett; [cbn; rewrite thread_at_alter, decide_True, Hth by done; by eexists|].
  unfold sched. wp_steps. cbn [pctx with_ttable]. rewrite Hh, bool_decide_eq_true_2 by left. cbn [negb length Nat.eqb].
  unfold curthread. wp_steps. eapply wp_lift_opt; [exact Hct|]. wp_steps. cbn [fst snd].
  eapply wp_gett; [cbn; rewrite !thread_at_alter, !decide_True, Hth by done; done|].
  rewrite bool_decide_eq_false_2 by done. wp_steps. cbn. rewrite alter_alter_threads. exact HQ.
Qed.

(** wait once it has the lock, where it returns. *)
Lemma wait_returns s c p :
  sys_ok s -> cur s = Some c -> procs s !! c = Some p -> LkPtable ∉ held (pctx s) ->
  match List.find (zombie_child (procs s) c) (seq 0 NPROC) with
  | Some i => forall q e1 e2, procs s !! i = Some q -> e_kfree (p_kstack q) (env s) = Ret tt e1 ->
      e_freevm (p_pgdir q) e1 = Ret tt e2 ->
      wait s = Ret (p_pid q) (with_env e2 (with_procs (alter reap i (procs s)) s))
  | None =>
      existsb (child_of (procs s) c) (seq 0 NPROC) = false \/ p_killed p <> 0 ->
      wait s = Ret (-1) s
  end.
Proof.
  intros Hs Hc Hp Hl. destruct (List.find _ _) as [i|] eqn:Ef.
  - intros q e1 e2 Hq Hk Hf.
    assert (wp wait (fun a s' => a = p_pid q /\
      s' = with_env e2 (with_procs (alter reap i (procs s)) s)) s) as Hw.
    { unfold wait, wait_loop. wp_steps. apply wp_acquire; [done|]. unfold curproc. wp_steps.
      eapply wp_lift_opt; [exact Hc|]. wp_steps.
      apply wp_wait_scan; [intros j Hj; by eapply table_ids|]. cbn [procs with_ctx psys_ctx env].
      rewrite Ef. exists q, e1, e2. split_and!; [done..|].
      wp_steps. eapply wp_release; [done|]. wp_steps. split; [done|].
      by destruct s as [? ? ? ? ? ? ? ? ? ? ? ? []]. }
    apply wp_run in Hw as (a & s' & -> & -> & ->). done.
  - intros Hn. assert (wp wait (fun a s' => a = -1 /\ s' = s) s) as Hw.
    { unfold wait, wait_loop. wp_steps. apply wp_acquire; [done|]. unfold curproc. wp_steps.
      eapply wp_lift_opt; [exact Hc|]. wp_steps.
      apply wp_wait_scan; [intros j Hj; by eapply table_ids|]. cbn [procs with_ctx psys_ctx env].
      rewrite Ef. wp_steps. eapply wp_getp; [exact Hp|]. cbn [orb].
      assert (negb (existsb (child_of (procs s) c) (seq 0 NPROC)) || negb (p_killed p =? 0) = true) as ->.
      { destruct Hn as [->|Hk]; [done|]. apply Z.eqb_neq in Hk. by rewrite Hk, orb_true_r. }
      wp_steps. eapply wp_release; [done|]. wp_steps. split; [done|].
      by destruct s as [? ? ? ? ? ? ? ? ? ? ? ? []]. }
    apply wp_run in Hw as (a & s' & -> & -> & ->). done.
Qed.

(** wait where it goes to sleep: it holds the lock, as sched requires. *)
Lemma wait_sleeps s c p r t th :
  sys_ok s -> cur s = Some c -> procs s !! c = Some p -> held (pctx s) = [] ->
  curt s = Some (r, t) -> thread_at (ttable s) r t = Some th ->
  List.find (zombie_child (procs s) c) (seq 0 NPROC) = None ->
  existsb (child_of (procs s) c) (seq 0 NPROC) = true -> p_killed p = 0 ->
  let ch := ChProc (Z.of_nat c) in
  wait s = Sleep ch (with_pctx (mkctx [LkPtable] (woken (pctx s)) (killed (pctx s)))
    (with_ttable (alter (alter (asleep_on ch) t) r (ttable s)) s)).
Proof.
  intros Hs Hc Hp Hl Hct Hth Ef Hk Hkill ch. unfold wait.
  erewrite bind_ret by (apply acquire_run; rewrite Hl; apply not_elem_of_nil).
  set (s1 := with_ctx _ s). unfold wait_loop, curproc.
  erewrite bind_ret by (erewrite bind_ret by done; change (cur s1) with (cur s); by rewrite Hc).
  assert (wp (wait_scan (seq 0 NPROC) c false) (fun a s' => a = inr true /\ s' = s1) s1) as Hw.
  { apply wp_wait_scan; [intros j Hj; by eapply table_ids|]. change (procs s1) with (procs s). by rewrite Ef, Hk. }
  apply wp_run in Hw as (a & s' & Hw & -> & ->). erewrite bind_ret by exact Hw. cbv beta iota.
  erewrite bind_ret by (by eapply getp_run). rewrite Hkill. cbn [negb orb Z.eqb].
  assert (wp (sleep_enter ch LkPtable) (fun _ s' => s' = with_ttable (alter (alter (asleep_on ch) t) r (ttable s1)) s1) s1) as Hw2.
  { eapply wp_sleep_ptable; [exact Hc|exact Hct|exact Hth| |done]. simpl. by rewrite Hl. }
  apply wp_run in Hw2 as ([] & s' & Hw2 & ->). erewrite bind_ret by exact Hw2.
  unfold sleep_on. f_equal. subst s1. rewrite Hl. done.
Qed.
End KillWait.

(** ** fork *)

Section Fork.
Context {E : Type} `{ProcEnv E}.
Variables trapret forkret_addr : Z.
Implicit Types s : psys E.

(** The first thread of a new process, on the kernel stack at [k]. *)
Definition first_thread (k : Z) (th : kthread) : kthread :=
  tw_lock true (tw_kernelStack 1 (tw_kstack k
    (tw_context (k + KSTACKSIZE - sizeof_trapframe - 4 - sizeof_context)
      (tw_tf (k + KSTACKSIZE - sizeof_trapframe) (tw_lock true (tw_state UNUSED th)))))).

(** What alloc_init leaves of the state it started from. *)
Record inited (i : nat) (k : Z) (s s' : psys E) : Prop := {
  in_procs : procs s' = alter (pw_kstack k) i (procs s);
  in_first : thread_at (ttable s') i 0 = first_thread k <$> thread_at (ttable s) i 0;
  in_rest : forall t, (0 < t)%nat -> thread_at (ttable s') i t =
    (fun th => tw_lock true (tw_state UNUSED th)) <$> thread_at (ttable s) i t;
  in_others : forall j t, j <> i -> thread_at (ttable s') j t = thread_at (ttable s) j t;
  in_tfs : tfs s' = tfs s;
  in_cur : cur s' = cur s /\ curt s' = curt s /\ pctx s' = pctx s /\ nextpid s' = nextpid s }.

Lemma thread_at_row f r tab j t :
  thread_at (alter (fmap f) r tab) j t = if decide (j = r) then f <$> thread_at tab j t else thread_at tab j t.
Proof.
  unfold thread_at. case_decide as Hj.
  - subst. rewrite list_lookup_alter_eq. destruct (tab !! r); simpl; [|done]. by rewrite list_lookup_fmap.
  - by rewrite list_lookup_alter_ne.
Qed.

Lemma wp_alloc_init i k e1 p row s (Q : option nat -> psys E -> Prop) :
  procs s !! i = Some p -> p_threads p = Some i -> ttable s !! i = Some row -> length row = NTHREAD ->
  e_kalloc (env s) = Ret k e1 -> k <> 0 ->
  (forall s', env s' = e1 -> inited i k s s' -> Q (Some i) s') ->
  wp (alloc_init trapret forkret_addr i) Q s.
Proof.
  intros Hp Ht Hr Hl Hk Hk0 HQ. unfold alloc_init. wp_steps. apply wp_in_env.
  eapply wp_of_run; [exact Hk|]. wp_steps. apply wp_setp; [by exists p|].
  rewrite (proj2 (Z.eqb_neq k 0) Hk0). wp_steps. set (s1 := with_procs _ _).
  assert (procs s1 !! i = Some (pw_kstack k p)) as Hp1 by (simpl; by rewrite list_lookup_alter_eq, Hp).
  assert (is_Some (row !! 0%nat)) as [th0 Hth0] by (apply lookup_lt_is_Some; rewrite Hl; unfold NTHREAD; lia).
  eapply (wp_row_map (fun th => tw_lock true (tw_state UNUSED th))); [exact Hr|exact Hl| |].
  { intros t th tab Q' Hth HQ'. wp_steps. eapply wp_row_of; [exact Hp1|exact Ht|]. wp_steps.
    apply wp_sett; [by eexists|]. wp_steps.
    apply wp_sett; [cbn; rewrite thread_at_alter, decide_True, Hth by done; by eexists|].
    cbn. by rewrite alter_alter_threads. }
  wp_steps. eapply wp_row_of; [exact Hp1|exact Ht|]. cbv zeta. wp_steps.
  assert (forall tab f, is_Some (thread_at tab i 0) -> is_Some (thread_at (alter (alter f 0%nat) i tab) i 0)) as Hsome.
  { intros tab f [x Hx]. rewrite thread_at_alter, decide_True, Hx by done. by eexists. }
  assert (is_Some (thread_at (alter (fmap (fun th => tw_lock true (tw_state UNUSED th))) i (ttable s)) i 0)) as H0.
  { rewrite thread_at_row, decide_True by done. unfold thread_at. rewrite Hr. simpl. rewrite Hth0. by eexists. }
  apply wp_sett; [exact H0|]. wp_steps. unfold put_word. wp_steps. cbn [ttable with_ttable s1 with_procs with_env].
  apply wp_sett; [cbn; by apply Hsome|]. unfold put_context. wp_steps.
  eapply wp_getp; [exact Hp1|]. wp_steps.
  do 3 (apply wp_sett; [cbn; repeat apply Hsome; exact H0|]; wp_steps).
  cbn. rewrite !alter_alter_threads. apply HQ; [done|]. constructor; try done; cbn [ttable with_ttable].
  - rewrite thread_at_alter, decide_True, thread_at_row, decide_True by done.
    by destruct (thread_at (ttable s) i 0).
  - intros t Ht0. rewrite thread_at_alter, decide_False, thread_at_row, decide_True by (done || lia). done.
  - intros j t Hj. rewrite thread_at_alter, decide_False, thread_at_row, decide_False by naive_solver. done.
Qed.

(** filedup of the open files of a list, one after the other, each returning its argument. *)
Inductive dups : list Z -> E -> E -> Prop :=
| dups_nil e : dups [] e e
| dups_zero fs e e' : dups fs e e' -> dups (0 :: fs) e e'
| dups_file f fs e e1 e' : f <> 0 -> e_filedup f e = Ret f e1 -> dups fs e1 e' -> dups (f :: fs) e e'.

(** The child's file descriptors after the first [k] of the parent's are copied. *)
Definition dup_files (k : nat) (pf cf : list Z) : list Z :=
  imap (fun fd f => match pf !! fd with
                    | Some g => if (fd <? k)%nat && negb (g =? 0) then g else f
                    | None => f end) cf.

Lemma length_dup_files k pf cf : length (dup_files k pf cf) = length cf.
Proof. apply length_imap. Qed.

Lemma dup_files_0 pf cf : dup_files 0 pf cf = cf.
Proof.
  apply list_eq. intros i. unfold dup_files. rewrite list_lookup_imap.
  destruct (cf !! i); simpl; [|done]. by destruct (pf !! i).
Qed.

Lemma dup_files_S k pf cf g :
  pf !! k = Some g ->
  dup_files (S k) pf cf = if g =? 0 then dup_files k pf cf else <[k := g]> (dup_files k pf cf).
Proof.
  intros Hg. apply list_eq. intros i. destruct (decide (i = k)) as [->|Hne].
  - unfold dup_files. destruct (cf !! k) as [f|] eqn:Hc.
    + rewrite list_lookup_imap, Hc. simpl. rewrite Hg, (proj2 (Nat.ltb_lt k (S k))) by lia.
      destruct (g =? 0) eqn:E0; simpl.
      * rewrite list_lookup_imap, Hc. simpl. by rewrite Hg, E0, andb_false_r.
      * rewrite list_lookup_insert_eq; [done|]. rewrite length_imap. by eapply lookup_lt_Some.
    + rewrite list_lookup_imap, Hc. simpl. symmetry. apply lookup_ge_None_2.
      apply lookup_ge_None_1 in Hc. destruct (g =? 0); rewrite ?length_insert, length_imap; done.
  - assert ((i <? S k)%nat = (i <? k)%nat) as Ei
      by (destruct (Nat.ltb_spec i (S k)), (Nat.ltb_spec i k); lia).
    unfold dup_files. destruct (g =? 0); rewrite ?list_lookup_insert_ne, !list_lookup_imap by done;
      destruct (cf !! i); simpl; try done; destruct (pf !! i); by rewrite ?Ei.
Qed.

(** A clear table becomes the other. *)
Lemma dup_files_clear k pf cf :
  length cf = length pf -> (length pf <= k)%nat -> Forall (eq 0) cf -> dup_files k pf cf = pf.
Proof.
  intros Hl Hk Hc. apply list_eq. intros i. unfold dup_files. rewrite list_lookup_imap.
  destruct (cf !! i) as [f|] eqn:Hf; simpl.
  - rewrite list.Forall_lookup in Hc. rewrite <- (Hc i f Hf). apply lookup_lt_Some in Hf as Hi.
    destruct (lookup_lt_is_Some_2 pf i) as [g Hg]; [lia|]. rewrite Hg.
    rewrite (proj2 (Nat.ltb_lt i k)) by lia. cbn [andb]. by destruct (Z.eqb_spec g 0) as [->|].
  - symmetry. apply lookup_ge_None_2. apply lookup_ge_None_1 in Hf. lia.
Qed.

Lemma wp_dup_loop np x pf e' s (Q : unit -> psys E -> Prop) :
  procs s !! np = Some x -> length pf = NOFILE -> dups pf (env s) e' ->
  Q tt (with_env e' (with_procs (alter (fun x => pw_ofile (dup_files NOFILE pf (p_ofile x)) x) np (procs s)) s)) ->
  wp (forM (seq 0 NOFILE) (fun fd =>
    bind (lift_opt (pf !! fd)) (fun f =>
      if negb (f =? 0)
      then bind (in_env (e_filedup f)) (fun f' => setp np (fun x => pw_ofile (<[fd := f']> (p_ofile x)) x))
      else ret tt))) Q s.
Proof.
  intros Hx Hl Hd HQ. set (upd := fun k (x : proc) => pw_ofile (dup_files k pf (p_ofile x)) x).
  eapply wp_mono; [apply (wp_forM _ _ (fun k s' => exists e,
    dups (drop k pf) e e' /\ s' = with_env e (with_procs (alter (upd k) np (procs s)) s)))|].
  - exists (env s). split; [done|]. assert (alter (upd 0%nat) np (procs s) = procs s) as ->; [|by destruct s].
    apply (alter_id _ _ _ x Hx). unfold upd. rewrite dup_files_0. by destruct x.
  - intros k fd s' Hk (e & He & ->). apply lookup_seq in Hk as [-> Hk]. simpl.
    destruct (lookup_lt_is_Some_2 pf k) as [g Hg]; [lia|]. rewrite (drop_S _ _ _ Hg) in He.
    apply wp_bind. eapply wp_lift_opt; [exact Hg|].
    assert (forall y : proc, upd (S k) y = if g =? 0 then upd k y
      else pw_ofile (<[k := g]> (p_ofile (upd k y))) (upd k y)) as Hupd.
    { intros y. unfold upd. rewrite (dup_files_S _ _ _ _ Hg). by destruct (g =? 0). }
    inversion He as [|? ? ? He'|? ? ? e1 ? Hg0 Hf He']; subst.
    + cbn [Z.eqb negb] in *. wp_steps. exists e. split; [done|]. unfold with_env, with_procs. simpl. f_equal.
      apply list_alter_ext; [|done]. intros y _. by rewrite Hupd.
    + rewrite (proj2 (Z.eqb_neq _ _) Hg0) in *. cbn [negb]. apply wp_bind, wp_in_env. eapply wp_of_run; [exact Hf|].
      apply wp_setp; [simpl; rewrite list_lookup_alter_eq, Hx; by eexists|].
      exists e1. split; [done|]. unfold with_env, with_procs. simpl. f_equal. rewrite alter_alter_procs.
      apply list_alter_ext; [|done]. intros y _. by rewrite Hupd.
  - intros [] s' (e & He & ->). rewrite length_seq in *. rewrite drop_ge in He by lia. by inversion He; subst.
Qed.

Lemma wp_clear_rest np x s (Q : unit -> psys E -> Prop) :
  procs s !! np = Some x -> p_threads x = Some np ->
  (forall t, (t < NTHREAD)%nat -> is_Some (thread_at (ttable s) np t)) ->
  (forall tab, thread_at tab np 0 = thread_at (ttable s) np 0 ->
    (forall j t, j <> np -> thread_at tab j t = thread_at (ttable s) j t) ->
    Q tt (with_ttable tab s)) ->
  wp (forM (seq 1 (NTHREAD - 1)) (fun t => bind (row_of np) (fun r =>
    bind (sett r t (tw_state UNUSED)) (fun _ => sett r t (tw_lock true))))) Q s.
Proof.
  intros Hx Ht Hs HQ.
  eapply wp_mono; [apply (wp_forM _ _ (fun k s' => exists tab, s' = with_ttable tab s /\
    thread_at tab np 0 = thread_at (ttable s) np 0 /\
    (forall j t, j <> np -> thread_at tab j t = thread_at (ttable s) j t) /\
    (forall t, (t < NTHREAD)%nat -> is_Some (thread_at tab np t))))|].
  - exists (ttable s). by rewrite with_ttable_same.
  - intros k t s' Hk (tab & -> & H0 & Ho & Hi). apply lookup_seq in Hk as [-> Hk].
    apply wp_bind. eapply wp_row_of; [exact Hx|exact Ht|]. apply wp_bind.
    assert (is_Some (thread_at tab np (1 + k)%nat)) as [th Hth] by (apply Hi; unfold NTHREAD in *; lia).
    apply wp_sett; [by eexists|]. apply wp_sett; [cbn [ttable with_ttable]; rewrite thread_at_alter, decide_True, Hth by done; by eexists|].
    cbn [ttable with_ttable]. rewrite alter_alter_threads. eexists. split; [done|]. split_and!.
    + rewrite thread_at_alter, decide_False by (intros [_ ?]; lia). done.
    + intros j t Hj. rewrite thread_at_alter, decide_False by (by intros [? _]). by apply Ho.
    + intros t Htn. rewrite thread_at_alter. destruct (Hi t Htn) as [y ->]. case_decide; by eexists.
  - intros [] s' (tab & -> & H0 & Ho & _). by apply HQ.
Qed.

(** The child's entry. *)
Definition child_entry (c : nat) (p : proc) (pg : Z) (nm : list Z) (x : proc) : proc :=
  mkproc (p_sz p) pg (p_kstack x) RUNNABLE (p_pid x) (Some c) (p_killed x)
    (dup_files NOFILE (p_ofile p) (p_ofile x)) (p_cwd p) nm (p_threads x).

Lemma name_copy (x p : proc) :
  length (p_name x) = 16%nat -> length (p_name p) = 16%nat ->
  exists nm, Str.safestrcpy (p_name x) (p_name p) 16 = Some nm /\ Str.cstr 16 nm = Str.cstr 15 (p_name p).
Proof.
  intros Hx Hp. destruct (Str.safestrcpy_spec (p_name x) (p_name p) 16) as (nm & H1 & _ & H2 & _);
    [lia|right; rewrite Hp; simpl; lia|done|]. by exists nm.
Qed.

Lemma wp_fork_child np x c p r t th f0 th0 pg e1 e2 e3 s (Q : Z -> psys E -> Prop) :
  procs s !! np = Some x -> p_threads x = Some np -> length (p_name x) = 16%nat ->
  (forall t, (t < NTHREAD)%nat -> is_Some (thread_at (ttable s) np t)) ->
  thread_at (ttable s) np 0 = Some th0 ->
  cur s = Some c -> procs s !! c = Some p -> c <> np -> length (p_ofile p) = NOFILE -> length (p_name p) = 16%nat ->
  curt s = Some (r, t) -> r <> np -> thread_at (ttable s) r t = Some th -> tfs s !! t_tf th = Some f0 ->
  e_copyuvm (p_pgdir p) (p_sz p) (env s) = Ret pg e1 -> pg <> 0 -> dups (p_ofile p) e1 e2 ->
  e_idup (p_cwd p) e2 = Ret (p_cwd p) e3 -> LkPtable ∉ held (pctx s) ->
  (forall nm s', Str.cstr 16 nm = Str.cstr 15 (p_name p) ->
    procs s' = alter (child_entry c p pg nm) np (procs s) ->
    thread_at (ttable s') np 0 = Some (tw_state RUNNABLE (tw_kernelStack (t_kernelStack th)
      (tw_kstack (t_kstack th) (tw_parent (Some np) th0)))) ->
    (forall j t, j <> np -> thread_at (ttable s') j t = thread_at (ttable s) j t) ->
    tfs s' = <[t_tf th0 := tf_set_eax 0 f0]> (tfs s) ->
    pctx s' = pctx s -> env s' = e3 ->
    Q (p_pid x) s') ->
  wp (fork_child np) Q s.
Proof.
  intros Hx Hxt Hxn Hrow Hth0 Hc Hp Hne Hpo Hpn Hct Hrn Hth Hf0 Hcopy Hpg Hd Hi Hl HQ.
  unfold fork_child, fork_copy, curproc. wp_steps. eapply wp_lift_opt; [exact Hc|]. wp_steps.
  eapply wp_getp; [exact Hp|]. wp_steps. apply wp_in_env. eapply wp_of_run; [exact Hcopy|]. wp_steps.
  apply wp_setp; [by eexists|]. rewrite (proj2 (Z.eqb_neq pg 0) Hpg). wp_steps.
  do 2 (apply wp_setp; [cbn; rewrite ?list_lookup_alter_eq, Hx; by eexists|]; wp_steps).
  unfold fork_setup, curproc. wp_steps. eapply wp_lift_opt; [exact Hc|]. wp_steps.
  eapply wp_getp; [cbn; rewrite !list_lookup_alter_ne by done; exact Hp|]. wp_steps.
  eapply wp_clear_rest; [cbn; rewrite !list_lookup_alter_eq, Hx; done|done|done|].
  intros tab Hz Ho. cbn [ttable with_procs with_env] in Hz, Ho. wp_steps.
  eapply wp_row_of; [cbn; rewrite !list_lookup_alter_eq, Hx; done|done|]. wp_steps.
  apply wp_sett; [cbn; rewrite Hz, Hth0; by eexists|]. unfold curthread. wp_steps.
  eapply wp_lift_opt; [exact Hct|]. wp_steps. cbn [fst snd].
  assert (forall f, thread_at (alter (alter f 0%nat) np tab) r t = Some th) as Hme.
  { intros f. rewrite thread_at_alter, decide_False by (by intros [? _]). by rewrite Ho. }
  assert (forall f, thread_at (alter (alter f 0%nat) np tab) np 0 = Some (f th0)) as Hch.
  { intros f. by rewrite thread_at_alter, decide_True, Hz, Hth0. }
  eapply wp_gett; [apply Hme|]. wp_steps. apply wp_sett; [cbn; rewrite Hch; by eexists|]. wp_steps.
  unfold get_tf, put_tf. wp_steps. eapply wp_lift_opt; [exact Hf0|]. wp_steps. pcbn. rewrite alter_alter_threads.
  eapply wp_gett; [apply Hch|]. wp_steps. apply wp_sett; [cbn; rewrite Hch; by eexists|]. wp_steps.
  pcbn. rewrite alter_alter_threads.
  eapply wp_lift_opt; [apply lookup_insert_eq|]. wp_steps.
  eapply wp_dup_loop; [cbn; rewrite !list_lookup_alter_eq, Hx; done|done|exact Hd|]. wp_steps.
  apply wp_in_env. eapply wp_of_run; [exact Hi|]. wp_steps.
  apply wp_setp; [cbn; rewrite !list_lookup_alter_eq, Hx; by eexists|]. wp_steps.
  eapply wp_getp; [cbn; rewrite !list_lookup_alter_eq, Hx; done|]. wp_steps.
  destruct (name_copy x p Hxn Hpn) as (nm & Hnm & Hcs). eapply wp_lift_opt; [exact Hnm|]. wp_steps.
  apply wp_setp; [cbn; rewrite !list_lookup_alter_eq, Hx; by eexists|]. wp_steps.
  unfold fork_ready. wp_steps. apply wp_acquire; [done|]. wp_steps. apply wp_setp; [cbn; rewrite !list_lookup_alter_eq, Hx; by eexists|].
  wp_steps. eapply wp_row_of; [cbn; rewrite !list_lookup_alter_eq, Hx; done|done|]. wp_steps. apply wp_sett; [cbn; rewrite Hch; by eexists|]. wp_steps. pcbn. rewrite alter_alter_threads.
  eapply wp_release; [done|]. wp_steps. cbn. apply (HQ nm); [done|..]; cbn.
  - by rewrite !alter_alter_procs.
  - by rewrite Hch.
  - intros j t' Hj. rewrite thread_at_alter, decide_False by (by intros [? _]). by apply Ho.
  - by rewrite insert_insert_eq.
  - by destruct (pctx s).
  - done.
Qed.

(** The table is full: fork fails and changes nothing. *)
Lemma fork_no_slot s :
  LkPtable ∉ held (pctx s) -> find_unused (procs s) 0 = None ->
  fork trapret forkret_addr s = Ret (-1) s.
Proof.
  intros Hl Hn. assert (wp (fork trapret forkret_addr) (fun a s' => a = -1 /\ s' = s) s) as Hw.
  { unfold fork, allocproc. wp_steps. apply wp_alloc_slot; [done|]. rewrite Hn. by wp_steps. }
  apply wp_run in Hw as (a & s' & -> & -> & ->). done.
Qed.

(** No page for the kernel stack: fork fails and gives the slot back. *)
Lemma fork_no_stack np x e1 s :
  LkPtable ∉ held (pctx s) -> find_unused (procs s) 0 = Some np -> procs s !! np = Some x ->
  e_kalloc (env s) = Ret 0 e1 ->
  exists s', fork trapret forkret_addr s = Ret (-1) s' /\ env s' = e1 /\ ttable s' = ttable s /\
    procs s' = alter (fun p => pw_state UNUSED (pw_kstack 0 (pw_pid (nextpid s) (pw_threads (Some np) (pw_state EMBRYO p))))) np (procs s).
Proof.
  intros Hl Hn Hx Hk. assert (wp (fork trapret forkret_addr) (fun a s' => a = -1 /\ env s' = e1 /\ ttable s' = ttable s /\
    procs s' = alter (fun p => pw_state UNUSED (pw_kstack 0 (pw_pid (nextpid s) (pw_threads (Some np) (pw_state EMBRYO p))))) np (procs s)) s) as Hw.
  { unfold fork, allocproc. wp_steps. apply wp_alloc_slot; [done|]. rewrite Hn. unfold alloc_init. wp_steps.
    apply wp_in_env. eapply wp_of_run; [exact Hk|]. wp_steps.
    apply wp_setp; [cbn; rewrite list_lookup_alter_eq, Hx; by eexists|]. cbn [Z.eqb]. wp_steps.
    apply wp_setp; [cbn; rewrite !list_lookup_alter_eq, Hx; by eexists|]. wp_steps.
    cbn. by rewrite !alter_alter_procs. }
  apply wp_run in Hw as (a & s' & Hf & -> & Hw). by exists s'.
Qed.

Lemma table_thread ps tab n i t :
  table_ok ps tab n -> (i < NPROC)%nat -> (t < NTHREAD)%nat -> is_Some (thread_at tab i t).
Proof.
  intros [_ [H1 H2] _ _] Hi Ht. unfold thread_at.
  destruct (lookup_lt_is_Some_2 tab i) as [row Hr]; [lia|]. rewrite Hr. simpl.
  apply lookup_lt_is_Some. rewrite list.Forall_lookup in H2. by rewrite (H2 i row Hr).
Qed.

(** fork, given what the calls of the other components return. *)
Lemma fork_made s np x c p t th f0 k e1 pg e2 e3 e4 :
  sys_ok s -> 0 < nextpid s < 2 ^ 31 - 1 -> LkPtable ∉ held (pctx s) ->
  find_unused (procs s) 0 = Some np -> procs s !! np = Some x -> Forall (eq 0) (p_ofile x) ->
  cur s = Some c -> procs s !! c = Some p -> live (p_state p) ->
  curt s = Some (c, t) -> thread_at (ttable s) c t = Some th -> tfs s !! t_tf th = Some f0 ->
  e_kalloc (env s) = Ret k e1 -> k <> 0 -> e_copyuvm (p_pgdir p) (p_sz p) e1 = Ret pg e2 -> pg <> 0 ->
  dups (p_ofile p) e2 e3 -> e_idup (p_cwd p) e3 = Ret (p_cwd p) e4 ->
  exists s' x' th',
    fork trapret forkret_addr s = Ret (nextpid s) s' /\ procs s' !! np = Some x' /\
    (p_state x' = RUNNABLE /\ p_pid x' = nextpid s /\ p_parent x' = Some c /\ p_threads x' = Some np) /\
    (p_sz x' = p_sz p /\ p_pgdir x' = pg /\ p_cwd x' = p_cwd p /\ p_ofile x' = p_ofile p /\
     Str.cstr 16 (p_name x') = Str.cstr 15 (p_name p)) /\
    (thread_at (ttable s') np 0 = Some th' /\ t_state th' = RUNNABLE) /\
    tfs s' = <[t_tf th' := tf_set_eax 0 f0]> (tfs s) /\
    (forall j, j <> np -> procs s' !! j = procs s !! j) /\
    (forall j u, j <> np -> thread_at (ttable s') j u = thread_at (ttable s) j u) /\ env s' = e4.
Proof.
  intros Hs Hn Hl Hu Hx Hclr Hc Hp Hlive Hct Hth Hf Hk Hk0 Hcp Hpg Hd Hi.
  pose proof (find_unused_spec _ _ _ Hu) as (x0 & _ & Hx0 & Hxu). rewrite Nat.sub_0_r in Hx0. simplify_eq.
  assert (c <> np) as Hne by (intros ->; simplify_eq; destruct Hlive; congruence).
  pose proof (to_proc _ _ _ Hs np x Hx) as Px. pose proof (to_proc _ _ _ Hs c p Hp) as Pp.
  assert (np < NPROC)%nat as Hnp by (rewrite <- (to_len _ _ _ Hs); by eapply lookup_lt_Some).
  destruct (table_thread _ _ _ np 0 Hs Hnp) as [th0 Hth0]; [unfold NTHREAD; lia|].
  pose proof Hs as [_ [Hl1 Hl2] _ _].
  destruct (lookup_lt_is_Some_2 (ttable s) np) as [row Hrow]; [lia|].
  rewrite list.Forall_lookup in Hl2. pose proof (Hl2 np row Hrow) as Hlen.
  set (x1 := pw_pid (nextpid s) (pw_threads (Some np) (pw_state EMBRYO x))).
  assert (procs (claimed np s) !! np = Some x1) as Hx1 by (simpl; by rewrite list_lookup_alter_eq, Hx).
  assert (dup_files NOFILE (p_ofile p) (p_ofile x) = p_ofile p) as Hdf.
  { apply dup_files_clear; [|by rewrite (po_files _ _ _ Pp)|done]. by rewrite (po_files _ _ _ Pp), (po_files _ _ _ Px). }
  match goal with |- exists s' x' th', _ = Ret ?v s' /\ @?P s' x' th' =>
    assert (wp (fork trapret forkret_addr) (fun a s' => a = v /\ exists x' th', P s' x' th') s) as Hw end.
  2:{ apply wp_run in Hw as (a & s' & Hf' & -> & y' & th' & Hw). exists s', y', th'. split; [exact Hf'|exact Hw]. }
  unfold fork, allocproc. wp_steps. apply wp_alloc_slot; [done|]. rewrite Hu.
  eapply wp_alloc_init; [exact Hx1|done|exact Hrow|exact Hlen|exact Hk|exact Hk0|].
  intros s1 He [I1 I2 I3 I4 I5 (I6 & I7 & I8 & I9)].
  eapply (wp_fork_child np (pw_kstack k x1) c p c t th f0 (first_thread k th0) pg e2 e3 e4).
  - by rewrite I1, list_lookup_alter_eq, Hx1.
  - done.
  - apply (po_name _ _ _ Px).
  - intros u Hu'. destruct (table_thread _ _ _ np u Hs Hnp Hu') as [y Hy]. destruct u as [|u].
    + rewrite I2. cbn [ttable claimed]. rewrite Hth0. by eexists.
    + rewrite I3 by lia. cbn [ttable claimed]. rewrite Hy. by eexists.
  - rewrite I2. cbn [ttable claimed]. by rewrite Hth0.
  - by rewrite I6.
  - rewrite I1, list_lookup_alter_ne by done. simpl. by rewrite list_lookup_alter_ne.
  - done.
  - apply (po_files _ _ _ Pp).
  - apply (po_name _ _ _ Pp).
  - by rewrite I7.
  - done.
  - by rewrite I4.
  - by rewrite I5.
  - by rewrite He.
  - done.
  - done.
  - done.
  - by rewrite I8.
  - intros nm s' Hnm P1 P2 P3 P4 P5 P6. split; [done|]. eexists _, _.
    split; [rewrite P1, list_lookup_alter_eq, I1, list_lookup_alter_eq, Hx1; done|].
    split; [done|]. split; [split_and!; done|]. split; [split; [exact P2|done]|].
    split; [rewrite P4, I5; done|]. split; [|split; [|exact P6]].
    + intros j Hj. rewrite P1, I1, !list_lookup_alter_ne by done. simpl. by rewrite list_lookup_alter_ne.
    + intros j u Hj. rewrite P3, I4 by done. done.
Qed.
End Fork.

(** ** Boot, and a small environment *)

Section Boot.
Context {E : Type}.
Abbreviation PS := (psys E).

Definition zero_proc : proc :=
  mkproc 0 0 0 UNUSED 0 None 0 (repeat 0 NOFILE) 0 (repeat 0 16) None.
Definition zero_thread : kthread := mkth 0 UNUSED 0 None 0 0 None false 0.

(** ptable after loading the kernel. *)
Definition boot (e : E) : PS :=
  mkpsys (repeat zero_proc NPROC) (repeat (repeat zero_thread NTHREAD) NPROC) None 1 1 ∅ ∅ ∅
    None None true e (mkctx [] [] false).

(** Another processor's turn: its [proc] and [thread], the locks it holds, and what the
    other components have done. *)
Definition turn (c : option nat) (t : option (nat * nat)) (k : kctx) (e : E) (s : PS) : PS :=
  mkpsys (procs s) (ttable s) (initproc s) (nextpid s) (nexttid s) (tfs s) (contexts s) (words s)
    c t (first s) e k.

Lemma boot_inv (e : E) : Inv [] (boot e).
Proof.
  assert (forall i p, repeat zero_proc NPROC !! i = Some p -> p = zero_proc) as Hz.
  { intros i p Hp. apply list_elem_of_lookup_2, list_elem_of_In, repeat_spec in Hp. done. }
  split; [|intros i Hi; inversion Hi]. split; [|split; [simpl; lia|done]]. constructor.
  - done.
  - split; [done|]. apply list.Forall_forall. intros row Hr.
    apply list_elem_of_In, repeat_spec in Hr as ->. done.
  - intros i p Hp. apply Hz in Hp as ->. simpl. constructor; simpl; try done; [by left|by intros []|by intros []].
  - intros i j p q Hp _ _ Hn. apply Hz in Hp as ->. done.
Qed.

Lemma turn_inv K c t k (e : E) (s : PS) : Inv K s -> Inv K (turn c t k e s).
Proof. done. Qed.
End Boot.

(** Pages are handed out in order; the other calls do nothing. *)
Module Demo.
#[global] Instance demo_env : ProcEnv Z := {|
  e_kalloc e := Ret (2151677952 + 4096 * e) (e + 1);
  e_kfree _ := ret tt;
  e_setupkvm := ret 4096;
  e_inituvm _ := ret tt;
  e_copyuvm pg _ := ret (pg + 1);
  e_allocuvm _ _ n := ret n;
  e_deallocuvm _ _ n := ret n;
  e_freevm _ := ret tt;
  e_filedup f := ret f;
  e_fileclose _ := ret tt;
  e_idup ip := ret ip;
  e_iput _ := ret tt;
  e_namei_root := ret 7;
  e_begin_op := ret tt;
  e_end_op := ret tt;
  e_initlog := ret tt |}.

(** The first process runs on its first thread. *)
Definition init : psys Z :=
  match userinit 1 2 (boot 0) with
  | Ret _ s => turn (Some 0%nat) (Some (0%nat, 0%nat)) (mkctx [] [] false) (env s) s
  | _ => boot 0
  end.

Lemma init_inv : Inv [] init.
Proof.
  pose proof (userinit_inv 1 2 (boot 0) (boot_inv 0) ltac:(simpl; lia)) as Hi.
  unfold init. destruct (userinit 1 2 (boot 0)); [apply turn_inv, Hi|apply boot_inv..].
Qed.

(** It has forked; the child is slot 1. *)
Definition forked : psys Z := match fork 1 2 init with Ret _ s => s | _ => init end.

Lemma forked_inv : Inv [] forked.
Proof.
  pose proof (fork_inv 1 2 init init_inv ltac:(vm_compute; done)) as Hi.
  unfold forked. destruct (fork 1 2 init); [exact Hi|exact init_inv..].
Qed.

(** The child has exited. *)
Definition exited : psys Z :=
  match Proc.exit (turn (Some 1%nat) (Some (1%nat, 0%nat)) (mkctx [] [] false) (env forked) forked) with
  | Ret _ s => turn (Some 0%nat) (Some (0%nat, 0%nat)) (mkctx [] [] false) (env s) s
  | _ => init
  end.

Lemma exited_inv : Inv [] exited.
Proof.
  unfold exited. set (s1 := turn _ _ _ _ forked). assert (Inv [] s1) as H1 by (apply turn_inv, forked_inv).
  pose proof (keeps_exit s1 H1) as Hi. clearbody s1.
  destruct (Proc.exit s1); [apply turn_inv, Hi|exact init_inv..].
Qed.
End Demo.

Section Props.
Context {E : Type} `{ProcEnv E}.
Implicit Types s : psys E.

(** Kill of an identifier no process has returns -1 and changes nothing; kill of a
    live process returns 0 with the process marked and each of its sleeping threads
    RUNNABLE, and changes nothing else. *)
Theorem kill_spec s pid :
  sys_ok s -> LkPtable ∉ held (pctx s) ->
  (Forall (fun p => p_pid p <> pid) (procs s) -> kill pid s = Ret (-1) s) /\
  (forall i p, procs s !! i = Some p -> live (p_state p) -> p_pid p = pid ->
     kill pid s = Ret 0 (with_ttable (alter (fmap rouse) i (ttable s))
                          (with_procs (alter (pw_killed 1) i (procs s)) s))).
Proof.
  intros Hs Hl. split.
  - intros Hn. assert (wp (kill pid) (fun a s' => a = -1 /\ s' = s) s) as Hw.
    { unfold kill. wp_steps. apply wp_acquire; [done|]. wp_steps. pcbn.
      destruct (find_pid (procs s) pid 0) as [i|] eqn:Ef.
      - apply find_pid_Some in Ef as (p & _ & Hp & Hpid). rewrite list.Forall_lookup in Hn.
        by destruct (Hn _ _ Hp).
      - wp_steps. eapply wp_release; [done|]. wp_steps. split; [done|].
        by destruct s as [? ? ? ? ? ? ? ? ? ? ? ? []]. }
    apply wp_run in Hw as (a & s' & -> & -> & ->). done.
  - intros i p Hp Hlive <-. destruct (to_proc _ _ _ Hs i p Hp) as [_ P1 _ P2 _ _ _].
    specialize (P1 Hlive). specialize (P2 Hlive). destruct (to_rows _ _ _ Hs) as [R1 R2].
    destruct (lookup_lt_is_Some_2 (ttable s) i) as [row Hr].
    { rewrite R1, <- (to_len _ _ _ Hs). by eapply lookup_lt_Some. }
    rewrite list.Forall_lookup in R2.
    assert (wp (kill (p_pid p)) (fun a s' => a = 0 /\ s' = with_ttable (alter (fmap rouse) i (ttable s))
                          (with_procs (alter (pw_killed 1) i (procs s)) s)) s) as Hw.
    { eapply wp_kill_row; [done| |exact Hp|done|exact Hr|by apply (R2 i)|done].
      eapply find_pid_unique; [exact Hs|done|lia]. }
    apply wp_run in Hw as (a & s' & -> & -> & ->). done.
Qed.

(** C35: wait returns the identifier of the first zombie child with its slot UNUSED again
    and its stack and page directory freed, when kfree and freevm of them return; without children, or when killed, it returns -1
    and changes nothing; otherwise its thread sleeps on its own process, marked
    SLEEPING under the lock of the table, so that the child's exit finds it. *)
Theorem wait_spec s c p :
  sys_ok s -> cur s = Some c -> procs s !! c = Some p -> held (pctx s) = [] ->
  match List.find (zombie_child (procs s) c) (seq 0 NPROC) with
  | Some i => forall q e1 e2, procs s !! i = Some q -> e_kfree (p_kstack q) (env s) = Ret tt e1 ->
      e_freevm (p_pgdir q) e1 = Ret tt e2 ->
      wait s = Ret (p_pid q) (with_env e2 (with_procs (alter reap i (procs s)) s))
  | None =>
      if existsb (child_of (procs s) c) (seq 0 NPROC) && (p_killed p =? 0)
      then forall r t th, curt s = Some (r, t) -> thread_at (ttable s) r t = Some th ->
        wait s = Sleep (ChProc (Z.of_nat c)) (with_pctx (mkctx [LkPtable] (woken (pctx s)) (killed (pctx s)))
          (with_ttable (alter (alter (asleep_on (ChProc (Z.of_nat c))) t) r (ttable s)) s))
      else wait s = Ret (-1) s
  end.
Proof.
  intros Hs Hc Hp Hl.
  assert (LkPtable ∉ held (pctx s)) as Hl' by (rewrite Hl; apply not_elem_of_nil).
  pose proof (wait_returns s c p Hs Hc Hp Hl') as Hw.
  destruct (List.find _ _) as [i|] eqn:Ef; [exact Hw|].
  destruct (existsb _ _) eqn:Ek; cbn [andb]; [|apply Hw; by left].
  destruct (p_killed p =? 0) eqn:E0; zbool; [|apply Hw; by right].
  intros r t th Hct Hth. by apply (wait_sleeps s c p r t th).
Qed.

(** A process that has exited keeps its identifier until it is waited for, and its
    [threads] is null: kill of that identifier dereferences the null pointer. *)
Theorem kill_of_exited_faults s i p :
  sys_ok s -> LkPtable ∉ held (pctx s) -> procs s !! i = Some p ->
  p_pid p <> 0 -> p_threads p = None -> kill (p_pid p) s = Fault.
Proof.
  intros Hs Hl Hp Hn Ht. eapply kill_null; [done| |exact Hp|exact Ht].
  by eapply find_pid_unique.
Qed.
End Props.

Lemma kill_spec_witness :
  (Forall (fun p => p_pid p <> 9) (procs Demo.init) -> kill 9 Demo.init = Ret (-1) Demo.init) /\
  kill 1 Demo.init = Ret 0 (with_ttable (alter (fmap rouse) 0%nat (ttable Demo.init))
    (with_procs (alter (pw_killed 1) 0%nat (procs Demo.init)) Demo.init)).
Proof.
  split.
  - apply (kill_spec Demo.init 9); [exact (proj1 (proj1 Demo.init_inv))|apply not_elem_of_nil].
  - eapply (kill_spec Demo.init 1); [exact (proj1 (proj1 Demo.init_inv))|apply not_elem_of_nil|..].
    + vm_compute; reflexivity.
    + split; discriminate.
    + reflexivity.
Defined.

(** The first process reaps its child, which exited. *)
Lemma wait_spec_witness :
  exists q, procs Demo.exited !! 1%nat = Some q /\ p_pid q = 2 /\
    wait Demo.exited = Ret (p_pid q) (with_env (env Demo.exited)
      (with_procs (alter reap 1%nat (procs Demo.exited)) Demo.exited)).
Proof.
  assert (List.find (zombie_child (procs Demo.exited) 0) (seq 0 NPROC) = Some 1%nat) as Hf
    by (vm_compute; reflexivity).
  assert (cur Demo.exited = Some 0%nat) as Hc by (vm_compute; reflexivity).
  assert (held (pctx Demo.exited) = []) as Hl by (vm_compute; reflexivity).
  assert (exists q, procs Demo.exited !! 1%nat = Some q /\ p_pid q = 2) as (q & Hq & Hpid)
    by (eexists; split; vm_compute; reflexivity).
  assert (is_Some (procs Demo.exited !! 0%nat)) as [p Hp] by (eexists; vm_compute; reflexivity).
  pose proof (proj1 (proj1 Demo.exited_inv)) as Hs.
  pose proof (wait_spec Demo.exited 0 p Hs Hc Hp Hl) as Hw. rewrite Hf in Hw.
  exists q. split; [exact Hq|]. split; [exact Hpid|]. exact (Hw q _ _ Hq eq_refl eq_refl).
Defined.

Lemma kill_of_exited_faults_witness : kill 2 Demo.exited = Fault.
Proof.
  assert (exists q, procs Demo.exited !! 1%nat = Some q /\ p_pid q = 2 /\ p_threads q = None)
    as (q & Hq & Hpid & Ht) by (eexists; split; [|split]; vm_compute; reflexivity).
  assert (held (pctx Demo.exited) = []) as Hl by (vm_compute; reflexivity).
  pose proof (proj1 (proj1 Demo.exited_inv)) as Hs. rewrite <- Hpid.
  apply (kill_of_exited_faults Demo.exited 1 q Hs); [rewrite Hl; apply not_elem_of_nil|exact Hq|lia|exact Ht].
Defined.
