(* ===== verification/Kthread.v ===== *)
(** * kthread.c: the kernel threads of a process

    The routines work on the row of the thread table that the current process's
    [threads] points to; they are defined on the state of [Proc]. *)

From stdpp Require Import base list numbers strings gmap sets.
From S2P Require Import Prelude Spinlock Kalloc Proc.
Import Ctx.

Open Scope Z_scope.
Local Open Scope kernel_scope.

Section Kthread.
Context {E : Type} `{ProcEnv E}.
Variables trapret forkret_addr : Z.
Abbreviation PS := (psys E).

Definition wakeupThreads (c : chan) : M PS unit :=
  i <- curproc ;;
  r <- row_of i ;;
  forM (seq 0 NTHREAD) (fun t => wake_one (Some c) r t).

(** The first thread of the row that is UNUSED. *)
Fixpoint find_unused_thread (row : list kthread) (t : nat) : option nat :=
  match row with
  | [] => None
  | th :: row => if bool_decide (t_state th = UNUSED) then Some t else find_unused_thread row (1 + t)
  end.

(** kthread_create under the lock: the process, the row and the thread it takes. *)
Definition create_slot : M PS (option (nat * nat * nat)) :=
  acquire_via_thread ;;
  i <- curproc ;;
  r <- row_of i ;;
  l <- gets ttable ;;
  row <- lift_opt (l !! r) ;;
  match find_unused_thread (take NTHREAD row) 0 with
  | None => release_via_thread ;; ret None
  | Some t =>
      sett r t (tw_state EMBRYO) ;;
      n <- gets nexttid ;;
      sett r t (tw_tid n) ;;
      set_nexttid (i32 (n + 1)) ;;
      release_via_thread ;;
      ret (Some (i, r, t))
  end.

(** And after it.  The addresses are computed in uints. *)
Definition create_init (start_func stack stack_size : Z) (i r t : nat) : M PS Z :=
  th <- gett r t ;;
  let sp := u32 (t_kstack th + stack_size - sizeof_trapframe) in
  sett r t (tw_tf sp) ;;
  let sp := u32 (sp - 4) in
  put_word sp trapret ;;
  let sp := u32 (sp - sizeof_context) in
  sett r t (tw_context sp) ;;
  put_context sp (mkcontext 0 0 0 0 0) ;;
  put_context sp (mkcontext 0 0 0 0 forkret_addr) ;;
  ct <- curthread ;;
  me <- gett (fst ct) (snd ct) ;;
  f <- get_tf (t_tf me) ;;
  th <- gett r t ;;
  put_tf (t_tf th) f ;;
  put_tf (t_tf th) (tf_start start_func (u32 (stack + stack_size)) FL_IF f) ;;
  sett r t (tw_parent (Some i)) ;;
  sett r t (tw_state RUNNABLE) ;;
  ret (t_tid th).

Definition kthread_create (start_func stack stack_size : Z) : M PS Z :=
  o <- create_slot ;;
  match o with
  | None => ret (-1)
  | Some (i, r, t) => create_init start_func stack stack_size i r t
  end.

Definition kthread_id : M PS Z :=
  ct <- curthread ;; th <- gett (fst ct) (snd ct) ;; ret (t_tid th).

(** kthread_exit under the lock, up to the switch; true when it was the last thread. *)
Definition kthread_leave : M PS bool :=
  acquire_via_thread ;;
  ct <- curthread ;;
  sett (fst ct) (snd ct) (tw_state ZOMBIE) ;;
  i <- curproc ;;
  r <- row_of i ;;
  k <- count_live r ;;
  if Nat.eqb k 0 then
    setp i (pw_state ZOMBIE) ;;
    release_via_thread ;;
    ret true
  else
    sett (fst ct) (snd ct) (tw_state ZOMBIE) ;;
    sett (fst ct) (snd ct) (tw_kernelStack 0) ;;
    sett (fst ct) (snd ct) (tw_parent None) ;;
    sett (fst ct) (snd ct) (tw_lock false) ;;
    sett (fst ct) (snd ct) (tw_tf 0) ;;
    sett (fst ct) (snd ct) (tw_tid 0) ;;
    wakeupThreads (ChThread (Z.of_nat (fst ct)) (Z.of_nat (snd ct))) ;;
    sched ;;
    ret false.

(** When it was the last thread the process exits. *)
Definition kthread_exit : M PS unit :=
  last <- kthread_leave ;; when last do exit.

(** One pass of kthread_join over the row: the thread it reaps, or the last thread with
    the identifier. *)
Fixpoint join_scan (ts : list nat) (r : nat) (id : Z) (found : option nat) :
    M PS (Z + option nat) :=
  match ts with
  | [] => ret (inr found)
  | t :: ts =>
      th <- gett r t ;;
      if negb (t_tid th =? id) then join_scan ts r id found else
      if bool_decide (t_state th = ZOMBIE) then
        sett r t (tw_tid (-1)) ;;
        sett r t (tw_parent None) ;;
        ret (inl (t_tid th))
      else join_scan ts r id (Some t)
  end.

Definition join_loop (id : Z) : M PS Z :=
  i <- curproc ;;
  r <- row_of i ;;
  x <- join_scan (seq 0 NTHREAD) r id None ;;
  match x with
  | inl tid => release_via_thread ;; ret tid
  | inr found =>
      p <- getp i ;;
      match found with
      | Some t =>
          if negb (p_killed p =? 0) then release_via_thread ;; ret (-1) else
          sleep_enter (ChThread (Z.of_nat r) (Z.of_nat t)) LkPtable ;;
          sleep_on (ChThread (Z.of_nat r) (Z.of_nat t))
      | None => release_via_thread ;; ret (-1)
      end
  end.

Definition kthread_join (id : Z) : M PS Z := acquire_via_thread ;; join_loop id.
Definition join_resume (id : Z) : M PS Z := sleep_leave LkPtable ;; join_loop id.
End Kthread.

#[export] Hint Resolve keeps_row_of keeps_curproc keeps_curthread keeps_get_tf keeps_switchuvm
  keeps_acquire_via keeps_release_via keeps_sched keeps_sleep_enter keeps_sleep_leave keeps_wake_one
  keeps_wakeup1 keeps_count_live keeps_alloc_init : keeps.

(** ** The process table under every interleaving of the routines *)

Section Pres.
Context {E : Type} `{ProcEnv E}.
Variables trapret forkret_addr : Z.
Abbreviation PS := (psys E).

Lemma keeps_wakeupThreads K c : keeps (Inv K) (wakeupThreads c : M PS unit).
Proof. unfold wakeupThreads. keeps_auto. Qed.
#[local] Hint Resolve keeps_wakeupThreads : keeps.
Lemma keeps_create_slot K : keeps (Inv K) (create_slot : M PS _).
Proof. unfold create_slot. keeps_auto. Qed.
Lemma keeps_create_init K f st sz i r t :
  keeps (Inv K) (create_init trapret forkret_addr f st sz i r t : M PS Z).
Proof. unfold create_init. keeps_auto. Qed.
Lemma keeps_kthread_leave : keeps (Inv []) (kthread_leave : M PS bool).
Proof. unfold kthread_leave. keeps_auto. Qed.
Lemma keeps_join_scan K ts r id fd : keeps (Inv K) (join_scan ts r id fd : M PS _).
Proof. revert fd. induction ts; intros fd; simpl; keeps_auto. all: apply IHts. Qed.
#[local] Hint Resolve keeps_join_scan : keeps.
Lemma keeps_join_loop K id : keeps (Inv K) (join_loop id : M PS Z).
Proof. unfold join_loop. keeps_auto. Qed.
#[local] Hint Resolve keeps_join_loop : keeps.
Lemma keeps_kthread_join K id : keeps (Inv K) (kthread_join id : M PS Z).
Proof. unfold kthread_join. keeps_auto. Qed.
Lemma keeps_join_resume K id : keeps (Inv K) (join_resume id : M PS Z).
Proof. unfold join_resume. keeps_auto. Qed.
End Pres.

(** The routines of proc.c and kthread.c, cut where they give up the processor and where
    they take or release the lock of the process table, so that between two pieces of a
    routine the other processors run theirs; fork is also cut once it has stored the parent.
    userinit runs before the other processors start.  [RPick] is the scheduler's body for
    one thread; what the thread then does are the steps that follow. *)
Inductive routine :=
| RUserinit | RAllocSlot | RAllocInit (i : nat) | RForkCopy (i : nat) | RForkSetup (i : nat) | RForkReady (i : nat)
| RGrowMem (n : Z) | RGrowSet (sz : Z) | RExitClose | RExitTable
| RWait | RWaitResume | RSleep (c : chan) (lk : lock) | RSleepLeave (lk : lock)
| RYield | RYieldLeave | RForkret | RWakeup (c : chan) | RKill (pid : Z)
| RCreateSlot | RCreateInit (f st sz : Z) (i r t : nat) | RThreadLeave | RJoin (id : Z) | RJoinResume (id : Z)
| RPick (i t : nat).

Module System.
Section System.
Context {E : Type} `{ProcEnv E}.
Variables trapret forkret_addr : Z.
Abbreviation PS := (psys E).

Definition discard {A} (m : M PS A) : M PS unit := m ;; ret tt.

Definition run_routine (r : routine) : M PS unit :=
  match r with
  | RUserinit => userinit trapret forkret_addr
  | RAllocSlot => discard alloc_slot
  | RAllocInit i => discard (alloc_init trapret forkret_addr i)
  | RForkCopy i => discard (fork_copy i)
  | RForkSetup i => discard (fork_setup i)
  | RForkReady i => fork_ready i
  | RGrowMem n => discard (growproc_mem n)
  | RGrowSet sz => growproc_set sz
  | RExitClose => exit_close
  | RExitTable => exit_table
  | RWait => discard wait
  | RWaitResume => discard wait_resume
  | RSleep c lk => sleep_enter c lk
  | RSleepLeave lk => sleep_leave lk
  | RYield => yield_enter
  | RYieldLeave => yield_leave
  | RForkret => forkret
  | RWakeup c => Proc.wakeup c
  | RKill pid => discard (kill pid)
  | RCreateSlot => discard create_slot
  | RCreateInit f st sz i r t => discard (create_init trapret forkret_addr f st sz i r t)
  | RThreadLeave => discard kthread_leave
  | RJoin id => discard (kthread_join id)
  | RJoinResume id => discard (join_resume id)
  | RPick i t => sched_one (ret tt) i t
  end.

(** Two conditions the code does not enforce.  While a slot is being initialised it stays
    EMBRYO: another thread of the parent that calls exit after fork has stored the parent
    finds the child without live threads, makes it a zombie, and init can reap it before
    fork goes on.  Process identifiers have not wrapped around. *)
Definition enabled (r : routine) (s : PS) : Prop :=
  match r with
  | RAllocInit i | RForkCopy i | RForkSetup i | RForkReady i =>
      exists p, procs s !! i = Some p /\ p_state p = EMBRYO
  | RUserinit | RAllocSlot => nextpid s < 2 ^ 31 - 1
  | _ => True
  end.

Inductive sys_step (s : PS) : PS -> Prop :=
| step_turn c t k e : sys_step s (turn c t k e s)
| step_ret r s' : enabled r s -> run_routine r s = Ret tt s' -> sys_step s s'
| step_sleep r c s' : enabled r s -> run_routine r s = Sleep c s' -> sys_step s s'.

Inductive reachable (e : E) : PS -> Prop :=
| reach_boot : reachable e (boot e)
| reach_step s s' : reachable e s -> sys_step s s' -> reachable e s'.

Lemma Inv_embryo i p (s : PS) :
  Inv [] s -> procs s !! i = Some p -> p_state p = EMBRYO -> Inv [i] s.
Proof.
  intros [Hs _] Hp Hst. split; [done|]. intros j Hj. apply list_elem_of_singleton in Hj as ->.
  destruct Hs as [Hs _]. destruct (to_proc _ _ _ Hs i p Hp) as [_ Hl _ Hu _ _ _].
  assert (live (p_state p)) by (rewrite Hst; done). exists p. auto.
Qed.

Lemma discard_inv {A} (m : M PS A) (s : PS) :
  match m s with Ret _ s' => Inv [] s' | Sleep _ s' => Inv [] s' | _ => True end ->
  match discard m s with Ret _ s' => Inv [] s' | Sleep _ s' => Inv [] s' | _ => True end.
Proof. unfold discard, bind. by destruct (m s). Qed.

Lemma weaken_inv {A} K (m : M PS A) (s : PS) :
  match m s with Ret _ s' => Inv K s' | Sleep _ s' => Inv K s' | _ => True end ->
  match m s with Ret _ s' => Inv [] s' | Sleep _ s' => Inv [] s' | _ => True end.
Proof. destruct (m s); try done; apply Inv_weaken. Qed.

Lemma run_routine_inv r (s : PS) :
  Inv [] s -> enabled r s ->
  match run_routine r s with Ret _ s' => Inv [] s' | Sleep _ s' => Inv [] s' | _ => True end.
Proof.
  intros Hs He. destruct r; cbn [run_routine enabled] in *; try apply discard_inv.
  - by apply userinit_inv.
  - pose proof (alloc_slot_inv s Hs He) as Ha. destruct (alloc_slot s); try done; by eapply Inv_weaken.
  - destruct He as (p & Hp & Hst). apply (weaken_inv [i]), keeps_alloc_init. by eapply Inv_embryo.
  - destruct He as (p & Hp & Hst). apply (weaken_inv [i]), keeps_fork_copy. by eapply Inv_embryo.
  - destruct He as (p & Hp & Hst). apply (weaken_inv [i]), keeps_fork_setup. by eapply Inv_embryo.
  - destruct He as (p & Hp & Hst). apply (weaken_inv [i]), keeps_fork_ready. by eapply Inv_embryo.
  - by apply keeps_growproc_mem.
  - by apply keeps_growproc_set.
  - by apply keeps_exit_close.
  - by apply keeps_exit_table.
  - by apply keeps_wait.
  - by apply keeps_wait_resume.
  - by apply keeps_sleep_enter.
  - by apply keeps_sleep_leave.
  - by apply keeps_yield_enter.
  - by apply keeps_yield_leave.
  - by apply keeps_forkret.
  - by apply keeps_wakeup.
  - by apply keeps_kill.
  - by apply keeps_create_slot.
  - by apply keeps_create_init.
  - by apply keeps_kthread_leave.
  - by apply keeps_kthread_join.
  - by apply keeps_join_resume.
  - apply keeps_sched_one; [apply keeps_ret|done].
Qed.

Lemma table_step_inv (s s' : PS) : Inv [] s -> sys_step s s' -> Inv [] s'.
Proof.
  intros Hs [c t k e|r s'' He Hr|r c s'' He Hr].
  - done.
  - pose proof (run_routine_inv r s Hs He) as Hi. by rewrite Hr in Hi.
  - pose proof (run_routine_inv r s Hs He) as Hi. by rewrite Hr in Hi.
Qed.

Lemma table_reachable e (s : PS) : reachable e s -> Inv [] s.
Proof. induction 1; [apply boot_inv|by eapply table_step_inv]. Qed.

(** C6: In every state the kernel reaches, whatever the order in which the processors run
    the routines of proc.c and kthread.c, cut at their lock operations, provided that no
    slot leaves EMBRYO while allocproc and fork are filling it and that identifiers have
    not wrapped around: a process that is neither UNUSED nor ZOMBIE has its own row of
    threads and a positive identifier, no two processes have the same identifier, and
    wakeup1 returns having made RUNNABLE exactly the threads that sleep on the channel in
    ready processes (no null [threads] is dereferenced). *)
Theorem process_table_safe e (s : PS) :
  reachable e s ->
  (forall i p, procs s !! i = Some p -> live (p_state p) -> p_threads p = Some i /\ 0 < p_pid p) /\
  (forall i j p q, procs s !! i = Some p -> procs s !! j = Some q ->
     live (p_state p) -> p_pid p = p_pid q -> i = j) /\
  (forall c, wakeup1 c s = Ret tt (with_ttable (wake_rows (procs s) c (ttable s)) s)).
Proof.
  intros Hr. apply table_reachable in Hr as [(Hs & _) _]. pose proof Hs as [T1 T2 T3 T4].
  split; [|split].
  - intros i p Hp Hl. destruct (T3 i p Hp). auto.
  - intros i j p q Hp Hq Hl Eq. apply (T4 i j p q Hp Hq Eq).
    pose proof (po_used _ _ _ (T3 i p Hp) Hl). lia.
  - intros c. assert (wp (wakeup1 c) (fun a s' => a = tt /\ s' = with_ttable (wake_rows (procs s) c (ttable s)) s) s) as Hw
      by (by apply wp_wakeup1).
    apply wp_run in Hw as ([] & s' & Hw & _ & ->). done.
Qed.
End System.
End System.

(** ** Creating, ending and joining threads *)

Section Threads.
Context {E : Type} `{ProcEnv E}.
Variables trapret forkret_addr : Z.
Implicit Types s : psys E.

Lemma wp_acquire_via r t th s (Q : unit -> psys E -> Prop) :
  curt s = Some (r, t) -> thread_at (ttable s) r t = Some th -> t_lock th = true ->
  LkPtable ∉ held (pctx s) ->
  Q tt (with_pctx (mkctx (LkPtable :: held (pctx s)) (woken (pctx s)) (killed (pctx s))) s) ->
  wp acquire_via_thread Q s.
Proof.
  intros Hc Ht Hl Hh HQ. unfold acquire_via_thread, curthread. wp_steps.
  eapply wp_lift_opt; [exact Hc|]. wp_steps. eapply wp_gett; [exact Ht|]. rewrite Hl. by apply wp_acquire.
Qed.

Lemma wp_release_via r t th h s (Q : unit -> psys E -> Prop) :
  curt s = Some (r, t) -> thread_at (ttable s) r t = Some th -> t_lock th = true ->
  held (pctx s) = LkPtable :: h ->
  Q tt (with_pctx (mkctx h (woken (pctx s)) (killed (pctx s))) s) ->
  wp release_via_thread Q s.
Proof.
  intros Hc Ht Hl Hh HQ. unfold release_via_thread, curthread. wp_steps.
  eapply wp_lift_opt; [exact Hc|]. wp_steps. eapply wp_gett; [exact Ht|]. rewrite Hl. by eapply wp_release.
Qed.

Lemma find_unused_thread_Some row j t :
  find_unused_thread row j = Some t ->
  exists th, (j <= t)%nat /\ row !! (t - j)%nat = Some th /\ t_state th = UNUSED.
Proof.
  revert j. induction row as [|th row IH]; intros j; simpl; [done|]. case_bool_decide as Hu.
  - intros [= ->]. exists th. by rewrite Nat.sub_diag.
  - intros Hf. destruct (IH _ Hf) as (q & Hle & Hq & Hs). exists q. split; [lia|].
    replace (t - j)%nat with (Datatypes.S (t - Datatypes.S j)) by lia. done.
Qed.

(** The processor is in process [c], on thread [me] of its row, with no lock. *)
Record in_thread (c me : nat) (th : kthread) s : Prop := {
  it_cur : cur s = Some c;
  it_curt : curt s = Some (c, me);
  it_proc : exists p, procs s !! c = Some p /\ p_threads p = Some c;
  it_row : exists row, ttable s !! c = Some row /\ length row = NTHREAD;
  it_me : thread_at (ttable s) c me = Some th;
  it_lock : t_lock th = true;
  it_running : t_state th = RUNNING;
  it_held : held (pctx s) = [] }.

Lemma with_pctx_same s : with_pctx (pctx s) s = s.
Proof. by destruct s. Qed.

Lemma pctx_nil s h : held (pctx s) = h -> mkctx h (woken (pctx s)) (killed (pctx s)) = pctx s.
Proof. intros <-. by destruct (pctx s). Qed.

(** kthread_create up to the choice of the thread. *)
Lemma wp_create_scan {A} c me th row s (k : nat -> nat -> list kthread -> M (psys E) A) (Q : A -> psys E -> Prop) :
  in_thread c me th s -> ttable s !! c = Some row ->
  wp (k c c row) Q (with_pctx (mkctx [LkPtable] (woken (pctx s)) (killed (pctx s))) s) ->
  wp (acquire_via_thread ;; i <- curproc ;; r <- row_of i ;; l <- gets ttable ;;
      row <- lift_opt (l !! r) ;; k i r row) Q s.
Proof.
  intros [Hc Hct (p & Hp & Hpt) _ Hme Hlk Hrun Hh] Hrow HQ. wp_steps.
  eapply wp_acquire_via; [exact Hct|exact Hme|done|rewrite Hh; apply not_elem_of_nil|]. rewrite Hh.
  unfold curproc. wp_steps. eapply wp_lift_opt; [exact Hc|]. wp_steps.
  eapply wp_row_of; [exact Hp|exact Hpt|]. wp_steps. by eapply wp_lift_opt.
Qed.

Lemma create_full start stack size c me th row s :
  in_thread c me th s -> ttable s !! c = Some row -> length row = NTHREAD ->
  find_unused_thread row 0 = None ->
  wp (kthread_create trapret forkret_addr start stack size) (fun a s' => a = -1 /\ s' = s) s.
Proof.
  intros Hin Hrow Hlen Ef. unfold kthread_create, create_slot. apply wp_bind.
  eapply (wp_create_scan _ _ _ _ _ (fun i r row => _)); [exact Hin|exact Hrow|]. cbv beta. rewrite take_ge, Ef by lia. destruct Hin as [Hc Hct _ _ Hme Hlk _ Hh].
  wp_steps. eapply wp_release_via; [exact Hct|exact Hme|done|done|]. wp_steps. split; [done|].
  unfold with_pctx. rewrite with_with. cbn. rewrite (pctx_nil s [] Hh). by destruct s.
Qed.

Lemma create_some start stack size c me th f row t s :
  in_thread c me th s -> tfs s !! t_tf th = Some f -> ttable s !! c = Some row -> length row = NTHREAD ->
  find_unused_thread row 0 = Some t ->
  wp (kthread_create trapret forkret_addr start stack size) (fun a s' => a = nexttid s /\ exists th0 th',
      thread_at (ttable s) c t = Some th0 /\ thread_at (ttable s') c t = Some th' /\
      (t_state th' = RUNNABLE /\ t_tid th' = nexttid s /\ t_parent th' = Some c) /\
      t_tf th' = u32 (t_kstack th0 + size - sizeof_trapframe) /\
      tfs s' !! t_tf th' = Some (tf_start start (u32 (stack + size)) FL_IF f) /\
      nexttid s' = i32 (nexttid s + 1) /\ procs s' = procs s /\ pctx s' = pctx s /\
      forall j u, (j, u) <> (c, t) -> thread_at (ttable s') j u = thread_at (ttable s) j u) s.
Proof.
  intros Hin Hf Hrow Hlen Ef.
  pose proof (find_unused_thread_Some _ _ _ Ef) as (th0 & _ & Hth0 & Hst0). rewrite Nat.sub_0_r in Hth0.
  assert (thread_at (ttable s) c t = Some th0) as Hta by (unfold thread_at; rewrite Hrow; done).
  unfold kthread_create, create_slot. apply wp_bind.
  eapply (wp_create_scan _ _ _ _ _ (fun i r row => _)); [exact Hin|exact Hrow|]. cbv beta. rewrite take_ge, Ef by lia. destruct Hin as [Hc Hct _ _ Hme Hlk Hrun Hh].
  assert (me <> t) as Hne by (intros ->; congruence).
  assert (forall g, thread_at (alter (alter g t) c (ttable s)) c t = Some (g th0)) as Ht.
  { intros g. by rewrite thread_at_alter, decide_True, Hta. }
  assert (forall g, thread_at (alter (alter g t) c (ttable s)) c me = Some th) as Hm.
  { intros g. rewrite thread_at_alter, decide_False by naive_solver. done. }
  wp_steps. apply wp_sett; [by eexists|]. wp_steps. unfold with_pctx. pcbn.
  apply wp_sett; [pcbn; rewrite Ht; by eexists|]. unfold set_nexttid. wp_steps. pcbn.
  rewrite alter_alter_threads. eapply wp_release_via; [exact Hct|apply Hm|done|done|].
  unfold create_init. wp_steps. eapply wp_gett; [apply Ht|]. wp_steps. apply wp_sett; [pcbn; rewrite Ht; by eexists|].
  unfold put_word, put_context. wp_steps. unfold with_pctx. pcbn. rewrite alter_alter_threads.
  apply wp_sett; [pcbn; rewrite Ht; by eexists|]. wp_steps. pcbn. rewrite alter_alter_threads.
  unfold curthread, get_tf, put_tf. wp_steps. eapply wp_lift_opt; [exact Hct|]. wp_steps. cbn [fst snd].
  eapply wp_gett; [apply Hm|]. wp_steps. eapply wp_lift_opt; [exact Hf|]. wp_steps.
  eapply wp_gett; [apply Ht|]. wp_steps.
  do 2 (apply wp_sett; [pcbn; rewrite ?alter_alter_threads, Ht; by eexists|]; wp_steps).
  pcbn. rewrite !alter_alter_threads. split; [done|]. exists th0. eexists. split; [done|]. split; [apply Ht|].
  split; [done|]. split; [done|]. split; [apply lookup_insert_eq|]. split; [done|]. split; [done|].
  split; [exact (pctx_nil s [] Hh)|].
  intros j u Hju. rewrite thread_at_alter, decide_False by naive_solver. done.
Qed.

(** Kthread_create takes the first UNUSED thread of the process and returns its new
    identifier: the thread is RUNNABLE, belongs to the process, and starts with the
    caller's registers at the start function on the given stack; the process table, the
    lock and every other thread are as before.  Without an UNUSED thread it returns -1
    and changes nothing. *)
Theorem kthread_create_spec start stack size c me th f row s :
  in_thread c me th s -> tfs s !! t_tf th = Some f -> ttable s !! c = Some row ->
  match find_unused_thread (take NTHREAD row) 0 with
  | None => kthread_create trapret forkret_addr start stack size s = Ret (-1) s
  | Some t => exists s' th0 th',
      kthread_create trapret forkret_addr start stack size s = Ret (nexttid s) s' /\
      thread_at (ttable s) c t = Some th0 /\ thread_at (ttable s') c t = Some th' /\
      (t_state th' = RUNNABLE /\ t_tid th' = nexttid s /\ t_parent th' = Some c) /\
      t_tf th' = u32 (t_kstack th0 + size - sizeof_trapframe) /\
      tfs s' !! t_tf th' = Some (tf_start start (u32 (stack + size)) FL_IF f) /\
      nexttid s' = i32 (nexttid s + 1) /\ procs s' = procs s /\ pctx s' = pctx s /\
      forall j u, (j, u) <> (c, t) -> thread_at (ttable s') j u = thread_at (ttable s) j u
  end.
Proof.
  intros Hin Hf Hrow. destruct (it_row _ _ _ _ Hin) as (row' & Hr & Hlen).
  assert (row' = row) as -> by congruence. rewrite take_ge by lia.
  destruct (find_unused_thread row 0) as [t|] eqn:Ef.
  - pose proof (create_some start stack size _ _ _ _ _ _ _ Hin Hf Hrow Hlen Ef) as Hw.
    apply wp_run in Hw as (a & s' & Hw & -> & th0 & th' & Hpost). by exists s', th0, th'.
  - pose proof (create_full start stack size _ _ _ _ _ Hin Hrow Hlen Ef) as Hw.
    apply wp_run in Hw as (a & s' & -> & -> & ->). done.
Qed.

(** Does thread [t] of row [r] have identifier [id]; is it a zombie that has? *)
Definition has_id (tab : list (list kthread)) (r : nat) (id : Z) (t : nat) : bool :=
  match thread_at tab r t with Some th => t_tid th =? id | None => false end.
Definition zombie_id (tab : list (list kthread)) (r : nat) (id : Z) (t : nat) : bool :=
  match thread_at tab r t with
  | Some th => (t_tid th =? id) && bool_decide (t_state th = ZOMBIE)
  | None => false
  end.
Definition joined (th : kthread) : kthread := tw_parent None (tw_tid (-1) th).

Lemma find_app {A} (f : A -> bool) l1 l2 :
  List.find f (l1 ++ l2) = match List.find f l1 with Some x => Some x | None => List.find f l2 end.
Proof. induction l1 as [|x l1 IH]; simpl; [done|]. by destruct (f x). Qed.

Lemma wp_join_scan ts r id found s (Q : Z + option nat -> psys E -> Prop) :
  (forall t, t ∈ ts -> is_Some (thread_at (ttable s) r t)) ->
  match List.find (zombie_id (ttable s) r id) ts with
  | Some t => Q (inl id) (with_ttable (alter (alter joined t) r (ttable s)) s)
  | None => Q (inr (match List.find (has_id (ttable s) r id) (rev ts) with Some t => Some t | None => found end)) s
  end -> wp (join_scan ts r id found) Q s.
Proof.
  revert found. induction ts as [|t ts IH]; intros found Hts HQ; [exact HQ|].
  cbn [join_scan]. destruct (Hts t ltac:(left)) as [th Hth]. wp_steps. eapply wp_gett; [done|].
  assert (forall u, u ∈ ts -> is_Some (thread_at (ttable s) r u)) as Hts' by (intros u Hu; apply Hts; by right).
  cbn [List.find rev] in HQ. unfold zombie_id at 1 in HQ. rewrite Hth, find_app in HQ. cbn [List.find] in HQ.
  unfold has_id at 2 in HQ. rewrite Hth in HQ.
  destruct (t_tid th =? id) eqn:Eid; cbn [negb andb] in *.
  - destruct (bool_decide (t_state th = ZOMBIE)) eqn:Ez.
    + zbool. subst. wp_steps. apply wp_sett; [by eexists|]. wp_steps.
      apply wp_sett; [pcbn; rewrite thread_at_alter, decide_True, Hth by done; by eexists|]. wp_steps.
      pcbn. rewrite alter_alter_threads. exact HQ.
    + apply IH; [done|]. destruct (List.find _ ts); [exact HQ|]. by destruct (List.find _ (rev ts)).
  - apply IH; [done|]. destruct (List.find _ ts); [exact HQ|]. by destruct (List.find _ (rev ts)).
Qed.

(** kthread_join where it returns: it found the thread dead, or none with the
    identifier, or the process was killed. *)
Lemma wp_kthread_join id c me th p s (Q : Z -> psys E -> Prop) :
  in_thread c me th s -> procs s !! c = Some p ->
  match List.find (zombie_id (ttable s) c id) (seq 0 NTHREAD) with
  | Some t => Q id (with_ttable (alter (alter joined t) c (ttable s)) s)
  | None => (List.find (has_id (ttable s) c id) (rev (seq 0 NTHREAD)) = None \/ p_killed p <> 0) /\ Q (-1) s
  end -> wp (kthread_join id) Q s.
Proof.
  intros [Hc Hct (p' & Hp & Hpt) (row & Hr & Hlen) Hme Hlk Hrun Hh] Hp' HQ. simplify_eq.
  unfold kthread_join, join_loop, curproc. wp_steps.
  eapply wp_acquire_via; [exact Hct|exact Hme|done|rewrite Hh; apply not_elem_of_nil|]. rewrite Hh.
  wp_steps. eapply wp_lift_opt; [exact Hc|]. wp_steps. eapply wp_row_of; [exact Hp|exact Hpt|]. wp_steps.
  apply wp_join_scan.
  { intros t Ht. apply elem_of_seq in Ht. pcbn. unfold thread_at. rewrite Hr. apply lookup_lt_is_Some. lia. }
  pcbn. assert (forall tab, mkpsys (procs s) tab (initproc s) (nextpid s) (nexttid s) (tfs s) (contexts s) (words s) (cur s)
    (curt s) (first s) (env s) (mkctx [] (woken (pctx s)) (killed (pctx s))) = with_ttable tab s) as Hback.
  { intros tab. unfold with_ttable. by rewrite (pctx_nil s [] Hh). }
  destruct (List.find (zombie_id (ttable s) c id) _) as [t|] eqn:Ez.
  - assert (exists th', thread_at (alter (alter joined t) c (ttable s)) c me = Some th' /\ t_lock th' = true)
      as (th' & Hth' & Hlk').
    { rewrite thread_at_alter, Hme. case_decide; by eexists. }
    wp_steps. eapply wp_release_via; [exact Hct|exact Hth'|done|done|]. wp_steps. pcbn. by rewrite Hback.
  - destruct HQ as [Hno HQ]. wp_steps. eapply wp_getp; [exact Hp|].
    assert (wp (bind release_via_thread (fun _ => ret (-1))) Q
      (with_pctx (mkctx [LkPtable] (woken (pctx s)) (killed (pctx s))) s)) as Hrel.
    { wp_steps. eapply wp_release_via; [exact Hct|exact Hme|done|done|]. wp_steps. pcbn.
      by rewrite Hback, with_ttable_same. }
    destruct Hno as [->|Hk]; [exact Hrel|]. apply Z.eqb_neq in Hk. rewrite Hk. cbn [negb].
    destruct (List.find (has_id _ _ _) _); exact Hrel.
Qed.

(** What kthread_exit leaves of the thread. *)
Definition ended (th : kthread) : kthread :=
  tw_tid 0 (tw_tf 0 (tw_lock false (tw_parent None (tw_kernelStack 0 (tw_state ZOMBIE th))))).

Definition thread_live (th : kthread) : Prop := t_state th <> UNUSED /\ t_state th <> ZOMBIE.

Lemma filter_live_pos (row : list kthread) t th :
  row !! t = Some th -> thread_live th ->
  Nat.eqb (length (filter (fun th => t_state th <> UNUSED /\ t_state th <> ZOMBIE) row)) 0 = false.
Proof.
  intros Ht Hl. apply Nat.eqb_neq. intros E0. apply nil_length_inv in E0.
  assert (th ∈ filter (fun th => t_state th <> UNUSED /\ t_state th <> ZOMBIE) row) as Hin.
  { apply list_elem_of_filter. split; [exact Hl|by eapply list_elem_of_lookup_2]. }
  rewrite E0 in Hin. inversion Hin.
Qed.

(** kthread_exit of a thread that is not the last: it is a zombie without identifier,
    the threads that sleep on it are RUNNABLE. *)
Lemma wp_kthread_exit c me th you th' s (Q : unit -> psys E -> Prop) :
  in_thread c me th s -> you <> me -> thread_at (ttable s) c you = Some th' -> thread_live th' ->
  Q tt (with_pctx (mkctx [LkPtable] (woken (pctx s)) (killed (pctx s)))
    (with_ttable (alter (fmap (wake_th (Some (ChThread (Z.of_nat c) (Z.of_nat me))))) c
       (alter (alter ended me) c (ttable s))) s)) ->
  wp kthread_exit Q s.
Proof.
  intros [Hc Hct (p & Hp & Hpt) (row & Hr & Hlen) Hme Hlk Hrun Hh] Hne Hyou Hlive HQ.
  assert (row !! you = Some th') as Hyr by (unfold thread_at in Hyou; by rewrite Hr in Hyou).
  assert (forall g, thread_at (alter (alter g me) c (ttable s)) c me = Some (g th)) as Hm.
  { intros g. by rewrite thread_at_alter, decide_True, Hme. }
  unfold kthread_exit, kthread_leave. wp_steps.
  eapply wp_acquire_via; [exact Hct|exact Hme|done|rewrite Hh; apply not_elem_of_nil|]. rewrite Hh.
  unfold curthread at 1, curproc at 1. wp_steps. eapply wp_lift_opt; [exact Hct|]. cbn [fst snd]. wp_steps.
  apply wp_sett; [by eexists|]. wp_steps. eapply wp_lift_opt; [exact Hc|]. wp_steps.
  eapply wp_row_of; [exact Hp|exact Hpt|]. unfold count_live. wp_steps. pcbn.
  eapply wp_lift_opt; [by rewrite list_lookup_alter_eq, Hr|]. wp_steps.
  rewrite take_ge by (rewrite length_alter; lia).
  rewrite (filter_live_pos _ you th') by (rewrite ?list_lookup_alter_ne by done; done).
  do 6 (wp_steps; apply wp_sett; [pcbn; rewrite Hm; by eexists|]; pcbn; rewrite alter_alter_threads).
  unfold wakeupThreads, curproc. wp_steps. eapply wp_lift_opt; [exact Hc|]. wp_steps.
  eapply wp_row_of; [exact Hp|exact Hpt|]. wp_steps.
  eapply wp_wake_row; [pcbn; by rewrite list_lookup_alter_eq, Hr|by rewrite length_alter|]. pcbn.
  unfold sched. wp_steps. pcbn. rewrite bool_decide_eq_true_2 by left. cbn [negb length Nat.eqb held].
  unfold curthread.
  wp_steps. eapply wp_lift_opt; [exact Hct|]. wp_steps. cbn [fst snd].
  eapply wp_gett; [pcbn; rewrite thread_at_row, decide_True, Hm by done; done|].
  rewrite bool_decide_eq_false_2 by done. wp_steps. exact HQ.
Qed.

Lemma wake_tid c th : t_tid (wake_th c th) = t_tid th.
Proof. unfold wake_th. by destruct (_ && _). Qed.

(** No thread of the row has the identifier. *)
Lemma join_unknown id c you th s :
  in_thread c you th s -> (forall u th', thread_at (ttable s) c u = Some th' -> t_tid th' <> id) ->
  kthread_join id s = Ret (-1) s.
Proof.
  intros Hin Hno. destruct (it_proc _ _ _ _ Hin) as (p & Hp & _).
  assert (wp (kthread_join id) (fun a s' => a = -1 /\ s' = s) s) as Hw.
  { eapply wp_kthread_join; [exact Hin|exact Hp|].
    assert (forall l, List.find (zombie_id (ttable s) c id) l = None /\ List.find (has_id (ttable s) c id) l = None) as Hf.
    { intros l. induction l as [|t l [IH1 IH2]]; [done|]. simpl. unfold zombie_id at 1, has_id at 1.
      destruct (thread_at (ttable s) c t) as [th'|] eqn:Ht; [|done]. apply Hno, Z.eqb_neq in Ht. by rewrite Ht. }
    rewrite (proj1 (Hf _)). split; [left; apply Hf|done]. }
  apply wp_run in Hw as (a & s' & -> & -> & ->). done.
Qed.

(** A thread that ends with kthread_exit while its process has others can not be
    joined: kthread_exit clears its identifier, so kthread_join with the identifier
    that kthread_create returned gives -1, from any state in which the threads of the
    process still have the identifiers kthread_exit left. *)
Theorem ended_thread_not_joinable c me th you th' s :
  in_thread c me th s -> t_tid th <> 0 -> you <> me ->
  thread_at (ttable s) c you = Some th' -> thread_live th' ->
  (forall u x, u <> me -> thread_at (ttable s) c u = Some x -> t_tid x <> t_tid th) ->
  exists s', kthread_exit s = Ret tt s' /\
    (exists x, thread_at (ttable s') c me = Some x /\ t_state x = ZOMBIE) /\
    forall s2 th2, in_thread c you th2 s2 ->
      (forall u, t_tid <$> thread_at (ttable s2) c u = t_tid <$> thread_at (ttable s') c u) ->
      kthread_join (t_tid th) s2 = Ret (-1) s2.
Proof.
  intros Hin Hid Hne Hyou Hlive Huniq. set (s1 := with_pctx (mkctx [LkPtable] (woken (pctx s)) (killed (pctx s)))
    (with_ttable (alter (fmap (wake_th (Some (ChThread (Z.of_nat c) (Z.of_nat me))))) c
       (alter (alter ended me) c (ttable s))) s)).
  assert (wp kthread_exit (fun _ s' => s' = s1) s) as Hw by (by eapply wp_kthread_exit).
  apply wp_run in Hw as ([] & s' & Hx & ->). exists s1. split; [exact Hx|].
  assert (forall u, thread_at (ttable s1) c u = wake_th (Some (ChThread (Z.of_nat c) (Z.of_nat me))) <$>
    (if decide (u = me) then Some (ended th) else thread_at (ttable s) c u)) as Ht.
  { intros u. unfold s1. pcbn. rewrite thread_at_row, decide_True, thread_at_alter by done.
    pose proof (it_me _ _ _ _ Hin) as Hme. destruct (decide (u = me)) as [->|Hu].
    - by rewrite decide_True, Hme by done.
    - rewrite decide_False by naive_solver. done. }
  split; [rewrite Ht, decide_True by done; by eexists|].
  intros s2 th2 Hin2 Htid. eapply join_unknown; [exact Hin2|]. intros u x Hx'.
  specialize (Htid u). rewrite Hx', Ht in Htid. destruct (decide (u = me)) as [->|Hu].
  - intros E1. cbn [fmap option_fmap option_map] in Htid. rewrite wake_tid in Htid. simpl in Htid. congruence.
  - destruct (thread_at (ttable s) c u) as [y|] eqn:Hy; [|done].
    cbn [fmap option_fmap option_map] in Htid. rewrite wake_tid in Htid.
    injection Htid as ->. by eapply Huniq.
Qed.
End Threads.

(** ** Runs from boot *)

Module Runs.
Import System.

(** A schedule: who runs, on which thread, and which routine. *)
Definition turn_of : Type := (nat * nat * routine)%type.

Fixpoint run_trace (l : list turn_of) (s : psys Z) : res (psys Z) unit :=
  match l with
  | [] => Ret tt s
  | (c, t, r) :: l =>
      match run_routine 1 2 r (turn (Some c) (Some (c, t)) (mkctx [] [] false) (env s) s) with
      | Ret _ s' | Sleep _ s' => run_trace l s'
      | e => e
      end
  end.

(** Thread [t] of process [c] forks into slot [i]; it exits. *)
Definition forks (c t i : nat) : list (nat * nat * routine) :=
  [(c, t, RAllocSlot); (c, t, RAllocInit i); (c, t, RForkCopy i); (c, t, RForkSetup i); (c, t, RForkReady i)].
Definition exits (c t : nat) : list (nat * nat * routine) := [(c, t, RExitClose); (c, t, RExitTable)].

(** From boot: the first process forks a child, the child forks a grandchild, the
    grandchild exits and then the child exits.  exit walks the threads of the zombie
    grandchild to hand it to init, and its [threads] is null. *)
Theorem exit_with_zombie_child_faults :
  run_trace ([(0, 0, RUserinit)] ++ forks 0 0 1 ++ forks 1 0 2 ++ exits 2 0 ++ exits 1 0)%nat (boot 0) = Fault.
Proof. vm_compute. reflexivity. Qed.

(** A process with two threads: one has stored itself as the parent of a new process when
    the other exits.  exit makes the half made child a zombie, init reaps both, and fork goes
    on to make the slot, which has no identifier any more, RUNNABLE. *)
Theorem fork_races_exit :
  match run_trace ([(0, 0, RUserinit)] ++ forks 0 0 1 ++
    [(1, 0, RCreateSlot); (1, 0, RCreateInit 100 8192 4096 1 1 1); (1, 0, RAllocSlot); (1, 0, RAllocInit 2); (1, 0, RForkCopy 2)] ++
    exits 1 1 ++ [(0, 0, RWait); (0, 0, RWait); (1, 0, RForkSetup 2); (1, 0, RForkReady 2)])%nat (boot 0) with
  | Ret _ s => exists p, procs s !! 2%nat = Some p /\ p_state p = RUNNABLE /\ p_pid p = 0
  | _ => False
  end.
Proof. vm_compute. by eexists. Qed.

(** Procdump walks the threads of every entry of the table, unused ones too, whose
    [threads] is null: with one process running, ^P on the console dereferences it. *)
Theorem procdump_faults :
  match run_trace [(0, 0, RUserinit)]%nat (boot 0) with
  | Ret _ s => procdump s = Fault
  | _ => False
  end.
Proof. vm_compute. reflexivity. Qed.
End Runs.

(** The first process, on its first thread. *)
Definition demo_main : psys Z :=
  with_ttable (alter (alter (tw_state RUNNING) 0%nat) 0%nat (ttable Demo.init)) Demo.init.

(** It has created a thread, which runs. *)
Definition demo_thread : psys Z :=
  match kthread_create 1 2 100 8192 4096 demo_main with
  | Ret _ s => turn (Some 0%nat) (Some (0%nat, 1%nat)) (mkctx [] [] false) (env s)
                 (with_ttable (alter (alter (tw_state RUNNING) 1%nat) 0%nat (ttable s)) s)
  | _ => demo_main
  end.

Lemma demo_main_in : exists th, in_thread 0 0 th demo_main.
Proof.
  eexists. constructor; [vm_compute; reflexivity..| | | | | |];
    [eexists; split; vm_compute; reflexivity|eexists; split; vm_compute; reflexivity|vm_compute; reflexivity..].
Defined.

Lemma kthread_create_spec_witness :
  exists s', kthread_create 1 2 100 8192 4096 demo_main = Ret 1 s' /\ nexttid s' = 2.
Proof.
  destruct demo_main_in as [th Hin]. pose proof (it_me _ _ _ _ Hin) as Hme.
  assert (exists f, tfs demo_main !! t_tf th = Some f) as [f Hf].
  { vm_compute in Hme. injection Hme as <-. eexists. vm_compute. reflexivity. }
  assert (exists row, ttable demo_main !! 0%nat = Some row /\ find_unused_thread (take NTHREAD row) 0 = Some 1%nat)
    as (row & Hr & Hu) by (eexists; split; vm_compute; reflexivity).
  pose proof (kthread_create_spec 1 2 100 8192 4096 0 0 th f row demo_main Hin Hf Hr) as Hc.
  rewrite Hu in Hc. destruct Hc as (s' & th0 & th' & Hc & _ & _ & _ & _ & _ & Hn & _).
  exists s'. split; [exact Hc|exact Hn].
Defined.

Lemma ended_thread_not_joinable_witness :
  exists s', kthread_exit demo_thread = Ret tt s' /\
    forall (s2 : psys Z) th2, in_thread 0 0 th2 s2 ->
      (forall u, t_tid <$> thread_at (ttable s2) 0 u = t_tid <$> thread_at (ttable s') 0 u) ->
      kthread_join 1 s2 = Ret (-1) s2.
Proof.
  assert (exists th, in_thread 0 1 th demo_thread) as [th Hin].
  { eexists. constructor; [vm_compute; reflexivity..| | | | | |];
    [eexists; split; vm_compute; reflexivity|eexists; split; vm_compute; reflexivity|vm_compute; reflexivity..]. }
  assert (exists th', thread_at (ttable demo_thread) 0 0 = Some th' /\ t_state th' = RUNNING) as (th' & Hy & Hs)
    by (eexists; split; vm_compute; reflexivity).
  assert (t_tid th = 1) as Hid.
  { pose proof (it_me _ _ _ _ Hin) as Hme. vm_compute in Hme. by injection Hme as <-. }
  edestruct (ended_thread_not_joinable 0 1 th 0 th' demo_thread Hin) as (s' & Hx & _ & Hj).
  - rewrite Hid. discriminate.
  - discriminate.
  - exact Hy.
  - unfold thread_live. rewrite Hs. split; discriminate.
  - rewrite Hid. intros u x Hu Hx. clear -Hu Hx. do 16 (destruct u as [|u]; [vm_compute in Hx; first [injection Hx as <-; discriminate|exfalso; by apply Hu]|]).
    vm_compute in Hx. discriminate.
  - exists s'. split; [exact Hx|]. rewrite Hid in Hj. exact Hj.
Defined.

Lemma process_table_safe_witness :
  exists s, System.reachable 1 2 0 s /\
    wakeup1 None s = Ret tt (with_ttable (wake_rows (procs s) None (ttable s)) s).
Proof.
  assert (exists s, userinit 1 2 (boot 0) = Ret tt s) as [s Hs] by (eexists; vm_compute; reflexivity).
  assert (System.reachable 1 2 0 s) as Hr.
  { eapply System.reach_step; [apply System.reach_boot|].
    apply (System.step_ret 1 2 _ RUserinit); [vm_compute; reflexivity|exact Hs]. }
  exists s. split; [exact Hr|]. apply (System.process_table_safe 1 2 0 s Hr).
Defined.
