(* ===== verification/Trapasm.v ===== *)
(** * Trap entry and exit: vectors.pl, trapasm.S, swtch.S, usys.S and the descriptor tables

    A processor has registers and memory, one word at each address a multiple of four
    apart.  [deliver] is what an x86 processor does on a trap: it goes through the gate
    that tvinit stored, changes to the stack of the task state when it comes from user
    mode, and pushes the state it interrupts.  The assembly routines follow, instruction
    by instruction.  The theorems: the frame that trap() gets describes the interrupted
    state whatever the trap, trapret restores what the frame says, swtch resumes a saved
    context, and a system call stub returns to its caller with the result in eax. *)

From stdpp Require Import base list numbers strings functions sets.
From S2P Require Import Prelude Spinlock Proc.

Open Scope Z_scope.

Inductive reg := EAX | EBX | ECX | EDX | ESI | EDI | EBP | ESP | EIP | EFLAGS | CS | DS | ES | FS | GS | SS.

#[export] Instance reg_eq_dec : EqDecision reg.
Proof. solve_decision. Defined.

Record mach := mkmach { rg : reg -> Z; mem : Z -> Z }.

Definition set_reg (r : reg) (v : Z) (m : mach) : mach := mkmach (<[r := v]> (rg m)) (mem m).
Lemma mem_set_reg r v m : mem (set_reg r v m) = mem m.
Proof. done. Qed.

Definition store (a v : Z) (m : mach) : mach := mkmach (rg m) (<[a := v]> (mem m)).

(** pushl and popl. *)
Definition push (v : Z) (m : mach) : mach :=
  let a := u32 (rg m ESP - 4) in store a v (set_reg ESP a m).
Definition pop (r : reg) (m : mach) : mach :=
  let a := rg m ESP in set_reg r (mem m a) (set_reg ESP (u32 (a + 4)) m).

(** ** Segment and gate descriptors: mmu.h *)

Definition SEG_KCODE : Z := 1.
Definition SEG_KDATA : Z := 2.
Definition SEG_KCPU : Z := 3.
Definition SEG_UCODE : Z := 4.
Definition SEG_UDATA : Z := 5.
Definition SEG_TSS : Z := 6.
Definition DPL_USER : Z := 3.
Definition STS_IG32 : Z := 14.
Definition STS_TG32 : Z := 15.
Definition T_SYSCALL : Z := 64.

Record gatedesc := mkgate {
  off_15_0 : Z; g_cs : Z; args : Z; rsv1 : Z; g_type : Z; g_s : Z; g_dpl : Z; g_p : Z; off_31_16 : Z }.

Definition SETGATE (istrap : bool) (sel off d : Z) : gatedesc :=
  mkgate (Z.land (u32 off) 65535) (u16 sel) 0 0 (if istrap then STS_TG32 else STS_IG32) 0 (Z.land d 3) 1
    (Z.shiftr (u32 off) 16).

(** The two words of a gate in memory, and how the processor reads them. *)
Definition gate_words (g : gatedesc) : Z * Z :=
  (off_15_0 g + 65536 * g_cs g,
   args g + 32 * rsv1 g + 256 * g_type g + 4096 * g_s g + 8192 * g_dpl g + 32768 * g_p g + 65536 * off_31_16 g).

Definition word_off (w : Z * Z) : Z := fst w mod 65536 + 65536 * (snd w / 65536).
Definition word_sel (w : Z * Z) : Z := fst w / 65536.
Definition word_dpl (w : Z * Z) : Z := snd w / 8192 mod 4.
Definition word_present (w : Z * Z) : bool := snd w / 32768 mod 2 =? 1.
Definition word_trap (w : Z * Z) : bool := snd w / 256 mod 2 =? 1.

Record segdesc := mkseg {
  lim_15_0 : Z; base_15_0 : Z; base_23_16 : Z; s_type : Z; s_s : Z; s_dpl : Z; s_p : Z; lim_19_16 : Z; avl : Z; s_rsv1 : Z;
  s_db : Z; s_g : Z; base_31_24 : Z }.

Definition STA_X : Z := 8.
Definition STA_W : Z := 2.
Definition STA_R : Z := 2.
Definition STS_T32A : Z := 9.

Definition SEG (type base lim dpl : Z) : segdesc :=
  mkseg (Z.land (Z.shiftr lim 12) 65535) (Z.land (u32 base) 65535) (Z.land (Z.shiftr (u32 base) 16) 255) type 1 dpl 1
    (Z.shiftr (u32 lim) 28) 0 0 1 1 (Z.shiftr (u32 base) 24).
Definition SEG16 (type base lim dpl : Z) : segdesc :=
  mkseg (Z.land lim 65535) (Z.land (u32 base) 65535) (Z.land (Z.shiftr (u32 base) 16) 255) type 1 dpl 1
    (Z.land (Z.shiftr (u32 lim) 16) 15) 0 0 1 0 (Z.shiftr (u32 base) 24).

(** vm.c seginit: the descriptors of a processor whose field cpu is at [cpu_addr]. *)
Definition seginit (cpu_addr : Z) : list segdesc :=
  let zero := mkseg 0 0 0 0 0 0 0 0 0 0 0 0 0 in
  let gdt := replicate 7 zero in
  let gdt := <[Z.to_nat SEG_KCODE := SEG (Z.lor STA_X STA_R) 0 4294967295 0]> gdt in
  let gdt := <[Z.to_nat SEG_KDATA := SEG STA_W 0 4294967295 0]> gdt in
  let gdt := <[Z.to_nat SEG_UCODE := SEG (Z.lor STA_X STA_R) 0 4294967295 DPL_USER]> gdt in
  let gdt := <[Z.to_nat SEG_UDATA := SEG STA_W 0 4294967295 DPL_USER]> gdt in
  <[Z.to_nat SEG_KCPU := SEG STA_W cpu_addr 8 0]> gdt.

(** What vm.c switchuvm makes the processor use for traps from user mode when proc is [p]:
    the descriptor of the task state at [ts_addr], and ss0 and esp0 in it. *)
Definition sizeof_taskstate : Z := 104.
Definition switch_tss (ts_addr : Z) (p : proc) : segdesc * Z * Z :=
  let g := SEG16 STS_T32A ts_addr (sizeof_taskstate - 1) 0 in
  let g := mkseg (lim_15_0 g) (base_15_0 g) (base_23_16 g) (s_type g) 0 (s_dpl g) (s_p g) (lim_19_16 g) (avl g) (s_rsv1 g)
    (s_db g) (s_g g) (base_31_24 g) in
  (g, Z.shiftl SEG_KDATA 3, u32 (p_kstack p + KSTACKSIZE)).

(** The base and the last byte of a segment, as the processor computes them. *)
Definition seg_base (g : segdesc) : Z := base_15_0 g + 65536 * base_23_16 g + 16777216 * base_31_24 g.
Definition seg_limit (g : segdesc) : Z :=
  let l := lim_15_0 g + 65536 * lim_19_16 g in if s_g g =? 1 then 4096 * l + 4095 else l.

(** trap.c tvinit. *)
Definition tvinit (vectors : nat -> Z) : list gatedesc :=
  let idt := (fun i => SETGATE false (Z.shiftl SEG_KCODE 3) (vectors i) 0) <$> seq 0 256 in
  <[64%nat := SETGATE true (Z.shiftl SEG_KCODE 3) (vectors 64%nat) DPL_USER]> idt.

(** ** What the processor does on a trap *)

Definition cpl (m : mach) : Z := Z.land (rg m CS) 3.

(** The stack an interrupted state is saved on. *)
Definition stack_top (esp0 : Z) (m : mach) : Z := if cpl m =? 0 then rg m ESP else esp0.

(** The flags in the handler: trap, virtual 8086 mode, resume and nested task are cleared, and
    through an interrupt gate the interrupt flag. *)
Definition trap_flags (trap : bool) (fl : Z) : Z :=
  let kept := Z.ldiff fl (256 + 16384 + 65536 + 131072) in if trap then kept else Z.ldiff kept FL_IF.

(** Trap [vec] through the gate [g]: [software] for the instruction int, [err] the error
    code the processor pushes.  No result is a further fault. *)
Definition deliver (idt : list gatedesc) (ss0 esp0 : Z) (vec : nat) (software : bool) (err : option Z) (m : mach) :
    option mach :=
  match idt !! vec with
  | None => None
  | Some g =>
  let w := gate_words g in
  if negb (word_present w) || (software && (word_dpl w <? cpl m)) then None else
  let m0 := if cpl m =? 0 then m
    else push (rg m ESP) (push (rg m SS) (set_reg ESP esp0 (set_reg SS ss0 m))) in
  let m1 := push (rg m EIP) (push (rg m CS) (push (rg m EFLAGS) m0)) in
  let m2 := match err with Some e => push e m1 | None => m1 end in
  let m3 := set_reg EFLAGS (trap_flags (word_trap w) (rg m2 EFLAGS)) m2 in
  Some (set_reg EIP (word_off w) (set_reg CS (word_sel w) m3))
  end.

(** iret. *)
Definition iret (m : mach) : mach :=
  let m1 := pop EFLAGS (pop CS (pop EIP m)) in
  let m2 := set_reg CS (u16 (rg m1 CS)) m1 in
  if Z.land (rg m2 CS) 3 =? 0 then m2 else
  let esp := mem m2 (rg m2 ESP) in let ss := mem m2 (u32 (rg m2 ESP + 4)) in
  set_reg ESP esp (set_reg SS (u16 ss) m2).

(** ** The entry code *)

(** vectors.pl: the vectors for which the processor pushes an error code itself. *)
Definition pushes_error (i : nat) : bool :=
  (i =? 8)%nat || ((10 <=? i)%nat && (i <=? 14)%nat) || (i =? 17)%nat.

Section Code.
(** The address of alltraps, of trap and of the instruction after the call of trap; what
    pushl of a segment register leaves in the upper half of the word it writes. *)
Variables alltraps_addr trap_addr after_call : Z.
Variable upper : Z -> Z.

(** vectors.S: vector [i]. *)
Definition vector (i : nat) (m : mach) : mach :=
  let m := if negb (pushes_error i) then push 0 m else m in
  set_reg EIP alltraps_addr (push (Z.of_nat i) m).

Definition push_seg (r : reg) (m : mach) : mach :=
  push (u16 (rg m r) + 65536 * upper (mem m (u32 (rg m ESP - 4)))) m.

Definition pushal (m : mach) : mach :=
  push (rg m EDI) (push (rg m ESI) (push (rg m EBP) (push (rg m ESP)
    (push (rg m EBX) (push (rg m EDX) (push (rg m ECX) (push (rg m EAX) m))))))).

Definition popal (m : mach) : mach :=
  let m := pop EBP (pop ESI (pop EDI m)) in
  let m := set_reg ESP (u32 (rg m ESP + 4)) m in
  pop EAX (pop ECX (pop EDX (pop EBX m))).

(** movw $v, %ax. *)
Definition movw_ax (v : Z) (m : mach) : mach := set_reg EAX (Z.ldiff (rg m EAX) 65535 + v) m.

Definition kernel_segs (m : mach) : mach :=
  let m := movw_ax (Z.shiftl SEG_KDATA 3) m in
  let m := set_reg ES (u16 (rg m EAX)) (set_reg DS (u16 (rg m EAX)) m) in
  let m := movw_ax (Z.shiftl SEG_KCPU 3) m in
  set_reg GS (u16 (rg m EAX)) (set_reg FS (u16 (rg m EAX)) m).

Definition alltraps (m : mach) : mach :=
  let m := kernel_segs (pushal (push_seg GS (push_seg FS (push_seg ES (push_seg DS m))))) in
  let m := push (rg m ESP) m in
  set_reg EIP trap_addr (push after_call m).

(** popl of a segment register keeps the low half. *)
Definition pop_seg (r : reg) (m : mach) : mach := let m := pop r m in set_reg r (u16 (rg m r)) m.

Definition trapret (m : mach) : mach :=
  let m := pop_seg DS (pop_seg ES (pop_seg FS (pop_seg GS (popal m)))) in
  iret (set_reg ESP (u32 (rg m ESP + 8)) m).
End Code.

(** struct trapframe at address [a]. *)
Definition read_frame (mm : Z -> Z) (a : Z) : trapframe :=
  mktf (mm a) (mm (a + 4)) (mm (a + 8)) (mm (a + 12)) (mm (a + 16)) (mm (a + 20)) (mm (a + 24)) (mm (a + 28))
    (u16 (mm (a + 32))) (u16 (mm (a + 36))) (u16 (mm (a + 40))) (u16 (mm (a + 44))) (mm (a + 48))
    (mm (a + 52)) (mm (a + 56)) (u16 (mm (a + 60))) (mm (a + 64)) (mm (a + 68)) (u16 (mm (a + 72))).

(** ** swtch.S *)

Definition swtch (m : mach) : mach :=
  let m := set_reg EDX (mem m (rg m ESP + 8)) (set_reg EAX (mem m (rg m ESP + 4)) m) in
  let m := push (rg m EDI) (push (rg m ESI) (push (rg m EBX) (push (rg m EBP) m))) in
  let m := store (rg m EAX) (rg m ESP) m in
  let m := set_reg ESP (rg m EDX) m in
  pop EIP (pop EBP (pop EBX (pop ESI (pop EDI m)))).

(** ** usys.S *)

(** movl $num, %eax, and the int at whose end the address is [next]; then ret. *)
Definition usys_enter (num next : Z) (m : mach) : mach := set_reg EIP next (set_reg EAX num m).
Definition usys_leave (m : mach) : mach := pop EIP m.

(** struct context at address [a]. *)
Definition read_context (mm : Z -> Z) (a : Z) : context :=
  mkcontext (mm a) (mm (a + 4)) (mm (a + 8)) (mm (a + 12)) (mm (a + 16)).

(** ** Stacks of words *)

Definition words_at (mm : Z -> Z) (a : Z) (l : list Z) : Prop :=
  forall k v, l !! k = Some v -> mm (a + 4 * Z.of_nat k) = v.

(** The processor has pushed [l] since its stack pointer was [top]. *)
Record pushed (m0 : mach) (top : Z) (l : list Z) (m : mach) : Prop := {
  ps_esp : rg m ESP = top - 4 * Z.of_nat (length l);
  ps_words : words_at (mem m) (rg m ESP) l;
  ps_regs : forall r, r <> ESP -> rg m r = rg m0 r;
  ps_mem : forall x, x < rg m ESP \/ top <= x -> mem m x = mem m0 x }.

Lemma pushed_nil m top : rg m ESP = top -> pushed m top [] m.
Proof. intros E. constructor; [cbn; lia|intros k v Hk; done|done|done]. Qed.

Lemma pushed_push m0 top l m v :
  pushed m0 top l m -> 4 * Z.of_nat (length l) + 4 <= top < 2 ^ 32 -> pushed m0 top (v :: l) (push v m).
Proof.
  intros [P1 P2 P3 P4] Ht. unfold push. rewrite P1. rewrite u32_small by lia.
  set (a := top - 4 * Z.of_nat (length l) - 4). constructor; cbn [store set_reg rg mem].
  - rewrite fn_lookup_insert. cbn [length]. lia.
  - rewrite fn_lookup_insert. intros [|k] w Hk; cbn in Hk.
    + injection Hk as <-. rewrite Z.mul_0_r, Z.add_0_r. apply fn_lookup_insert.
    + rewrite fn_lookup_insert_ne by lia. replace (a + 4 * Z.of_nat (S k)) with (rg m ESP + 4 * Z.of_nat k) by lia. by apply P2.
  - intros r Hr. rewrite fn_lookup_insert_ne by done. by apply P3.
  - rewrite fn_lookup_insert. intros x Hx. rewrite fn_lookup_insert_ne by lia. apply P4. lia.
Qed.

Lemma pushed_set m0 top l m r v :
  pushed m0 top l m -> r <> ESP -> pushed (set_reg r v m0) top l (set_reg r v m).
Proof.
  intros [P1 P2 P3 P4] Hr.
  assert (rg (set_reg r v m) ESP = rg m ESP) as E by (cbn [set_reg rg]; by rewrite fn_lookup_insert_ne).
  constructor; rewrite ?E; try done. intros q Hq. cbn [set_reg rg].
  destruct (decide (r = q)) as [->|]; [by rewrite !fn_lookup_insert|]. rewrite !fn_lookup_insert_ne by done. by apply P3.
Qed.

Lemma pushed_esp m0 top l m : pushed m0 top l m -> rg m ESP = top - 4 * Z.of_nat (length l).
Proof. by intros []. Qed.

(** The words pushed, read from the frame address [a] on. *)
Lemma pushed_read m0 top l m a k v :
  pushed m0 top l m -> l !! k = Some v -> a = top - 4 * Z.of_nat (length l) + 4 * Z.of_nat k -> mem m a = v.
Proof. intros [P1 P2 _ _] Hk ->. rewrite <- P1. by apply P2. Qed.

(** ** Registers loaded from a stack *)

Record popped (m0 : mach) (a : Z) (l : list (reg * Z)) (m : mach) : Prop := {
  pp_esp : rg m ESP = a;
  pp_mem : mem m = mem m0;
  pp_regs : forall r v, (r, v) ∈ l -> rg m r = v;
  pp_same : forall r, r ∉ l.*1 -> r <> ESP -> rg m r = rg m0 r }.

Lemma popped_nil m a : rg m ESP = a -> popped m a [] m.
Proof. intros E. constructor; [done|done|intros r v Hr; by apply elem_of_nil in Hr|done]. Qed.

Lemma popped_set m0 a l m r v :
  popped m0 a l m -> r <> ESP -> r ∉ l.*1 -> popped m0 a ((r, v) :: l) (set_reg r v m).
Proof.
  intros [P1 P2 P3 P4] Hr Hl. constructor; cbn [set_reg rg mem].
  - by rewrite fn_lookup_insert_ne.
  - done.
  - intros q w Hq. apply elem_of_cons in Hq as [Hq|Hq]; [injection Hq as -> ->; apply fn_lookup_insert|].
    rewrite fn_lookup_insert_ne; [by apply P3|]. intros ->. apply Hl. apply list_elem_of_fmap. by exists (q, w).
  - intros q Hq Hq2. cbn in Hq. rewrite fn_lookup_insert_ne by set_solver. apply P4; [set_solver|done].
Qed.

Lemma popped_esp m0 a l m a' : popped m0 a l m -> ESP ∉ l.*1 -> popped m0 a' l (set_reg ESP a' m).
Proof.
  intros [P1 P2 P3 P4] Hl. constructor; cbn [set_reg rg mem].
  - apply fn_lookup_insert.
  - done.
  - intros q w Hq. rewrite fn_lookup_insert_ne; [by apply P3|]. intros <-. apply Hl. apply list_elem_of_fmap. by exists (ESP, w).
  - intros q Hq Hq2. rewrite fn_lookup_insert_ne by done. by apply P4.
Qed.

Lemma popped_pop m0 a l m r :
  popped m0 a l m -> 0 <= a < 2 ^ 32 - 4 -> r <> ESP -> r ∉ l.*1 -> ESP ∉ l.*1 ->
  popped m0 (a + 4) ((r, mem m0 a) :: l) (pop r m).
Proof.
  intros P Ha Hr Hl He. unfold pop. rewrite (pp_esp _ _ _ _ P), (pp_mem _ _ _ _ P), u32_small by lia.
  apply popped_set; [|done|done]. by eapply popped_esp.
Qed.

(** Loading a register again replaces its value. *)
Lemma popped_again m0 a l m r v w :
  popped m0 a ((r, v) :: l) m -> r <> ESP -> r ∉ l.*1 -> popped m0 a ((r, w) :: l) (set_reg r w m).
Proof.
  intros [P1 P2 P3 P4] Hr Hl. constructor; cbn [set_reg rg mem].
  - by rewrite fn_lookup_insert_ne.
  - done.
  - intros q u Hq. apply elem_of_cons in Hq as [Hq|Hq]; [injection Hq as -> ->; apply fn_lookup_insert|].
    rewrite fn_lookup_insert_ne; [apply P3; by right|]. intros ->. apply Hl. apply list_elem_of_fmap. by exists (q, u).
  - intros q Hq Hq2. cbn in Hq. rewrite fn_lookup_insert_ne by set_solver. apply P4; [cbn; set_solver|done].
Qed.

Lemma popped_pop_seg m0 a l m r :
  popped m0 a l m -> 0 <= a < 2 ^ 32 - 4 -> r <> ESP -> r ∉ l.*1 -> ESP ∉ l.*1 ->
  popped m0 (a + 4) ((r, u16 (mem m0 a)) :: l) (pop_seg r m).
Proof.
  intros P Ha Hr Hl He. unfold pop_seg. pose proof (popped_pop _ _ _ _ r P Ha Hr Hl He) as P'.
  rewrite (pp_regs _ _ _ _ P' r (mem m0 a)) by left. by eapply popped_again.
Qed.

(** What trapret loads from a frame; from a frame of the kernel it leaves ESP above it. *)
Definition frame_reg (f : trapframe) (a ss : Z) (r : reg) : Z :=
  let user := negb (Z.land (tf_cs f) 3 =? 0) in
  match r with
  | EAX => tf_eax f | EBX => tf_ebx f | ECX => tf_ecx f | EDX => tf_edx f | ESI => tf_esi f | EDI => tf_edi f
  | EBP => tf_ebp f | EIP => tf_eip f | EFLAGS => tf_eflags f | CS => tf_cs f | DS => tf_ds f | ES => tf_es f
  | FS => tf_fs f | GS => tf_gs f
  | ESP => if user then tf_esp f else a + 68
  | SS => if user then tf_ss f else ss
  end.

Ltac not_loaded := apply (bool_decide_unpack _); reflexivity.
Ltac loaded := solve [repeat constructor].

(** One load: the state after it is named, and what it loaded recorded. *)
Ltac load_next :=
  match goal with
  | P : popped ?m0 ?a ?l ?m |- context [pop ?r ?m] =>
      let H := fresh in pose proof (popped_pop m0 a l m r P ltac:(lia) ltac:(done) ltac:(not_loaded) ltac:(not_loaded)) as H;
      clear P; revert H; generalize (pop r m); intros ? P
  | P : popped ?m0 ?a ?l ?m |- context [pop_seg ?r ?m] =>
      let H := fresh in pose proof (popped_pop_seg m0 a l m r P ltac:(lia) ltac:(done) ltac:(not_loaded) ltac:(not_loaded)) as H;
      clear P; revert H; generalize (pop_seg r m); intros ? P
  | P : popped ?m0 ?a ?l ?m |- context [set_reg ESP (u32 (rg ?m ESP + ?k)) ?m] =>
      let H := fresh in pose proof (popped_esp m0 a l m (a + k) P ltac:(not_loaded)) as H;
      rewrite (pp_esp _ _ _ _ P), u32_small by lia;
      clear P; revert H; generalize (set_reg ESP (a + k) m); intros ? P
  end.

Lemma popal_loads m0 m a :
  popped m0 a [] m -> 0 <= a -> a + 32 < 2 ^ 32 ->
  popped m0 (a + 32) [(EAX, mem m0 (a + 28)); (ECX, mem m0 (a + 24)); (EDX, mem m0 (a + 20)); (EBX, mem m0 (a + 16));
    (EBP, mem m0 (a + 8)); (ESI, mem m0 (a + 4)); (EDI, mem m0 a)] (popal m).
Proof.
  intros P Ha Ha2. unfold popal. cbv zeta. do 8 load_next. rewrite <- !Z.add_assoc in *. exact P.
Qed.

Lemma trapret_loads m a :
  rg m ESP = a -> 0 <= a -> a + 76 < 2 ^ 32 ->
  mem (trapret m) = mem m /\ forall r, rg (trapret m) r = frame_reg (read_frame (mem m) a) a (rg m SS) r.
Proof.
  intros E Ha Ha2. unfold trapret. cbv zeta. pose proof (popal_loads m m a (popped_nil m a E) Ha ltac:(lia)) as P.
  revert P. generalize (popal m). intros m1 P. do 5 load_next. unfold iret. cbv zeta. do 3 load_next.
  rewrite <- !Z.add_assoc in *. destruct P as [P1 P2 P3 P4].
  assert (rg m8 SS = rg m SS) as P5 by (apply P4; [not_loaded|done]).
  assert (rg m8 CS = mem m (a + 60)) as Pcs by (apply P3; loaded).
  rewrite Pcs. cbn [set_reg rg mem]. rewrite fn_lookup_insert, fn_lookup_insert_ne by done. rewrite P1, P2, u32_small by lia.
  unfold frame_reg, read_frame. cbn [tf_cs tf_eax tf_ebx tf_ecx tf_edx tf_esi tf_edi tf_ebp tf_eip tf_eflags tf_ds tf_es tf_fs tf_gs tf_esp tf_ss].
  destruct (Z.land (u16 (mem m (a + 60))) 3 =? 0); cbn [negb rg mem set_reg]; (split; [done|]); intros [];
    rewrite ?fn_lookup_insert, ?fn_lookup_insert_ne, ?fn_lookup_insert by done; try done; try (apply P3; loaded).
  all: try (rewrite P1; lia).
  all: rewrite <- Z.add_assoc; done.
Qed.

(** ** The gates tvinit stores *)

Lemma u16_word a b : u16 (u16 a + 65536 * b) = u16 a.
Proof. unfold u16. change (2 ^ 16) with 65536. rewrite (Z.mul_comm 65536), Z_mod_plus_full. apply Zmod_mod. Qed.

Lemma gate_read istrap sel off d :
  0 <= sel < 65536 -> 0 <= d < 4 ->
  let w := gate_words (SETGATE istrap sel off d) in
  word_off w = u32 off /\ word_sel w = sel /\ word_dpl w = d /\ word_present w = true /\ word_trap w = istrap.
Proof.
  intros Hs Hd w. pose proof (u32_range off) as Ho.
  assert (Z.land (u32 off) 65535 = u32 off mod 65536) as El by (change 65535 with (Z.ones 16); by rewrite Z.land_ones).
  assert (Z.shiftr (u32 off) 16 = u32 off / 65536) as Er by (by rewrite Z.shiftr_div_pow2).
  assert (Z.land d 3 = d) as Ed by (change 3 with (Z.ones 2); rewrite Z.land_ones, Z.mod_small by lia; done).
  unfold w, gate_words, SETGATE, word_off, word_sel, word_dpl, word_present, word_trap. cbn [fst snd off_15_0 g_cs args rsv1 g_type g_s g_dpl g_p off_31_16].
  rewrite El, Er, Ed, u16_small by (change (2 ^ 16) with 65536; lia). generalize dependent (u32 off). intros o Ho El Er.
  pose proof (Z.div_mod o 65536). pose proof (Z.mod_pos_bound o 65536). pose proof (Z.div_pos o 65536).
  assert (o / 65536 < 65536) by (apply Z.div_lt_upper_bound; lia). set (h := o / 65536) in *. set (k := o mod 65536) in *.
  set (t := if istrap then STS_TG32 else STS_IG32). assert (t = 14 /\ istrap = false \/ t = 15 /\ istrap = true) as Ht by (unfold t; destruct istrap; auto).
  assert (forall a b c, 0 <= a < b -> (a + b * c) / b = c /\ (a + b * c) mod b = a) as Hdm.
  { intros a b c Hab. rewrite (Z.mul_comm b), Z.div_add, Z_mod_plus_full, Z.div_small, Z.mod_small by lia. lia. }
  split_and!.
  - rewrite (proj2 (Hdm k 65536 sel ltac:(lia))). replace (0 + 32 * 0 + 256 * t + 4096 * 0 + 8192 * d + 32768 * 1 + 65536 * h)
      with ((256 * t + 8192 * d + 32768) + 65536 * h) by lia. rewrite (proj1 (Hdm (256 * t + 8192 * d + 32768) 65536 h ltac:(lia))). lia.
  - apply Hdm. lia.
  - replace (0 + 32 * 0 + 256 * t + 4096 * 0 + 8192 * d + 32768 * 1 + 65536 * h) with (256 * t + 8192 * (d + 4 * (1 + 2 * h))) by lia.
    rewrite (proj1 (Hdm (256 * t) 8192 _ ltac:(lia))). apply Hdm. lia.
  - replace (0 + 32 * 0 + 256 * t + 4096 * 0 + 8192 * d + 32768 * 1 + 65536 * h) with ((256 * t + 8192 * d) + 32768 * (1 + 2 * h)) by lia.
    rewrite (proj1 (Hdm (256 * t + 8192 * d) 32768 _ ltac:(lia))), (proj2 (Hdm 1 2 h ltac:(lia))). done.
  - replace (0 + 32 * 0 + 256 * t + 4096 * 0 + 8192 * d + 32768 * 1 + 65536 * h) with (0 + 256 * (t + 32 * d + 128 + 256 * h)) by lia.
    rewrite (proj1 (Hdm 0 256 _ ltac:(lia))). destruct Ht as [[-> ->]|[-> ->]].
    + replace (14 + 32 * d + 128 + 256 * h) with (0 + 2 * (7 + 16 * d + 64 + 128 * h)) by lia. by rewrite (proj2 (Hdm 0 2 _ ltac:(lia))).
    + replace (15 + 32 * d + 128 + 256 * h) with (1 + 2 * (7 + 16 * d + 64 + 128 * h)) by lia. by rewrite (proj2 (Hdm 1 2 _ ltac:(lia))).
Qed.

Lemma tvinit_gate v i : (i < 256)%nat ->
  tvinit v !! i = Some (SETGATE (i =? 64)%nat 8 (v i) (if (i =? 64)%nat then DPL_USER else 0)).
Proof.
  intros Hi. unfold tvinit. destruct (Nat.eqb_spec i 64) as [->|Hne].
  - by rewrite list_lookup_insert_eq by (rewrite length_fmap, length_seq; lia).
  - rewrite list_lookup_insert_ne, list_lookup_fmap, lookup_seq_lt by lia. done.
Qed.

(** A software interrupt from user mode gets through the gate of system calls only. *)
Lemma user_int_refused v ss0 esp0 vec err m :
  (vec < 256)%nat -> vec <> 64%nat -> cpl m <> 0 -> deliver (tvinit v) ss0 esp0 vec true err m = None.
Proof.
  intros Hv Hne Hc. unfold deliver. rewrite tvinit_gate by done. rewrite (proj2 (Nat.eqb_neq _ _) Hne).
  destruct (gate_read false 8 (v vec) 0) as (_ & _ & Hd & Hp & _); [lia..|]. cbv zeta. rewrite Hd, Hp. cbn [negb orb andb].
  unfold cpl in *. assert (0 <= Z.land (rg m CS) 3) by (apply Z.land_nonneg; right; lia).
  by rewrite (proj2 (Z.ltb_lt 0 _)) by lia.
Qed.

(** ** The frame that trap() gets *)

Definition outer (m : mach) : list Z := if cpl m =? 0 then [] else [rg m ESP; rg m SS].

(** The processor pushes an error code for exactly the vectors of [pushes_error]. *)
Definition err_for (vec : nat) (err : option Z) : Prop :=
  match err with Some _ => pushes_error vec = true | None => pushes_error vec = false end.

Lemma cpl_range m : 0 <= cpl m <= 3.
Proof.
  unfold cpl. change 3 with (Z.ones 2). rewrite Z.land_ones by lia. change (Z.ones 2) with 3. pose proof (Z.mod_pos_bound (rg m CS) (2 ^ 2)). lia.
Qed.

Ltac push_next := match goal with P : pushed ?m0 ?top ?l ?m |- pushed _ _ _ (push _ _) => apply pushed_push; [|cbn [length]; lia] end.

Lemma deliver_pushed v ss0 esp0 vec sw err m :
  (vec < 256)%nat -> (sw = true -> vec = 64%nat) -> 100 <= stack_top esp0 m < 2 ^ 32 ->
  exists m0 md, deliver (tvinit v) ss0 esp0 vec sw err m = Some md /\
    pushed m0 (stack_top esp0 m) (match err with Some e => [e] | None => [] end ++ [rg m EIP; rg m CS; rg m EFLAGS] ++ outer m) md /\
    mem m0 = mem m /\ rg m0 EIP = u32 (v vec) /\ rg m0 CS = 8 /\
    rg m0 EFLAGS = trap_flags (vec =? 64)%nat (rg m EFLAGS) /\
    rg m0 SS = (if cpl m =? 0 then rg m SS else ss0) /\
    forall r, r ∉ [ESP; SS; EIP; CS; EFLAGS] -> rg m0 r = rg m r.
Proof.
  intros Hv Hsw Ht. pose proof (cpl_range m) as Hc. set (t := (vec =? 64)%nat).
  destruct (gate_read t 8 (v vec) (if t then DPL_USER else 0)) as (Wo & Ws & Wd & Wp & Wt); [lia|unfold DPL_USER; destruct t; lia|].
  unfold deliver. rewrite tvinit_gate by done. fold t. cbv zeta. rewrite Wo, Ws, Wd, Wp, Wt. cbn [negb orb].
  rewrite (proj2 (andb_false_iff _ _)); [|destruct sw; [right|by left]; unfold t; rewrite Hsw by done; apply Z.ltb_ge; unfold DPL_USER; cbn; lia].
  (* the stack after the change of privilege, and what is pushed on it *)
  set (b := if cpl m =? 0 then m else set_reg ESP esp0 (set_reg SS ss0 m)).
  set (top := stack_top esp0 m) in *.
  assert (pushed b top (outer m) (if cpl m =? 0 then m else push (rg m ESP) (push (rg m SS) (set_reg ESP esp0 (set_reg SS ss0 m))))) as P.
  { unfold b, outer, top, stack_top in *. destruct (cpl m =? 0); [by apply pushed_nil|].
    do 2 (apply pushed_push; [|cbn [length]; lia]). apply pushed_nil. cbn [set_reg rg]. apply fn_lookup_insert. }
  revert P. generalize (if cpl m =? 0 then m else push (rg m ESP) (push (rg m SS) (set_reg ESP esp0 (set_reg SS ss0 m)))). intros m1 P.
  assert (length (outer m) <= 2)%nat as Hlo by (unfold outer; destruct (cpl m =? 0); cbn; lia).
  assert (pushed b top (match err with Some e => [e] | None => [] end ++ [rg m EIP; rg m CS; rg m EFLAGS] ++ outer m)
    (match err with Some e => push e (push (rg m EIP) (push (rg m CS) (push (rg m EFLAGS) m1)))
      | None => push (rg m EIP) (push (rg m CS) (push (rg m EFLAGS) m1)) end)) as P2.
  { destruct err; cbn [app]; repeat (apply pushed_push; [|cbn [length]; lia]); exact P. }
  revert P2. generalize (match err with Some e => push e (push (rg m EIP) (push (rg m CS) (push (rg m EFLAGS) m1)))
      | None => push (rg m EIP) (push (rg m CS) (push (rg m EFLAGS) m1)) end). intros m2 P2.
  assert (rg m2 EFLAGS = rg m EFLAGS) as Ef.
  { rewrite (ps_regs _ _ _ _ P2) by done. unfold b. destruct (cpl m =? 0); [done|]. cbn [set_reg rg]. by rewrite !fn_lookup_insert_ne by done. }
  set (b' := set_reg EFLAGS (trap_flags t (rg m2 EFLAGS)) b).
  exists (set_reg EIP (u32 (v vec)) (set_reg CS 8 b')). eexists. split; [reflexivity|].
  split; [by do 3 (apply pushed_set; [|done])|].
  assert (forall r, r <> ESP -> r <> SS -> rg b r = rg m r) as Hb.
  { intros r H1 H2. unfold b. destruct (cpl m =? 0); [done|]. cbn [set_reg rg]. by rewrite !fn_lookup_insert_ne by done. }
  split_and!; [unfold b', b; by destruct (cpl m =? 0)|..].
  - by cbn [set_reg rg]; rewrite fn_lookup_insert.
  - by cbn [set_reg rg]; rewrite fn_lookup_insert_ne, fn_lookup_insert by done.
  - cbn [set_reg rg]. rewrite !fn_lookup_insert_ne by done. unfold b'.
    cbn [set_reg rg]. by rewrite fn_lookup_insert, Ef.
  - cbn [set_reg rg]. rewrite !fn_lookup_insert_ne by done. unfold b', b.
    destruct (cpl m =? 0); cbn [set_reg rg]; rewrite ?fn_lookup_insert_ne, ?fn_lookup_insert by done; done.
  - intros r Hr. cbn [set_reg rg]. rewrite !fn_lookup_insert_ne by set_solver. unfold b'.
    cbn [set_reg rg]. rewrite fn_lookup_insert_ne by set_solver. apply Hb; set_solver.
Qed.

Section Entry.
Variables alltraps_addr trap_addr after_call : Z.
Variable upper : Z -> Z.

Lemma vector_pushed m0 top vec err l m :
  pushed m0 top (match err with Some e => [e] | None => [] end ++ l) m -> err_for vec err -> 4 * Z.of_nat (length l) + 16 <= top < 2 ^ 32 ->
  pushed (set_reg EIP alltraps_addr m0) top (Z.of_nat vec :: default 0 err :: l) (vector alltraps_addr vec m).
Proof.
  intros P He Ht. unfold vector. apply pushed_set; [|done]. destruct err as [e|]; cbn in He; rewrite He; cbn [negb].
  - apply pushed_push; [exact P|cbn [length app]; lia].
  - do 2 (apply pushed_push; [|cbn [length app]; lia]). exact P.
Qed.

Lemma push_seg_pushed m0 top l m r :
  pushed m0 top l m -> r <> ESP -> 4 * Z.of_nat (length l) + 4 <= top < 2 ^ 32 ->
  exists w, u16 w = u16 (rg m0 r) /\ pushed m0 top (w :: l) (push_seg upper r m).
Proof.
  intros P Hr Ht. eexists. split; [|by apply pushed_push]. rewrite u16_word. by rewrite (ps_regs _ _ _ _ P).
Qed.

Lemma pushal_pushed m0 top l m :
  pushed m0 top l m -> 4 * Z.of_nat (length l) + 32 <= top < 2 ^ 32 ->
  pushed m0 top ([rg m0 EDI; rg m0 ESI; rg m0 EBP; rg m ESP; rg m0 EBX; rg m0 EDX; rg m0 ECX; rg m0 EAX] ++ l) (pushal m).
Proof.
  intros P Ht. unfold pushal. rewrite <- !(ps_regs _ _ _ _ P) by done. cbn [app].
  repeat (apply pushed_push; [|cbn [length]; lia]). exact P.
Qed.

Lemma movw_ax_low v m : 0 <= v < 65536 -> u16 (rg (movw_ax v m) EAX) = v.
Proof.
  intros Hv. unfold movw_ax. cbn [set_reg rg]. rewrite fn_lookup_insert.
  assert (Z.ldiff (rg m EAX) 65535 = 65536 * (rg m EAX / 65536)) as ->.
  { change 65535 with (Z.ones 16). rewrite Z.ldiff_ones_r, Z.shiftr_div_pow2, Z.shiftl_mul_pow2 by lia. change (2 ^ 16) with 65536. lia. }
  rewrite Z.add_comm. rewrite <- (u16_small v) at 1 by (change (2 ^ 16) with 65536; lia). rewrite u16_word. apply u16_small. lia.
Qed.

Lemma kernel_segs_pushed m0 top l m :
  pushed m0 top l m -> exists m0', pushed m0' top l (kernel_segs m) /\ mem m0' = mem m0 /\
    rg m0' DS = 16 /\ rg m0' ES = 16 /\ rg m0' FS = 24 /\ rg m0' GS = 24 /\
    forall r, r ∉ [EAX; DS; ES; FS; GS] -> rg m0' r = rg m0 r.
Proof.
  intros P. unfold kernel_segs. cbv zeta. change (Z.shiftl SEG_KDATA 3) with 16. change (Z.shiftl SEG_KCPU 3) with 24.
  rewrite !movw_ax_low by lia. unfold movw_ax at 1.
  eexists. split; [do 2 (apply pushed_set; [|done]); unfold movw_ax; do 4 (apply pushed_set; [|done]); exact P|].
  cbn [set_reg rg mem]. split; [done|].
  split_and!; try (rewrite ?fn_lookup_insert_ne, ?fn_lookup_insert by done; done).
  intros r Hr. rewrite !fn_lookup_insert_ne by set_solver. done.
Qed.

(** alltraps up to the first instruction of trap(). *)
Lemma alltraps_pushed m0 top l m :
  pushed m0 top l m -> 4 * Z.of_nat (length l) + 56 <= top < 2 ^ 32 ->
  exists gw fw ew dw m0', u16 gw = u16 (rg m0 GS) /\ u16 fw = u16 (rg m0 FS) /\ u16 ew = u16 (rg m0 ES) /\ u16 dw = u16 (rg m0 DS) /\
    let a := top - 4 * Z.of_nat (length l) - 48 in
    pushed m0' top ([after_call; a; rg m0 EDI; rg m0 ESI; rg m0 EBP; a + 32; rg m0 EBX; rg m0 EDX; rg m0 ECX; rg m0 EAX;
      gw; fw; ew; dw] ++ l) (alltraps trap_addr after_call upper m) /\
    mem m0' = mem m0 /\ rg m0' EIP = trap_addr /\ rg m0' CS = rg m0 CS /\ rg m0' EFLAGS = rg m0 EFLAGS /\ rg m0' SS = rg m0 SS /\
    rg m0' DS = 16 /\ rg m0' ES = 16 /\ rg m0' FS = 24 /\ rg m0' GS = 24.
Proof.
  intros P Ht. unfold alltraps.
  destruct (push_seg_pushed _ _ _ _ DS P) as (dw & Ed & P1); [done|cbn [length]; lia|].
  destruct (push_seg_pushed _ _ _ _ ES P1) as (ew & Ee & P2); [done|cbn [length]; lia|].
  destruct (push_seg_pushed _ _ _ _ FS P2) as (fw & Ef & P3); [done|cbn [length]; lia|].
  destruct (push_seg_pushed _ _ _ _ GS P3) as (gw & Eg & P4); [done|cbn [length]; lia|].
  pose proof (pushal_pushed _ _ _ _ P4 ltac:(cbn [length]; lia)) as P5. rewrite (pushed_esp _ _ _ _ P4) in P5. revert P5.
  generalize (pushal (push_seg upper GS (push_seg upper FS (push_seg upper ES (push_seg upper DS m))))). intros m1 P5.
  destruct (kernel_segs_pushed _ _ _ _ P5) as (m0' & P6 & Em & Hds & Hes & Hfs & Hgs & Hr). revert P6.
  generalize (kernel_segs m1). intros m2 P6. exists gw, fw, ew, dw, (set_reg EIP trap_addr m0'). cbv zeta.
  split_and!; try done; cbn [set_reg rg]; rewrite ?fn_lookup_insert, ?fn_lookup_insert_ne by done; try done; try (by apply Hr; set_solver).
  apply pushed_set; [|done]. rewrite (pushed_esp _ _ _ _ P6) in *. cbn [app length] in P6 |- *.
  replace (top - 4 * Z.of_nat (S (S (S (S (S (S (S (S (S (S (S (S (length l)))))))))))))) with (top - 4 * Z.of_nat (length l) - 48) by lia.
  replace (top - 4 * Z.of_nat (S (S (S (S (length l)))))) with (top - 4 * Z.of_nat (length l) - 48 + 32) in P6 by lia.
  do 2 (apply pushed_push; [|cbn [length]; lia]). exact P6.
Qed.

(** Where the frame is, and what it holds. *)
Definition frame_addr (esp0 : Z) (m : mach) : Z := stack_top esp0 m - (if cpl m =? 0 then 68 else 76).

Definition frame_of (esp0 : Z) (m : mach) (vec : nat) (err : option Z) : trapframe :=
  let sp := rg m ESP in
  mktf (rg m EDI) (rg m ESI) (rg m EBP) (frame_addr esp0 m + 32) (rg m EBX) (rg m EDX) (rg m ECX) (rg m EAX)
    (u16 (rg m GS)) (u16 (rg m FS)) (u16 (rg m ES)) (u16 (rg m DS)) (Z.of_nat vec) (default 0 err)
    (rg m EIP) (u16 (rg m CS)) (rg m EFLAGS) (if cpl m =? 0 then mem m sp else sp)
    (u16 (if cpl m =? 0 then mem m (sp + 4) else rg m SS)).

Lemma read_frame_words mm a edi esi ebp oesp ebx edx ecx eax gs fs es ds no err eip cs fl esp ss :
  words_at mm a [edi; esi; ebp; oesp; ebx; edx; ecx; eax; gs; fs; es; ds; no; err; eip; cs; fl; esp; ss] ->
  read_frame mm a = mktf edi esi ebp oesp ebx edx ecx eax (u16 gs) (u16 fs) (u16 es) (u16 ds) no err eip (u16 cs) fl esp (u16 ss).
Proof.
  intros W. assert (mm a = edi) as E0 by (rewrite <- (W 0%nat edi eq_refl); f_equal; lia).
  unfold read_frame. rewrite E0.
  rewrite (W 1%nat esi eq_refl : mm (a + 4) = esi), (W 2%nat ebp eq_refl : mm (a + 8) = ebp), (W 3%nat oesp eq_refl : mm (a + 12) = oesp),
    (W 4%nat ebx eq_refl : mm (a + 16) = ebx), (W 5%nat edx eq_refl : mm (a + 20) = edx), (W 6%nat ecx eq_refl : mm (a + 24) = ecx),
    (W 7%nat eax eq_refl : mm (a + 28) = eax), (W 8%nat gs eq_refl : mm (a + 32) = gs), (W 9%nat fs eq_refl : mm (a + 36) = fs),
    (W 10%nat es eq_refl : mm (a + 40) = es), (W 11%nat ds eq_refl : mm (a + 44) = ds), (W 12%nat no eq_refl : mm (a + 48) = no),
    (W 13%nat err eq_refl : mm (a + 52) = err), (W 14%nat eip eq_refl : mm (a + 56) = eip), (W 15%nat cs eq_refl : mm (a + 60) = cs),
    (W 16%nat fl eq_refl : mm (a + 64) = fl), (W 17%nat esp eq_refl : mm (a + 68) = esp), (W 18%nat ss eq_refl : mm (a + 72) = ss).
  done.
Qed.

Lemma entry_frame v ss0 esp0 vec sw err m :
  (vec < 256)%nat -> (sw = true -> vec = 64%nat) -> err_for vec err -> 100 <= stack_top esp0 m < 2 ^ 32 ->
  exists md, deliver (tvinit v) ss0 esp0 vec sw err m = Some md /\ rg md EIP = u32 (v vec) /\
    let m1 := alltraps trap_addr after_call upper (vector alltraps_addr vec md) in let a := frame_addr esp0 m in
    rg m1 EIP = trap_addr /\ mem m1 (rg m1 ESP + 4) = a /\ read_frame (mem m1) a = frame_of esp0 m vec err /\
    rg m1 EFLAGS = trap_flags (vec =? 64)%nat (rg m EFLAGS) /\
    (forall x, x <= a - 12 \/ stack_top esp0 m <= x -> mem m1 x = mem m x).
Proof.
  intros Hv Hsw He Ht.
  destruct (deliver_pushed v ss0 esp0 vec sw err m Hv Hsw Ht) as (m0 & md & Ed & P & Em & Eip & Ecs & Efl & _ & Hr).
  exists md. split; [exact Ed|]. split; [by rewrite (ps_regs _ _ _ _ P)|]. cbv zeta.
  assert (length (outer m) <= 2)%nat as Hlo by (unfold outer; destruct (cpl m =? 0); cbn; lia).
  eapply vector_pushed in P; [|exact He|cbn [length app]; lia].
  destruct (alltraps_pushed _ _ _ _ P) as (gw & fw & ew & dw & m0' & Eg & Ef & Ee & Edw & P' & Em' & Eip' & _ & Efl' & _);
    [cbn [length app]; lia|]. revert P'. set (m1 := alltraps _ _ _ _). intros P'.
  assert (stack_top esp0 m - 4 * Z.of_nat (length (Z.of_nat vec :: default 0 err :: [rg m EIP; rg m CS; rg m EFLAGS] ++ outer m)) - 48
    = frame_addr esp0 m) as Ea.
  { unfold frame_addr, outer. destruct (cpl m =? 0); cbn [length app]; lia. }
  rewrite Ea in P'.
  assert (forall r, r ∉ [ESP; SS; EIP; CS; EFLAGS] -> rg (set_reg EIP alltraps_addr m0) r = rg m r) as HR.
  { intros r Hn. cbn [set_reg rg]. rewrite fn_lookup_insert_ne by set_solver. by apply Hr. }
  rewrite (HR EDI), (HR ESI), (HR EBP), (HR EBX), (HR EDX), (HR ECX), (HR EAX) in P' by not_loaded.
  rewrite (HR GS) in Eg by not_loaded. rewrite (HR FS) in Ef by not_loaded. rewrite (HR ES) in Ee by not_loaded. rewrite (HR DS) in Edw by not_loaded.
  pose proof (pushed_esp _ _ _ _ P') as Esp.
  assert (rg m1 ESP = frame_addr esp0 m - 8) as Esp'.
  { rewrite Esp, <- Ea. cbn [length app]. lia. }
  split_and!.
  - rewrite (ps_regs _ _ _ _ P') by done. exact Eip'.
  - eapply (pushed_read _ _ _ _ _ 1 _ P'); [reflexivity|]. rewrite <- Esp. lia.
  - unfold frame_of. rewrite <- Eg, <- Ef, <- Ee, <- Edw. apply read_frame_words. intros k w Hk.
    destruct (decide (k < 17)%nat) as [Hlt|Hge].
    + eapply (pushed_read _ _ _ _ _ (2 + k) _ P'); [|rewrite <- Esp, Esp'; lia]. rewrite <- Hk. by do 17 (destruct k as [|k]; [done|]); lia.
    + assert (forall x, stack_top esp0 m <= x -> mem m1 x = mem m x) as HM.
      { intros x Hx. rewrite (ps_mem _ _ _ _ P') by lia. rewrite Em'. cbn [set_reg mem]. by rewrite Em. }
      do 17 (destruct k as [|k]; [lia|]). cbn in Hk. unfold frame_addr, stack_top, outer in *. destruct (cpl m =? 0).
      * rewrite HM by lia. destruct k as [|[|k]]; cbn in Hk; [| |done]; injection Hk as <-; f_equal; lia.
      * eapply (pushed_read _ _ _ _ _ (19 + k) _ P'); [|rewrite <- Esp, Esp'; lia]. cbn [app lookup]. rewrite <- Hk. done.
  - rewrite (ps_regs _ _ _ _ P'), Efl' by done. cbn [set_reg rg]. by rewrite fn_lookup_insert_ne.
  - intros x Hx. rewrite (ps_mem _ _ _ _ P') by (rewrite Esp'; lia). rewrite Em'. cbn [set_reg mem]. by rewrite Em.
Qed.

(** Entry and exit of any trap; the frame is on the way. *)
Lemma enter_leave v ss0 esp0 vec sw err m :
  (vec < 256)%nat -> (sw = true -> vec = 64%nat) -> err_for vec err -> 100 <= stack_top esp0 m < 2 ^ 32 - 8 ->
  (forall r, r ∈ [CS; DS; ES; FS; GS; SS] -> u16 (rg m r) = rg m r) ->
  exists md, deliver (tvinit v) ss0 esp0 vec sw err m = Some md /\ rg md EIP = u32 (v vec) /\
    let m1 := alltraps trap_addr after_call upper (vector alltraps_addr vec md) in let a := frame_addr esp0 m in
    rg m1 EIP = trap_addr /\ mem m1 (rg m1 ESP + 4) = a /\ read_frame (mem m1) a = frame_of esp0 m vec err /\
    rg m1 EFLAGS = trap_flags (vec =? 64)%nat (rg m EFLAGS) /\
    (forall x, x <= a - 12 \/ stack_top esp0 m <= x -> mem m1 x = mem m x) /\
    forall m2 w, rg m2 ESP = a -> (cpl m = 0 -> rg m2 SS = rg m SS) ->
      read_frame (mem m2) a = tf_set_eax w (read_frame (mem m1) a) ->
      mem (trapret m2) = mem m2 /\ forall r, rg (trapret m2) r = if decide (r = EAX) then w else rg m r.
Proof.
  intros Hv Hsw He Ht Hseg. destruct (entry_frame v ss0 esp0 vec sw err m Hv Hsw He) as (md & E1 & E2 & E3 & E4 & E5 & E6 & E7); [lia|].
  exists md. split; [exact E1|]. split; [exact E2|]. cbv zeta in *. split_and!; try done. intros m2 w Esp Ess Ef.
  destruct (trapret_loads m2 (frame_addr esp0 m) Esp) as [Em Er]; [unfold frame_addr; destruct (cpl m =? 0); lia..|].
  split; [exact Em|]. intros r. rewrite Er, Ef, E5.
  assert (Z.land (u16 (rg m CS)) 3 = cpl m) as Ec by (rewrite Hseg by loaded; done).
  unfold frame_reg, frame_of, tf_set_eax.
  cbn [tf_cs tf_eax tf_ebx tf_ecx tf_edx tf_esi tf_edi tf_ebp tf_eip tf_eflags tf_ds tf_es tf_fs tf_gs tf_esp tf_ss].
  rewrite Ec. unfold frame_addr, stack_top. clear - Hseg Ess. destruct (Z.eqb_spec (cpl m) 0) as [Ez|Ez]; cbn [negb];
    destruct r; cbn [decide]; rewrite ?decide_True, ?decide_False by done; first [done|by apply Ess|solve [apply Hseg; loaded]|lia].
Qed.

(** C18: Whatever the trap, from user mode or from the kernel, with an error code of the
    processor or without: the gates of tvinit and the code of vectors.S and trapasm.S give
    trap() a frame that holds the vector, the error code or zero, and the interrupted
    registers; interrupts are off unless it is a system call, single steps are off, and no memory outside the
    frame and the call changes.  When trap() returns with only the saved eax changed,
    trapret leaves every register as it was before the trap, eax apart. *)
Theorem trap_roundtrip v ss0 esp0 vec sw err m :
  (vec < 256)%nat -> (sw = true -> vec = 64%nat) -> err_for vec err -> 100 <= stack_top esp0 m < 2 ^ 32 - 8 ->
  (forall r, r ∈ [CS; DS; ES; FS; GS; SS] -> u16 (rg m r) = rg m r) ->
  exists md, deliver (tvinit v) ss0 esp0 vec sw err m = Some md /\ rg md EIP = u32 (v vec) /\
    let m1 := alltraps trap_addr after_call upper (vector alltraps_addr vec md) in let a := frame_addr esp0 m in
    rg m1 EIP = trap_addr /\ mem m1 (rg m1 ESP + 4) = a /\ read_frame (mem m1) a = frame_of esp0 m vec err /\
    rg m1 EFLAGS = trap_flags (vec =? 64)%nat (rg m EFLAGS) /\
    (forall x, x <= a - 12 \/ stack_top esp0 m <= x -> mem m1 x = mem m x) /\
    forall m2 w, rg m2 ESP = a -> (cpl m = 0 -> rg m2 SS = rg m SS) ->
      read_frame (mem m2) a = tf_set_eax w (read_frame (mem m1) a) ->
      mem (trapret m2) = mem m2 /\ forall r, rg (trapret m2) r = if decide (r = EAX) then w else rg m r.
Proof. apply enter_leave. Qed.

(** A system call of a user program: the stub of usys.S for the call [num] gives trap() a
    frame with the number in eax and the trap number of system calls, and when trap()
    has stored a result in the frame the stub returns to its caller with the result in
    eax, the stack pointer past the return address and every other register as it was. *)
Theorem syscall_returns v ss0 esp0 num next m :
  cpl m <> 0 -> 100 <= esp0 < 2 ^ 32 - 8 -> 0 <= rg m ESP < 2 ^ 32 - 4 ->
  (forall r, r ∈ [CS; DS; ES; FS; GS; SS] -> u16 (rg m r) = rg m r) ->
  exists md, deliver (tvinit v) ss0 esp0 64 true None (usys_enter num next m) = Some md /\
    let m1 := alltraps trap_addr after_call upper (vector alltraps_addr 64 md) in let a := esp0 - 76 in
    let f := read_frame (mem m1) a in
    mem m1 (rg m1 ESP + 4) = a /\ tf_trapno f = T_SYSCALL /\ tf_eax f = num /\ tf_esp f = rg m ESP /\ tf_eip f = next /\
    forall m2 w, rg m2 ESP = a -> read_frame (mem m2) a = tf_set_eax w f ->
      let m3 := usys_leave (trapret m2) in
      rg m3 EAX = w /\ rg m3 EIP = mem m2 (rg m ESP) /\ rg m3 ESP = rg m ESP + 4 /\ mem m3 = mem m2 /\
      forall r, r ∉ [EAX; EIP; ESP] -> rg m3 r = rg m r.
Proof.
  intros Hc Ht Hsp Hseg. set (u := usys_enter num next m).
  assert (forall r, r ∉ [EAX; EIP] -> rg u r = rg m r) as Hu.
  { intros r Hr. unfold u, usys_enter. cbn [set_reg rg]. by rewrite !fn_lookup_insert_ne by set_solver. }
  assert (cpl u = cpl m) as Hcu by (unfold cpl; by rewrite (Hu CS) by not_loaded).
  assert (rg u EAX = num /\ rg u EIP = next) as [Ha Hi].
  { unfold u, usys_enter. cbn [set_reg rg]. by rewrite fn_lookup_insert, fn_lookup_insert_ne, fn_lookup_insert by done. }
  assert (stack_top esp0 u = esp0) as Hst by (unfold stack_top; by rewrite Hcu, (proj2 (Z.eqb_neq _ _) Hc)).
  assert (frame_addr esp0 u = esp0 - 76) as Hfa by (unfold frame_addr; by rewrite Hst, Hcu, (proj2 (Z.eqb_neq _ _) Hc)).
  destruct (enter_leave v ss0 esp0 64 true None u) as (md & E1 & _ & E3 & E4 & E5 & _ & _ & E8); [lia|done|done|by rewrite Hst| |].
  { intros r Hr. rewrite Hu; [by apply Hseg|]. clear -Hr. destruct r; first [not_loaded|exfalso; revert Hr; not_loaded]. }
  clearbody u. cbv zeta in *. rewrite Hfa in *. exists md. split; [exact E1|]. split; [exact E4|]. rewrite E5.
  unfold frame_of. rewrite Hcu, (proj2 (Z.eqb_neq _ _) Hc). cbn [tf_trapno tf_eax tf_esp tf_eip].
  rewrite (Hu ESP) by not_loaded. split_and!; try done. intros m2 w Em2 Ef.
  destruct (E8 m2 w Em2) as [Em Er]; [by rewrite Hcu|rewrite Ef, E5; unfold frame_of; rewrite Hcu, (proj2 (Z.eqb_neq _ _) Hc), (Hu ESP) by not_loaded; done|].
  revert Em Er. generalize (trapret m2). intros m3 Em Er.
  assert (rg m3 ESP = rg m ESP) as Esp by (rewrite Er, decide_False, Hu by (done || not_loaded); done).
  unfold usys_leave, pop. cbn [set_reg rg mem]. rewrite Esp, Em, u32_small by lia.
  split_and!.
  - by rewrite !fn_lookup_insert_ne, Er by done.
  - by rewrite fn_lookup_insert.
  - by rewrite fn_lookup_insert_ne, fn_lookup_insert by done.
  - done.
  - intros r Hr. assert (r <> EAX /\ r <> EIP /\ r <> ESP) as (R1 & R2 & R3) by (clear -Hr; set_solver).
    rewrite !fn_lookup_insert_ne, Er, decide_False by done. apply Hu. clear -R1 R2. set_solver.
Qed.
End Entry.

(** ** swtch *)

Lemma swtch_spec m sp o n :
  rg m ESP = sp -> mem m (sp + 4) = o -> mem m (sp + 8) = n -> 16 <= sp < 2 ^ 32 -> 0 <= n -> n + 20 < 2 ^ 32 ->
  o + 4 <= sp - 16 \/ sp + 4 <= o -> n + 20 <= sp - 16 \/ sp <= n -> o + 4 <= n \/ n + 20 <= o ->
  let m1 := swtch m in
  mem m1 o = sp - 16 /\ read_context (mem m1) (sp - 16) = mkcontext (rg m EDI) (rg m ESI) (rg m EBX) (rg m EBP) (mem m sp) /\
  mkcontext (rg m1 EDI) (rg m1 ESI) (rg m1 EBX) (rg m1 EBP) (rg m1 EIP) = read_context (mem m) n /\ rg m1 ESP = n + 20.
Proof.
  intros Hsp Ho Hn Hs Hn0 Hn1 Dos Dns Don. unfold swtch. cbv zeta. rewrite Hsp, Ho.
  change (mem (set_reg EAX o m) (sp + 8)) with (mem m (sp + 8)). rewrite Hn.
  set (b := set_reg EDX n (set_reg EAX o m)).
  assert (pushed b sp [rg m EDI; rg m ESI; rg m EBX; rg m EBP] (push (rg b EDI) (push (rg b ESI) (push (rg b EBX) (push (rg b EBP) b))))) as P.
  { repeat (apply pushed_push; [|cbn [length]; lia]). apply pushed_nil. unfold b. cbn [set_reg rg]. by rewrite !fn_lookup_insert_ne by done. }
  revert P. generalize (push (rg b EDI) (push (rg b ESI) (push (rg b EBX) (push (rg b EBP) b)))). intros m1 P.
  assert (rg m1 ESP = sp - 16) as Esp by (rewrite (pushed_esp _ _ _ _ P); cbn [length]; lia).
  assert (rg m1 EAX = o /\ rg m1 EDX = n) as [Ea Ed] by (split; by rewrite (ps_regs _ _ _ _ P)).
  change (rg (store (rg m1 EAX) (rg m1 ESP) m1) EDX) with (rg m1 EDX). rewrite Ea, Ed, Esp.
  set (m2 := set_reg ESP n (store o (sp - 16) m1)).
  assert (popped m2 n [] m2) as P2 by (apply popped_nil; apply fn_lookup_insert).
  assert (mem m2 = <[o := sp - 16]> (mem m1)) as Em2 by done. clearbody m2.
  assert (forall x, x + 4 <= o \/ o + 4 <= x -> mem m2 x = mem m1 x) as Hst by (intros x Hx; rewrite Em2; apply fn_lookup_insert_ne; lia).
  assert (forall x, x < sp - 16 \/ sp <= x -> mem m1 x = mem m x) as Hm.
  { intros x Hx. rewrite (ps_mem _ _ _ _ P) by lia. done. }
  do 5 load_next. rewrite <- !Z.add_assoc in P2. destruct P2 as [Q1 Q2 Q3 _]. split_and!.
  - rewrite Q2, Em2. apply fn_lookup_insert.
  - rewrite Q2. unfold read_context. rewrite !Hst by lia. pose proof (pushed_read _ _ _ _ (sp - 16) 0 _ P eq_refl) as R0.
    rewrite (R0 ltac:(cbn; lia)). rewrite (pushed_read _ _ _ _ (sp - 16 + 4) 1 _ P eq_refl ltac:(cbn; lia)),
      (pushed_read _ _ _ _ (sp - 16 + 8) 2 _ P eq_refl ltac:(cbn; lia)), (pushed_read _ _ _ _ (sp - 16 + 12) 3 _ P eq_refl ltac:(cbn; lia)).
    rewrite Hm by lia. by replace (sp - 16 + 16) with sp by lia.
  - unfold read_context. rewrite (Q3 EDI _ ltac:(loaded)), (Q3 ESI _ ltac:(loaded)), (Q3 EBX _ ltac:(loaded)), (Q3 EBP _ ltac:(loaded)), (Q3 EIP _ ltac:(loaded)).
    rewrite !Hst, !Hm by lia. done.
  - rewrite Q1. done.
Qed.

(** C26: A thread that gave up the processor in swtch resumes where it was: swtch stores
    the address of the saved registers in *old and continues in the new context with its
    registers and return address; a later swtch to the address stored, the saved words
    unchanged, returns to the first caller with its stack pointer and the registers that a
    C function preserves. *)
Theorem swtch_resumes m sp o n m2 sp2 o2 :
  rg m ESP = sp -> mem m (sp + 4) = o -> mem m (sp + 8) = n -> 16 <= sp < 2 ^ 32 - 4 -> 0 <= n -> n + 20 < 2 ^ 32 ->
  o + 4 <= sp - 16 \/ sp + 4 <= o -> n + 20 <= sp - 16 \/ sp <= n -> o + 4 <= n \/ n + 20 <= o ->
  rg m2 ESP = sp2 -> mem m2 (sp2 + 4) = o2 -> mem m2 (sp2 + 8) = mem (swtch m) o -> 16 <= sp2 < 2 ^ 32 ->
  o2 + 4 <= sp2 - 16 \/ sp2 + 4 <= o2 -> sp + 4 <= sp2 - 16 \/ sp2 <= sp - 16 -> o2 + 4 <= sp - 16 \/ sp + 4 <= o2 ->
  read_context (mem m2) (sp - 16) = read_context (mem (swtch m)) (sp - 16) ->
  let m1 := swtch m in let m3 := swtch m2 in
  mkcontext (rg m1 EDI) (rg m1 ESI) (rg m1 EBX) (rg m1 EBP) (rg m1 EIP) = read_context (mem m) n /\ rg m1 ESP = n + 20 /\
  rg m3 EIP = mem m sp /\ rg m3 ESP = sp + 4 /\
  forall r, r ∈ [EDI; ESI; EBX; EBP] -> rg m3 r = rg m r.
Proof.
  intros H1 H2 H3 H4 H5 H6 H7 H8 H9 G1 G2 G3 G4 G5 G6 G7 G8.
  destruct (swtch_spec m sp o n) as (A1 & A2 & A3 & A4); [done|done|done|lia|done|done|done|done|done|].
  rewrite A1 in G3.
  destruct (swtch_spec m2 sp2 o2 (sp - 16)) as (_ & _ & B3 & B4); [done|done|done|lia|lia|lia|done|lia|lia|].
  rewrite G8, A2 in B3. cbv zeta. revert B3 B4. generalize (swtch m2). intros m3 B3 B4. injection B3 as B31 B32 B33 B34 B35.
  split_and!; try done; [lia|].
  intros r Hr. rewrite !elem_of_cons, elem_of_nil in Hr. by destruct Hr as [->|[->|[->|[->|[]]]]].
Qed.

(** ** The segments and the stack for traps *)

Lemma seg_base_u32 base :
  Z.land (u32 base) 65535 + 65536 * Z.land (Z.shiftr (u32 base) 16) 255 + 16777216 * Z.shiftr (u32 base) 24 = u32 base.
Proof.
  pose proof (u32_range base) as Hb. set (b := u32 base) in *. change 65535 with (Z.ones 16). change 255 with (Z.ones 8).
  rewrite !Z.land_ones, !Z.shiftr_div_pow2 by lia. change (2 ^ 16) with 65536. change (2 ^ 8) with 256. change (2 ^ 24) with (65536 * 256).
  rewrite <- Z.div_div by lia. pose proof (Z.div_mod b 65536). pose proof (Z.div_mod (b / 65536) 256). lia.
Qed.

(** The selectors the kernel uses mean what it relies on: code and data of kernel and
    user cover the whole address space, at privilege 0 and 3, and the segment of gs starts
    at the field cpu and holds the three words cpu, proc and thread, although its limit is
    given as 8. *)
Theorem seginit_segments cpu_addr :
  let seg sel := seginit cpu_addr !! Z.to_nat (Z.shiftr sel 3) in
  Forall (fun sel => exists g, seg sel = Some g /\ seg_base g = 0 /\ seg_limit g = 2 ^ 32 - 1 /\ s_p g = 1 /\ s_dpl g = Z.land sel 3)
    [8; 16; 35; 43] /\
  (exists g, seg 24 = Some g /\ seg_base g = u32 cpu_addr /\ 12 <= seg_limit g + 1 /\ s_dpl g = 0).
Proof.
  cbv zeta. split.
  - repeat constructor; eexists; (split; [reflexivity|]); vm_compute; done.
  - exists (SEG STA_W cpu_addr 8 0). split; [reflexivity|]. split; [apply seg_base_u32|]. vm_compute. done.
Qed.

Lemma trap_roundtrip_witness :
  let m := mkmach (<[CS := 35]> (<[ESP := 12000]> (<[EIP := 77]> (<[EBX := 5]> (fun _ => 0))))) (fun _ => 0) in
  exists md, deliver (tvinit (fun i => 4096 + 8 * Z.of_nat i)) 16 40000 14 false (Some 6) m = Some md /\ rg md EIP = 4208 /\
    let m1 := alltraps 9100 9050 (fun _ => 0) (vector 9000 14 md) in
    tf_err (read_frame (mem m1) 39924) = 6 /\ tf_trapno (read_frame (mem m1) 39924) = 14 /\
    rg (trapret (set_reg ESP 39924 m1)) EBX = 5.
Proof.
  intros m. destruct (trap_roundtrip 9000 9100 9050 (fun _ => 0) (fun i => 4096 + 8 * Z.of_nat i) 16 40000 14 false (Some 6) m)
    as (md & E1 & E2 & _ & _ & E3 & _ & _ & E4); [lia|done|done|vm_compute; split; [discriminate|reflexivity]| |].
  { intros r Hr. rewrite !elem_of_cons, elem_of_nil in Hr. destruct Hr as [->|[->|[->|[->|[->|[->|[]]]]]]]; reflexivity. }
  exists md. split; [exact E1|]. split; [exact E2|]. cbv zeta in *.
  assert (frame_addr 40000 m = 39924) as Ea by reflexivity. rewrite Ea in E3, E4.
  split_and!; [by rewrite E3|by rewrite E3|].
  destruct (E4 (set_reg ESP 39924 (alltraps 9100 9050 (fun _ => 0) (vector 9000 14 md))) 0) as [_ Hr].
  - apply fn_lookup_insert.
  - intros Hc. vm_compute in Hc. discriminate.
  - rewrite mem_set_reg, E3. reflexivity.
  - rewrite Hr. reflexivity.
Defined.

Lemma swtch_resumes_witness :
  let m := mkmach (<[ESP := 1000]> (<[EBX := 7]> (fun _ => 0))) (<[1000 := 44]> (<[1004 := 5000]> (<[1008 := 3000]> (fun _ => 0)))) in
  let m2 := mkmach (<[ESP := 2900]> (fun _ => 0)) (<[2904 := 5004]> (<[2908 := 984]> (mem (swtch m)))) in
  rg (swtch m2) EIP = 44 /\ rg (swtch m2) ESP = 1004 /\ rg (swtch m2) EBX = 7.
Proof.
  intros m m2. destruct (swtch_resumes m 1000 5000 3000 m2 2900 5004) as (_ & _ & H1 & H2 & H3);
    [reflexivity|reflexivity|reflexivity|lia|lia|lia|lia|lia|lia|reflexivity|reflexivity|reflexivity|lia|lia|lia|lia|reflexivity|].
  split; [exact H1|]. split; [exact H2|]. apply H3. loaded.
Defined.

(** getpid, call 11: the result 3 reaches the caller at address 500. *)
Lemma syscall_returns_witness :
  let m := mkmach (<[CS := 35]> (<[ESP := 12000]> (<[EBX := 5]> (fun _ => 0)))) (<[12000 := 500]> (fun _ => 0)) in
  exists md, deliver (tvinit (fun i => 4096 + 8 * Z.of_nat i)) 16 40000 64 true None (usys_enter 11 90 m) = Some md /\
    let m1 := alltraps 9100 9050 (fun _ => 0) (vector 9000 64 md) in
    tf_eax (read_frame (mem m1) 39924) = 11 /\
    forall m2, rg m2 ESP = 39924 -> read_frame (mem m2) 39924 = tf_set_eax 3 (read_frame (mem m1) 39924) -> mem m2 12000 = 500 ->
      rg (usys_leave (trapret m2)) EAX = 3 /\ rg (usys_leave (trapret m2)) EIP = 500 /\ rg (usys_leave (trapret m2)) EBX = 5.
Proof.
  intros m.
  destruct (syscall_returns 9000 9100 9050 (fun _ => 0) (fun i => 4096 + 8 * Z.of_nat i) 16 40000 11 90 m)
    as (md & E1 & _ & _ & E2 & _ & _ & E3); [vm_compute; discriminate|lia|vm_compute; split; [discriminate|reflexivity]| |].
  { intros r Hr. rewrite !elem_of_cons, elem_of_nil in Hr. destruct Hr as [->|[->|[->|[->|[->|[->|[]]]]]]]; reflexivity. }
  exists md. split; [exact E1|]. cbv zeta in *. assert (40000 - 76 = 39924) as Ea by reflexivity. rewrite Ea in E2, E3.
  split; [exact E2|]. intros m2 Hsp Hf Hr. destruct (E3 m2 3 Hsp Hf) as (H1 & H2 & _ & _ & H3).
  split; [exact H1|]. split; [rewrite H2; exact Hr|]. apply H3. not_loaded.
Defined.
