(* ===== verification/Block.v ===== *)
(** * fs.c, the lowest layer: blocks through the log

    [BlockLayer] is what fs.c uses of bio.c and log.c: bread, access to the data of a
    held buffer, log_write and brelse.  [BlockLaws] is what those calls promise inside a
    transaction, in terms of the contents [V] the file system sees, the blocks [H] held,
    the blocks [U] changed and not yet handed to the log, and the number [r] of
    blocks the transaction may still add to the log.  The routines of fs.c are defined and
    verified against these classes; the log of [Log] is an instance of both. *)

From stdpp Require Import base list numbers strings functions gmap sets.
From S2P Require Import Prelude Spinlock Layout Buf Log.
Import Ctx.

Open Scope Z_scope.
Local Open Scope kernel_scope.

Class BlockLayer (S : Type) := {
  bl_bread : Z -> Z -> M S nat;
  bl_data : nat -> M S (list Z);
  bl_set : nat -> list Z -> M S unit;
  bl_log_write : nat -> M S unit;
  bl_brelse : nat -> M S unit }.

Class BlockLaws (S : Type) `{HasCtx S} `{!BlockLayer S} := {
  bl_rep : S -> (Z -> list Z) -> gset Z -> gset Z -> nat -> Prop;
  bl_lim : S -> Z;
  bl_holds : S -> nat -> Z -> Prop;
  bl_logged : S -> Z -> Prop;
  (** What no call changes. *)
  bl_ext (Hs : gset Z) (s s' : S) : Prop :=
    held (ctx s') = held (ctx s) /\ killed (ctx s') = killed (ctx s) /\ bl_lim s' = bl_lim s /\
    (forall b n, n ∈ Hs -> bl_holds s b n -> bl_holds s' b n) /\ (forall n, bl_logged s n -> bl_logged s' n);
  bl_wp_bread s V Hs U r n : bl_rep s V Hs U r -> 0 <= n < bl_lim s -> n ∉ Hs -> (size Hs <= 1)%nat ->
    wp (bl_bread ROOTDEV n) (fun b s' => bl_rep s' V ({[n]} ∪ Hs) U r /\ bl_holds s' b n /\ bl_ext Hs s s') s;
  bl_wp_data s V Hs U r b n : bl_rep s V Hs U r -> bl_holds s b n -> n ∈ Hs ->
    wp (bl_data b) (fun d s' => d = V n /\ s' = s) s;
  bl_wp_set s V Hs U r b n d : bl_rep s V Hs U r -> bl_holds s b n -> n ∈ Hs -> length d = BSIZE ->
    wp (bl_set b d) (fun _ s' => bl_rep s' (<[n := d]> V) Hs ({[n]} ∪ U) r /\ bl_ext Hs s s') s;
  (** A block that is in the log already takes no further room. *)
  bl_wp_log_write s V Hs U r r' b n :
    bl_rep s V Hs U (Datatypes.S r) -> bl_holds s b n -> n ∈ Hs -> n <> 1 ->
    r' = r \/ r' = Datatypes.S r /\ bl_logged s n ->
    wp (bl_log_write b) (fun _ s' => bl_rep s' V Hs (U ∖ {[n]}) r' /\ bl_ext Hs s s' /\ bl_logged s' n) s;
  bl_wp_brelse s V Hs U r b n : bl_rep s V Hs U r -> bl_holds s b n -> n ∈ Hs -> n ∉ U ->
    wp (bl_brelse b) (fun _ s' => bl_rep s' V (Hs ∖ {[n]}) U r /\ bl_ext Hs s s') s;
  bl_len s V Hs U r n : bl_rep s V Hs U r -> 0 <= n < bl_lim s -> length (V n) = BSIZE;
  bl_room s V Hs U r r' : bl_rep s V Hs U r -> (r' <= r)%nat -> bl_rep s V Hs U r';
  (** Wakeups issued above the layer do not matter to it. *)
  bl_woken s V Hs U r w : bl_rep s V Hs U r ->
    let s' := with_ctx (mkctx (held (ctx s)) w (killed (ctx s))) s in bl_rep s' V Hs U r /\ bl_ext Hs s s' }.

(** ** The log is such a layer *)

#[export] Instance log_layer : BlockLayer logst := {|
  bl_bread dv n := bio (bread dv n);
  bl_data b := bio (buf_data b);
  bl_set b d := bio (set_data b d);
  bl_log_write := log_write;
  bl_brelse b := bio (brelse b) |}.

Module LogLaws.

Record lrep (s : logst) (V : Z -> list Z) (Hs U : gset Z) (r : nat) : Prop := {
  lr_ok : log_ok s V Hs;
  lr_sub : U ⊆ Hs;
  lr_clean : forall n, n ∈ Hs -> n ∉ U -> n ∈ logged (lg s) \/ disk (lb s) !! Z.to_nat n = Some (V n);
  lr_out : 1 <= outstanding (lg s);
  lr_size : lsize (lg s) <= LOGSIZE;
  lr_room : lh_n (lg s) + Z.of_nat r <= lsize (lg s) - 1;
  lr_bufs : lh_n (lg s) + Z.of_nat r <= 27 }.

Definition lext (Hs : gset Z) (s s' : logst) : Prop :=
  held (ctx s') = held (ctx s) /\ killed (ctx s') = killed (ctx s) /\ lstart (lg s') = lstart (lg s) /\
  (forall b n, n ∈ Hs -> owned (lb s) b n -> owned (lb s') b n) /\
  (forall n, n ∈ logged (lg s) -> n ∈ logged (lg s')).

Lemma lrep_range s V Hs U r n : lrep s V Hs U r -> 0 <= n < lstart (lg s) -> 0 <= n < Z.of_nat (length (disk (lb s))).
Proof. intros R Hn. pose proof (lo_geom _ _ _ (lr_ok _ _ _ _ _ R)) as [G1 G2 G3 G4 G5]. lia. Qed.

Lemma l_bread s V Hs U r n :
  lrep s V Hs U r -> 0 <= n < lstart (lg s) -> n ∉ Hs -> (size Hs <= 1)%nat ->
  wp (bl_bread ROOTDEV n) (fun b s' => lrep s' V ({[n]} ∪ Hs) U r /\ owned (lb s') b n /\ lext Hs s s') s.
Proof.
  intros R Hn HnH Hsz. pose proof (lrep_range _ _ _ _ _ _ R Hn) as Hr. destruct R as [L R2 R3 R4 R5 R6 R7].
  pose proof L as [L1 L2 L3 L4 L5 L6 L7 L8 L9]. apply wp_bio.
  eapply wp_bread; [exact L3|exact HnH|exact Hr| |].
  { right. pose proof (length_logged _ L2) as Hll.
    assert (size (list_to_set (logged (lg s)) ∪ Hs : gset Z) <= size (list_to_set (logged (lg s)) : gset Z) + size Hs)%nat
      by (rewrite size_union_alt; pose proof (subseteq_size (Hs ∖ list_to_set (logged (lg s))) Hs ltac:(set_solver)); lia).
    rewrite size_list_to_set in H by done. destruct L2. unfold NBUF. lia. }
  intros b bs' s1 R1 O1 F1. split; [|split; [exact O1|]].
  - constructor; try done.
    + eapply log_ok_bst; [exact L|exact R1|done|done|exact L7|].
      intros m Hm. apply elem_of_union in Hm as [Hm|Hm]; [apply elem_of_singleton in Hm as ->; lia|by apply L8].
    + set_solver.
    + intros m Hm HmU. apply elem_of_union in Hm as [Hm|Hm]; [|by apply R3].
      apply elem_of_singleton in Hm as ->. cbn [lg].
      destruct (decide (n ∈ logged (lg s))) as [Hl|Hl]; [by left|right].
      apply (rep_disk _ _ _ _ L3); [exact Hr|by rewrite elem_of_list_to_set|exact HnH].
  - split_and!; try done. intros c m Hm Hc. apply F1; [set_solver|exact Hc].
Qed.

Lemma l_set s V Hs U r b n d :
  lrep s V Hs U r -> owned (lb s) b n -> n ∈ Hs -> length d = BSIZE ->
  wp (bl_set b d) (fun _ s' => lrep s' (<[n := d]> V) Hs ({[n]} ∪ U) r /\ lext Hs s s') s.
Proof.
  intros [L R2 R3 R4 R5 R6 R7] O Hn Hd. pose proof L as [L1 L2 L3 L4 L5 L6 L7 L8 L9]. apply wp_bio.
  eapply wp_set_data; [exact L3|exact O|exact Hn|]. intros bs' s1 R1 F1. split.
  - constructor; try done.
    + eapply log_ok_bst; [exact L|exact R1|done|done|by apply insert_len|exact L8].
    + set_solver.
    + intros m Hm HmU. assert (m <> n) by set_solver. rewrite fn_lookup_insert_ne by done.
      apply R3; [exact Hm|set_solver].
  - split_and!; try done. intros c m Hm Hc. by apply F1.
Qed.

Lemma l_log_write s V Hs U r r' b n :
  lrep s V Hs U (S r) -> owned (lb s) b n -> n ∈ Hs -> 0 <= n -> n <> 1 ->
  r' = r \/ r' = S r /\ n ∈ logged (lg s) ->
  wp (bl_log_write b) (fun _ s' => lrep s' V Hs (U ∖ {[n]}) r' /\ lext Hs s s' /\ n ∈ logged (lg s')) s.
Proof.
  intros [L R2 R3 R4 R5 R6 R7] O Hn H0 H1 Hr'. pose proof L as [L1 L2 L3 L4 L5 L6 L7 L8 L9].
  assert (home (lg s) n) as Hh by (split; [split; [done|by apply L8]|done]).
  eapply (wp_log_write s V Hs b n); [exact L|exact O|exact Hn|exact Hh|exact R4|exact R5|lia|].
  intros bs' s1 L' F'. pose proof (log_add_keeps (lg s) n) as (K1 & K2 & K3).
  destruct (log_add_fits (lg s) n) as (_ & B1 & B2 & _ & B4); [exact L2|exact Hh|unfold NBUF; lia|lia|].
  assert (lh_n (log_add (lg s) n) + Z.of_nat r' <= lh_n (lg s) + Z.of_nat (S r)) as Hroom.
  { destruct Hr' as [->|[-> Hin]]; [lia|]. unfold log_add. rewrite decide_True by done. done. }
  split; [constructor; cbn [lg lb s1]|].
  - exact L'.
  - set_solver.
  - intros m Hm HmU. destruct (decide (m = n)) as [->|Hne].
    + left. rewrite B4. case_decide; set_solver.
    + destruct (R3 m Hm) as [Hl|Hl]; [set_solver| |by right]. left. rewrite B4. case_decide; set_solver.
  - by rewrite K1.
  - by rewrite B2.
  - rewrite B2. lia.
  - lia.
  - cbn [lg lb s1]. split; [split_and!; try done|].
    + intros c m Hm Hc. by apply F'.
    + intros m Hm. change (m ∈ logged (log_add (lg s) n)). rewrite B4. case_decide; set_solver.
    + change (n ∈ logged (log_add (lg s) n)). rewrite B4. case_decide; set_solver.
Qed.

Lemma l_brelse s V Hs U r b n :
  lrep s V Hs U r -> owned (lb s) b n -> n ∈ Hs -> n ∉ U ->
  wp (bl_brelse b) (fun _ s' => lrep s' V (Hs ∖ {[n]}) U r /\ lext Hs s s') s.
Proof.
  intros [L R2 R3 R4 R5 R6 R7] O Hn HnU. pose proof L as [L1 L2 L3 L4 L5 L6 L7 L8 L9]. apply wp_bio.
  eapply wp_brelse; [exact L3|exact O|exact Hn| |].
  { destruct (R3 n Hn HnU) as [Hl|Hl]; [left; by rewrite elem_of_list_to_set|by right]. }
  intros bs' s1 R1 F1. split.
  - constructor; try done.
    + eapply log_ok_bst; [exact L|exact R1|done|done|exact L7|]. intros m Hm. apply L8. set_solver.
    + set_solver.
    + intros m Hm HmU. apply R3; [set_solver|exact HmU].
  - split_and!; try done. intros c m Hm Hc. by apply F1.
Qed.
End LogLaws.

#[export] Program Instance log_laws : BlockLaws logst := {|
  bl_rep := LogLaws.lrep;
  bl_lim s := lstart (lg s);
  bl_holds s b n := owned (lb s) b n;
  bl_logged s n := n ∈ logged (lg s) |}.
Next Obligation. intros. by apply LogLaws.l_bread. Qed.
Next Obligation.
  intros s V Hs U r b n R O Hn. apply wp_bio.
  eapply wp_buf_data; [apply (lo_rep _ _ _ (LogLaws.lr_ok _ _ _ _ _ R))|exact O|]. by destruct s.
Qed.
Next Obligation. intros. by apply LogLaws.l_set. Qed.
Next Obligation.
  intros s V Hs U r r' b n R O Hn H1 Hr'. eapply LogLaws.l_log_write; try done.
  destruct (rep_owned_buf _ _ _ _ _ _ (lo_rep _ _ _ (LogLaws.lr_ok _ _ _ _ _ R)) O) as (x & _ & _ & _ & _ & Hr & _).
  lia.
Qed.
Next Obligation. intros. by apply LogLaws.l_brelse. Qed.
Next Obligation.
  intros s V Hs U r n R Hn. apply (lo_view _ _ _ (LogLaws.lr_ok _ _ _ _ _ R)). by eapply LogLaws.lrep_range.
Qed.
Next Obligation. intros s V Hs U r r' [R1 R2 R3 R4 R5 R6 R7] Hr. constructor; try done; lia. Qed.
Next Obligation.
  intros s V Hs U r w [R1 R2 R3 R4 R5 R6 R7]. split; [|done]. constructor; try done. by apply log_ok_ctx.
Qed.

(** ** readsb, bzero, balloc and bfree *)

Section Ops.
Context {S : Type} `{BlockLayer S}.

Definition readsb (dev : Z) : M S superblock :=
  bp <- bl_bread dev 1 ;;
  d <- bl_data bp ;;
  bl_brelse bp ;;
  ret (sb_of d).

Definition bzero (dev bno : Z) : M S unit :=
  bp <- bl_bread dev bno ;;
  bl_set bp (replicate BSIZE 0) ;;
  bl_log_write bp ;;
  bl_brelse bp.

(** data[bi/8] and the mask of bit bi. *)
Definition bit_mask (bi : nat) : Z := Z.shiftl 1 (Z.of_nat (bi mod 8)).

(** The inner loop of balloc over the bits of a block of the bitmap, [k] bits from bit
    [bi] on: the first that is clear. *)
Fixpoint find_clear (d : list Z) (k bi : nat) : M S (option nat) :=
  match k with
  | O => ret None
  | Datatypes.S k =>
      x <- lift_opt (d !! (bi / 8)%nat) ;;
      if Z.land x (bit_mask bi) =? 0 then ret (Some bi) else find_clear d k (1 + bi)
  end.

(** The outer loop, [b] going up by BPB. *)
Fixpoint balloc_loop (fuel : nat) (dev b : Z) (sb : superblock) : M S Z :=
  match fuel with
  | O => out_of_fuel
  | Datatypes.S fuel =>
      if b <? sb_size sb then
        bp <- bl_bread dev (BBLOCK b (sb_ninodes sb)) ;;
        d <- bl_data bp ;;
        o <- find_clear d (Z.to_nat (Z.min BPB (sb_size sb - b))) 0 ;;
        match o with
        | Some bi =>
            x <- lift_opt (d !! (bi / 8)%nat) ;;
            bl_set bp (<[(bi / 8)%nat := Z.lor x (bit_mask bi)]> d) ;;
            bl_log_write bp ;;
            bl_brelse bp ;;
            bzero dev (b + Z.of_nat bi) ;;
            ret (b + Z.of_nat bi)
        | None =>
            bl_brelse bp ;;
            balloc_loop fuel dev (b + BPB) sb
        end
      else panic "balloc: out of blocks"
  end.

Definition balloc (dev : Z) : M S Z :=
  sb <- readsb dev ;;
  balloc_loop (1 + Z.to_nat (sb_size sb / BPB + 1)) dev 0 sb.

Definition bfree (dev b : Z) : M S unit :=
  sb <- readsb dev ;;
  bp <- bl_bread dev (BBLOCK b (sb_ninodes sb)) ;;
  let bi := Z.to_nat (b mod BPB) in
  d <- bl_data bp ;;
  x <- lift_opt (d !! (bi / 8)%nat) ;;
  if Z.land x (bit_mask bi) =? 0 then panic "freeing free block" else
  bl_set bp (<[(bi / 8)%nat := Z.ldiff x (bit_mask bi)]> d) ;;
  bl_log_write bp ;;
  bl_brelse bp.
End Ops.

(** ** Rules for a block that is read, and for one that is rewritten *)

Section Rules.
Context {S : Type} `{HasCtx S} `{!BlockLayer S} `{!BlockLaws S}.
Implicit Types (s : S) (V : Z -> list Z) (Hs : gset Z).

Lemma bl_ext_refl Hs s : bl_ext Hs s s.
Proof. split_and!; done. Qed.

Lemma bl_ext_trans Hs Hs' s1 s2 s3 : bl_ext Hs s1 s2 -> bl_ext Hs' s2 s3 -> Hs ⊆ Hs' -> bl_ext Hs s1 s3.
Proof.
  intros (A1 & A2 & A3 & A4 & A5) (B1 & B2 & B3 & B4 & B5) Hsub. split_and!; try congruence.
  - intros b n Hn Hb. apply B4; [by apply Hsub|by apply A4].
  - intros n Hn. by apply B5, A5.
Qed.

Lemma bl_ext_lim Hs s s' : bl_ext Hs s s' -> bl_lim s' = bl_lim s.
Proof. by intros (_ & _ & ? & _). Qed.

(** bp = bread(dev, n); ... bp->data ... *)
Lemma wp_open {A} s V Hs r n (k : nat -> list Z -> M S A) (Q : A -> S -> Prop) :
  bl_rep s V Hs ∅ r -> 0 <= n < bl_lim s -> n ∉ Hs -> (size Hs <= 1)%nat ->
  (forall b s', bl_rep s' V ({[n]} ∪ Hs) ∅ r -> bl_holds s' b n -> bl_ext Hs s s' -> wp (k b (V n)) Q s') ->
  wp (b <- bl_bread ROOTDEV n ;; d <- bl_data b ;; k b d) Q s.
Proof.
  intros R Hn HnH Hsz HQ. apply wp_bind.
  eapply wp_mono; [by eapply bl_wp_bread|]. intros b s1 (R1 & O1 & E1). apply wp_bind.
  eapply wp_mono; [eapply bl_wp_data; [exact R1|exact O1|set_solver]|]. intros d s2 [-> ->]. by apply HQ.
Qed.

(** brelse(bp), unchanged. *)
Lemma wp_close s V Hs r b n (Q : unit -> S -> Prop) :
  bl_rep s V ({[n]} ∪ Hs) ∅ r -> bl_holds s b n -> n ∉ Hs ->
  (forall s', bl_rep s' V Hs ∅ r -> bl_ext Hs s s' -> Q tt s') -> wp (bl_brelse b) Q s.
Proof.
  intros R O HnH HQ. eapply wp_mono; [eapply bl_wp_brelse; [exact R|exact O|set_solver|set_solver]|].
  intros [] s' (R' & E'). apply HQ.
  - by replace (({[n]} ∪ Hs) ∖ {[n]}) with Hs in R' by set_solver.
  - eapply bl_ext_trans; [apply bl_ext_refl|exact E'|set_solver].
Qed.

(** modify bp->data; log_write(bp); brelse(bp). *)
Lemma wp_store_back {A} s V Hs r r' b n d (k : M S A) (Q : A -> S -> Prop) :
  bl_rep s V ({[n]} ∪ Hs) ∅ (Datatypes.S r) -> bl_holds s b n -> n ∉ Hs -> n <> 1 -> length d = BSIZE ->
  r' = r \/ r' = Datatypes.S r /\ bl_logged s n ->
  (forall s', bl_rep s' (<[n := d]> V) Hs ∅ r' -> bl_ext Hs s s' -> bl_logged s' n -> wp k Q s') ->
  wp (bl_set b d ;; bl_log_write b ;; bl_brelse b ;; k) Q s.
Proof.
  intros R O HnH Hn1 Hd Hr HQ. apply wp_bind. eapply wp_mono; [eapply bl_wp_set; [exact R|exact O|set_solver|done]|].
  intros [] s1 (R1 & E1). assert (bl_holds s1 b n) as O1 by (apply E1; [set_solver|done]). apply wp_bind.
  assert (r' = r \/ r' = Datatypes.S r /\ bl_logged s1 n) as Hr1.
  { destruct Hr as [?|[? Hl]]; [by left|right]. split; [done|by apply E1]. }
  eapply wp_mono; [eapply bl_wp_log_write; [exact R1|exact O1|set_solver|done|exact Hr1]|].
  intros [] s2 (R2 & E2 & L2). assert (bl_holds s2 b n) as O2 by (apply E2; [set_solver|done]). apply wp_bind.
  replace (({[n]} ∪ ∅) ∖ {[n]} : gset Z) with (∅ : gset Z) in R2 by set_solver.
  eapply wp_close; [exact R2|exact O2|done|]. intros s3 R3 E3. apply HQ; [exact R3| |by apply E3].
  eapply bl_ext_trans; [eapply bl_ext_trans; [|exact E2|]|exact E3|]; [|set_solver|set_solver].
  eapply bl_ext_trans; [apply bl_ext_refl|exact E1|set_solver].
Qed.

Lemma wp_write_back {A} s V Hs r b n d (k : M S A) (Q : A -> S -> Prop) :
  bl_rep s V ({[n]} ∪ Hs) ∅ (Datatypes.S r) -> bl_holds s b n -> n ∉ Hs -> n <> 1 -> length d = BSIZE ->
  (forall s', bl_rep s' (<[n := d]> V) Hs ∅ r -> bl_ext Hs s s' -> wp k Q s') ->
  wp (bl_set b d ;; bl_log_write b ;; bl_brelse b ;; k) Q s.
Proof. intros R O HnH Hn1 Hd HQ. eapply wp_store_back; try done; [by left|]. intros s' R' E' _. by apply HQ. Qed.

Lemma wp_bind_ret {A} (m : M S A) Q s : wp (bind m ret) Q s -> wp m Q s.
Proof. unfold wp, bind, ret. by destruct (m s). Qed.

Lemma wp_store_back_last s V Hs r r' b n d (Q : unit -> S -> Prop) :
  bl_rep s V ({[n]} ∪ Hs) ∅ (Datatypes.S r) -> bl_holds s b n -> n ∉ Hs -> n <> 1 -> length d = BSIZE ->
  r' = r \/ r' = Datatypes.S r /\ bl_logged s n ->
  (forall s', bl_rep s' (<[n := d]> V) Hs ∅ r' -> bl_ext Hs s s' -> bl_logged s' n -> Q tt s') ->
  wp (bl_set b d ;; bl_log_write b ;; bl_brelse b) Q s.
Proof.
  intros R O HnH Hn1 Hd Hr HQ.
  assert (wp (bl_set b d ;; bl_log_write b ;; bl_brelse b ;; ret tt) Q s) as Hw
    by (by eapply wp_store_back).
  unfold wp, bind in *. destruct (bl_set b d s); try done. destruct (bl_log_write b s0); try done.
  destruct (bl_brelse b s1) as [[] ?| | | |]; done.
Qed.

Lemma wp_write_back_last s V Hs r b n d (Q : unit -> S -> Prop) :
  bl_rep s V ({[n]} ∪ Hs) ∅ (Datatypes.S r) -> bl_holds s b n -> n ∉ Hs -> n <> 1 -> length d = BSIZE ->
  (forall s', bl_rep s' (<[n := d]> V) Hs ∅ r -> bl_ext Hs s s' -> Q tt s') ->
  wp (bl_set b d ;; bl_log_write b ;; bl_brelse b) Q s.
Proof. intros R O HnH Hn1 Hd HQ. eapply wp_store_back_last; try done; [by left|]. intros s' R' E' _. by apply HQ. Qed.

Lemma wp_read_sb s V Hs r (Q : superblock -> S -> Prop) :
  bl_rep s V Hs ∅ r -> 1 < bl_lim s -> 1 ∉ Hs -> (size Hs <= 1)%nat ->
  (forall s', bl_rep s' V Hs ∅ r -> bl_ext Hs s s' -> Q (sb_of (V 1)) s') ->
  wp (readsb ROOTDEV) Q s.
Proof.
  intros R Hl H1 Hsz HQ. unfold readsb. eapply wp_open; [exact R|lia|done|done|].
  intros b s1 R1 O1 E1. wp_steps. eapply wp_close; [exact R1|exact O1|done|]. intros s2 R2 E2. wp_steps.
  apply HQ; [exact R2|]. by eapply bl_ext_trans.
Qed.

Lemma wp_bzero s V Hs r n (Q : unit -> S -> Prop) :
  bl_rep s V Hs ∅ (Datatypes.S r) -> 0 <= n < bl_lim s -> n <> 1 -> n ∉ Hs -> (size Hs <= 1)%nat ->
  (forall s', bl_rep s' (<[n := replicate BSIZE 0]> V) Hs ∅ r -> bl_ext Hs s s' -> Q tt s') ->
  wp (bzero ROOTDEV n) Q s.
Proof.
  intros R Hn Hn1 HnH Hsz HQ. unfold bzero. apply wp_bind.
  eapply wp_mono; [by eapply bl_wp_bread|]. intros b s1 (R1 & O1 & E1).
  eapply wp_write_back_last; [exact R1|exact O1|done|done|apply length_replicate|].
  intros s2 R2 E2. apply HQ; [exact R2|]. by eapply bl_ext_trans.
Qed.
End Rules.

(** ** The free bitmap *)

(** Bit [bi] of a block of the bitmap. *)
Definition bit (d : list Z) (bi : nat) : bool :=
  Z.testbit (default 0 (d !! (bi / 8)%nat)) (Z.of_nat (bi mod 8)).

Definition set_bit (d : list Z) (bi : nat) : list Z :=
  alter (fun x => Z.lor x (bit_mask bi)) (bi / 8)%nat d.
Definition clear_bit (d : list Z) (bi : nat) : list Z :=
  alter (fun x => Z.ldiff x (bit_mask bi)) (bi / 8)%nat d.

Lemma bit_mask_test x bi : (Z.land x (bit_mask bi) =? 0) = negb (Z.testbit x (Z.of_nat (bi mod 8))).
Proof.
  unfold bit_mask. set (k := Z.of_nat (bi mod 8)). assert (0 <= k) by lia.
  rewrite Z.shiftl_mul_pow2, Z.mul_1_l by done.
  destruct (Z.testbit x k) eqn:E; simpl; [apply Z.eqb_neq|apply Z.eqb_eq].
  - intros E0. apply (f_equal (fun y => Z.testbit y k)) in E0.
    rewrite Z.land_spec, E, Z.pow2_bits_true, Z.bits_0 in E0 by done. done.
  - apply Z.bits_inj'. intros i Hi. rewrite Z.land_spec, Z.pow2_bits_eqb, Z.bits_0 by done.
    destruct (Z.eqb_spec k i) as [<-|]; [by rewrite E|by rewrite andb_false_r].
Qed.

Lemma testbit_mask bi i : Z.testbit (bit_mask bi) (Z.of_nat i) = bool_decide ((bi mod 8)%nat = i).
Proof.
  unfold bit_mask. rewrite Z.shiftl_mul_pow2, Z.mul_1_l, Z.pow2_bits_eqb by lia.
  case_bool_decide; [apply Z.eqb_eq|apply Z.eqb_neq]; lia.
Qed.

Lemma same_bit bi bi' : (bi / 8)%nat = (bi' / 8)%nat -> (bi mod 8)%nat = (bi' mod 8)%nat -> bi = bi'.
Proof. intros E1 E2. rewrite (Nat.div_mod bi 8), (Nat.div_mod bi' 8) by lia. congruence. Qed.

Lemma bit_alter f d bi bi' :
  (bi / 8 < length d)%nat ->
  bit (alter f (bi / 8)%nat d) bi' =
    if decide ((bi' / 8)%nat = (bi / 8)%nat)
    then Z.testbit (f (default 0 (d !! (bi / 8)%nat))) (Z.of_nat (bi' mod 8)) else bit d bi'.
Proof.
  intros Hl. unfold bit. destruct (lookup_lt_is_Some_2 d _ Hl) as [x Hx].
  case_decide as Hd; [rewrite Hd, list_lookup_alter_eq, Hx; done|by rewrite list_lookup_alter_ne].
Qed.

Lemma bit_set d bi bi' : (bi / 8 < length d)%nat -> bit (set_bit d bi) bi' = bool_decide (bi = bi') || bit d bi'.
Proof.
  intros Hl. unfold set_bit. rewrite bit_alter by done. unfold bit. case_decide as Hd.
  - rewrite Hd, Z.lor_spec, testbit_mask, orb_comm. f_equal.
    apply bool_decide_ext. split; [intros; by apply same_bit|by intros ->].
  - rewrite bool_decide_eq_false_2; [done|]. by intros ->.
Qed.

Lemma bit_clear d bi bi' : (bi / 8 < length d)%nat -> bit (clear_bit d bi) bi' = negb (bool_decide (bi = bi')) && bit d bi'.
Proof.
  intros Hl. unfold clear_bit. rewrite bit_alter by done. unfold bit. case_decide as Hd.
  - rewrite Hd, Z.ldiff_spec, testbit_mask, andb_comm. f_equal. f_equal.
    apply bool_decide_ext. split; [intros; by apply same_bit|by intros ->].
  - rewrite bool_decide_eq_false_2; [done|]. by intros ->.
Qed.

Lemma clear_set_bit d bi :
  Forall (fun x => 0 <= x) d -> bit d bi = false -> clear_bit (set_bit d bi) bi = d.
Proof.
  intros Hd Hb. unfold clear_bit, set_bit. apply list_eq. intros i.
  destruct (decide (i = (bi / 8)%nat)) as [->|Hne]; [|by rewrite !list_lookup_alter_ne].
  rewrite !list_lookup_alter_eq. unfold bit in Hb. destruct (d !! (bi / 8)%nat) as [x|]; [|done].
  cbn [fmap option_fmap option_map from_option id] in *. f_equal. apply Z.bits_inj'. intros j Hj. rewrite Z.ldiff_spec, Z.lor_spec.
  replace j with (Z.of_nat (Z.to_nat j)) by lia. rewrite testbit_mask. case_bool_decide as Hm.
  - rewrite <- Hm, Hb. by rewrite andb_false_r.
  - by rewrite orb_false_r, andb_true_r.
Qed.

(** The bit of block [b] in the bitmap of the file system [sb]. *)
Definition bit_of (b : Z) : nat := Z.to_nat (b mod BPB).
Definition used (V : Z -> list Z) (sb : superblock) (b : Z) : bool :=
  bit (V (BBLOCK b (sb_ninodes sb))) (bit_of b).

(** The contents after balloc took [b], and after bfree of [b]. *)
Definition taken (V : Z -> list Z) (sb : superblock) (b : Z) : Z -> list Z :=
  let n := BBLOCK b (sb_ninodes sb) in
  <[b := replicate BSIZE 0]> (<[n := set_bit (V n) (bit_of b)]> V).
Definition given_back (V : Z -> list Z) (sb : superblock) (b : Z) : Z -> list Z :=
  let n := BBLOCK b (sb_ninodes sb) in <[n := clear_bit (V n) (bit_of b)]> V.

Lemma BBLOCK_same b b' ni : BBLOCK b ni = BBLOCK b' ni <-> b / BPB = b' / BPB.
Proof. unfold BBLOCK. lia. Qed.

Lemma bit_of_inj b b' : 0 <= b -> 0 <= b' -> b / BPB = b' / BPB -> bit_of b = bit_of b' -> b = b'.
Proof.
  unfold bit_of, BPB. intros. pose proof (Z.mod_pos_bound b 4096). pose proof (Z.mod_pos_bound b' 4096).
  pose proof (Z.div_mod b 4096). pose proof (Z.div_mod b' 4096). lia.
Qed.

Lemma bit_of_lt b : (bit_of b < 4096)%nat.
Proof. unfold bit_of, BPB. pose proof (Z.mod_pos_bound b 4096). lia. Qed.

Lemma bit_of_byte b (d : list Z) : length d = BSIZE -> (bit_of b / 8 < length d)%nat.
Proof. intros ->. pose proof (bit_of_lt b). apply Nat.Div0.div_lt_upper_bound. unfold BSIZE. lia. Qed.

(** Bitmap blocks are not data blocks: the block taken is not one of them. *)
Lemma used_taken V sb b b' :
  0 <= b -> 0 <= b' -> length (V (BBLOCK b (sb_ninodes sb))) = BSIZE -> b <> BBLOCK b' (sb_ninodes sb) ->
  used (taken V sb b) sb b' = bool_decide (b = b') || used V sb b'.
Proof.
  intros Hb Hb' Hl Hne. unfold used, taken. rewrite fn_lookup_insert_ne by done.
  destruct (decide (BBLOCK b (sb_ninodes sb) = BBLOCK b' (sb_ninodes sb))) as [E|E].
  - rewrite E, fn_lookup_insert, bit_set by (apply bit_of_byte; by rewrite <- E). f_equal.
    apply bool_decide_ext. split; [|by intros ->].
    intros Hi. apply bit_of_inj; try done. by apply BBLOCK_same in E.
  - rewrite fn_lookup_insert_ne by done. rewrite bool_decide_eq_false_2; [done|]. by intros ->.
Qed.

Lemma used_given_back V sb b b' :
  0 <= b -> 0 <= b' -> length (V (BBLOCK b (sb_ninodes sb))) = BSIZE ->
  used (given_back V sb b) sb b' = negb (bool_decide (b = b')) && used V sb b'.
Proof.
  intros Hb Hb' Hl. unfold used, given_back.
  destruct (decide (BBLOCK b (sb_ninodes sb) = BBLOCK b' (sb_ninodes sb))) as [E|E].
  - rewrite E, fn_lookup_insert, bit_clear by (apply bit_of_byte; by rewrite <- E). f_equal. f_equal.
    apply bool_decide_ext. split; [|by intros ->].
    intros Hi. apply bit_of_inj; try done. by apply BBLOCK_same in E.
  - rewrite fn_lookup_insert_ne by done. rewrite bool_decide_eq_false_2; [done|]. by intros ->.
Qed.

(** The first block after the super block, the inodes and the bitmap. *)
Definition data_start (sb : superblock) : Z := BBLOCK (sb_size sb - 1) (sb_ninodes sb) + 1.

(** The contents have the super block, and the bitmap marks the blocks that are not data. *)
Record fs_shape (V : Z -> list Z) (sb : superblock) (lim : Z) : Prop := {
  sh_sb : sb_of (V 1) = sb;
  sh_ninodes : 0 <= sb_ninodes sb;
  sh_size : 0 < sb_size sb < 2 ^ 31;
  sh_lim : data_start sb <= lim;
  sh_meta : forall b, 0 <= b < data_start sb -> used V sb b = true }.

(** Blocks held across an allocation are data blocks in use. *)
Definition held_data (V : Z -> list Z) (sb : superblock) (Hs : gset Z) : Prop :=
  forall n, n ∈ Hs -> data_start sb <= n /\ used V sb n = true.

Lemma BBLOCK_data V sb lim b :
  fs_shape V sb lim -> 0 <= b < sb_size sb -> 3 <= BBLOCK b (sb_ninodes sb) < data_start sb.
Proof.
  intros [_ Hn _ _ _] Hb. unfold data_start, BBLOCK, IPB, BPB.
  pose proof (Z.div_pos b 4096). pose proof (Z.div_pos (sb_ninodes sb) 8).
  pose proof (Z.div_le_mono b (sb_size sb - 1) 4096). lia.
Qed.

Lemma data_start_pos V sb lim : fs_shape V sb lim -> 4 <= data_start sb.
Proof. intros Sh. pose proof (BBLOCK_data _ _ _ 0 Sh). destruct Sh. lia. Qed.

Section Bitmap.
Context {S : Type} `{HasCtx S} `{!BlockLayer S} `{!BlockLaws S}.
Implicit Types (s : S) (V : Z -> list Z) (Hs : gset Z).

Lemma wp_find_clear (d : list Z) k bi j (Q : option nat -> S -> Prop) s :
  length d = BSIZE -> (bi + k <= 4096)%nat ->
  (forall i, (bi <= i < bi + k)%nat -> (i < j)%nat -> bit d i = true) ->
  ((bi <= j < bi + k)%nat /\ bit d j = false /\ Q (Some j) s) \/ ((bi + k <= j)%nat /\ Q None s) ->
  wp (find_clear d k bi) Q s.
Proof.
  intros Hl. revert bi. induction k as [|k IH]; intros bi Hk Hset HQ.
  - cbn [find_clear]. wp_steps. destruct HQ as [[? _]|[_ HQ]]; [lia|done].
  - cbn [find_clear]. assert (bi / 8 < length d)%nat as Hb.
    { rewrite Hl. apply Nat.Div0.div_lt_upper_bound. unfold BSIZE. lia. }
    destruct (lookup_lt_is_Some_2 d _ Hb) as [x Hx]. wp_steps. eapply wp_lift_opt; [exact Hx|].
    rewrite bit_mask_test. assert (Z.testbit x (Z.of_nat (bi mod 8)) = bit d bi) as -> by (unfold bit; by rewrite Hx).
    destruct (decide (bi = j)) as [->|Hne].
    + destruct HQ as [(Hj & -> & HQ)|[Hj _]]; [done|lia].
    + destruct (decide (bi < j)%nat) as [Hlt|Hge].
      * rewrite (Hset bi) by lia. cbn [negb]. apply IH; [lia|intros; apply Hset; lia|].
        destruct HQ as [(Hj & HQ)|[Hj HQ]]; [left; split; [lia|done]|right; split; [lia|done]].
      * destruct HQ as [(Hj & _)|[Hj _]]; lia.
Qed.

(** Position of a bit within the block of the bitmap that starts at [BPB * q]. *)
Lemma bit_in_block q i :
  0 <= q -> (i < 4096)%nat ->
  (BPB * q + Z.of_nat i) / BPB = q /\ bit_of (BPB * q + Z.of_nat i) = i.
Proof.
  intros Hq Hi. unfold BPB, bit_of.
  assert ((4096 * q + Z.of_nat i) / 4096 = q) as E by (rewrite Z.mul_comm, Z.div_add_l, Z.div_small; lia).
  split; [exact E|]. unfold BPB. rewrite Z.mod_eq, E by lia. lia.
Qed.

Lemma wp_balloc_loop fuel q s V Hs r sb b0 (Q : Z -> S -> Prop) :
  bl_rep s V Hs ∅ (2 + r) -> (size Hs <= 1)%nat -> fs_shape V sb (bl_lim s) -> held_data V sb Hs ->
  0 <= b0 < sb_size sb -> b0 < bl_lim s -> used V sb b0 = false ->
  (forall b, 0 <= b < b0 -> used V sb b = true) ->
  0 <= q -> BPB * q <= b0 -> b0 / BPB - q < Z.of_nat fuel ->
  (forall s', bl_rep s' (taken V sb b0) Hs ∅ r -> bl_ext Hs s s' -> Q b0 s') ->
  wp (balloc_loop fuel ROOTDEV (BPB * q) sb) Q s.
Proof.
  revert q s. induction fuel as [|fuel IH]; intros q s R Hsz Sh Hd Hb0 Hlim Hu Hbefore Hq Hle Hf HQ.
  { exfalso. unfold BPB in *. assert (q <= b0 / 4096) by (apply Z.div_le_lower_bound; lia). lia. }
  cbn [balloc_loop]. rewrite (proj2 (Z.ltb_lt _ _)) by lia.
  set (n := BBLOCK (BPB * q) (sb_ninodes sb)).
  assert (3 <= n < data_start sb) as Hn by (apply (BBLOCK_data V sb (bl_lim s)); [done|unfold BPB in *; lia]).
  assert (n ∉ Hs) as HnH by (intros Hn'; apply Hd in Hn'; lia).
  pose proof (sh_lim _ _ _ Sh) as Hsl.
  eapply wp_open; [exact R|lia|done|done|]. intros b s1 R1 O1 E1.
  assert (length (V n) = BSIZE) as Hlen by (eapply bl_len; [exact R|lia]).
  assert (forall i, (i < 4096)%nat -> used V sb (BPB * q + Z.of_nat i) = bit (V n) i) as Hbit.
  { intros i Hi. destruct (bit_in_block q i Hq Hi) as [E2 E3]. unfold used. rewrite E3. f_equal. f_equal.
    apply BBLOCK_same. unfold BPB in *. rewrite E2, Z.mul_comm, Z.div_mul; lia. }
  apply wp_bind. destruct (decide (b0 < BPB * q + 4096)) as [Hin|Hout].
  - set (j := Z.to_nat (b0 - BPB * q)).
    assert (b0 = BPB * q + Z.of_nat j) as Eb0 by (unfold j; lia).
    eapply (wp_find_clear _ _ _ j); [done|unfold BPB in *; lia| |left; split_and!].
    + intros i Hi Hij. rewrite <- Hbit by (unfold BPB in *; lia). apply Hbefore. unfold BPB in *. lia.
    + lia.
    + unfold BPB in *. lia.
    + rewrite <- Hbit by (unfold BPB in *; lia). by rewrite <- Eb0.
    + destruct (bit_in_block q j Hq ltac:(unfold BPB in *; lia)) as [E2 E3]. rewrite <- Eb0 in E2, E3.
      assert (BBLOCK b0 (sb_ninodes sb) = n) as En
        by (apply BBLOCK_same; rewrite E2; unfold BPB; rewrite Z.mul_comm, Z.div_mul; lia).
      assert (j / 8 < length (V n))%nat as Hj8 by (rewrite <- E3; by apply bit_of_byte).
      destruct (lookup_lt_is_Some_2 _ _ Hj8) as [x Hx]. apply wp_bind. eapply wp_lift_opt; [exact Hx|].
      assert (<[(j / 8)%nat := Z.lor x (bit_mask j)]> (V n) = set_bit (V n) (bit_of b0)) as ->.
      { rewrite E3. unfold set_bit. apply list_eq. intros i. destruct (decide (i = (j / 8)%nat)) as [->|].
        - rewrite list_lookup_insert_eq, list_lookup_alter_eq, Hx by done. done.
        - by rewrite list_lookup_insert_ne, list_lookup_alter_ne. }
      eapply wp_write_back; [exact R1|exact O1|done|lia|by unfold set_bit; rewrite length_alter|].
      intros s2 R2 E4. rewrite <- Eb0. apply wp_bind.
      assert (b0 ∉ Hs) as HbH by (intros Hb'; apply Hd in Hb' as [_ Hb']; congruence).
      assert (b0 <> 1).
      { intros ->. rewrite (sh_meta _ _ _ Sh 1) in Hu; [done|]. pose proof (data_start_pos _ _ _ Sh). lia. }
      assert (bl_ext Hs s s2) as E5 by (eapply bl_ext_trans; [exact E1|exact E4|done]).
      eapply wp_bzero; [exact R2|rewrite (bl_ext_lim _ _ _ E5); lia|done|done|done|].
      intros s3 R3 E6. wp_steps. apply HQ; [unfold taken; rewrite En; exact R3|by eapply bl_ext_trans].
  - eapply (wp_find_clear _ _ _ (Z.to_nat BPB)); [done|unfold BPB in *; lia| |right; split].
    + intros i Hi Hij. rewrite <- Hbit by (unfold BPB in *; lia). apply Hbefore. unfold BPB in *. lia.
    + unfold BPB in *. lia.
    + wp_steps. eapply wp_close; [exact R1|exact O1|done|]. intros s2 R2 E2.
      assert (bl_ext Hs s s2) as E3 by (by eapply bl_ext_trans).
      replace (BPB * q + BPB) with (BPB * (q + 1)) by lia.
      apply (IH (q + 1)); try done; rewrite ?(bl_ext_lim _ _ _ E3); try done; unfold BPB in *; try lia.
      intros s' R' E'. apply HQ; [exact R'|by eapply bl_ext_trans].
Qed.

Lemma wp_balloc s V Hs r sb b0 (Q : Z -> S -> Prop) :
  bl_rep s V Hs ∅ (2 + r) -> (size Hs <= 1)%nat -> fs_shape V sb (bl_lim s) -> held_data V sb Hs ->
  0 <= b0 < sb_size sb -> b0 < bl_lim s -> used V sb b0 = false ->
  (forall b, 0 <= b < b0 -> used V sb b = true) ->
  (forall s', bl_rep s' (taken V sb b0) Hs ∅ r -> bl_ext Hs s s' -> Q b0 s') ->
  wp (balloc ROOTDEV) Q s.
Proof.
  intros R Hsz Sh Hd Hb0 Hlim Hu Hbefore HQ. pose proof (data_start_pos _ _ _ Sh) as Hds.
  pose proof (sh_lim _ _ _ Sh) as Hsl. unfold balloc. wp_steps.
  eapply wp_read_sb; [exact R|lia|intros H1; apply Hd in H1; lia|done|]. intros s1 R1 E1.
  rewrite (sh_sb _ _ _ Sh). change 0 with (BPB * 0).
  eapply wp_balloc_loop; try done; rewrite ?(bl_ext_lim _ _ _ E1); try done; [lia| |].
  - unfold BPB. assert (b0 / 4096 <= sb_size sb / 4096) by (apply Z.div_le_mono; lia).
    assert (0 <= sb_size sb / 4096) by (apply Z.div_pos; lia). lia.
  - intros s' R' E'. apply HQ; [exact R'|by eapply bl_ext_trans].
Qed.

Lemma wp_bfree_log s V Hs r r' sb b0 (Q : unit -> S -> Prop) :
  bl_rep s V Hs ∅ (1 + r) -> (size Hs <= 1)%nat -> fs_shape V sb (bl_lim s) -> held_data V sb Hs ->
  0 <= b0 < sb_size sb -> used V sb b0 = true ->
  r' = r \/ r' = Datatypes.S r /\ bl_logged s (BBLOCK b0 (sb_ninodes sb)) ->
  (forall s', bl_rep s' (given_back V sb b0) Hs ∅ r' -> bl_ext Hs s s' -> bl_logged s' (BBLOCK b0 (sb_ninodes sb)) -> Q tt s') ->
  wp (bfree ROOTDEV b0) Q s.
Proof.
  intros R Hsz Sh Hd Hb0 Hu Hr HQ. pose proof (data_start_pos _ _ _ Sh) as Hds.
  pose proof (sh_lim _ _ _ Sh) as Hsl. unfold bfree. wp_steps.
  eapply wp_read_sb; [exact R|lia|intros H1; apply Hd in H1; lia|done|]. intros s1 R1 E1.
  rewrite (sh_sb _ _ _ Sh). pose proof (BBLOCK_data _ _ _ b0 Sh Hb0) as Hn.
  set (n := BBLOCK b0 (sb_ninodes sb)) in *.
  assert (n ∉ Hs) as HnH by (intros Hn'; apply Hd in Hn'; lia).
  eapply wp_open; [exact R1|rewrite (bl_ext_lim _ _ _ E1); lia|done|done|]. intros b s2 R2 O2 E2.
  assert (length (V n) = BSIZE) as Hlen by (eapply bl_len; [exact R|lia]).
  pose proof (bit_of_byte b0 (V n) Hlen) as Hj. destruct (lookup_lt_is_Some_2 _ _ Hj) as [x Hx].
  cbv zeta. change (Z.to_nat (b0 mod BPB)) with (bit_of b0). wp_steps. eapply wp_lift_opt; [exact Hx|].
  rewrite bit_mask_test.
  assert (Z.testbit x (Z.of_nat (bit_of b0 mod 8)) = true) as -> by (unfold used, bit in Hu; fold n in Hu; by rewrite Hx in Hu).
  cbn [negb].
  assert (<[(bit_of b0 / 8)%nat := Z.ldiff x (bit_mask (bit_of b0))]> (V n) = clear_bit (V n) (bit_of b0)) as ->.
  { unfold clear_bit. apply list_eq. intros i. destruct (decide (i = (bit_of b0 / 8)%nat)) as [->|].
    - rewrite list_lookup_insert_eq, list_lookup_alter_eq, Hx by done. done.
    - by rewrite list_lookup_insert_ne, list_lookup_alter_ne. }
  assert (r' = r \/ r' = Datatypes.S r /\ bl_logged s2 n) as Hr2.
  { destruct Hr as [?|[? Hl]]; [by left|right]. split; [done|by apply E2, E1]. }
  eapply wp_store_back_last; [exact R2|exact O2|done|lia|by unfold clear_bit; rewrite length_alter|exact Hr2|].
  intros s3 R3 E3 L3. apply HQ; [exact R3| |exact L3].
  eapply bl_ext_trans; [exact E1|eapply bl_ext_trans; [exact E2|exact E3|done]|done].
Qed.

Lemma wp_bfree s V Hs r sb b0 (Q : unit -> S -> Prop) :
  bl_rep s V Hs ∅ (1 + r) -> (size Hs <= 1)%nat -> fs_shape V sb (bl_lim s) -> held_data V sb Hs ->
  0 <= b0 < sb_size sb -> used V sb b0 = true ->
  (forall s', bl_rep s' (given_back V sb b0) Hs ∅ r -> bl_ext Hs s s' -> Q tt s') ->
  wp (bfree ROOTDEV b0) Q s.
Proof. intros R Hsz Sh Hd Hb0 Hu HQ. eapply wp_bfree_log; try done; [by left|]. intros s' R' E' _. by apply HQ. Qed.

Lemma taken_shape V sb lim b :
  fs_shape V sb lim -> 0 <= b < sb_size sb -> used V sb b = false ->
  length (V (BBLOCK b (sb_ninodes sb))) = BSIZE -> fs_shape (taken V sb b) sb lim.
Proof.
  intros Sh Hb Hu Hl. pose proof (data_start_pos _ _ _ Sh) as Hds. pose proof (BBLOCK_data _ _ _ b Sh Hb) as Hn.
  assert (data_start sb <= b) as Hdb.
  { destruct (Z.lt_ge_cases b (data_start sb)) as [Hlt|]; [|done].
    rewrite (sh_meta _ _ _ Sh b) in Hu; [done|lia]. }
  pose proof Sh as [S1 S2 S3 S4 S5]. constructor; try done.
  - unfold taken. by rewrite !fn_lookup_insert_ne by lia.
  - intros c Hc. destruct (Z.lt_ge_cases c (sb_size sb)) as [Hlt|Hge].
    + rewrite used_taken by (try done; try lia; pose proof (BBLOCK_data _ _ _ c Sh); lia).
      by rewrite (S5 c Hc), orb_true_r.
    + exfalso. pose proof (BBLOCK_data _ _ _ b Sh Hb). lia.
Qed.
End Bitmap.

(** begin_op on a quiet file system opens a transaction. *)
Lemma begin_transaction s V :
  quiet s -> V = disk_view (disk (lb s)) -> 28 <= lsize (lg s) ->
  exists s', begin_op s = Ret tt s' /\ bl_rep s' V ∅ ∅ 27 /\ bl_lim s' = lstart (lg s) /\ lb s' = lb s /\
    outstanding (lg s') = 1 /\ committing (lg s') = 0.
Proof.
  intros [Q1 Q2 (Q3 & Q4 & Q5)] -> Hsz.
  assert (wp begin_op (fun _ s' => s' = mklogst (w_outstanding (outstanding (lg s) + 1) (lg s)) (lb s)) s) as Hw.
  { eapply wp_begin_op; [exact Q1|done|rewrite Q3, Q4; unfold LOGSIZE, MAXOPBLOCKS; lia|done]. }
  apply wp_run in Hw as ([] & s' & Hw & ->). eexists. split; [exact Hw|]. rewrite Q4. split; [|done].
  constructor; cbn [lg lb w_outstanding outstanding lsize lh_n]; rewrite ?Q3; try done; try lia.
  by apply log_ok_lg.
Qed.

(** A file system of 94 blocks: sixteen inodes, the bitmap in block 5, a log of 30 blocks. *)
Definition demo_sb : superblock := mksb 94 57 16 30.
Definition demo_image (inodes data6 : list Z) : list (list Z) :=
  let zero := replicate BSIZE 0 in
  let sb := put32 (put32 (put32 (put32 zero 0 94) 4 57) 8 16) 12 30 in
  [zero; sb; inodes; zero; zero; <[0%nat := 127]> zero; data6] ++ replicate 87 zero.

Lemma demo_image_valid inodes data6 :
  length inodes = BSIZE -> length data6 = BSIZE -> valid_log (demo_image inodes data6) 64 30.
Proof.
  intros H1 H2. constructor.
  - unfold blocks_ok, demo_image. repeat (constructor; [done|]). constructor.
  - vm_compute. reflexivity.
  - vm_compute. reflexivity.
  - simpl. lia.
  - assert (hdr_n (disk_view (demo_image inodes data6) 64) = 0) as -> by (vm_compute; reflexivity). unfold NBUF. lia.
  - assert (hdr_secs (disk_view (demo_image inodes data6) 64) = []) as -> by (vm_compute; reflexivity).
    intros m Hm. inversion Hm.
Qed.

Lemma demo_image_used inodes data6 b :
  0 <= b < 94 -> used (disk_view (demo_image inodes data6)) demo_sb b = (b <? 7).
Proof.
  intros Hb. assert (b ∈ (Z.of_nat <$> seq 0 94)) as Hin.
  { apply list_elem_of_fmap. exists (Z.to_nat b). split; [lia|]. apply elem_of_seq. lia. }
  revert b Hb Hin. assert (forallb (fun b => Bool.eqb (used (disk_view (demo_image inodes data6)) demo_sb b) (b <? 7))
    (Z.of_nat <$> seq 0 94) = true) as Hall by (vm_compute; reflexivity).
  intros b _ Hin. apply eqb_prop. rewrite forallb_forall in Hall. apply Hall. by apply list_elem_of_In.
Qed.

Lemma demo_image_shape inodes data6 : fs_shape (disk_view (demo_image inodes data6)) demo_sb 64.
Proof.
  constructor; [vm_compute; reflexivity|simpl; lia|simpl; lia|vm_compute; discriminate|].
  intros b Hb. change (data_start demo_sb) with 6 in Hb. rewrite demo_image_used by lia. apply Z.ltb_lt. lia.
Qed.

Lemma fs_shape_ext V V' sb lim :
  fs_shape V sb lim -> (forall m, 0 <= m < data_start sb -> V' m = V m) -> data_start sb <= sb_size sb ->
  fs_shape V' sb lim.
Proof.
  intros Sh HV Hd. pose proof (data_start_pos _ _ _ Sh). pose proof Sh as [S1 S2 S3 S4 S5].
  constructor; try done.
  - rewrite HV by lia. done.
  - intros b Hb. unfold used. rewrite HV; [by apply S5|].
    pose proof (BBLOCK_data _ _ _ b Sh). lia.
Qed.

(** The demonstration file system inside a transaction. *)
Lemma demo_transaction inodes data6 :
  length inodes = BSIZE -> length data6 = BSIZE ->
  exists (s : logst) V, bl_rep s V ∅ ∅ 27 /\ bl_lim s = 64 /\ held (ctx s) = [] /\
    fs_shape V demo_sb 64 /\ (forall m, 0 <= m < 64 -> V m = disk_view (demo_image inodes data6) m).
Proof.
  intros H1 H2. pose proof (demo_image_valid _ _ H1 H2) as HV.
  destruct (mount_quiet (demo_image inodes data6) 64 30 (disk_view (demo_image inodes data6))) as (s & E & Q & Est & HC).
  - apply (recovers_logged _ _ _ _ []); [exact HV|vm_compute; reflexivity|done..].
  - unfold LOGSIZE, MAXOPBLOCKS. lia.
  - destruct (wp_run _ _ _ (wp_mount _ _ _ HV)) as ([] & s1 & E1 & _ & _ & _ & Eh & secs & _ & El).
    rewrite E in E1. injection E1 as <-.
    destruct (begin_transaction s _ Q eq_refl) as (s' & _ & R & Hlim & Hlb & _); [rewrite El; simpl; lia|].
    exists s', (disk_view (disk (lb s))). split; [exact R|]. split; [by rewrite Hlim|].
    split; [change (held (bctx (lb s')) = []); by rewrite Hlb|]. split; [|exact HC].
    eapply fs_shape_ext; [apply (demo_image_shape inodes data6)| |vm_compute; done].
    intros m Hm. apply HC. change (data_start demo_sb) with 6 in Hm. lia.
Qed.

Section Props.
Context {S : Type} `{HasCtx S} `{!BlockLayer S} `{!BlockLaws S}.

(** Inside a transaction balloc returns the first block whose bit in the free bitmap
    is clear: exactly that bit is set, the block is zeroed, and no other block changes
    but the block of the bitmap.  bfree of the block then clears the bit again, and every
    block but the freed one is as it was before balloc. *)
Theorem balloc_bfree (s : S) V sb r b0 :
  bl_rep s V ∅ ∅ (3 + r) -> fs_shape V sb (bl_lim s) -> 0 <= b0 < sb_size sb -> b0 < bl_lim s ->
  used V sb b0 = false -> (forall b, 0 <= b < b0 -> used V sb b = true) ->
  Forall (fun x => 0 <= x) (V (BBLOCK b0 (sb_ninodes sb))) ->
  exists s1 V1 s2 V2,
    balloc ROOTDEV s = Ret b0 s1 /\ bl_rep s1 V1 ∅ ∅ (1 + r) /\
    (forall b, 0 <= b < sb_size sb -> used V1 sb b = bool_decide (b0 = b) || used V sb b) /\
    V1 b0 = replicate BSIZE 0 /\
    (forall n, n <> b0 -> n <> BBLOCK b0 (sb_ninodes sb) -> V1 n = V n) /\
    bfree ROOTDEV b0 s1 = Ret tt s2 /\ bl_rep s2 V2 ∅ ∅ r /\ (forall n, n <> b0 -> V2 n = V n).
Proof.
  intros R Sh Hb0 Hlim Hu Hbefore Hnn.
  pose proof (BBLOCK_data _ _ _ b0 Sh Hb0) as Hn. pose proof (sh_lim _ _ _ Sh) as Hsl.
  assert (length (V (BBLOCK b0 (sb_ninodes sb))) = BSIZE) as Hlen by (eapply bl_len; [exact R|lia]).
  assert (data_start sb <= b0) as Hd.
  { destruct (Z.lt_ge_cases b0 (data_start sb)) as [Hlt|]; [|done]. rewrite (sh_meta _ _ _ Sh b0) in Hu; [done|lia]. }
  assert (held_data V sb ∅ /\ held_data (taken V sb b0) sb ∅) as [Hh1 Hh2]
    by (split; intros n Hn'; by apply not_elem_of_empty in Hn').
  assert (wp (balloc ROOTDEV) (fun b s1 => b = b0 /\ bl_rep s1 (taken V sb b0) ∅ ∅ (1 + r) /\ bl_ext ∅ s s1) s) as Hw.
  { eapply (wp_balloc s V ∅ (1 + r) sb b0); try done; rewrite ?size_empty; try lia. }
  apply wp_run in Hw as (b & s1 & Ea & -> & R1 & E1).
  assert (forall b, 0 <= b < sb_size sb -> used (taken V sb b0) sb b = bool_decide (b0 = b) || used V sb b) as Hused.
  { intros b Hb. apply used_taken; try done; try lia. pose proof (BBLOCK_data _ _ _ b Sh Hb). lia. }
  assert (wp (bfree ROOTDEV b0) (fun _ s2 => bl_rep s2 (given_back (taken V sb b0) sb b0) ∅ ∅ r) s1) as Hw2.
  { eapply (wp_bfree s1 _ ∅ r sb b0); try done; rewrite ?size_empty; try lia.
    - rewrite (bl_ext_lim _ _ _ E1). by apply taken_shape.
    - rewrite Hused by lia. by rewrite bool_decide_eq_true_2. }
  apply wp_run in Hw2 as ([] & s2 & Ef & R2).
  exists s1, (taken V sb b0), s2, (given_back (taken V sb b0) sb b0). split_and!; try done.
  - unfold taken. by rewrite fn_lookup_insert.
  - intros n H1 H2. unfold taken. by rewrite !fn_lookup_insert_ne by done.
  - intros n H1. unfold given_back, taken. destruct (decide (n = BBLOCK b0 (sb_ninodes sb))) as [->|H2].
    + rewrite fn_lookup_insert, fn_lookup_insert_ne, fn_lookup_insert by lia. apply clear_set_bit; [exact Hnn|exact Hu].
    + by rewrite !fn_lookup_insert_ne by done.
Qed.
End Props.

Lemma balloc_bfree_witness :
  exists (s s1 s2 : logst), balloc ROOTDEV s = Ret 7 s1 /\ bfree ROOTDEV 7 s1 = Ret tt s2.
Proof.
  destruct (demo_transaction (replicate BSIZE 0) (replicate BSIZE 0)) as (s & V & R & Hlim & _ & Sh & HV);
    [apply length_replicate..|].
  assert (forall b, 0 <= b < 94 -> used V demo_sb b = (b <? 7)) as Hused.
  { intros b Hb. rewrite <- (demo_image_used (replicate BSIZE 0) (replicate BSIZE 0) b Hb). unfold used.
    f_equal. apply HV. pose proof (BBLOCK_data _ _ _ b Sh ltac:(simpl; lia)). change (data_start demo_sb) with 6 in *. lia. }
  destruct (balloc_bfree s V demo_sb 24 7) as (s1 & V1 & s2 & V2 & H1 & _ & _ & _ & _ & H2 & _).
  - exact R.
  - rewrite Hlim. exact Sh.
  - simpl. lia.
  - rewrite Hlim. lia.
  - rewrite Hused; [reflexivity|lia].
  - intros b Hb. rewrite Hused by lia. apply Z.ltb_lt. lia.
  - rewrite HV by (vm_compute; split; [discriminate|reflexivity]).
    apply list.Forall_forall. intros x Hx. vm_compute in Hx.
    repeat (apply elem_of_cons in Hx as [->|Hx]; [lia|]). inversion Hx.
  - exists s, s1, s2. split; [exact H1|exact H2].
Defined.

(** The demonstration file system with every block before the log in use. *)
Definition full_fs : logst :=
  let d := <[5%nat := replicate 8 255 ++ replicate 504 0]> (demo_image (replicate BSIZE 0) (replicate BSIZE 0)) in
  match (mount ;; begin_op) (power_on d) with Ret _ s => s | _ => power_on [] end.

(** The bitmap has bits for the blocks of the log, which mkfs leaves clear, and
    balloc searches them: when the data blocks are all in use it hands out block 64, the
    header of the log. *)
Theorem balloc_takes_log_block :
  lstart (lg full_fs) = 64 /\ exists s', balloc ROOTDEV full_fs = Ret 64 s'.
Proof. split; [vm_compute; reflexivity|]. eexists. vm_compute. reflexivity. Qed.
