(* ===== verification/Inode.v ===== *)
(** * fs.c: the inode cache and the contents of files

    [ist] is icache over a block layer.  Pointers to inodes are indices into the cache.
    A device's read and write (devsw) are parameters. *)

From stdpp Require Import base list numbers strings functions gmap sets.
From S2P Require Import Prelude Spinlock Layout Buf Log Block.
Import Ctx.

Open Scope Z_scope.
Local Open Scope kernel_scope.

Definition NINODE : nat := 50.
Definition NDEV : Z := 10.
Definition I_BUSY : Z := 1.
Definition I_VALID : Z := 2.
Definition T_DIR : Z := 1.
Definition T_FILE : Z := 2.
Definition T_DEV : Z := 3.

(** struct inode. *)
Record inode := mkinode {
  i_dev : Z; i_inum : Z; i_ref : Z; i_flags : Z;
  i_type : Z; i_major : Z; i_minor : Z; i_nlink : Z; i_size : Z;
  i_addrs : list Z }.

Definition iw_id dv n x := mkinode dv n (i_ref x) (i_flags x) (i_type x) (i_major x) (i_minor x) (i_nlink x) (i_size x) (i_addrs x).
Definition iw_ref v x := mkinode (i_dev x) (i_inum x) v (i_flags x) (i_type x) (i_major x) (i_minor x) (i_nlink x) (i_size x) (i_addrs x).
Definition iw_flags v x := mkinode (i_dev x) (i_inum x) (i_ref x) v (i_type x) (i_major x) (i_minor x) (i_nlink x) (i_size x) (i_addrs x).
Definition iw_type v x := mkinode (i_dev x) (i_inum x) (i_ref x) (i_flags x) v (i_major x) (i_minor x) (i_nlink x) (i_size x) (i_addrs x).
Definition iw_nlink v x := mkinode (i_dev x) (i_inum x) (i_ref x) (i_flags x) (i_type x) (i_major x) (i_minor x) v (i_size x) (i_addrs x).
Definition iw_devno mj mn x := mkinode (i_dev x) (i_inum x) (i_ref x) (i_flags x) (i_type x) mj mn (i_nlink x) (i_size x) (i_addrs x).
Definition iw_size v x := mkinode (i_dev x) (i_inum x) (i_ref x) (i_flags x) (i_type x) (i_major x) (i_minor x) (i_nlink x) v (i_addrs x).
Definition iw_addrs v x := mkinode (i_dev x) (i_inum x) (i_ref x) (i_flags x) (i_type x) (i_major x) (i_minor x) (i_nlink x) (i_size x) v.

(** ** struct dinode in a block *)

Definition IPB_nat : nat := 8.
Definition sizeof_dinode : nat := 64.

(** (struct dinode* )bp->data + inum%IPB. *)
Definition dip_off (inum : Z) : nat := (Z.to_nat (inum mod IPB) * sizeof_dinode)%nat.

Definition get_addrs (d : list Z) (o : nat) : list Z := (fun k => get32 d (o + 12 + 4 * k)) <$> seq 0 13.
Definition put_addrs (d : list Z) (o : nat) (l : list Z) : list Z :=
  foldl (fun d kv => put32 d (o + 12 + 4 * fst kv) (snd kv)) d (imap (fun k v => (k, v)) l).

(** The assignments of ilock from the dinode, and of iupdate to it. *)
Definition load_dinode (d : list Z) (o : nat) (x : inode) : inode :=
  mkinode (i_dev x) (i_inum x) (i_ref x) (i_flags x)
    (i16 (get16 d o)) (i16 (get16 d (o + 2))) (i16 (get16 d (o + 4))) (i16 (get16 d (o + 6)))
    (get32 d (o + 8)) (get_addrs d o).

Definition store_dinode (d : list Z) (o : nat) (x : inode) : list Z :=
  put_addrs (put32 (put16 (put16 (put16 (put16 d o (i_type x)) (o + 2) (i_major x)) (o + 4) (i_minor x))
    (o + 6) (i_nlink x)) (o + 8) (i_size x)) o (i_addrs x).

Record ist (S : Type) := mkist { icache : list inode; blk : S }.
Arguments mkist {S}. Arguments icache {S}. Arguments blk {S}.

#[export] Program Instance ist_ctx (S : Type) `{HasCtx S} : HasCtx (ist S) := {|
  ctx s := ctx (blk s);
  with_ctx k s := mkist (icache s) (with_ctx k (blk s)) |}.
Next Obligation. intros. simpl. by rewrite ctx_with. Qed.
Next Obligation. intros. simpl. by rewrite with_with. Qed.
Next Obligation. intros ? ? []. simpl. by rewrite with_same. Qed.

Section Ops.
Context {S : Type} `{HasCtx S} `{!BlockLayer S}.
Abbreviation IS := (ist S).

Definition in_blk {A} (m : M S A) : M IS A := zoom blk (fun b s => mkist (icache s) b) m.
Definition geti (i : nat) : M IS inode := l <- gets icache ;; lift_opt (l !! i).
Definition seti (i : nat) (f : inode -> inode) : M IS unit :=
  geti i ;; modify (fun s => mkist (alter f i (icache s)) (blk s)).

(** ** The cache *)

(** The scan of iget: the cached inode, or the first empty slot. *)
Fixpoint iget_scan (l : list inode) (i : nat) (dev inum : Z) (empty : option nat) : option nat * option nat :=
  match l with
  | [] => (None, empty)
  | x :: l =>
      if (0 <? i_ref x) && (i_dev x =? dev) && (i_inum x =? inum) then (Some i, empty)
      else iget_scan l (1 + i) dev inum
             (match empty with None => if i_ref x =? 0 then Some i else None | Some e => Some e end)
  end.

Definition iget (dev inum : Z) : M IS nat :=
  acquire LkIcache ;;
  l <- gets icache ;;
  match iget_scan l 0 dev inum None with
  | (Some i, _) =>
      seti i (fun x => iw_ref (i_ref x + 1) x) ;;
      release LkIcache ;;
      ret i
  | (None, None) => panic "iget: no inodes"
  | (None, Some i) =>
      seti i (iw_id dev inum) ;;
      seti i (iw_ref 1) ;;
      seti i (iw_flags 0) ;;
      release LkIcache ;;
      ret i
  end.

Definition idup (i : nat) : M IS nat :=
  acquire LkIcache ;;
  seti i (fun x => iw_ref (i_ref x + 1) x) ;;
  release LkIcache ;;
  ret i.

(** The search of ialloc, from inode [inum] on. *)
Fixpoint ialloc_loop (k : nat) (dev inum type : Z) : M S Z :=
  match k with
  | O => panic "ialloc: no inodes"
  | Datatypes.S k =>
      bp <- bl_bread dev (IBLOCK inum) ;;
      d <- bl_data bp ;;
      let o := dip_off inum in
      if get16 d o =? 0 then
        bl_set bp (put16 (splice o (replicate sizeof_dinode 0) d) o type) ;;
        bl_log_write bp ;;
        bl_brelse bp ;;
        ret inum
      else
        bl_brelse bp ;;
        ialloc_loop k dev (inum + 1) type
  end.

Definition ialloc (dev type : Z) : M IS nat :=
  sb <- in_blk (readsb dev) ;;
  inum <- in_blk (ialloc_loop (Z.to_nat (sb_ninodes sb - 1)) dev 1 type) ;;
  iget dev inum.

Definition iupdate (i : nat) : M IS unit :=
  x <- geti i ;;
  in_blk (
    bp <- bl_bread (i_dev x) (IBLOCK (i_inum x)) ;;
    d <- bl_data bp ;;
    bl_set bp (store_dinode d (dip_off (i_inum x)) x) ;;
    bl_log_write bp ;;
    bl_brelse bp).

Definition ilock (i : nat) : M IS unit :=
  x <- geti i ;;
  if i_ref x <? 1 then panic "ilock" else
  acquire LkIcache ;;
  x <- geti i ;;
  if has (i_flags x) I_BUSY then release LkIcache ;; sleep_on (ChInode (Z.of_nat i)) else
  seti i (fun x => iw_flags (Z.lor (i_flags x) I_BUSY) x) ;;
  release LkIcache ;;
  if has (i_flags x) I_VALID then ret tt else
  d <- in_blk (
    bp <- bl_bread (i_dev x) (IBLOCK (i_inum x)) ;;
    d <- bl_data bp ;;
    bl_brelse bp ;;
    ret d) ;;
  seti i (load_dinode d (dip_off (i_inum x))) ;;
  seti i (fun x => iw_flags (Z.lor (i_flags x) I_VALID) x) ;;
  x <- geti i ;;
  if i_type x =? 0 then panic "ilock: no type" else ret tt.

Definition iunlock (i : nat) : M IS unit :=
  x <- geti i ;;
  if negb (has (i_flags x) I_BUSY) || (i_ref x <? 1) then panic "iunlock" else
  acquire LkIcache ;;
  seti i (fun x => iw_flags (Z.ldiff (i_flags x) I_BUSY) x) ;;
  wakeup (ChInode (Z.of_nat i)) ;;
  release LkIcache.

(** ** The blocks of a file *)

(** bmap: the address of block [bn] of inode [i], allocated when there is none. *)
Definition bmap (i : nat) (bn : Z) : M IS Z :=
  x <- geti i ;;
  if bn <? NDIRECT then
    addr <- lift_opt (i_addrs x !! Z.to_nat bn) ;;
    if addr =? 0 then
      addr <- in_blk (balloc (i_dev x)) ;;
      seti i (fun x => iw_addrs (<[Z.to_nat bn := addr]> (i_addrs x)) x) ;;
      ret addr
    else ret addr
  else
  let bn := bn - NDIRECT in
  if bn <? NINDIRECT then
    addr <- lift_opt (i_addrs x !! Z.to_nat NDIRECT) ;;
    addr <- (if addr =? 0 then
               addr <- in_blk (balloc (i_dev x)) ;;
               seti i (fun x => iw_addrs (<[Z.to_nat NDIRECT := addr]> (i_addrs x)) x) ;;
               ret addr
             else ret addr) ;;
    in_blk (
      bp <- bl_bread (i_dev x) addr ;;
      a <- bl_data bp ;;
      let addr := get32 a (4 * Z.to_nat bn) in
      if addr =? 0 then
        addr <- balloc (i_dev x) ;;
        bl_set bp (put32 a (4 * Z.to_nat bn) addr) ;;
        bl_log_write bp ;;
        bl_brelse bp ;;
        ret addr
      else
        bl_brelse bp ;;
        ret addr)
  else panic "bmap: out of range".

Definition itrunc (i : nat) : M IS unit :=
  forM (seq 0 (Z.to_nat NDIRECT)) (fun k =>
    x <- geti i ;;
    a <- lift_opt (i_addrs x !! k) ;;
    when (negb (a =? 0)) do
      (in_blk (bfree (i_dev x) a) ;;
       seti i (fun x => iw_addrs (<[k := 0]> (i_addrs x)) x))) ;;
  x <- geti i ;;
  a <- lift_opt (i_addrs x !! Z.to_nat NDIRECT) ;;
  (when (negb (a =? 0)) do
    (in_blk (
       bp <- bl_bread (i_dev x) a ;;
       d <- bl_data bp ;;
       forM (seq 0 (Z.to_nat NINDIRECT)) (fun j =>
         let b := get32 d (4 * j) in
         when (negb (b =? 0)) do bfree (i_dev x) b) ;;
       bl_brelse bp ;;
       bfree (i_dev x) a) ;;
     seti i (fun x => iw_addrs (<[Z.to_nat NDIRECT := 0]> (i_addrs x)) x))) ;;
  seti i (iw_size 0) ;;
  iupdate i.

Definition iput (i : nat) : M IS unit :=
  acquire LkIcache ;;
  x <- geti i ;;
  (when ((i_ref x =? 1) && has (i_flags x) I_VALID && (i_nlink x =? 0)) do
    (if has (i_flags x) I_BUSY then panic "iput busy" else
     seti i (fun x => iw_flags (Z.lor (i_flags x) I_BUSY) x) ;;
     release LkIcache ;;
     itrunc i ;;
     seti i (iw_type 0) ;;
     iupdate i ;;
     acquire LkIcache ;;
     seti i (iw_flags 0) ;;
     wakeup (ChInode (Z.of_nat i)))) ;;
  seti i (fun x => iw_ref (i_ref x - 1) x) ;;
  release LkIcache.

Definition iunlockput (i : nat) : M IS unit := iunlock i ;; iput i.

(** struct stat. *)
Record stat := mkstat { st_type : Z; st_dev : Z; st_ino : Z; st_nlink : Z; st_size : Z }.
Definition stati (i : nat) : M IS stat :=
  x <- geti i ;; ret (mkstat (i_type x) (i_dev x) (i_inum x) (i_nlink x) (i_size x)).

(** ** Reading and writing *)

Section Devices.
(** devsw[major].read and .write: null where there is none. *)
Variable dev_read : Z -> option (nat -> Z -> M IS (Z * list Z)).
Variable dev_write : Z -> option (nat -> list Z -> Z -> M IS Z).

(** The loop of readi: the bytes copied to dst, after [acc]. *)
Fixpoint readi_loop (fuel : nat) (i : nat) (tot off n : Z) (acc : list Z) : M IS (list Z) :=
  match fuel with
  | O => out_of_fuel
  | Datatypes.S fuel =>
      if tot <? n then
        x <- geti i ;;
        addr <- bmap i (off / Z.of_nat BSIZE) ;;
        let o := Z.to_nat (off mod Z.of_nat BSIZE) in
        let m := Z.min (n - tot) (Z.of_nat BSIZE - off mod Z.of_nat BSIZE) in
        d <- in_blk (
          bp <- bl_bread (i_dev x) addr ;;
          d <- bl_data bp ;;
          bl_brelse bp ;;
          ret d) ;;
        readi_loop fuel i (tot + m) (off + m) n (acc ++ slice o (Z.to_nat m) d)
      else ret acc
  end.

(** The result and the bytes stored at dst. *)
Definition readi (i : nat) (off n : Z) : M IS (Z * list Z) :=
  x <- geti i ;;
  if i_type x =? T_DEV then
    if (i_major x <? 0) || (NDEV <=? i_major x) then ret (-1, []) else
    match dev_read (i_major x) with None => ret (-1, []) | Some f => f i n end
  else
  if (i_size x <? off) || (u32 (off + n) <? off) then ret (-1, []) else
  let n := if i_size x <? u32 (off + n) then u32 (i_size x - off) else n in
  l <- readi_loop (1 + Z.to_nat n) i 0 off n [] ;;
  ret (n, l).

Fixpoint writei_loop (fuel : nat) (i : nat) (tot off n : Z) (src : list Z) : M IS Z :=
  match fuel with
  | O => out_of_fuel
  | Datatypes.S fuel =>
      if tot <? n then
        x <- geti i ;;
        addr <- bmap i (off / Z.of_nat BSIZE) ;;
        let o := Z.to_nat (off mod Z.of_nat BSIZE) in
        let m := Z.min (n - tot) (Z.of_nat BSIZE - off mod Z.of_nat BSIZE) in
        let chunk := slice (Z.to_nat tot) (Z.to_nat m) src in
        if negb (Nat.eqb (length chunk) (Z.to_nat m)) then fault else
        in_blk (
          bp <- bl_bread (i_dev x) addr ;;
          d <- bl_data bp ;;
          bl_set bp (splice o chunk d) ;;
          bl_log_write bp ;;
          bl_brelse bp) ;;
        writei_loop fuel i (tot + m) (off + m) n src
      else ret off
  end.

Definition writei (i : nat) (src : list Z) (off n : Z) : M IS Z :=
  x <- geti i ;;
  if i_type x =? T_DEV then
    if (i_major x <? 0) || (NDEV <=? i_major x) then ret (-1) else
    match dev_write (i_major x) with None => ret (-1) | Some f => f i src n end
  else
  if (i_size x <? off) || (u32 (off + n) <? off) then ret (-1) else
  if MAXFILE * Z.of_nat BSIZE <? u32 (off + n) then ret (-1) else
  off' <- writei_loop (1 + Z.to_nat n) i 0 off n src ;;
  x <- geti i ;;
  (when ((0 <? n) && (i_size x <? off')) do
    (seti i (iw_size off') ;;
     iupdate i)) ;;
  ret n.
End Devices.
End Ops.
