(* ===== verification/Content.v ===== *)
(** * The contents of files: what bmap, readi and writei compute

    [slot V x p] is the [p]th block number an inode holds: the twelve direct ones, the
    indirect block, then the entries of the indirect block.  [flat V x] is the bytes of
    the file, a block that is not there yet reading as zeros.  readi returns a slice of
    [flat], writei replaces one; the other blocks in use are not touched. *)

From stdpp Require Import base list numbers strings functions gmap sets.
From S2P Require Import Prelude Spinlock Layout Buf Log Block Inode.
Import Ctx.

Open Scope Z_scope.
Local Open Scope kernel_scope.

Definition ind_slot : nat := 12.
Definition nslots : nat := 141.

Definition ind (x : inode) : Z := default 0 (i_addrs x !! ind_slot).

Definition slot (V : Z -> list Z) (x : inode) (p : nat) : Z :=
  if (p <? 13)%nat then default 0 (i_addrs x !! p)
  else if ind x =? 0 then 0 else get32 (V (ind x)) (4 * (p - 13)).

(** The slot of block [bn] of the file. *)
Definition slot_of (bn : nat) : nat := if (bn <? 12)%nat then bn else S bn.

Definition zeros : list Z := replicate BSIZE 0.
Definition block_of (V : Z -> list Z) (x : inode) (bn : nat) : list Z :=
  let a := slot V x (slot_of bn) in if a =? 0 then zeros else V a.

Definition nblocks : nat := 140.
Definition flat (V : Z -> list Z) (x : inode) : list Z := concat (block_of V x <$> seq 0 nblocks).
Definition content (V : Z -> list Z) (x : inode) : list Z := take (Z.to_nat (i_size x)) (flat V x).

(** A file in use: its block numbers are data blocks marked in use, all different. *)
Record file_ok (V : Z -> list Z) (sb : superblock) (lim : Z) (x : inode) : Prop := {
  fo_dev : i_dev x = ROOTDEV;
  fo_len : length (i_addrs x) = 13%nat;
  fo_size : 0 <= i_size x <= MAXFILE * Z.of_nat BSIZE;
  fo_slot : forall p, (p < nslots)%nat -> slot V x p <> 0 ->
    data_start sb <= slot V x p < lim /\ slot V x p < sb_size sb /\ used V sb (slot V x p) = true;
  fo_inj : forall p q, (p < nslots)%nat -> (q < nslots)%nat ->
    slot V x p = slot V x q -> slot V x p <> 0 -> p = q }.

Lemma slot_of_lt bn : (bn < nblocks)%nat -> (slot_of bn < nslots)%nat /\ slot_of bn <> ind_slot.
Proof. unfold slot_of, nblocks, nslots, ind_slot. intros. case_match; [apply Nat.ltb_lt in H0|apply Nat.ltb_ge in H0]; lia. Qed.

Lemma slot_of_inj bn bn' : slot_of bn = slot_of bn' -> bn = bn'.
Proof. unfold slot_of. destruct (Nat.ltb_spec bn 12), (Nat.ltb_spec bn' 12); lia. Qed.

Lemma slot_ind V x : slot V x ind_slot = ind x.
Proof. done. Qed.

Lemma slot_direct V x p : (p < 13)%nat -> slot V x p = default 0 (i_addrs x !! p).
Proof. intros Hp. unfold slot. by rewrite (proj2 (Nat.ltb_lt _ _)). Qed.

Lemma slot_entry V x k :
  slot V x (13 + k) = if ind x =? 0 then 0 else get32 (V (ind x)) (4 * k).
Proof.
  unfold slot. rewrite (proj2 (Nat.ltb_ge _ _)) by lia. by replace (13 + k - 13)%nat with k by lia.
Qed.

(** ** Blocks of equal length, one after another *)

Section Concat.
Context {A : Type}.
Implicit Types (l : list (list A)).

Lemma length_concat_blocks n l : Forall (fun b => length b = n) l -> length (concat l) = (n * length l)%nat.
Proof. induction 1 as [|b l Hb _ IH]; simpl; [lia|]. rewrite length_app. lia. Qed.

Lemma lookup_concat n l k i b :
  Forall (fun b => length b = n) l -> l !! k = Some b -> (i < n)%nat -> concat l !! (n * k + i)%nat = b !! i.
Proof.
  intros Hl. revert k. induction Hl as [|c l Hc Hl IH]; intros k Hk Hi; [done|]. destruct k as [|k]; simpl in *.
  - injection Hk as ->. rewrite Nat.mul_0_r. rewrite lookup_app_l by lia. done.
  - rewrite lookup_app_r by lia. rewrite <- (IH k Hk Hi). f_equal. lia.
Qed.

Lemma slice_concat n l k o m b :
  Forall (fun b => length b = n) l -> l !! k = Some b -> (o + m <= n)%nat ->
  slice (n * k + o) m (concat l) = slice o m b.
Proof.
  intros Hl Hk Hm. apply list_eq. intros i. rewrite !lookup_slice. case_decide; [|done].
  rewrite <- Nat.add_assoc. apply lookup_concat; [done|done|lia].
Qed.

Lemma splice_concat n l k o c b :
  Forall (fun b => length b = n) l -> l !! k = Some b -> (o + length c <= n)%nat ->
  concat (<[k := splice o c b]> l) = splice (n * k + o) c (concat l).
Proof.
  intros Hl Hk Hc. assert (length b = n) as Hb by (rewrite list.Forall_lookup in Hl; by eapply Hl).
  revert k Hk. induction Hl as [|d l Hd Hl IH]; intros k Hk; [done|]. destruct k as [|k]; simpl in *.
  - injection Hk as ->. rewrite Nat.mul_0_r. unfold splice. rewrite Nat.add_0_l.
    rewrite take_app_le by lia. rewrite drop_app_le by lia. by rewrite <- !(assoc_L (++)).
  - rewrite (IH k Hk). assert (length (concat l) >= n * k + n)%nat as Hlen.
    { rewrite (length_concat_blocks n l Hl). apply lookup_lt_Some in Hk. nia. }
    unfold splice. rewrite take_app_ge by lia. rewrite drop_app_ge by lia.
    rewrite <- (assoc_L (++)). f_equal. rewrite Hd. f_equal; [f_equal; lia|f_equal; f_equal; lia].
Qed.

Lemma slice_app o m1 m2 (l : list A) : slice o (m1 + m2) l = slice o m1 l ++ slice (o + m1) m2 l.
Proof. unfold slice. rewrite <- drop_drop, take_take_drop. done. Qed.
End Concat.

Lemma blocks_len V x :
  (forall p, (p < nslots)%nat -> slot V x p <> 0 -> length (V (slot V x p)) = BSIZE) ->
  Forall (fun b => length b = BSIZE) (block_of V x <$> seq 0 nblocks).
Proof.
  intros Hl. apply list.Forall_forall. intros b Hb. apply list_elem_of_fmap in Hb as (bn & -> & Hbn).
  apply elem_of_seq in Hbn. unfold block_of. destruct (slot V x (slot_of bn) =? 0) eqn:E; zbool.
  - apply length_replicate.
  - apply Hl; [apply slot_of_lt; lia|done].
Qed.

Lemma lookup_blocks V x bn : (bn < nblocks)%nat -> (block_of V x <$> seq 0 nblocks) !! bn = Some (block_of V x bn).
Proof. intros Hbn. rewrite list_lookup_fmap, lookup_seq_lt by done. done. Qed.

(** ** Free blocks *)

Definition free_blocks (V : Z -> list Z) (sb : superblock) (lim : Z) : list Z :=
  filter (fun b => used V sb b = false) (Z.of_nat <$> seq 0 (Z.to_nat (Z.min lim (sb_size sb)))).

Lemma elem_free V sb lim b :
  b ∈ free_blocks V sb lim <-> used V sb b = false /\ 0 <= b < Z.min lim (sb_size sb).
Proof.
  unfold free_blocks. rewrite list_elem_of_filter, list_elem_of_fmap. split.
  - intros (Hu & k & -> & Hk). apply elem_of_seq in Hk. split; [done|lia].
  - intros (Hu & Hb). split; [done|]. exists (Z.to_nat b). split; [lia|]. apply elem_of_seq. lia.
Qed.

Lemma free_nodup V sb lim : NoDup (free_blocks V sb lim).
Proof. apply NoDup_filter, NoDup_fmap_2, NoDup_seq. apply _. Qed.

Lemma find_seq (f : nat -> bool) a n k :
  List.find f (seq a n) = Some k -> (a <= k < a + n)%nat /\ f k = true /\ forall j, (a <= j < k)%nat -> f j = false.
Proof.
  revert a. induction n as [|n IH]; intros a; simpl; [done|]. destruct (f a) eqn:Ea.
  - intros [= <-]. split; [lia|]. split; [done|]. intros j Hj. lia.
  - intros Hf. destruct (IH _ Hf) as (H1 & H2 & H3). split; [lia|]. split; [done|]. intros j Hj.
    destruct (decide (j = a)) as [->|]; [done|]. apply H3. lia.
Qed.

(** With a free block there is a first one. *)
Lemma first_free V sb lim k :
  (S k <= length (free_blocks V sb lim))%nat ->
  exists b0, 0 <= b0 < sb_size sb /\ b0 < lim /\ used V sb b0 = false /\ forall b, 0 <= b < b0 -> used V sb b = true.
Proof.
  intros Hk. assert (exists b, b ∈ free_blocks V sb lim) as [b Hb].
  { destruct (free_blocks V sb lim) as [|b l]; [simpl in Hk; lia|exists b; left]. }
  apply elem_free in Hb as [Hu Hb]. set (f := fun k => negb (used V sb (Z.of_nat k))).
  destruct (List.find f (seq 0 (Z.to_nat (Z.min lim (sb_size sb))))) as [j|] eqn:Ef.
  - apply find_seq in Ef as (H1 & H2 & H3). unfold f in *. apply negb_true_iff in H2.
    exists (Z.of_nat j). split_and!; try lia; [done|]. intros c Hc.
    specialize (H3 (Z.to_nat c) ltac:(lia)). rewrite Z2Nat.id in H3 by lia. by apply negb_false_iff.
  - exfalso. assert (f (Z.to_nat b) = false) as Hfb.
    { eapply List.find_none; [exact Ef|]. apply in_seq. lia. }
    unfold f in Hfb. rewrite Z2Nat.id, Hu in Hfb by lia. done.
Qed.

Lemma free_taken V V' sb lim b0 k :
  (S k <= length (free_blocks V sb lim))%nat ->
  (forall b, 0 <= b < sb_size sb -> used V' sb b = bool_decide (b0 = b) || used V sb b) ->
  (k <= length (free_blocks V' sb lim))%nat.
Proof.
  intros Hk Hu. cut (length (free_blocks V sb lim) <= length (b0 :: free_blocks V' sb lim))%nat; [simpl; lia|].
  apply submseteq_length, NoDup_submseteq; [apply free_nodup|]. intros b Hb. apply elem_free in Hb as [Hb Hr].
  destruct (decide (b0 = b)) as [->|Hne]; [left|right]. apply elem_free. split; [|done].
  rewrite Hu by lia. by rewrite bool_decide_eq_false_2, Hb.
Qed.

(** ** Taking a block for a slot *)

(** [grown]: slot [p0], which was empty, has the fresh block [a]. *)
Record grown (V : Z -> list Z) (sb : superblock) (lim : Z) (x : inode) (p0 : nat) (a : Z)
    (V' : Z -> list Z) (x' : inode) : Prop := {
  gr_lt : (p0 < nslots)%nat;
  gr_was : slot V x p0 = 0;
  gr_fresh : data_start sb <= a < lim /\ a < sb_size sb /\ used V sb a = false /\ a <> 0;
  gr_zero : V' a = zeros;
  gr_used : forall b, 0 <= b < sb_size sb -> used V' sb b = bool_decide (a = b) || used V sb b;
  gr_slot : forall p, (p < nslots)%nat -> slot V' x' p = if decide (p = p0) then a else slot V x p;
  gr_same : forall n, data_start sb <= n -> n <> a -> n <> ind x -> V' n = V n;
  gr_meta : forall n, n < data_start sb -> (forall b, 0 <= b < sb_size sb -> n <> BBLOCK b (sb_ninodes sb)) -> V' n = V n;
  gr_shape : fs_shape V' sb lim;
  gr_ind : ind x' = ind x \/ (ind x = 0 /\ ind x' = a);
  gr_ino : x' = iw_addrs (i_addrs x') x /\ length (i_addrs x') = length (i_addrs x) }.

Lemma grown_ok V sb lim x p0 a V' x' :
  grown V sb lim x p0 a V' x' -> file_ok V sb lim x -> 0 <= data_start sb -> file_ok V' sb lim x'.
Proof.
  intros [G1 G2 (G3 & G4 & G5 & G6) G7 G8 G9 G10 _ _ _ (G11 & G12)] [F1 F2 F3 F4 F5] Hd.
  constructor; [by rewrite G11|congruence|by rewrite G11|..].
  - intros p Hp. rewrite G9 by done. case_decide as Hpp; intros Hz.
    + split_and!; try lia; try done. rewrite G8 by lia. by rewrite bool_decide_eq_true_2.
    + destruct (F4 p Hp Hz) as (A1 & A2 & A3). split_and!; try lia; try done. rewrite G8 by lia. by rewrite A3, orb_true_r.
  - assert (forall p, (p < nslots)%nat -> slot V x p = a -> False) as Hna.
    { intros p Hp E. destruct (F4 p Hp) as (A1 & A2 & A3); [by rewrite E|]. rewrite E in A3. congruence. }
    intros p q Hp Hq. rewrite !G9 by done. do 2 case_decide; subst; try done.
    + intros E. exfalso. by eapply (Hna q).
    + intros E. exfalso. by eapply (Hna p).
    + by apply F5.
Qed.

Lemma grown_block V sb lim x p0 a V' x' bn :
  grown V sb lim x p0 a V' x' -> file_ok V sb lim x -> (bn < nblocks)%nat ->
  block_of V' x' bn = block_of V x bn.
Proof.
  intros [G1 G2 (G3 & G4 & G5 & G6) G7 G8 G9 G10 _ _ _ _] [F1 F2 F3 F4 F5] Hbn.
  destruct (slot_of_lt bn Hbn) as [Hs Hi]. unfold block_of. rewrite G9 by done. case_decide as Hp.
  - rewrite Hp, G2. cbn [Z.eqb]. apply Z.eqb_neq in G6. by rewrite G6.
  - destruct (slot V x (slot_of bn) =? 0) eqn:Ez; zbool; [done|].
    destruct (F4 _ Hs Ez) as (A1 & A2 & A3). apply G10; [lia|intros E; congruence|].
    intros E. apply Hi. apply F5; [done|unfold nslots, ind_slot; lia|by rewrite slot_ind|done].
Qed.

(** [extends]: some slots that were empty have zeroed blocks; the file and every block
    in use read as before. *)
Record extends (V : Z -> list Z) (sb : superblock) (lim : Z) (x : inode) (V' : Z -> list Z) (x' : inode) : Prop := {
  ex_shape : fs_shape V' sb lim;
  ex_ok : file_ok V' sb lim x';
  ex_block : forall bn, (bn < nblocks)%nat -> block_of V' x' bn = block_of V x bn;
  ex_same : forall n, data_start sb <= n < sb_size sb -> used V sb n = true -> n <> ind x -> V' n = V n;
  ex_meta : forall n, n < data_start sb -> (forall b, 0 <= b < sb_size sb -> n <> BBLOCK b (sb_ninodes sb)) -> V' n = V n;
  ex_used : forall b, 0 <= b < sb_size sb -> used V sb b = true -> used V' sb b = true;
  ex_slot : forall p, (p < nslots)%nat -> slot V' x' p = slot V x p \/
    (0 <= slot V' x' p < sb_size sb /\ used V sb (slot V' x' p) = false);
  ex_ino : x' = iw_addrs (i_addrs x') x }.

Lemma iw_addrs_same x : x = iw_addrs (i_addrs x) x.
Proof. by destruct x. Qed.

Lemma extends_refl V sb lim x : fs_shape V sb lim -> file_ok V sb lim x -> extends V sb lim x V x.
Proof. intros Sh F. constructor; auto. apply iw_addrs_same. Qed.

Lemma extends_trans V sb lim x V1 x1 V2 x2 :
  extends V sb lim x V1 x1 -> extends V1 sb lim x1 V2 x2 -> extends V sb lim x V2 x2.
Proof.
  intros [A1 A2 A3 A4 A5 A6 A7 A8] [B1 B2 B3 B4 B5 B6 B7 B8]. constructor; try done.
  - intros bn Hbn. by rewrite B3, A3.
  - intros n Hn Hu Hi. pose proof (data_start_pos _ _ _ A1). rewrite B4; [by apply A4|done|apply A6; [lia|done]|].
    rewrite <- (slot_ind V1). destruct (A7 ind_slot) as [->|(_ & Hf)]; [unfold ind_slot, nslots; lia|done|].
    intros ->. congruence.
  - intros n Hn Hb. by rewrite B5, A5.
  - intros b Hb Hu. by apply B6, A6.
  - intros p Hp. destruct (B7 p Hp) as [->|(Hr & Hf)]; [by apply A7|]. right. split; [done|].
    destruct (used V sb (slot V2 x2 p)) eqn:E; [|done]. rewrite (A6 _ Hr E) in Hf. done.
  - rewrite B8, A8. by destruct x.
Qed.

Lemma grown_extends V sb lim x p0 a V' x' :
  grown V sb lim x p0 a V' x' -> file_ok V sb lim x -> extends V sb lim x V' x'.
Proof.
  intros G F. pose proof (data_start_pos _ _ _ (gr_shape _ _ _ _ _ _ _ _ G)) as Hd.
  pose proof G as [G1 G2 (G3 & G4 & G5 & G6) G7 G8 G9 G10 G11 G12 G13 (G14 & _)]. constructor; try done.
  - eapply grown_ok; [exact G|exact F|lia].
  - intros bn Hbn. by eapply grown_block.
  - intros n Hn Hu Hi. apply G10; [lia| |done]. intros ->. congruence.
  - intros b Hb Hu. rewrite G8 by done. by rewrite Hu, orb_true_r.
  - intros p Hp. rewrite G9 by done. case_decide; [|by left]. right. split; [lia|done].
Qed.

Section Grow.
Context (V : Z -> list Z) (sb : superblock) (lim : Z) (x : inode) (a : Z).
Hypothesis Sh : fs_shape V sb lim.
Hypothesis F : file_ok V sb lim x.
Hypothesis HL : forall n, 0 <= n < lim -> length (V n) = BSIZE.
Hypothesis Ha : 0 <= a < sb_size sb.
Hypothesis Hal : a < lim.
Hypothesis Hu : used V sb a = false.

Lemma fresh_data : data_start sb <= a /\ a <> 0.
Proof.
  pose proof (data_start_pos _ _ _ Sh) as Hd. destruct (Z.lt_ge_cases a (data_start sb)) as [Hlt|Hge]; [|lia].
  rewrite (sh_meta _ _ _ Sh a) in Hu; [done|lia].
Qed.

Lemma fresh_bitmap b : 0 <= b < sb_size sb -> 3 <= BBLOCK b (sb_ninodes sb) < data_start sb /\ length (V (BBLOCK b (sb_ninodes sb))) = BSIZE.
Proof.
  intros Hb. pose proof (BBLOCK_data _ _ _ b Sh Hb). split; [done|]. apply HL. pose proof (sh_lim _ _ _ Sh). lia.
Qed.

Lemma taken_used b : 0 <= b < sb_size sb -> used (taken V sb a) sb b = bool_decide (a = b) || used V sb b.
Proof.
  intros Hb. destruct (fresh_bitmap b Hb), (fresh_bitmap a Ha). pose proof fresh_data.
  apply used_taken; try done; lia.
Qed.

Lemma taken_same n : data_start sb <= n -> n <> a -> taken V sb a n = V n.
Proof.
  intros Hn Hna. destruct (fresh_bitmap a Ha). unfold taken. by rewrite !fn_lookup_insert_ne by lia.
Qed.

Lemma taken_meta n :
  n < data_start sb -> (forall b, 0 <= b < sb_size sb -> n <> BBLOCK b (sb_ninodes sb)) -> taken V sb a n = V n.
Proof.
  intros Hn Hb. pose proof fresh_data. unfold taken. rewrite !fn_lookup_insert_ne; [done|by apply not_eq_sym, Hb|lia].
Qed.

Lemma slot_used p : (p < nslots)%nat -> slot V x p <> 0 -> slot V x p <> a /\ data_start sb <= slot V x p.
Proof.
  intros Hp Hz. destruct (fo_slot _ _ _ _ F p Hp Hz) as (A1 & A2 & A3). split; [|lia]. intros E. congruence.
Qed.

Lemma ind_same : ind x <> 0 -> taken V sb a (ind x) = V (ind x).
Proof.
  intros Hi. destruct (slot_used ind_slot) as [H1 H2]; [unfold ind_slot, nslots; lia|by rewrite slot_ind|].
  rewrite slot_ind in H1, H2. by apply taken_same.
Qed.

Lemma get32_zeros k : (4 * k + 4 <= 512)%nat -> get32 zeros (4 * k) = 0.
Proof.
  intros Hk. unfold get32, zeros, slice. rewrite drop_replicate, take_replicate, Nat.min_l by (unfold BSIZE; lia). done.
Qed.

Lemma grown_direct p0 :
  (p0 < 13)%nat -> slot V x p0 = 0 ->
  grown V sb lim x p0 a (taken V sb a) (iw_addrs (<[p0 := a]> (i_addrs x)) x).
Proof.
  intros Hp Hz. pose proof (fo_len _ _ _ _ F) as Hlen. set (x' := iw_addrs _ x). pose proof fresh_data as [Hd Ha0].
  assert (forall p, (p < 13)%nat -> slot (taken V sb a) x' p = if decide (p = p0) then a else slot V x p) as Hdir.
  { intros p Hp'. rewrite !slot_direct by done. unfold x'. cbn [i_addrs iw_addrs]. case_decide as E.
    - subst. rewrite list_lookup_insert_eq by lia. done.
    - by rewrite list_lookup_insert_ne by done. }
  assert (ind x' = if decide (ind_slot = p0) then a else ind x) as Hind
    by (rewrite <- (slot_ind (taken V sb a)); rewrite Hdir by (unfold ind_slot; lia); by rewrite slot_ind).
  constructor.
  - unfold nslots. lia.
  - exact Hz.
  - split_and!; try lia; done.
  - unfold taken. by rewrite fn_lookup_insert.
  - apply taken_used.
  - intros p Hpn. destruct (decide (p < 13)%nat) as [Hlt|Hge]; [by apply Hdir|].
    replace p with (13 + (p - 13))%nat by lia. rewrite !slot_entry, Hind.
    rewrite (decide_False (P := (13 + (p - 13))%nat = p0)) by lia. case_decide as E.
    + rewrite (proj2 (Z.eqb_neq a 0) Ha0). assert (ind x = 0) as -> by (rewrite <- (slot_ind V), E; done).
      unfold taken. rewrite fn_lookup_insert. apply get32_zeros. unfold nslots in Hpn. lia.
    + destruct (ind x =? 0) eqn:E0; zbool; [done|]. by rewrite ind_same.
  - intros n Hn Hna _. by apply taken_same.
  - apply taken_meta.
  - apply taken_shape; try done. by apply (fresh_bitmap a).
  - rewrite Hind. case_decide as E; [|by left]. right. split; [|done]. rewrite <- (slot_ind V), E. done.
  - split; [done|]. unfold x'. cbn [i_addrs iw_addrs]. apply length_insert.
Qed.

Lemma grown_entry k :
  (k < 128)%nat -> ind x <> 0 -> slot V x (13 + k) = 0 ->
  grown V sb lim x (13 + k) a (<[ind x := put32 (V (ind x)) (4 * k) a]> (taken V sb a)) x.
Proof.
  intros Hk Hi Hz. pose proof fresh_data as [Hd Ha0]. pose proof (sh_size _ _ _ Sh) as Hsz.
  destruct (fo_slot _ _ _ _ F ind_slot) as (I1 & I2 & I3); [unfold ind_slot, nslots; lia|done|]. rewrite slot_ind in *.
  assert (ind x <> a) as Hia by (intros E; congruence). pose proof (data_start_pos _ _ _ Sh) as Hds.
  assert (length (V (ind x)) = BSIZE) as Hli by (apply HL; lia).
  set (V' := <[ind x := _]> _).
  assert (forall n, n <> ind x -> V' n = taken V sb a n) as Hne by (intros n Hn; unfold V'; by rewrite fn_lookup_insert_ne).
  assert (forall b, 0 <= b < sb_size sb -> used V' sb b = used (taken V sb a) sb b) as Hused.
  { intros b Hb. unfold used. destruct (fresh_bitmap b Hb). rewrite Hne; [done|lia]. }
  assert (fs_shape (taken V sb a) sb lim) as Sh1 by (apply taken_shape; try done; by apply (fresh_bitmap a)).
  constructor.
  - unfold nslots. lia.
  - exact Hz.
  - split_and!; try lia; done.
  - rewrite Hne by done. unfold taken. by rewrite fn_lookup_insert.
  - intros b Hb. rewrite Hused by done. by apply taken_used.
  - intros p Hp. destruct (decide (p < 13)%nat) as [Hlt|Hge].
    + rewrite decide_False by lia. by rewrite !slot_direct by done.
    + replace p with (13 + (p - 13))%nat by lia. rewrite !slot_entry. rewrite (proj2 (Z.eqb_neq (ind x) 0) Hi).
      unfold V'. rewrite fn_lookup_insert. unfold nslots in Hp. case_decide as E.
      * replace (p - 13)%nat with k by lia. rewrite get32_put32 by (rewrite Hli; unfold BSIZE; lia). apply u32_small. lia.
      * rewrite get32_put32_ne by (rewrite ?Hli; unfold BSIZE; lia). done.
  - intros n Hn Hna Hni. rewrite Hne by done. by apply taken_same.
  - intros n Hn Hb. rewrite Hne by lia. by apply taken_meta.
  - destruct Sh1 as [S1 S2 S3 S4 S5]. constructor; try done.
    + rewrite Hne by lia. done.
    + intros b Hb. rewrite Hused; [by apply S5|]. split; [lia|]. lia.
  - by left.
  - split; [apply iw_addrs_same|done].
Qed.
End Grow.

(** ** bmap *)

Section Bmap.
Context {S : Type} `{HasCtx S} `{!BlockLayer S} `{!BlockLaws S}.
Implicit Types (s : ist S) (b : S) (V : Z -> list Z).

Lemma wp_in_blk {A} (m : M S A) (Q : A -> ist S -> Prop) s :
  wp m (fun a b => Q a (mkist (icache s) b)) (blk s) -> wp (in_blk m) Q s.
Proof. intros Hm. by apply wp_zoom. Qed.

Lemma wp_geti i x (Q : inode -> ist S -> Prop) s : icache s !! i = Some x -> Q x s -> wp (geti i) Q s.
Proof. intros Hi HQ. unfold geti. wp_steps. by eapply wp_lift_opt. Qed.

Lemma wp_seti i x f (Q : unit -> ist S -> Prop) s :
  icache s !! i = Some x -> Q tt (mkist (<[i := f x]> (icache s)) (blk s)) -> wp (seti i f) Q s.
Proof.
  intros Hi HQ. unfold seti. wp_steps. eapply wp_geti; [exact Hi|]. wp_steps.
  assert (alter f i (icache s) = <[i := f x]> (icache s)) as ->; [|done].
  apply list_eq. intros j. destruct (decide (j = i)) as [->|].
  - rewrite list_lookup_alter_eq, Hi, list_lookup_insert_eq by (by eapply lookup_lt_Some). done.
  - by rewrite list_lookup_alter_ne, list_lookup_insert_ne.
Qed.

Lemma rep_len b V r : bl_rep b V ∅ ∅ r -> forall n, 0 <= n < bl_lim b -> length (V n) = BSIZE.
Proof. intros R n Hn. by eapply bl_len. Qed.

(** The body of bmap on an indirect block that is there. *)
Lemma wp_bmap_entry b V r sb x k j (Q : Z -> S -> Prop) :
  bl_rep b V ∅ ∅ (3 + r) -> fs_shape V sb (bl_lim b) -> file_ok V sb (bl_lim b) x ->
  (k < 128)%nat -> ind x <> 0 -> (1 + j <= length (free_blocks V sb (bl_lim b)))%nat ->
  (forall b' V', bl_rep b' V' ∅ ∅ r -> bl_ext ∅ b b' -> extends V sb (bl_lim b) x V' x ->
     slot V' x (13 + k) <> 0 -> (j <= length (free_blocks V' sb (bl_lim b)))%nat -> Q (slot V' x (13 + k)) b') ->
  wp (bp <- bl_bread (i_dev x) (ind x) ;; a <- bl_data bp ;;
      let addr := get32 a (4 * k) in
      if addr =? 0 then
        addr <- balloc (i_dev x) ;; bl_set bp (put32 a (4 * k) addr) ;; bl_log_write bp ;; bl_brelse bp ;; ret addr
      else bl_brelse bp ;; ret addr) Q b.
Proof.
  intros R Sh F Hk Hi Hj HQ. pose proof (data_start_pos _ _ _ Sh) as Hds.
  destruct (fo_slot _ _ _ _ F ind_slot) as (I1 & I2 & I3); [unfold ind_slot, nslots; lia|done|]. rewrite slot_ind in *.
  rewrite (fo_dev _ _ _ _ F). eapply wp_open; [exact R|lia|set_solver|rewrite size_empty; lia|].
  intros bp b1 R1 O1 E1. cbv zeta. rewrite union_empty_r_L in R1.
  assert (get32 (V (ind x)) (4 * k) = slot V x (13 + k)) as Hs.
  { rewrite slot_entry. by rewrite (proj2 (Z.eqb_neq _ _) Hi). }
  rewrite Hs. pose proof (bl_ext_lim _ _ _ E1) as El. destruct (slot V x (13 + k) =? 0) eqn:E0; zbool.
  - destruct (first_free _ _ _ _ Hj) as (a & Ha1 & Ha2 & Ha3 & Ha4). wp_steps.
    eapply (wp_balloc b1 V {[ind x]} (1 + r) sb a); try done; rewrite ?El; try done.
    { by rewrite size_singleton. }
    { intros n Hn. apply elem_of_singleton in Hn as ->. split; [lia|done]. }
    intros b2 R2 E2. assert (bl_holds b2 bp (ind x)) as O2 by (apply E2; [set_solver|exact O1]).
    pose proof (rep_len _ _ _ R) as HL.
    pose proof (grown_entry V sb (bl_lim b) x a Sh F HL Ha1 Ha2 Ha3 k Hk Hi E0) as G.
    assert (put32 (taken V sb a (ind x)) (4 * k) a = put32 (V (ind x)) (4 * k) a) as Eput
      by (f_equal; by apply (ind_same V sb (bl_lim b))).
    eapply (wp_write_back b2 _ ∅ r bp (ind x)); [by rewrite union_empty_r_L|exact O2|set_solver|lia| |].
    { rewrite length_put32; rewrite ?HL by lia; unfold BSIZE; lia. }
    intros b3 R3 E3. wp_steps.
    assert (slot (<[ind x:=put32 (V (ind x)) (4 * k) a]> (taken V sb a)) x (13 + k) = a) as Hsl
      by (rewrite (gr_slot _ _ _ _ _ _ _ _ G) by (unfold nslots; lia); by rewrite decide_True).
    rewrite <- Hsl. apply HQ; try done.
    + eapply bl_ext_trans; [exact E1|eapply bl_ext_trans; [|exact E3|set_solver]|set_solver].
      eapply bl_ext_trans; [apply bl_ext_refl|exact E2|set_solver].
    + by eapply grown_extends.
    + rewrite Hsl. pose proof (gr_fresh _ _ _ _ _ _ _ _ G). tauto.
    + eapply free_taken; [exact Hj|apply (gr_used _ _ _ _ _ _ _ _ G)].
  - wp_steps. eapply (wp_close b1 V ∅ _ bp (ind x)); [by rewrite union_empty_r_L|exact O1|set_solver|].
    intros b2 R2 E2. wp_steps. apply HQ; try done.
    + eapply bl_room; [exact R2|lia].
    + by eapply bl_ext_trans.
    + by apply extends_refl.
    + lia.
Qed.

(** A direct slot or the indirect block, allocated when it is empty. *)
Lemma wp_fill_slot i x p0 s V r sb j (Q : Z -> ist S -> Prop) :
  bl_rep (blk s) V ∅ ∅ (2 + r) -> fs_shape V sb (bl_lim (blk s)) -> icache s !! i = Some x ->
  file_ok V sb (bl_lim (blk s)) x -> (p0 < 13)%nat -> (1 + j <= length (free_blocks V sb (bl_lim (blk s))))%nat ->
  (forall b' V' x', bl_rep b' V' ∅ ∅ r -> bl_ext ∅ (blk s) b' -> extends V sb (bl_lim (blk s)) x V' x' ->
     slot V' x' p0 <> 0 -> (j <= length (free_blocks V' sb (bl_lim (blk s))))%nat ->
     Q (slot V' x' p0) (mkist (<[i := x']> (icache s)) b')) ->
  wp (addr <- lift_opt (i_addrs x !! p0) ;;
      if addr =? 0 then
        addr <- in_blk (balloc (i_dev x)) ;;
        seti i (fun x => iw_addrs (<[p0 := addr]> (i_addrs x)) x) ;;
        ret addr
      else ret addr) Q s.
Proof.
  intros R Sh Hi F Hp Hj HQ. pose proof (fo_len _ _ _ _ F) as Hlen.
  destruct (lookup_lt_is_Some_2 (i_addrs x) p0) as [addr Haddr]; [lia|].
  assert (slot V x p0 = addr) as Hs by (rewrite slot_direct by done; by rewrite Haddr).
  wp_steps. eapply wp_lift_opt; [exact Haddr|]. destruct (addr =? 0) eqn:E0; zbool.
  - destruct (first_free _ _ _ _ Hj) as (a & Ha1 & Ha2 & Ha3 & Ha4). rewrite (fo_dev _ _ _ _ F).
    wp_steps. apply wp_in_blk. eapply (wp_balloc (blk s) V ∅ r sb a); try done.
    { rewrite size_empty. lia. }
    intros b2 R2 E2. wp_steps. eapply wp_seti; [exact Hi|]. wp_steps. cbn [icache blk].
    pose proof (grown_direct V sb _ x a Sh F (rep_len _ _ _ R) Ha1 Ha2 Ha3 p0 Hp ltac:(congruence)) as G.
    assert (slot (taken V sb a) (iw_addrs (<[p0:=a]> (i_addrs x)) x) p0 = a) as Hsl
      by (rewrite (gr_slot _ _ _ _ _ _ _ _ G) by (unfold nslots; lia); by rewrite decide_True).
    rewrite <- Hsl at 1. apply HQ; try done.
    + by eapply grown_extends.
    + rewrite Hsl. pose proof (gr_fresh _ _ _ _ _ _ _ _ G). tauto.
    + eapply free_taken; [exact Hj|apply (gr_used _ _ _ _ _ _ _ _ G)].
  - wp_steps. rewrite <- Hs. replace s with (mkist (<[i := x]> (icache s)) (blk s)) by (rewrite list_insert_id by done; by destruct s).
    apply HQ; [eapply bl_room; [exact R|lia]|apply bl_ext_refl|by apply extends_refl|congruence|lia].
Qed.

(** bmap returns the block of the file, which it may have had to allocate; the file
    reads as before. *)
Lemma wp_bmap i x bn s V r sb j (Q : Z -> ist S -> Prop) :
  bl_rep (blk s) V ∅ ∅ (5 + r) -> fs_shape V sb (bl_lim (blk s)) -> icache s !! i = Some x ->
  file_ok V sb (bl_lim (blk s)) x -> (bn < nblocks)%nat ->
  (2 + j <= length (free_blocks V sb (bl_lim (blk s))))%nat ->
  (forall b' V' x', bl_rep b' V' ∅ ∅ r -> bl_ext ∅ (blk s) b' -> extends V sb (bl_lim (blk s)) x V' x' ->
     slot V' x' (slot_of bn) <> 0 -> (j <= length (free_blocks V' sb (bl_lim (blk s))))%nat ->
     Q (slot V' x' (slot_of bn)) (mkist (<[i := x']> (icache s)) b')) ->
  wp (bmap i (Z.of_nat bn)) Q s.
Proof.
  intros R Sh Hi F Hbn Hj HQ. unfold bmap. wp_steps. eapply wp_geti; [exact Hi|].
  unfold NDIRECT, NINDIRECT, nblocks in *. destruct (Z.ltb_spec (Z.of_nat bn) 12) as [Hd|Hd].
  - rewrite Nat2Z.id. assert (slot_of bn = bn) as Hso by (unfold slot_of; destruct (Nat.ltb_spec bn 12); lia).
    rewrite Hso in HQ. eapply (wp_fill_slot i x bn s V (3 + r) sb (1 + j)); try done; [lia|].
    intros b' V' x' R' E' X' Hs' Hf'. apply HQ; try done; [eapply bl_room; [exact R'|lia]|lia].
  - rewrite (proj2 (Z.ltb_lt _ _)) by lia. set (k := (bn - 12)%nat).
    assert (slot_of bn = (13 + k)%nat) as Hso by (unfold slot_of; destruct (Nat.ltb_spec bn 12); lia).
    rewrite Hso in HQ. replace (Z.to_nat (Z.of_nat bn - 12)) with k by lia.
    change (Z.to_nat 12) with ind_slot.
    match goal with |- wp (bind (lift_opt ?o) (fun addr => bind (@?m addr) ?k)) _ _ =>
      assert (wp (bind (bind (lift_opt o) m) k) Q s) as Hw end.
    { apply wp_bind. eapply (wp_fill_slot i x ind_slot s V (3 + r) sb (1 + j)); try done; [unfold ind_slot; lia|].
      intros b1 V1 x1 R1 E1 X1 Hs1 Hf1. rewrite slot_ind in *. pose proof (bl_ext_lim _ _ _ E1) as El.
      apply wp_in_blk. cbn [blk icache].
      assert (i_dev x1 = i_dev x) as <- by (rewrite (ex_ino _ _ _ _ _ _ X1); done).
      eapply (wp_bmap_entry b1 V1 r sb x1 k j); try done; rewrite ?El; try done;
        [apply (ex_shape _ _ _ _ _ _ X1)|apply (ex_ok _ _ _ _ _ _ X1)|lia|].
      intros b2 V2 R2 E2 X2 Hs2 Hf2. cbn [icache]. apply HQ; try done; [by eapply bl_ext_trans|by eapply extends_trans]. }
    unfold wp, bind in Hw |- *. destruct (lift_opt (i_addrs x !! ind_slot) s); try done.
Qed.
End Bmap.

(** ** readi *)

Section Read.
Context {S : Type} `{HasCtx S} `{!BlockLayer S} `{!BlockLaws S}.
Implicit Types (s : ist S) (b : S) (V : Z -> list Z).
Variable dev_read : Z -> option (nat -> Z -> M (ist S) (Z * list Z)).

(** bmap of a block that is there changes nothing. *)
Lemma wp_bmap_there i x bn s V r sb (Q : Z -> ist S -> Prop) :
  bl_rep (blk s) V ∅ ∅ r -> icache s !! i = Some x -> file_ok V sb (bl_lim (blk s)) x ->
  0 <= data_start sb -> (bn < nblocks)%nat -> slot V x (slot_of bn) <> 0 ->
  (forall b', bl_rep b' V ∅ ∅ r -> bl_ext ∅ (blk s) b' -> Q (slot V x (slot_of bn)) (mkist (icache s) b')) ->
  wp (bmap i (Z.of_nat bn)) Q s.
Proof.
  intros R Hi F Hd Hbn Hs HQ. unfold bmap. wp_steps. eapply wp_geti; [exact Hi|].
  pose proof (fo_len _ _ _ _ F) as Hlen. unfold NDIRECT, NINDIRECT, nblocks in *.
  destruct (Z.ltb_spec (Z.of_nat bn) 12) as [Hlt|Hge].
  - rewrite Nat2Z.id. assert (slot_of bn = bn) as Hso by (unfold slot_of; destruct (Nat.ltb_spec bn 12); lia).
    rewrite Hso, slot_direct in * by lia. destruct (lookup_lt_is_Some_2 (i_addrs x) bn) as [a Ha]; [lia|].
    rewrite Ha in *. simpl in Hs, HQ. wp_steps. eapply wp_lift_opt; [done|].
    rewrite (proj2 (Z.eqb_neq _ _) Hs). wp_steps. destruct s. apply HQ; [exact R|apply bl_ext_refl].
  - rewrite (proj2 (Z.ltb_lt _ _)) by lia. set (k := (bn - 12)%nat).
    assert (slot_of bn = (13 + k)%nat) as Hso by (unfold slot_of; destruct (Nat.ltb_spec bn 12); lia).
    replace (Z.to_nat (Z.of_nat bn - 12)) with k by lia. change (Z.to_nat 12) with ind_slot.
    rewrite Hso, slot_entry in *. destruct (ind x =? 0) eqn:Ei; [done|]. zbool.
    destruct (lookup_lt_is_Some_2 (i_addrs x) ind_slot) as [a Ha]; [unfold ind_slot; lia|].
    assert (ind x = a) as Eia by (unfold ind; by rewrite Ha). wp_steps. eapply wp_lift_opt; [exact Ha|].
    rewrite Eia in *. rewrite (proj2 (Z.eqb_neq _ _) Ei). wp_steps. apply wp_in_blk.
    destruct (fo_slot _ _ _ _ F ind_slot) as (I1 & _); [unfold ind_slot, nslots; lia|rewrite slot_ind; congruence|].
    rewrite slot_ind, Eia in I1. rewrite (fo_dev _ _ _ _ F).
    eapply wp_open; [exact R|lia|set_solver|rewrite size_empty; lia|]. intros bp b1 R1 O1 E1. cbv zeta.
    rewrite (proj2 (Z.eqb_neq _ _) Hs). wp_steps.
    eapply (wp_close b1 V ∅ r bp a); [exact R1|exact O1|set_solver|].
    intros b2 R2 E2. wp_steps. apply HQ; [exact R2|by eapply bl_ext_trans].
Qed.

(** bread, the data, brelse. *)
Lemma wp_fetch b V r n (Q : list Z -> S -> Prop) :
  bl_rep b V ∅ ∅ r -> 0 <= n < bl_lim b ->
  (forall b', bl_rep b' V ∅ ∅ r -> bl_ext ∅ b b' -> Q (V n) b') ->
  wp (bp <- bl_bread ROOTDEV n ;; d <- bl_data bp ;; bl_brelse bp ;; ret d) Q b.
Proof.
  intros R Hn HQ. eapply wp_open; [exact R|lia|set_solver|rewrite size_empty; lia|]. intros bp b1 R1 O1 E1.
  wp_steps. eapply (wp_close b1 V ∅ r bp n); [exact R1|exact O1|set_solver|]. intros b2 R2 E2. wp_steps.
  apply HQ; [exact R2|by eapply bl_ext_trans].
Qed.

(** Every block of the file up to its size is there. *)
Definition full (V : Z -> list Z) (x : inode) : Prop :=
  forall bn, Z.of_nat bn * Z.of_nat BSIZE < i_size x -> slot V x (slot_of bn) <> 0.

(** The arithmetic of one iteration. *)
Lemma chunk_bounds off rest :
  0 <= off -> 0 < rest -> off + rest <= MAXFILE * 512 ->
  let m := Z.min rest (512 - off mod 512) in
  let o := Z.to_nat (off mod 512) in let bn := Z.to_nat (off / 512) in
  0 < m <= rest /\ (bn < nblocks)%nat /\ (o + Z.to_nat m <= 512)%nat /\ off / 512 = Z.of_nat bn /\
  Z.to_nat off = (512 * bn + o)%nat.
Proof.
  intros Hoff Hrest Hmax. cbv zeta. unfold MAXFILE, NDIRECT, NINDIRECT, nblocks in *.
  pose proof (Z.mod_pos_bound off 512). pose proof (Z.div_mod off 512).
  assert (0 <= off / 512 < 140) by (split; [apply Z.div_pos; lia|apply Z.div_lt_upper_bound; lia]). lia.
Qed.

Lemma wp_readi_loop fuel i x tot off n acc s V r sb (Q : list Z -> ist S -> Prop) :
  bl_rep (blk s) V ∅ ∅ r -> icache s !! i = Some x -> file_ok V sb (bl_lim (blk s)) x -> full V x ->
  0 <= data_start sb -> 0 <= tot <= n -> 0 <= off -> off + (n - tot) <= i_size x -> (Z.to_nat (n - tot) < fuel)%nat ->
  (forall b', bl_rep b' V ∅ ∅ r -> bl_ext ∅ (blk s) b' ->
     Q (acc ++ slice (Z.to_nat off) (Z.to_nat (n - tot)) (flat V x)) (mkist (icache s) b')) ->
  wp (readi_loop fuel i tot off n acc) Q s.
Proof.
  revert tot off acc s. induction fuel as [|fuel IH]; intros tot off acc s R Hi F Hfull Hd Htot Hoff Hsz Hfuel HQ; [lia|].
  cbn [readi_loop]. destruct (Z.ltb_spec tot n) as [Hlt|Hge].
  - pose proof (fo_size _ _ _ _ F) as Hfs. change (Z.of_nat BSIZE) with 512 in *.
    destruct (chunk_bounds off (n - tot)) as (Hm & Hbn & Ho & Hdiv & Hnat); [lia..|].
    set (m := Z.min (n - tot) (512 - off mod 512)) in *. set (bn := Z.to_nat (off / 512)) in *.
    assert (slot V x (slot_of bn) <> 0) as Hs.
    { apply Hfull. change (Z.of_nat BSIZE) with 512. pose proof (Z.mod_pos_bound off 512). pose proof (Z.div_mod off 512). lia. }
    wp_steps. eapply wp_geti; [exact Hi|]. rewrite Hdiv. wp_steps.
    eapply wp_bmap_there; [exact R|exact Hi|exact F|exact Hd|exact Hbn|exact Hs|]. intros b1 R1 E1.
    pose proof (bl_ext_lim _ _ _ E1) as El. cbv zeta. wp_steps. apply wp_in_blk. cbn [blk icache].
    destruct (slot_of_lt bn Hbn) as [Hsl _]. destruct (fo_slot _ _ _ _ F _ Hsl Hs) as (A1 & _).
    rewrite (fo_dev _ _ _ _ F). eapply wp_fetch; [exact R1|rewrite El; lia|]. intros b2 R2 E2.
    pose proof (bl_ext_lim _ _ _ E2) as El2.
    apply IH; cbn [blk icache]; try done; rewrite ?El2, ?El; try done; try lia.
    intros b3 R3 E3. rewrite <- (assoc_L (++)).
    assert (slice (Z.to_nat (off mod 512)) (Z.to_nat m) (V (slot V x (slot_of bn))) ++
      slice (Z.to_nat (off + m)) (Z.to_nat (n - (tot + m))) (flat V x) =
      slice (Z.to_nat off) (Z.to_nat (n - tot)) (flat V x)) as ->.
    { replace (Z.to_nat (n - tot)) with (Z.to_nat m + Z.to_nat (n - (tot + m)))%nat by lia.
      rewrite slice_app. f_equal; [|f_equal; lia]. rewrite Hnat. symmetry. unfold flat.
      erewrite slice_concat; [|apply blocks_len|by apply lookup_blocks|unfold BSIZE; lia].
      - unfold block_of. by rewrite (proj2 (Z.eqb_neq _ _) Hs).
      - intros p Hp Hz. destruct (fo_slot _ _ _ _ F _ Hp Hz) as (B1 & _). eapply bl_len; [exact R|lia]. }
    apply HQ; [exact R3|]. eapply bl_ext_trans; [exact E1|eapply bl_ext_trans; [exact E2|exact E3|done]|done].
  - wp_steps. replace (n - tot) with 0 in HQ by lia. unfold slice in HQ. rewrite take_0, app_nil_r in HQ.
    destruct s. apply HQ; [exact R|apply bl_ext_refl].
Qed.

Lemma slice_content V x off n :
  0 <= off -> 0 <= n -> off + n <= i_size x ->
  slice (Z.to_nat off) (Z.to_nat n) (content V x) = slice (Z.to_nat off) (Z.to_nat n) (flat V x).
Proof.
  intros Ho Hn Hs. apply list_eq. intros k. rewrite !lookup_slice. case_decide; [|done].
  unfold content. by rewrite lookup_take_lt by lia.
Qed.

Lemma wp_readi i x off n s V r sb (Q : Z * list Z -> ist S -> Prop) :
  bl_rep (blk s) V ∅ ∅ r -> icache s !! i = Some x -> file_ok V sb (bl_lim (blk s)) x -> full V x ->
  0 <= data_start sb -> i_type x <> T_DEV -> 0 <= off <= i_size x -> 0 <= n -> off + n < 2 ^ 32 ->
  (let n' := Z.min n (i_size x - off) in
   forall b', bl_rep b' V ∅ ∅ r -> bl_ext ∅ (blk s) b' ->
     Q (n', slice (Z.to_nat off) (Z.to_nat n') (content V x)) (mkist (icache s) b')) ->
  wp (readi dev_read i off n) Q s.
Proof.
  intros R Hi F Hfull Hd Hty Hoff Hn Hon HQ. pose proof (fo_size _ _ _ _ F) as Hsz.
  unfold MAXFILE, NDIRECT, NINDIRECT in Hsz. change (Z.of_nat BSIZE) with 512 in Hsz.
  unfold readi. wp_steps. eapply wp_geti; [exact Hi|]. rewrite (proj2 (Z.eqb_neq _ _) Hty).
  rewrite (u32_small (off + n)) by lia.
  rewrite (proj2 (Z.ltb_ge (i_size x) off)), (proj2 (Z.ltb_ge (off + n) off)) by lia. cbn [orb].
  assert ((if i_size x <? off + n then u32 (i_size x - off) else n) = Z.min n (i_size x - off)) as ->.
  { destruct (Z.ltb_spec (i_size x) (off + n)); [rewrite u32_small; lia|lia]. }
  set (n' := Z.min n (i_size x - off)) in *. wp_steps.
  eapply (wp_readi_loop _ i x 0 off n'); try done; try lia.
  intros b' R' E'. wp_steps. rewrite app_nil_l, Z.sub_0_r. rewrite <- slice_content by lia. by apply HQ.
Qed.
End Read.

(** ** writei *)

(** [written]: the file changed, blocks were taken for it; the blocks in use that are
    not the file's are as before. *)
Record written (V : Z -> list Z) (sb : superblock) (lim : Z) (x : inode) (V' : Z -> list Z) (x' : inode) : Prop := {
  wr_shape : fs_shape V' sb lim;
  wr_ok : file_ok V' sb lim x';
  wr_same : forall n, data_start sb <= n < sb_size sb -> used V sb n = true ->
    (forall p, (p < nslots)%nat -> slot V x p <> n) -> V' n = V n;
  wr_meta : forall n, n < data_start sb -> (forall b, 0 <= b < sb_size sb -> n <> BBLOCK b (sb_ninodes sb)) -> V' n = V n;
  wr_used : forall b, 0 <= b < sb_size sb -> used V sb b = true -> used V' sb b = true;
  wr_slot : forall p, (p < nslots)%nat -> slot V' x' p = slot V x p \/
    (0 <= slot V' x' p < sb_size sb /\ used V sb (slot V' x' p) = false);
  wr_ino : x' = iw_addrs (i_addrs x') x }.

Lemma written_refl V sb lim x : fs_shape V sb lim -> file_ok V sb lim x -> written V sb lim x V x.
Proof. intros Sh F. constructor; auto. apply iw_addrs_same. Qed.

Lemma written_trans V sb lim x V1 x1 V2 x2 :
  written V sb lim x V1 x1 -> written V1 sb lim x1 V2 x2 -> written V sb lim x V2 x2.
Proof.
  intros [A1 A2 A4 A5 A6 A7 A8] [B1 B2 B4 B5 B6 B7 B8]. constructor; try done.
  - intros n Hn Hu Hs. pose proof (data_start_pos _ _ _ A1). rewrite B4; [by apply A4|done|apply A6; [lia|done]|].
    intros p Hp. destruct (A7 p Hp) as [->|(_ & Hf)]; [by apply Hs|]. intros <-. congruence.
  - intros n Hn Hb. by rewrite B5, A5.
  - intros b Hb Hu. by apply B6, A6.
  - intros p Hp. destruct (B7 p Hp) as [->|(Hr & Hf)]; [by apply A7|]. right. split; [done|].
    destruct (used V sb (slot V2 x2 p)) eqn:E; [|done]. rewrite (A6 _ Hr E) in Hf. done.
  - rewrite B8, A8. by destruct x.
Qed.

Lemma extends_written V sb lim x V' x' : extends V sb lim x V' x' -> written V sb lim x V' x'.
Proof.
  intros [E1 E2 E3 E4 E5 E6 E7 E8]. constructor; try done. intros n Hn Hu Hs. apply E4; [done|done|].
  rewrite <- (slot_ind V). apply not_eq_sym, Hs. unfold ind_slot, nslots. lia.
Qed.

Section Store.
Context (V : Z -> list Z) (sb : superblock) (lim : Z) (x : inode) (bn : nat) (d : list Z).
Hypothesis Sh : fs_shape V sb lim.
Hypothesis F : file_ok V sb lim x.
Hypothesis Hbn : (bn < nblocks)%nat.
Let a := slot V x (slot_of bn).
Hypothesis Ha : a <> 0.

(** Storing into block [bn] of the file. *)
Lemma store_facts :
  data_start sb <= a < lim /\ a < sb_size sb /\ a <> ind x /\
  (forall p, (p < nslots)%nat -> slot (<[a := d]> V) x p = slot V x p) /\
  (forall b, 0 <= b < sb_size sb -> used (<[a := d]> V) sb b = used V sb b).
Proof.
  destruct (slot_of_lt bn Hbn) as [Hsl Hni]. destruct (fo_slot _ _ _ _ F _ Hsl Ha) as (A1 & A2 & A3).
  assert (a <> ind x) as Hai.
  { intros E. apply Hni. apply (fo_inj _ _ _ _ F); [done|unfold ind_slot, nslots; lia|by rewrite slot_ind|done]. }
  split_and!; try done; try lia.
  - intros p Hp. unfold slot. destruct (p <? 13)%nat; [done|]. destruct (ind x =? 0); [done|].
    by rewrite fn_lookup_insert_ne.
  - intros b Hb. unfold used. pose proof (BBLOCK_data _ _ _ b Sh Hb). rewrite fn_lookup_insert_ne by lia. done.
Qed.

Lemma store_written : written V sb lim x (<[a := d]> V) x.
Proof.
  destruct store_facts as (A1 & A2 & A3 & A4 & A5). pose proof (data_start_pos _ _ _ Sh).
  constructor.
  - destruct Sh as [S1 S2 S3 S4 S5]. constructor; try done.
    + by rewrite fn_lookup_insert_ne by lia.
    + intros b Hb. rewrite A5 by lia. by apply S5.
  - destruct F as [F1 F2 F3 F4 F5]. constructor; try done.
    + intros p Hp. rewrite A4 by done. intros Hz. destruct (F4 p Hp Hz) as (B1 & B2 & B3).
      split_and!; try lia. rewrite A5 by lia. done.
    + intros p q Hp Hq. rewrite !A4 by done. by apply F5.
  - intros n Hn Hu Hs. rewrite fn_lookup_insert_ne; [done|]. apply Hs. by apply slot_of_lt.
  - intros n Hn Hb. by rewrite fn_lookup_insert_ne by lia.
  - intros b Hb. by rewrite A5.
  - intros p Hp. left. by apply A4.
  - apply iw_addrs_same.
Qed.

Lemma store_block bn' : (bn' < nblocks)%nat -> block_of (<[a := d]> V) x bn' = if decide (bn' = bn) then d else block_of V x bn'.
Proof.
  intros Hbn'. destruct store_facts as (_ & _ & _ & A4 & _). destruct (slot_of_lt bn' Hbn') as [Hsl _].
  unfold block_of. rewrite A4 by done. case_decide as E.
  - subst bn'. fold a. rewrite (proj2 (Z.eqb_neq _ _) Ha). by rewrite fn_lookup_insert.
  - destruct (slot V x (slot_of bn') =? 0) eqn:E0; [done|]. zbool. rewrite fn_lookup_insert_ne; [done|].
    intros E1. apply E. apply slot_of_inj. apply (fo_inj _ _ _ _ F); [done|by apply slot_of_lt|by rewrite <- E1|done].
Qed.

Lemma store_flat o c :
  (forall n, 0 <= n < lim -> length (V n) = BSIZE) -> (o + length c <= BSIZE)%nat -> d = splice o c (V a) ->
  flat (<[a := d]> V) x = splice (BSIZE * bn + o) c (flat V x).
Proof.
  intros HL Ho Hd. unfold flat. rewrite <- (splice_concat BSIZE _ bn o c (block_of V x bn)).
  - f_equal. apply list_eq. intros k. destruct (decide (k < nblocks)%nat) as [Hk|Hk].
    + rewrite lookup_blocks, store_block by done. case_decide as E.
      * subst k. rewrite list_lookup_insert_eq by (rewrite length_fmap, length_seq; done).
        f_equal. rewrite Hd. unfold block_of. fold a. by rewrite (proj2 (Z.eqb_neq _ _) Ha).
      * rewrite list_lookup_insert_ne by done. by rewrite lookup_blocks.
    + rewrite !lookup_ge_None_2; [done|rewrite length_insert|]; rewrite length_fmap, length_seq; lia.
  - apply blocks_len. intros p Hp Hz. destruct (fo_slot _ _ _ _ F _ Hp Hz) as (B1 & _). apply HL.
    pose proof (data_start_pos _ _ _ Sh). lia.
  - by apply lookup_blocks.
  - done.
Qed.
End Store.

(** The number of blocks that bytes [off .. off + rest - 1] lie in. *)
Definition nchunks (off rest : Z) : nat :=
  if rest <=? 0 then 0%nat else Z.to_nat ((off + rest - 1) / 512 - off / 512 + 1).

Lemma nchunks_step off rest :
  0 <= off -> 0 < rest ->
  let m := Z.min rest (512 - off mod 512) in nchunks off rest = S (nchunks (off + m) (rest - m)).
Proof.
  intros Ho Hr. cbv zeta. pose proof (Z.mod_pos_bound off 512). pose proof (Z.div_mod off 512).
  unfold nchunks. rewrite (proj2 (Z.leb_gt _ _)) by lia.
  destruct (Z.min_spec rest (512 - off mod 512)) as [[Hlt ->]|[Hge ->]].
  - replace (rest - rest) with 0 by lia. cbn [Z.leb Z.compare].
    assert ((off + rest - 1) / 512 = off / 512) as -> by (symmetry; apply (Z.div_unique _ _ _ (off mod 512 + rest - 1)); lia). lia.
  - assert ((off + (512 - off mod 512)) = 512 * (off / 512 + 1)) as E by lia. rewrite E.
    replace (512 * (off / 512 + 1) / 512) with (off / 512 + 1) by (rewrite Z.mul_comm, Z.div_mul; lia).
    destruct (Z.leb_spec (rest - (512 - off mod 512)) 0) as [Hz|Hp].
    + assert (off + rest - 1 = 512 * (off / 512) + 511) as -> by lia.
      replace ((512 * (off / 512) + 511) / 512) with (off / 512)
        by (apply (Z.div_unique _ _ _ 511); lia). lia.
    + replace (512 * (off / 512 + 1) + (rest - (512 - off mod 512)) - 1) with (off + rest - 1) by lia.
      assert (off / 512 + 1 <= (off + rest - 1) / 512) by (apply Z.div_le_lower_bound; lia). lia.
Qed.

Lemma free_mono V V' sb lim :
  (forall b, 0 <= b < sb_size sb -> used V' sb b = used V sb b) ->
  (length (free_blocks V sb lim) <= length (free_blocks V' sb lim))%nat.
Proof.
  intros Hu. apply submseteq_length, NoDup_submseteq; [apply free_nodup|]. intros b Hb.
  apply elem_free in Hb as [Hb Hr]. apply elem_free. split; [|done]. rewrite Hu by lia. done.
Qed.

Lemma length_flat V sb lim x :
  file_ok V sb lim x -> (forall p, (p < nslots)%nat -> slot V x p <> 0 -> length (V (slot V x p)) = BSIZE) ->
  length (flat V x) = (BSIZE * nblocks)%nat.
Proof.
  intros F HL. unfold flat. rewrite (length_concat_blocks BSIZE _ (blocks_len _ _ HL)), length_fmap, length_seq. done.
Qed.

Lemma written_slot V sb lim x V' x' p :
  fs_shape V sb lim -> written V sb lim x V' x' -> (p < nslots)%nat -> slot V x p <> 0 -> slot V' x' p <> 0.
Proof.
  intros Sh W Hp Hz. destruct (wr_slot _ _ _ _ _ _ W p Hp) as [->|[_ Hu]]; [done|]. intros E. rewrite E in Hu.
  rewrite (sh_meta _ _ _ Sh) in Hu; [done|]. pose proof (data_start_pos _ _ _ Sh). lia.
Qed.

(** The blocks that bytes [off .. off + n - 1] lie in are there. *)
Definition covers (V : Z -> list Z) (x : inode) (off n : Z) : Prop :=
  forall bn, 0 < n -> off < Z.of_nat bn * 512 + 512 -> Z.of_nat bn * 512 < off + n ->
    (bn < nblocks)%nat -> slot V x (slot_of bn) <> 0.

Lemma covers_step V sb lim x V' x' off m n :
  fs_shape V sb lim -> written V sb lim x V' x' -> covers V x off m -> covers V' x' (off + m) n -> 0 < m -> 0 <= n ->
  covers V' x' off (m + n).
Proof.
  intros Sh W C1 C2 Hm Hn bn H0 H1 H2 Hbn. destruct (slot_of_lt bn Hbn) as [Hs _].
  destruct (decide (Z.of_nat bn * 512 < off + m)).
  - eapply written_slot; [exact Sh|exact W|exact Hs|]. by apply C1.
  - apply C2; lia.
Qed.

Lemma wp_bind_assoc {T A B C} (m : M T A) (f : A -> M T B) (k : B -> M T C) Q s :
  wp (bind (bind m f) k) Q s -> wp (bind m (fun a => bind (f a) k)) Q s.
Proof. unfold wp, bind. by destruct (m s). Qed.

Section Write.
Context {S : Type} `{HasCtx S} `{!BlockLayer S} `{!BlockLaws S}.
Implicit Types (s : ist S) (b : S) (V : Z -> list Z).
Variable dev_write : Z -> option (nat -> list Z -> Z -> M (ist S) Z).

(** One iteration: block [bn] has the bytes [c] at [o]. *)
Lemma wp_write_chunk i x bn o c s V r sb j (Q : unit -> ist S -> Prop) :
  bl_rep (blk s) V ∅ ∅ (6 + r) -> fs_shape V sb (bl_lim (blk s)) -> icache s !! i = Some x ->
  file_ok V sb (bl_lim (blk s)) x -> (bn < nblocks)%nat -> (o + length c <= BSIZE)%nat ->
  (2 + j <= length (free_blocks V sb (bl_lim (blk s))))%nat ->
  (forall b' V' x', bl_rep b' V' ∅ ∅ r -> bl_ext ∅ (blk s) b' -> written V sb (bl_lim (blk s)) x V' x' ->
     flat V' x' = splice (BSIZE * bn + o) c (flat V x) -> slot V' x' (slot_of bn) <> 0 ->
     (j <= length (free_blocks V' sb (bl_lim (blk s))))%nat -> Q tt (mkist (<[i := x']> (icache s)) b')) ->
  wp (addr <- bmap i (Z.of_nat bn) ;;
      in_blk (bp <- bl_bread (i_dev x) addr ;; d <- bl_data bp ;;
              bl_set bp (splice o c d) ;; bl_log_write bp ;; bl_brelse bp)) Q s.
Proof.
  intros R Sh Hi F Hbn Ho Hj HQ. wp_steps.
  eapply (wp_bmap i x bn s V (1 + r) sb j); [exact R|exact Sh|exact Hi|exact F|exact Hbn|exact Hj|].
  intros b1 V1 x1 R1 E1 X1 Hs1 Hf1. pose proof (bl_ext_lim _ _ _ E1) as El.
  pose proof (ex_shape _ _ _ _ _ _ X1) as Sh1. pose proof (ex_ok _ _ _ _ _ _ X1) as F1.
  set (a := slot V1 x1 (slot_of bn)) in *. apply wp_in_blk. cbn [blk icache].
  pose proof (rep_len _ _ _ R1) as HL. rewrite El in HL. pose proof (data_start_pos _ _ _ Sh1) as Hds.
  destruct (store_facts V1 sb _ x1 bn (splice o c (V1 a)) Sh1 F1 Hbn Hs1) as (A1 & A2 & _ & Hs & Hu).
  assert (length (V1 a) = BSIZE) as Hla by (apply HL; fold a in A1; lia).
  rewrite (fo_dev _ _ _ _ F). eapply wp_open; [exact R1|rewrite El; fold a in A1; lia|set_solver|rewrite size_empty; lia|].
  intros bp b2 R2 O2 E2. eapply (wp_write_back_last b2 V1 ∅ r bp a); [exact R2|exact O2|set_solver|fold a in A1; lia| |].
  { rewrite length_splice; [done|by rewrite Hla]. }
  intros b3 R3 E3. eapply HQ; [exact R3| | | | |].
  - eapply bl_ext_trans; [exact E1|eapply bl_ext_trans; [exact E2|exact E3|done]|done].
  - eapply written_trans; [by apply extends_written|by apply store_written].
  - pose proof (store_flat V1 sb _ x1 bn _ Sh1 F1 Hbn Hs1 o c HL Ho eq_refl) as Hsf. fold a in Hsf. rewrite Hsf.
    f_equal. unfold flat. f_equal. apply list_fmap_ext. intros k y Hk. apply lookup_seq in Hk as [-> Hk].
    by apply (ex_block _ _ _ _ _ _ X1).
  - rewrite Hs; [exact Hs1|by apply slot_of_lt].
  - etransitivity; [exact Hf1|]. apply free_mono. intros b Hb. by rewrite Hu.
Qed.

Lemma wp_writei_loop fuel i x tot off n src s V r sb j (Q : Z -> ist S -> Prop) :
  let k := nchunks off (n - tot) in
  bl_rep (blk s) V ∅ ∅ (6 * k + r) -> fs_shape V sb (bl_lim (blk s)) -> icache s !! i = Some x ->
  file_ok V sb (bl_lim (blk s)) x -> 0 <= tot <= n -> 0 <= off -> off + (n - tot) <= MAXFILE * 512 ->
  n <= Z.of_nat (length src) -> (2 * k + j <= length (free_blocks V sb (bl_lim (blk s))))%nat ->
  (Z.to_nat (n - tot) < fuel)%nat ->
  (forall b' V' x', bl_rep b' V' ∅ ∅ r -> bl_ext ∅ (blk s) b' -> written V sb (bl_lim (blk s)) x V' x' ->
     flat V' x' = splice (Z.to_nat off) (slice (Z.to_nat tot) (Z.to_nat (n - tot)) src) (flat V x) ->
     covers V' x' off (n - tot) -> (j <= length (free_blocks V' sb (bl_lim (blk s))))%nat ->
     Q (off + (n - tot)) (mkist (<[i := x']> (icache s)) b')) ->
  wp (writei_loop fuel i tot off n src) Q s.
Proof.
  cbv zeta. revert tot off x s V. induction fuel as [|fuel IH]; intros tot off x s V R Sh Hi F Htot Hoff Hmax Hsrc Hj Hfuel HQ; [lia|].
  cbn [writei_loop]. destruct (Z.ltb_spec tot n) as [Hlt|Hge].
  - change (Z.of_nat BSIZE) with 512. destruct (chunk_bounds off (n - tot)) as (Hm & Hbn & Ho & Hdiv & Hnat); [lia..|].
    pose proof (nchunks_step off (n - tot) Hoff ltac:(lia)) as Hk. cbv zeta in Hk.
    set (m := Z.min (n - tot) (512 - off mod 512)) in *. set (bn := Z.to_nat (off / 512)) in *.
    rewrite Hk in R, Hj. replace (n - tot - m) with (n - (tot + m)) in R, Hj by lia.
    assert (length (slice (Z.to_nat tot) (Z.to_nat m) src) = Z.to_nat m) as Hlc by (apply length_slice; lia).
    wp_steps. eapply wp_geti; [exact Hi|]. cbv zeta. rewrite Hdiv, Hlc, Nat.eqb_refl. cbn [negb].
    set (rest := writei_loop fuel i (tot + m) (off + m) n src).
    apply wp_bind_assoc, wp_bind.
    eapply (wp_write_chunk i x bn _ _ s V (6 * nchunks (off + m) (n - (tot + m)) + r) sb
        (2 * nchunks (off + m) (n - (tot + m)) + j)); [eapply bl_room; [exact R|lia]|exact Sh|exact Hi|exact F|exact Hbn|rewrite Hlc; unfold BSIZE; lia|lia|].
      intros b1 V1 x1 R1 E1 W1 Hf1 Hs1 Hfree1. pose proof (bl_ext_lim _ _ _ E1) as El. unfold rest.
      eapply (IH (tot + m) (off + m) x1); cbn [blk icache]; rewrite ?El; try done; try lia.
      + apply (wr_shape _ _ _ _ _ _ W1).
      + apply list_lookup_insert_eq. by eapply lookup_lt_Some.
      + apply (wr_ok _ _ _ _ _ _ W1).
      + intros b2 V2 x2 R2 E2 W2 Hf2 Hc2 Hfree2. rewrite list_insert_insert_eq.
        replace (off + m + (n - (tot + m))) with (off + (n - tot)) by lia.
        eapply HQ; [exact R2|by eapply bl_ext_trans|by eapply written_trans| | |exact Hfree2]; cycle 1.
        { replace (n - tot) with (m + (n - (tot + m))) by lia.
          eapply covers_step; [apply (wr_shape _ _ _ _ _ _ W1)|exact W2| |exact Hc2|lia|lia].
          intros bn' _ H1 H2 _. replace bn' with bn; [exact Hs1|]. unfold bn, m in *. pose proof (Z.div_mod off 512). lia. }
        rewrite Hf2, Hf1. replace (BSIZE * bn + Z.to_nat (off mod 512))%nat with (Z.to_nat off) by (unfold BSIZE; lia).
        replace (Z.to_nat (off + m)) with (Z.to_nat off + length (slice (Z.to_nat tot) (Z.to_nat m) src))%nat by lia.
        rewrite splice_app_l.
        * f_equal. replace (Z.to_nat (n - tot)) with (Z.to_nat m + Z.to_nat (n - (tot + m)))%nat by lia.
          rewrite slice_app. f_equal. f_equal; lia.
        * rewrite length_app, Hlc, length_slice by lia. rewrite (length_flat _ _ _ _ F).
          -- unfold MAXFILE, NDIRECT, NINDIRECT, BSIZE, nblocks in *. lia.
          -- intros p Hp Hz. destruct (fo_slot _ _ _ _ F _ Hp Hz) as (B1 & _). eapply bl_len; [exact R|].
            pose proof (data_start_pos _ _ _ Sh). lia.
  - wp_steps. replace (n - tot) with 0 in HQ by lia. rewrite Z.add_0_r in HQ.
    replace s with (mkist (<[i := x]> (icache s)) (blk s)) by (rewrite list_insert_id by done; by destruct s).
    eapply HQ; [eapply bl_room; [exact R|lia]|apply bl_ext_refl|by apply written_refl| |intros ? ?; lia|lia].
    unfold slice, splice. simpl. rewrite Nat.add_0_r. by rewrite take_drop.
Qed.
End Write.
