(* ===== verification/Dinode.v ===== *)
(** * The on-disk inode: what iupdate stores, ilock loads

    The round trip of an inode through its eighth of a block, the blocks that hold
    inodes and the bitmap kept apart from those of files, and writei on both. *)

From stdpp Require Import base list numbers strings functions gmap sets.
From S2P Require Import Prelude Spinlock Layout Buf Log Block Inode Content.
Import Ctx.

Open Scope Z_scope.
Local Open Scope kernel_scope.

(** The fields have the ranges of their C types. *)
Record inode_fits (x : inode) : Prop := {
  if_type : - 2 ^ 15 <= i_type x < 2 ^ 15;
  if_major : - 2 ^ 15 <= i_major x < 2 ^ 15;
  if_minor : - 2 ^ 15 <= i_minor x < 2 ^ 15;
  if_nlink : - 2 ^ 15 <= i_nlink x < 2 ^ 15;
  if_size : 0 <= i_size x < 2 ^ 32;
  if_addrs : length (i_addrs x) = 13%nat /\ Forall (fun a => 0 <= a < 2 ^ 32) (i_addrs x) }.

Lemma i16_u16 v : - 2 ^ 15 <= v < 2 ^ 15 -> i16 (u16 v) = v.
Proof. intros Hv. unfold i16, u16. rewrite Zplus_mod_idemp_l, Z.mod_small; lia. Qed.

Lemma get16_put16_ne d off off' v :
  (off + 2 <= length d)%nat -> (off' + 2 <= off \/ off + 2 <= off')%nat -> get16 (put16 d off v) off' = get16 d off'.
Proof. intros H Hd. unfold get16, put16. rewrite slice_splice_disj; rewrite ?length_to_le; done. Qed.

Lemma get32_put16_ne d off off' v :
  (off + 2 <= length d)%nat -> (off' + 4 <= off \/ off + 2 <= off')%nat -> get32 (put16 d off v) off' = get32 d off'.
Proof. intros H Hd. unfold get32, put16. rewrite slice_splice_disj; rewrite ?length_to_le; done. Qed.

Lemma get16_put32_ne d off off' v :
  (off + 4 <= length d)%nat -> (off' + 2 <= off \/ off + 4 <= off')%nat -> get16 (put32 d off v) off' = get16 d off'.
Proof. intros H Hd. unfold get16, put32. rewrite slice_splice_disj; rewrite ?length_to_le; done. Qed.

(** The stores of the addresses, one after another. *)
Section Addrs.
Context (o : nat).

Definition puts (d : list Z) (l : list (nat * Z)) : list Z :=
  foldl (fun d kv => put32 d (o + 12 + 4 * fst kv) (snd kv)) d l.

Lemma puts_cons d k v l : puts d ((k, v) :: l) = puts (put32 d (o + 12 + 4 * k) v) l.
Proof. done. Qed.

Lemma length_puts d l : Forall (fun kv => o + 16 + 4 * fst kv <= length d)%nat l -> length (puts d l) = length d.
Proof.
  revert d. induction l as [|[k v] l IH]; intros d Hl; [done|]. inversion Hl as [|? ? H1 H2]; subst. cbn [fst] in H1.
  rewrite puts_cons. assert (length (put32 d (o + 12 + 4 * k) v) = length d) as E by (apply length_put32; lia).
  rewrite IH; [done|]. by rewrite E.
Qed.

Lemma puts_outside d l off n : Forall (fun kv => o + 16 + 4 * fst kv <= length d)%nat l ->
  Forall (fun kv => off + n <= o + 12 \/ o + 16 + 4 * fst kv <= off)%nat l -> slice off n (puts d l) = slice off n d.
Proof.
  revert d. induction l as [|[k v] l IH]; intros d Hl Ho; [done|]. inversion Hl as [|? ? H1 H2]; subst. cbn [fst] in H1.
  inversion Ho as [|? ? O1 O2]; subst. cbn [fst] in O1.
  rewrite puts_cons. assert (length (put32 d (o + 12 + 4 * k) v) = length d) as E by (apply length_put32; lia).
  rewrite IH; [|by rewrite E|done]. unfold put32. apply slice_splice_disj; rewrite length_to_le; lia.
Qed.

Lemma puts_below d l off n : Forall (fun kv => o + 16 + 4 * fst kv <= length d)%nat l -> (off + n <= o + 12)%nat ->
  slice off n (puts d l) = slice off n d.
Proof. intros Hl Ho. apply puts_outside; [done|]. eapply Forall_impl; [exact Hl|]. intros. by left. Qed.

Lemma puts_get d l j :
  Forall (fun kv => o + 16 + 4 * fst kv <= length d)%nat l -> (forall k v, (k, v) ∈ l -> k <> j) ->
  get32 (puts d l) (o + 12 + 4 * j) = get32 d (o + 12 + 4 * j).
Proof.
  revert d. induction l as [|[k v] l IH]; intros d Hl Hne; [done|]. inversion Hl as [|? ? H1 H2]; subst. cbn [fst] in H1.
  rewrite puts_cons. assert (length (put32 d (o + 12 + 4 * k) v) = length d) as E by (apply length_put32; lia).
  rewrite IH; [|by rewrite E|intros k' v' Hin; eapply Hne; right; done].
  apply get32_put32_ne; [lia|]. assert (k <> j) by (eapply Hne; left). lia.
Qed.

Lemma puts_read d (l : list Z) i0 j v :
  (o + 16 + 4 * (i0 + length l) <= length d + 4)%nat -> l !! j = Some v ->
  get32 (puts d (imap (fun k v => ((i0 + k)%nat, v)) l)) (o + 12 + 4 * (i0 + j)) = u32 v.
Proof.
  revert d i0 j. induction l as [|w l IH]; intros d i0 j Hl Hj; [done|]. cbn [imap length] in *.
  rewrite puts_cons, Nat.add_0_r. set (d1 := put32 d (o + 12 + 4 * i0) w).
  assert (length d1 = length d) as E by (apply length_put32; lia).
  assert (imap ((fun k v => ((i0 + k)%nat, v)) ∘ S) l = imap (fun k v => ((S i0 + k)%nat, v)) l) as ->
    by (apply imap_ext; intros; simpl; f_equal; lia).
  destruct j as [|j]; simpl in Hj.
  - injection Hj as ->. rewrite Nat.add_0_r. rewrite puts_get.
    + unfold d1. apply get32_put32. lia.
    + apply list.Forall_forall. intros [k v'] Hin. apply elem_of_lookup_imap in Hin as (k' & v'' & [= -> ->] & Hk').
      apply lookup_lt_Some in Hk'. simpl. lia.
    + intros k v' Hin. apply elem_of_lookup_imap in Hin as (k' & v'' & [= -> ->] & Hk'). lia.
  - replace (i0 + S j)%nat with (S i0 + j)%nat by lia. apply (IH d1 (S i0) j); [rewrite E; lia|exact Hj].
Qed.
End Addrs.

Lemma put_addrs_puts d o l : put_addrs d o l = puts o d (imap (fun k v => ((0 + k)%nat, v)) l).
Proof. done. Qed.

Section Dinode.
Context (d : list Z) (o : nat) (x : inode).
Hypothesis Hd : (o + 64 <= length d)%nat.
Hypothesis Hx : inode_fits x.

Let d1 := put16 d o (i_type x).
Let d2 := put16 d1 (o + 2) (i_major x).
Let d3 := put16 d2 (o + 4) (i_minor x).
Let d4 := put16 d3 (o + 6) (i_nlink x).
Let d5 := put32 d4 (o + 8) (i_size x).

Lemma head_lens : length d1 = length d /\ length d2 = length d /\ length d3 = length d /\ length d4 = length d /\ length d5 = length d.
Proof.
  assert (length d1 = length d) as E1 by (apply length_put16; lia).
  assert (length d2 = length d) as E2 by (unfold d2; rewrite length_put16; lia).
  assert (length d3 = length d) as E3 by (unfold d3; rewrite length_put16; lia).
  assert (length d4 = length d) as E4 by (unfold d4; rewrite length_put16; lia).
  assert (length d5 = length d) as E5 by (unfold d5; rewrite length_put32; lia). done.
Qed.

Lemma addr_stores : Forall (fun kv => o + 16 + 4 * fst kv <= length d5)%nat (imap (fun k v => ((0 + k)%nat, v)) (i_addrs x)).
Proof.
  destruct head_lens as (_ & _ & _ & _ & E5). apply list.Forall_forall. intros [k v] Hin.
  apply elem_of_lookup_imap in Hin as (k' & v' & [= -> ->] & Hk). apply lookup_lt_Some in Hk.
  rewrite (proj1 (if_addrs _ Hx)) in Hk. cbn [fst]. lia.
Qed.

Lemma length_store : length (store_dinode d o x) = length d.
Proof.
  destruct head_lens as (_ & _ & _ & _ & E5). unfold store_dinode. rewrite put_addrs_puts.
  etransitivity; [|exact E5]. apply length_puts, addr_stores.
Qed.

Lemma store_get16 off : (off + 2 <= o + 12)%nat -> get16 (store_dinode d o x) off = get16 d5 off.
Proof.
  intros Ho. unfold store_dinode, get16. rewrite put_addrs_puts. f_equal. apply puts_below; [apply addr_stores|lia].
Qed.

Lemma store_get32 off : (off + 4 <= o + 12)%nat -> get32 (store_dinode d o x) off = get32 d5 off.
Proof.
  intros Ho. unfold store_dinode, get32. rewrite put_addrs_puts. f_equal. apply puts_below; [apply addr_stores|lia].
Qed.

(** Loading what was stored gives back every field, and the stores stay within the
    sixty-four bytes of the inode. *)
Lemma load_store y :
  load_dinode (store_dinode d o x) o y =
    mkinode (i_dev y) (i_inum y) (i_ref y) (i_flags y) (i_type x) (i_major x) (i_minor x) (i_nlink x) (i_size x) (i_addrs x).
Proof.
  destruct head_lens as (E1 & E2 & E3 & E4 & E5). destruct Hx as [X1 X2 X3 X4 X5 [X6 X7]]. unfold load_dinode.
  rewrite !store_get16 by lia.
  assert (get16 d5 o = u16 (i_type x)) as ->.
  { unfold d5, d4, d3, d2, d1 in *. rewrite get16_put32_ne, !get16_put16_ne, get16_put16 by lia. done. }
  assert (get16 d5 (o + 2) = u16 (i_major x)) as ->.
  { unfold d5, d4, d3, d2 in *. rewrite get16_put32_ne, !get16_put16_ne, get16_put16 by lia. done. }
  assert (get16 d5 (o + 4) = u16 (i_minor x)) as ->.
  { unfold d5, d4, d3 in *. rewrite get16_put32_ne, !get16_put16_ne, get16_put16 by lia. done. }
  assert (get16 d5 (o + 6) = u16 (i_nlink x)) as ->.
  { unfold d5, d4 in *. rewrite get16_put32_ne, get16_put16 by lia. done. }
  rewrite !i16_u16 by done. f_equal.
  - rewrite store_get32 by lia. unfold d5. rewrite get32_put32 by lia. by apply u32_small.
  - unfold get_addrs, store_dinode. rewrite put_addrs_puts. apply list_eq. intros j. rewrite list_lookup_fmap.
    destruct (decide (j < 13)%nat) as [Hj|Hj].
    + rewrite lookup_seq_lt by done. cbn [fmap option_fmap option_map].
      destruct (lookup_lt_is_Some_2 (i_addrs x) j) as [v Hv]; [lia|]. rewrite Hv. f_equal.
      etransitivity; [exact (puts_read o d5 (i_addrs x) 0 j v ltac:(lia) Hv)|].
      rewrite list.Forall_lookup in X7. apply u32_small. by eapply X7.
    + rewrite (lookup_ge_None_2 (seq 0 13)) by (rewrite length_seq; lia). simpl. symmetry. apply lookup_ge_None_2. lia.
Qed.

Lemma store_outside off n : (off + n <= o \/ o + 64 <= off)%nat -> slice off n (store_dinode d o x) = slice off n d.
Proof.
  intros Ho. destruct head_lens as (E1 & E2 & E3 & E4 & E5). unfold store_dinode. rewrite put_addrs_puts. rewrite puts_outside.
  - unfold d5, d4, d3, d2, d1, put16, put32 in *. rewrite !slice_splice_disj; rewrite ?length_to_le; lia || done.
  - apply addr_stores.
  - apply list.Forall_forall. intros [k v] Hin. apply elem_of_lookup_imap in Hin as (k' & v' & [= -> ->] & Hk).
    apply lookup_lt_Some in Hk. rewrite (proj1 (if_addrs _ Hx)) in Hk. cbn [fst]. lia.
Qed.

Lemma load_outside o' y : (o' + 64 <= o \/ o + 64 <= o')%nat -> load_dinode (store_dinode d o x) o' y = load_dinode d o' y.
Proof.
  intros Ho. unfold load_dinode, get16, get32. rewrite !store_outside by lia. f_equal.
  unfold get_addrs, get32. apply list_fmap_ext. intros k j Hj. apply lookup_seq in Hj as [-> Hj]. rewrite store_outside by lia. done.
Qed.
End Dinode.

(** ** Blocks that are neither data nor bitmap *)

Definition inode_block (sb : superblock) (n : Z) : Prop :=
  2 <= n < data_start sb /\ forall b, 0 <= b < sb_size sb -> n <> BBLOCK b (sb_ninodes sb).

Lemma IBLOCK_inode V sb lim inum :
  fs_shape V sb lim -> 0 <= inum < sb_ninodes sb -> inode_block sb (IBLOCK inum).
Proof.
  intros Sh Hi. pose proof (BBLOCK_data _ _ _ 0 Sh) as H0. destruct Sh as [_ S2 S3 _ _].
  assert (0 <= inum / 8 <= sb_ninodes sb / 8) by (split; [apply Z.div_pos; lia|apply Z.div_le_mono; lia]).
  unfold inode_block, IBLOCK, BBLOCK, data_start, IPB, BPB in *. split.
  - assert (0 <= (sb_size sb - 1) / 4096) by (apply Z.div_pos; lia). unfold BBLOCK, IPB, BPB. lia.
  - intros b Hb. assert (0 <= b / 4096) by (apply Z.div_pos; lia). lia.
Qed.

Section Meta.
Context (V : Z -> list Z) (sb : superblock) (lim : Z) (n : Z) (d : list Z).
Hypothesis Sh : fs_shape V sb lim.
Hypothesis Hn : inode_block sb n.

Lemma meta_used b : 0 <= b < sb_size sb -> used (<[n := d]> V) sb b = used V sb b.
Proof. intros Hb. destruct Hn as [_ Hnb]. unfold used. rewrite fn_lookup_insert_ne; [done|]. by apply Hnb. Qed.

Lemma meta_shape : data_start sb <= sb_size sb -> fs_shape (<[n := d]> V) sb lim.
Proof.
  intros Hds. pose proof (data_start_pos _ _ _ Sh). destruct Hn as [Hr Hnb]. pose proof Sh as [S1 S2 S3 S4 S5]. constructor; try done.
  - rewrite fn_lookup_insert_ne by lia. done.
  - intros b Hb. rewrite meta_used by lia. by apply S5.
Qed.

Lemma meta_slot x p : file_ok V sb lim x -> slot (<[n := d]> V) x p = slot V x p.
Proof.
  intros F. unfold slot. destruct (p <? 13)%nat; [done|]. destruct (ind x =? 0) eqn:E; [done|]. zbool.
  destruct (fo_slot _ _ _ _ F ind_slot) as (A1 & _); [unfold ind_slot, nslots; lia|done|]. rewrite slot_ind in A1.
  destruct Hn as [Hr _]. rewrite fn_lookup_insert_ne by lia. done.
Qed.

Lemma meta_file x : file_ok V sb lim x -> file_ok (<[n := d]> V) sb lim x.
Proof.
  intros F. pose proof F as [F1 F2 F3 F4 F5]. pose proof (data_start_pos _ _ _ Sh). constructor; try done.
  - intros p Hp. rewrite meta_slot by done. intros Hz. destruct (F4 p Hp Hz) as (B1 & B2 & B3).
    split_and!; try lia. rewrite meta_used by lia. done.
  - intros p q Hp Hq. rewrite !meta_slot by done. by apply F5.
Qed.

Lemma meta_flat x : file_ok V sb lim x -> flat (<[n := d]> V) x = flat V x.
Proof.
  intros F. unfold flat. f_equal. apply list_fmap_ext. intros k bn Hk. apply lookup_seq in Hk as [-> Hk]. cbn [Nat.add].
  unfold block_of. rewrite meta_slot by done. destruct (slot V x (slot_of k) =? 0) eqn:E; [done|]. zbool.
  destruct (slot_of_lt k Hk) as [Hs _]. destruct (fo_slot _ _ _ _ F _ Hs E) as (A1 & _).
  destruct Hn as [Hr _]. rewrite fn_lookup_insert_ne by lia. done.
Qed.
End Meta.

Lemma dip_off_fits inum : (dip_off inum + 64 <= BSIZE)%nat.
Proof. unfold dip_off, sizeof_dinode, IPB, BSIZE. pose proof (Z.mod_pos_bound inum 8). lia. Qed.

Section Update.
Context {S : Type} `{HasCtx S} `{!BlockLayer S} `{!BlockLaws S}.
Implicit Types (s : ist S) (b : S) (V : Z -> list Z).
Variable dev_write : Z -> option (nat -> list Z -> Z -> M (ist S) Z).

Lemma wp_iupdate_log i x s V r r' sb (Q : unit -> ist S -> Prop) :
  bl_rep (blk s) V ∅ ∅ (1 + r) -> fs_shape V sb (bl_lim (blk s)) -> icache s !! i = Some x ->
  i_dev x = ROOTDEV -> 0 <= i_inum x < sb_ninodes sb -> inode_fits x ->
  r' = r \/ r' = Datatypes.S r /\ bl_logged (blk s) (IBLOCK (i_inum x)) ->
  (forall b', bl_rep b' (<[IBLOCK (i_inum x) := store_dinode (V (IBLOCK (i_inum x))) (dip_off (i_inum x)) x]> V) ∅ ∅ r' ->
     bl_ext ∅ (blk s) b' -> bl_logged b' (IBLOCK (i_inum x)) -> Q tt (mkist (icache s) b')) ->
  wp (iupdate i) Q s.
Proof.
  intros R Sh Hi Hdev Hin Hfit Hr HQ. unfold iupdate. wp_steps. eapply wp_geti; [exact Hi|]. apply wp_in_blk. rewrite Hdev.
  destruct (IBLOCK_inode _ _ _ _ Sh Hin) as [Hb _]. pose proof (sh_lim _ _ _ Sh) as Hl.
  eapply wp_open; [exact R|lia|set_solver|rewrite size_empty; lia|]. intros bp b1 R1 O1 E1.
  assert (length (V (IBLOCK (i_inum x))) = BSIZE) as Hlen by (eapply bl_len; [exact R|lia]).
  assert (r' = r \/ r' = Datatypes.S r /\ bl_logged b1 (IBLOCK (i_inum x))) as Hr1.
  { destruct Hr as [?|[? Hlg]]; [by left|right]. split; [done|by apply E1]. }
  eapply wp_store_back_last; [exact R1|exact O1|set_solver|lia| |exact Hr1|].
  { rewrite length_store; [done|rewrite Hlen; apply dip_off_fits|done]. }
  intros b2 R2 E2 L2. apply HQ; [exact R2|by eapply bl_ext_trans|exact L2].
Qed.

Lemma wp_iupdate i x s V r sb (Q : unit -> ist S -> Prop) :
  bl_rep (blk s) V ∅ ∅ (1 + r) -> fs_shape V sb (bl_lim (blk s)) -> icache s !! i = Some x ->
  i_dev x = ROOTDEV -> 0 <= i_inum x < sb_ninodes sb -> inode_fits x ->
  (forall b', bl_rep b' (<[IBLOCK (i_inum x) := store_dinode (V (IBLOCK (i_inum x))) (dip_off (i_inum x)) x]> V) ∅ ∅ r ->
     bl_ext ∅ (blk s) b' -> Q tt (mkist (icache s) b')) ->
  wp (iupdate i) Q s.
Proof. intros R Sh Hi Hdev Hin Hfit HQ. eapply wp_iupdate_log; try done; [by left|]. intros b' R' E' _. by apply HQ. Qed.

End Update.

(** ** The effect of writei *)

(** The size of the file after a write. *)
Definition new_size (x : inode) (off n : Z) : Z :=
  if (0 <? n) && (i_size x <? off + n) then off + n else i_size x.

Lemma content_splice V x V' x' off n src :
  0 <= off <= i_size x -> 0 <= n <= Z.of_nat (length src) -> (Z.to_nat (Z.max (i_size x) (off + n)) <= length (flat V x))%nat ->
  flat V' x' = splice (Z.to_nat off) (take (Z.to_nat n) src) (flat V x) -> i_size x' = new_size x off n ->
  content V' x' = splice (Z.to_nat off) (take (Z.to_nat n) src) (content V x).
Proof.
  intros Ho Hn Hlen Hf Hs. unfold content. rewrite Hf, Hs.
  rewrite <- take_splice; rewrite ?length_take; [|lia..]. f_equal. unfold new_size.
  destruct (Z.ltb_spec 0 n), (Z.ltb_spec (i_size x) (off + n)); cbn [andb]; lia.
Qed.

(** The state of the file system after [c] was written at [off]: contents and size of the
    file; no block of another file changed. *)
Record wrote (V : Z -> list Z) (sb : superblock) (lim : Z) (x : inode) (off n : Z) (src : list Z)
    (V' : Z -> list Z) (x' : inode) : Prop := {
  wo_shape : fs_shape V' sb lim;
  wo_ok : file_ok V' sb lim x';
  wo_full : full V' x';
  wo_ino : x' = iw_size (new_size x off n) (iw_addrs (i_addrs x') x);
  wo_content : content V' x' = splice (Z.to_nat off) (take (Z.to_nat n) src) (content V x);
  wo_same : forall m, data_start sb <= m < sb_size sb -> used V sb m = true ->
    (forall p, (p < nslots)%nat -> slot V x p <> m) -> V' m = V m;
  wo_meta : forall m, m < data_start sb -> (forall b, 0 <= b < sb_size sb -> m <> BBLOCK b (sb_ninodes sb)) ->
    m <> IBLOCK (i_inum x) -> V' m = V m;
  wo_used : forall b, 0 <= b < sb_size sb -> used V sb b = true -> used V' sb b = true }.

(** The dinode that ilock would load is the cached inode. *)
Definition on_disk (V : Z -> list Z) (x : inode) : Prop :=
  load_dinode (V (IBLOCK (i_inum x))) (dip_off (i_inum x)) x = x.

Lemma file_ok_size V sb lim x v :
  file_ok V sb lim x -> 0 <= v <= MAXFILE * Z.of_nat BSIZE -> file_ok V sb lim (iw_size v x).
Proof. intros [F1 F2 F3 F4 F5] Hv. constructor; done. Qed.

Lemma file_fits V sb lim x y :
  fs_shape V sb lim -> file_ok V sb lim x -> inode_fits y -> x = iw_size (i_size x) (iw_addrs (i_addrs x) y) -> inode_fits x.
Proof.
  intros Sh F [Y1 Y2 Y3 Y4 Y5 Y6] E. pose proof F as [F1 F2 F3 F4 F5].
  unfold MAXFILE, NDIRECT, NINDIRECT in F3. change (Z.of_nat BSIZE) with 512 in F3.
  constructor; try (rewrite E; assumption); [lia|]. split; [done|]. apply list.Forall_lookup. intros p a Ha.
  pose proof (lookup_lt_Some _ _ _ Ha) as Hp. rewrite F2 in Hp.
  assert (slot V x p = a) as Hs by (rewrite slot_direct, Ha by lia; done).
  destruct (decide (a = 0)) as [->|Hz]; [lia|].
  destruct (F4 p) as (B1 & B2 & _); [unfold nslots; lia|congruence|]. rewrite Hs in *.
  pose proof (data_start_pos _ _ _ Sh). pose proof (sh_size _ _ _ Sh). lia.
Qed.

Lemma written_full V sb lim x V' x' off n :
  fs_shape V sb lim -> full V x -> written V sb lim x V' x' -> covers V' x' off n ->
  0 <= off <= i_size x -> new_size x off n <= MAXFILE * Z.of_nat BSIZE ->
  full V' (iw_size (new_size x off n) x').
Proof.
  intros Sh Hf W C Ho Hmax bn Hbn. cbn [i_size iw_size] in Hbn. change (slot V' x' (slot_of bn) <> 0).
  unfold MAXFILE, NDIRECT, NINDIRECT in Hmax. change (Z.of_nat BSIZE) with 512 in *.
  assert (bn < nblocks)%nat as Hlt by (unfold nblocks; lia).
  destruct (decide (Z.of_nat bn * 512 < i_size x)) as [Hs|Hs].
  - eapply written_slot; [exact Sh|exact W|by apply slot_of_lt|]. by apply Hf.
  - unfold new_size in Hbn. destruct (Z.ltb_spec 0 n), (Z.ltb_spec (i_size x) (off + n)); cbn [andb] in Hbn; try lia.
    apply C; lia.
Qed.

Lemma new_size_max x off n : 0 <= off <= i_size x -> 0 <= n -> new_size x off n = Z.max (i_size x) (off + n).
Proof. intros. unfold new_size. destruct (Z.ltb_spec 0 n), (Z.ltb_spec (i_size x) (off + n)); cbn [andb]; lia. Qed.

Lemma written_wrote V sb lim x V' x' off n src :
  fs_shape V sb lim -> file_ok V sb lim x -> full V x -> (forall m, 0 <= m < lim -> length (V m) = BSIZE) ->
  0 <= off <= i_size x -> 0 <= n <= Z.of_nat (length src) -> off + n <= MAXFILE * Z.of_nat BSIZE ->
  written V sb lim x V' x' -> covers V' x' off n ->
  flat V' x' = splice (Z.to_nat off) (take (Z.to_nat n) src) (flat V x) ->
  wrote V sb lim x off n src V' (iw_size (new_size x off n) x').
Proof.
  intros Sh F Hfull HL Ho Hn Hmax W C Hf. pose proof (fo_size _ _ _ _ F) as Hsz.
  assert (MAXFILE * Z.of_nat BSIZE = 71680) as HM by reflexivity.
  pose proof (new_size_max x off n Ho (proj1 Hn)) as Hns. pose proof W as [W1 W2 W3 W4 W5 W6 W7]. constructor; try done.
  - apply file_ok_size; [done|]. lia.
  - eapply written_full; [exact Sh|done|exact W|exact C|done|lia].
  - rewrite W7 at 1. done.
  - apply content_splice; try done.
    rewrite (length_flat _ _ _ _ F); [unfold BSIZE, nblocks; lia|].
    intros p Hp Hz. destruct (fo_slot _ _ _ _ F _ Hp Hz) as (B1 & _). apply HL.
    pose proof (data_start_pos _ _ _ Sh). lia.
  - intros m H1 H2 _. by apply W4.
Qed.

Lemma wrote_meta V sb lim x off n src V' x' d :
  wrote V sb lim x off n src V' x' -> inode_block sb (IBLOCK (i_inum x)) -> data_start sb <= sb_size sb ->
  wrote V sb lim x off n src (<[IBLOCK (i_inum x) := d]> V') x'.
Proof.
  intros [W1 W2 W3 W4 W5 W6 W7 W8] Hb Hds. pose proof Hb as [Hr _]. constructor; try done.
  - by apply meta_shape.
  - by apply meta_file.
  - intros bn Hbn. erewrite meta_slot by eauto. by apply W3.
  - unfold content. erewrite meta_flat by eauto. done.
  - intros m Hm Hu Hs. rewrite fn_lookup_insert_ne by lia. by apply W6.
  - intros m Hm Hbb Hne. rewrite fn_lookup_insert_ne by done. by apply W7.
  - intros b Hbr Hu. erewrite meta_used by eauto. by apply W8.
Qed.

Section Writei.
Context {S : Type} `{HasCtx S} `{!BlockLayer S} `{!BlockLaws S}.
Implicit Types (s : ist S) (b : S) (V : Z -> list Z).
Variable dev_write : Z -> option (nat -> list Z -> Z -> M (ist S) Z).

Lemma wp_writei i x off n src s V r sb (Q : Z -> ist S -> Prop) :
  bl_rep (blk s) V ∅ ∅ (6 * nchunks off n + (1 + r)) -> fs_shape V sb (bl_lim (blk s)) ->
  data_start sb <= sb_size sb -> icache s !! i = Some x ->
  file_ok V sb (bl_lim (blk s)) x -> full V x -> inode_fits x -> 0 <= i_inum x < sb_ninodes sb -> i_type x <> T_DEV ->
  0 <= off <= i_size x -> 0 <= n <= Z.of_nat (length src) -> off + n <= MAXFILE * Z.of_nat BSIZE ->
  (2 * nchunks off n <= length (free_blocks V sb (bl_lim (blk s))))%nat ->
  (forall b' V' x', bl_rep b' V' ∅ ∅ r -> bl_ext ∅ (blk s) b' -> wrote V sb (bl_lim (blk s)) x off n src V' x' ->
     (i_size x < i_size x' -> on_disk V' x') -> Q n (mkist (<[i := x']> (icache s)) b')) ->
  wp (writei dev_write i src off n) Q s.
Proof.
  intros R Sh Hds Hi F Hfull Hfit Hin Hty Ho Hn Hmax Hfree HQ. pose proof (fo_size _ _ _ _ F) as Hsz.
  unfold writei. wp_steps. eapply wp_geti; [exact Hi|]. rewrite (proj2 (Z.eqb_neq _ _) Hty).
  assert (MAXFILE * Z.of_nat BSIZE = 71680) as HM by reflexivity.
  rewrite (u32_small (off + n)) by lia.
  rewrite (proj2 (Z.ltb_ge _ _)), (proj2 (Z.ltb_ge _ _)), (proj2 (Z.ltb_ge _ _)) by lia. cbn [orb].
  wp_steps. eapply (wp_writei_loop _ i x 0 off n src s V (1 + r) sb 0);
    rewrite ?Z.sub_0_r; [exact R|exact Sh|exact Hi|exact F|lia|lia|rewrite HM in Hmax; exact Hmax|lia|lia|lia|].
  intros b1 V1 x1 R1 E1 W Hf C _. wp_steps. eapply wp_geti; [cbn [icache]; apply list_lookup_insert_eq; by eapply lookup_lt_Some|].
  set (x2 := iw_size (new_size x off n) x1).
  assert (wrote V sb (bl_lim (blk s)) x off n src V1 x2) as Wr.
  { eapply written_wrote; eauto. intros m Hm. by eapply bl_len. }
  pose proof (wr_ino _ _ _ _ _ _ W) as Hx1. pose proof (bl_ext_lim _ _ _ E1) as El.
  assert (i_size x1 = i_size x) as Es by (rewrite Hx1; done).
  assert (i_inum x1 = i_inum x) as En by (rewrite Hx1; done).
  rewrite Es. destruct ((0 <? n) && (i_size x <? off + n)) eqn:Eg.
  - assert (x2 = iw_size (off + n) x1) as Hx2 by (unfold x2, new_size; rewrite Eg; done).
    wp_steps. eapply wp_seti; [cbn [icache]; apply list_lookup_insert_eq; by eapply lookup_lt_Some|].
    cbn [icache blk]. rewrite list_insert_insert_eq, <- Hx2. wp_steps.
    assert (inode_fits x2) as Hfit2.
    { eapply (file_fits V1 sb); [apply Wr|apply Wr|exact Hfit|]. unfold x2. rewrite Hx1 at 1. done. }
    assert (i_inum x2 = i_inum x) as En2 by (subst x2; exact En).
    eapply (wp_iupdate i x2 _ V1 r sb); cbn [icache blk]; rewrite ?El, ?En2; try done.
    + apply Wr.
    + apply list_lookup_insert_eq. by eapply lookup_lt_Some.
    + apply (fo_dev _ _ _ _ (wo_ok _ _ _ _ _ _ _ _ _ Wr)).
    + intros b2 R2 E2. wp_steps. eapply HQ; [exact R2|by eapply bl_ext_trans| |].
      * apply wrote_meta; [done| |done]. by eapply IBLOCK_inode.
      * intros _. unfold on_disk. rewrite En2, fn_lookup_insert. rewrite load_store; [by destruct x2|..|done].
        erewrite (bl_len b1); [apply dip_off_fits|exact R1|].
        destruct (IBLOCK_inode _ _ _ _ Sh Hin) as [Hb _]. pose proof (sh_lim _ _ _ Sh). lia.
  - assert (x2 = x1) as Hx2 by (unfold x2, new_size; rewrite Eg, <- Es; by destruct x1).
    wp_steps. rewrite <- Hx2. eapply HQ; [eapply bl_room; [exact R1|lia]|done|done|].
    rewrite Hx2, Es. lia.
Qed.
End Writei.
