(* ===== verification/Icache.v ===== *)
(** * Properties of the inode cache and of reading and writing inodes

    The invariant of icache and what iget, iput and ilock do to it, the round trip of an
    inode through the disk, and the round trip of the bytes of a file. *)

From stdpp Require Import base list numbers strings functions gmap sets.
From S2P Require Import Prelude Spinlock Layout Buf Log Block Inode Content Dinode.
Import Ctx.

Open Scope Z_scope.
Local Open Scope kernel_scope.

(** ** The scan of iget *)

Definition is_for (dev inum : Z) (x : inode) : Prop := 0 < i_ref x /\ i_dev x = dev /\ i_inum x = inum.

#[export] Instance is_for_dec dev inum x : Decision (is_for dev inum x).
Proof. unfold is_for. apply _. Defined.

(** Reference counts are not negative, and no inode is cached twice. *)
Record icache_ok (l : list inode) : Prop := {
  ic_ref : forall i x, l !! i = Some x -> 0 <= i_ref x;
  ic_inj : forall i j x y dev inum, l !! i = Some x -> l !! j = Some y -> is_for dev inum x -> is_for dev inum y -> i = j }.

Lemma scan_test dev inum x :
  (0 <? i_ref x) && (i_dev x =? dev) && (i_inum x =? inum) = bool_decide (is_for dev inum x).
Proof.
  unfold is_for. case_bool_decide as Hd.
  - destruct Hd as (? & ? & ?). rewrite !andb_true_iff, Z.ltb_lt, !Z.eqb_eq. done.
  - apply not_true_is_false. rewrite !andb_true_iff, Z.ltb_lt, !Z.eqb_eq. naive_solver.
Qed.

Lemma iget_scan_found l k dev inum e i x :
  l !! i = Some x -> is_for dev inum x -> (forall j y, (j < i)%nat -> l !! j = Some y -> ~ is_for dev inum y) ->
  fst (iget_scan l k dev inum e) = Some (k + i)%nat.
Proof.
  revert l k e. induction i as [|i IH]; intros [|y l] k e Hl Hx Hb; try done; cbn [iget_scan]; rewrite scan_test.
  - cbn in Hl. injection Hl as ->. rewrite bool_decide_eq_true_2 by done. cbn. f_equal. lia.
  - rewrite bool_decide_eq_false_2 by (apply (Hb 0%nat); [lia|done]).
    rewrite (IH l); [f_equal; lia|done|done|]. intros j z Hj. apply (Hb (S j)). lia.
Qed.

Lemma iget_scan_none l k dev inum e :
  (forall j y, l !! j = Some y -> ~ is_for dev inum y) ->
  iget_scan l k dev inum e = (None, match e with Some e => Some e | None =>
    (fun p => (k + fst p)%nat) <$> list_find (fun x => i_ref x = 0) l end).
Proof.
  revert k e. induction l as [|y l IH]; intros k e Hb; [by destruct e|]. cbn [iget_scan]. rewrite scan_test.
  rewrite bool_decide_eq_false_2 by (apply (Hb 0%nat); done).
  rewrite IH by (intros j z; apply (Hb (S j))). f_equal. destruct e as [e|]; [done|].
  cbn [list_find]. destruct (Z.eqb_spec (i_ref y) 0) as [E|E]; [rewrite decide_True by done|rewrite decide_False by done].
  - cbn. f_equal. lia.
  - destruct (list_find _ l) as [[p z]|]; cbn; [f_equal; lia|done].
Qed.

(** ** What the operations do to the invariant *)

Lemma icache_ok_insert l i x' :
  icache_ok l -> 0 <= i_ref x' -> (forall j y dev inum, j <> i -> l !! j = Some y -> is_for dev inum x' -> ~ is_for dev inum y) ->
  icache_ok (<[i := x']> l).
Proof.
  intros [O1 O2] Hr Hn. constructor.
  - intros j y Hj. apply list_lookup_insert_Some in Hj as [(-> & -> & _)|[_ Hj]]; [done|by eapply O1].
  - intros j j' y y' dev inum Hj Hj' F F'.
    apply list_lookup_insert_Some in Hj as [(-> & -> & _)|[Hne Hj]], Hj' as [(<- & <- & _)|[Hne' Hj']]; try done.
    + by destruct (Hn j' y' dev inum).
    + by destruct (Hn j y dev inum).
    + by eapply O2.
Qed.

(** An update that keeps the inode a slot stands for. *)
Lemma icache_ok_same l i x x' :
  icache_ok l -> l !! i = Some x -> 0 <= i_ref x' -> (forall dev inum, is_for dev inum x' -> is_for dev inum x) ->
  icache_ok (<[i := x']> l).
Proof.
  intros O Hi Hr Hf. apply icache_ok_insert; [done|done|]. intros j y dev inum Hj Hl F F'.
  apply Hj. eapply (ic_inj _ O); [exact Hl|exact Hi|exact F'|by apply Hf].
Qed.

Section Iget.
Context {S : Type} `{HasCtx S} `{!BlockLayer S}.
Implicit Types (s : ist S).

Lemma ctx_back (b : S) h : with_ctx (mkctx (held (ctx b)) (woken (ctx b)) (killed (ctx b))) (with_ctx h b) = b.
Proof. rewrite with_with. rewrite <- (with_same b) at 5. f_equal. by destruct (ctx b). Qed.

Lemma wp_iget_hit i x dev inum s (Q : nat -> ist S -> Prop) :
  icache_ok (icache s) -> LkIcache ∉ held (ctx s) -> icache s !! i = Some x -> is_for dev inum x ->
  Q i (mkist (<[i := iw_ref (i_ref x + 1) x]> (icache s)) (blk s)) -> wp (iget dev inum) Q s.
Proof.
  intros O Hl Hi F HQ. unfold iget. wp_steps. apply wp_acquire; [done|]. wp_steps.
  change (icache (with_ctx _ s)) with (icache s).
  assert (fst (iget_scan (icache s) 0 dev inum None) = Some i) as Hs.
  { eapply (iget_scan_found _ 0); [exact Hi|exact F|]. intros j y Hj Hy F'. pose proof (ic_inj _ O _ _ _ _ _ _ Hi Hy F F'). lia. }
  destruct (iget_scan _ _ _ _ _) as [o e]. cbn in Hs. subst o. wp_steps.
  eapply wp_seti; [exact Hi|]. wp_steps. eapply wp_release; [cbn; by rewrite ctx_with|]. wp_steps.
  cbn. rewrite !ctx_with. cbn [woken killed]. rewrite ctx_back. exact HQ.
Qed.

Lemma wp_iget_miss i x dev inum s (Q : nat -> ist S -> Prop) :
  LkIcache ∉ held (ctx s) -> (forall j y, icache s !! j = Some y -> ~ is_for dev inum y) ->
  list_find (fun x => i_ref x = 0) (icache s) = Some (i, x) ->
  Q i (mkist (<[i := iw_flags 0 (iw_ref 1 (iw_id dev inum x))]> (icache s)) (blk s)) -> wp (iget dev inum) Q s.
Proof.
  intros Hl Hn Hf HQ. unfold iget. wp_steps. apply wp_acquire; [done|]. wp_steps.
  change (icache (with_ctx _ s)) with (icache s). rewrite iget_scan_none, Hf by done. cbn [fmap option_fmap option_map fst Nat.add].
  apply list_find_Some in Hf as (Hi & _). pose proof (lookup_lt_Some _ _ _ Hi). wp_steps.
  eapply wp_seti; [exact Hi|]. wp_steps. eapply wp_seti; [by apply list_lookup_insert_eq|]. wp_steps.
  eapply wp_seti; [apply list_lookup_insert_eq; cbn [icache]; rewrite ?length_insert; done|]. wp_steps.
  eapply wp_release; [cbn; by rewrite ctx_with|]. wp_steps.
  cbn. rewrite !ctx_with. cbn [woken killed]. rewrite ctx_back, !list_insert_insert_eq. exact HQ.
Qed.

Lemma iget_full dev inum s :
  LkIcache ∉ held (ctx s) -> (forall j y, icache s !! j = Some y -> ~ is_for dev inum y) ->
  list_find (fun x => i_ref x = 0) (icache s) = None -> iget dev inum s = Panic "iget: no inodes".
Proof.
  intros Hl Hn Hf. unfold iget, acquire, bind, gets, modify, ret. cbn.
  rewrite bool_decide_eq_false_2 by done. cbn. by rewrite iget_scan_none, Hf.
Qed.
End Iget.

Section Spec.
Context {S : Type} `{HasCtx S} `{!BlockLayer S}.
Implicit Types (s : ist S).

(** Iget of a cached inode takes one more reference to its slot; iget of an inode
    that is not cached takes the first slot without references for it, marked not valid,
    and panics when there is none.  In each case no inode is cached twice afterwards. *)
Theorem iget_spec s dev inum :
  icache_ok (icache s) -> LkIcache ∉ held (ctx s) ->
  (exists i x, icache s !! i = Some x /\ is_for dev inum x /\
     let l' := <[i := iw_ref (i_ref x + 1) x]> (icache s) in
     iget dev inum s = Ret i (mkist l' (blk s)) /\ icache_ok l') \/
  (forall j y, icache s !! j = Some y -> ~ is_for dev inum y) /\
  ((exists i x, list_find (fun x => i_ref x = 0) (icache s) = Some (i, x) /\
     let l' := <[i := iw_flags 0 (iw_ref 1 (iw_id dev inum x))]> (icache s) in
     iget dev inum s = Ret i (mkist l' (blk s)) /\ icache_ok l') \/
   (forall i x, icache s !! i = Some x -> 0 < i_ref x) /\ iget dev inum s = Panic "iget: no inodes").
Proof.
  intros O Hl. destruct (list_find (is_for dev inum) (icache s)) as [[i x]|] eqn:Ef.
  - left. apply list_find_Some in Ef as (Hi & F & _). exists i, x. split; [done|]. split; [done|]. cbv zeta.
    assert (wp (iget dev inum) (fun i' s' => i' = i /\ s' = mkist (<[i := iw_ref (i_ref x + 1) x]> (icache s)) (blk s)) s)
      as (i' & s' & E & -> & ->)%wp_run by (by eapply wp_iget_hit).
    split; [exact E|]. destruct F as (Hr & _). eapply icache_ok_same; [done|exact Hi|cbn; lia|]. intros d n (_ & F1 & F2). done.
  - right. apply list_find_None in Ef. rewrite list.Forall_forall in Ef.
    assert (forall j y, icache s !! j = Some y -> ~ is_for dev inum y) as Hn
      by (intros j y Hy; apply Ef; by eapply list_elem_of_lookup_2).
    split; [done|]. destruct (list_find (fun x => i_ref x = 0) (icache s)) as [[i x]|] eqn:Ee; [left|right].
    + exists i, x. split; [done|]. cbv zeta.
      assert (wp (iget dev inum) (fun i' s' => i' = i /\ s' = mkist (<[i := iw_flags 0 (iw_ref 1 (iw_id dev inum x))]> (icache s)) (blk s)) s)
        as (i' & s' & E & -> & ->)%wp_run by (by eapply wp_iget_miss).
      split; [exact E|]. apply icache_ok_insert; [done|cbn; lia|].
      intros j y d n Hj Hy (_ & F1 & F2) F'. apply (Hn j y Hy). cbn in F1, F2. by subst.
    + split; [|by apply iget_full]. apply list_find_None in Ee. rewrite list.Forall_forall in Ee. intros i x Hi.
      pose proof (ic_ref _ O _ _ Hi). specialize (Ee x (list_elem_of_lookup_2 _ _ _ Hi)). lia.
Qed.
End Spec.

Section Evict.
Context {S : Type} `{HasCtx S} `{!BlockLayer S} `{!BlockLaws S}.
Implicit Types (s : ist S) (b : S) (V : Z -> list Z).

(** iput of a reference that is the last one to an inode in a directory. *)
Lemma wp_iput_last i x s (Q : unit -> ist S -> Prop) :
  LkIcache ∉ held (ctx s) -> icache s !! i = Some x -> i_nlink x <> 0 ->
  Q tt (mkist (<[i := iw_ref (i_ref x - 1) x]> (icache s)) (blk s)) -> wp (iput i) Q s.
Proof.
  intros Hl Hi Hn HQ. unfold iput. wp_steps. apply wp_acquire; [done|]. wp_steps. eapply wp_geti; [exact Hi|].
  rewrite (proj2 (Z.eqb_neq _ _) Hn), andb_false_r. wp_steps. eapply wp_seti; [exact Hi|]. wp_steps.
  eapply wp_release; [cbn; by rewrite ctx_with|]. cbn. rewrite !ctx_with. cbn [woken killed]. rewrite ctx_back. exact HQ.
Qed.

(** ilock of an inode whose contents are not in memory. *)
Lemma wp_ilock_load i x s V r (Q : unit -> ist S -> Prop) :
  let y := load_dinode (V (IBLOCK (i_inum x))) (dip_off (i_inum x)) (iw_flags 3 x) in
  bl_rep (blk s) V ∅ ∅ r -> LkIcache ∉ held (ctx s) -> icache s !! i = Some x -> 1 <= i_ref x -> i_flags x = 0 ->
  i_dev x = ROOTDEV -> 0 <= IBLOCK (i_inum x) < bl_lim (blk s) -> i_type y <> 0 ->
  (forall b', bl_rep b' V ∅ ∅ r -> bl_ext ∅ (blk s) b' -> Q tt (mkist (<[i := y]> (icache s)) b')) ->
  wp (ilock i) Q s.
Proof.
  intros y R Hl Hi Hr Hfl Hdev Hb Hty HQ. pose proof (lookup_lt_Some _ _ _ Hi). unfold ilock. wp_steps.
  eapply wp_geti; [exact Hi|]. rewrite (proj2 (Z.ltb_ge _ _)) by lia. wp_steps. apply wp_acquire; [done|]. wp_steps.
  eapply wp_geti; [exact Hi|]. rewrite Hfl.
  change (has 0 I_BUSY) with false. change (has 0 I_VALID) with false. cbn match. wp_steps. eapply wp_seti; [exact Hi|]. wp_steps.
  eapply wp_release; [cbn; by rewrite ctx_with|]. wp_steps.
  cbn. rewrite !ctx_with. cbn [woken killed]. rewrite ctx_back. apply wp_in_blk. cbn [blk icache].
  rewrite Hdev. eapply wp_fetch; [exact R|done|]. intros b1 R1 E1. wp_steps.
  eapply wp_seti; [by apply list_lookup_insert_eq|]. wp_steps.
  eapply wp_seti; [apply list_lookup_insert_eq; cbn [icache]; rewrite ?length_insert; done|]. wp_steps.
  cbn [icache blk]. rewrite !list_insert_insert_eq.
  match goal with |- context [<[i := ?z]> (icache s)] => assert (z = y) as -> end.
  { unfold y, iw_flags, load_dinode. cbn. by rewrite Hfl. }
  eapply wp_geti; [by apply list_lookup_insert_eq|]. rewrite (proj2 (Z.eqb_neq _ _) Hty). wp_steps. by apply HQ.
Qed.

(** An inode that iupdate wrote back survives its eviction from the cache: after the last
    reference is dropped, iget and ilock give a slot whose fields are those of the inode. *)
Theorem inode_survives_eviction i x s V r sb :
  bl_rep (blk s) V ∅ ∅ (1 + r) -> fs_shape V sb (bl_lim (blk s)) -> held (ctx s) = [] -> icache_ok (icache s) ->
  icache s !! i = Some x -> i_ref x = 1 -> i_dev x = ROOTDEV -> 0 <= i_inum x < sb_ninodes sb ->
  inode_fits x -> i_type x <> 0 -> i_nlink x <> 0 ->
  exists j y s',
    (iupdate i ;; iput i ;; j <- iget (i_dev x) (i_inum x) ;; ilock j ;; ret j) s = Ret j s' /\ icache s' !! j = Some y /\
    is_for (i_dev x) (i_inum x) y /\ i_flags y = Z.lor I_BUSY I_VALID /\
    (i_type y, i_major y, i_minor y, i_nlink y, i_size y, i_addrs y) =
    (i_type x, i_major x, i_minor x, i_nlink x, i_size x, i_addrs x).
Proof.
  intros R Sh Hh O Hi Href Hdev Hin Hfit Hty Hnl.
  set (V' := <[IBLOCK (i_inum x) := store_dinode (V (IBLOCK (i_inum x))) (dip_off (i_inum x)) x]> V).
  destruct (IBLOCK_inode _ _ _ _ Sh Hin) as [Hb _]. pose proof (sh_lim _ _ _ Sh) as Hsl.
  assert (forall z, load_dinode (V' (IBLOCK (i_inum x))) (dip_off (i_inum x)) z =
    mkinode (i_dev z) (i_inum z) (i_ref z) (i_flags z) (i_type x) (i_major x) (i_minor x) (i_nlink x) (i_size x) (i_addrs x)) as Hload.
  { intros z. unfold V'. rewrite fn_lookup_insert. apply load_store; [|done].
    erewrite bl_len; [apply dip_off_fits|exact R|lia]. }
  set (l1 := <[i := iw_ref 0 x]> (icache s)).
  assert (forall k z, l1 !! k = Some z -> ~ is_for (i_dev x) (i_inum x) z) as Hnone.
  { intros k z Hk F. apply list_lookup_insert_Some in Hk as [(-> & <- & _)|[Hne Hk]]; [destruct F as (F & _); cbn in F; lia|].
    apply Hne. eapply (ic_inj _ O); [exact Hi|exact Hk| |exact F]. split; [lia|done]. }
  destruct (list_find (fun x => i_ref x = 0) l1) as [[j z]|] eqn:Ef; cycle 1.
  { exfalso. apply list_find_None in Ef. rewrite list.Forall_lookup in Ef.
    apply (Ef i (iw_ref 0 x)); [|done]. apply list_lookup_insert_eq. by eapply lookup_lt_Some. }
  pose proof Ef as (Hj & _)%list_find_Some. pose proof (lookup_lt_Some _ _ _ Hj) as Hlt.
  match goal with |- exists j y s', ?m s = _ /\ _ =>
    assert (wp m (fun j' s' => j' = j /\ icache s' !! j = Some (load_dinode (V' (IBLOCK (i_inum x))) (dip_off (i_inum x))
      (iw_flags 3 (iw_flags 0 (iw_ref 1 (iw_id (i_dev x) (i_inum x) z)))))) s) as Hw end.
  { wp_steps. eapply (wp_iupdate i x s V r sb); try done. intros b1 R1 E1. fold V' in R1.
    assert (held (ctx b1) = []) as Hh1 by (rewrite (proj1 E1); exact Hh). pose proof (bl_ext_lim _ _ _ E1) as El.
    assert (LkIcache ∉ held (ctx b1)) as Hnl1 by (rewrite Hh1; apply not_elem_of_nil).
    wp_steps. eapply wp_iput_last; [exact Hnl1|exact Hi|done|]. cbn [icache blk]. rewrite Href. fold l1.
    wp_steps. eapply wp_iget_miss; [exact Hnl1|exact Hnone|exact Ef|]. cbn [icache blk]. wp_steps.
    eapply (wp_ilock_load j _ _ V' r); cbn [icache blk]; [exact R1|exact Hnl1|by apply list_lookup_insert_eq|cbn; lia|done|done| | |].
    - cbn [i_inum iw_flags iw_ref iw_id]. rewrite El. lia.
    - cbn [i_inum iw_flags iw_ref iw_id]. rewrite Hload. done.
    - intros b2 R2 E2. wp_steps. split; [done|]. cbn [icache]. rewrite list_lookup_insert_eq by (by rewrite length_insert). done. }
  apply wp_run in Hw as (j' & s' & E & -> & Hy). eexists j, _, s'. split; [exact E|]. split; [exact Hy|].
  rewrite Hload. repeat split; cbn; lia.
Qed.
End Evict.

(** ** Reading back what was written *)

Section Rw.
Context {S : Type} `{HasCtx S} `{!BlockLayer S} `{!BlockLaws S}.
Variable dev_read : Z -> option (nat -> Z -> M (ist S) (Z * list Z)).
Variable dev_write : Z -> option (nat -> list Z -> Z -> M (ist S) Z).

(** Readi of a file that has all its blocks returns the bytes of the contents from
    [off] on, cut at the end of the file, and changes neither the cache nor a block. *)
Theorem readi_spec i x off n (s : ist S) V r sb :
  bl_rep (blk s) V ∅ ∅ r -> fs_shape V sb (bl_lim (blk s)) -> icache s !! i = Some x ->
  file_ok V sb (bl_lim (blk s)) x -> full V x -> i_type x <> T_DEV -> 0 <= off <= i_size x -> 0 <= n -> off + n < 2 ^ 32 ->
  exists b', readi dev_read i off n s =
      Ret (Z.min n (i_size x - off), take (Z.to_nat n) (drop (Z.to_nat off) (content V x))) (mkist (icache s) b') /\
    bl_rep b' V ∅ ∅ r.
Proof.
  intros R Sh Hi F Hf Hty Ho Hn Hon. pose proof (data_start_pos _ _ _ Sh).
  assert (wp (readi dev_read i off n) (fun a s' => a = (Z.min n (i_size x - off), take (Z.to_nat n) (drop (Z.to_nat off) (content V x))) /\
    exists b', s' = mkist (icache s) b' /\ bl_rep b' V ∅ ∅ r) s) as (a & s' & E & -> & b' & -> & R')%wp_run; [|eauto].
  eapply (wp_readi dev_read i x off n s V r sb); try done; [lia|]. cbv zeta. intros b' R' _. split; [|eauto]. f_equal.
  unfold slice. destruct (Z.min_spec n (i_size x - off)) as [[Hm ->]|[Hm ->]]; [done|].
  assert (length (drop (Z.to_nat off) (content V x)) <= Z.to_nat (i_size x - off))%nat as Hlen.
  { rewrite length_drop. unfold content. rewrite length_take. lia. }
  rewrite !take_ge by lia. done.
Qed.

End Rw.

(** ** A file on the demonstration disk *)

(** Inode 1 is a file of three bytes in block 6. *)
Definition demo_ino : inode := mkinode ROOTDEV 1 1 I_VALID T_FILE 0 0 1 3 (6 :: replicate 12 0).
Definition demo_inodes : list Z := store_dinode (replicate BSIZE 0) (dip_off 1) demo_ino.
Definition demo_data : list Z := [97; 98; 99] ++ replicate 509 0.
Definition demo_slots : list inode := [demo_ino; mkinode 0 0 0 0 0 0 0 0 0 []].

(** An inode of at most 512 bytes, in block 6. *)
Lemma demo_block_ok V inodes data x :
  (forall m, 0 <= m < 64 -> V m = disk_view (demo_image inodes data) m) -> fs_shape V demo_sb 64 ->
  i_dev x = ROOTDEV -> i_addrs x = 6 :: replicate 12 0 -> 0 <= i_size x <= 512 -> length data = BSIZE ->
  file_ok V demo_sb 64 x /\ full V x /\ content V x = take (Z.to_nat (i_size x)) data /\
  (3 <= length (free_blocks V demo_sb 64))%nat.
Proof.
  intros HV Sh Hdev Ha Hsz Hd. assert (ind x = 0) as Hind by (unfold ind; by rewrite Ha).
  assert (forall p, (p < nslots)%nat -> slot V x p = if (p =? 0)%nat then 6 else 0) as Hslot.
  { intros p Hp. unfold slot. rewrite Ha, Hind. destruct (Nat.ltb_spec p 13); [|].
    - do 13 (destruct p as [|p]; [done|]). lia.
    - destruct (Nat.eqb_spec p 0); [lia|]. done. }
  assert (forall b, 0 <= b < 94 -> used V demo_sb b = (b <? 7)) as Hu.
  { intros b Hb. rewrite <- (demo_image_used inodes data b Hb). unfold used. rewrite HV; [done|].
    pose proof (BBLOCK_data _ _ _ b Sh Hb) as Hbb. change (data_start demo_sb) with 6 in Hbb. lia. }
  split; [constructor|split; [|split]].
  - done.
  - by rewrite Ha.
  - change (MAXFILE * Z.of_nat BSIZE) with 71680. lia.
  - intros p Hp. rewrite Hslot by done. destruct (p =? 0)%nat; [|done]. intros _. rewrite Hu by lia. vm_compute. repeat split; discriminate.
  - intros p q Hp Hq. rewrite !Hslot by done. destruct (Nat.eqb_spec p 0), (Nat.eqb_spec q 0); lia.
  - intros bn Hbn. unfold BSIZE in Hbn. replace bn with 0%nat by lia. rewrite Hslot by (vm_compute; lia). done.
  - unfold content, flat. change (seq 0 nblocks) with (0%nat :: seq 1 139). cbn [fmap list_fmap concat].
    unfold block_of at 1. rewrite Hslot by (vm_compute; lia). change (slot_of 0 =? 0)%nat with true. change (6 =? 0) with false. cbn match.
    rewrite (HV 6) by lia. change (disk_view (demo_image inodes data) 6) with data. apply take_app_le. rewrite Hd. unfold BSIZE. lia.
  - change 3%nat with (length [7; 8; 9]). apply submseteq_length, NoDup_submseteq; [vm_compute; repeat constructor; set_solver|].
    intros b Hb. apply elem_free. assert (7 <= b <= 9) by (rewrite !elem_of_cons, elem_of_nil in Hb; lia). rewrite Hu by lia.
    split; [apply Z.ltb_ge; lia|]. change (Z.min 64 (sb_size demo_sb)) with 64. lia.
Qed.

Lemma demo_file : exists (s : ist logst) V,
  bl_rep (blk s) V ∅ ∅ 27 /\ bl_lim (blk s) = 64 /\ held (ctx s) = [] /\ icache s = demo_slots /\
  fs_shape V demo_sb 64 /\ file_ok V demo_sb 64 demo_ino /\ full V demo_ino /\ content V demo_ino = [97; 98; 99] /\
  (3 <= length (free_blocks V demo_sb 64))%nat.
Proof.
  destruct (demo_transaction demo_inodes demo_data) as (b & V & R & Hlim & Hh & Sh & HV); [reflexivity..|].
  exists (mkist demo_slots b), V. destruct (demo_block_ok V _ _ demo_ino HV Sh) as (F1 & F2 & F3 & F4); [done|done|cbn; lia|done|done].
Qed.

Lemma demo_slots_ok : icache_ok demo_slots.
Proof.
  constructor.
  - intros [|[|i]] x Hx; inversion Hx; subst; vm_compute; discriminate.
  - intros [|[|i]] [|[|j]] x y dev inum Hx Hy [Fx _] [Fy _]; inversion Hx; inversion Hy; subst; try done;
      (vm_compute in Fx || vm_compute in Fy); discriminate.
Qed.

Lemma demo_fits : inode_fits demo_ino.
Proof. constructor; [cbn; unfold T_FILE; lia..|]. split; [done|]. repeat constructor; lia. Qed.

Lemma readi_spec_witness : exists (s : ist logst) b',
  readi (fun _ => None) 0 1 10 s = Ret (2, [98; 99]) (mkist (icache s) b').
Proof.
  destruct demo_file as (s & V & R & Hlim & Hh & Hc & Sh & F & Hf & Hcont & _).
  destruct (readi_spec (fun _ => None) 0 demo_ino 1 10 s V 27 demo_sb) as (b' & E & _);
    rewrite ?Hlim; try done; try (cbn; lia); [by rewrite Hc|].
  exists s, b'. rewrite E, Hcont. reflexivity.
Defined.


Lemma inode_survives_eviction_witness : exists (s : ist logst) j y s',
  (iupdate 0 ;; iput 0 ;; j <- iget ROOTDEV 1 ;; ilock j ;; ret j) s = Ret j s' /\ icache s' !! j = Some y /\ i_size y = 3.
Proof.
  destruct demo_file as (s & V & R & Hlim & Hh & Hc & Sh & F & Hf & Hcont & Hfree).
  destruct (inode_survives_eviction 0 demo_ino s V 26 demo_sb) as (j & y & s' & E & Hy & _ & _ & Ef);
    rewrite ?Hlim; [exact R|exact Sh|exact Hh|rewrite Hc; apply demo_slots_ok|by rewrite Hc|done|done|cbn; lia|apply demo_fits|done|done|].
  injection Ef as _ _ _ _ Es _. exists s, j, y, s'. split; [exact E|]. split; [exact Hy|exact Es].
Defined.

Lemma iget_spec_witness : exists (s : ist logst) l', iget ROOTDEV 5 s = Ret 1%nat (mkist l' (blk s)) /\ icache_ok l'.
Proof.
  destruct demo_file as (s & V & R & Hlim & Hh & Hc & _).
  destruct (iget_spec s ROOTDEV 5) as [(i & x & Hi & (_ & _ & Hn) & _)|[_ [(i & x & Hf & E & O)|[Hall _]]]].
  - rewrite Hc. apply demo_slots_ok.
  - rewrite Hh. apply not_elem_of_nil.
  - rewrite Hc in Hi. destruct i as [|[|i]]; inversion Hi; subst; discriminate.
  - rewrite Hc in Hf. vm_compute in Hf. injection Hf as <- <-. eexists s, _. split; [exact E|exact O].
  - specialize (Hall 1%nat (mkinode 0 0 0 0 0 0 0 0 0 [])). rewrite Hc in Hall. specialize (Hall eq_refl). cbn in Hall. lia.
Defined.
