(* ===== verification/Dir.v ===== *)
(** * fs.c: directories and path names

    A directory is a file of entries of sixteen bytes.  C strings are lists of bytes up
    to and including a NUL; reading past the list is a fault. *)

From stdpp Require Import base list numbers strings functions gmap sets.
From S2P Require Import Prelude CString Spinlock Layout Buf Log Block Inode.
Import Ctx.

Open Scope Z_scope.
Local Open Scope kernel_scope.

Definition sizeof_dirent : Z := 16.
Definition slash : Z := 47.

(** struct dirent. *)
Record dirent := mkdirent { de_inum : Z; de_name : list Z }.
Definition dirent_of (l : list Z) : dirent := mkdirent (get16 l 0) (drop 2 l).
Definition dirent_bytes (de : dirent) : list Z := to_le 2 (de_inum de) ++ de_name de.

Definition namecmp (s t : list Z) : option Z := Str.strncmp s t DIRSIZ.

(** ** skipelem *)

(** while( *path == '/') path++. *)
Fixpoint skip_slashes (path : list Z) : option (list Z) :=
  match path with
  | [] => None
  | c :: path' => if c =? slash then skip_slashes path' else Some path
  end.

(** while( *path != '/' && *path != 0) path++: the characters passed and the rest. *)
Fixpoint take_elem (path : list Z) : option (list Z * list Z) :=
  match path with
  | [] => None
  | c :: path' =>
      if negb (c =? slash) && negb (c =? 0)
      then (fun x => (c :: fst x, snd x)) <$> take_elem path'
      else Some ([], path)
  end.

(** The rest of the path and the name buffer; the outer option is a fault, the inner one
    the null result. *)
Definition skipelem (path name : list Z) : option (option (list Z * list Z)) :=
  p ← skip_slashes path;
  c ← head p;
  if c =? 0 then Some None else
  x ← take_elem p;
  let s := fst x in
  let name' := if (DIRSIZ <=? length s)%nat then splice 0 (take DIRSIZ s) name
               else splice 0 (s ++ [0]) name in
  if decide (length name' = length name) then
    p' ← skip_slashes (snd x);
    Some (Some (p', name'))
  else None.

Section Ops.
Context {S : Type} `{HasCtx S} `{!BlockLayer S}.
Abbreviation IS := (ist S).
Variable dev_read : Z -> option (nat -> Z -> M IS (Z * list Z)).
Variable dev_write : Z -> option (nat -> list Z -> Z -> M IS Z).
(** proc->cwd. *)
Variable cwd : nat.

(** readi(dp, (char* )&de, off, sizeof(de)) and the check of its result. *)
Definition read_dirent (dp : nat) (off : Z) : M IS dirent :=
  r <- readi dev_read dp off sizeof_dirent ;;
  if negb (fst r =? sizeof_dirent) then panic "dirlink read" else
  ret (dirent_of (snd r)).

Fixpoint dirlookup_loop (fuel : nat) (dp : nat) (name : list Z) (off : Z) : M IS (option (nat * Z)) :=
  match fuel with
  | O => out_of_fuel
  | Datatypes.S fuel =>
      x <- geti dp ;;
      if off <? i_size x then
        de <- read_dirent dp off ;;
        if de_inum de =? 0 then dirlookup_loop fuel dp name (off + sizeof_dirent) else
        c <- lift_opt (namecmp name (de_name de)) ;;
        if c =? 0 then
          ip <- iget (i_dev x) (de_inum de) ;;
          ret (Some (ip, off))
        else dirlookup_loop fuel dp name (off + sizeof_dirent)
      else ret None
  end.

(** The inode and *poff. *)
Definition dirlookup (dp : nat) (name : list Z) : M IS (option (nat * Z)) :=
  x <- geti dp ;;
  if negb (i_type x =? T_DIR) then panic "dirlookup not DIR" else
  dirlookup_loop (1 + Z.to_nat (i_size x)) dp name 0.

(** The first entry that is empty, or the end. *)
Fixpoint empty_loop (fuel : nat) (dp : nat) (off : Z) : M IS Z :=
  match fuel with
  | O => out_of_fuel
  | Datatypes.S fuel =>
      x <- geti dp ;;
      if off <? i_size x then
        de <- read_dirent dp off ;;
        if de_inum de =? 0 then ret off else empty_loop fuel dp (off + sizeof_dirent)
      else ret off
  end.

Definition dirlink (dp : nat) (name : list Z) (inum : Z) : M IS Z :=
  o <- dirlookup dp name ;;
  match o with
  | Some (ip, _) => iput ip ;; ret (-1)
  | None =>
      x <- geti dp ;;
      off <- empty_loop (1 + Z.to_nat (i_size x)) dp 0 ;;
      nm <- lift_opt (Str.strncpy (replicate DIRSIZ 0) name (Z.of_nat DIRSIZ)) ;;
      r <- writei dev_write dp (dirent_bytes (mkdirent (u16 inum) nm)) off sizeof_dirent ;;
      if negb (r =? sizeof_dirent) then panic "dirlink" else ret 0
  end.

(** The loop of namex: the inode, and the name buffer. *)
Fixpoint namex_loop (fuel : nat) (ip : nat) (path : list Z) (nameiparent : bool) (name : list Z) :
    M IS (option nat * list Z) :=
  match fuel with
  | O => out_of_fuel
  | Datatypes.S fuel =>
      e <- lift_opt (skipelem path name) ;;
      match e with
      | None =>
          if nameiparent then iput ip ;; ret (None, name) else ret (Some ip, name)
      | Some (path, name) =>
          ilock ip ;;
          x <- geti ip ;;
          if negb (i_type x =? T_DIR) then iunlockput ip ;; ret (None, name) else
          c <- lift_opt (head path) ;;
          if nameiparent && (c =? 0) then iunlock ip ;; ret (Some ip, name) else
          o <- dirlookup ip name ;;
          match o with
          | None => iunlockput ip ;; ret (None, name)
          | Some (next, _) => iunlockput ip ;; namex_loop fuel next path nameiparent name
          end
      end
  end.

Definition namex (path : list Z) (nameiparent : bool) (name : list Z) : M IS (option nat * list Z) :=
  c <- lift_opt (head path) ;;
  ip <- (if c =? slash then iget ROOTDEV ROOTINO else idup cwd) ;;
  namex_loop (1 + length path) ip path nameiparent name.

Definition namei (path : list Z) : M IS (option nat) :=
  r <- namex path false (replicate DIRSIZ 0) ;; ret (fst r).

Definition nameiparent (path name : list Z) : M IS (option nat * list Z) := namex path true name.
End Ops.

(** ** Path elements *)

(** The elements of a path: its parts between slashes that are not empty. *)
Definition push (c : Z) (l : list (list Z)) : list (list Z) :=
  match l with [] => [[c]] | e :: l => (c :: e) :: l end.
Fixpoint parts (c : list Z) : list (list Z) :=
  match c with
  | [] => [[]]
  | a :: c => if a =? slash then [] :: parts c else push a (parts c)
  end.
Definition elems (c : list Z) : list (list Z) := filter (fun e => e <> []) (parts c).

(** What the name buffer holds of an element: the first DIRSIZ characters, with a nul
    after them when there is room. *)
Definition put_name (e name : list Z) : list Z :=
  if (DIRSIZ <=? length e)%nat then take DIRSIZ e ++ drop DIRSIZ name else e ++ 0 :: drop (1 + length e) name.

(** All the elements that successive calls of skipelem copy, as they are in the buffer. *)
Fixpoint skipelems (fuel : nat) (path name : list Z) : option (list (list Z)) :=
  match fuel with
  | O => None
  | S fuel =>
      match skipelem path name with
      | None => None
      | Some None => Some []
      | Some (Some (path', name')) => cons name' <$> skipelems fuel path' name'
      end
  end.

Definition no_nul (c : list Z) : Prop := Forall (fun a => a <> 0) c.

Lemma parts_cons c : exists e l, parts c = e :: l.
Proof. induction c as [|a c (e & l & E)]; cbn; [eauto|]. rewrite E. destruct (a =? slash); cbn; eauto. Qed.

Lemma elems_slash c : elems (slash :: c) = elems c.
Proof. unfold elems. cbn [parts]. rewrite Z.eqb_refl. by rewrite filter_cons_False by naive_solver. Qed.

Lemma skip_slashes_spec c : no_nul c ->
  exists c', skip_slashes (c ++ [0]) = Some (c' ++ [0]) /\ elems c' = elems c /\ no_nul c' /\ (length c' <= length c)%nat /\
    head c' <> Some slash.
Proof.
  induction c as [|a c IH]; intros Hc.
  - exists []. repeat split; [done|lia|done].
  - apply list.Forall_cons in Hc as [Ha Hc]. cbn [app skip_slashes]. destruct (Z.eqb_spec a slash) as [->|Hs].
    + destruct (IH Hc) as (c' & E1 & E2 & E3 & E4 & E5). exists c'. rewrite elems_slash. repeat split; try done. cbn. lia.
    + exists (a :: c). repeat split; [by constructor|done|]. cbn. congruence.
Qed.

Lemma take_elem_spec c : no_nul c ->
  exists e c', take_elem (c ++ [0]) = Some (e, c' ++ [0]) /\ c = e ++ c' /\ parts c = match c' with
    | [] => [e] | _ :: t => e :: parts t end /\ (c' = [] \/ head c' = Some slash).
Proof.
  induction c as [|a c IH]; intros Hc.
  - exists [], []. auto.
  - apply list.Forall_cons in Hc as [Ha Hc]. cbn [app take_elem parts].
    rewrite (proj2 (Z.eqb_neq a 0)) by done. destruct (Z.eqb_spec a slash) as [->|Hs]; cbn [negb andb].
    + exists [], (slash :: c). auto.
    + destruct (IH Hc) as (e & c' & E1 & E2 & E3 & E4). rewrite E1. exists (a :: e), c'. cbn.
      split; [done|]. split; [by rewrite E2|]. split; [|done]. rewrite E3. by destruct c'.
Qed.

Lemma splice_put_name e name :
  (DIRSIZ <= length name)%nat ->
  (if (DIRSIZ <=? length e)%nat then splice 0 (take DIRSIZ e) name else splice 0 (e ++ [0]) name) = put_name e name /\
  length (put_name e name) = length name.
Proof.
  intros Hn. unfold put_name, splice. rewrite take_0. cbn [app].
  destruct (Nat.leb_spec DIRSIZ (length e)) as [H|H].
  - rewrite length_take, Nat.min_l by lia. cbn [Nat.add]. rewrite length_app, length_take, length_drop. split; [done|lia].
  - rewrite length_app. cbn [length Nat.add]. rewrite <- (assoc_L (++)), Nat.add_comm. cbn [app].
    rewrite length_app. cbn [length]. rewrite length_drop. split; [done|lia].
Qed.

(** One call of skipelem. *)
Lemma skipelem_spec c name :
  no_nul c -> (DIRSIZ <= length name)%nat ->
  match elems c with
  | [] => skipelem (c ++ [0]) name = Some None
  | e :: l => exists c', skipelem (c ++ [0]) name = Some (Some (c' ++ [0], put_name e name)) /\
      elems c' = l /\ no_nul c' /\ (length c' < length c)%nat
  end.
Proof.
  intros Hc Hn. destruct (skip_slashes_spec c Hc) as (c1 & E1 & <- & Hc1 & Hl1 & Hh1). unfold skipelem. rewrite E1. cbn [mbind option_bind].
  destruct c1 as [|a c1]; [done|]. apply list.Forall_cons in Hc1 as Ha. destruct Ha as [Ha _]. cbn [app head mbind option_bind].
  assert (a <> slash) as Has by (intros ->; done).
  rewrite (proj2 (Z.eqb_neq a 0)) by done. change (a :: c1 ++ [0]) with ((a :: c1) ++ [0]).
  destruct (take_elem_spec (a :: c1) Hc1) as (e & c2 & E2 & E3 & E4 & E5). rewrite E2. cbn [mbind option_bind fst snd].
  destruct e as [|a' e]; [cbn in E3; subst c2; destruct E5 as [E5|E5]; cbn in E5; congruence|].
  destruct (splice_put_name (a' :: e) name Hn) as [-> Hlen]. rewrite decide_True by done.
  assert (no_nul c2) as Hc2 by (rewrite E3 in Hc1; by apply Forall_app in Hc1 as [_ ?]).
  destruct (skip_slashes_spec c2 Hc2) as (c3 & E6 & E7 & Hc3 & Hl3 & _). rewrite E6. cbn [mbind option_bind].
  assert (elems (a :: c1) = (a' :: e) :: elems c2) as ->.
  { unfold elems at 1. rewrite E4. destruct c2 as [|b c2]; rewrite filter_cons_True by done; [done|].
    destruct E5 as [E5|E5]; [done|]. cbn in E5. injection E5 as ->. by rewrite elems_slash. }
  exists c3. repeat split; try done. assert (length (a :: c1) = length ((a' :: e) ++ c2)) as Hl by (by rewrite E3).
  rewrite length_app in Hl. cbn [length] in Hl, Hl1. lia.
Qed.

(** The buffer [nm] holds the element [e]. *)
Definition holds_name (e nm : list Z) : Prop :=
  if decide (DIRSIZ <= length e)%nat then take DIRSIZ nm = take DIRSIZ e else take (1 + length e) nm = e ++ [0].

Lemma put_name_holds e name : holds_name e (put_name e name).
Proof.
  unfold holds_name, put_name. case_decide as Hd.
  - rewrite (proj2 (Nat.leb_le _ _)) by done. rewrite take_app_le by (rewrite length_take; lia). by rewrite take_take, Nat.min_id.
  - rewrite (proj2 (Nat.leb_gt _ _)) by lia. rewrite take_app_ge by lia.
    replace (1 + length e - length e)%nat with 1%nat by lia. done.
Qed.

(** Successive calls of skipelem walk through a path element by element: they copy exactly
    the parts of the path between slashes that are not empty, in order, each cut at DIRSIZ
    characters, never read past the terminating nul, and stop. *)
Theorem skipelems_parts c name fuel :
  no_nul c -> (DIRSIZ <= length name)%nat -> (length c < fuel)%nat ->
  exists names, skipelems fuel (c ++ [0]) name = Some names /\ Forall2 holds_name (elems c) names.
Proof.
  revert c name. induction fuel as [|fuel IH]; intros c name Hc Hn Hf; [lia|]. cbn [skipelems].
  pose proof (skipelem_spec c name Hc Hn) as Hs. destruct (elems c) as [|e l] eqn:E.
  - rewrite Hs. exists []. auto.
  - destruct Hs as (c' & -> & <- & Hc' & Hl). destruct (splice_put_name e name Hn) as [_ Hlen].
    destruct (IH c' (put_name e name)) as (names & -> & Hall); [done|lia|lia|]. exists (put_name e name :: names).
    split; [done|]. constructor; [apply put_name_holds|done].
Qed.

(** The path "//a/bb/". *)
Lemma skipelems_parts_witness :
  exists names, skipelems 8 [47; 47; 97; 47; 98; 98; 47; 0] (replicate DIRSIZ 0) = Some names /\
    Forall2 holds_name [[97]; [98; 98]] names.
Proof.
  apply (skipelems_parts [47; 47; 97; 47; 98; 98; 47] (replicate DIRSIZ 0) 8).
  - repeat constructor; discriminate.
  - rewrite length_replicate. lia.
  - cbn. lia.
Defined.

(** ** Termination of the walk *)

Lemma skip_slashes_length p p' : skip_slashes p = Some p' -> (length p' <= length p)%nat.
Proof.
  induction p as [|a p IH]; [done|]. cbn. destruct (a =? slash).
  - intros E. apply IH in E. lia.
  - intros [= <-]. done.
Qed.

Lemma take_elem_length p e p' : take_elem p = Some (e, p') -> (length e + length p' = length p)%nat.
Proof.
  revert e. induction p as [|a p IH]; intros e; [done|]. cbn [take_elem]. destruct (negb _ && negb _).
  - destruct (take_elem p) as [[e0 p0]|] eqn:E; [|done]. cbn. intros [= <- <-]. cbn. rewrite <- (IH e0 eq_refl). lia.
  - intros [= <- <-]. done.
Qed.

Lemma skip_slashes_head p p' : skip_slashes p = Some p' -> head p' <> Some slash.
Proof.
  induction p as [|a p IH]; [done|]. cbn. destruct (Z.eqb_spec a slash) as [->|Hs]; [apply IH|].
  intros [= <-]. cbn. congruence.
Qed.

Lemma skipelem_shorter path name path' name' :
  skipelem path name = Some (Some (path', name')) -> (length path' < length path)%nat.
Proof.
  unfold skipelem. destruct (skip_slashes path) as [p|] eqn:E1; [|done]. cbn [mbind option_bind].
  destruct p as [|c p]; [done|]. cbn [head mbind option_bind].
  destruct (Z.eqb_spec c 0) as [|Hc]; [done|]. destruct (take_elem (c :: p)) as [[e p1]|] eqn:E2; [|done]. cbn [mbind option_bind fst snd].
  case_decide; [|done]. destruct (skip_slashes p1) as [p2|] eqn:E3; [|done]. cbn. intros [= <- _].
  pose proof (skip_slashes_length _ _ E1). pose proof (skip_slashes_length _ _ E3). pose proof (take_elem_length _ _ _ E2) as Hl.
  apply skip_slashes_head in E1. cbn in E1. cbn [take_elem] in E2.
  rewrite (proj2 (Z.eqb_neq c slash)), (proj2 (Z.eqb_neq c 0)) in E2 by congruence. cbn in E2.
  destruct (take_elem p) as [[e0 p0]|]; [|done]. cbn in E2. injection E2 as <- <-. cbn in Hl. cbn in *. lia.
Qed.

Lemma bind_ext {S A B} (m : M S A) (k k' : A -> M S B) s :
  (forall a s', m s = Ret a s' -> k a s' = k' a s') -> bind m k s = bind m k' s.
Proof. unfold bind. destruct (m s); auto. Qed.

Section Walk.
Context {S : Type} `{HasCtx S} `{!BlockLayer S}.
Variable dev_read : Z -> option (nat -> Z -> M (ist S) (Z * list Z)).

(** The loop of namex ends after at most as many rounds as the path has characters: a bound on
    the number of rounds beyond the length of the path makes no difference, whatever the
    directories hold. *)
Theorem namex_terminates (path : list Z) fuel fuel' ip par name s :
  (length path < fuel)%nat -> (length path < fuel')%nat ->
  namex_loop dev_read fuel ip path par name s = namex_loop dev_read fuel' ip path par name s.
Proof.
  revert fuel' path ip name s. induction fuel as [|fuel IH]; intros [|fuel'] path ip name s Hf Hf'; try lia.
  cbn [namex_loop]. destruct (skipelem path name) as [[[path' name']|]|] eqn:E; try done.
  apply skipelem_shorter in E. apply bind_ext. intros e s0 He. injection He as <- <-.
  apply bind_ext. intros [] s1 _. apply bind_ext. intros x s2 _. destruct (negb _); [done|].
  apply bind_ext. intros c s3 _. destruct (par && _); [done|]. apply bind_ext. intros [[next off]|] s4 _; [|done].
  apply bind_ext. intros [] s5 _. apply IH; lia.
Qed.
End Walk.

(** A walk of the path "/": no directory is read. *)
Lemma namex_terminates_witness : exists s : ist logst,
  namex_loop (fun _ => None) 3 7 [47; 0] false [] s = namex_loop (fun _ => None) 9 7 [47; 0] false [] s /\
  namex_loop (fun _ => None) 3 7 [47; 0] false [] s = Ret (Some 7%nat, []) s.
Proof.
  destruct (demo_transaction (replicate BSIZE 0) (replicate BSIZE 0)) as (b & _); [reflexivity..|].
  exists (mkist [] b). split; [|reflexivity].
  apply (namex_terminates (fun _ => None) [47; 0] 3 9 7 false [] (mkist [] b)); cbn; lia.
Defined.
