(* ===== verification/Dirent.v ===== *)
(** * Directories as tables of names

    A directory is the sequence of its entries of sixteen bytes; an entry with inode
    number 0 is free.  dirlookup finds the first entry with a name, dirlink adds one. *)

From stdpp Require Import base list numbers strings functions gmap sets.
From S2P Require Import Prelude CString Spinlock Layout Buf Log Block Inode Content Dinode Icache Dir.
Import Ctx.

Open Scope Z_scope.
Local Open Scope kernel_scope.

(** ** The table *)

Definition dent (c : list Z) (k : nat) : dirent := dirent_of (slice (16 * k) 16 c).

(** Names are equal when their first DIRSIZ characters are. *)
Definition same_name (a b : list Z) : Prop := Str.cstr DIRSIZ a = Str.cstr DIRSIZ b.

#[export] Instance same_name_dec a b : Decision (same_name a b).
Proof. unfold same_name. apply _. Defined.

(** Entry [k] is in use, for [name]. *)
Definition names (c name : list Z) (k : nat) : Prop := de_inum (dent c k) <> 0 /\ same_name name (de_name (dent c k)).

#[export] Instance names_dec c name k : Decision (names c name k).
Proof. unfold names. apply _. Defined.

(** The first entry for [name]. *)
Definition dir_find (c name : list Z) : option nat := snd <$> list_find (names c name) (seq 0 (length c / 16)).

Lemma dir_find_Some c name k :
  dir_find c name = Some k <-> (k < length c / 16)%nat /\ names c name k /\ (forall j, (j < k)%nat -> ~ names c name j).
Proof.
  unfold dir_find. destruct (list_find _ _) as [[i j]|] eqn:E; cbn [fmap option_fmap option_map snd].
  - apply list_find_Some in E as (H1 & H2 & H3). apply lookup_seq in H1 as [-> H1]. cbn [Nat.add] in *. split.
    + intros [= <-]. split_and!; [done..|]. intros j Hj. apply (H3 j j); [|done]. apply lookup_seq. split; [done|lia].
    + intros (K1 & K2 & K3). f_equal. destruct (Nat.lt_trichotomy i k) as [Hl|[->|Hl]]; [by destruct (K3 i)|done|].
      destruct (H3 k k); [|done|done]. apply lookup_seq. lia.
  - split; [done|]. intros (K1 & K2 & K3). apply list_find_None in E. rewrite list.Forall_forall in E.
    destruct (E k); [|done]. apply elem_of_seq. lia.
Qed.

Lemma dir_find_None c name : dir_find c name = None <-> forall k, (k < length c / 16)%nat -> ~ names c name k.
Proof.
  unfold dir_find. rewrite fmap_None. split.
  - intros E k Hk. apply list_find_None in E. rewrite list.Forall_forall in E. apply E, elem_of_seq. lia.
  - intros Hn. apply list_find_None, list.Forall_forall. intros k Hk. apply elem_of_seq in Hk. apply Hn. lia.
Qed.

(** The fourteen bytes of a name in an entry. *)
Definition padded (name : list Z) : list Z :=
  Str.cstr DIRSIZ name ++ replicate (DIRSIZ - length (Str.cstr DIRSIZ name)) 0.

Lemma length_padded name : length (padded name) = DIRSIZ.
Proof. unfold padded. rewrite length_app, length_replicate. pose proof (Str.length_cstr DIRSIZ name). lia. Qed.

Lemma strncpy_padded name :
  Str.readable DIRSIZ name -> Str.strncpy (replicate DIRSIZ 0) name (Z.of_nat DIRSIZ) = Some (padded name).
Proof.
  intros Hr. unfold Str.strncpy. rewrite Nat2Z.id, Str.strncpy_bytes_spec by done. cbn [mbind option_bind].
  fold (padded name). rewrite decide_True by (by rewrite length_padded, length_replicate).
  unfold splice. rewrite length_padded, drop_ge by (by rewrite length_replicate). by rewrite app_nil_r.
Qed.

Lemma same_padded name : same_name name (padded name).
Proof.
  unfold same_name, padded. pose proof (Str.cstr_padded DIRSIZ name []) as E. rewrite app_nil_r in E. by rewrite E.
Qed.

Lemma bytes_padded name : bytes name -> bytes (padded name).
Proof.
  intros Hn. unfold padded. apply Forall_app. split; [|apply Forall_replicate; unfold byte; lia].
  generalize DIRSIZ as n. intros n. revert name Hn. induction n as [|n IH]; intros [|a name] Hn; cbn [Str.cstr]; try constructor.
  inversion Hn as [|? ? H1 H2]; subst. destruct (a =? 0); [constructor|]. constructor; [done|by apply IH].
Qed.

(** The inode [x] is a directory whose bytes are all there. *)
Record dir_ok (V : Z -> list Z) (sb : superblock) (lim : Z) (x : inode) : Prop := {
  dr_file : file_ok V sb lim x;
  dr_full : full V x;
  dr_type : i_type x = T_DIR;
  dr_size : i_size x = 16 * Z.of_nat (length (content V x) / 16);
  dr_bytes : bytes (content V x) }.

Section Lookup.
Context {S : Type} `{HasCtx S} `{!BlockLayer S} `{!BlockLaws S}.
Implicit Types (s : ist S) (b : S) (V : Z -> list Z).
Variable dev_read : Z -> option (nat -> Z -> M (ist S) (Z * list Z)).

Lemma wp_read_dirent dp x k s V r sb (Q : dirent -> ist S -> Prop) :
  bl_rep (blk s) V ∅ ∅ r -> fs_shape V sb (bl_lim (blk s)) -> icache s !! dp = Some x -> dir_ok V sb (bl_lim (blk s)) x ->
  (k < length (content V x) / 16)%nat ->
  (forall b', bl_rep b' V ∅ ∅ r -> bl_ext ∅ (blk s) b' -> Q (dent (content V x) k) (mkist (icache s) b')) ->
  wp (read_dirent dev_read dp (16 * Z.of_nat k)) Q s.
Proof.
  intros R Sh Hi [D1 D2 D3 D4 D5] Hk HQ. pose proof (data_start_pos _ _ _ Sh). pose proof (fo_size _ _ _ _ D1) as Hsz.
  assert (MAXFILE * Z.of_nat BSIZE = 71680) as HM by reflexivity. unfold read_dirent, sizeof_dirent. apply wp_bind.
  eapply (wp_readi dev_read dp x _ 16); [exact R|exact Hi|exact D1|exact D2|lia|rewrite D3; done|lia|lia|lia|].
  cbv zeta. rewrite Z.min_l by lia. intros b' R' E'. cbn [fst snd]. rewrite Z.eqb_refl. cbn [negb]. wp_steps.
  replace (Z.to_nat (16 * Z.of_nat k)) with (16 * k)%nat by lia. by apply HQ.
Qed.

Lemma namecmp_spec c name k :
  bytes c -> bytes name -> Str.readable DIRSIZ name -> (16 * k + 16 <= length c)%nat ->
  exists z, namecmp name (de_name (dent c k)) = Some z /\ (z = 0 <-> same_name name (de_name (dent c k))).
Proof.
  intros Hc Hn Hr Hk. apply Str.strncmp_spec; [done| |done|].
  - unfold dent, dirent_of. cbn [de_name]. apply Forall_drop. by apply Forall_slice.
  - right. unfold dent, dirent_of. cbn [de_name]. rewrite length_drop, length_slice by done. unfold DIRSIZ. lia.
Qed.

Lemma wp_dirlookup_loop fuel dp x name k s V r sb (Q : option (nat * Z) -> ist S -> Prop) :
  let c := content V x in let n := (length c / 16)%nat in
  bl_rep (blk s) V ∅ ∅ r -> fs_shape V sb (bl_lim (blk s)) -> icache s !! dp = Some x -> dir_ok V sb (bl_lim (blk s)) x ->
  bytes name -> Str.readable DIRSIZ name -> (k <= n)%nat -> (n - k < fuel)%nat -> (forall j, (j < k)%nat -> ~ names c name j) ->
  (dir_find c name = None -> forall b', bl_rep b' V ∅ ∅ r -> bl_ext ∅ (blk s) b' -> Q None (mkist (icache s) b')) ->
  (forall j b', dir_find c name = Some j -> bl_rep b' V ∅ ∅ r -> bl_ext ∅ (blk s) b' ->
     wp (ip <- iget ROOTDEV (de_inum (dent c j)) ;; ret (Some (ip, 16 * Z.of_nat j))) Q (mkist (icache s) b')) ->
  wp (dirlookup_loop dev_read fuel dp name (16 * Z.of_nat k)) Q s.
Proof.
  cbv zeta. revert k s. induction fuel as [|fuel IH]; intros k s R Sh Hi D Hb Hr Hk Hf Hbefore QN QS; [lia|].
  cbn [dirlookup_loop]. wp_step. eapply wp_geti; [exact Hi|]. pose proof (dr_size _ _ _ _ D) as Hsz.
  destruct (Z.ltb_spec (16 * Z.of_nat k) (i_size x)) as [Hlt|Hge].
  - apply wp_bind. eapply wp_read_dirent; [exact R|exact Sh|exact Hi|exact D|lia|]. intros b1 R1 E1.
    assert (forall z, bl_ext ∅ b1 z -> bl_ext ∅ (blk s) z) as Htr by (intros; by eapply bl_ext_trans).
    pose proof (bl_ext_lim _ _ _ E1) as El.
    assert (~ names (content V x) name k ->
      wp (dirlookup_loop dev_read fuel dp name (16 * Z.of_nat k + sizeof_dirent)) Q (mkist (icache s) b1)) as Hnext.
    { intros Hno. unfold sizeof_dirent. replace (16 * Z.of_nat k + 16) with (16 * Z.of_nat (Datatypes.S k)) by lia.
      eapply IH; cbn [blk icache]; rewrite ?El; [exact R1|exact Sh|exact Hi|exact D|exact Hb|exact Hr|lia|lia| | |].
      - intros j Hj. destruct (decide (j = k)) as [->|]; [done|]. apply Hbefore. lia.
      - intros HN b' R' E'. apply QN; auto.
      - intros j b' HS R' E'. apply QS; auto. }
    destruct (Z.eqb_spec (de_inum (dent (content V x) k)) 0) as [E0|E0]; [apply Hnext; intros [? _]; done|].
    destruct (namecmp_spec (content V x) name k) as (z & Ez & Hz); [apply D|done|done| |].
    { pose proof (Nat.div_mod_eq (length (content V x)) 16). lia. }
    wp_step. eapply wp_lift_opt; [exact Ez|]. destruct (Z.eqb_spec z 0) as [->|Hne].
    + assert (dir_find (content V x) name = Some k) as HS.
      { apply dir_find_Some. split; [lia|]. split; [|done]. split; [done|by apply Hz]. }
      rewrite (fo_dev _ _ _ _ (dr_file _ _ _ _ D)). by apply QS.
    + apply Hnext. intros [_ Hsame]. apply Hne. by apply Hz.
  - wp_steps. destruct s as [l b]. apply QN; [|done|apply bl_ext_refl].
    apply dir_find_None. intros j Hj. apply Hbefore. lia.
Qed.

Lemma wp_dirlookup dp x name s V r sb (Q : option (nat * Z) -> ist S -> Prop) :
  let c := content V x in
  bl_rep (blk s) V ∅ ∅ r -> fs_shape V sb (bl_lim (blk s)) -> icache s !! dp = Some x -> dir_ok V sb (bl_lim (blk s)) x ->
  bytes name -> Str.readable DIRSIZ name ->
  (dir_find c name = None -> forall b', bl_rep b' V ∅ ∅ r -> bl_ext ∅ (blk s) b' -> Q None (mkist (icache s) b')) ->
  (forall j b', dir_find c name = Some j -> bl_rep b' V ∅ ∅ r -> bl_ext ∅ (blk s) b' ->
     wp (ip <- iget ROOTDEV (de_inum (dent c j)) ;; ret (Some (ip, 16 * Z.of_nat j))) Q (mkist (icache s) b')) ->
  wp (dirlookup dev_read dp name) Q s.
Proof.
  cbv zeta. intros R Sh Hi D Hb Hr QN QS. unfold dirlookup. wp_step. eapply wp_geti; [exact Hi|].
  rewrite (dr_type _ _ _ _ D), Z.eqb_refl. cbn [negb]. change 0 with (16 * Z.of_nat 0).
  pose proof (dr_size _ _ _ _ D). eapply wp_dirlookup_loop; try done; lia.
Qed.
End Lookup.

(** ** A new entry *)

(** The first free entry, or the end. *)
Definition dir_slot (c : list Z) : nat :=
  match list_find (fun k => de_inum (dent c k) = 0) (seq 0 (length c / 16)) with Some (_, k) => k | None => (length c / 16)%nat end.

Lemma dir_slot_spec c k :
  (k <= length c / 16)%nat -> ((k < length c / 16)%nat -> de_inum (dent c k) = 0) ->
  (forall j, (j < k)%nat -> de_inum (dent c j) <> 0) -> dir_slot c = k.
Proof.
  intros Hk H0 Hb. unfold dir_slot. destruct (list_find _ _) as [[i j]|] eqn:E.
  - apply list_find_Some in E as (H1 & H2 & H3). apply lookup_seq in H1 as [-> H1]. cbn [Nat.add] in *.
    destruct (Nat.lt_trichotomy i k) as [Hl|[->|Hl]]; [by destruct (Hb i)|done|].
    destruct (H3 k k); [|done|apply H0; lia]. apply lookup_seq. lia.
  - apply list_find_None in E. rewrite list.Forall_forall in E. destruct (decide (k < length c / 16)%nat) as [Hl|]; [|lia].
    destruct (E k); [|by apply H0]. apply elem_of_seq. lia.
Qed.

Lemma slot_le c : (dir_slot c <= length c / 16)%nat /\ ((dir_slot c < length c / 16)%nat -> de_inum (dent c (dir_slot c)) = 0).
Proof.
  unfold dir_slot. destruct (list_find _ _) as [[i j]|] eqn:E; [|lia].
  apply list_find_Some in E as (H1 & H2 & _). apply lookup_seq in H1 as [-> H1]. split; [lia|done].
Qed.

(** Every place before it is taken. *)
Lemma slot_first c j : (j < dir_slot c)%nat -> de_inum (dent c j) <> 0.
Proof.
  unfold dir_slot. destruct (list_find _ _) as [[i k]|] eqn:E.
  - apply list_find_Some in E as (H1 & _ & H3). apply lookup_seq in H1 as [-> H1]. intros Hj. apply (H3 j j); [|done]. apply lookup_seq. lia.
  - apply list_find_None in E. rewrite list.Forall_forall in E. intros Hj. apply E, elem_of_seq. lia.
Qed.

Section Entry.
Context (c nm : list Z) (inum : Z).
Hypothesis Hnm : length nm = DIRSIZ.
Hypothesis Hin : 0 < inum < 2 ^ 16.
Hypothesis Hc : length c = (16 * (length c / 16))%nat.
Let k := dir_slot c.
Let e := dirent_bytes (mkdirent inum nm).
Let c' := splice (16 * k) e c.

Lemma entry_len : length e = 16%nat.
Proof. unfold e, dirent_bytes. cbn [de_inum de_name]. rewrite length_app, length_to_le, Hnm. done. Qed.

Lemma link_len : length c' = Nat.max (length c) (16 * k + 16).
Proof.
  pose proof (slot_le c). unfold c', splice. rewrite !length_app, length_take, length_drop, entry_len. lia.
Qed.

Lemma link_count : (length c' / 16 = Nat.max (length c / 16) (k + 1))%nat.
Proof.
  rewrite link_len. symmetry. apply Nat.div_unique_exact; [lia|]. lia.
Qed.

Lemma link_dent j : (j < length c' / 16)%nat -> dent c' j = if decide (j = k) then mkdirent inum nm else dent c j.
Proof.
  rewrite link_count. intros Hj. destruct (slot_le c) as [Hk _]. case_decide as E.
  - subst j. unfold dent, c'.
    assert (slice (16 * k) 16 (splice (16 * k) e c) = e) as ->.
    { unfold slice, splice. rewrite drop_app_length' by (rewrite length_take; lia). rewrite take_app_length' by (symmetry; apply entry_len). done. }
    unfold e, dirent_of, dirent_bytes. cbn [de_inum de_name]. f_equal.
    unfold get16, slice. rewrite drop_0, take_app_length' by (by rewrite length_to_le). rewrite of_le_to_le. apply Z.mod_small. change (256 ^ Z.of_nat 2) with (2 ^ 16). lia.
  - unfold dent. f_equal. unfold c'. unfold slice, splice. pose proof entry_len. destruct (decide (j < k)%nat).
    + rewrite drop_app_le by (rewrite length_take; lia). rewrite take_app_le by (rewrite length_drop, length_take; lia).
      rewrite skipn_firstn_comm, take_take. f_equal. lia.
    + rewrite drop_app_ge by (rewrite length_take; lia). rewrite drop_app_ge by (rewrite length_take; lia). rewrite drop_drop.
      rewrite length_take, H. do 2 f_equal. lia.
Qed.

(** Looking up the new name, and another one. *)
Lemma link_find name :
  same_name name nm -> dir_find c name = None -> dir_find c' name = Some k.
Proof.
  intros Hs Hn. rewrite dir_find_None in Hn. pose proof link_count as Hl. apply dir_find_Some. split; [lia|]. split.
  - unfold names. rewrite link_dent, decide_True by lia || done. cbn [de_inum de_name]. split; [lia|done].
  - intros j Hj. unfold names. rewrite link_dent, decide_False by lia. destruct (slot_le c). apply Hn. lia.
Qed.

Lemma link_other name :
  ~ same_name name nm -> dir_find c' name = dir_find c name.
Proof.
  intros Hs. destruct (slot_le c) as [Hk H0]. fold k in Hk, H0. pose proof link_count as Hl.
  assert (forall j, (j < length c' / 16)%nat -> names c' name j <-> (j < length c / 16)%nat /\ names c name j) as Hiff.
  { intros j Hj. unfold names. rewrite link_dent by done. case_decide as E.
    - subst j. cbn [de_inum de_name]. split; [by intros [_ ?]|]. intros [Hlt [Hne _]]. by rewrite H0 in Hne.
    - assert (j < length c / 16)%nat by lia. naive_solver. }
  destruct (dir_find c name) as [j|] eqn:E.
  - apply dir_find_Some in E as (E1 & E2 & E3). apply dir_find_Some. split; [lia|]. split; [apply Hiff; [lia|done]|].
    intros i Hi. rewrite Hiff by lia. intros [_ Hi']. by apply (E3 i).
  - apply dir_find_None. rewrite dir_find_None in E. intros j Hj. rewrite Hiff by done. intros [Hj' Hn]. by apply (E j).
Qed.
End Entry.

Section Link.
Context {S : Type} `{HasCtx S} `{!BlockLayer S} `{!BlockLaws S}.
Implicit Types (s : ist S) (b : S) (V : Z -> list Z).
Variable dev_read : Z -> option (nat -> Z -> M (ist S) (Z * list Z)).
Variable dev_write : Z -> option (nat -> list Z -> Z -> M (ist S) Z).

(** iput of a reference that does not free the inode. *)
Lemma wp_iput_keep i x s (Q : unit -> ist S -> Prop) :
  LkIcache ∉ held (ctx s) -> icache s !! i = Some x -> i_ref x <> 1 \/ has (i_flags x) I_VALID = false \/ i_nlink x <> 0 ->
  Q tt (mkist (<[i := iw_ref (i_ref x - 1) x]> (icache s)) (blk s)) -> wp (iput i) Q s.
Proof.
  intros Hl Hi Hn HQ. unfold iput. wp_steps. apply wp_acquire; [done|]. wp_steps. eapply wp_geti; [exact Hi|].
  assert ((i_ref x =? 1) && has (i_flags x) I_VALID && (i_nlink x =? 0) = false) as ->.
  { destruct Hn as [Hn|[->|Hn]]; [by rewrite (proj2 (Z.eqb_neq _ _) Hn)|by rewrite andb_false_r|].
    by rewrite (proj2 (Z.eqb_neq _ _) Hn), andb_false_r. }
  wp_steps. eapply wp_seti; [exact Hi|]. wp_steps.
  eapply wp_release; [cbn; by rewrite ctx_with|]. cbn. rewrite !ctx_with. cbn [woken killed]. rewrite ctx_back. exact HQ.
Qed.

(** iget followed by iput: every slot in use is as it was. *)
Lemma wp_iget_iput dev inum s (Q : unit -> ist S -> Prop) :
  icache_ok (icache s) -> LkIcache ∉ held (ctx s) ->
  (exists i x, icache s !! i = Some x /\ (is_for dev inum x \/ i_ref x = 0)) ->
  (forall l', length l' = length (icache s) -> (forall i y, 0 < i_ref y -> l' !! i = Some y <-> icache s !! i = Some y) ->
     Q tt (mkist l' (blk s))) ->
  wp (i <- iget dev inum ;; iput i) Q s.
Proof.
  intros O Hl (i0 & x0 & Hi0 & Hx0) HQ. wp_step. destruct (list_find (is_for dev inum) (icache s)) as [[i x]|] eqn:Ef.
  - apply list_find_Some in Ef as (Hi & F & _). eapply wp_iget_hit; [done|done|exact Hi|done|]. pose proof (lookup_lt_Some _ _ _ Hi).
    eapply wp_iput_keep; [exact Hl|cbn [icache]; by apply list_lookup_insert_eq|left; destruct F; cbn; lia|].
    cbn [icache blk i_ref iw_ref]. rewrite list_insert_insert_eq. apply HQ; [by rewrite length_insert|].
    replace (iw_ref _ _) with x by (unfold iw_ref; cbn; replace (i_ref x + 1 - 1) with (i_ref x) by lia; by destruct x).
    by rewrite list_insert_id.
  - apply list_find_None in Ef. rewrite list.Forall_forall in Ef.
    assert (forall j y, icache s !! j = Some y -> ~ is_for dev inum y) as Hn
      by (intros j y Hy; apply Ef; by eapply list_elem_of_lookup_2).
    destruct (list_find (fun x => i_ref x = 0) (icache s)) as [[i x]|] eqn:Ee; cycle 1.
    { apply list_find_None in Ee. rewrite list.Forall_forall in Ee. exfalso.
      destruct Hx0 as [Hx0|Hx0]; [by apply (Hn i0 x0)|]. apply (Ee x0); [by eapply list_elem_of_lookup_2|done]. }
    pose proof Ee as (Hi & Hx & _)%list_find_Some. pose proof (lookup_lt_Some _ _ _ Hi).
    eapply wp_iget_miss; [done|exact Hn|exact Ee|].
    eapply wp_iput_keep; [exact Hl|cbn [icache]; by apply list_lookup_insert_eq|right; left; done|].
    cbn [icache blk]. rewrite list_insert_insert_eq. apply HQ; [by rewrite length_insert|]. intros j y Hy.
    destruct (decide (j = i)) as [->|Hne]; [|by rewrite list_lookup_insert_ne].
    rewrite list_lookup_insert_eq by done. split; [intros [= <-]; cbn in Hy; lia|rewrite Hi; intros [= <-]; lia].
Qed.

Lemma wp_empty_loop fuel dp x k s V r sb (Q : Z -> ist S -> Prop) :
  let c := content V x in let n := (length c / 16)%nat in
  bl_rep (blk s) V ∅ ∅ r -> fs_shape V sb (bl_lim (blk s)) -> icache s !! dp = Some x -> dir_ok V sb (bl_lim (blk s)) x ->
  (k <= n)%nat -> (n - k < fuel)%nat -> (forall j, (j < k)%nat -> de_inum (dent c j) <> 0) ->
  (forall b', bl_rep b' V ∅ ∅ r -> bl_ext ∅ (blk s) b' -> Q (16 * Z.of_nat (dir_slot c)) (mkist (icache s) b')) ->
  wp (empty_loop dev_read fuel dp (16 * Z.of_nat k)) Q s.
Proof.
  cbv zeta. revert k s. induction fuel as [|fuel IH]; intros k s R Sh Hi D Hk Hf Hbefore HQ; [lia|].
  cbn [empty_loop]. wp_step. eapply wp_geti; [exact Hi|]. pose proof (dr_size _ _ _ _ D) as Hsz.
  destruct (Z.ltb_spec (16 * Z.of_nat k) (i_size x)) as [Hlt|Hge].
  - apply wp_bind. eapply wp_read_dirent; [exact R|exact Sh|exact Hi|exact D|lia|]. intros b1 R1 E1.
    pose proof (bl_ext_lim _ _ _ E1) as El. destruct (Z.eqb_spec (de_inum (dent (content V x) k)) 0) as [E0|E0].
    + wp_steps. rewrite <- (dir_slot_spec (content V x) k) by (done || lia). by apply HQ.
    + unfold sizeof_dirent. replace (16 * Z.of_nat k + 16) with (16 * Z.of_nat (Datatypes.S k)) by lia.
      eapply IH; cbn [blk icache]; rewrite ?El; [exact R1|exact Sh|exact Hi|exact D|lia|lia| |].
      * intros j Hj. destruct (decide (j = k)) as [->|]; [done|]. apply Hbefore. lia.
      * intros b' R' E'. apply HQ; [done|]. by eapply bl_ext_trans.
  - wp_steps. rewrite <- (dir_slot_spec (content V x) k) by (done || lia). destruct s as [l b]. apply HQ; [done|apply bl_ext_refl].
Qed.

(** The directory after the entry was written. *)
Lemma wrote_dir V sb lim x nm inum V' x' :
  dir_ok V sb lim x -> length nm = DIRSIZ -> bytes nm -> 0 < inum < 2 ^ 16 ->
  let c := content V x in let off := 16 * Z.of_nat (dir_slot c) in
  wrote V sb lim x off 16 (dirent_bytes (mkdirent inum nm)) V' x' -> length c = Z.to_nat (i_size x) ->
  dir_ok V' sb lim x' /\ content V' x' = splice (16 * dir_slot c) (dirent_bytes (mkdirent inum nm)) c.
Proof.
  intros [D1 D2 D3 D4 D5] Hnm Hb Hin c off W Hlc. fold c in D4, D5.
  assert (length c = (16 * (length c / 16))%nat) as Hc by lia.
  pose proof (slot_le c) as [Hle _]. assert (content V' x' = splice (16 * dir_slot c) (dirent_bytes (mkdirent inum nm)) c) as Ec.
  { rewrite (wo_content _ _ _ _ _ _ _ _ _ W). unfold off. replace (Z.to_nat (16 * Z.of_nat (dir_slot c))) with (16 * dir_slot c)%nat by lia.
    rewrite take_ge; [done|]. rewrite entry_len by done. done. }
  split; [|done]. pose proof (wo_ino _ _ _ _ _ _ _ _ _ W) as Hx. constructor; try apply W.
  - rewrite Hx. exact D3.
  - rewrite Hx at 1. cbn [i_size iw_size]. rewrite new_size_max by (unfold off; lia). rewrite Ec, link_count by done. unfold off. lia.
  - rewrite Ec. apply Forall_splice; [|done]. unfold dirent_bytes. apply Forall_app. split; [apply bytes_to_le|done].
Qed.

Lemma one_chunk k : nchunks (16 * Z.of_nat k) 16 = 1%nat.
Proof.
  unfold nchunks. cbn [Z.leb Z.compare]. replace (Z.of_nat k) with (32 * (Z.of_nat k / 32) + Z.of_nat k mod 32) by (symmetry; apply Z.div_mod; lia).
  pose proof (Z.mod_pos_bound (Z.of_nat k) 32 ltac:(lia)). set (q := Z.of_nat k / 32) in *. set (m := Z.of_nat k mod 32) in *.
  assert ((16 * (32 * q + m) + 16 - 1) / 512 = q) as -> by (symmetry; apply (Z.div_unique_pos _ _ _ (16 * m + 15)); lia).
  assert ((16 * (32 * q + m)) / 512 = q) as -> by (symmetry; apply (Z.div_unique_pos _ _ _ (16 * m)); lia). lia.
Qed.

(** Every inode that is in use in [l] or in [l'] is the same in both. *)
Definition same_used (l l' : list inode) : Prop := forall i y, 0 < i_ref y -> l' !! i = Some y <-> l !! i = Some y.

Section Dirlink.
Context (dp : nat) (x : inode) (name : list Z) (inum : Z) (s : ist S) (V : Z -> list Z) (r : nat) (sb : superblock).
Hypothesis (R : bl_rep (blk s) V ∅ ∅ (7 + r)) (Sh : fs_shape V sb (bl_lim (blk s))) (Hds : data_start sb <= sb_size sb).
Hypothesis (O : icache_ok (icache s)) (Hl : LkIcache ∉ held (ctx s)) (Hi : icache s !! dp = Some x).
Hypothesis (D : dir_ok V sb (bl_lim (blk s)) x) (Hfit : inode_fits x) (Hn : 0 <= i_inum x < sb_ninodes sb).
Hypothesis (Hmax : i_size x + 16 <= MAXFILE * Z.of_nat BSIZE) (Hfree : (2 <= length (free_blocks V sb (bl_lim (blk s))))%nat).
Hypothesis (Hb : bytes name) (Hr : Str.readable DIRSIZ name) (Hin : 0 < inum < 2 ^ 16).

Lemma dir_length : length (content V x) = Z.to_nat (i_size x).
Proof.
  unfold content. pose proof (fo_size _ _ _ _ (dr_file _ _ _ _ D)). pose proof (data_start_pos _ _ _ Sh).
  rewrite length_take, (length_flat _ _ _ _ (dr_file _ _ _ _ D)); [unfold BSIZE, nblocks, MAXFILE, NDIRECT, NINDIRECT in *; lia|].
  intros p Hp Hz. destruct (fo_slot _ _ _ _ (dr_file _ _ _ _ D) _ Hp Hz) as (B1 & _). eapply bl_len; [exact R|lia].
Qed.

Lemma wp_dirlink_new (Q : Z -> ist S -> Prop) :
  dir_find (content V x) name = None ->
  (forall b' V' x', bl_rep b' V' ∅ ∅ r -> fs_shape V' sb (bl_lim (blk s)) -> dir_ok V' sb (bl_lim (blk s)) x' ->
     content V' x' = splice (16 * dir_slot (content V x)) (dirent_bytes (mkdirent inum (padded name))) (content V x) ->
     Q 0 (mkist (<[dp := x']> (icache s)) b')) ->
  wp (dirlink dev_read dev_write dp name inum) Q s.
Proof.
  intros HN HQ. unfold dirlink. apply wp_bind. eapply wp_dirlookup; [exact R|exact Sh|exact Hi|exact D|exact Hb|exact Hr| |congruence].
  intros _ b1 R1 E1. pose proof (bl_ext_lim _ _ _ E1) as El. wp_step. eapply wp_geti; [exact Hi|]. apply wp_bind.
  change 0 with (16 * Z.of_nat 0) at 1. pose proof (dr_size _ _ _ _ D) as Hsz. pose proof dir_length as Hlc.
  eapply wp_empty_loop; cbn [blk icache]; rewrite ?El; [exact R1|exact Sh|exact Hi|exact D|lia|lia|lia|].
  intros b2 R2 E2. pose proof (bl_ext_lim _ _ _ E2) as El2. rewrite El in El2. wp_step. eapply wp_lift_opt; [by apply strncpy_padded|]. apply wp_bind.
  pose proof (slot_le (content V x)) as [Hsl _]. rewrite (u16_small inum) by lia.
  assert (length (dirent_bytes (mkdirent inum (padded name))) = 16%nat) as Hle by (apply entry_len; apply length_padded).
  eapply (wp_writei dev_write dp x _ 16 _ _ V r sb); unfold sizeof_dirent; cbn [blk icache];
    rewrite ?El2, ?one_chunk, ?Hle; try done; try lia; try apply D.
  - by rewrite (dr_type _ _ _ _ D).
  - intros b3 V3 x3 R3 E3 W _. cbn [Z.eqb negb Pos.eqb].
    destruct (wrote_dir V sb (bl_lim (blk s)) x (padded name) inum V3 x3 D) as [D3 Ec]; [apply length_padded|by apply bytes_padded|done|exact W|exact Hlc|].
    wp_steps. eapply HQ; [exact R3|apply W|exact D3|exact Ec].
Qed.

Lemma wp_dirlink_taken k (Q : Z -> ist S -> Prop) :
  dir_find (content V x) name = Some k ->
  (exists i y, icache s !! i = Some y /\ (is_for ROOTDEV (de_inum (dent (content V x) k)) y \/ i_ref y = 0)) ->
  (forall l' b', bl_rep b' V ∅ ∅ (7 + r) -> same_used (icache s) l' -> Q (-1) (mkist l' b')) ->
  wp (dirlink dev_read dev_write dp name inum) Q s.
Proof.
  intros HS Hslot HQ. unfold dirlink. apply wp_bind. eapply wp_dirlookup; [exact R|exact Sh|exact Hi|exact D|exact Hb|exact Hr|congruence|].
  intros j b1 HS' R1 E1. rewrite HS in HS'. injection HS' as <-. apply wp_bind.
  enough (wp (i <- iget ROOTDEV (de_inum (dent (content V x) k)) ;; iput i) (fun _ s' => Q (-1) s') (mkist (icache s) b1)) as H1.
  { unfold wp, bind, ret in *. destruct (iget _ _ _) as [i si| | | |]; try done. cbn in *. by destruct (iput i si). }
  eapply wp_iget_iput; cbn [icache blk]; [exact O| |exact Hslot|].
  - change (LkIcache ∉ held (ctx b1)). by rewrite (proj1 E1).
  - intros l' _ Hsame. by apply HQ.
Qed.

End Dirlink.
End Link.

(** ** A directory on the demonstration disk *)

Definition demo_dir : inode := mkinode ROOTDEV 1 1 I_VALID T_DIR 0 0 1 32 (6 :: replicate 12 0).
Definition demo_entries : list Z :=
  dirent_bytes (mkdirent 1 (padded [46; 0])) ++ dirent_bytes (mkdirent 2 (padded [97; 0])) ++ replicate 480 0.

Lemma demo_dir_ok V : (forall m, 0 <= m < 64 -> V m = disk_view (demo_image demo_inodes demo_entries) m) ->
  fs_shape V demo_sb 64 -> dir_ok V demo_sb 64 demo_dir /\ content V demo_dir = take 32 demo_entries /\
  (3 <= length (free_blocks V demo_sb 64))%nat.
Proof.
  intros HV Sh. destruct (demo_block_ok V _ _ demo_dir HV Sh) as (F1 & F2 & F3 & F4); [done|done|cbn; lia|done|].
  change (Z.to_nat (i_size demo_dir)) with 32%nat in F3. split; [|done]. constructor; [done|done|done|by rewrite F3|].
  rewrite F3. match goal with |- bytes ?t => let v := eval vm_compute in t in change (bytes v) end. repeat constructor; unfold byte; lia.
Qed.

