(* ===== verification/Trunc.v ===== *)
(** * fs.c: itrunc, and the last iput of a file that no directory names

    [freed V sb lim L V'] says that the blocks [L] of the contents [V] were given back to
    the bitmap and that only the bitmap changed.  itrunc frees the direct blocks, the
    blocks the indirect block lists and the indirect block; the log absorbs the repeated
    writes of a block of the bitmap, so the calls of bfree, up to 141 of them, need room
    for as many blocks as the bitmap has.  The last iput of an inode without links frees
    its blocks and marks the dinode free. *)

From stdpp Require Import base list numbers strings functions gmap sets.
From S2P Require Import Prelude Spinlock Layout Buf Log Block Inode Content Dinode Icache.
Import Ctx.

Open Scope Z_scope.
Local Open Scope kernel_scope.

(** ** The blocks of a file *)

Definition blocks (V : Z -> list Z) (x : inode) : gset Z :=
  list_to_set (slot V x <$> seq 0 nslots) ∖ {[0]}.

Lemma elem_blocks V x b : b ∈ blocks V x <-> b <> 0 /\ exists p, (p < nslots)%nat /\ slot V x p = b.
Proof.
  unfold blocks. rewrite elem_of_difference, elem_of_list_to_set, list_elem_of_fmap, elem_of_singleton. split.
  - intros [(p & -> & Hp) Hb]. split; [done|]. exists p. apply elem_of_seq in Hp. split; [lia|done].
  - intros [Hb (p & Hp & <-)]. split; [|done]. exists p. split; [done|]. apply elem_of_seq. lia.
Qed.

(** The direct blocks before [k], and the entries of the indirect block before [k]. *)
Definition direct (x : inode) (k : nat) : gset Z := list_to_set (take k (i_addrs x)) ∖ {[0]}.
Definition listed (d : list Z) (k : nat) : gset Z := list_to_set ((fun j => get32 d (4 * j)) <$> seq 0 k) ∖ {[0]}.

Lemma direct_0 x : direct x 0 = ∅.
Proof. unfold direct. rewrite take_0. cbn [list_to_set]. set_solver. Qed.

Lemma listed_0 d : listed d 0 = ∅.
Proof. unfold listed. cbn [seq fmap list_fmap list_to_set]. set_solver. Qed.

Lemma direct_S x k a : i_addrs x !! k = Some a ->
  direct x (S k) = if a =? 0 then direct x k else {[a]} ∪ direct x k.
Proof.
  intros Ha. unfold direct. rewrite (take_S_r _ _ _ Ha), list_to_set_app_L. cbn [list_to_set].
  destruct (Z.eqb_spec a 0); set_solver.
Qed.

Lemma listed_S d k :
  listed d (S k) = if get32 d (4 * k) =? 0 then listed d k else {[get32 d (4 * k)]} ∪ listed d k.
Proof.
  unfold listed. rewrite seq_S, fmap_app, list_to_set_app_L. cbn [fmap list_fmap list_to_set Nat.add].
  destruct (Z.eqb_spec (get32 d (4 * k)) 0); set_solver.
Qed.

Lemma elem_direct x k b : b ∈ direct x k <-> b <> 0 /\ exists p, (p < k)%nat /\ i_addrs x !! p = Some b.
Proof.
  unfold direct. rewrite elem_of_difference, elem_of_list_to_set, list_elem_of_lookup, elem_of_singleton. split.
  - intros [(p & Hp) Hb]. apply lookup_take_Some in Hp as [? ?]. eauto.
  - intros [Hb (p & ? & Hp)]. split; [|done]. exists p. by apply lookup_take_Some.
Qed.

Lemma elem_listed d k b : b ∈ listed d k <-> b <> 0 /\ exists j, (j < k)%nat /\ get32 d (4 * j) = b.
Proof.
  unfold listed. rewrite elem_of_difference, elem_of_list_to_set, list_elem_of_fmap, elem_of_singleton. split.
  - intros [(j & -> & Hj) Hb]. apply elem_of_seq in Hj. split; [done|]. exists j. split; [lia|done].
  - intros [Hb (j & Hj & <-)]. split; [|done]. exists j. split; [done|]. apply elem_of_seq. lia.
Qed.

Lemma blocks_parts V x : length (i_addrs x) = 13%nat ->
  blocks V x = if ind x =? 0 then direct x 12 else {[ind x]} ∪ (listed (V (ind x)) 128 ∪ direct x 12).
Proof.
  intros Hl. apply set_eq. intros b. rewrite elem_blocks.
  assert ((exists p, (p < nslots)%nat /\ slot V x p = b) <->
    (exists p, (p < 12)%nat /\ default 0 (i_addrs x !! p) = b) \/ ind x = b \/ (exists j, (j < 128)%nat /\ slot V x (13 + j) = b)) as ->.
  { unfold nslots. split.
    - intros (p & Hp & E). destruct (decide (p < 12)%nat); [left; exists p; by rewrite slot_direct in E by lia|].
      destruct (decide (p = 12%nat)) as [->|]; [right; left; by rewrite slot_ind in E|].
      right; right. exists (p - 13)%nat. split; [lia|]. by replace (13 + (p - 13))%nat with p by lia.
    - intros [(p & Hp & E)|[E|(j & Hj & E)]].
      + exists p. split; [lia|]. by rewrite slot_direct by lia.
      + exists 12%nat. split; [lia|]. by rewrite slot_ind.
      + exists (13 + j)%nat. split; [lia|done]. }
  assert (b <> 0 -> (exists p, (p < 12)%nat /\ default 0 (i_addrs x !! p) = b) <-> b ∈ direct x 12) as Hd.
  { intros Hb. rewrite elem_direct. split.
    - intros (p & Hp & E). split; [done|]. exists p. split; [done|]. destruct (i_addrs x !! p); [by subst|done].
    - intros [_ (p & Hp & E)]. exists p. by rewrite E. }
  assert (b <> 0 -> ind x <> 0 -> (exists j, (j < 128)%nat /\ slot V x (13 + j) = b) <-> b ∈ listed (V (ind x)) 128) as Hi.
  { intros Hb Hi. rewrite elem_listed. setoid_rewrite slot_entry. rewrite (proj2 (Z.eqb_neq _ _) Hi). naive_solver. }
  assert (b ∈ direct x 12 -> b <> 0) as Hd0 by (intros H; by apply elem_direct in H as [? _]).
  destruct (Z.eqb_spec (ind x) 0) as [Ez|Ez].
  - split; [|intros Hb; split; [auto|left; apply Hd; auto]].
    intros [Hb [H|[H|(j & _ & H)]]]; [by apply Hd|congruence|]. rewrite slot_entry, Ez in H. by cbn in H.
  - rewrite !elem_of_union, elem_of_singleton. split.
    + intros [Hb [H|[H|H]]]; [right; right; by apply Hd|by left|right; left; by apply Hi].
    + intros [->|[H|H]]; [split; [done|by right; left]|..|split; [auto|left; apply Hd; auto]].
      assert (b <> 0) by (by apply elem_listed in H as [? _]). split; [done|]. right; right. by apply Hi.
Qed.

(** ** Giving blocks back *)

Record freed (V : Z -> list Z) (sb : superblock) (lim : Z) (L : gset Z) (V' : Z -> list Z) : Prop := {
  fr_shape : fs_shape V' sb lim;
  fr_used : forall b, 0 <= b < sb_size sb -> used V' sb b = negb (bool_decide (b ∈ L)) && used V sb b;
  fr_same : forall n, (forall b, 0 <= b < sb_size sb -> n <> BBLOCK b (sb_ninodes sb)) -> V' n = V n }.

Lemma freed_none V sb lim : fs_shape V sb lim -> freed V sb lim ∅ V.
Proof. intros Sh. constructor; [done| |done]. intros b _. by rewrite bool_decide_eq_false_2 by set_solver. Qed.

Lemma freed_more V sb lim L V' a :
  freed V sb lim L V' -> data_start sb <= a < sb_size sb ->
  length (V' (BBLOCK a (sb_ninodes sb))) = BSIZE -> freed V sb lim ({[a]} ∪ L) (given_back V' sb a).
Proof.
  intros [Sh Fu Fs] Ha Hl. pose proof (data_start_pos _ _ _ Sh) as Hds.
  assert (forall b, 0 <= b < sb_size sb -> used (given_back V' sb a) sb b = negb (bool_decide (a = b)) && used V' sb b) as Hu.
  { intros b Hb. apply used_given_back; [lia|lia|done]. }
  constructor.
  - pose proof Sh as [S1 S2 S3 S4 S5]. constructor; try done.
    + unfold given_back. pose proof (BBLOCK_data _ _ _ a Sh ltac:(lia)). by rewrite fn_lookup_insert_ne by lia.
    + intros b Hb. rewrite Hu by lia. rewrite bool_decide_eq_false_2 by lia. by apply S5.
  - intros b Hb. rewrite Hu, Fu, andb_assoc, <- negb_orb by done. f_equal. f_equal.
    rewrite <- bool_decide_or. apply bool_decide_ext. set_solver.
  - intros n Hn. unfold given_back. rewrite fn_lookup_insert_ne; [by apply Fs|]. intros E. by apply (Hn a); [lia|].
Qed.

(** The number of blocks of the bitmap. *)
Definition nbitmap (sb : superblock) : nat := Z.to_nat ((sb_size sb - 1) / BPB + 1).

Definition bitmap_block (sb : superblock) (n : Z) : Prop :=
  exists b, 0 <= b < sb_size sb /\ n = BBLOCK b (sb_ninodes sb).

Lemma bitmap_blocks_le sb (B : list Z) : NoDup B -> (forall n, n ∈ B -> bitmap_block sb n) -> (length B <= nbitmap sb)%nat.
Proof.
  intros Hnd HB. set (all := (fun q => BBLOCK (Z.of_nat q * BPB) (sb_ninodes sb)) <$> seq 0 (nbitmap sb)).
  assert (length all = nbitmap sb) as <- by (unfold all; by rewrite length_fmap, length_seq).
  apply submseteq_length, NoDup_submseteq; [done|]. intros n Hn. destruct (HB n Hn) as (b & Hb & ->).
  apply list_elem_of_fmap. exists (Z.to_nat (b / BPB)). unfold BPB.
  assert (0 <= b / 4096 <= (sb_size sb - 1) / 4096) as Hq by (split; [apply Z.div_pos; lia|apply Z.div_le_mono; lia]). split.
  - apply BBLOCK_same. unfold BPB. rewrite Z2Nat.id, Z.div_mul by lia. done.
  - apply elem_of_seq. unfold nbitmap, BPB. lia.
Qed.

Section Trunc.
Context {S : Type} `{HasCtx S} `{!BlockLayer S} `{!BlockLaws S}.
Implicit Types (s : ist S) (b : S) (V : Z -> list Z).

(** Inside a truncation: the blocks [L] are free, and the room is enough for the blocks
    of the bitmap that are not in the log yet and for [r] further blocks. *)
Definition freeing (b : S) V sb (Hs L : gset Z) (r : nat) : Prop :=
  exists V' (B : list Z), freed V sb (bl_lim b) L V' /\ bl_rep b V' Hs ∅ (1 + r + (nbitmap sb - length B)) /\ NoDup B /\
    forall n, n ∈ B -> bl_logged b n /\ bitmap_block sb n.

Lemma freeing_start b V sb r :
  bl_rep b V ∅ ∅ (1 + nbitmap sb + r) -> fs_shape V sb (bl_lim b) -> freeing b V sb ∅ ∅ r.
Proof.
  intros R Sh. exists V, []. split; [by apply freed_none|]. split; [|split; [constructor|intros n Hn; inversion Hn]].
  eapply bl_room; [exact R|]. cbn [length]. lia.
Qed.

Lemma freeing_end b V sb L r : freeing b V sb ∅ L r -> exists V', freed V sb (bl_lim b) L V' /\ bl_rep b V' ∅ ∅ (1 + r).
Proof. intros (V' & B & F & R & _). exists V'. split; [done|]. eapply bl_room; [exact R|lia]. Qed.

(** One call of bfree. *)
Lemma wp_bfree_more b V sb Hs L r a (Q : unit -> S -> Prop) :
  freeing b V sb Hs L r -> (size Hs <= 1)%nat -> (forall n, n ∈ Hs -> data_start sb <= n < sb_size sb /\ used V sb n = true /\ n ∉ L) ->
  data_start sb <= a < sb_size sb -> used V sb a = true -> a ∉ L ->
  (forall b', freeing b' V sb Hs ({[a]} ∪ L) r -> bl_ext Hs b b' -> Q tt b') ->
  wp (bfree ROOTDEV a) Q b.
Proof.
  intros (V' & B & F & R & Hnd & HB) Hsz HH Ha Hu HaL HQ. pose proof F as [Sh Fu Fs].
  pose proof (data_start_pos _ _ _ Sh) as Hds. set (n := BBLOCK a (sb_ninodes sb)).
  assert (bitmap_block sb n) as Hbn by (exists a; split; [lia|done]).
  assert (length (V' n) = BSIZE) as Hlen.
  { eapply bl_len; [exact R|]. pose proof (BBLOCK_data _ _ _ a Sh ltac:(lia)). pose proof (sh_lim _ _ _ Sh). unfold n. lia. }
  assert (held_data V' sb Hs) as Hhd.
  { intros m Hm. destruct (HH m Hm) as (H1 & H2 & H3). split; [lia|]. rewrite Fu, H2, bool_decide_eq_false_2 by (done || lia). done. }
  assert (used V' sb a = true) as Hu' by (rewrite Fu, Hu, bool_decide_eq_false_2 by (done || lia); done).
  set (B' := if decide (n ∈ B) then B else n :: B).
  assert (NoDup B') as Hnd' by (unfold B'; case_decide; [done|by constructor]).
  eapply (wp_bfree_log b V' Hs (r + (nbitmap sb - length B)) (1 + r + (nbitmap sb - length B'))); try done; [lia| |].
  - unfold B'. case_decide as Hin; [right; split; [lia|by apply HB]|left].
    assert (length (n :: B) <= nbitmap sb)%nat as Hle; [|cbn [length] in Hle |- *; lia].
    apply bitmap_blocks_le; [by constructor|]. intros m Hm. apply elem_of_cons in Hm as [->|Hm]; [done|by apply HB].
  - intros b' R' E' L'. apply HQ; [|done]. exists (given_back V' sb a), B'. rewrite (bl_ext_lim _ _ _ E').
    split; [by apply freed_more|]. split; [exact R'|]. split; [done|]. intros m Hm.
    assert (m = n \/ m ∈ B) as [->|Hm'] by (unfold B' in Hm; case_decide; [by right|by apply elem_of_cons in Hm]); [done|].
    destruct (HB m Hm') as [H1 H2]. split; [by apply E'|done].
Qed.

(** bread and brelse of a block that is not in the bitmap. *)
Lemma wp_open_freeing {A} b V sb L r n (k : nat -> list Z -> M S A) (Q : A -> S -> Prop) :
  freeing b V sb ∅ L r -> data_start sb <= n < bl_lim b ->
  (forall bp b', freeing b' V sb {[n]} L r -> bl_holds b' bp n -> bl_ext ∅ b b' -> wp (k bp (V n)) Q b') ->
  wp (bp <- bl_bread ROOTDEV n ;; d <- bl_data bp ;; k bp d) Q b.
Proof.
  intros (V' & B & F & R & Hnd & HB) Hn HQ. pose proof F as [Sh Fu Fs]. pose proof (data_start_pos _ _ _ Sh) as Hds.
  eapply wp_open; [exact R|lia|set_solver|rewrite size_empty; lia|]. intros bp b' R' O' E'. rewrite union_empty_r_L in R'.
  rewrite Fs; [|intros c Hc; pose proof (BBLOCK_data _ _ _ c Sh Hc); lia]. apply HQ; [|done|done].
  exists V', B. rewrite (bl_ext_lim _ _ _ E'). split; [done|]. split; [done|]. split; [done|]. intros m Hm.
  destruct (HB m Hm) as [H1 H2]. split; [by apply E'|done].
Qed.

Lemma wp_close_freeing b V sb L r bp n (Q : unit -> S -> Prop) :
  freeing b V sb {[n]} L r -> bl_holds b bp n ->
  (forall b', freeing b' V sb ∅ L r -> bl_ext ∅ b b' -> Q tt b') -> wp (bl_brelse bp) Q b.
Proof.
  intros (V' & B & F & R & Hnd & HB) O HQ. rewrite <- (union_empty_r_L {[n]}) in R.
  eapply wp_close; [exact R|exact O|set_solver|]. intros b' R' E'. apply HQ; [|done].
  exists V', B. rewrite (bl_ext_lim _ _ _ E'). split; [done|]. split; [done|]. split; [done|]. intros m Hm.
  destruct (HB m Hm) as [H1 H2]. split; [by apply E'|done].
Qed.

(** The two loops. *)
Definition cleared (k : nat) (x : inode) : inode := iw_addrs (replicate k 0 ++ drop k (i_addrs x)) x.

Lemma cleared_lookup k x a : i_addrs x !! k = Some a -> i_addrs (cleared k x) !! k = Some a.
Proof. intros Ha. cbn. rewrite lookup_app_r, length_replicate, lookup_drop by (rewrite length_replicate; lia). by rewrite Nat.sub_diag, Nat.add_0_r. Qed.

Lemma cleared_S k x a : i_addrs x !! k = Some a -> iw_addrs (<[k := 0]> (i_addrs (cleared k x))) (cleared k x) = cleared (Datatypes.S k) x.
Proof.
  intros Ha. unfold cleared, iw_addrs. cbn [i_addrs i_dev i_inum i_ref i_flags i_type i_major i_minor i_nlink i_size]. f_equal.
  rewrite insert_app_r_alt, length_replicate, Nat.sub_diag by (rewrite length_replicate; lia).
  rewrite (drop_S _ _ _ Ha). cbn [insert list_insert]. rewrite replicate_S_end, <- app_assoc. done.
Qed.

Lemma cleared_zero k x : i_addrs x !! k = Some 0 -> cleared (Datatypes.S k) x = cleared k x.
Proof. intros Ha. unfold cleared. f_equal. rewrite (drop_S _ _ _ Ha), replicate_S_end, <- app_assoc. done. Qed.

Lemma wp_free_direct i x s V sb r (Q : unit -> ist S -> Prop) :
  freeing (blk s) V sb ∅ ∅ r -> icache s !! i = Some x -> file_ok V sb (bl_lim (blk s)) x ->
  (forall b', freeing b' V sb ∅ (direct x 12) r -> bl_ext ∅ (blk s) b' ->
     Q tt (mkist (<[i := cleared 12 x]> (icache s)) b')) ->
  wp (forM (seq 0 (Z.to_nat NDIRECT)) (fun k =>
    x <- geti i ;;
    a <- lift_opt (i_addrs x !! k) ;;
    when (negb (a =? 0)) do
      (in_blk (bfree (i_dev x) a) ;;
       seti i (fun x => iw_addrs (<[k := 0]> (i_addrs x)) x)))) Q s.
Proof.
  intros Fr Hi F HQ. pose proof (lookup_lt_Some _ _ _ Hi) as Hlt.
  eapply wp_mono; [apply (wp_forM _ _ (fun k s' => exists b', freeing b' V sb ∅ (direct x k) r /\ bl_ext ∅ (blk s) b' /\
    s' = mkist (<[i := cleared k x]> (icache s)) b'))|].
  - exists (blk s). split; [|split; [apply bl_ext_refl|]].
    + by rewrite direct_0.
    + unfold cleared. rewrite drop_0. cbn [replicate app]. rewrite <- iw_addrs_same, list_insert_id by done. by destruct s.
  - intros k k' s' Hk (b' & Fr' & E' & ->). apply lookup_seq in Hk as [-> Hk]. cbn [Nat.add].
    change (Z.to_nat NDIRECT) with 12%nat in Hk.
    destruct (lookup_lt_is_Some_2 (i_addrs x) k) as [a Ha]; [rewrite (fo_len _ _ _ _ F); lia|]. wp_steps.
    eapply wp_geti; [by apply list_lookup_insert_eq|]. wp_steps. eapply wp_lift_opt; [by apply cleared_lookup|].
    rewrite (direct_S _ _ _ Ha). destruct (Z.eqb_spec a 0) as [->|Hz]; cbn [negb].
    { wp_steps. exists b'. by rewrite cleared_zero. }
    assert (slot V x k = a) as Es by (rewrite slot_direct by lia; by rewrite Ha).
    destruct (fo_slot _ _ _ _ F k) as (A1 & A2 & A3); [unfold nslots; lia|by rewrite Es|]. rewrite Es in *.
    wp_steps. apply wp_in_blk. cbn [blk icache cleared iw_addrs i_dev]. rewrite (fo_dev _ _ _ _ F).
    eapply wp_bfree_more; [exact Fr'|rewrite size_empty; lia|set_solver|lia|done| |].
    + intros Hin. apply elem_direct in Hin as [_ (p & Hp & Hpa)].
      assert (p = k); [|lia]. apply (fo_inj _ _ _ _ F); [unfold nslots; lia..| |by rewrite slot_direct, Hpa by lia].
      rewrite Es, slot_direct, Hpa by lia. done.
    + intros b2 Fr2 E2. eapply wp_seti; [by apply list_lookup_insert_eq|]. exists b2. split; [done|].
      split; [by eapply bl_ext_trans|]. cbn [icache blk]. by rewrite list_insert_insert_eq, (cleared_S _ _ _ Ha).
  - intros [] s' (b' & Fr' & E' & ->). rewrite length_seq in *. by apply HQ.
Qed.

Lemma wp_free_listed b V sb r x L (Q : unit -> S -> Prop) :
  freeing b V sb {[ind x]} L r -> L = direct x 12 -> file_ok V sb (bl_lim b) x -> ind x <> 0 ->
  (forall b', freeing b' V sb {[ind x]} (listed (V (ind x)) 128 ∪ L) r -> bl_ext {[ind x]} b b' -> Q tt b') ->
  wp (forM (seq 0 (Z.to_nat NINDIRECT)) (fun j =>
       let c := get32 (V (ind x)) (4 * j) in when (negb (c =? 0)) do bfree ROOTDEV c)) Q b.
Proof.
  intros Fr -> F Hz HQ.
  assert (slot V x ind_slot = ind x) as Ei by done.
  assert (forall j, (j < 128)%nat -> slot V x (13 + j) = get32 (V (ind x)) (4 * j)) as Hent.
  { intros j Hj. by rewrite slot_entry, (proj2 (Z.eqb_neq _ _) Hz). }
  assert (forall c p, (p < nslots)%nat -> slot V x p = c -> c <> 0 -> (12 <= p)%nat -> c ∉ direct x 12) as Hnd.
  { intros c p Hp E Hc Hp12 Hin. apply elem_direct in Hin as [_ (q & Hq & Hqa)].
    assert (q = p); [|lia]. apply (fo_inj _ _ _ _ F); [unfold nslots; lia|done|by rewrite slot_direct, Hqa, E by lia|by rewrite slot_direct, Hqa by lia]. }
  assert (forall c j p, (j <= 128)%nat -> (p < nslots)%nat -> slot V x p = c -> c <> 0 -> (p = 12 \/ 13 + j <= p)%nat -> c ∉ listed (V (ind x)) j) as Hnl.
  { intros c j p Hj Hp E Hc Hp12 Hin. apply elem_listed in Hin as [_ (q & Hq & Hqa)]. rewrite <- Hent in Hqa by lia.
    assert (13 + q = p)%nat; [|lia]. apply (fo_inj _ _ _ _ F); [unfold nslots; lia|done|congruence|congruence]. }
  destruct (fo_slot _ _ _ _ F ind_slot) as (I1 & I2 & I3); [unfold ind_slot, nslots; lia|done|]. rewrite Ei in *.
  eapply wp_mono; [apply (wp_forM _ _ (fun k b' => freeing b' V sb {[ind x]} (listed (V (ind x)) k ∪ direct x 12) r /\ bl_ext {[ind x]} b b'))|].
  - split; [|apply bl_ext_refl]. by rewrite listed_0, union_empty_l_L.
  - intros j j' b1 Hj (Fr1 & E1). apply lookup_seq in Hj as [-> Hj]. cbn [Nat.add]. change (Z.to_nat NINDIRECT) with 128%nat in Hj.
    cbv zeta. rewrite listed_S, <- Hent by done. destruct (Z.eqb_spec (slot V x (13 + j)) 0) as [E|E]; cbn [negb]; [by wp_steps|].
    destruct (fo_slot _ _ _ _ F (13 + j)) as (A1 & A2 & A3); [unfold nslots; lia|done|].
    eapply wp_bfree_more; [exact Fr1|by rewrite size_singleton| |lia|done| |].
    + intros m Hm. apply elem_of_singleton in Hm as ->. split_and!; [lia|lia|done|]. apply not_elem_of_union.
      split; [eapply (Hnl _ _ ind_slot)|eapply (Hnd _ ind_slot)]; try done; unfold ind_slot, nslots; lia.
    + apply not_elem_of_union. split; [eapply (Hnl _ _ (13 + j)%nat)|eapply (Hnd _ (13 + j)%nat)]; try done; unfold nslots; lia.
    + intros b2 Fr2 E2. split; [by rewrite <- union_assoc_L|]. by eapply bl_ext_trans.
  - intros [] b' (Fr' & E'). rewrite length_seq in *. by apply HQ.
Qed.

(** The part of itrunc for the indirect block. *)
Lemma wp_free_indirect b V sb r x (Q : unit -> S -> Prop) :
  freeing b V sb ∅ (direct x 12) r -> file_ok V sb (bl_lim b) x -> ind x <> 0 ->
  (forall b', freeing b' V sb ∅ (blocks V x) r -> bl_ext ∅ b b' -> Q tt b') ->
  wp (bp <- bl_bread ROOTDEV (ind x) ;;
      d <- bl_data bp ;;
      forM (seq 0 (Z.to_nat NINDIRECT)) (fun j =>
        let c := get32 d (4 * j) in when (negb (c =? 0)) do bfree ROOTDEV c) ;;
      bl_brelse bp ;;
      bfree ROOTDEV (ind x)) Q b.
Proof.
  intros Fr F Hz HQ.
  destruct (fo_slot _ _ _ _ F ind_slot) as (I1 & I2 & I3); [unfold ind_slot, nslots; lia|done|]. rewrite slot_ind in *.
  eapply wp_open_freeing; [exact Fr|lia|]. intros bp b1 Fr1 O1 E1. wp_steps.
  assert (file_ok V sb (bl_lim b1) x) as F1 by (by rewrite (bl_ext_lim _ _ _ E1)).
  eapply wp_free_listed; [exact Fr1|done|done|done|]. intros b2 Fr2 E2. wp_steps.
  eapply wp_close_freeing; [exact Fr2|apply E2; [set_solver|done]|]. intros b3 Fr3 E3.
  eapply wp_bfree_more; [exact Fr3|rewrite size_empty; lia|set_solver|lia|done| |].
  - apply not_elem_of_union. split; intros Hin.
    + apply elem_listed in Hin as [_ (j & Hj & Hjc)].
      assert (slot V x (13 + j) = ind x) as E by (by rewrite slot_entry, (proj2 (Z.eqb_neq _ _) Hz)).
      assert (13 + j = ind_slot)%nat; [|unfold ind_slot in *; lia].
      apply (fo_inj _ _ _ _ F); [unfold nslots, ind_slot; lia..|by rewrite slot_ind|by rewrite E].
    + apply elem_direct in Hin as [_ (q & Hq & Hqa)]. assert (q = ind_slot); [|unfold ind_slot in *; lia].
      apply (fo_inj _ _ _ _ F); [unfold nslots, ind_slot; lia..| |]; by rewrite slot_direct, Hqa by lia.
  - intros b4 Fr4 E4. apply HQ.
    + rewrite (blocks_parts _ _ (fo_len _ _ _ _ F)), (proj2 (Z.eqb_neq _ _) Hz). done.
    + eapply bl_ext_trans; [exact E1|eapply bl_ext_trans; [|eapply bl_ext_trans; [exact E3|exact E4|done]|done]|done].
      eapply bl_ext_trans; [apply bl_ext_refl|exact E2|set_solver].
Qed.

Definition emptied (x : inode) : inode := iw_size 0 (iw_addrs (replicate 13 0) x).

Lemma emptied_fits x : inode_fits x -> inode_fits (emptied x).
Proof. intros [F1 F2 F3 F4 F5 F6]. constructor; try done. cbn [emptied iw_size iw_addrs i_addrs]. split; [done|]. repeat constructor; lia. Qed.

Lemma cleared_end x : length (i_addrs x) = 13%nat ->
  drop 12 (i_addrs x) = [ind x] /\ iw_addrs (<[12%nat := 0]> (i_addrs (cleared 12 x))) (cleared 12 x) = iw_addrs (replicate 13 0) x.
Proof.
  intros Hl. destruct (lookup_lt_is_Some_2 (i_addrs x) 12) as [a Ha]; [lia|].
  assert (drop 12 (i_addrs x) = [ind x]) as E.
  { rewrite (drop_S _ _ _ Ha), drop_ge by lia. unfold ind, ind_slot. by rewrite Ha. }
  split; [done|]. rewrite (cleared_S _ _ _ Ha). unfold cleared. rewrite drop_ge by lia. by rewrite app_nil_r.
Qed.

Lemma wp_itrunc i x s V r sb (Q : unit -> ist S -> Prop) :
  bl_rep (blk s) V ∅ ∅ (1 + nbitmap sb + r) -> fs_shape V sb (bl_lim (blk s)) -> icache s !! i = Some x ->
  file_ok V sb (bl_lim (blk s)) x -> 0 <= i_inum x < sb_ninodes sb -> inode_fits x ->
  (forall b' V', freed V sb (bl_lim (blk s)) (blocks V x) V' ->
     bl_rep b' (<[IBLOCK (i_inum x) := store_dinode (V' (IBLOCK (i_inum x))) (dip_off (i_inum x)) (emptied x)]> V') ∅ ∅ r ->
     bl_ext ∅ (blk s) b' -> bl_logged b' (IBLOCK (i_inum x)) -> Q tt (mkist (<[i := emptied x]> (icache s)) b')) ->
  wp (itrunc i) Q s.
Proof.
  intros R Sh Hi F Hin Hfit HQ. pose proof (lookup_lt_Some _ _ _ Hi) as Hlt. pose proof (fo_len _ _ _ _ F) as Hlen.
  destruct (cleared_end x Hlen) as [Hend Hclr].
  (* the end of itrunc, from a state where the blocks are free *)
  assert (forall b' xc, freeing b' V sb ∅ (blocks V x) r -> bl_ext ∅ (blk s) b' -> iw_size 0 xc = emptied x ->
    wp (seti i (iw_size 0) ;; iupdate i) Q (mkist (<[i := xc]> (icache s)) b')) as Hfin.
  { intros b' xc Fr E Exc. wp_steps. eapply wp_seti; [by apply list_lookup_insert_eq|]. cbn [icache blk]. rewrite list_insert_insert_eq, Exc.
    destruct (freeing_end _ _ _ _ _ Fr) as (V' & Fd & R').
    eapply (wp_iupdate_log i (emptied x) _ V' r r); cbn [blk icache]; [exact R'|apply Fd|by apply list_lookup_insert_eq|by apply F|done|by apply emptied_fits|by left|].
    intros b2 R2 E2 L2. rewrite (bl_ext_lim _ _ _ E) in Fd. apply (HQ b2 V'); [done|exact R2|by eapply bl_ext_trans|exact L2]. }
  unfold itrunc. apply wp_bind. eapply wp_free_direct; [by apply freeing_start|exact Hi|done|]. intros b1 Fr1 E1. wp_steps.
  eapply wp_geti; [by apply list_lookup_insert_eq|]. wp_steps. change (Z.to_nat NDIRECT) with 12%nat.
  eapply wp_lift_opt; [cbn [cleared iw_addrs i_addrs]; rewrite Hend; reflexivity|]. apply wp_bind.
  destruct (Z.eqb_spec (ind x) 0) as [Ez|Ez]; cbn [negb].
  - refine (Hfin b1 (cleared 12 x) _ _ _); [by rewrite (blocks_parts _ _ Hlen), Ez|done|]. unfold emptied, cleared. by rewrite Hend, Ez.
  - apply wp_bind. apply wp_in_blk. cbn [blk icache cleared iw_addrs i_dev]. rewrite (fo_dev _ _ _ _ F).
    eapply wp_free_indirect; [exact Fr1|by rewrite (bl_ext_lim _ _ _ E1)|done|]. intros b2 Fr2 E2.
    eapply wp_seti; [by apply list_lookup_insert_eq|]. cbn [blk icache]. rewrite list_insert_insert_eq.
    apply Hfin; [done|by eapply bl_ext_trans|]. fold (cleared 12 x). by rewrite Hclr.
Qed.

(** iput of the last reference to a file without links. *)
Definition gone (x : inode) : inode := iw_type 0 (emptied x).

Lemma wp_iput_free i x s V r sb (Q : unit -> ist S -> Prop) :
  let n := IBLOCK (i_inum x) in let o := dip_off (i_inum x) in
  bl_rep (blk s) V ∅ ∅ (2 + nbitmap sb + r) -> fs_shape V sb (bl_lim (blk s)) -> data_start sb <= sb_size sb ->
  held (ctx s) = [] -> icache s !! i = Some x ->
  i_ref x = 1 -> i_flags x = I_VALID -> i_nlink x = 0 ->
  file_ok V sb (bl_lim (blk s)) x -> 0 <= i_inum x < sb_ninodes sb -> inode_fits x ->
  (forall b' V1, freed V sb (bl_lim (blk s)) (blocks V x) V1 ->
     bl_rep b' (<[n := store_dinode (store_dinode (V1 n) o (emptied x)) o (gone x)]>
       (<[n := store_dinode (V1 n) o (emptied x)]> V1)) ∅ ∅ (1 + r) ->
     bl_ext ∅ (blk s) b' -> Q tt (mkist (<[i := iw_ref 0 (iw_flags 0 (gone x))]> (icache s)) b')) ->
  wp (iput i) Q s.
Proof.
  intros n o R Sh Hds Hh Hi Href Hfl Hnl F Hin Hfit HQ. pose proof (lookup_lt_Some _ _ _ Hi) as Hlt.
  change (held (ctx s)) with (held (ctx (blk s))) in Hh.
  unfold iput. wp_steps. apply wp_acquire; [change (LkIcache ∉ held (ctx (blk s))); rewrite Hh; apply not_elem_of_nil|]. wp_steps. eapply wp_geti; [exact Hi|].
  rewrite Href, Hfl, Hnl. change ((1 =? 1) && Buf.has I_VALID I_VALID && (0 =? 0)) with true. change (Buf.has I_VALID I_BUSY) with false.
  cbn match. apply wp_bind. wp_steps. eapply wp_seti; [exact Hi|]. wp_steps. eapply wp_release; [cbn; by rewrite ctx_with|]. wp_steps.
  cbn. rewrite !ctx_with. cbn [woken killed]. rewrite ctx_back. rewrite Hfl. change (Z.lor I_VALID I_BUSY) with 3. set (y := iw_flags 3 x).
  change (wp (itrunc i) (fun _ s' => wp (seti i (iw_type 0) ;; iupdate i ;; acquire LkIcache ;; seti i (iw_flags 0) ;; wakeup (ChInode (Z.of_nat i)))
    (fun _ s'0 => wp (seti i (fun x => iw_ref (i_ref x - 1) x) ;; release LkIcache) Q s'0) s') (mkist (<[i := y]> (icache s)) (blk s))).
  eapply (wp_itrunc i y _ V (1 + r) sb); cbn [blk icache]; [eapply bl_room; [exact R|lia]|exact Sh|by apply list_lookup_insert_eq| |exact Hin| |].
  { destruct F; by constructor. }
  { destruct Hfit; by constructor. }
  intros b1 V1 Fd R1 E1 L1. cbn [icache]. rewrite list_insert_insert_eq. change (IBLOCK (i_inum y)) with n in *. change (dip_off (i_inum y)) with o in *.
  destruct (IBLOCK_inode _ _ _ _ Sh Hin) as [Hn1 Hn2].
  assert (fs_shape (<[n := store_dinode (V1 n) o (emptied y)]> V1) sb (bl_lim b1)) as Sh1.
  { rewrite (bl_ext_lim _ _ _ E1). apply meta_shape; [apply Fd|done|done]. }
  wp_steps. eapply wp_seti; [by apply list_lookup_insert_eq|]. cbn [icache blk]. rewrite list_insert_insert_eq. wp_steps.
  eapply (wp_iupdate_log i (gone y) _ _ r (1 + r) sb); cbn [blk icache]; [exact R1|exact Sh1|by apply list_lookup_insert_eq|by apply F|done| |right; done|].
  { destruct (emptied_fits x Hfit). by constructor. }
  intros b2 R2 E2 _. pose proof (bl_ext_trans _ _ _ _ _ E1 E2 ltac:(done)) as E3. pose proof (proj1 E3) as Eh. rewrite Hh in Eh.
  change (IBLOCK (i_inum (gone y))) with n in R2. change (dip_off (i_inum (gone y))) with o in R2.
  rewrite fn_lookup_insert in R2. wp_steps.
  apply wp_acquire; [change (LkIcache ∉ held (ctx b2)); rewrite Eh; apply not_elem_of_nil|]. wp_steps.
  eapply wp_seti; [by apply list_lookup_insert_eq|].
  apply wp_wakeup; [cbn; rewrite ctx_with; cbn; rewrite Eh; set_solver|]. wp_steps.
  eapply wp_seti; [apply list_lookup_insert_eq; cbn; rewrite ?length_insert; done|].
  eapply wp_release; [cbn; by rewrite !ctx_with|]. cbn. rewrite !ctx_with. cbn [held woken killed]. rewrite !with_with, !list_insert_insert_eq.
  destruct (bl_woken b2 _ ∅ ∅ (1 + r) (ChInode (Z.of_nat i) :: woken (ctx b2)) R2) as [R' E']. rewrite Href.
  refine (HQ _ V1 Fd R' _). by eapply bl_ext_trans.
Qed.
End Trunc.

(** ** What the removal does to the file system *)

Record removed (V : Z -> list Z) (sb : superblock) (lim : Z) (x : inode) (V' : Z -> list Z) : Prop := {
  rm_shape : fs_shape V' sb lim;
  rm_used : forall b, 0 <= b < sb_size sb -> used V' sb b = negb (bool_decide (b ∈ blocks V x)) && used V sb b;
  rm_dinode : load_dinode (V' (IBLOCK (i_inum x))) (dip_off (i_inum x)) x = gone x;
  rm_others : forall m y, 0 <= m < sb_ninodes sb -> m <> i_inum x ->
    load_dinode (V' (IBLOCK m)) (dip_off m) y = load_dinode (V (IBLOCK m)) (dip_off m) y;
  rm_files : forall y, file_ok V sb lim y -> blocks V y ## blocks V x ->
    file_ok V' sb lim y /\ content V' y = content V y }.

Lemma freed_file V sb lim L V' y :
  freed V sb lim L V' -> file_ok V sb lim y -> blocks V y ## L -> file_ok V' sb lim y /\ flat V' y = flat V y.
Proof.
  intros [Sh Fu Fs] F Hdj. pose proof F as [F1 F2 F3 F4 F5]. pose proof (data_start_pos _ _ _ Sh) as Hds.
  assert (forall n, data_start sb <= n -> V' n = V n) as Hsame.
  { intros n Hn. apply Fs. intros b Hb. pose proof (BBLOCK_data _ _ _ b Sh Hb). lia. }
  assert (forall p, slot V' y p = slot V y p) as Hslot.
  { intros p. unfold slot. destruct (p <? 13)%nat; [done|]. destruct (ind y =? 0) eqn:E; [done|]. zbool.
    destruct (F4 ind_slot) as (A1 & _); [unfold ind_slot, nslots; lia|done|]. rewrite slot_ind in A1. by rewrite Hsame by lia. }
  split.
  - constructor; try done.
    + intros p Hp. rewrite Hslot. intros Hz. destruct (F4 p Hp Hz) as (A1 & A2 & A3). split_and!; try lia.
      assert (slot V y p ∉ L) as Hnl by (intros Hin; apply (Hdj (slot V y p)); [apply elem_blocks; eauto|done]).
      rewrite Fu, A3, bool_decide_eq_false_2 by (done || lia). done.
    + intros p q Hp Hq. rewrite !Hslot. by apply F5.
  - unfold flat. f_equal. apply list_fmap_ext. intros k bn Hk. apply lookup_seq in Hk as [-> Hk]. cbn [Nat.add].
    unfold block_of. rewrite Hslot. destruct (slot V y (slot_of k) =? 0) eqn:E; [done|]. zbool.
    destruct (slot_of_lt k Hk) as [Hs _]. destruct (F4 _ Hs E) as (A1 & _). apply Hsame; lia.
Qed.

Lemma same_dip_off m m' : m <> m' -> 0 <= m -> 0 <= m' -> IBLOCK m = IBLOCK m' ->
  (dip_off m + 64 <= dip_off m' \/ dip_off m' + 64 <= dip_off m)%nat.
Proof.
  unfold IBLOCK, dip_off, sizeof_dinode, IPB. intros Hne H0 H0' E.
  pose proof (Z.div_mod m 8). pose proof (Z.div_mod m' 8). pose proof (Z.mod_pos_bound m 8). pose proof (Z.mod_pos_bound m' 8). lia.
Qed.

Lemma freed_removed V sb lim x V1 :
  let n := IBLOCK (i_inum x) in let o := dip_off (i_inum x) in
  let V2 := <[n := store_dinode (V1 n) o (emptied x)]> V1 in
  fs_shape V sb lim -> data_start sb <= sb_size sb -> 0 <= i_inum x < sb_ninodes sb -> inode_fits x ->
  length (V1 n) = BSIZE -> freed V sb lim (blocks V x) V1 ->
  removed V sb lim x (<[n := store_dinode (store_dinode (V1 n) o (emptied x)) o (gone x)]> V2).
Proof.
  intros n o V2 Sh Hds Hin Hfit Hlen Fd. pose proof Fd as [Sh1 Fu Fs].
  assert (inode_block sb n) as Hn by (by eapply IBLOCK_inode). pose proof (dip_off_fits (i_inum x)) as Ho.
  assert (V1 n = V n) as EVn by (apply Fs, Hn).
  assert (inode_fits (gone x)) as Hg by (destruct (emptied_fits x Hfit); by constructor).
  assert (length (store_dinode (V1 n) o (emptied x)) = BSIZE) as Hl2.
  { rewrite length_store; [done|rewrite Hlen; exact Ho|by apply emptied_fits]. }
  assert (fs_shape V2 sb lim) as Sh2 by (by apply meta_shape).
  constructor.
  - by apply meta_shape.
  - intros b Hb. rewrite meta_used by done. unfold V2. rewrite meta_used by done. by apply Fu.
  - rewrite fn_lookup_insert. rewrite load_store; [done|rewrite Hl2; exact Ho|done].
  - intros m y Hm Hne. destruct (decide (IBLOCK m = n)) as [E|E].
    + pose proof (same_dip_off _ _ Hne ltac:(lia) ltac:(lia) E) as Hoff.
      rewrite E, fn_lookup_insert, load_outside; [|rewrite Hl2; exact Ho|done|unfold o; lia].
      rewrite load_outside; [by rewrite EVn|rewrite Hlen; exact Ho|by apply emptied_fits|unfold o; lia].
    + unfold V2. rewrite !fn_lookup_insert_ne by done. rewrite Fs; [done|]. by apply (IBLOCK_inode _ _ _ _ Sh Hm).
  - intros y F Hdj. destruct (freed_file _ _ _ _ _ _ Fd F Hdj) as [F1 Ef].
    assert (file_ok V2 sb lim y) as F2 by (by apply meta_file).
    split; [by apply meta_file|]. unfold content. f_equal. rewrite (meta_flat V2 sb lim n) by done. unfold V2. by rewrite (meta_flat V1 sb lim n).
Qed.

Section Remove.
Context {S : Type} `{HasCtx S} `{!BlockLayer S} `{!BlockLaws S}.

(** C15: The last reference to a file that no directory names is dropped: iput returns, every
    block of the file, direct, listed in the indirect block or the indirect block itself, is
    free in the bitmap, the bit of every other block is as it was, and the dinode is free.
    Every other dinode and the contents of every other file are unchanged.  However many
    blocks the file has, the log gains at most one block for each block of the bitmap and
    one for the dinode. *)
Theorem iput_frees_file i x (s : ist S) V r sb :
  bl_rep (blk s) V ∅ ∅ (2 + nbitmap sb + r) -> fs_shape V sb (bl_lim (blk s)) -> data_start sb <= sb_size sb ->
  held (ctx s) = [] -> icache s !! i = Some x -> i_ref x = 1 -> i_flags x = I_VALID -> i_nlink x = 0 ->
  file_ok V sb (bl_lim (blk s)) x -> 0 <= i_inum x < sb_ninodes sb -> inode_fits x ->
  exists b' V', iput i s = Ret tt (mkist (<[i := iw_ref 0 (iw_flags 0 (gone x))]> (icache s)) b') /\
    bl_rep b' V' ∅ ∅ (1 + r) /\ held (ctx b') = [] /\ removed V sb (bl_lim (blk s)) x V'.
Proof.
  intros R Sh Hds Hh Hi Href Hfl Hnl F Hin Hfit.
  assert (wp (iput i) (fun _ s' => exists b' V', s' = mkist (<[i := iw_ref 0 (iw_flags 0 (gone x))]> (icache s)) b' /\
    bl_rep b' V' ∅ ∅ (1 + r) /\ held (ctx b') = [] /\ removed V sb (bl_lim (blk s)) x V') s) as Hw.
  { eapply wp_iput_free; try done. intros b' V1 Fd R' E'. eexists b', _. split; [done|]. split; [exact R'|].
    split; [rewrite (proj1 E'); exact Hh|]. apply freed_removed; try done.
    rewrite (fr_same _ _ _ _ _ Fd) by (eapply IBLOCK_inode; done).
    destruct (IBLOCK_inode _ _ _ _ Sh Hin) as [Hn _]. pose proof (sh_lim _ _ _ Sh). eapply bl_len; [exact R|lia]. }
  apply wp_run in Hw as ([] & s' & E & b' & V' & -> & H1). eauto.
Qed.
End Remove.

(** The file of the demonstration disk after its last link was removed. *)
Definition unlinked_ino : inode := iw_nlink 0 demo_ino.

Lemma iput_frees_file_witness : exists (s : ist logst) b' V', icache s = [unlinked_ino] /\
  iput 0 s = Ret tt (mkist [iw_ref 0 (iw_flags 0 (gone unlinked_ino))] b') /\
  bl_rep b' V' ∅ ∅ 25 /\ used V' demo_sb 6 = false /\ used V' demo_sb 5 = true.
Proof.
  destruct (demo_transaction demo_inodes demo_data) as (b & V & R & Hlim & Hh & Sh & HV); [reflexivity..|].
  destruct (demo_block_ok V _ _ unlinked_ino HV Sh) as (F1 & _); [done|done|cbn; lia|done|].
  destruct (iput_frees_file 0 unlinked_ino (mkist [unlinked_ino] b) V 24 demo_sb) as (b' & V' & E & R' & _ & Rm);
    cbn [blk]; rewrite ?Hlim; try done; [destruct demo_fits; by constructor|].
  assert (blocks V unlinked_ino = {[6]}) as Eb by (rewrite blocks_parts by done; vm_compute; reflexivity).
  exists (mkist [unlinked_ino] b), b', V'. split; [done|]. split; [exact E|]. split; [exact R'|].
  pose proof (rm_used _ _ _ _ _ Rm) as Hu. rewrite Eb in Hu.
  split; [rewrite Hu by (cbn; lia); done|]. rewrite Hu by (cbn; lia). rewrite (sh_meta _ _ _ Sh 5); [done|].
  change (data_start demo_sb) with 6. lia.
Defined.
