(* ===== verification/Vm.v ===== *)
(** * vm.c: page tables

    The state is the memory and the allocator of kalloc.c: page directories and page
    tables are pages of that memory, and their entries 32-bit words in it.  [vm_ok] says
    that a directory and its tables are owned pages that form a page table; [ptes] is
    the mapping they represent.  The message of allocuvm on the console is not part of
    the state.  The linker's [end] and [data] are parameters. *)

From stdpp Require Import base list numbers strings gmap sets.
From S2P Require Import Prelude CString Spinlock Kalloc.
Import Ctx Mem.

Open Scope Z_scope.
Local Open Scope kernel_scope.

Definition NPDENTRIES : Z := 1024.
Definition NPTENTRIES : Z := 1024.
Definition EXTMEM : Z := 1048576.
Definition DEVSPACE : Z := 4261412864.
Definition KERNLINK : Z := KERNBASE + EXTMEM.
Definition PTE_P : Z := 1.
Definition PTE_W : Z := 2.
Definition PTE_U : Z := 4.

Definition PDX (va : Z) : Z := Z.land (Z.shiftr va 22) 1023.
Definition PTX (va : Z) : Z := Z.land (Z.shiftr va 12) 1023.
Definition PTE_ADDR (pte : Z) : Z := Z.ldiff pte 4095.
Definition PTE_FLAGS (pte : Z) : Z := Z.land pte 4095.

(** Dereferencing a pointer to a page table entry. *)
Definition load_pte (a : Z) : M kst Z :=
  if a =? 0 then fault else gets (fun s => load32 (kmemory s) a).
Definition store_pte (a v : Z) : M kst unit :=
  if a =? 0 then fault else set_mem (fun m => store32 m a v).

Section Vm.
Variable end_ data : Z.

Definition walkpgdir (pgdir va : Z) (alloc : bool) : M kst Z :=
  let pde := u32 (pgdir + 4 * PDX va) in
  d <- load_pte pde ;;
  if negb (Z.land d PTE_P =? 0) then
    ret (u32 (p2v (PTE_ADDR d) + 4 * PTX va))
  else if negb alloc then ret 0 else
  pgtab <- kalloc ;;
  if pgtab =? 0 then ret 0 else
  set_mem (fun m => snd (memset m pgtab 0 PGSIZE)) ;;
  store_pte pde (Z.lor (Z.lor (Z.lor (v2p pgtab) PTE_P) PTE_W) PTE_U) ;;
  ret (u32 (pgtab + 4 * PTX va)).

Fixpoint mappages_loop (fuel : nat) (pgdir a last pa perm : Z) : M kst Z :=
  match fuel with
  | O => out_of_fuel
  | S fuel =>
      pte <- walkpgdir pgdir a true ;;
      if pte =? 0 then ret (-1) else
      e <- load_pte pte ;;
      if negb (Z.land e PTE_P =? 0) then panic "remap" else
      store_pte pte (Z.lor (Z.lor pa perm) PTE_P) ;;
      if a =? last then ret 0 else
      mappages_loop fuel pgdir (u32 (a + PGSIZE)) last (u32 (pa + PGSIZE)) perm
  end.

(** The loop visits the pages from [a] to [last], modulo 2^32. *)
Definition mappages (pgdir va size pa perm : Z) : M kst Z :=
  let a := PGROUNDDOWN va in
  let last := PGROUNDDOWN (u32 (va + size - 1)) in
  mappages_loop (S (Z.to_nat (u32 (last - a) / PGSIZE))) pgdir a last pa perm.

(** struct kmap and the table kmap. *)
Record kmap_entry := mkkmap { k_virt : Z; k_phys_start : Z; k_phys_end : Z; k_perm : Z }.
Definition kmap : list kmap_entry :=
  [ mkkmap KERNBASE 0 EXTMEM PTE_W;
    mkkmap KERNLINK (v2p KERNLINK) (v2p data) 0;
    mkkmap data (v2p data) PHYSTOP PTE_W;
    mkkmap DEVSPACE DEVSPACE 0 PTE_W ].

Fixpoint setupkvm_loop (l : list kmap_entry) (pgdir : Z) : M kst Z :=
  match l with
  | [] => ret pgdir
  | k :: l =>
      r <- mappages pgdir (k_virt k) (u32 (k_phys_end k - k_phys_start k)) (k_phys_start k) (k_perm k) ;;
      if r <? 0 then ret 0 else setupkvm_loop l pgdir
  end.

Definition setupkvm : M kst Z :=
  pgdir <- kalloc ;;
  if pgdir =? 0 then ret 0 else
  set_mem (fun m => snd (memset m pgdir 0 PGSIZE)) ;;
  if DEVSPACE <? p2v PHYSTOP then panic "PHYSTOP too high" else
  setupkvm_loop kmap pgdir.

(** memmove from memory the model does not hold: [init] is the bytes of initcode. *)
Definition copy_in (a : Z) (l : list Z) : M kst unit :=
  set_mem (fun m x => if within x a (Z.of_nat (length l)) then default 0 (l !! Z.to_nat (x - a)) else m x).

Definition inituvm (pgdir : Z) (init : list Z) (sz : Z) : M kst unit :=
  if PGSIZE <=? sz then panic "inituvm: more than a page" else
  mem <- kalloc ;;
  (if mem =? 0 then fault else
   set_mem (fun m => snd (memset m mem 0 PGSIZE))) ;;
  mappages pgdir 0 PGSIZE (v2p mem) (Z.lor PTE_W PTE_U) ;;
  copy_in mem (take (Z.to_nat sz) init).

Fixpoint deallocuvm_loop (fuel : nat) (pgdir a oldsz : Z) : M kst unit :=
  match fuel with
  | O => out_of_fuel
  | S fuel =>
      if a <? oldsz then
        pte <- walkpgdir pgdir a false ;;
        if pte =? 0 then
          deallocuvm_loop fuel pgdir (u32 (u32 (a + (NPTENTRIES - 1) * PGSIZE) + PGSIZE)) oldsz
        else
          e <- load_pte pte ;;
          (when (negb (Z.land e PTE_P =? 0)) do
            (let pa := PTE_ADDR e in
             if pa =? 0 then panic "kfree" else
             kfree end_ (p2v pa) ;;
             store_pte pte 0)) ;;
          deallocuvm_loop fuel pgdir (u32 (a + PGSIZE)) oldsz
      else ret tt
  end.

Definition deallocuvm (pgdir oldsz newsz : Z) : M kst Z :=
  if oldsz <=? newsz then ret (i32 oldsz) else
  deallocuvm_loop (S (S (Z.to_nat (oldsz / PGSIZE)))) pgdir (PGROUNDUP newsz) oldsz ;;
  ret (i32 newsz).

Fixpoint allocuvm_loop (fuel : nat) (pgdir a oldsz newsz : Z) : M kst Z :=
  match fuel with
  | O => out_of_fuel
  | S fuel =>
      if a <? newsz then
        mem <- kalloc ;;
        if mem =? 0 then
          deallocuvm pgdir newsz oldsz ;;
          ret 0
        else
          set_mem (fun m => snd (memset m mem 0 PGSIZE)) ;;
          mappages pgdir a PGSIZE (v2p mem) (Z.lor PTE_W PTE_U) ;;
          allocuvm_loop fuel pgdir (u32 (a + PGSIZE)) oldsz newsz
      else ret (i32 newsz)
  end.

Definition allocuvm (pgdir oldsz newsz : Z) : M kst Z :=
  if KERNBASE <=? newsz then ret 0 else
  if newsz <? oldsz then ret (i32 oldsz) else
  allocuvm_loop (S (S (Z.to_nat (newsz / PGSIZE)))) pgdir (PGROUNDUP oldsz) oldsz newsz.

Fixpoint freevm_loop (n : nat) (pgdir i : Z) : M kst unit :=
  match n with
  | O => ret tt
  | S n =>
      d <- load_pte (u32 (pgdir + 4 * i)) ;;
      (when (negb (Z.land d PTE_P =? 0)) do kfree end_ (p2v (PTE_ADDR d))) ;;
      freevm_loop n pgdir (i + 1)
  end.

Definition freevm (pgdir : Z) : M kst unit :=
  if pgdir =? 0 then panic "freevm: no pgdir" else
  deallocuvm pgdir KERNBASE 0 ;;
  freevm_loop (Z.to_nat NPDENTRIES) pgdir 0 ;;
  kfree end_ pgdir.

Definition clearpteu (pgdir uva : Z) : M kst unit :=
  pte <- walkpgdir pgdir uva false ;;
  if pte =? 0 then panic "clearpteu" else
  e <- load_pte pte ;;
  store_pte pte (Z.ldiff e PTE_U).

Fixpoint copyuvm_loop (fuel : nat) (pgdir d i sz : Z) : M kst Z :=
  match fuel with
  | O => out_of_fuel
  | S fuel =>
      if i <? sz then
        pte <- walkpgdir pgdir i false ;;
        if pte =? 0 then panic "copyuvm: pte should exist" else
        e <- load_pte pte ;;
        if Z.land e PTE_P =? 0 then panic "copyuvm: page not present" else
        let pa := PTE_ADDR e in
        let flags := PTE_FLAGS e in
        mem <- kalloc ;;
        if mem =? 0 then freevm d ;; ret 0 else
        set_mem (fun m => snd (memmove m mem (p2v pa) PGSIZE)) ;;
        r <- mappages d i PGSIZE (v2p mem) flags ;;
        if r <? 0 then freevm d ;; ret 0 else
        copyuvm_loop fuel pgdir d (u32 (i + PGSIZE)) sz
      else ret d
  end.

Definition copyuvm (pgdir sz : Z) : M kst Z :=
  d <- setupkvm ;;
  if d =? 0 then ret 0 else
  copyuvm_loop (S (S (Z.to_nat (sz / PGSIZE)))) pgdir d 0 sz.

Definition uva2ka (pgdir uva : Z) : M kst Z :=
  pte <- walkpgdir pgdir uva false ;;
  e <- load_pte pte ;;
  if Z.land e PTE_P =? 0 then ret 0 else
  if Z.land e PTE_U =? 0 then ret 0 else
  ret (p2v (PTE_ADDR e)).

(** [buf]: the bytes at p. *)
Fixpoint copyout_loop (fuel : nat) (pgdir va : Z) (buf : list Z) (len : Z) : M kst Z :=
  match fuel with
  | O => out_of_fuel
  | S fuel =>
      if 0 <? len then
        let va0 := PGROUNDDOWN va in
        pa0 <- uva2ka pgdir va0 ;;
        if pa0 =? 0 then ret (-1) else
        let n := PGSIZE - (va - va0) in
        let n := if len <? n then len else n in
        copy_in (u32 (pa0 + (va - va0))) (take (Z.to_nat n) buf) ;;
        copyout_loop fuel pgdir (u32 (va0 + PGSIZE)) (drop (Z.to_nat n) buf) (len - n)
      else ret 0
  end.

Definition copyout (pgdir va : Z) (buf : list Z) (len : Z) : M kst Z :=
  copyout_loop (S (Z.to_nat len)) pgdir va buf len.
End Vm.

(** ** Addresses and entries *)

Lemma PDX_div va : 0 <= va < 2 ^ 32 -> PDX va = va / 4096 / 1024 /\ 0 <= va / 4096 / 1024 < 1024.
Proof.
  intros Hva. unfold PDX. change 1023 with (Z.ones 10). rewrite Z.land_ones, Z.shiftr_div_pow2 by lia.
  rewrite Z.div_div by lia. change (4096 * 1024) with (2 ^ 22). change (2 ^ 10) with 1024.
  assert (0 <= va / 2 ^ 22 < 1024) by (split; [apply Z.div_pos; lia|apply Z.div_lt_upper_bound; lia]).
  rewrite Z.mod_small by lia. done.
Qed.

Lemma PTX_mod va : PTX va = va / 4096 mod 1024.
Proof. unfold PTX. change 1023 with (Z.ones 10). rewrite Z.land_ones, Z.shiftr_div_pow2 by lia. done. Qed.

Lemma lor_page x f : x mod 4096 = 0 -> 0 <= f < 4096 -> Z.lor x f = x + f.
Proof.
  intros Hx Hf. apply Z.mod_divide in Hx as [k ->]; [|lia].
  assert (Z.land (k * 4096) f = 0) as Hl.
  { apply Z.bits_inj'. intros n Hn. rewrite Z.land_spec, Z.bits_0. change 4096 with (2 ^ 12).
    destruct (Z.lt_ge_cases n 12).
    - rewrite Z.mul_pow2_bits_low by lia. done.
    - rewrite andb_comm. destruct (decide (f = 0)) as [->|]; [by rewrite Z.bits_0|].
      rewrite Z.bits_above_log2; [done|lia|]. assert (Z.log2 f < 12) by (apply Z.log2_lt_pow2; lia). lia. }
  rewrite <- Z.lxor_lor by done. symmetry. by apply Z.add_nocarry_lxor.
Qed.

Lemma PTE_ADDR_add x f : x mod 4096 = 0 -> 0 <= f < 4096 -> PTE_ADDR (x + f) = x.
Proof.
  intros Hx Hf. apply Z.mod_divide in Hx as [k ->]; [|lia]. unfold PTE_ADDR. change 4095 with (Z.ones 12).
  rewrite Z.ldiff_ones_r, Z.shiftl_mul_pow2, Z.shiftr_div_pow2 by lia. change (2 ^ 12) with 4096.
  rewrite Z.add_comm, Z.div_add, Z.div_small by lia. done.
Qed.

Lemma PTE_FLAGS_add x f : x mod 4096 = 0 -> 0 <= f < 4096 -> PTE_FLAGS (x + f) = f.
Proof.
  intros Hx Hf. unfold PTE_FLAGS. change 4095 with (Z.ones 12). rewrite Z.land_ones by lia. change (2 ^ 12) with 4096.
  rewrite Z.add_mod, Hx, Z.add_0_l, Z.mod_mod, Z.mod_small by lia. done.
Qed.

Lemma land_P x f : x mod 4096 = 0 -> 0 <= f -> Z.land (x + f) PTE_P = f mod 2.
Proof.
  intros Hx Hf. unfold PTE_P. change 1 with (Z.ones 1). rewrite Z.land_ones by lia. change (2 ^ 1) with 2.
  apply Z.mod_divide in Hx as [k ->]; [|lia]. replace (k * 4096 + f) with (f + (k * 2048) * 2) by lia. apply Z_mod_plus_full.
Qed.

(** The word [k] of a page. *)
Lemma page_word end_ p k :
  page end_ p -> 0 <= k < 1024 -> 0 <= p + 4 * k /\ p + 4 * k + 4 < 2 ^ 32 /\ u32 (p + 4 * k) = p + 4 * k /\ p + 4 * k <> 0 /\
  forall x, p + 4 * k <= x < p + 4 * k + 4 -> in_page p x.
Proof.
  intros Hp Hk. pose proof (page_range _ _ Hp) as Hr. unfold KERNBASE, PHYSTOP, PGSIZE in Hr. split_and!; try lia.
  - apply u32_small. lia.
  - intros x Hx. unfold in_page, PGSIZE. lia.
Qed.

Lemma v2p_page end_ p : page end_ p -> v2p p = p - KERNBASE /\ v2p p mod 4096 = 0 /\ 0 <= v2p p < PHYSTOP /\ p2v (v2p p) = p.
Proof.
  intros Hp. pose proof (page_range _ _ Hp) as Hr. destruct Hp as (Hm & _). unfold KERNBASE, PHYSTOP, PGSIZE in *.
  assert (v2p p = p - KERNBASE) as E by (unfold v2p, KERNBASE; rewrite u32_small; lia). unfold KERNBASE in E. rewrite E.
  split_and!; try lia.
  - apply Z.mod_divide in Hm as [k ->]; [|lia]. replace (k * 4096 - 2147483648) with ((k - 524288) * 4096) by lia. apply Z.mod_mul. lia.
  - unfold p2v, KERNBASE. rewrite u32_small; lia.
Qed.

Lemma load32_same m m' a :
  0 <= a -> a + 4 < 2 ^ 32 -> (forall x, a <= x < a + 4 -> m' x = m x) -> load32 m' a = load32 m a.
Proof. intros H0 H1 H. unfold load32. rewrite !u32_small by lia. by rewrite !H by lia. Qed.

Lemma load32_zero m a : 0 <= a -> a + 4 < 2 ^ 32 -> (forall x, a <= x < a + 4 -> m x = 0) -> load32 m a = 0.
Proof. intros H0 H1 H. unfold load32. rewrite !u32_small by lia. by rewrite !H by lia. Qed.

Lemma store32_out m a w x : 0 <= a -> a + 4 < 2 ^ 32 -> ~ (a <= x < a + 4) -> store32 m a w x = m x.
Proof.
  intros H0 H1 Hx. rewrite store32_spec by lia. unfold within.
  destruct (Z.leb_spec a x), (Z.ltb_spec x (a + 4)); cbn; lia || done.
Qed.

(** ** The mapping of a page directory *)

Section Ok.
Variable end_ : Z.

(** [l] are the free pages, [A] owned pages, [T] the page tables of [pgdir] by index. *)
Record vm_ok (s : kst) (l : list Z) (A : gset Z) (pgdir : Z) (T : gmap Z Z) : Prop := {
  vo_mem : kmem_ok end_ s l;
  vo_own : forall p, p ∈ A -> page end_ p /\ p ∉ l;
  vo_dir : pgdir ∈ A;
  vo_pde : forall d, 0 <= d < 1024 -> match T !! d with
    | Some t => load32 (kmemory s) (pgdir + 4 * d) = v2p t + 7
    | None => Z.land (load32 (kmemory s) (pgdir + 4 * d)) PTE_P = 0 end;
  vo_tab : forall d t, T !! d = Some t -> 0 <= d < 1024 /\ t ∈ A /\ t <> pgdir;
  vo_inj : forall d d' t, T !! d = Some t -> T !! d' = Some t -> d = d' }.

(** The entry for virtual page [v]. *)
Definition ptes (m : mem) (T : gmap Z Z) (v : Z) : Z :=
  match T !! (v / 1024) with Some t => load32 m (t + 4 * (v mod 1024)) | None => 0 end.

Lemma tab_addr s l A pgdir T va t :
  vm_ok s l A pgdir T -> 0 <= va < 2 ^ 32 -> T !! PDX va = Some t ->
  let a := t + 4 * PTX va in 0 <= a /\ a + 4 < 2 ^ 32 /\ u32 a = a /\ a <> 0 /\ (forall x, a <= x < a + 4 -> in_page t x) /\
  forall m, ptes m T (va / 4096) = load32 m a.
Proof.
  intros V Hva Ht. destruct (vo_tab _ _ _ _ _ V _ _ Ht) as (Hd & HA & _). destruct (vo_own _ _ _ _ _ V _ HA) as [Hp _].
  destruct (PDX_div va Hva) as [Hpd _]. rewrite PTX_mod. pose proof (Z.mod_pos_bound (va / 4096) 1024).
  destruct (page_word _ _ (va / 4096 mod 1024) Hp ltac:(lia)) as (H1 & H2 & H3 & H4 & H5).
  cbv zeta. split_and!; try done. intros m. unfold ptes. rewrite <- Hpd, Ht. done.
Qed.

Lemma wp_walk_find s l A pgdir T va alloc t (Q : Z -> kst -> Prop) :
  vm_ok s l A pgdir T -> 0 <= va < 2 ^ 32 -> T !! PDX va = Some t -> Q (t + 4 * PTX va) s ->
  wp (walkpgdir pgdir va alloc) Q s.
Proof.
  intros V Hva Ht HQ. destruct (PDX_div va Hva) as [Hpd Hr]. destruct (vo_own _ _ _ _ _ V _ (vo_dir _ _ _ _ _ V)) as [Hpg _].
  destruct (tab_addr _ _ _ _ _ _ _ V Hva Ht) as (_ & _ & H3 & _). 
  destruct (vo_tab _ _ _ _ _ V _ _ Ht) as (Hd & HA & _). destruct (vo_own _ _ _ _ _ V _ HA) as [Hp _].
  destruct (page_word _ _ (PDX va) Hpg ltac:(lia)) as (P1 & P2 & P3 & P4 & _). unfold walkpgdir, load_pte. rewrite P3.
  rewrite (proj2 (Z.eqb_neq _ _) P4). wp_steps. pose proof (vo_pde _ _ _ _ _ V (PDX va) ltac:(lia)) as Hpde. rewrite Ht in Hpde. rewrite Hpde.
  destruct (v2p_page _ _ Hp) as (_ & Hv1 & _ & Hv2). rewrite land_P by (done || lia). change (7 mod 2 =? 0) with false. cbn [negb].
  wp_steps. rewrite PTE_ADDR_add by (done || lia). rewrite Hv2, H3. exact HQ.
Qed.

Lemma wp_walk_none s l A pgdir T va (Q : Z -> kst -> Prop) :
  vm_ok s l A pgdir T -> 0 <= va < 2 ^ 32 -> T !! PDX va = None -> Q 0 s -> wp (walkpgdir pgdir va false) Q s.
Proof.
  intros V Hva Ht HQ. destruct (PDX_div va Hva) as [Hpd Hr]. destruct (vo_own _ _ _ _ _ V _ (vo_dir _ _ _ _ _ V)) as [Hpg _].
  destruct (page_word _ _ (PDX va) Hpg ltac:(lia)) as (P1 & P2 & P3 & P4 & _). unfold walkpgdir, load_pte. rewrite P3.
  rewrite (proj2 (Z.eqb_neq _ _) P4). wp_steps. pose proof (vo_pde _ _ _ _ _ V (PDX va) ltac:(lia)) as Hpde. rewrite Ht in Hpde. rewrite Hpde.
  cbn [Z.eqb negb]. by wp_steps.
Qed.

(** Nothing but the directory, its tables and pages that were free has changed. *)
Definition frame (s : kst) (A : gset Z) (pgdir : Z) (T : gmap Z Z) (s' : kst) : Prop :=
  use_lock s' = use_lock s /\ kctx_of s' = kctx_of s /\
  forall p a, p ∈ A -> p <> pgdir -> (forall d, T !! d <> Some p) -> in_page p a -> kmemory s' a = kmemory s a.

(** A page table that has grown, with free pages left in [l']. *)
Record vm_grew (s : kst) (A : gset Z) (pgdir : Z) (T : gmap Z Z) (s' : kst) (l' : list Z) (A' : gset Z) (T' : gmap Z Z) : Prop := {
  vg_ok : vm_ok s' l' A' pgdir T';
  vg_tab : forall d t, T !! d = Some t -> T' !! d = Some t;
  vg_new : forall d t, T' !! d = Some t -> T !! d = Some t \/ t ∉ A;
  vg_own : A ⊆ A';
  vg_frame : frame s A pgdir T s' }.

Lemma frame_refl s A pgdir T : frame s A pgdir T s.
Proof. by repeat split. Qed.

Lemma vm_grew_refl s l A pgdir T : vm_ok s l A pgdir T -> vm_grew s A pgdir T s l A T.
Proof. intros V. constructor; auto using frame_refl. Qed.

Lemma vm_grew_trans s A pgdir T s1 l1 A1 T1 s2 l2 A2 T2 :
  vm_grew s A pgdir T s1 l1 A1 T1 -> vm_grew s1 A1 pgdir T1 s2 l2 A2 T2 -> vm_grew s A pgdir T s2 l2 A2 T2.
Proof.
  intros [V1 I1 N1 O1 (U1 & C1 & M1)] [V2 I2 N2 O2 (U2 & C2 & M2)]. constructor; try done.
  - auto.
  - intros d t Hd. destruct (N2 d t Hd) as [H|H]; [by apply N1|]. right. set_solver.
  - set_solver.
  - split; [congruence|]. split; [congruence|]. intros p a Hp Hne Ht Ha. rewrite (M2 p a); [by apply (M1 p)|by apply O1|done| |done].
    intros d Hd. destruct (N1 d p Hd) as [H|H]; [by apply (Ht d)|done].
Qed.

(** A page taken from the allocator. *)
Lemma wp_vm_kalloc s p l A pgdir T (Q : Z -> kst -> Prop) :
  vm_ok s (p :: l) A pgdir T ->
  (forall s', kmemory s' = kmemory s -> use_lock s' = use_lock s -> kctx_of s' = kctx_of s ->
     page end_ p -> p ∉ A -> vm_ok s' l ({[p]} ∪ A) pgdir T -> Q p s') ->
  wp kalloc Q s.
Proof.
  intros V HQ. pose proof V as [K O D P T1 T2]. eapply wp_kalloc; [exact K|]. cbv zeta. intros K'.
  assert (page end_ p) as Hp by (eapply flist_page; [apply K|left]).
  pose proof (ko_nodup _ _ _ K) as Hnd. apply list.NoDup_cons in Hnd as [Hpl _].
  assert (p ∉ A) as HpA by (intros H; destruct (O p H) as [_ H']; apply H'; left).
  apply HQ; try done. constructor; try done.
  - intros q Hq. apply elem_of_union in Hq as [->%elem_of_singleton|Hq]; [done|].
    destruct (O q Hq) as [H1 H2]. split; [done|]. intros H. apply H2. by right.
  - set_solver.
  - intros d t Ht. destruct (T1 d t Ht) as (H1 & H2 & H3). set_solver.
Qed.

(** The memory of an owned page changes. *)
Lemma vm_ok_write s l A pgdir T m' p :
  vm_ok s l A pgdir T -> p ∈ A -> p <> pgdir -> (forall a, ~ in_page p a -> m' a = kmemory s a) ->
  vm_ok (mkkst (use_lock s) (freelist s) m' (kctx_of s)) l A pgdir T.
Proof.
  intros [[K1 K2 K3] O D P T1 T2] Hp Hne Hm. destruct (O p Hp) as [Hpp Hpl]. constructor; try done.
  - constructor; try done. cbn. eapply flist_ext; [|exact K1]. intros q a Hq Ha. apply Hm. intros Ha'.
    assert (q = p) as -> by (eapply pages_disjoint; eauto using flist_page). done.
  - intros d Hd. cbn [kmemory]. destruct (O pgdir D) as [Hpg _]. destruct (page_word _ _ d Hpg Hd) as (W1 & W2 & _ & _ & W5).
    rewrite (load32_same (kmemory s)); [by apply P|lia|lia|]. intros x Hx. apply Hm. intros Ha.
    apply Hne. eapply pages_disjoint; [exact Hpp|exact Hpg|exact Ha|by apply W5].
Qed.

Lemma ptes_same s l A pgdir T m' v :
  vm_ok s l A pgdir T -> (forall t x, T !! (v / 1024) = Some t -> in_page t x -> m' x = kmemory s x) ->
  ptes m' T v = ptes (kmemory s) T v.
Proof.
  intros V Hm. unfold ptes. destruct (T !! (v / 1024)) as [t|] eqn:Et; [|done].
  destruct (vo_tab _ _ _ _ _ V _ _ Et) as (_ & HA & _). destruct (vo_own _ _ _ _ _ V _ HA) as [Hp _].
  destruct (page_word _ _ (v mod 1024) Hp) as (W1 & W2 & _ & _ & W5); [apply Z.mod_pos_bound; lia|].
  apply load32_same; [lia|lia|]. intros x Hx. by eapply Hm; [|apply W5].
Qed.

(** Storing an entry. *)
Lemma vm_ok_store s l A pgdir T d t x v :
  vm_ok s l A pgdir T -> T !! d = Some t -> 0 <= x < 1024 ->
  let s' := mkkst (use_lock s) (freelist s) (store32 (kmemory s) (t + 4 * x) v) (kctx_of s) in
  vm_ok s' l A pgdir T /\ ptes (kmemory s') T (1024 * d + x) = u32 v /\
  (forall w, 0 <= w -> w <> 1024 * d + x -> ptes (kmemory s') T w = ptes (kmemory s) T w) /\
  (forall p a, p ∈ A -> p <> t -> in_page p a -> kmemory s' a = kmemory s a).
Proof.
  intros V Ht Hx. cbv zeta. destruct (vo_tab _ _ _ _ _ V _ _ Ht) as (Hd & HA & Hne). destruct (vo_own _ _ _ _ _ V _ HA) as [Hp _].
  destruct (page_word _ _ x Hp Hx) as (W1 & W2 & _ & _ & W5).
  assert (forall a, ~ in_page t a -> store32 (kmemory s) (t + 4 * x) v a = kmemory s a) as Hout.
  { intros a Ha. apply store32_out; [lia|lia|]. intros H. by apply Ha, W5. }
  split; [by eapply vm_ok_write|]. split; [|split].
  - unfold ptes. cbn [kmemory].
    rewrite <- (Z.div_unique (1024 * d + x) 1024 d x), <- (Z.mod_unique (1024 * d + x) 1024 d x), Ht by lia. apply load_store32; lia.
  - intros w Hw Hnew. unfold ptes. cbn [kmemory]. destruct (T !! (w / 1024)) as [t'|] eqn:Et; [|done].
    destruct (vo_tab _ _ _ _ _ V _ _ Et) as (_ & HA' & _). destruct (vo_own _ _ _ _ _ V _ HA') as [Hp' _].
    pose proof (Z.mod_pos_bound w 1024). pose proof (Z.div_mod w 1024).
    destruct (page_word _ _ (w mod 1024) Hp' ltac:(lia)) as (X1 & X2 & _ & _ & X5). apply load32_same; [lia|lia|]. intros y Hy.
    destruct (decide (t' = t)) as [->|Hne'].
    + rewrite (vo_inj _ _ _ _ _ V _ _ _ Et Ht) in *. apply store32_out; [lia..|]. lia.
    + apply Hout. intros Hy'. apply Hne'. eapply pages_disjoint; [exact Hp'|exact Hp|by apply X5|done].
  - intros p a HpA Hpt Ha. apply Hout. intros Ha'. apply Hpt. destruct (vo_own _ _ _ _ _ V _ HpA) as [Hp2 _].
    eapply pages_disjoint; [exact Hp2|exact Hp|done|done].
Qed.

Lemma pde_value t : page end_ t -> Z.lor (Z.lor (Z.lor (v2p t) PTE_P) PTE_W) PTE_U = v2p t + 7 /\ 0 <= v2p t + 7 < 2 ^ 32.
Proof.
  intros Hp. destruct (v2p_page _ _ Hp) as (_ & H1 & H2 & _). rewrite <- !Z.lor_assoc.
  change (Z.lor PTE_P (Z.lor PTE_W PTE_U)) with 7. rewrite lor_page by (done || lia). unfold PHYSTOP in H2. split; [done|lia].
Qed.

(** A new, empty table. *)
Lemma new_table s l A pgdir T t d :
  vm_ok s l ({[t]} ∪ A) pgdir T -> t ∉ A -> pgdir ∈ A -> (forall d t', T !! d = Some t' -> t' ∈ A) ->
  0 <= d < 1024 -> T !! d = None ->
  let m' := store32 (snd (memset (kmemory s) t 0 PGSIZE)) (pgdir + 4 * d) (v2p t + 7) in
  let s' := mkkst (use_lock s) (freelist s) m' (kctx_of s) in
  vm_ok s' l ({[t]} ∪ A) pgdir (<[d := t]> T) /\
  (forall v, 0 <= v -> ptes (kmemory s') (<[d := t]> T) v = ptes (kmemory s) T v) /\
  (forall p a, p ∈ A -> p <> pgdir -> in_page p a -> kmemory s' a = kmemory s a).
Proof.
  intros V HtA HdirA HTA Hd HTd. cbv zeta. pose proof V as [[K1 K2 K3] O D P T1 T2].
  destruct (O t ltac:(set_solver)) as [Hpt Htl]. destruct (O pgdir D) as [Hpg Hgl]. assert (t <> pgdir) as Hne by congruence.
  set (m' := store32 _ _ _). pose proof (page_range _ _ Hpt) as Hrt. unfold KERNBASE, PHYSTOP, PGSIZE in Hrt.
  destruct (page_word _ _ d Hpg Hd) as (W1 & W2 & _ & _ & W5).
  assert (forall a, in_page t a -> m' a = 0) as Hzero.
  { intros a Ha. unfold m'. rewrite store32_out; [|lia|lia|].
    - rewrite memset_spec by (unfold PGSIZE; lia). unfold in_page, PGSIZE in Ha. unfold within, PGSIZE.
      rewrite (proj2 (Z.leb_le _ _)), (proj2 (Z.ltb_lt _ _)) by lia. done.
    - intros Hx. apply Hne. eapply pages_disjoint; [exact Hpt|exact Hpg|exact Ha|by apply W5]. }
  assert (forall a, ~ in_page t a -> ~ (pgdir + 4 * d <= a < pgdir + 4 * d + 4) -> m' a = kmemory s a) as Hsame.
  { intros a Ha Hx. unfold m'. rewrite store32_out by lia. rewrite memset_spec by (unfold PGSIZE; lia).
    unfold in_page, PGSIZE in Ha. unfold within, PGSIZE. destruct (Z.leb_spec t a), (Z.ltb_spec a (t + 4096)); cbn; lia || done. }
  assert (forall p a, page end_ p -> p <> t -> p <> pgdir -> in_page p a -> m' a = kmemory s a) as Hother.
  { intros p a Hp H1 H2 Ha. apply Hsame.
    - intros Ha'. apply H1. by eapply pages_disjoint.
    - intros Hx. apply H2. eapply pages_disjoint; [exact Hp|exact Hpg|exact Ha|by apply W5]. }
  split; [|split].
  - constructor; cbn [kmemory].
    + constructor; try done. cbn. eapply flist_ext; [|exact K1]. intros q a Hq Ha.
      apply (Hother q); [by eapply flist_page|congruence|congruence|done].
    + done.
    + set_solver.
    + intros d' Hd'. destruct (page_word _ _ d' Hpg Hd') as (X1 & X2 & _ & _ & X5).
      destruct (decide (d' = d)) as [->|Hdd].
      * rewrite lookup_insert_eq. unfold m'. rewrite load_store32 by lia. apply u32_small, pde_value, Hpt.
      * rewrite lookup_insert_ne by done. rewrite (load32_same (kmemory s)); [by apply P|lia|lia|]. intros x Hx. apply Hsame; [|lia].
        intros Ha. apply Hne. eapply pages_disjoint; [exact Hpt|exact Hpg|exact Ha|by apply X5].
    + intros d' t'. destruct (decide (d' = d)) as [->|Hdd]; [rewrite lookup_insert_eq|rewrite lookup_insert_ne by done; apply T1].
      intros [= <-]. set_solver.
    + intros d1 d2 t'. destruct (decide (d1 = d)) as [->|H1], (decide (d2 = d)) as [->|H2];
        rewrite ?lookup_insert_eq, ?lookup_insert_ne by done; try done.
      * intros [= <-] H. apply HTA in H. done.
      * intros H [= <-]. apply HTA in H. done.
      * apply T2.
  - intros v Hv. cbn [kmemory]. unfold ptes. destruct (decide (v / 1024 = d)) as [->|Hdd].
    + rewrite lookup_insert_eq, HTd. destruct (page_word _ _ (v mod 1024) Hpt) as (X1 & X2 & _ & _ & X5); [apply Z.mod_pos_bound; lia|].
      apply load32_zero; [lia|lia|]. intros x Hx. by apply Hzero, X5.
    + rewrite lookup_insert_ne by done. change (ptes m' T v = ptes (kmemory s) T v). eapply ptes_same; [exact V|].
      intros t' x Ht' Hx. destruct (T1 _ _ Ht') as (_ & Hin & Hn). apply (Hother t'); [by apply O|intros ->; by apply HTA in Ht'|done|done].
  - intros p a Hp Hn Ha. apply (Hother p); [by apply O; set_solver|congruence|done|done].
Qed.

Lemma wp_walk_alloc s l A pgdir T va (Q : Z -> kst -> Prop) :
  vm_ok s l A pgdir T -> 0 <= va < 2 ^ 32 -> (T !! PDX va = None -> l <> []) ->
  (forall s' l' A' T' t, vm_grew s A pgdir T s' l' A' T' -> T' !! PDX va = Some t ->
     (forall v, 0 <= v -> ptes (kmemory s') T' v = ptes (kmemory s) T v) ->
     (forall d, d <> PDX va -> T' !! d = T !! d) ->
     length l = (length l' + if decide (T !! PDX va = None) then 1 else 0)%nat -> Q (t + 4 * PTX va) s') ->
  wp (walkpgdir pgdir va true) Q s.
Proof.
  intros V Hva Hl HQ. destruct (T !! PDX va) as [t|] eqn:Et.
  { eapply wp_walk_find; [exact V|done|exact Et|]. eapply HQ; [by apply vm_grew_refl|exact Et|done|done|]. rewrite decide_False by done. lia. }
  destruct l as [|t l]; [by destruct Hl|]. destruct (PDX_div va Hva) as [Hpd Hr].
  destruct (vo_own _ _ _ _ _ V _ (vo_dir _ _ _ _ _ V)) as [Hpg _].
  destruct (page_word _ _ (PDX va) Hpg ltac:(lia)) as (P1 & P2 & P3 & P4 & _). unfold walkpgdir, load_pte. rewrite P3.
  rewrite (proj2 (Z.eqb_neq _ _) P4). wp_steps. pose proof (vo_pde _ _ _ _ _ V (PDX va) ltac:(lia)) as Hpde. rewrite Et in Hpde. rewrite Hpde.
  cbn [Z.eqb negb]. wp_steps. eapply wp_vm_kalloc; [exact V|]. intros s1 Em Eu Ec Hp HtA V1.
  pose proof (page_range _ _ Hp) as Hrt. unfold KERNBASE in Hrt. rewrite (proj2 (Z.eqb_neq t 0)) by lia.
  unfold store_pte, set_mem. rewrite (proj2 (Z.eqb_neq _ _) P4). wp_steps. cbn [kmemory use_lock freelist kctx_of].
  destruct (new_table s1 l A pgdir T t (PDX va) V1 HtA (vo_dir _ _ _ _ _ V)) as (V2 & Hpt & Hfr); [|lia|done|].
  { intros d t' Ht'. by destruct (vo_tab _ _ _ _ _ V _ _ Ht') as (_ & ? & _). }
  rewrite (proj1 (pde_value _ Hp)). pose proof (PTX_mod va). pose proof (Z.mod_pos_bound (va / 4096) 1024).
  destruct (page_word _ _ (PTX va) Hp ltac:(lia)) as (_ & _ & -> & _).
  eapply (HQ _ l ({[t]} ∪ A) (<[PDX va := t]> T) t); [|apply lookup_insert_eq| |intros d Hd; by apply lookup_insert_ne|cbn [length]; rewrite decide_True by done; lia].
  - constructor; [exact V2| | |apply union_subseteq_r|].
    + intros d t' Ht'. rewrite lookup_insert_ne; [done|]. intros <-. by rewrite Et in Ht'.
    + intros d t'. destruct (decide (d = PDX va)) as [->|Hd]; [rewrite lookup_insert_eq|rewrite lookup_insert_ne by done; auto].
      intros [= <-]. by right.
    + split; [exact Eu|]. split; [exact Ec|]. intros p a Hp' Hne _ Ha. rewrite <- Em. by apply (Hfr p).
  - intros v Hv. rewrite <- Em. by apply Hpt.
Qed.

(** No page is left for a table. *)
Lemma wp_walk_full s A pgdir T va (Q : Z -> kst -> Prop) :
  vm_ok s [] A pgdir T -> 0 <= va < 2 ^ 32 -> T !! PDX va = None -> Q 0 s -> wp (walkpgdir pgdir va true) Q s.
Proof.
  intros V Hva Ht HQ. destruct (PDX_div va Hva) as [Hpd Hr]. destruct (vo_own _ _ _ _ _ V _ (vo_dir _ _ _ _ _ V)) as [Hpg _].
  destruct (page_word _ _ (PDX va) Hpg ltac:(lia)) as (P1 & P2 & P3 & P4 & _). unfold walkpgdir, load_pte. rewrite P3.
  rewrite (proj2 (Z.eqb_neq _ _) P4). wp_steps. pose proof (vo_pde _ _ _ _ _ V (PDX va) ltac:(lia)) as Hpde. rewrite Ht in Hpde. rewrite Hpde.
  cbn [Z.eqb negb]. wp_steps. eapply wp_kalloc; [apply V|]. exact HQ.
Qed.

(** The entry mappages writes. *)
Definition entry (pa perm : Z) : Z := Z.lor (Z.lor pa perm) PTE_P.

Lemma lor_flags perm : 0 <= perm < 4096 -> 0 <= Z.lor perm PTE_P < 4096.
Proof.
  intros Hp. unfold PTE_P. split; [apply Z.lor_nonneg; lia|].
  destruct (decide (Z.lor perm 1 = 0)) as [->|Hz]; [lia|]. change 4096 with (2 ^ 12).
  apply Z.log2_lt_pow2; [pose proof (proj2 (Z.lor_nonneg perm 1)); lia|]. rewrite Z.log2_lor by lia.
  change (Z.log2 1) with 0. destruct (decide (perm = 0)) as [->|]; [done|].
  assert (Z.log2 perm < 12) by (apply Z.log2_lt_pow2; lia). lia.
Qed.

Lemma entry_add pa perm : pa mod 4096 = 0 -> 0 <= perm < 4096 -> entry pa perm = pa + Z.lor perm PTE_P.
Proof. intros Ha Hp. unfold entry. rewrite <- Z.lor_assoc. apply lor_page; [done|by apply lor_flags]. Qed.

Lemma entry_range pa perm : pa mod 4096 = 0 -> 0 <= perm < 4096 -> 0 <= pa < 2 ^ 32 -> 0 <= entry pa perm < 2 ^ 32.
Proof.
  intros Ha Hp Hr. rewrite entry_add by done. pose proof (lor_flags perm Hp).
  apply Z.mod_divide in Ha as [k ->]; [|lia]. lia.
Qed.

Lemma entry_present pa perm : Z.land (entry pa perm) PTE_P = 1.
Proof.
  unfold entry, PTE_P. change 1 with (Z.ones 1). rewrite Z.land_ones by lia. change (2 ^ 1) with 2.
  rewrite <- Z.bit0_mod, Z.lor_spec. change (Z.testbit (Z.ones 1) 0) with true. by rewrite orb_true_r.
Qed.

Lemma store_grew s l A pgdir T va t e :
  vm_ok s l A pgdir T -> 0 <= va < 2 ^ 32 -> T !! PDX va = Some t -> 0 <= e < 2 ^ 32 ->
  let s' := mkkst (use_lock s) (freelist s) (store32 (kmemory s) (t + 4 * PTX va) e) (kctx_of s) in
  vm_grew s A pgdir T s' l A T /\
  (forall w, 0 <= w -> ptes (kmemory s') T w = if decide (w = va / 4096) then e else ptes (kmemory s) T w).
Proof.
  intros V Hva Ht He. destruct (PDX_div va Hva) as [Hpd Hr]. pose proof (PTX_mod va) as Hpt.
  pose proof (Z.mod_pos_bound (va / 4096) 1024). pose proof (Z.div_mod (va / 4096) 1024).
  destruct (vm_ok_store s l A pgdir T (PDX va) t (PTX va) e V Ht ltac:(lia)) as (V' & P1 & P2 & P3). cbv zeta. split.
  - constructor; try done; [auto..|]. split; [done|]. split; [done|]. intros p a Hp _ Hnt Ha. apply (P3 p); [done| |done].
    intros ->. by apply (Hnt (PDX va)).
  - replace (1024 * PDX va + PTX va) with (va / 4096) in P1, P2 by lia. intros w Hw. case_decide as E.
    + subst w. rewrite P1. by apply u32_small.
    + by apply P2.
Qed.

(** The tables that mapping pages [v .. v + n] takes. *)
Definition tables (T : gmap Z Z) (v n : Z) : Z :=
  (if decide (T !! (v / 1024) = None) then 1 else 0) + ((v + n) / 1024 - v / 1024).

Lemma tables_pos T v n : 0 <= n -> T !! (v / 1024) = None -> 1 <= tables T v n.
Proof.
  intros Hn E. unfold tables. rewrite decide_True by done.
  assert (v / 1024 <= (v + n) / 1024) by (apply Z.div_le_mono; lia). lia.
Qed.

Lemma tables_step T T1 v n t :
  T1 !! (v / 1024) = Some t -> (forall d, d <> v / 1024 -> T1 !! d = T !! d) ->
  tables T1 (v + 1) n + (if decide (T !! (v / 1024) = None) then 1 else 0) <= tables T v (1 + n).
Proof.
  intros Ht HT. unfold tables. replace (v + 1 + n) with (v + (1 + n)) by lia.
  pose proof (Z.div_mod v 1024). pose proof (Z.mod_pos_bound v 1024). pose proof (Z.div_mod (v + 1) 1024). pose proof (Z.mod_pos_bound (v + 1) 1024).
  assert ((v + 1) / 1024 = v / 1024 \/ (v + 1) / 1024 = v / 1024 + 1) as [-> | E] by lia.
  - rewrite (decide_False (P := T1 !! _ = None)) by congruence. lia.
  - destruct (decide (T1 !! ((v + 1) / 1024) = None)); lia.
Qed.

Lemma wp_mappages_loop n fuel s l A pgdir T v pa perm (Q : Z -> kst -> Prop) :
  vm_ok s l A pgdir T -> 0 <= v -> v + Z.of_nat n < 2 ^ 20 -> (n < fuel)%nat ->
  0 <= pa -> pa mod 4096 = 0 -> pa + 4096 * Z.of_nat n < 2 ^ 32 -> 0 <= perm < 4096 ->
  (forall w, v <= w <= v + Z.of_nat n -> Z.land (ptes (kmemory s) T w) PTE_P = 0) ->
  tables T v (Z.of_nat n) <= Z.of_nat (length l) ->
  (forall s' l' A' T', vm_grew s A pgdir T s' l' A' T' ->
     (forall w, 0 <= w -> ptes (kmemory s') T' w =
        if decide (v <= w <= v + Z.of_nat n) then entry (pa + 4096 * (w - v)) perm else ptes (kmemory s) T w) ->
     Z.of_nat (length l) - tables T v (Z.of_nat n) <= Z.of_nat (length l') -> Q 0 s') ->
  wp (mappages_loop fuel pgdir (4096 * v) (4096 * (v + Z.of_nat n)) pa perm) Q s.
Proof.
  revert fuel s l A T v pa. induction n as [|n IH]; intros fuel s l A T v pa V Hv Hvn Hf Hpa Hal Hpan Hperm Hfree Htab HQ;
    (destruct fuel as [|fuel]; [lia|]); cbn [mappages_loop]; wp_steps.
  all: assert (0 <= 4096 * v < 2 ^ 32) as Hva by lia.
  all: assert (4096 * v / 4096 = v) as Hdv by (rewrite Z.mul_comm; apply Z.div_mul; lia).
  all: destruct (PDX_div (4096 * v) Hva) as [Hpd _]; rewrite Hdv in Hpd.
  all: eapply (wp_walk_alloc s l A pgdir T (4096 * v)); [exact V|done| |].
  1, 3: rewrite Hpd; intros E; match type of Htab with tables _ _ ?k <= _ => pose proof (tables_pos T v k ltac:(lia) E) end;
    destruct l; cbn [length] in Htab; [lia|done].
  all: intros s1 l1 A1 T1 t G1 Ht1 Hp1 HT1 Hl1; pose proof (vg_ok _ _ _ _ _ _ _ _ G1) as V1.
  all: destruct (tab_addr _ _ _ _ _ _ _ V1 Hva Ht1) as (_ & _ & _ & Hz & _ & Hpte); rewrite Hdv in Hpte.
  all: unfold load_pte, store_pte; rewrite (proj2 (Z.eqb_neq _ _) Hz); wp_steps; rewrite <- Hpte, Hp1, Hfree by lia.
  all: cbn [Z.eqb negb]; unfold set_mem; wp_steps; fold (entry pa perm).
  all: destruct (store_grew s1 l1 A1 pgdir T1 (4096 * v) t (entry pa perm) V1 Hva Ht1) as [G2 Hp2]; [apply entry_range; (done || lia)|].
  all: rewrite Hdv in Hp2; pose proof (vm_grew_trans _ _ _ _ _ _ _ _ _ _ _ _ G1 G2) as G.
  - rewrite Z.add_0_r, Z.eqb_refl. wp_steps. eapply HQ; [exact G| |].
    + intros w Hw. rewrite Hp2, Hp1 by done. destruct (decide (w = v)) as [->|Hne].
      * rewrite decide_True by lia. f_equal. lia.
      * rewrite decide_False by lia. done.
    + unfold tables. change (Z.of_nat 0) with 0. rewrite Z.add_0_r. rewrite Hpd in Hl1. destruct (decide (T !! (v / 1024) = None)); lia.
  - rewrite (proj2 (Z.eqb_neq (4096 * v) _)) by lia. unfold PGSIZE. rewrite !u32_small by lia.
    replace (4096 * v + 4096) with (4096 * (v + 1)) by lia. replace (v + Z.of_nat (S n)) with (v + 1 + Z.of_nat n) by lia.
    assert (tables T1 (v + 1) (Z.of_nat n) + (if decide (T !! (v / 1024) = None) then 1 else 0) <= tables T v (Z.of_nat (S n))) as Hneed.
    { replace (Z.of_nat (S n)) with (1 + Z.of_nat n) by lia. rewrite Hpd in Ht1, HT1. by eapply tables_step. }
    eapply (IH fuel _ l1 A1 T1 (v + 1) (pa + 4096)); try done; try lia.
    + apply G2.
    + replace (pa + 4096) with (pa + 1 * 4096) by lia. by rewrite Z_mod_plus_full.
    + intros w Hw. rewrite Hp2 by lia. rewrite decide_False, Hp1 by lia. apply Hfree. lia.
    + rewrite Hpd in Hl1. destruct (decide (T !! (v / 1024) = None)); lia.
    + intros s3 l3 A3 T3 G3 Hp3 Hl3. eapply HQ; [by eapply vm_grew_trans| |rewrite Hpd in Hl1; destruct (decide (T !! (v / 1024) = None)); lia].
      intros w Hw. rewrite Hp3 by done. destruct (decide (v + 1 <= w <= v + 1 + Z.of_nat n)).
      * rewrite decide_True by lia. f_equal. lia.
      * rewrite Hp2, Hp1 by done. destruct (decide (w = v)) as [->|Hne].
        -- rewrite decide_True by lia. f_equal. lia.
        -- rewrite decide_False by lia. done.
Qed.

Lemma PGROUNDDOWN_page v o : 0 <= o < 4096 -> PGROUNDDOWN (4096 * v + o) = 4096 * v.
Proof.
  intros Ho. unfold PGROUNDDOWN, PGSIZE. change (4096 - 1) with (Z.ones 12).
  rewrite Z.ldiff_ones_r, Z.shiftl_mul_pow2, Z.shiftr_div_pow2 by lia. change (2 ^ 12) with 4096.
  rewrite (Z.mul_comm 4096 v), Z.div_add_l, Z.div_small by lia. lia.
Qed.

(** mappages of the [n + 1] pages from page [v] on. *)
Lemma wp_mappages n s l A pgdir T v pa perm (Q : Z -> kst -> Prop) :
  vm_ok s l A pgdir T -> 0 <= v -> v + Z.of_nat n < 2 ^ 20 ->
  0 <= pa -> pa mod 4096 = 0 -> pa + 4096 * Z.of_nat n < 2 ^ 32 -> 0 <= perm < 4096 ->
  (forall w, v <= w <= v + Z.of_nat n -> Z.land (ptes (kmemory s) T w) PTE_P = 0) ->
  tables T v (Z.of_nat n) <= Z.of_nat (length l) ->
  (forall s' l' A' T', vm_grew s A pgdir T s' l' A' T' ->
     (forall w, 0 <= w -> ptes (kmemory s') T' w =
        if decide (v <= w <= v + Z.of_nat n) then entry (pa + 4096 * (w - v)) perm else ptes (kmemory s) T w) ->
     Z.of_nat (length l) - tables T v (Z.of_nat n) <= Z.of_nat (length l') -> Q 0 s') ->
  wp (mappages pgdir (4096 * v) (4096 * (Z.of_nat n + 1)) pa perm) Q s.
Proof.
  intros V Hv Hvn Hpa Hal Hpan Hperm Hfree Htab HQ. unfold mappages.
  replace (u32 (4096 * v + 4096 * (Z.of_nat n + 1) - 1)) with (4096 * (v + Z.of_nat n) + 4095) by (rewrite u32_small; lia).
  assert (PGROUNDDOWN (4096 * v) = 4096 * v) as -> by (rewrite <- (Z.add_0_r (4096 * v)) at 1; apply PGROUNDDOWN_page; lia).
  rewrite PGROUNDDOWN_page by lia.
  replace (4096 * (v + Z.of_nat n) - 4096 * v) with (Z.of_nat n * 4096) by lia. rewrite u32_small by lia.
  unfold PGSIZE. rewrite Z.div_mul, Nat2Z.id by lia.
  eapply wp_mappages_loop; [exact V|done|done|lia|done|done|done|done|done|done|done].
Qed.

(** One page. *)
Lemma wp_mappage s l A pgdir T v pa perm (Q : Z -> kst -> Prop) :
  vm_ok s l A pgdir T -> 0 <= v < 2 ^ 20 -> 0 <= pa < 2 ^ 32 -> pa mod 4096 = 0 -> 0 <= perm < 4096 ->
  Z.land (ptes (kmemory s) T v) PTE_P = 0 -> l <> [] ->
  (forall s' l' A' T', vm_grew s A pgdir T s' l' A' T' ->
     (forall w, 0 <= w -> ptes (kmemory s') T' w = if decide (w = v) then entry pa perm else ptes (kmemory s) T w) ->
     (length l <= 1 + length l')%nat -> Q 0 s') ->
  wp (mappages pgdir (4096 * v) PGSIZE pa perm) Q s.
Proof.
  intros V Hv Hpa Hal Hperm Hfree Hl HQ. change PGSIZE with (4096 * (Z.of_nat 0 + 1)).
  assert (tables T v (Z.of_nat 0) <= 1) as Ht by (unfold tables; change (Z.of_nat 0) with 0; rewrite Z.add_0_r; case_decide; lia).
  eapply (wp_mappages 0); [exact V|lia|lia|lia|done|lia|done| |destruct l; cbn [length]; [done|lia]|].
  - intros w Hw. replace w with v by lia. done.
  - intros s' l' A' T' G Hp Hl'. eapply HQ; [exact G| |lia]. intros w Hw. rewrite Hp by done.
    change (Z.of_nat 0) with 0. destruct (decide (w = v)) as [->|Hne].
    + rewrite decide_True by lia. f_equal. lia.
    + rewrite decide_False by lia. done.
Qed.

(** A zeroed page for the user. *)
Lemma wp_alloc_zeroed {B} s p l A pgdir T (e : M kst B) (k : Z -> M kst B) (Q : B -> kst -> Prop) :
  vm_ok s (p :: l) A pgdir T ->
  (forall s', vm_grew s A pgdir T s' l ({[p]} ∪ A) T -> page end_ p -> p ∉ A ->
     (forall a, ~ in_page p a -> kmemory s' a = kmemory s a) -> (forall a, in_page p a -> kmemory s' a = 0) -> (forall v, 0 <= v -> ptes (kmemory s') T v = ptes (kmemory s) T v) ->
     wp (k p) Q s') ->
  wp (mem <- kalloc ;; if mem =? 0 then e else set_mem (fun m => snd (memset m mem 0 PGSIZE)) ;; k mem) Q s.
Proof.
  intros V HQ. wp_steps. eapply wp_vm_kalloc; [exact V|]. intros s1 Em Eu Ec Hp HpA V1.
  pose proof (page_range _ _ Hp) as Hr. unfold KERNBASE, PHYSTOP, PGSIZE in Hr.
  set (m' := snd (memset (kmemory s1) p 0 PGSIZE)).
  assert (forall a, m' a = if decide (in_page p a) then 0 else kmemory s a) as Hm'.
  { intros a. unfold m'. rewrite memset_spec by (unfold PGSIZE; lia). rewrite Em. unfold in_page, within, PGSIZE.
    destruct (Z.leb_spec p a), (Z.ltb_spec a (p + 4096)); cbn; case_decide; try lia; done. }
  rewrite (proj2 (Z.eqb_neq p 0)) by lia. unfold set_mem. wp_steps. apply HQ; [|exact Hp|exact HpA| | |].
  - constructor; auto; [|set_solver|].
    + eapply (vm_ok_write _ _ _ _ _ _ p); [exact V1|set_solver|intros ->; apply HpA; apply V|]. intros a Ha. rewrite Hm', decide_False by done. by rewrite Em.
    + split; [exact Eu|]. split; [exact Ec|]. intros q a Hq _ _ Ha. cbn [kmemory]. rewrite Hm'. rewrite decide_False; [done|].
      intros Ha'. destruct (vo_own _ _ _ _ _ V _ Hq) as [Hqp _]. apply HpA. by rewrite <- (pages_disjoint _ _ _ _ Hqp Hp Ha Ha').
  - intros a Ha. cbn. by rewrite Hm', decide_False.
  - intros a Ha. cbn. by rewrite Hm', decide_True.
  - intros v Hv. cbn [kmemory]. eapply ptes_same; [exact V|]. intros t x Ht Hx. rewrite Hm', decide_False; [done|].
    intros Hx'. destruct (vo_tab _ _ _ _ _ V _ _ Ht) as (_ & HtA & _). destruct (vo_own _ _ _ _ _ V _ HtA) as [Htp _].
    apply HpA. by rewrite <- (pages_disjoint _ _ _ _ Htp Hp Hx Hx').
Qed.
End Ok.
