(* ===== verification/Uvm.v ===== *)
(** * vm.c: properties of user address spaces

    Growing, shrinking and copying an address space, against the mapping that the page
    tables represent. *)

From stdpp Require Import base list numbers strings gmap sets.
From S2P Require Import Prelude CString Spinlock Kalloc Vm.
Import Ctx Mem.

Open Scope Z_scope.
Local Open Scope kernel_scope.

Lemma in_new (A : gset Z) p : p ∈ {[p]} ∪ A.
Proof. set_solver. Qed.
Lemma in_old (A : gset Z) p x : x ∈ A -> x ∈ {[p]} ∪ A.
Proof. set_solver. Qed.

Section Uvm.
Variable end_ : Z.

(** [ps] are distinct pages, owned now and not before, that are not part of the page table. *)
Record new_pages (A A' : gset Z) (pgdir : Z) (T' : gmap Z Z) (ps : list Z) : Prop := {
  np_nodup : NoDup ps;
  np_page : forall p, p ∈ ps -> page end_ p /\ (p ∉ A) /\ p ∈ A' /\ p <> pgdir;
  np_tab : forall p d, p ∈ ps -> T' !! d <> Some p }.

Definition zeroed (s : kst) (ps : list Z) : Prop := forall p a, p ∈ ps -> in_page p a -> kmemory s a = 0.

(** What a mapping of [ps] at page [v] looks like. *)
Record maps (m : mem) (T : gmap Z Z) (m' : mem) (T' : gmap Z Z) (v : Z) (ps : list Z) (perm : Z) : Prop := {
  mp_in : forall i p, ps !! i = Some p -> ptes m' T' (v + Z.of_nat i) = entry (v2p p) perm;
  mp_out : forall w, 0 <= w -> ~ (v <= w < v + Z.of_nat (length ps)) -> ptes m' T' w = ptes m T w }.

Lemma new_pages_cons s A pgdir T s1 l1 p A1 T1 s2 l2 A2 T2 ps :
  page end_ p -> p ∉ A -> pgdir ∈ A -> vm_grew end_ s A pgdir T s1 l1 A1 T1 -> p ∈ A1 -> (forall d, T1 !! d <> Some p) ->
  vm_grew end_ s1 A1 pgdir T1 s2 l2 A2 T2 -> new_pages A1 A2 pgdir T2 ps -> new_pages A A2 pgdir T2 (p :: ps).
Proof.
  intros Hp HpA Hg G1 HpA1 HpT1 G2 [N1 N2 N3]. pose proof (vg_own _ _ _ _ _ _ _ _ _ G1). pose proof (vg_own _ _ _ _ _ _ _ _ _ G2).
  assert (p <> pgdir) by congruence. constructor.
  - apply list.NoDup_cons. split; [|done]. intros Hin. by destruct (N2 p Hin) as (_ & E2 & _).
  - intros q [->|Hq]%elem_of_cons; [set_solver|]. destruct (N2 q Hq) as (E1 & E2 & E3 & E4). set_solver.
  - intros q d [->|Hq]%elem_of_cons; [|by apply N3]. intros Hd.
    destruct (vg_new _ _ _ _ _ _ _ _ _ G2 d p Hd) as [E1|E1]; [by apply (HpT1 d)|done].
Qed.

Lemma maps_cons m T m1 T1 m2 T2 v p ps perm :
  0 <= v -> (forall w, 0 <= w -> ptes m1 T1 w = if decide (w = v) then entry (v2p p) perm else ptes m T w) ->
  maps m1 T1 m2 T2 (v + 1) ps perm -> maps m T m2 T2 v (p :: ps) perm.
Proof.
  intros Hv H1 [M1 M2]. constructor.
  - intros [|i] q Hq; cbn in Hq.
    + injection Hq as <-. rewrite M2, H1 by lia. rewrite Z.add_0_r, decide_True by done. done.
    + rewrite <- (M1 i q Hq). f_equal. lia.
  - intros w Hw Hn. cbn [length] in Hn. rewrite M2, H1, decide_False by lia. done.
Qed.

Lemma wp_allocuvm_loop n fuel s l A pgdir T v oldsz newsz (Q : Z -> kst -> Prop) :
  vm_ok end_ s l A pgdir T -> 0 <= v -> newsz < KERNBASE -> newsz <= 4096 * (v + Z.of_nat n) ->
  (n <> 0%nat -> 4096 * (v + Z.of_nat n - 1) < newsz) -> (n < fuel)%nat -> 4096 * v < 2 ^ 32 ->
  (forall w, v <= w < v + Z.of_nat n -> Z.land (ptes (kmemory s) T w) PTE_P = 0) ->
  (2 * n <= length l)%nat ->
  (forall s' l' A' T' ps, vm_grew end_ s A pgdir T s' l' A' T' -> new_pages A A' pgdir T' ps -> zeroed s' ps ->
     length ps = n -> maps (kmemory s) T (kmemory s') T' v ps 6 -> (length l <= 2 * n + length l')%nat -> Q (i32 newsz) s') ->
  wp (allocuvm_loop end_ fuel pgdir (4096 * v) oldsz newsz) Q s.
Proof.
  revert fuel s l A T v. induction n as [|n IH]; intros fuel s l A T v V Hv Hk Hle Hlt Hf Hv32 Hfree Hl HQ;
    (destruct fuel as [|fuel]; [lia|]); cbn [allocuvm_loop]; unfold KERNBASE in Hk.
  - rewrite (proj2 (Z.ltb_ge _ _)) by lia. wp_steps. eapply (HQ s l A T []); [by apply vm_grew_refl| | |done| |lia].
    + constructor; [apply NoDup_nil_2|intros p Hp; by apply elem_of_nil in Hp|intros p d Hp; by apply elem_of_nil in Hp].
    + intros p a Hp. by apply elem_of_nil in Hp.
    + constructor; [intros i p Hi; by rewrite lookup_nil in Hi|done].
  - specialize (Hlt ltac:(done)). rewrite (proj2 (Z.ltb_lt _ _)) by lia. destruct l as [|p [|q l]]; cbn [length] in Hl; [lia|lia|].
    apply wp_alloc_zeroed with (1 := V). intros s1 G1 Hp HpA _ Hz Hpt. pose proof (vg_ok _ _ _ _ _ _ _ _ _ G1) as V1.
    destruct (v2p_page _ _ Hp) as (_ & Ha1 & Ha2 & _). unfold PHYSTOP in Ha2. wp_steps.
    change (Z.lor PTE_W PTE_U) with 6.
    eapply (wp_mappage end_ s1 (q :: l) _ pgdir T v); [exact V1|lia|lia|done|lia|rewrite Hpt by lia; apply Hfree; lia|done|].
    intros s2 l2 A2 T2 G2 Hp2 Hl2. pose proof (vg_ok _ _ _ _ _ _ _ _ _ G2) as V2.
    pose proof (vm_grew_trans _ _ _ _ _ _ _ _ _ _ _ _ _ G1 G2) as G12.
    assert (forall d, T2 !! d <> Some p) as HpT2.
    { intros d Hd. destruct (vg_new _ _ _ _ _ _ _ _ _ G2 d p Hd) as [H|H]; [|set_solver].
      apply HpA. by destruct (vo_tab _ _ _ _ _ _ V _ _ H) as (_ & ? & _). }
    assert (p ∈ A2) as HpA2 by (apply (vg_own _ _ _ _ _ _ _ _ _ G2); set_solver).
    unfold PGSIZE. rewrite u32_small by lia. replace (4096 * v + 4096) with (4096 * (v + 1)) by lia.
    eapply (IH fuel s2 l2 A2 T2 (v + 1)); [exact V2|lia|exact Hk|lia|lia|lia|lia| |cbn [length] in Hl2; lia|].
    { intros w Hw. rewrite Hp2, decide_False by lia. rewrite Hpt by lia. apply Hfree. lia. }
    intros s3 l3 A3 T3 ps G3 N3 Z3 Hlen M3 Hl3.
    eapply (HQ s3 l3 A3 T3 (p :: ps)); [by eapply vm_grew_trans| | |cbn; lia| |cbn [length] in *; lia].
    + eapply new_pages_cons; [exact Hp|exact HpA|apply V|exact G12|exact HpA2|exact HpT2|exact G3|exact N3].
    + intros q' a [->|Hq]%elem_of_cons Ha; [|by eapply Z3]. rewrite <- (Hz a Ha).
      destruct (vg_frame _ _ _ _ _ _ _ _ _ G3) as (_ & _ & F3). destruct (vg_frame _ _ _ _ _ _ _ _ _ G2) as (_ & _ & F2).
      assert (p <> pgdir) by (intros ->; apply HpA; apply V).
      rewrite (F3 p a) by done. apply (F2 p a); [set_solver|done| |done].
      intros d Hd. apply HpA. by destruct (vo_tab _ _ _ _ _ _ V _ _ Hd) as (_ & ? & _).
    + eapply maps_cons; [done| |exact M3]. intros w Hw. rewrite Hp2, Hpt by done. done.
Qed.

(** ** Giving pages back *)

Lemma wp_vm_kfree s l A pgdir T p (Q : unit -> kst -> Prop) :
  vm_ok end_ s l A pgdir T -> p ∈ A -> p <> pgdir -> (forall d, T !! d <> Some p) ->
  (forall s', use_lock s' = use_lock s -> kctx_of s' = kctx_of s -> vm_ok end_ s' (p :: l) (A ∖ {[p]}) pgdir T ->
     (forall a, ~ in_page p a -> kmemory s' a = kmemory s a) ->
     (forall w, 0 <= w -> ptes (kmemory s') T w = ptes (kmemory s) T w) -> Q tt s') ->
  wp (kfree end_ p) Q s.
Proof.
  intros V Hp Hne Ht HQ. pose proof V as [K O D P T1 T2]. destruct (O p Hp) as [Hpp Hpl].
  eapply wp_kfree; [exact K|done|done|]. intros m' Hm' s' K'. apply HQ; try done.
  - constructor; try done.
    + intros q Hq. apply elem_of_difference in Hq as [Hq Hqp]. destruct (O q Hq) as [H1 H2]. split; [done|].
      rewrite not_elem_of_cons. set_solver.
    + set_solver.
    + intros d Hd. cbn [kmemory]. destruct (O pgdir D) as [Hpg _]. destruct (page_word _ _ d Hpg Hd) as (W1 & W2 & _ & _ & W5).
      rewrite (load32_same (kmemory s)); [by apply P|lia|lia|]. intros x Hx. apply Hm'. intros Ha.
      apply Hne. eapply pages_disjoint; [exact Hpp|exact Hpg|exact Ha|by apply W5].
    + intros d t Hd. destruct (T1 d t Hd) as (H1 & H2 & H3). split; [done|]. split; [|done].
      apply elem_of_difference. split; [done|]. rewrite elem_of_singleton. intros ->. by apply (Ht d).
  - intros w Hw. eapply ptes_same; [exact V|]. intros t x Hd Hx. apply Hm'. intros Hx'. apply (Ht (w / 1024)).
    destruct (T1 _ _ Hd) as (_ & H2 & _). destruct (O t H2) as [Htp _]. by rewrite (pages_disjoint _ _ _ _ Hpp Htp Hx' Hx).
Qed.

(** [ps] are mapped at page [v] on, and are pages of the user. *)
Record user_pages (s : kst) (A : gset Z) (pgdir : Z) (T : gmap Z Z) (v : Z) (ps : list Z) (perm : Z) : Prop := {
  up_nodup : NoDup ps;
  up_own : forall p, p ∈ ps -> p ∈ A /\ p <> pgdir;
  up_tab : forall p d, p ∈ ps -> T !! d <> Some p;
  up_map : forall i p, ps !! i = Some p -> ptes (kmemory s) T (v + Z.of_nat i) = entry (v2p p) perm }.

Lemma entry_table m T v pa perm : 0 <= perm -> ptes m T v = entry pa perm -> exists t, T !! (v / 1024) = Some t.
Proof.
  intros Hp E. unfold ptes in E. destruct (T !! (v / 1024)); [eauto|]. pose proof (entry_present pa perm) as H. rewrite <- E in H. done.
Qed.

Lemma difference_cons (A : gset Z) p ps : A ∖ list_to_set (p :: ps) = A ∖ {[p]} ∖ list_to_set ps.
Proof. rewrite list_to_set_cons. set_solver. Qed.

Lemma elem_without (A : gset Z) p q : q ∈ A -> q <> p -> q ∈ A ∖ {[p]}.
Proof. set_solver. Qed.

Lemma wp_deallocuvm_loop ps fuel s l A pgdir T v oldsz perm (Q : unit -> kst -> Prop) :
  vm_ok end_ s l A pgdir T -> 0 <= v -> oldsz <= KERNBASE -> oldsz <= 4096 * (v + Z.of_nat (length ps)) ->
  (ps <> [] -> 4096 * (v + Z.of_nat (length ps) - 1) < oldsz) -> (length ps < fuel)%nat -> 0 <= perm < 4096 ->
  (forall p, p ∈ ps -> p <> KERNBASE) -> user_pages s A pgdir T v ps perm ->
  (forall s', vm_ok end_ s' (rev ps ++ l) (A ∖ list_to_set ps) pgdir T -> use_lock s' = use_lock s -> kctx_of s' = kctx_of s ->
     (forall w, 0 <= w -> ptes (kmemory s') T w = if decide (v <= w < v + Z.of_nat (length ps)) then 0 else ptes (kmemory s) T w) ->
     (forall p a, p ∈ A -> (p ∉ ps) -> (forall d, T !! d <> Some p) -> in_page p a -> kmemory s' a = kmemory s a) -> Q tt s') ->
  wp (deallocuvm_loop end_ fuel pgdir (4096 * v) oldsz) Q s.
Proof.
  revert fuel s l A v. induction ps as [|p ps IH]; intros fuel s l A v V Hv Hk Hle Hlt Hf Hperm Hpk [U1 U2 U3 U4] HQ;
    (destruct fuel as [|fuel]; [cbn in Hf; lia|]); cbn [deallocuvm_loop]; unfold KERNBASE in Hk; cbn [length] in *.
  - rewrite (proj2 (Z.ltb_ge _ _)) by lia. wp_steps. apply HQ; try done.
    + by rewrite list_to_set_nil, difference_empty_L.
    + intros w Hw. rewrite decide_False by lia. done.
  - specialize (Hlt ltac:(done)). rewrite (proj2 (Z.ltb_lt _ _)) by lia. wp_steps.
    assert (0 <= 4096 * v < 2 ^ 32) as Hva by lia.
    assert (4096 * v / 4096 = v) as Hdv by (rewrite Z.mul_comm; apply Z.div_mul; lia).
    destruct (PDX_div (4096 * v) Hva) as [Hpd _]. rewrite Hdv in Hpd.
    pose proof (U4 0%nat p eq_refl) as Hent. rewrite Z.add_0_r in Hent.
    destruct (entry_table _ _ _ _ _ (proj1 Hperm) Hent) as [t Ht]. rewrite <- Hpd in Ht.
    eapply wp_walk_find; [exact V|done|exact Ht|]. destruct (tab_addr _ _ _ _ _ _ _ _ V Hva Ht) as (_ & _ & _ & Hz & _ & Hpte).
    rewrite Hdv in Hpte. unfold load_pte. rewrite (proj2 (Z.eqb_neq _ _) Hz). wp_steps. rewrite <- Hpte, Hent, entry_present. cbn [Z.eqb negb].
    destruct (U2 p) as [HpA Hpd']; [left|]. destruct (vo_own _ _ _ _ _ _ V _ HpA) as [Hpp _]. destruct (v2p_page _ _ Hpp) as (Hv1 & Hv2 & Hv3 & Hv4).
    assert (PTE_ADDR (entry (v2p p) perm) = v2p p) as ->.
    { rewrite entry_add by done. apply PTE_ADDR_add; [done|by apply lor_flags]. }
    assert (v2p p <> 0) as Hnz by (rewrite Hv1; specialize (Hpk p ltac:(left)); lia).
    rewrite (proj2 (Z.eqb_neq _ _) Hnz), Hv4. wp_steps.
    eapply wp_vm_kfree; [exact V|done|done|intros d; apply U3; left|]. intros s1 Eu1 Ec1 V1 Hm1 Hp1.
    unfold store_pte, set_mem. rewrite (proj2 (Z.eqb_neq _ _) Hz). wp_steps.
    destruct (store_grew _ s1 _ _ pgdir T (4096 * v) t 0 V1 Hva Ht ltac:(lia)) as [G2 Hp2]. rewrite Hdv in Hp2.
    pose proof (vg_ok _ _ _ _ _ _ _ _ _ G2) as V2. destruct (vg_frame _ _ _ _ _ _ _ _ _ G2) as (_ & _ & F2).
    unfold PGSIZE. rewrite u32_small by lia. replace (4096 * v + 4096) with (4096 * (v + 1)) by lia.
    apply list.NoDup_cons in U1 as [U1' U1].
    eapply (IH fuel _ _ _ (v + 1)); [exact V2|lia|exact Hk|lia|lia|lia|done|intros q Hq; apply Hpk; by right| |].
    + constructor; [done| |intros q d Hq; apply U3; by right|].
      * intros q Hq. destruct (U2 q) as [H1 H2]; [by right|]. split; [|done]. apply elem_without; [done|]. by intros ->.
      * intros i q Hi. rewrite Hp2, Hp1, decide_False by lia. rewrite <- (U4 (S i) q Hi). f_equal. lia.
    + intros s3 V3 Eu3 Ec3 Hp3 Hm3. cbn [use_lock kctx_of] in Eu3, Ec3. apply HQ; [|congruence|congruence| |].
      * cbn [rev]. rewrite <- app_assoc. cbn [app]. rewrite difference_cons. done.
      * intros w Hw. rewrite Hp3, Hp2, Hp1 by done. destruct (decide (w = v)) as [->|Hne].
        -- rewrite decide_False, decide_True by lia. done.
        -- destruct (decide (v + 1 <= w < v + 1 + Z.of_nat (length ps))); [rewrite decide_True by lia|rewrite decide_False by lia]; done.
      * intros q a HqA Hqn Hqt Ha. apply not_elem_of_cons in Hqn as [Hqp Hqn].
        rewrite (Hm3 q a); [|by apply elem_without|done|done|done]. destruct (vo_own _ _ _ _ _ _ V _ HqA) as [Hqq _].
        destruct (decide (q = pgdir)) as [->|Hqd].
        -- destruct (vm_ok_store _ _ _ _ _ _ _ _ (PTX (4096 * v)) 0 V1 Ht) as (_ & _ & _ & F4);
             [rewrite PTX_mod; apply Z.mod_pos_bound; lia|]. rewrite (F4 pgdir a); [|apply V1| |done].
           { apply Hm1. intros Ha'. apply Hqp. by eapply pages_disjoint. }
           by destruct (vo_tab _ _ _ _ _ _ V _ _ Ht) as (_ & _ & ?).
        -- rewrite (F2 q a); [|by apply elem_without|done|done|done]. apply Hm1. intros Ha'. apply Hqp. by eapply pages_disjoint.
Qed.

(** ** Growing an address space and shrinking it again *)

(** The number of the first page at or after [a]. *)
Definition pages_to (a : Z) : Z := (a + 4095) / 4096.

Lemma PGROUNDUP_pages a : 0 <= a < 2 ^ 31 -> PGROUNDUP a = 4096 * pages_to a.
Proof.
  intros Ha. unfold PGROUNDUP, pages_to. rewrite u32_small by (unfold PGSIZE; lia). unfold PGSIZE. change (4096 - 1) with (Z.ones 12).
  rewrite Z.ldiff_ones_r, Z.shiftl_mul_pow2, Z.shiftr_div_pow2 by lia. change (2 ^ 12) with 4096.
  replace (a + 4096 - 1) with (a + 4095) by lia. lia.
Qed.

Lemma pages_to_bounds a : 0 <= a -> 0 <= pages_to a /\ 4096 * (pages_to a - 1) < a <= 4096 * pages_to a.
Proof. intros Ha. unfold pages_to. pose proof (Z.div_mod (a + 4095) 4096). pose proof (Z.mod_pos_bound (a + 4095) 4096). lia. Qed.

Lemma pages_to_mono a b : a <= b -> pages_to a <= pages_to b.
Proof. intros. unfold pages_to. apply Z.div_le_mono; lia. Qed.

Lemma pages_to_fuel a : pages_to a <= a / 4096 + 1.
Proof.
  unfold pages_to. replace (a + 4095) with (a - 1 + 1 * 4096) by lia. rewrite Z.div_add by lia.
  assert ((a - 1) / 4096 <= a / 4096) by (apply Z.div_le_mono; lia). lia.
Qed.

Hypothesis end_range : KERNBASE < end_.

Lemma page_not_base p : page end_ p -> p <> KERNBASE.
Proof. intros (_ & H & _). lia. Qed.

Lemma new_user_pages s A s' l' A' pgdir T' v ps perm m T :
  vm_ok end_ s' l' A' pgdir T' -> new_pages A A' pgdir T' ps -> maps m T (kmemory s') T' v ps perm ->
  s = s' -> user_pages s A' pgdir T' v ps perm.
Proof.
  intros V [N1 N2 N3] [M1 M2] ->. constructor; try done. intros p Hp. destruct (N2 p Hp) as (_ & _ & ? & ?). done.
Qed.

Lemma wp_allocuvm s l A pgdir T oldsz newsz (Q : Z -> kst -> Prop) :
  vm_ok end_ s l A pgdir T -> 0 <= oldsz <= newsz -> newsz < KERNBASE ->
  (forall w, pages_to oldsz <= w < pages_to newsz -> ptes (kmemory s) T w = 0) ->
  2 * (pages_to newsz - pages_to oldsz) <= Z.of_nat (length l) ->
  (forall s1 l1 A1 T1 ps, vm_grew end_ s A pgdir T s1 l1 A1 T1 -> new_pages A A1 pgdir T1 ps -> zeroed s1 ps ->
     Z.of_nat (length ps) = pages_to newsz - pages_to oldsz ->
     maps (kmemory s) T (kmemory s1) T1 (pages_to oldsz) ps 6 -> Q newsz s1) ->
  wp (allocuvm end_ pgdir oldsz newsz) Q s.
Proof.
  intros V Ho Hk Hfree Hl HQ. unfold KERNBASE in *. pose proof (pages_to_mono oldsz newsz ltac:(lia)) as Hmono.
  destruct (pages_to_bounds oldsz ltac:(lia)) as [Hv0 Hvo]. destruct (pages_to_bounds newsz ltac:(lia)) as [_ Hvn].
  unfold allocuvm, KERNBASE. rewrite (proj2 (Z.leb_gt _ _)), (proj2 (Z.ltb_ge _ _)) by lia. rewrite PGROUNDUP_pages by lia.
  pose proof (pages_to_fuel newsz).
  eapply (wp_allocuvm_loop (Z.to_nat (pages_to newsz - pages_to oldsz)));
    [exact V|lia|unfold KERNBASE; lia|lia|lia|unfold PGSIZE; lia|lia| |lia|].
  - intros w Hw. rewrite Hfree by lia. done.
  - intros s1 l1 A1 T1 ps G N Hz Hlen M _. rewrite i32_small by lia. eapply HQ; try done; lia.
Qed.

(** C29: allocuvm with enough free pages returns the new size: each page between the two sizes
    is mapped, writable by the user, to a zeroed page that nobody owned, and no other entry
    changes.  deallocuvm from the new size to the old one then gives all these pages back
    to the allocator and leaves exactly the mapping there was. *)
Theorem allocuvm_deallocuvm s l A pgdir T oldsz newsz :
  vm_ok end_ s l A pgdir T -> 0 <= oldsz <= newsz -> newsz < KERNBASE ->
  (forall w, pages_to oldsz <= w < pages_to newsz -> ptes (kmemory s) T w = 0) ->
  2 * (pages_to newsz - pages_to oldsz) <= Z.of_nat (length l) ->
  exists s1 l1 A1 T1 ps s2,
    allocuvm end_ pgdir oldsz newsz s = Ret newsz s1 /\ vm_grew end_ s A pgdir T s1 l1 A1 T1 /\
    new_pages A A1 pgdir T1 ps /\ zeroed s1 ps /\ Z.of_nat (length ps) = pages_to newsz - pages_to oldsz /\
    maps (kmemory s) T (kmemory s1) T1 (pages_to oldsz) ps (Z.lor PTE_W PTE_U) /\
    deallocuvm end_ pgdir newsz oldsz s1 = Ret oldsz s2 /\ vm_ok end_ s2 (rev ps ++ l1) (A1 ∖ list_to_set ps) pgdir T1 /\
    (forall w, 0 <= w -> ptes (kmemory s2) T1 w = ptes (kmemory s) T w).
Proof.
  intros V Ho Hk Hfree Hl. pose proof (pages_to_mono oldsz newsz ltac:(lia)) as Hmono.
  assert (wp (allocuvm end_ pgdir oldsz newsz) (fun r s1 => r = newsz /\ exists l1 A1 T1 ps, vm_grew end_ s A pgdir T s1 l1 A1 T1 /\
    new_pages A A1 pgdir T1 ps /\ zeroed s1 ps /\ Z.of_nat (length ps) = pages_to newsz - pages_to oldsz /\
    maps (kmemory s) T (kmemory s1) T1 (pages_to oldsz) ps 6) s)
    as (r & s1 & E1 & -> & l1 & A1 & T1 & ps & G & N & Hz & Hlen & M)%wp_run.
  { eapply wp_allocuvm; [exact V|done..|]. intros. eauto 10. }
  unfold KERNBASE in *. destruct (pages_to_bounds oldsz ltac:(lia)) as [Hv0 Hvo].
  destruct (pages_to_bounds newsz ltac:(lia)) as [_ Hvn]. set (v := pages_to oldsz) in *.
  pose proof (vg_ok _ _ _ _ _ _ _ _ _ G) as V1.
  assert (wp (deallocuvm end_ pgdir newsz oldsz) (fun r s2 => r = oldsz /\ vm_ok end_ s2 (rev ps ++ l1) (A1 ∖ list_to_set ps) pgdir T1 /\
    (forall w, 0 <= w -> ptes (kmemory s2) T1 w = ptes (kmemory s) T w)) s1) as (r & s2 & E2 & -> & V2 & Hp2)%wp_run.
  { unfold deallocuvm. destruct (Z.leb_spec newsz oldsz) as [Hle|Hlt].
    - assert (oldsz = newsz) as -> by lia. wp_steps. split; [apply i32_small; lia|]. destruct ps as [|p ps]; [|cbn in Hlen; unfold v in *; lia].
      cbn [rev app]. rewrite list_to_set_nil, difference_empty_L. split; [done|]. intros w Hw. apply (mp_out _ _ _ _ _ _ _ M); cbn; lia.
    - wp_steps. rewrite PGROUNDUP_pages by lia. fold v.
      eapply (wp_deallocuvm_loop ps _ s1 l1 A1 pgdir T1 v newsz 6); [exact V1|lia|unfold KERNBASE; lia|lia|lia| |lia| | |].
      + pose proof (pages_to_fuel newsz). unfold PGSIZE. lia.
      + intros p Hp. apply page_not_base. by destruct (np_page _ _ _ _ _ N p Hp) as (? & _).
      + by eapply new_user_pages.
      + intros s2 V2 _ _ Hp2 _. wp_steps. split; [apply i32_small; lia|]. split; [done|]. intros w Hw. rewrite Hp2 by done.
        case_decide as Hc; [symmetry; apply Hfree; lia|]. by apply (mp_out _ _ _ _ _ _ _ M). }
  exists s1, l1, A1, T1, ps, s2. split_and!; try done; lia.
Qed.
End Uvm.
