(* ===== verification/Copyuvm.v ===== *)
(** * vm.c: the kernel part of an address space, and its copy for fork

    setupkvm maps exactly the table kmap; copyuvm builds a second address space with the
    same contents in pages of its own. *)

From stdpp Require Import base list numbers strings gmap sets.
From S2P Require Import Prelude CString Spinlock Kalloc Vm Uvm.
Import Ctx Mem.

Open Scope Z_scope.
Local Open Scope kernel_scope.

(** ** The kernel's mappings *)

Definition k_size (k : kmap_entry) : Z := u32 (k_phys_end k - k_phys_start k).

(** The entry that [k] gives for virtual page [w]. *)
Definition kpte (k : kmap_entry) (w : Z) : option Z :=
  let v := k_virt k / 4096 in
  if decide (v <= w < v + k_size k / 4096) then Some (entry (k_phys_start k + 4096 * (w - v)) (k_perm k)) else None.

Fixpoint kernel_pte (ks : list kmap_entry) (w : Z) : option Z :=
  match ks with
  | [] => None
  | k :: ks => match kpte k w with Some e => Some e | None => kernel_pte ks w end
  end.

Lemma kernel_pte_none ks w : (forall k, k ∈ ks -> kpte k w = None) -> kernel_pte ks w = None.
Proof.
  induction ks as [|k ks IH]; intros H; [done|]. cbn. rewrite H by left. apply IH. intros k' Hk'. apply H. by right.
Qed.

(** [k] covers [n + 1] whole pages from page [v] on. *)
Record kgood (k : kmap_entry) (v : Z) (n : nat) : Prop := {
  kg_virt : k_virt k = 4096 * v;
  kg_size : k_size k = 4096 * (Z.of_nat n + 1);
  kg_range : 0 <= v /\ v + Z.of_nat n < 2 ^ 20;
  kg_phys : 0 <= k_phys_start k /\ k_phys_start k mod 4096 = 0 /\ k_phys_start k + 4096 * Z.of_nat n < 2 ^ 32;
  kg_perm : 0 <= k_perm k < 4096 }.

Definition k_tables (k : kmap_entry) : Z := k_size k / 4096 / 1024 + 2.

Fixpoint kdisjoint (ks : list kmap_entry) : Prop :=
  match ks with
  | [] => True
  | k :: ks => (forall w k', k' ∈ ks -> kpte k w <> None -> kpte k' w = None) /\ kdisjoint ks
  end.

Lemma kpte_good k v n w : kgood k v n ->
  kpte k w = if decide (v <= w <= v + Z.of_nat n) then Some (entry (k_phys_start k + 4096 * (w - v)) (k_perm k)) else None.
Proof.
  intros [G1 G2 _ _ _]. unfold kpte. rewrite G1, G2, (Z.mul_comm 4096 v), (Z.mul_comm 4096 (_ + 1)), !Z.div_mul by lia.
  destruct (decide (v <= w <= v + Z.of_nat n)); [rewrite decide_True by lia|rewrite decide_False by lia]; done.
Qed.

Section Copy.
Variable end_ data : Z.

Definition sum_tables (ks : list kmap_entry) : Z := foldr (fun k n => k_tables k + n) 0 ks.

Lemma tables_good k v n T : kgood k v n -> tables T v (Z.of_nat n) <= k_tables k.
Proof.
  intros [_ G2 [G3 _] _ _]. unfold tables, k_tables. rewrite G2, (Z.mul_comm 4096), Z.div_mul by lia.
  assert ((v + Z.of_nat n) / 1024 <= v / 1024 + (Z.of_nat n + 1) / 1024 + 1).
  { pose proof (Z.div_mod v 1024). pose proof (Z.mod_pos_bound v 1024). pose proof (Z.div_mod (Z.of_nat n + 1) 1024).
    pose proof (Z.mod_pos_bound (Z.of_nat n + 1) 1024). pose proof (Z.div_mod (v + Z.of_nat n) 1024). pose proof (Z.mod_pos_bound (v + Z.of_nat n) 1024). lia. }
  case_decide; lia.
Qed.

Lemma wp_setupkvm_loop ks s l A d T (Q : Z -> kst -> Prop) :
  vm_ok end_ s l A d T -> Forall (fun k => exists v n, kgood k v n) ks -> kdisjoint ks ->
  (forall k w, k ∈ ks -> kpte k w <> None -> ptes (kmemory s) T w = 0) -> sum_tables ks <= Z.of_nat (length l) ->
  (forall s' l' A' T', vm_grew end_ s A d T s' l' A' T' ->
     (forall w, 0 <= w -> ptes (kmemory s') T' w = default (ptes (kmemory s) T w) (kernel_pte ks w)) ->
     Z.of_nat (length l) - sum_tables ks <= Z.of_nat (length l') -> Q d s') ->
  wp (setupkvm_loop ks d) Q s.
Proof.
  revert s l A T. induction ks as [|k ks IH]; intros s l A T V Hg Hd Hfree Hl HQ; cbn [setupkvm_loop]; wp_steps.
  - eapply HQ; [by apply vm_grew_refl|done|cbn; lia].
  - apply list.Forall_cons in Hg as [(v & n & G) Hg]. destruct Hd as [Hd1 Hd]. cbn [sum_tables foldr] in *. fold (sum_tables ks) in *.
    pose proof (tables_good k v n T G) as Ht. pose proof G as [G1 G2 [G3 G4] [G5 [G6 G7]] G8]. fold (k_size k). rewrite G1, G2.
    assert (0 <= sum_tables ks) as Hs0.
    { clear -Hg. induction Hg as [|k' ks (v & n & G) _ IHg]; [done|]. cbn [sum_tables foldr]. fold (sum_tables ks).
      pose proof (tables_good k' v n ∅ G). unfold k_tables. rewrite (kg_size _ _ _ G), (Z.mul_comm 4096), Z.div_mul by lia.
      assert (0 <= (Z.of_nat n + 1) / 1024) by (apply Z.div_pos; lia). lia. }
    eapply (wp_mappages end_ n s l A d T v); [exact V|lia|lia|lia|done|lia|done| |lia|].
    { intros w Hw. rewrite (Hfree k w); [done|left|]. rewrite (kpte_good _ _ _ _ G), decide_True by lia. done. }
    intros s1 l1 A1 T1 Gr Hp1 Hl1. cbn [Z.ltb Z.compare]. eapply (IH s1 l1 A1 T1); [apply Gr|done|done| |lia|].
    { intros k' w Hk' Hw. assert (kpte k w = None) as Hn by (destruct (kpte k w) eqn:E; [|done]; exfalso; apply Hw; apply (Hd1 w k' Hk'); by rewrite E).
      assert (0 <= w) as Hw0.
      { rewrite list.Forall_forall in Hg. destruct (Hg k' Hk') as (v' & n' & G'). rewrite (kpte_good _ _ _ _ G') in Hw. case_decide; [|done].
        destruct (kg_range _ _ _ G'). lia. }
      rewrite (kpte_good _ _ _ _ G) in Hn. rewrite Hp1 by done. case_decide; [done|]. apply (Hfree k' w); [by right|done]. }
    intros s2 l2 A2 T2 Gr2 Hp2 Hl2. eapply HQ; [by eapply vm_grew_trans| |lia]. intros w Hw. rewrite Hp2, Hp1 by done.
    cbn [kernel_pte]. rewrite (kpte_good _ _ _ _ G). case_decide as Hc; [|done].
    rewrite kernel_pte_none; [done|]. intros k' Hk'. apply (Hd1 w k' Hk'). rewrite (kpte_good _ _ _ _ G), decide_True by done. done.
Qed.

(** data is a page between the kernel's text and the top of memory: page [dq] after KERNBASE. *)
Context (dq : Z) (Hdata : data = KERNBASE + 4096 * dq) (Hdq : 256 < dq < 57344).

Lemma kgood_size k v m :
  k_virt k = 4096 * v -> k_size k = 4096 * m -> 0 <= v -> 0 < m -> v + m <= 2 ^ 20 ->
  0 <= k_phys_start k -> k_phys_start k mod 4096 = 0 -> k_phys_start k + 4096 * m <= 2 ^ 32 -> 0 <= k_perm k < 4096 ->
  kgood k v (Z.to_nat (m - 1)).
Proof. intros. constructor; rewrite ?Z2Nat.id by lia; try done; try lia. Qed.

Lemma kmap_good : Forall2 (fun k vm => kgood k (fst vm) (Z.to_nat (snd vm - 1))) (kmap data)
  [(524288, 256); (524544, dq - 256); (524288 + dq, 57344 - dq); (1040384, 8192)].
Proof.
  assert (v2p data = 4096 * dq) as Hv by (rewrite Hdata; unfold v2p; replace (KERNBASE + 4096 * dq - KERNBASE) with (4096 * dq) by lia; apply u32_small; lia).
  unfold kmap. rewrite Hv. change (v2p KERNLINK) with (4096 * 256). unfold PHYSTOP.
  assert (forall x, 4096 * x mod 4096 = 0) as Hmod by (intros x; rewrite Z.mul_comm; apply Z.mod_mul; lia).
  constructor; [|constructor; [|constructor; [|constructor; [|constructor]]]];
    (apply kgood_size; cbn [fst snd k_virt k_phys_start k_phys_end k_perm]; unfold k_size; cbn [k_phys_start k_phys_end]).
  1-9, 28-36: vm_compute; first [congruence|split; congruence|done].
  all: rewrite ?Hdata; unfold PTE_W, KERNLINK, KERNBASE, EXTMEM; try lia; try exact (Hmod _); rewrite u32_small by lia; lia.
Qed.

(** The ranges of the entries. *)
Lemma kmap_range k : k ∈ kmap data -> exists v m, kgood k v (Z.to_nat (m - 1)) /\ 0 < m /\
  (v, m) ∈ [(524288, 256); (524544, dq - 256); (524288 + dq, 57344 - dq); (1040384, 8192)].
Proof.
  intros Hk. apply list_elem_of_lookup in Hk as [i Hi]. destruct (Forall2_lookup_l _ _ _ _ _ kmap_good Hi) as ([v m] & Hm & G).
  exists v, m. split; [exact G|]. split; [|by eapply list_elem_of_lookup_2].
  do 4 (destruct i as [|i]; [injection Hm as <- <-; lia|]). done.
Qed.

Lemma kpte_range k v m w : kgood k v (Z.to_nat (m - 1)) -> 0 < m -> kpte k w <> None <-> v <= w < v + m.
Proof.
  intros G Hm. rewrite (kpte_good _ _ _ _ G), Z2Nat.id by lia. case_decide; split; intros; try done; try lia.
Qed.

Fixpoint ascending (l : list (Z * Z)) : Prop :=
  match l with [] => True | (v, m) :: l => 0 < m /\ Forall (fun x => v + m <= fst x) l /\ ascending l end.

Lemma ascending_disjoint ks l :
  Forall2 (fun k vm => kgood k (fst vm) (Z.to_nat (snd vm - 1))) ks l -> ascending l -> kdisjoint ks.
Proof.
  induction 1 as [|k [v m] ks l G HF IH]; [done|]. cbn [ascending kdisjoint fst snd] in *. intros (Hm & Hle & Ha). split; [|by apply IH].
  intros w k' Hk' Hw. apply (kpte_range _ _ _ _ G Hm) in Hw. apply list_elem_of_lookup in Hk' as [i Hi].
  destruct (Forall2_lookup_l _ _ _ _ _ HF Hi) as ([v' m'] & Hl & G'). rewrite list.Forall_forall in Hle.
  specialize (Hle _ (list_elem_of_lookup_2 _ _ _ Hl)). cbn in Hle. destruct (kpte k' w) eqn:E; [|done].
  assert (v' <= w) as Hv; [|lia]. rewrite (kpte_good _ _ _ _ G') in E. case_decide; [cbn in *; lia|done].
Qed.

Lemma kmap_disjoint : kdisjoint (kmap data).
Proof.
  eapply ascending_disjoint; [apply kmap_good|]. cbn [ascending].
  rewrite !list.Forall_cons, !list.Forall_nil. cbn [fst]. lia.
Qed.

Lemma kmap_tables : sum_tables (kmap data) <= 71.
Proof.
  pose proof kmap_good as HG. unfold kmap in *. repeat match goal with H : Forall2 _ (_ :: _) (_ :: _) |- _ => apply Forall2_cons_1 in H as [? H] end.
  cbn [fst snd] in *. cbn [sum_tables foldr]. unfold k_tables. repeat match goal with H : kgood ?k _ _ |- _ => rewrite (kg_size _ _ _ H); clear H end.
  rewrite !Z2Nat.id by lia. rewrite !(Z.mul_comm 4096), !Z.div_mul by lia.
  replace (dq - 256 - 1 + 1) with (dq - 256) by lia. replace (57344 - dq - 1 + 1) with (57344 - dq) by lia.
  change ((256 - 1 + 1) / 1024) with 0. change ((8192 - 1 + 1) / 1024) with 8.
  pose proof (Z.div_mod (dq - 256) 1024). pose proof (Z.mod_pos_bound (dq - 256) 1024).
  pose proof (Z.div_mod (57344 - dq) 1024). pose proof (Z.mod_pos_bound (57344 - dq) 1024). lia.
Qed.

Lemma kernel_pte_user w : w < 524288 -> kernel_pte (kmap data) w = None.
Proof.
  intros Hw. apply kernel_pte_none. intros k Hk. destruct (kmap_range k Hk) as (v & m & G & Hm & Hin).
  destruct (kpte k w) eqn:E; [|done]. assert (kpte k w <> None) as Hn by (by rewrite E). apply (kpte_range _ _ _ _ G Hm) in Hn.
  rewrite !elem_of_cons, elem_of_nil in Hin. destruct Hin as [[= -> ->]|[[= -> ->]|[[= -> ->]|[[= -> ->]|[]]]]]; lia.
Qed.

(** ** setupkvm *)

(** The pages of [A] have kept their contents. *)
Definition kept (A : gset Z) (s s' : kst) : Prop :=
  use_lock s' = use_lock s /\ kctx_of s' = kctx_of s /\ forall p a, p ∈ A -> in_page p a -> kmemory s' a = kmemory s a.

(** A directory of its own, with tables of its own. *)
Record apart (A : gset Z) (d : Z) (T : gmap Z Z) : Prop := {
  ap_dir : d ∉ A;
  ap_tab : forall i t, T !! i = Some t -> t ∉ A }.

Lemma apart_kept A s A1 d T s' l' A' T' :
  apart A d T -> A ⊆ A1 -> vm_grew end_ s A1 d T s' l' A' T' -> kept A s s' /\ apart A d T' /\ A ⊆ A'.
Proof.
  intros [P1 P2] HA [V I N O (F1 & F2 & F3)]. split; [|split; [|set_solver]].
  - split; [done|]. split; [done|]. intros p a Hp Ha. apply (F3 p a); [by apply HA|by intros ->| |done]. intros i Hi. by apply (P2 i p).
  - constructor; [done|]. intros i t Ht. destruct (N i t Ht) as [H|H]; [by apply (P2 i)|set_solver].
Qed.

Lemma kept_trans A s s1 s2 : kept A s s1 -> kept A s1 s2 -> kept A s s2.
Proof.
  intros (A1 & A2 & A3) (B1 & B2 & B3). split; [congruence|]. split; [congruence|]. intros p a Hp Ha. by rewrite (B3 p), (A3 p).
Qed.

(** An empty directory. *)
Lemma new_dir s l A d : kmem_ok end_ s l -> (forall p, p ∈ A -> page end_ p /\ p ∉ l) -> page end_ d -> d ∉ l -> d ∉ A ->
  (forall a, in_page d a -> kmemory s a = 0) -> vm_ok end_ s l ({[d]} ∪ A) d ∅.
Proof.
  clear dq Hdata Hdq.
  intros K O Hd Hdl HdA Hz. constructor; [done| |set_solver| |done|done].
  - intros p [->%elem_of_singleton|Hp]%elem_of_union; [done|by apply O].
  - intros i Hi. rewrite lookup_empty. destruct (page_word _ _ i Hd Hi) as (W1 & W2 & _ & _ & W5).
    rewrite load32_zero; [done|lia|lia|]. intros x Hx. by apply Hz, W5.
Qed.

Lemma wp_setupkvm s l A pgdir T (Q : Z -> kst -> Prop) :
  vm_ok end_ s l A pgdir T -> (72 <= length l)%nat ->
  (forall d s' l' A' T', vm_ok end_ s' l' A' d T' -> page end_ d -> A ⊆ A' -> apart A d T' -> kept A s s' ->
     (forall w, 0 <= w -> ptes (kmemory s') T' w = default 0 (kernel_pte (kmap data) w)) ->
     (length l <= 72 + length l')%nat -> Q d s') ->
  wp (setupkvm data) Q s.
Proof.
  intros V Hl HQ. unfold setupkvm. destruct l as [|d l]; [cbn in Hl; lia|]. cbn [length] in Hl.
  apply wp_alloc_zeroed with (1 := V). intros s1 G1 Hd HdA Hout Hz _. pose proof (vg_ok _ _ _ _ _ _ _ _ _ G1) as V1.
  change (DEVSPACE <? p2v PHYSTOP) with false. cbn match. pose proof kmap_tables as Hkt.
  assert (vm_ok end_ s1 l ({[d]} ∪ A) d ∅) as Vd.
  { apply new_dir; [apply V1| |done| |done|done].
    - intros p Hp. apply (vo_own _ _ _ _ _ _ V1). by apply in_old.
    - apply (vo_own _ _ _ _ _ _ V1), in_new. }
  assert (kept A s s1) as K1.
  { destruct (vg_frame _ _ _ _ _ _ _ _ _ G1) as (F1 & F2 & _). split; [done|]. split; [done|]. intros p a Hp Ha. apply Hout. intros Ha'.
    destruct (vo_own _ _ _ _ _ _ V _ Hp) as [Hpp _]. apply HdA. by rewrite <- (pages_disjoint _ _ _ _ Hpp Hd Ha Ha'). }
  eapply wp_setupkvm_loop; [exact Vd| |exact kmap_disjoint|intros; unfold ptes; by rewrite lookup_empty|lia|].
  - apply list.Forall_forall. intros k Hk. destruct (kmap_range k Hk) as (v & m & G & _). eauto.
  - intros s2 l2 A2 T2 G2 Hp2 Hl2. destruct (apart_kept A s1 ({[d]} ∪ A) d ∅ s2 l2 A2 T2) as (K2 & P2 & HA2); [|apply union_subseteq_r|exact G2|].
    { constructor; [done|]. intros i t Ht. by rewrite lookup_empty in Ht. }
    eapply HQ; [apply G2|done|done|done|by eapply kept_trans| |cbn [length]; lia].
    intros w Hw. rewrite Hp2 by done. unfold ptes at 1. by rewrite lookup_empty.
Qed.

(** ** copyuvm *)

(** The parent keeps its page table when pages of [A] keep their contents. *)
Lemma vm_ok_kept s l A pgdir T s' l' A' d' T' :
  vm_ok end_ s l A pgdir T -> kept A s s' -> A ⊆ A' -> vm_ok end_ s' l' A' d' T' -> vm_ok end_ s' l' A' pgdir T.
Proof.
  intros [K O D P T1 T2] (_ & _ & Hk) HA V'. constructor; [apply V'|apply V'|by apply HA| | |done].
  - intros i Hi. destruct (O pgdir D) as [Hpg _]. destruct (page_word _ _ i Hpg Hi) as (W1 & W2 & _ & _ & W5).
    rewrite (load32_same (kmemory s)); [by apply P|lia|lia|]. intros x Hx. apply (Hk pgdir); [done|by apply W5].
  - intros i t Ht. destruct (T1 i t Ht) as (H1 & H2 & H3). auto.
Qed.

Lemma ptes_kept s l A pgdir T s' w :
  vm_ok end_ s l A pgdir T -> kept A s s' -> ptes (kmemory s') T w = ptes (kmemory s) T w.
Proof.
  intros V (_ & _ & Hk). eapply ptes_same; [exact V|]. intros t x Ht Hx. apply (Hk t); [|done].
  by destruct (vo_tab _ _ _ _ _ _ V _ _ Ht) as (_ & ? & _).
Qed.

(** The parent: [ps] are the pages of its memory, from address 0 on, with their flags. *)
Record parent (s : kst) (A : gset Z) (T : gmap Z Z) (ps : list (Z * Z)) : Prop := {
  pa_own : forall p f, (p, f) ∈ ps -> p ∈ A /\ 0 <= f < 4096 /\ f mod 2 = 1;
  pa_map : forall i p f, ps !! i = Some (p, f) -> ptes (kmemory s) T (Z.of_nat i) = v2p p + f }.

(** The child after [i] pages: [qs] are its pages, with the contents of the parent's. *)
Record child (s0 : kst) (A : gset Z) (ps : list (Z * Z)) (s : kst) (l : list Z) (A' : gset Z) (d : Z) (T : gmap Z Z) (qs : list Z) : Prop := {
  ch_ok : vm_ok end_ s l A' d T;
  ch_dir : page end_ d;
  ch_sub : A ⊆ A';
  ch_apart : apart A d T;
  ch_kept : kept A s0 s;
  ch_new : new_pages end_ A A' d T qs;
  ch_map : forall i q p f, qs !! i = Some q -> ps !! i = Some (p, f) -> ptes (kmemory s) T (Z.of_nat i) = v2p q + f;
  ch_data : forall i q p f o, qs !! i = Some q -> ps !! i = Some (p, f) -> 0 <= o < PGSIZE ->
    kmemory s (q + o) = kmemory s0 (p + o);
  ch_rest : forall w, Z.of_nat (length qs) <= w -> ptes (kmemory s) T w = default 0 (kernel_pte (kmap data) w) }.

Lemma entry_odd x f : x mod 4096 = 0 -> 0 <= f < 4096 -> f mod 2 = 1 -> entry x f = x + f.
Proof.
  clear dq Hdata Hdq.
  intros Hx Hf Ho. rewrite entry_add by done. f_equal. apply Z.bits_inj'. intros n Hn. rewrite Z.lor_spec. unfold PTE_P.
  destruct (decide (n = 0)) as [->|Hne].
  - change (Z.testbit 1 0) with true. rewrite orb_true_r. symmetry. rewrite Z.bit0_odd, Zodd_mod, Ho. done.
  - rewrite (Z.bits_above_log2 1 n), orb_false_r by (cbn; lia). done.
Qed.

(** The copy of one page into a new one. *)
Lemma wp_copy_contents s q l A' d Td p A (e1 : M kst Z) (k : Z -> M kst Z) (Q : Z -> kst -> Prop) :
  vm_ok end_ s (q :: l) A' d Td -> A ⊆ A' -> p ∈ A -> apart A d Td ->
  (forall s1, vm_grew end_ s A' d Td s1 l ({[q]} ∪ A') Td -> page end_ q -> q ∉ A' ->
     (forall w, ptes (kmemory s1) Td w = ptes (kmemory s) Td w) ->
     (forall o, 0 <= o < PGSIZE -> kmemory s1 (q + o) = kmemory s (p + o)) ->
     (forall a, ~ in_page q a -> kmemory s1 a = kmemory s a) -> wp (k q) Q s1) ->
  wp (mem <- kalloc ;; if mem =? 0 then e1 else
    set_mem (fun m => snd (memmove m mem p PGSIZE)) ;; k mem) Q s.
Proof.
  intros V HA Hp Hap HK. wp_steps. eapply wp_vm_kalloc; [exact V|]. intros s1 Em Eu Ec Hq HqA V1.
  pose proof (page_range _ _ Hq) as Hr. unfold KERNBASE, PHYSTOP, PGSIZE in Hr. rewrite (proj2 (Z.eqb_neq q 0)) by lia.
  unfold set_mem. wp_steps. destruct (vo_own _ _ _ _ _ _ V p (HA p Hp)) as [Hpp _].
  pose proof (page_range _ _ Hpp) as Hrp. unfold KERNBASE, PHYSTOP, PGSIZE in Hrp.
  assert (q <> p) as Hne by (intros ->; by apply HqA, HA).
  set (m' := snd _).
  assert (forall a, m' a = if decide (in_page q a) then kmemory s (p + (a - q)) else kmemory s a) as Hm'.
  { intros a. unfold m'. rewrite memmove_spec by (unfold PGSIZE; lia). rewrite Em. unfold in_page, within, PGSIZE.
    destruct (Z.leb_spec q a), (Z.ltb_spec a (q + 4096)); cbn; case_decide; try lia; done. }
  assert (forall a, ~ in_page q a -> m' a = kmemory s a) as Hout by (intros a Ha; by rewrite Hm', decide_False).
  apply HK; cbn [kmemory]; try done.
  - constructor; auto; [|set_solver|].
    + eapply (vm_ok_write _ _ _ _ _ _ _ q); [exact V1|set_solver|intros ->; apply HqA; apply V|]. intros a Ha. by rewrite Hout, Em.
    + split; [exact Eu|]. split; [exact Ec|]. intros x a Hx _ _ Ha. cbn [kmemory]. apply Hout.
      intros Ha'. destruct (vo_own _ _ _ _ _ _ V _ Hx) as [Hxp _]. apply HqA. by rewrite <- (pages_disjoint _ _ _ _ Hxp Hq Ha Ha').
  - intros w. eapply ptes_same; [exact V|]. intros t x Ht Hx. apply Hout. intros Hx'.
    destruct (vo_tab _ _ _ _ _ _ V _ _ Ht) as (_ & HtA & _). destruct (vo_own _ _ _ _ _ _ V _ HtA) as [Htp _].
    apply HqA. by rewrite <- (pages_disjoint _ _ _ _ Htp Hq Hx Hx').
  - intros o Ho. rewrite Hm', decide_True by (unfold in_page; lia). f_equal. lia.
Qed.

(** The child after one more page. *)
Lemma child_step s0 A ps s l A' d Td qs p f q s1 s2 l2 A2 T2 :
  child s0 A ps s (q :: l) A' d Td qs -> ps !! length qs = Some (p, f) -> 0 <= f < 4096 -> f mod 2 = 1 -> p ∈ A ->
  vm_grew end_ s A' d Td s1 l ({[q]} ∪ A') Td -> page end_ q -> q ∉ A' ->
  (forall o, 0 <= o < PGSIZE -> kmemory s1 (q + o) = kmemory s (p + o)) ->
  (forall a, ~ in_page q a -> kmemory s1 a = kmemory s a) ->
  vm_grew end_ s1 ({[q]} ∪ A') d Td s2 l2 A2 T2 ->
  (forall w, 0 <= w -> ptes (kmemory s2) T2 w = if decide (w = Z.of_nat (length qs)) then entry (v2p q) f else ptes (kmemory s) Td w) ->
  child s0 A ps s2 l2 A2 d T2 (qs ++ [q]).
Proof.
  intros [C1 C2 C3 C4 C5 C6 C7 C8 C9] Hps Hf Ho HpA G1 Hq HqA Hdata1 Hout1 G2 Hp2.
  pose proof (vm_grew_trans _ _ _ _ _ _ _ _ _ _ _ _ _ G1 G2) as G. destruct (apart_kept A s A' d Td s2 l2 A2 T2 C4 C3 G) as (K2 & P2 & HA2).
  assert (forall x, x ∈ {[q]} ∪ A' -> x <> d -> (forall i, Td !! i <> Some x) -> forall a, in_page x a -> kmemory s2 a = kmemory s1 a) as F2
    by (destruct (vg_frame _ _ _ _ _ _ _ _ _ G2) as (_ & _ & F); intros x Hx Hxd Hxt a Ha; by apply (F x)).
  assert (q <> d) as Hqd by (intros ->; apply HqA; apply C1).
  assert (forall i, Td !! i <> Some q) as HqT by (intros i Hi; apply HqA; by destruct (vo_tab _ _ _ _ _ _ C1 _ _ Hi) as (_ & ? & _)).
  destruct (v2p_page _ _ Hq) as (_ & Hv & _).
  constructor; [apply G2|done|done|done|by eapply kept_trans| | | |].
  - destruct C6 as [N1 N2 N3]. pose proof (vg_own _ _ _ _ _ _ _ _ _ G) as HO. pose proof (vg_own _ _ _ _ _ _ _ _ _ G2) as HO2. constructor.
    + apply NoDup_app. split; [done|]. split; [|apply NoDup_singleton]. intros x Hx ->%list_elem_of_singleton. by destruct (N2 q Hx) as (_ & _ & ? & _).
    + intros x [Hx| ->%list_elem_of_singleton]%elem_of_app; [destruct (N2 x Hx) as (? & ? & ? & ?); split; [done|]; split; [done|]; auto|].
      split; [exact Hq|]. split; [by intros ?%C3|]. split; [apply HO2, in_new|done].
    + intros x i [Hx| ->%list_elem_of_singleton]%elem_of_app Hi.
      * destruct (vg_new _ _ _ _ _ _ _ _ _ G i x Hi) as [H|H]; [by apply (N3 x i)|]. by destruct (N2 x Hx) as (_ & _ & ? & _).
      * destruct (vg_new _ _ _ _ _ _ _ _ _ G2 i q Hi) as [H|H]; [by apply (HqT i)|by destruct H; apply in_new].
  - intros i x p' f' Hx Hp'. rewrite Hp2 by lia. apply lookup_app_Some in Hx as [Hx|[Hle Hx]].
    + pose proof (lookup_lt_Some _ _ _ Hx). rewrite decide_False by lia. by eapply C7.
    + apply list_lookup_singleton_Some in Hx as [Hi ->]. assert (i = length qs) as -> by lia. rewrite Hps in Hp'. injection Hp' as <- <-.
      rewrite decide_True by done. by apply entry_odd.
  - intros i x p' f' o Hx Hp' Hoo. apply lookup_app_Some in Hx as [Hx|[Hle Hx]].
    + destruct (np_page _ _ _ _ _ _ C6 x) as (Hxp & HxA & HxA' & Hxd); [by eapply list_elem_of_lookup_2|].
      assert (x <> q) as Hxq by congruence. assert (in_page x (x + o)) as Hin by (unfold in_page; lia).
      rewrite (F2 x); [|by apply in_old|done|intros j; apply (np_tab _ _ _ _ _ _ C6); by eapply list_elem_of_lookup_2|done].
      rewrite Hout1; [by eapply C8|]. intros Hin'. apply Hxq. by eapply pages_disjoint.
    + apply list_lookup_singleton_Some in Hx as [Hi <-]. assert (i = length qs) as -> by lia. rewrite Hps in Hp'. injection Hp' as <- <-.
      assert (in_page q (q + o)) as Hin by (unfold in_page; lia). rewrite (F2 q); [|apply in_new|done|done|done]. rewrite Hdata1 by done.
      destruct C5 as (_ & _ & Hk). apply (Hk p); [done|unfold in_page; lia].
  - intros w Hw. rewrite length_app in Hw. cbn in Hw. rewrite Hp2, decide_False by lia. apply C9. lia.
Qed.

Section Loop.
Context (s0 : kst) (l0 : list Z) (A : gset Z) (pgdir : Z) (T : gmap Z Z) (ps : list (Z * Z)) (sz : Z).
Hypothesis V0 : vm_ok end_ s0 l0 A pgdir T.
Hypothesis Hpar : parent s0 A T ps.
Hypothesis Hsz : Z.of_nat (length ps) = pages_to sz.
Hypothesis Hsz0 : 0 <= sz < KERNBASE.

Lemma wp_copyuvm_loop n fuel s l A' d Td qs (Q : Z -> kst -> Prop) :
  child s0 A ps s l A' d Td qs -> (length qs + n = length ps)%nat -> (n < fuel)%nat -> (2 * n <= length l)%nat ->
  (forall s' l' A'' Td' qs', child s0 A ps s' l' A'' d Td' qs' -> length qs' = length ps -> Q d s') ->
  wp (copyuvm_loop end_ fuel pgdir d (4096 * Z.of_nat (length qs)) sz) Q s.
Proof.
  destruct (pages_to_bounds sz ltac:(lia)) as [_ Hb]. rewrite <- Hsz in Hb. unfold KERNBASE in Hsz0.
  revert fuel s l A' Td qs. induction n as [|n IH]; intros fuel s l A' Td qs C Hlen Hf Hl HQ;
    (destruct fuel as [|fuel]; [lia|]); cbn [copyuvm_loop].
  { rewrite (proj2 (Z.ltb_ge _ _)) by lia. wp_steps. eapply HQ; [exact C|lia]. }
  rewrite (proj2 (Z.ltb_lt _ _)) by lia. set (i := Z.of_nat (length qs)) in *. wp_steps.
  destruct (lookup_lt_is_Some_2 ps (length qs)) as [[p f] Hp]; [lia|].
  destruct (pa_own _ _ _ _ Hpar p f) as (HpA & Hf1 & Hf2); [by eapply list_elem_of_lookup_2|].
  pose proof C as [C1 C2 C3 C4 C5 C6 C7 C8 C9]. assert (vm_ok end_ s l A' pgdir T) as Vp by (eapply vm_ok_kept; [exact V0|exact C5|exact C3|exact C1]).
  assert (ptes (kmemory s) T i = v2p p + f) as Hpte by (rewrite (ptes_kept s0 l0 A pgdir T) by done; by apply (pa_map _ _ _ _ Hpar)).
  destruct (vo_own _ _ _ _ _ _ V0 _ HpA) as [Hpp _]. destruct (v2p_page _ _ Hpp) as (_ & Hv1 & _ & Hv2).
  assert (0 <= 4096 * i < 2 ^ 32) as Hva by lia.
  assert (4096 * i / 4096 = i) as Hdv by (rewrite Z.mul_comm; apply Z.div_mul; lia).
  destruct (PDX_div (4096 * i) Hva) as [Hpd _]. rewrite Hdv in Hpd.
  assert (exists t, T !! PDX (4096 * i) = Some t) as [t Ht].
  { rewrite Hpd. apply (entry_table (kmemory s) T i (v2p p) f); [lia|]. by rewrite entry_odd. }
  eapply wp_walk_find; [exact Vp|done|exact Ht|]. destruct (tab_addr _ _ _ _ _ _ _ _ Vp Hva Ht) as (_ & _ & _ & Hz & _ & Hl4). rewrite Hdv in Hl4.
  unfold load_pte. rewrite (proj2 (Z.eqb_neq _ _) Hz). wp_steps. rewrite <- Hl4, Hpte, land_P, Hf2 by (done || lia). cbn [Z.eqb].
  rewrite PTE_ADDR_add, PTE_FLAGS_add, Hv2 by done.
  destruct l as [|q [|q' l]]; cbn [length] in Hl; [lia|lia|].
  assert (0 <= i) as Hi0 by lia.
  refine (wp_copy_contents s q (q' :: l) A' d Td p A _ _ Q C1 C3 HpA C4 _).
  intros s1 G1 Hq HqA Hp1 Hd1 Ho1. wp_steps. destruct (v2p_page _ _ Hq) as (_ & Hq1 & Hq2 & _). unfold PHYSTOP in Hq2.
  assert (ptes (kmemory s) Td i = 0) as Hfree by (rewrite C9 by lia; rewrite kernel_pte_user by lia; done).
  eapply (wp_mappage end_ s1 (q' :: l) _ d Td i); [apply G1|lia|lia|done|done|by rewrite Hp1, Hfree|done|].
  intros s2 l2 A2 T2 G2 Hp2 Hl2. cbn [Z.ltb Z.compare]. unfold PGSIZE. rewrite u32_small by lia.
  assert (child s0 A ps s2 l2 A2 d T2 (qs ++ [q])) as C'.
  { eapply child_step; [exact C|exact Hp|done|done|done|exact G1|done|done|exact Hd1|exact Ho1|exact G2|].
    intros w Hw. rewrite Hp2, Hp1 by done. done. }
  replace (4096 * i + 4096) with (4096 * Z.of_nat (length (qs ++ [q]))) by (rewrite length_app; cbn; lia).
  eapply (IH fuel s2 l2 A2 T2); [exact C'|rewrite length_app; cbn; lia|lia|cbn [length] in Hl2; lia|exact HQ].
Qed.

Lemma wp_copyuvm (Q : Z -> kst -> Prop) :
  (72 + 2 * length ps <= length l0)%nat ->
  (forall d s' l' A' T' qs, d <> 0 -> length qs = length ps -> child s0 A ps s' l' A' d T' qs -> Q d s') ->
  wp (copyuvm end_ data pgdir sz) Q s0.
Proof.
  intros Hl HQ. unfold KERNBASE in Hsz0.
  unfold copyuvm. wp_steps. eapply wp_setupkvm; [exact V0|lia|]. intros d s1 l1 A1 T1 V1 Hd HA1 P1 K1 Hp1 Hl1.
  pose proof (page_range _ _ Hd) as Hr. unfold KERNBASE in Hr. rewrite (proj2 (Z.eqb_neq d 0)) by lia.
  pose proof (pages_to_fuel sz). change 0 with (4096 * Z.of_nat (length (@nil Z))).
  eapply (wp_copyuvm_loop (length ps) _ s1 l1 A1 d T1 []); [|done|unfold PGSIZE; lia|lia|].
  - constructor; try done.
    constructor; [apply NoDup_nil_2|intros p Hp; by apply elem_of_nil in Hp|intros p i Hp; by apply elem_of_nil in Hp].
  - intros s2 l2 A2 T2 qs C Hlen. eapply HQ; [cbn; lia|exact Hlen|exact C].
Qed.

(** C4: copyuvm with 72 free pages and two for each page of the parent, whose page directory
    entries are as the kernel wrote them, returns a directory of its own: every page of the
    parent's memory is mapped in it with the same flags to a page that nobody owned and that
    holds the same bytes, the rest of it is exactly the kernel's mappings, and no page that
    was owned before has changed, the parent's page table included. *)
Theorem copyuvm_spec :
  (72 + 2 * length ps <= length l0)%nat ->
  exists d s' l' A' T' qs, copyuvm end_ data pgdir sz s0 = Ret d s' /\ d <> 0 /\ length qs = length ps /\
    child s0 A ps s' l' A' d T' qs /\ vm_ok end_ s' l' A' pgdir T.
Proof.
  intros Hl.
  assert (wp (copyuvm end_ data pgdir sz) (fun d s' => d <> 0 /\ exists l' A' T' qs, child s0 A ps s' l' A' d T' qs /\ length qs = length ps) s0)
    as (d & s' & E & Hd & l' & A' & T' & qs & C & Hlen)%wp_run.
  { apply wp_copyuvm; [done|]. intros d s' l' A' T' qs Hd Hlen C. split; [done|]. by exists l', A', T', qs. }
  exists d, s', l', A', T', qs. split_and!; try done.
  eapply vm_ok_kept; [exact V0|apply C..].
Qed.
End Loop.
End Copy.

(** ** An address space *)

Definition demo_end : Z := KERNBASE + 4194304.

Lemma demo_kmem n : (n <= 100)%nat -> exists s, kmem_ok demo_end s (rev (pages_from demo_end n)).
Proof.
  intros Hn. destruct (wp_run (freerange_loop demo_end 101 demo_end (demo_end + PGSIZE * Z.of_nat n)) (fun _ s => kmem_ok demo_end s (rev (pages_from demo_end n)))
    (mkkst 0 0 (fun _ => 0) (mkctx [] [] false))) as ([] & s & _ & K); [|by exists s].
  eapply (wp_freerange_loop demo_end n _ _ _ _ []).
  - lia.
  - unfold PGSIZE. lia.
  - constructor; [done|apply NoDup_nil_2|apply not_elem_of_nil].
  - intros p (i & Hi & ->)%elem_pages_from. split; [|apply not_elem_of_nil]. unfold page, demo_end, KERNBASE, PHYSTOP, PGSIZE.
    split; [|lia]. replace (2147483648 + 4194304 + 4096 * Z.of_nat i) with ((525312 + Z.of_nat i) * 4096) by lia. apply Z.mod_mul. lia.
  - intros s _ _ K. by rewrite app_nil_r in K.
Qed.

(** An empty directory, and [n] free pages. *)
Lemma demo_dir n : (n < 100)%nat -> exists s l d, vm_ok demo_end s l ({[d]} ∪ ∅) d ∅ /\ length l = n.
Proof.
  intros Hn. destruct (demo_kmem (S n) Hn) as [s K].
  assert (length (rev (pages_from demo_end (S n))) = S n) as Hlen by (unfold pages_from; rewrite length_rev, length_fmap, length_seq; done).
  revert K Hlen. generalize (rev (pages_from demo_end (S n))). intros [|d l] K Hlen; [done|]. cbn [length] in Hlen.
  assert (page demo_end d) as Hd by (eapply flist_page; [apply K|left]).
  pose proof (page_range _ _ Hd) as Hr. unfold KERNBASE, PHYSTOP, PGSIZE in Hr.
  destruct (wp_run kalloc (fun p s1 => kmem_ok demo_end s1 l) s) as (p & s1 & _ & K1); [eapply wp_kalloc; [exact K|]; cbv zeta; intros K1; exact K1|].
  set (m := snd (memset (kmemory s1) d 0 PGSIZE)).
  pose proof (ko_nodup _ _ _ K) as Hnd. apply list.NoDup_cons in Hnd as [Hdl _].
  assert (forall a, m a = if decide (in_page d a) then 0 else kmemory s1 a) as Hm.
  { intros a. unfold m. rewrite memset_spec by (unfold PGSIZE; lia). unfold in_page, within, PGSIZE.
    destruct (Z.leb_spec d a), (Z.ltb_spec a (d + 4096)); cbn; case_decide; try lia; done. }
  exists (mkkst (use_lock s1) (freelist s1) m (kctx_of s1)), l, d. split; [|lia].
  apply new_dir; [|done|done|done|done|intros a Ha; cbn; by rewrite Hm, decide_True].
  destruct K1 as [A1 A2 A3]. constructor; try done. cbn. eapply flist_ext; [|exact A1]. intros q a Hq Ha. rewrite Hm, decide_False; [done|].
  intros Ha'. apply Hdl. pose proof (flist_page _ _ _ _ _ A1 Hq) as Hqp. by rewrite <- (pages_disjoint _ _ _ _ Hqp Hd Ha Ha').
Qed.

(** A directory with one zeroed page mapped at address 0, and 97 free pages. *)
Lemma demo_space : exists s l A d T p,
  vm_ok demo_end s l A d T /\ p ∈ A /\ ptes (kmemory s) T 0 = v2p p + 7 /\ (forall w, 1 <= w -> ptes (kmemory s) T w = 0) /\ (90 <= length l)%nat.
Proof.
  destruct (demo_dir 99) as (s & l & d & V & Hlen); [lia|].
  destruct (wp_run (allocuvm_loop demo_end 2 d (4096 * 0) 0 4096) (fun _ s' => exists l' A' T' p, vm_ok demo_end s' l' A' d T' /\ p ∈ A' /\
    ptes (kmemory s') T' 0 = v2p p + 7 /\ (forall w, 1 <= w -> ptes (kmemory s') T' w = 0) /\ (90 <= length l')%nat) s)
    as (r & s' & _ & l' & A' & T' & q & H); cycle 1.
  { by exists s', l', A', d, T', q. }
  eapply (wp_allocuvm_loop demo_end 1); [exact V|lia|unfold KERNBASE; lia|lia|lia|lia|lia| |lia|].
  - intros w Hw. unfold ptes. by rewrite lookup_empty.
  - intros s' l' A' T' ps G N _ Hps M Hl'. destruct ps as [|q [|? ?]]; try done.
    destruct (np_page _ _ _ _ _ _ N q) as (Hq & _ & HqA & _); [left|]. destruct (v2p_page _ _ Hq) as (_ & Hv & _).
    exists l', A', T', q. split; [apply G|]. split; [done|]. split; [|split; [|lia]].
    + pose proof (mp_in _ _ _ _ _ _ _ M 0%nat q eq_refl) as Hin. rewrite entry_add in Hin by (done || lia). exact Hin.
    + intros w Hw. rewrite (mp_out _ _ _ _ _ _ _ M) by (cbn; lia). unfold ptes. by rewrite lookup_empty.
Qed.

Lemma copyuvm_spec_witness : exists s pgdir d s',
  copyuvm demo_end (KERNBASE + 4096 * 512) pgdir 4096 s = Ret d s' /\ d <> 0.
Proof.
  destruct demo_space as (s & l & A & d & T & p & V & Hp & Hpte & _ & Hl).
  destruct (copyuvm_spec demo_end (KERNBASE + 4096 * 512) 512 eq_refl ltac:(lia) s l A d T [(p, 7)] 4096 V) as (d' & s' & l' & A' & T' & qs & E & Hd & _).
  - constructor.
    + intros p' f [= -> ->]%list_elem_of_singleton. split; [done|]. split; [lia|done].
    + intros [|i] p' f Hi; [injection Hi as <- <-; exact Hpte|done].
  - reflexivity.
  - unfold KERNBASE. lia.
  - cbn. lia.
  - exists s, d, d', s'. split; [exact E|exact Hd].
Defined.

Lemma allocuvm_deallocuvm_witness : exists s pgdir s1 s2,
  allocuvm demo_end pgdir 4096 10000 s = Ret 10000 s1 /\ deallocuvm demo_end pgdir 10000 4096 s1 = Ret 4096 s2.
Proof.
  destruct demo_space as (s & l & A & d & T & p & V & Hp & Hpte & Hz & Hl).
  destruct (allocuvm_deallocuvm demo_end ltac:(unfold demo_end; lia) s l A d T 4096 10000 V) as (s1 & l1 & A1 & T1 & ps & s2 & E1 & _ & _ & _ & _ & _ & E2 & _).
  - lia.
  - unfold KERNBASE. lia.
  - intros w Hw. apply Hz. change (pages_to 4096) with 1 in Hw. lia.
  - change (pages_to 10000) with 3. change (pages_to 4096) with 1. lia.
  - exists s, d, s1, s2. split; [exact E1|exact E2].
Defined.

(** ** Running out of memory *)

Section Full.
Variable end_ : Z.

(** When the last free page has to hold the memory of the process and the page table that
    would map it is missing, allocuvm reports success all the same: it returns the new size,
    the page is not mapped, and the page taken from the allocator is lost. *)
Theorem allocuvm_unmapped s p A pgdir T v :
  vm_ok end_ s [p] A pgdir T -> 0 <= v -> 4096 * v + 1 < KERNBASE -> T !! (v / 1024) = None ->
  exists s', allocuvm end_ pgdir (4096 * v) (4096 * v + 1) s = Ret (4096 * v + 1) s' /\
    ptes (kmemory s') T v = 0 /\ vm_ok end_ s' [] ({[p]} ∪ A) pgdir T.
Proof.
  intros V Hv Hk Ht. unfold KERNBASE in Hk. set (va := 4096 * v) in *.
  assert (pages_to va = v) as Hpt by (unfold pages_to, va; rewrite Z.mul_comm, Z.div_add_l by lia; change (4095 / 4096) with 0; lia).
  assert (va / 4096 = v) as Hdv by (unfold va; rewrite Z.mul_comm; apply Z.div_mul; lia).
  destruct (PDX_div va ltac:(lia)) as [Hpd _]. rewrite Hdv in Hpd.
  assert (wp (allocuvm end_ pgdir va (va + 1)) (fun r s' => r = va + 1 /\ ptes (kmemory s') T v = 0 /\ vm_ok end_ s' [] ({[p]} ∪ A) pgdir T) s)
    as (r & s' & E & -> & H)%wp_run; [|by exists s'].
  unfold allocuvm, KERNBASE. rewrite (proj2 (Z.leb_gt _ _)), (proj2 (Z.ltb_ge _ _)) by lia. rewrite PGROUNDUP_pages, Hpt by lia. fold va.
  cbn [allocuvm_loop]. rewrite (proj2 (Z.ltb_lt _ _)) by lia.
  apply wp_alloc_zeroed with (1 := V). intros s1 G1 Hp HpA _ Hz Hp1. pose proof (vg_ok _ _ _ _ _ _ _ _ _ G1) as V1. wp_steps.
  unfold mappages. replace (u32 (va + PGSIZE - 1)) with (4096 * v + 4095) by (unfold PGSIZE; rewrite u32_small; lia).
  rewrite PGROUNDDOWN_page by lia.
  assert (PGROUNDDOWN va = va) as -> by (unfold va; rewrite <- (Z.add_0_r (4096 * v)) at 1; apply PGROUNDDOWN_page; lia).
  fold va. rewrite Z.sub_diag. change (Z.to_nat (u32 0 / PGSIZE)) with 0%nat. cbn [mappages_loop]. wp_steps.
  eapply wp_walk_full; [exact V1|lia|by rewrite Hpd|]. cbn [Z.eqb]. wp_steps. rewrite u32_small by (unfold PGSIZE; lia).
  cbn [allocuvm_loop]. rewrite (proj2 (Z.ltb_ge _ _)) by (unfold PGSIZE; lia). wp_steps. split; [apply i32_small; lia|]. split; [|done].
  unfold ptes. by rewrite Ht.
Qed.
End Full.

Lemma allocuvm_unmapped_witness : exists s pgdir s', allocuvm demo_end pgdir 0 1 s = Ret 1 s' /\ ptes (kmemory s') ∅ 0 = 0.
Proof.
  destruct (demo_dir 1) as (s & l & d & V & Hl); [lia|]. destruct l as [|p [|? ?]]; try done.
  destruct (allocuvm_unmapped demo_end s p _ d ∅ 0 V) as (s' & E & Hp & _); [lia|unfold KERNBASE; lia|done|].
  exists s, d, s'. split; [exact E|exact Hp].
Defined.
