(* ===== verification/Ulib.v ===== *)
(** * ulib.c and printf.c: the library of user programs

    Strings are the bytes from a pointer to the end of its object, output is the list of
    bytes passed to write.  Reads past the end of an object are [None]. *)

From stdpp Require Import base list numbers strings.
From S2P Require Import Prelude CString.

Open Scope Z_scope.

(** ** ulib.c *)

(** The bytes that strcpy stores, and the object [s] after it. *)
Fixpoint strcpy_bytes (t : list Z) : option (list Z) :=
  match t with
  | [] => None
  | c :: t => if c =? 0 then Some [0] else cons c <$> strcpy_bytes t
  end.
Definition strcpy (s t : list Z) : option (list Z) :=
  l ← strcpy_bytes t;
  if decide (length l <= length s)%nat then Some (splice 0 l s) else None.

Fixpoint strcmp (p q : list Z) : option Z :=
  match p, q with
  | a :: p', b :: q' => if negb (a =? 0) && (a =? b) then strcmp p' q' else Some (u8 a - u8 b)
  | _, _ => None
  end.

(** strlen; the counter is an int. *)
Fixpoint strlen_from (n : Z) (s : list Z) : option Z :=
  match s with
  | [] => None
  | c :: s => if c =? 0 then Some (u32 n) else strlen_from (i32 (n + 1)) s
  end.
Definition strlen (s : list Z) : option Z := strlen_from 0 s.

(** strchr: the index of the character found. *)
Fixpoint strchr (s : list Z) (c : Z) : option (option nat) :=
  match s with
  | [] => None
  | a :: s' => if a =? 0 then Some None else if a =? c then Some (Some 0%nat) 
               else match strchr s' c with None => None | Some o => Some (option_map S o) end
  end.

(** gets: [input] is what read(0, &c, 1) returns, one character at a time, until it
    returns less than one.  The result is the buffer and the rest of the input. *)
Fixpoint gets_loop (n : nat) (i max : Z) (buf input : list Z) : option (list Z * Z * list Z) :=
  match n with
  | O => None
  | S n =>
      if i + 1 <? max then
        match input with
        | [] => Some (buf, i, [])
        | c :: input =>
            if (Z.to_nat i <? length buf)%nat then
              let buf := <[Z.to_nat i := c]> buf in
              if (c =? 10) || (c =? 13) then Some (buf, i + 1, input) else gets_loop n (i + 1) max buf input
            else None
        end
      else Some (buf, i, input)
  end.
Definition gets (buf : list Z) (max : Z) (input : list Z) : option (list Z * list Z) :=
  r ← gets_loop (S (Z.to_nat max)) 0 max buf input;
  let '(buf, i, input) := r in
  if (Z.to_nat i <? length buf)%nat then Some (<[Z.to_nat i := 0]> buf, input) else None.

Fixpoint atoi_loop (n : Z) (s : list Z) : option Z :=
  match s with
  | [] => None
  | c :: s => if (48 <=? c) && (c <=? 57) then atoi_loop (i32 (n * 10 + c - 48)) s else Some n
  end.
Definition atoi (s : list Z) : option Z := atoi_loop 0 s.

(** memmove copies upwards whatever the overlap. *)
Fixpoint memmove (m : Mem.mem) (dst src : Z) (n : nat) : Mem.mem :=
  match n with
  | O => m
  | S n => memmove (Mem.upd m dst (m src)) (u32 (dst + 1)) (u32 (src + 1)) n
  end.

(** ** printf.c *)

Definition digits : list Z := [48; 49; 50; 51; 52; 53; 54; 55; 56; 57; 65; 66; 67; 68; 69; 70].

(** The do-while loop of printint: buf, lowest digit first. *)
Fixpoint print_digits (fuel : nat) (x base : Z) : option (list Z) :=
  match fuel with
  | O => None
  | S fuel =>
      d ← digits !! Z.to_nat (x mod base);
      let x := x / base in
      if x =? 0 then Some [d] else cons d <$> print_digits fuel x base
  end.

(** The bytes put to the file; [None] when buf[16] is overrun. *)
Definition printint (xx base : Z) (sgn : bool) : option (list Z) :=
  let neg := sgn && (xx <? 0) in
  let x := if neg then u32 (- xx) else u32 xx in
  buf ← print_digits 32 x base;
  let buf := if neg then buf ++ [45] else buf in
  if (length buf <=? 16)%nat then Some (rev buf) else None.

(** An argument: the word, and the string at that address if it is one. *)
Record arg := mkarg { a_word : Z; a_str : option (list Z) }.

(** while( *s != 0) putc(fd, *s), s++. *)
Fixpoint put_str (s : list Z) : option (list Z) :=
  match s with
  | [] => None
  | c :: s => if c =? 0 then Some [] else cons c <$> put_str s
  end.

(** The loop of printf: [state] is '%' after a percent sign, or 0; [fmt] the rest of the format. *)
Fixpoint printf_loop (fmt : list Z) (state : Z) (ap : list arg) : option (list Z) :=
  match fmt with
  | [] => None
  | f :: fmt =>
      if f =? 0 then Some [] else
      let c := Z.land f 255 in
      if state =? 0 then
        if c =? 37 then printf_loop fmt 37 ap else cons (u8 c) <$> printf_loop fmt 0 ap
      else if state =? 37 then
        if c =? 100 then
          a ← head ap; o ← printint (i32 (a_word a)) 10 true; app o <$> printf_loop fmt 0 (tail ap)
        else if (c =? 120) || (c =? 112) then
          a ← head ap; o ← printint (i32 (a_word a)) 16 false; app o <$> printf_loop fmt 0 (tail ap)
        else if c =? 115 then
          a ← head ap;
          s ← (if a_word a =? 0 then Some [40; 110; 117; 108; 108; 41; 0] else a_str a);
          o ← put_str s; app o <$> printf_loop fmt 0 (tail ap)
        else if c =? 99 then
          a ← head ap; cons (u8 (a_word a)) <$> printf_loop fmt 0 (tail ap)
        else if c =? 37 then cons (u8 c) <$> printf_loop fmt 0 ap
        else (fun o => 37 :: u8 c :: o) <$> printf_loop fmt 0 ap
      else printf_loop fmt state ap
  end.
Definition printf (fmt : list Z) (ap : list arg) : option (list Z) := printf_loop fmt 0 ap.

(** ** Numbers *)

(** The value of digits, lowest first. *)
Definition digit_char (d : Z) : Z := if d <? 10 then 48 + d else 55 + d.
Fixpoint value (base : Z) (l : list Z) : Z :=
  match l with [] => 0 | d :: l => d + base * value base l end.

Lemma digits_char d : 0 <= d < 16 -> digits !! Z.to_nat d = Some (digit_char d).
Proof.
  intros Hd. assert (In d (Z.of_nat <$> seq 0 16)) as Hin.
  { apply list_elem_of_In, list_elem_of_fmap. exists (Z.to_nat d). split; [lia|]. apply elem_of_seq. lia. }
  cbn in Hin. repeat (destruct Hin as [<-|Hin]; [reflexivity|]). destruct Hin.
Qed.

(** The loop writes the digits of [x], at most [k] of them when x < base^k. *)
Lemma print_digits_spec base k fuel x :
  2 <= base <= 16 -> 0 <= x < base ^ (Z.of_nat k + 1) -> (k < fuel)%nat ->
  exists ds, print_digits fuel x base = Some (digit_char <$> ds) /\ value base ds = x /\
    Forall (fun d => 0 <= d < base) ds /\ (1 <= length ds <= 1 + k)%nat.
Proof.
  intros Hb. revert fuel x. induction k as [|k IH]; intros [|fuel] x Hx Hf; try lia; cbn [print_digits].
  all: pose proof (Z.mod_pos_bound x base ltac:(lia)) as Hm; rewrite digits_char by lia; cbn [mbind option_bind].
  - change (Z.of_nat 0 + 1) with 1 in Hx. rewrite Z.pow_1_r in Hx. rewrite Z.div_small, Z.mod_small by lia. cbn [Z.eqb].
    exists [x]. cbn. repeat split; [lia|repeat constructor; lia|lia|lia].
  - destruct (Z.eqb_spec (x / base) 0) as [E|E].
    + exists [x mod base]. cbn. pose proof (Z.div_mod x base ltac:(lia)). rewrite E in *.
      repeat split; [lia|repeat constructor; lia|lia|lia].
    + destruct (IH fuel (x / base)) as (ds & E1 & E2 & E3 & E4); [|lia|].
      { split; [apply Z.div_pos; lia|]. apply Z.div_lt_upper_bound; [lia|]. rewrite <- Z.pow_succ_r by lia.
        replace (Z.succ (Z.of_nat k + 1)) with (Z.of_nat (S k) + 1) by lia. lia. }
      rewrite E1. exists (x mod base :: ds). cbn [fmap option_fmap option_map list_fmap value length].
      split; [done|]. split; [|split; [by constructor|lia]]. rewrite E2. pose proof (Z.div_mod x base ltac:(lia)). lia.
Qed.

Lemma atoi_loop_digits ds n t :
  Forall (fun d => 0 <= d < 10) ds -> 0 <= n -> n * 10 ^ Z.of_nat (length ds) + value 10 (rev ds) < 2 ^ 31 ->
  atoi_loop n ((digit_char <$> ds) ++ 0 :: t) = Some (n * 10 ^ Z.of_nat (length ds) + value 10 (rev ds)).
Proof.
  revert n. induction ds as [|d ds IH]; intros n Hd Hn Hlt.
  - cbn. f_equal. lia.
  - apply list.Forall_cons in Hd as [Hd Hds]. cbn [fmap list_fmap app atoi_loop].
    unfold digit_char at 1 2 3. rewrite (proj2 (Z.ltb_lt d 10)) by lia.
    rewrite (proj2 (Z.leb_le 48 _)), (proj2 (Z.leb_le _ 57)) by lia. cbn [andb].
    assert (value 10 (rev (d :: ds)) = d * 10 ^ Z.of_nat (length ds) + value 10 (rev ds)) as Hv.
    { cbn [rev]. rewrite <- (length_rev ds). generalize (rev ds). intros l. induction l as [|a l IHl]; [cbn; lia|].
      cbn [app value length]. rewrite IHl, Nat2Z.inj_succ, Z.pow_succ_r by lia. lia. }
    rewrite Hv in *. cbn [length] in *. rewrite Nat2Z.inj_succ, Z.pow_succ_r in * by lia.
    assert (0 <= value 10 (rev ds)) as Hv0.
    { clear -Hds. assert (Forall (fun d => 0 <= d < 10) (rev ds)) as H by (by apply Forall_rev).
      induction H as [|a l Ha _ IHl]; cbn; lia. }
    assert (1 <= 10 ^ Z.of_nat (length ds)) by (pose proof (Z.pow_pos_nonneg 10 (Z.of_nat (length ds))); lia).
    replace (n * 10 + (48 + d) - 48) with (n * 10 + d) by lia.
    assert (n * 10 + d < 2 ^ 31) by nia.
    rewrite i32_small by lia. rewrite IH; [f_equal; lia|done|lia|lia].
Qed.

Lemma printint_total xx base sgn :
  (base = 10 \/ base = 16) -> - 2 ^ 31 <= xx < 2 ^ 31 -> is_Some (printint xx base sgn).
Proof.
  intros Hb Hx. unfold printint. set (x := if sgn && (xx <? 0) then u32 (- xx) else u32 xx).
  assert (0 <= x < 2 ^ 32) as Hx32 by (unfold x; case_match; apply u32_range).
  destruct (print_digits_spec base 9 32 x) as (ds & E1 & _ & _ & E4); [lia| |lia|].
  { split; [lia|]. change (Z.of_nat 9 + 1) with 10. destruct Hb as [-> | ->]; lia. }
  rewrite E1. cbn [mbind option_bind]. rewrite (proj2 (Nat.leb_le _ _)); [done|].
  case_match; rewrite ?length_app, length_fmap; cbn; lia.
Qed.

(** Printing a number in decimal and reading the characters back with atoi gives the number,
    for every int that is not negative; printint never writes past its sixteen characters,
    in either base and for every int. *)
Theorem atoi_printint xx t :
  - 2 ^ 31 <= xx < 2 ^ 31 ->
  (forall base sgn, base = 10 \/ base = 16 -> is_Some (printint xx base sgn)) /\
  (0 <= xx -> exists out, printint xx 10 true = Some out /\ atoi (out ++ 0 :: t) = Some xx).
Proof.
  intros Hx. split; [intros base sgn Hb; by apply printint_total|]. intros H0.
  unfold printint. rewrite (proj2 (Z.ltb_ge xx 0)) by lia. cbn [andb]. rewrite u32_small by lia.
  destruct (print_digits_spec 10 9 32 xx) as (ds & E1 & E2 & E3 & E4); [lia|lia|lia|]. rewrite E1. cbn [mbind option_bind].
  rewrite length_fmap, (proj2 (Nat.leb_le _ _)) by lia. eexists. split; [done|].
  change (digit_char <$> ds) with (map digit_char ds). rewrite <- map_rev. unfold atoi.
  pose proof (atoi_loop_digits (rev ds) 0 t) as Ha. rewrite rev_involutive, E2 in Ha. apply Ha; [by apply Forall_rev|lia|lia].
Qed.

Lemma atoi_printint_witness : exists out, printint 1024 10 true = Some out /\ atoi (out ++ [0]) = Some 1024.
Proof. apply (atoi_printint 1024 []); lia. Defined.

(** ** The format *)

(** A format is literal characters and conversions. *)
Inductive piece := Lit (c : Z) | Conv (c : Z).
Fixpoint pieces (fmt : list Z) : list piece :=
  match fmt with
  | [] => []
  | c :: fmt =>
      if c =? 37 then match fmt with [] => [] | d :: fmt => Conv d :: pieces fmt end
      else Lit c :: pieces fmt
  end.

(** What a piece prints, and the arguments it leaves. *)
Definition print_piece (p : piece) (ap : list arg) : option (list Z * list arg) :=
  match p with
  | Lit c => Some ([c], ap)
  | Conv c =>
      if decide (c = 100) then a ← head ap; o ← printint (i32 (a_word a)) 10 true; Some (o, tail ap)
      else if decide (c = 120 \/ c = 112) then a ← head ap; o ← printint (i32 (a_word a)) 16 false; Some (o, tail ap)
      else if decide (c = 115) then
        a ← head ap;
        o ← (if decide (a_word a = 0) then Some [40; 110; 117; 108; 108; 41] else s ← a_str a; put_str s);
        Some (o, tail ap)
      else if decide (c = 99) then a ← head ap; Some ([u8 (a_word a)], tail ap)
      else if decide (c = 37) then Some ([37], ap)
      else Some ([37; c], ap)
  end.
Fixpoint print_pieces (ps : list piece) (ap : list arg) : option (list Z) :=
  match ps with
  | [] => Some []
  | p :: ps => x ← print_piece p ap; app (fst x) <$> print_pieces ps (snd x)
  end.

(** Printf prints its format piece by piece: literal characters as they are, and each
    conversion with its argument; a percent sign at the end of the format prints nothing, and
    an unknown conversion prints itself. *)
Theorem printf_pieces fmt t ap :
  Forall (fun c => 0 < c < 256) fmt -> printf (fmt ++ 0 :: t) ap = print_pieces (pieces fmt) ap.
Proof.
  unfold printf. remember (length fmt) as n eqn:Hn. assert (length fmt <= n)%nat as Hle by lia. clear Hn.
  revert fmt ap Hle. induction n as [|n IH]; intros [|c fmt] ap Hle Hf; try done; [cbn in Hle; lia|].
  apply list.Forall_cons in Hf as [Hc Hf]. cbn [length] in Hle.
  assert (forall c, 0 < c < 256 -> Z.land c 255 = c /\ u8 c = c) as Hbyte.
  { intros x Hx. change 255 with (Z.ones 8). rewrite Z.land_ones by lia. unfold u8. rewrite !Z.mod_small by lia. done. }
  destruct (Hbyte c Hc) as [Ec Eu]. cbn [app printf_loop pieces]. rewrite (proj2 (Z.eqb_neq c 0)), Ec, Eu by lia. cbn [Z.eqb].
  destruct (Z.eqb_spec c 37) as [->|Hp].
  - destruct fmt as [|d fmt]; [done|]. apply list.Forall_cons in Hf as [Hd Hf]. destruct (Hbyte d Hd) as [Ed Edu].
    cbn [app printf_loop print_pieces print_piece]. rewrite (proj2 (Z.eqb_neq d 0)), Ed, Edu by lia. cbn [Z.eqb Pos.eqb].
    cbn [length] in Hle.
    assert (forall ap, printf_loop (fmt ++ 0 :: t) 0 ap = print_pieces (pieces fmt) ap) as IHf by (intros; apply IH; [lia|done]).
    repeat match goal with |- context [d =? ?k] => destruct (Z.eqb_spec d k) as [->|?] end; cbn [orb];
      repeat (first [rewrite decide_True by lia | rewrite decide_False by lia]).
    all: rewrite ?IHf; try (destruct (head ap) as [a|]; [|done]); cbn [mbind option_bind fst snd]; try done.
    all: try (destruct (printint _ _ _) as [o|]; cbn [mbind option_bind fst snd]; rewrite ?IHf; done).
    destruct (Z.eqb_spec (a_word a) 0) as [E|E]; [rewrite decide_True by done|rewrite decide_False by done]; [done|].
    destruct (a_str a) as [s|]; [|done]. cbn [mbind option_bind]. by destruct (put_str s).
  - cbn [print_pieces print_piece mbind option_bind fst snd]. rewrite IH by (done || lia). done.
Qed.

(** "%s=%d" *)
Lemma printf_pieces_witness :
  printf ([37; 115; 61; 37; 100] ++ [0]) [mkarg 1 (Some [120; 0]); mkarg 4294967295 None] = Some [120; 61; 45; 49].
Proof. rewrite (printf_pieces [37; 115; 61; 37; 100] []); [reflexivity|repeat constructor; lia]. Defined.
