(* ===== verification/Sh.v ===== *)
(** * sh.c: the shell

    [buf] is the line with its terminating nul, [es] the index of the nul.  Pointers into
    the line are indices; the parser's state is *ps.  The execcmd that parseexec builds is
    filled in after redirections have been wrapped around it: the wrappers are kept in a
    list and put around it at the end.  malloc is taken not to fail. *)

From stdpp Require Import base list numbers strings.
From S2P Require Import Prelude CString Ulib.

Open Scope Z_scope.
Local Open Scope kernel_scope.

Definition MAXARGS : nat := 10.
Definition O_RDONLY : Z := 0.
Definition O_WRONLY : Z := 1.
Definition O_CREATE : Z := 512.

(** A counted string: the pointers q and eq. *)
Definition span : Type := nat * nat.

(** struct cmd and its kinds; in [Exec], argv and eargv up to the null pointer. *)
Inductive cmd :=
| Exec (argv : list span)
| Redir (c : cmd) (file : span) (mode fd : Z)
| Pipe (left right : cmd)
| List (left right : cmd)
| Back (c : cmd).

(** A redircmd without its subcommand. *)
Record redir := mkredir { r_file : span; r_mode : Z; r_fd : Z }.
Definition wrap (c : cmd) (r : redir) : cmd := Redir c (r_file r) (r_mode r) (r_fd r).

Definition whitespace : list Z := [32; 9; 13; 10; 11].
Definition symbols : list Z := [60; 124; 62; 38; 59; 40; 41].

(** strchr(toks, c) != 0, toks a string constant. *)
Definition strchr_in (toks : list Z) (c : Z) : bool :=
  match strchr (toks ++ [0]) c with Some (Some _) => true | _ => false end.

Section Parse.
Variable buf : list Z.
Variable es : nat.

(** while(s < es && strchr(whitespace, *s)) s++; at most [n] times. *)
Fixpoint skip_ws (n s : nat) : option nat :=
  match n with
  | O => Some s
  | S n =>
      if (s <? es)%nat then
        c ← buf !! s;
        if strchr_in whitespace c then skip_ws n (S s) else Some s
      else Some s
  end.

(** while(s < es && !strchr(whitespace, *s) && !strchr(symbols, *s)) s++ *)
Fixpoint skip_word (n s : nat) : option nat :=
  match n with
  | O => Some s
  | S n =>
      if (s <? es)%nat then
        c ← buf !! s;
        if negb (strchr_in whitespace c) && negb (strchr_in symbols c) then skip_word n (S s) else Some s
      else Some s
  end.

(** The token, *q and *eq. *)
Definition gettoken : M nat (Z * span) :=
  s <- Prelude.gets id ;;
  s <- lift_opt (skip_ws (es - s) s) ;;
  let q := s in
  c <- lift_opt (buf !! s) ;;
  rs <- (if c =? 0 then ret (c, s) else
         if (c =? 124) || (c =? 40) || (c =? 41) || (c =? 59) || (c =? 38) || (c =? 60) then ret (c, S s) else
         if c =? 62 then
           (let s := S s in
            d <- lift_opt (buf !! s) ;;
            if d =? 62 then ret (43, S s) else ret (c, s))
         else
           (s <- lift_opt (skip_word (es - s) s) ;; ret (97, s))) ;;
  let s := snd rs in
  let eq := s in
  s <- lift_opt (skip_ws (es - s) s) ;;
  modify (fun _ => s) ;;
  ret (fst rs, (q, eq)).

Definition peek (toks : list Z) : M nat bool :=
  s <- Prelude.gets id ;;
  s <- lift_opt (skip_ws (es - s) s) ;;
  modify (fun _ => s) ;;
  c <- lift_opt (buf !! s) ;;
  ret (negb (c =? 0) && strchr_in toks c).

Fixpoint parseredirs (n : nat) (rs : list redir) : M nat (list redir) :=
  match n with
  | O => out_of_fuel
  | S n =>
      b <- peek [60; 62] ;;
      if b then
        t <- gettoken ;;
        f <- gettoken ;;
        if negb (fst f =? 97) then panic "missing file for redirection" else
        parseredirs n
          (if fst t =? 60 then rs ++ [mkredir (snd f) O_RDONLY 0]
           else if fst t =? 62 then rs ++ [mkredir (snd f) (Z.lor O_WRONLY O_CREATE) 1]
           else if fst t =? 43 then rs ++ [mkredir (snd f) (Z.lor O_WRONLY O_CREATE) 1]
           else rs)
      else ret rs
  end.

(** The loop of parseexec over the arguments. *)
Fixpoint parseargs (n : nat) (argv : list span) (rs : list redir) : M nat (list span * list redir) :=
  match n with
  | O => out_of_fuel
  | S n =>
      b <- peek [124; 41; 38; 59] ;;
      if negb b then
        t <- gettoken ;;
        if fst t =? 0 then ret (argv, rs) else
        if negb (fst t =? 97) then panic "syntax" else
        let argv := argv ++ [snd t] in
        if (MAXARGS <=? length argv)%nat then panic "too many args" else
        rs <- parseredirs (S es) rs ;;
        parseargs n argv rs
      else ret (argv, rs)
  end.

(** while(peek(ps, es, "&")){ gettoken(ps, es, 0, 0); cmd = backcmd(cmd); } *)
Fixpoint parseback (n : nat) (c : cmd) : M nat cmd :=
  match n with
  | O => out_of_fuel
  | S n =>
      b <- peek [38] ;;
      if b then gettoken ;; parseback n (Back c) else ret c
  end.

(** parseline, parsepipe, parseexec and parseblock call each other; [fuel] bounds the depth. *)
Fixpoint parseline (fuel : nat) : M nat cmd :=
  match fuel with
  | O => out_of_fuel
  | S fuel =>
      c <- parsepipe fuel ;;
      c <- parseback (S es) c ;;
      b <- peek [59] ;;
      if b then
        gettoken ;;
        r <- parseline fuel ;;
        ret (List c r)
      else ret c
  end
with parsepipe (fuel : nat) : M nat cmd :=
  match fuel with
  | O => out_of_fuel
  | S fuel =>
      c <- parseexec fuel ;;
      b <- peek [124] ;;
      if b then
        gettoken ;;
        r <- parsepipe fuel ;;
        ret (Pipe c r)
      else ret c
  end
with parseexec (fuel : nat) : M nat cmd :=
  match fuel with
  | O => out_of_fuel
  | S fuel =>
      b <- peek [40] ;;
      if b then parseblock fuel else
      rs <- parseredirs (S es) [] ;;
      r <- parseargs (S es) [] rs ;;
      ret (foldl wrap (Exec (fst r)) (snd r))
  end
with parseblock (fuel : nat) : M nat cmd :=
  match fuel with
  | O => out_of_fuel
  | S fuel =>
      b <- peek [40] ;;
      if negb b then panic "parseblock" else
      gettoken ;;
      c <- parseline fuel ;;
      b <- peek [41] ;;
      if negb b then panic "syntax - missing )" else
      gettoken ;;
      rs <- parseredirs (S es) [] ;;
      ret (foldl wrap c rs)
  end.
End Parse.

(** The strings nulterminate ends, in order: for an execcmd the arguments, for a
    redircmd the file after the subcommand. *)
Fixpoint nulterminate (c : cmd) (buf : list Z) : option (list Z) :=
  match c with
  | Exec argv =>
      foldl (fun b a => b ← b; if (snd a <? length b)%nat then Some (<[snd a := 0]> b) else None) (Some buf) argv
  | Redir c file _ _ =>
      b ← nulterminate c buf; if (snd file <? length b)%nat then Some (<[snd file := 0]> b) else None
  | Pipe l r | List l r => b ← nulterminate l buf; nulterminate r b
  | Back c => nulterminate c buf
  end.

(** The command and the line with the strings terminated; "leftovers" is only printed. *)
Definition parsecmd (buf : list Z) : res nat (cmd * list Z) :=
  match strlen buf with
  | None => Fault
  | Some n =>
      let es := Z.to_nat n in
      (c <- parseline buf es (4 * es + 4) ;;
       peek buf es [] ;;
       s <- Prelude.gets id ;;
       if negb (s =? es)%nat then panic "syntax" else
       b <- lift_opt (nulterminate c buf) ;;
       ret (c, b)) 0%nat
  end.

(** ** What the parser guarantees *)

(** [m] returns with [Q], or panics. *)
Definition may {S A} (m : M S A) (Q : A -> S -> Prop) (s : S) : Prop :=
  match m s with Ret a s' => Q a s' | Panic _ => True | _ => False end.

Section May.
Context {S : Type}.

Lemma may_bind {A B} (m : M S A) (k : A -> M S B) Q s :
  may m (fun a s' => may (k a) Q s') s -> may (bind m k) Q s.
Proof. unfold may, bind. by destruct (m s). Qed.

Lemma may_mono {A} (m : M S A) (Q Q' : A -> S -> Prop) s : may m Q s -> (forall a s', Q a s' -> Q' a s') -> may m Q' s.
Proof. unfold may. destruct (m s); naive_solver. Qed.

Lemma may_lift {A} (o : option A) a (Q : A -> S -> Prop) s : o = Some a -> Q a s -> may (lift_opt o) Q s.
Proof. by intros ->. Qed.

Lemma may_of_wp {A} (m : M S A) (Q : A -> S -> Prop) s : wp m Q s -> may m Q s.
Proof. unfold may, wp. by destruct (m s). Qed.
End May.

(** A character of a word. *)
Definition wordc (c : Z) : bool := negb (strchr_in whitespace c) && negb (strchr_in symbols c) && negb (c =? 0).

Lemma strchr_in_spec toks c : Forall (fun a => a <> 0) toks -> strchr_in toks c = bool_decide (c ∈ toks).
Proof.
  unfold strchr_in. induction 1 as [|a toks Ha _ IH]; [done|]. cbn [app strchr]. rewrite (proj2 (Z.eqb_neq a 0)) by done.
  destruct (Z.eqb_spec a c) as [->|Hne]; [by rewrite bool_decide_eq_true_2 by left|].
  transitivity (bool_decide (c ∈ toks)).
  - rewrite <- IH. destruct (strchr _ c) as [[|]|]; done.
  - apply bool_decide_ext. rewrite elem_of_cons. naive_solver.
Qed.

Lemma not_symbol c :
  (c =? 124) || (c =? 40) || (c =? 41) || (c =? 59) || (c =? 38) || (c =? 60) = false -> c <> 62 -> strchr_in symbols c = false.
Proof.
  intros H Hgt. zbool. rewrite strchr_in_spec by (unfold symbols; repeat constructor; lia). apply bool_decide_eq_false_2.
  unfold symbols. rewrite !elem_of_cons, elem_of_nil. lia.
Qed.

Section Spec.
Context (buf : list Z) (es : nat).
Hypothesis Hnul : buf !! es = Some 0.
Hypothesis Hchars : forall i, (i < es)%nat -> exists c, buf !! i = Some c /\ c <> 0.

Lemma at_pos i : (i <= es)%nat -> exists c, buf !! i = Some c /\ (c = 0 <-> i = es).
Proof.
  intros Hi. destruct (decide (i = es)) as [->|Hne]; [by exists 0|]. destruct (Hchars i) as (c & Hc & Hz); [lia|]. exists c. split; [done|]. lia.
Qed.

(** [(q, eq)] is a run of word characters that goes on to the end of the word. *)
Definition word (w : span) : Prop :=
  (fst w < snd w <= es)%nat /\ (forall i, (fst w <= i < snd w)%nat -> exists c, buf !! i = Some c /\ wordc c = true) /\
  exists c, buf !! snd w = Some c /\ wordc c = false.

Lemma skip_ws_spec n s : (s <= es)%nat -> (es - s <= n)%nat ->
  exists s', skip_ws buf es n s = Some s' /\ (s <= s' <= es)%nat /\
    (forall c, buf !! s' = Some c -> strchr_in whitespace c = false) /\
    (forall c, buf !! s = Some c -> strchr_in whitespace c = false -> s' = s).
Proof.
  revert s. induction n as [|n IH]; intros s Hs Hn; cbn [skip_ws].
  - exists s. split; [done|]. split; [lia|]. split; [|done]. intros c Hc. assert (s = es) as -> by lia. rewrite Hnul in Hc. injection Hc as <-. done.
  - destruct (Nat.ltb_spec s es).
    + destruct (at_pos s) as (c & Hc & _); [lia|]. rewrite Hc. cbn [mbind option_bind].
      destruct (strchr_in whitespace c) eqn:E.
      * destruct (IH (S s)) as (s' & E' & Hr & Hw & _); [lia|lia|]. exists s'. split; [done|]. split; [lia|]. split; [done|]. congruence.
      * exists s. split; [done|]. split; [lia|]. split; [|done]. intros c' Hc'. congruence.
    + exists s. split; [done|]. split; [lia|]. split; [|done]. intros c Hc. assert (s = es) as -> by lia. rewrite Hnul in Hc. injection Hc as <-. done.
Qed.

Lemma skip_word_spec n s : (s <= es)%nat -> (es - s <= n)%nat ->
  exists s', skip_word buf es n s = Some s' /\ (s <= s' <= es)%nat /\
    (forall i, (s <= i < s')%nat -> exists c, buf !! i = Some c /\ wordc c = true) /\ exists c, buf !! s' = Some c /\ wordc c = false.
Proof.
  assert (exists c, buf !! es = Some c /\ wordc c = false) as Hend by (exists 0; by rewrite Hnul).
  revert s. induction n as [|n IH]; intros s Hs Hn; cbn [skip_word].
  - exists s. split; [done|]. split; [lia|]. split; [lia|]. by replace s with es by lia.
  - destruct (Nat.ltb_spec s es).
    + destruct (at_pos s) as (c & Hc & Hz); [lia|]. rewrite Hc. cbn [mbind option_bind].
      destruct (negb (strchr_in whitespace c) && negb (strchr_in symbols c)) eqn:E.
      * destruct (IH (S s)) as (s' & E' & Hr & Hw & He); [lia|lia|]. exists s'. split; [done|]. split; [lia|]. split; [|done].
        intros i Hi. destruct (decide (i = s)) as [->|]; [|apply Hw; lia]. exists c. split; [done|]. unfold wordc. rewrite E.
        rewrite (proj2 (Z.eqb_neq c 0)) by lia. done.
      * exists s. split; [done|]. split; [lia|]. split; [lia|]. exists c. split; [done|]. unfold wordc. by rewrite E.
    + exists s. split; [done|]. split; [lia|]. split; [lia|]. by replace s with es by lia.
Qed.

(** At position [s] the line has a character that is not white space. *)
Definition stop (s : nat) : Prop := exists c, buf !! s = Some c /\ c <> 0 /\ strchr_in whitespace c = false.

(** gettoken moves on, unless it is at the end of the line. *)
Lemma wp_gettoken s (Q : Z * span -> nat -> Prop) :
  (s <= es)%nat ->
  (forall tok w s', (s <= s' <= es)%nat -> (tok <> 0 -> (s < s')%nat) -> (tok = 97 -> word w) ->
     (stop s -> tok <> 0) -> Q (tok, w) s') ->
  wp (gettoken buf es) Q s.
Proof.
  intros Hs HQ. unfold gettoken. wp_steps. destruct (skip_ws_spec (es - s) s) as (q & E1 & H1 & W1 & W2); [lia|lia|].
  unfold id. eapply wp_lift_opt; [exact E1|]. wp_steps. destruct (at_pos q) as (c & Hc & Hz); [lia|]. eapply wp_lift_opt; [exact Hc|]. wp_steps.
  assert (forall rs : Z * nat, (q <= snd rs <= es)%nat -> (fst rs <> 0 -> (q < snd rs)%nat) -> (fst rs = 97 -> word (q, snd rs)) ->
    (fst rs = 0 -> q = es) ->
    wp (lift_opt (skip_ws buf es (es - snd rs) (snd rs)))
      (fun a s' => wp (modify (fun _ => a) ;; ret (fst rs, (q, snd rs))) Q s') s) as Hrest.
  { intros [t e] A1 A2 A3 A4. cbn [fst snd] in *. destruct (skip_ws_spec (es - e) e) as (s' & E2 & H2 & _ & _); [lia|lia|].
    eapply wp_lift_opt; [exact E2|]. wp_steps.
    apply HQ; [lia|intros Ht; specialize (A2 Ht); lia|done|].
    intros (c1 & Hc1 & Hn1 & Hw1) Ht. rewrite (W2 c1 Hc1 Hw1) in A4. specialize (A4 Ht). rewrite A4, Hnul in Hc1. congruence. }
  pose proof (W1 c Hc) as W1c.
  destruct (Z.eqb_spec c 0) as [->|Hc0]; [wp_steps; apply (Hrest (0, q)); cbn; [lia|done|done|intros _; by apply Hz]|].
  assert (q < es)%nat as Hq by (destruct (decide (q = es)); [exfalso; apply Hc0; by apply Hz|lia]).
  destruct ((c =? 124) || (c =? 40) || (c =? 41) || (c =? 59) || (c =? 38) || (c =? 60)) eqn:Esym.
  { wp_steps. apply (Hrest (c, S q)); cbn; [lia|lia|intros ->; done|done]. }
  destruct (Z.eqb_spec c 62) as [->|Hgt].
  { cbv zeta. wp_steps. destruct (at_pos (S q)) as (d & Hd & Hdz); [lia|]. eapply wp_lift_opt; [exact Hd|].
    destruct (Z.eqb_spec d 62) as [->|_]; wp_steps.
    - assert (S q <> es) by (intros E; apply Hdz in E; done). apply (Hrest (43, S (S q))); cbn; [lia|lia|done|done].
    - apply (Hrest (62, S q)); cbn; [lia|lia|done|done]. }
  wp_steps. destruct (skip_word_spec (es - q) q) as (e & E2 & H2 & Hw & He); [lia|lia|]. eapply wp_lift_opt; [exact E2|]. wp_steps.
  assert (q < e)%nat as Hqe.
  { destruct (decide (q = e)) as [<-|]; [|lia]. destruct He as (c' & Hc' & Hf). rewrite Hc in Hc'. injection Hc' as <-.
    exfalso. unfold wordc in Hf. rewrite W1c, (proj2 (Z.eqb_neq c 0)) in Hf by done. cbn [negb andb] in Hf. rewrite andb_true_r in Hf.
    apply negb_false_iff in Hf. apply (not_symbol c) in Esym; congruence. }
  apply (Hrest (97, e)); cbn; [lia|lia| |done]. intros _. split; [cbn; lia|]. by split.
Qed.

Lemma wp_peek toks s (Q : bool -> nat -> Prop) :
  (s <= es)%nat -> (forall b s', (s <= s' <= es)%nat -> (b = true -> stop s') -> Q b s') -> wp (peek buf es toks) Q s.
Proof.
  intros Hs HQ. unfold peek. wp_steps. destruct (skip_ws_spec (es - s) s) as (q & E1 & H1 & W1 & _); [lia|lia|].
  unfold id. eapply wp_lift_opt; [exact E1|]. wp_steps. destruct (at_pos q) as (c & Hc & Hz); [lia|]. eapply wp_lift_opt; [exact Hc|]. wp_steps.
  apply HQ; [lia|]. destruct (Z.eqb_spec c 0) as [E|E]; [done|]. intros _. exists c. split; [done|]. split; [done|]. by apply W1.
Qed.

(** A token read after peek found something. *)
Lemma wp_gettoken_some s (Q : Z * span -> nat -> Prop) :
  (s <= es)%nat -> stop s -> (forall tok w s', (s < s' <= es)%nat -> (tok = 97 -> word w) -> Q (tok, w) s') ->
  wp (gettoken buf es) Q s.
Proof.
  intros Hs Hst HQ. eapply wp_gettoken; [lia|]. intros tok w s' H1 H2 H3 H4. apply HQ; [|done]. specialize (H2 (H4 Hst)). lia.
Qed.

(** ** The commands that are built *)

Fixpoint cmd_ok (c : cmd) : Prop :=
  match c with
  | Exec argv => (length argv < MAXARGS)%nat /\ Forall word argv
  | Redir c file _ _ => cmd_ok c /\ word file
  | Pipe l r | List l r => cmd_ok l /\ cmd_ok r
  | Back c => cmd_ok c
  end.

Definition redirs_ok (rs : list redir) : Prop := Forall (fun r => word (r_file r)) rs.

Lemma wrap_ok c rs : cmd_ok c -> redirs_ok rs -> cmd_ok (foldl wrap c rs).
Proof.
  intros Hc Hrs. revert c Hc. induction Hrs as [|r rs Hr _ IH]; intros c Hc; [done|]. cbn. apply IH. by split.
Qed.

Lemma may_parseredirs n rs s (Q : list redir -> nat -> Prop) :
  (s <= es)%nat -> (es - s < n)%nat -> redirs_ok rs ->
  (forall rs' s', (s <= s' <= es)%nat -> redirs_ok rs' -> Q rs' s') -> may (parseredirs buf es n rs) Q s.
Proof.
  revert rs s. induction n as [|n IH]; intros rs s Hs Hn Hrs HQ; [lia|]. cbn [parseredirs].
  apply may_bind, may_of_wp, wp_peek; [done|]. intros [|] s1 H1 Hst; [|apply HQ; done || lia].
  apply may_bind, may_of_wp, wp_gettoken_some; [lia|by apply Hst|]. intros tok w s2 H2 _.
  apply may_bind, may_of_wp, wp_gettoken; [lia|]. intros tok' w' s3 H3 _ Hw _. cbn [fst snd].
  destruct (Z.eqb_spec tok' 97) as [->|]; [|done]. cbn [negb]. apply IH; [lia|lia| |].
  - assert (forall m f, redirs_ok (rs ++ [mkredir w' m f])) as Hok.
    { intros m f. apply Forall_app. split; [done|]. apply list.Forall_singleton. by apply Hw. }
    repeat case_match; done.
  - intros rs' s' H' Hrs'. apply HQ; [lia|done].
Qed.

Lemma may_parseargs n argv rs s (Q : list span * list redir -> nat -> Prop) :
  (s <= es)%nat -> (es - s < n)%nat -> redirs_ok rs -> Forall word argv -> (length argv < MAXARGS)%nat ->
  (forall argv' rs' s', (s <= s' <= es)%nat -> redirs_ok rs' -> Forall word argv' -> (length argv' < MAXARGS)%nat -> Q (argv', rs') s') ->
  may (parseargs buf es n argv rs) Q s.
Proof.
  revert argv rs s. induction n as [|n IH]; intros argv rs s Hs Hn Hrs Ha Hl HQ; [lia|]. cbn [parseargs].
  apply may_bind, may_of_wp, wp_peek; [done|]. intros b s1 H1 _. destruct b; cbn [negb]; [apply HQ; done || lia|].
  apply may_bind, may_of_wp, wp_gettoken; [lia|]. intros tok w s2 H2 Hp Hw _. cbn [fst snd].
  destruct (Z.eqb_spec tok 0) as [->|Hz]; [apply HQ; done || lia|]. destruct (Z.eqb_spec tok 97) as [->|]; [|done]. cbn [negb].
  destruct (Nat.leb_spec MAXARGS (length (argv ++ [w]))) as [|Hlen]; [done|]. specialize (Hp Hz).
  apply may_bind, may_parseredirs; [lia|lia|done|]. intros rs' s3 H3 Hrs'.
  apply IH; [lia|lia|done| |done|].
  - apply Forall_app. split; [done|]. apply list.Forall_singleton. by apply Hw.
  - intros argv' rs'' s' H'. apply HQ. lia.
Qed.

Lemma may_parseback n c s (Q : cmd -> nat -> Prop) :
  (s <= es)%nat -> (es - s < n)%nat -> cmd_ok c -> (forall c' s', (s <= s' <= es)%nat -> cmd_ok c' -> Q c' s') ->
  may (parseback buf es n c) Q s.
Proof.
  revert c s. induction n as [|n IH]; intros c s Hs Hn Hc HQ; [lia|]. cbn [parseback].
  apply may_bind, may_of_wp, wp_peek; [done|]. intros [|] s1 H1 Hst; [|apply HQ; done || lia].
  apply may_bind, may_of_wp, wp_gettoken_some; [lia|by apply Hst|]. intros tok w s2 H2 _.
  apply IH; [lia|lia|done|]. intros c' s' H'. apply HQ. lia.
Qed.

(** Fuel for the four routines: each round of calls that does not move on is three deep. *)
Definition parses (m : M nat cmd) (s : nat) : Prop :=
  forall Q : cmd -> nat -> Prop, (forall c s', (s <= s' <= es)%nat -> cmd_ok c -> Q c s') -> may m Q s.

Lemma parse_ok fuel :
  (forall s, (s <= es)%nat -> (4 * (es - s) + 4 <= fuel)%nat -> parses (parseline buf es fuel) s) /\
  (forall s, (s <= es)%nat -> (4 * (es - s) + 3 <= fuel)%nat -> parses (parsepipe buf es fuel) s) /\
  (forall s, (s <= es)%nat -> (4 * (es - s) + 2 <= fuel)%nat -> parses (parseexec buf es fuel) s) /\
  (forall s, (s <= es)%nat -> stop s -> (4 * (es - s) + 1 <= fuel)%nat -> parses (parseblock buf es fuel) s).
Proof.
  induction fuel as [|fuel (IHl & IHp & IHe & IHb)]; [repeat split; intros; lia|].
  split; [|split; [|split]]; intros s Hs.
  - intros Hf Q HQ. cbn [parseline]. apply may_bind, (IHp s Hs); [lia|]. intros c1 s1 H1 C1.
    apply may_bind, may_parseback; [lia|lia|done|]. intros c2 s2 H2 C2.
    apply may_bind, may_of_wp, wp_peek; [lia|]. intros [|] s3 H3 Hst; [|apply HQ; done || lia].
    apply may_bind, may_of_wp, wp_gettoken_some; [lia|by apply Hst|]. intros tok w s4 H4 _.
    apply may_bind, (IHl s4); [lia|lia|]. intros c5 s5 H5 C5. apply HQ; [lia|done].
  - intros Hf Q HQ. cbn [parsepipe]. apply may_bind, (IHe s Hs); [lia|]. intros c1 s1 H1 C1.
    apply may_bind, may_of_wp, wp_peek; [lia|]. intros [|] s3 H3 Hst; [|apply HQ; done || lia].
    apply may_bind, may_of_wp, wp_gettoken_some; [lia|by apply Hst|]. intros tok w s4 H4 _.
    apply may_bind, (IHp s4); [lia|lia|]. intros c5 s5 H5 C5. apply HQ; [lia|done].
  - intros Hf Q HQ. cbn [parseexec]. apply may_bind, may_of_wp, wp_peek; [lia|]. intros [|] s1 H1 Hst.
    + apply (IHb s1); [lia|by apply Hst|lia|]. intros c2 s2 H2. apply HQ. lia.
    + apply may_bind, may_parseredirs; [lia|lia|by constructor|]. intros rs s2 H2 Hrs.
      apply may_bind, may_parseargs; [lia|lia|done|done|cbn; unfold MAXARGS; lia|]. intros argv rs' s3 H3 Hrs' Ha Hl.
      apply HQ; [lia|]. by apply wrap_ok.
  - intros Hst Hf Q HQ. cbn [parseblock]. apply may_bind, may_of_wp, wp_peek; [lia|]. intros [|] s1 H1 Hst1; [|done].
    cbn [negb]. apply may_bind, may_of_wp, wp_gettoken_some; [lia|by apply Hst1|]. intros tok w s2 H2 _.
    apply may_bind, (IHl s2); [lia|lia|]. intros c3 s3 H3 C3.
    apply may_bind, may_of_wp, wp_peek; [lia|]. intros [|] s4 H4 Hst4; [|done]. cbn [negb].
    apply may_bind, may_of_wp, wp_gettoken_some; [lia|by apply Hst4|]. intros tok' w' s5 H5 _.
    apply may_bind, may_parseredirs; [lia|lia|by constructor|]. intros rs s6 H6 Hrs. apply HQ; [lia|]. by apply wrap_ok.
Qed.
End Spec.

(** ** Terminating the strings *)

(** The strings of a command, in the order nulterminate ends them. *)
Fixpoint spans (c : cmd) : list span :=
  match c with
  | Exec argv => argv
  | Redir c file _ _ => spans c ++ [file]
  | Pipe l r | List l r => spans l ++ spans r
  | Back c => spans c
  end.

Definition zero_at (l : list span) (b : list Z) : list Z := foldl (fun b w => <[snd w := 0]> b) b l.

Lemma length_zero_at l b : length (zero_at l b) = length b.
Proof. unfold zero_at. revert b. induction l as [|w l IH]; intros b; [done|]. cbn. by rewrite IH, length_insert. Qed.

Lemma zero_at_app l l' b : zero_at (l ++ l') b = zero_at l' (zero_at l b).
Proof. apply foldl_app. Qed.

Lemma lookup_zero_at l b i :
  (i < length b)%nat -> zero_at l b !! i = if decide (i ∈ snd <$> l) then Some 0 else b !! i.
Proof.
  unfold zero_at. revert b. induction l as [|w l IH]; intros b Hi; [by rewrite decide_False by apply not_elem_of_nil|].
  cbn [foldl fmap list_fmap]. rewrite IH by (by rewrite length_insert). destruct (decide (i ∈ snd <$> l)) as [H|H].
  - rewrite decide_True by (by right). done.
  - destruct (decide (i = snd w)) as [->|Hne].
    + rewrite list_lookup_insert_eq, decide_True by (done || left). done.
    + rewrite list_lookup_insert_ne by done. rewrite decide_False by (rewrite elem_of_cons; naive_solver). done.
Qed.

Lemma nulterminate_zero c b :
  Forall (fun w => snd w < length b)%nat (spans c) -> nulterminate c b = Some (zero_at (spans c) b).
Proof.
  revert b. induction c as [argv|c IHc file mode fd|l IHl r IHr|l IHl r IHr|c IHc]; intros b Hs; cbn [nulterminate spans] in *.
  - revert b Hs. induction argv as [|w argv IH]; intros b Hs; [done|]. apply list.Forall_cons in Hs as [Hw Hs]. cbn [foldl mbind option_bind].
    rewrite (proj2 (Nat.ltb_lt _ _)) by done. rewrite IH; [done|]. by rewrite length_insert.
  - apply Forall_app in Hs as [H1 H2]. apply list.Forall_cons in H2 as [H2 _]. rewrite IHc by done. cbn [mbind option_bind].
    rewrite length_zero_at, (proj2 (Nat.ltb_lt _ _)) by (exact H2). rewrite zero_at_app. done.
  - apply Forall_app in Hs as [H1 H2]. rewrite IHl by done. cbn [mbind option_bind]. rewrite IHr, zero_at_app by (by rewrite length_zero_at). done.
  - apply Forall_app in Hs as [H1 H2]. rewrite IHl by done. cbn [mbind option_bind]. rewrite IHr, zero_at_app by (by rewrite length_zero_at). done.
  - by apply IHc.
Qed.

Lemma spans_words buf es c : cmd_ok buf es c -> Forall (word buf es) (spans c).
Proof.
  induction c as [argv|c IHc file mode fd|l IHl r IHr|l IHl r IHr|c IHc]; cbn [cmd_ok spans].
  - tauto.
  - intros [H1 H2]. apply Forall_app. split; [auto|by apply list.Forall_singleton].
  - intros [H1 H2]. apply Forall_app. auto.
  - intros [H1 H2]. apply Forall_app. auto.
  - auto.
Qed.

(** The C string at index [q]. *)
Definition string_at (b : list Z) (q : nat) : list Z := Str.cstr (length b) (drop q b).

Lemma cstr_span n (p : list Z) k :
  (k < n)%nat -> p !! k = Some 0 -> (forall i, (i < k)%nat -> exists c, p !! i = Some c /\ c <> 0) -> Str.cstr n p = take k p.
Proof.
  revert n p. induction k as [|k IH]; intros [|n] p Hn Hk Hi; try lia.
  - destruct p as [|c p]; [done|]. cbn in Hk. injection Hk as ->. done.
  - destruct p as [|c p]; [done|]. destruct (Hi 0%nat) as (c' & Hc' & Hz); [lia|]. cbn in Hc'. injection Hc' as <-.
    cbn [Str.cstr take]. rewrite (proj2 (Z.eqb_neq c 0)) by done. f_equal. apply IH; [lia|done|]. intros i Hlt. apply (Hi (S i)). lia.
Qed.

Section Line.
Context (line rest : list Z).
Let buf := line ++ 0 :: rest.
Let es := length line.
Hypothesis Hline : Forall (fun c => c <> 0) line.
Hypothesis Hlen : Z.of_nat (length line) < 2 ^ 31.

Lemma strlen_line : strlen buf = Some (Z.of_nat es).
Proof.
  assert (forall l n, Forall (fun c => c <> 0) l -> 0 <= n -> n + Z.of_nat (length l) < 2 ^ 31 ->
    strlen_from n (l ++ 0 :: rest) = Some (n + Z.of_nat (length l))) as H.
  { induction l as [|c l IH]; intros n Hl Hn Hlt; cbn [app strlen_from length].
    - cbn. rewrite u32_small by (cbn in Hlt; lia). f_equal. lia.
    - apply list.Forall_cons in Hl as [Hc Hl]. cbn [length] in Hlt. rewrite (proj2 (Z.eqb_neq c 0)), i32_small, IH by (done || lia). f_equal. lia. }
  apply (H line 0); [done|lia|lia].
Qed.

Lemma line_nul : buf !! es = Some 0.
Proof. unfold buf, es. rewrite lookup_app_r by lia. by rewrite Nat.sub_diag. Qed.

Lemma line_chars i : (i < es)%nat -> exists c, buf !! i = Some c /\ c <> 0.
Proof.
  intros Hi. unfold buf, es in *. destruct (lookup_lt_is_Some_2 line i Hi) as [c Hc]. exists c. rewrite lookup_app_l by lia.
  split; [done|]. by eapply list.Forall_lookup in Hline.
Qed.

Lemma parsecmd_may : exists r, parsecmd buf = r /\ match r with
  | Ret (c, b) _ => cmd_ok buf es c /\ b = zero_at (spans c) buf
  | Panic _ => True
  | _ => False end.
Proof.
  eexists. split; [done|]. unfold parsecmd. rewrite strlen_line, Nat2Z.id.
  match goal with |- match ?m 0%nat with _ => _ end => enough (may m (fun cb _ => cmd_ok buf es (fst cb) /\ snd cb = zero_at (spans (fst cb)) buf) 0%nat) as Hm;
    [unfold may in Hm; destruct (m 0%nat) as [[c b] s| | | |]; done|] end.
  apply may_bind, (proj1 (parse_ok buf es line_nul line_chars (4 * es + 4))); [lia|lia|]. intros c s H C.
  apply may_bind, may_of_wp, (wp_peek _ _ line_nul line_chars); [lia|]. intros _ s' _ _. apply may_bind.
  change (may (if negb (s' =? es)%nat then panic "syntax" else b <- lift_opt (nulterminate c buf) ;; ret (c, b))
    (fun cb _ => cmd_ok buf es (fst cb) /\ snd cb = zero_at (spans (fst cb)) buf) s').
  destruct (negb _); [done|]. apply may_bind. eapply (may_lift _ (zero_at (spans c) buf)); [apply nulterminate_zero|exact (conj C eq_refl)].
  eapply list.Forall_impl; [by apply spans_words|]. intros w ((_ & Hw) & _). unfold buf. rewrite length_app. cbn. unfold es in Hw. lia.
Qed.

(** C31: the parser of the shell ends on every line: it returns a command, or it panics
    with a message; it never reads or writes outside the line. *)
Theorem parsecmd_terminates : (exists c b s, parsecmd buf = Ret (c, b) s) \/ exists msg, parsecmd buf = Panic msg.
Proof. destruct parsecmd_may as (r & -> & H). destruct r as [[c b] s|msg| | |]; naive_solver. Qed.

(** Every command the parser returns has at most nine arguments in each part, all made of
    word characters up to the end of a word, and read as C strings from the line parsecmd
    leaves behind they are exactly these words. *)
Lemma parsecmd_strings c b s :
  parsecmd buf = Ret (c, b) s ->
  cmd_ok buf es c /\ Forall (fun w => string_at b (fst w) = slice (fst w) (snd w - fst w) line) (spans c).
Proof.
  intros E. destruct parsecmd_may as (r & Er & H). rewrite E in Er. subst r. destruct H as [C ->]. split; [done|].
  pose proof (spans_words _ _ _ C) as Hw. apply list.Forall_forall. intros w Hin. rewrite list.Forall_forall in Hw.
  assert (length buf = S (es + length rest)) as Hbl by (unfold buf, es; rewrite length_app; cbn; lia).
  destruct (Hw w Hin) as ((Hr1 & Hr2) & Hwc & _). unfold string_at. rewrite length_zero_at.
  assert (forall i, (fst w <= i < snd w)%nat -> exists ch, zero_at (spans c) buf !! i = Some ch /\ ch <> 0 /\ line !! i = Some ch) as Hsame.
  { intros i Hi. destruct (Hwc i Hi) as (ch & Hch & Hwd). exists ch. rewrite lookup_zero_at by lia. rewrite decide_False.
    - split; [done|]. split; [intros ->; done|]. unfold buf in Hch. rewrite lookup_app_l in Hch by (unfold es in *; lia). done.
    - intros (w' & -> & Hin')%list_elem_of_fmap. destruct (Hw w' Hin') as (_ & _ & ch' & Hch' & Hf). congruence. }
  rewrite (cstr_span _ _ (snd w - fst w)); [|lia| |].
  - apply list_eq. intros i. unfold slice. destruct (decide (i < snd w - fst w)%nat) as [Hi|Hi].
    + rewrite !lookup_take_lt, !lookup_drop by lia. destruct (Hsame (fst w + i)%nat) as (ch & -> & _ & ->); [lia|]. done.
    + rewrite !lookup_take_ge by lia. done.
  - rewrite lookup_drop. replace (fst w + (snd w - fst w))%nat with (snd w) by lia. rewrite lookup_zero_at by lia.
    rewrite decide_True; [done|]. apply list_elem_of_fmap. by exists w.
  - intros i Hi. rewrite lookup_drop. destruct (Hsame (fst w + i)%nat) as (ch & Hch & Hz & _); [lia|]. eauto.
Qed.
End Line.

(** The line "ls <f|wc&": two commands, an input redirection, a pipe in the background. *)
Definition demo_line : list Z := [108; 115; 32; 60; 102; 124; 119; 99; 38; 10].

Lemma parsecmd_terminates_witness :
  (exists c b s, parsecmd (demo_line ++ [0]) = Ret (c, b) s) \/ exists msg, parsecmd (demo_line ++ [0]) = Panic msg.
Proof. apply (parsecmd_terminates demo_line []); [unfold demo_line; repeat constructor; lia|cbn; lia]. Defined.

(** ** Running a command

    runcmd never returns: it is the sequence of system calls the process makes, with what
    follows as a function of what a call returns. *)

Inductive prog :=
| Exit
| ExecP (path : list Z) (argv : list (list Z)) (k : prog)
| CloseP (fd : Z) (k : prog)
| OpenP (path : list Z) (mode : Z) (k : Z -> prog)
| ForkP (k : Z -> prog)
| WaitP (k : prog)
| PipeP (k : option (Z * Z) -> prog)
| DupP (fd : Z) (k : prog)
| PrintP (msg : list Z) (k : prog).

(** "exec %s failed\n", "open %s failed\n", "pipe", "fork" are printed on file 2. *)
Definition msg_failed (what path : list Z) : list Z := what ++ [32] ++ path ++ [32; 102; 97; 105; 108; 101; 100; 10].
Definition sh_panic (s : list Z) : prog := PrintP (s ++ [10]) Exit.
Definition fork1 (k : Z -> prog) : prog :=
  ForkP (fun pid => if pid =? -1 then sh_panic [102; 111; 114; 107] else k pid).

Fixpoint runcmd (b : list Z) (c : cmd) : prog :=
  match c with
  | Exec [] => Exit
  | Exec ((w :: _) as argv) =>
      ExecP (string_at b (fst w)) ((fun w => string_at b (fst w)) <$> argv)
        (PrintP (msg_failed [101; 120; 101; 99] (string_at b (fst w))) Exit)
  | Redir c file mode fd =>
      CloseP fd (OpenP (string_at b (fst file)) mode (fun r =>
        if r <? 0 then PrintP (msg_failed [111; 112; 101; 110] (string_at b (fst file))) Exit else runcmd b c))
  | List l r => fork1 (fun pid => if pid =? 0 then runcmd b l else WaitP (runcmd b r))
  | Pipe l r =>
      PipeP (fun p => match p with
      | None => sh_panic [112; 105; 112; 101]
      | Some (p0, p1) =>
          fork1 (fun pid => if pid =? 0 then
              CloseP 1 (DupP p1 (CloseP p0 (CloseP p1 (runcmd b l))))
            else fork1 (fun pid => if pid =? 0 then
              CloseP 0 (DupP p0 (CloseP p0 (CloseP p1 (runcmd b r))))
            else CloseP p0 (CloseP p1 (WaitP (WaitP Exit)))))
      end)
  | Back c => fork1 (fun pid => if pid =? 0 then runcmd b c else Exit)
  end.

(** getcmd: the result, the buffer and the rest of the input; the prompt is printed. *)
Definition getcmd (nbuf : Z) (input : list Z) : option (Z * list Z * list Z) :=
  r ← Ulib.gets (replicate (Z.to_nat nbuf) 0) nbuf input;
  c ← head (fst r);
  Some (if c =? 0 then -1 else 0, fst r, snd r).

(** One round of the loop of main on the line in [buf]: a chdir, or a child that runs the command. *)
Inductive round := Chdir (path : list Z) | Child (r : res nat prog).
Definition main_round (buf : list Z) : option round :=
  c0 ← buf !! 0%nat; c1 ← buf !! 1%nat; c2 ← buf !! 2%nat;
  if (c0 =? 99) && (c1 =? 100) && (c2 =? 32) then
    n ← strlen buf;
    let buf := <[Z.to_nat (n - 1) := 0]> buf in
    Some (Chdir (string_at buf 3))
  else Some (Child match parsecmd buf with
    | Ret (c, b) s => Ret (runcmd b c) s
    | Panic m => Panic m
    | Sleep ch s => Sleep ch s
    | Fault => Fault
    | Fuel => Fuel
    end).

(** ** Pipelines

    A process has a table of open files; open, pipe and dup take the lowest free
    descriptor.  [execs] is the programs that are executed when every call succeeds, each
    with its table, the child of a fork before its parent; [k] numbers the pipes. *)

Inductive file := Given (n : Z) | ReadEnd (k : nat) | WriteEnd (k : nat) | Opened (path : list Z) (mode : Z).

Fixpoint lowest (t : list (option file)) : option nat :=
  match t with [] => None | None :: _ => Some 0%nat | Some _ :: t => S <$> lowest t end.

Definition fdalloc (f : file) (t : list (option file)) : Z * list (option file) :=
  match lowest t with
  | Some i => (Z.of_nat i, <[i := Some f]> t)
  | None => (-1, t)
  end.

Fixpoint execs (p : prog) (t : list (option file)) (k : nat) : list (list (list Z) * list (option file)) * nat :=
  match p with
  | Exit => ([], k)
  | ExecP _ argv _ => ([(argv, t)], k)
  | CloseP fd p => execs p (<[Z.to_nat fd := None]> t) k
  | OpenP path mode q => let '(fd, t) := fdalloc (Opened path mode) t in execs (q fd) t k
  | ForkP q =>
      let '(l1, k) := execs (q 0) t k in
      let '(l2, k) := execs (q 1) t k in (l1 ++ l2, k)
  | WaitP p => execs p t k
  | PipeP q =>
      let '(fd0, t) := fdalloc (ReadEnd k) t in
      let '(fd1, t) := fdalloc (WriteEnd k) t in execs (q (Some (fd0, fd1))) t (S k)
  | DupP fd p => match t !! Z.to_nat fd with
      | Some (Some f) => execs p (snd (fdalloc f t)) k
      | _ => execs p t k end
  | PrintP _ p => execs p t k
  end.

(** Files 0, 1 and 2 open, nothing else. *)
Definition stdio (i o e : file) : list (option file) := [Some i; Some o; Some e] ++ replicate 13 None.

(** c1 | c2 | ... as parsepipe builds it. *)
Fixpoint pipeline (c : list span) (cs : list (list span)) : cmd :=
  match cs with [] => Exec c | c' :: cs => Pipe (Exec c) (pipeline c' cs) end.

(** Each program reads from the pipe its predecessor writes to. *)
Fixpoint wired (b : list Z) (c : list span) (cs : list (list span)) (i o e : file) (k : nat) : list (list (list Z) * list (option file)) :=
  let args := (fun w => string_at b (fst w)) <$> c in
  match cs with
  | [] => [(args, stdio i o e)]
  | c' :: cs => (args, stdio i (WriteEnd k) e) :: wired b c' cs (ReadEnd k) o e (S k)
  end.

(** C38: A pipeline of any length is wired up as it should be: its programs run in order, each
    reading what the one before it writes, the first from the input of the shell and the last
    to its output, and no program has another end of a pipe left open. *)
Theorem pipeline_wired b c cs i o e k :
  Forall (fun c => c <> []) (c :: cs) ->
  fst (execs (runcmd b (pipeline c cs)) (stdio i o e) k) = wired b c cs i o e k.
Proof.
  revert c i k. induction cs as [|c' cs IH]; intros c i k Hne; apply list.Forall_cons in Hne as [Hc Hcs].
  - destruct c as [|w c]; done.
  - specialize (IH c' (ReadEnd k) (S k) Hcs). destruct c as [|w c]; [done|].
    cbn. change (Z.to_nat (Z.of_nat 4)) with 4%nat. change (Z.to_nat (Z.of_nat 3)) with 3%nat.
    change (Z.to_nat 1) with 1%nat. change (Z.to_nat 0) with 0%nat. cbn. cbn in IH.
    destruct (execs (runcmd b (pipeline c' cs)) _ (S k)) as [l k']. cbn in *. by rewrite app_nil_r, IH.
Qed.

(** Two programs, [a] and [b], at 0 and 2 of the line. *)
Lemma pipeline_wired_witness :
  fst (execs (runcmd [97; 0; 98; 0] (Pipe (Exec [(0, 1)%nat]) (Exec [(2, 3)%nat]))) (stdio (Given 0) (Given 1) (Given 2)) 7) =
    [([[97]], stdio (Given 0) (WriteEnd 7) (Given 2)); ([[98]], stdio (ReadEnd 7) (Given 1) (Given 2))].
Proof.
  apply (pipeline_wired [97; 0; 98; 0] [(0, 1)%nat] [[(2, 3)%nat]] (Given 0) (Given 1) (Given 2) 7). repeat constructor; discriminate.
Defined.

(** ** main *)

Definition console_name : list Z := [99; 111; 110; 115; 111; 108; 101].
Definition O_RDWR : Z := 2.

(** The loop that opens the console until three descriptors are open. *)
Fixpoint open_console (n : nat) (t : list (option file)) : option (list (option file)) :=
  match n with
  | O => None
  | S n =>
      let '(fd, t) := fdalloc (Opened console_name O_RDWR) t in
      if fd <? 0 then Some t
      else if 3 <=? fd then Some (<[Z.to_nat fd := None]> t)
      else open_console n t
  end.

(** The loop over the lines of the input. *)
Fixpoint sh_loop (n : nat) (input : list Z) : option (list round) :=
  match n with
  | O => None
  | S n =>
      r ← getcmd 100 input;
      let '(ok, buf, input) := r in
      if ok <? 0 then Some [] else
      x ← main_round buf;
      xs ← sh_loop n input;
      Some (x :: xs)
  end.

Definition sh_main (t : list (option file)) (input : list Z) : option (list (option file) * list round) :=
  t ← open_console 4 t;
  l ← sh_loop (S (length input)) input;
  Some (t, l).

(** Whatever it inherits, the shell has descriptors 0, 1 and 2 open afterwards, the files it
    had where they were, and no descriptor more. *)
Lemma open_console_spec t :
  (3 <= length t)%nat ->
  exists t', open_console 4 t = Some t' /\ length t' = length t /\
    forall i, t' !! i = if (i <? 3)%nat then (fun o => Some (default (Opened console_name O_RDWR) o)) <$> t !! i else t !! i.
Proof.
  intros Hl. destruct t as [|a [|b [|c t]]]; cbn in Hl; [lia..|].
  set (f := Opened console_name O_RDWR).
  assert (open_console 1 (Some (default f a) :: Some (default f b) :: Some (default f c) :: t) =
    Some (Some (default f a) :: Some (default f b) :: Some (default f c) :: t)) as E.
  { cbn. unfold fdalloc. cbn. destruct (lowest t) as [j|] eqn:Ej; cbn; [|done].
    destruct (Z.ltb_spec (Z.of_nat (S (S (S j)))) 0); [lia|]. destruct (Z.leb_spec 3 (Z.of_nat (S (S (S j))))); [|lia].
    rewrite Nat2Z.id. cbn. do 4 f_equal. clear -Ej. revert j Ej. induction t as [|[g|] t IH]; intros j Ej; cbn in *; [done| |by injection Ej as <-].
    destruct (lowest t) as [i|]; [|done]. injection Ej as <-. cbn. f_equal. by apply IH. }
  assert (forall n t1 t2, open_console n t1 = Some t2 -> open_console (S n) t1 = Some t2) as Hmono.
  { clear. induction n as [|n IH]; intros t1 t2 H; [done|]. cbn [open_console] in H |- *. destruct (fdalloc _ t1) as [fd t'].
    destruct (fd <? 0); [done|]. destruct (3 <=? fd); [done|]. by apply IH. }
  exists (Some (default f a) :: Some (default f b) :: Some (default f c) :: t). split; [|split; [done|by intros [|[|[|i]]]]].
  destruct a, b, c; cbn [default] in E; repeat first [exact E|apply Hmono; exact E|apply Hmono, Hmono; exact E|apply Hmono, Hmono, Hmono; exact E|progress cbn [open_console fdalloc lowest fmap option_fmap option_map]].
Qed.

Lemma gets_loop_total n i max buf input :
  0 <= i < max -> Z.of_nat (length buf) = max -> max - i < Z.of_nat n ->
  exists buf' i' rest, Ulib.gets_loop n i max buf input = Some (buf', i', rest) /\ length buf' = length buf /\ i <= i' < max /\
    (length rest <= length input)%nat /\ (i' = i \/ (length rest < length input)%nat).
Proof.
  revert i buf input. induction n as [|n IH]; intros i buf input Hi Hb Hn; [lia|]. cbn [Ulib.gets_loop].
  destruct (Z.ltb_spec (i + 1) max); [|exists buf, i, input; split_and!; auto; lia].
  destruct input as [|c input]; [exists buf, i, []; split_and!; auto; lia|].
  destruct (Nat.ltb_spec (Z.to_nat i) (length buf)); [|lia]. destruct ((c =? 10) || (c =? 13)).
  - eexists _, _, _. split; [done|]. rewrite length_insert. cbn. split_and!; lia.
  - destruct (IH (i + 1) (<[Z.to_nat i := c]> buf) input) as (b' & i' & rest & -> & H1 & H2 & H3 & _); [lia|by rewrite length_insert|lia|].
    rewrite length_insert in H1. eexists _, _, _. split; [done|]. cbn. split_and!; lia.
Qed.

(** The line is a string in the buffer; when it is not empty input was consumed. *)
Lemma getcmd_total nbuf input :
  0 < nbuf ->
  exists r buf rest, getcmd nbuf input = Some (r, buf, rest) /\ length buf = Z.to_nat nbuf /\
    (exists i, buf !! i = Some 0) /\ (r < 0 \/ (length rest < length input)%nat).
Proof.
  intros Hn. unfold getcmd, Ulib.gets.
  destruct (gets_loop_total (S (Z.to_nat nbuf)) 0 nbuf (replicate (Z.to_nat nbuf) 0) input) as (b & i & rest & -> & H1 & H2 & H3 & H4); [lia|rewrite length_replicate; lia|lia|].
  rewrite length_replicate in H1. cbn [mbind option_bind]. rewrite (proj2 (Nat.ltb_lt (Z.to_nat i) (length b))) by lia. cbn.
  destruct (<[Z.to_nat i := 0]> b) as [|c b'] eqn:E; [apply (f_equal length) in E; rewrite length_insert in E; cbn in E; lia|]. cbn.
  exists (if c =? 0 then -1 else 0), (c :: b'), rest. split_and!; [done|rewrite <- E, length_insert; lia| |].
  - exists (Z.to_nat i). rewrite <- E. apply list_lookup_insert_eq. lia.
  - destruct H4 as [->|H4]; [|by right]. left. destruct b as [|x b]; [done|]. cbn in E. by injection E as <- <-.
Qed.

Lemma strlen_from_total n s i : s !! i = Some 0 -> is_Some (strlen_from n s).
Proof.
  revert n i. induction s as [|c s IH]; intros n i Hi; [done|]. cbn. destruct (Z.eqb_spec c 0); [done|].
  destruct i as [|i]; [by injection Hi|]. by eapply IH.
Qed.

Lemma main_round_total buf i : (3 <= length buf)%nat -> buf !! i = Some 0 -> is_Some (main_round buf).
Proof.
  intros Hl Hi. unfold main_round. destruct (strlen_from_total 0 _ _ Hi) as [n E].
  destruct (lookup_lt_is_Some_2 buf 0) as [a ->]; [lia|]. destruct (lookup_lt_is_Some_2 buf 1) as [b ->]; [lia|].
  destruct (lookup_lt_is_Some_2 buf 2) as [c ->]; [lia|]. cbn [mbind option_bind]. destruct (_ && _ && _); [|done].
  unfold strlen. by rewrite E.
Qed.

(** The shell comes to the end of any input: every line is read into the buffer and is a
    chdir or a command, and main ends, with its three descriptors open. *)
Theorem sh_main_ends t input :
  (3 <= length t)%nat ->
  exists t' l, sh_main t input = Some (t', l) /\ (length l <= length input)%nat /\ forall i, (i < 3)%nat -> exists f, t' !! i = Some (Some f).
Proof.
  intros Ht. destruct (open_console_spec t Ht) as (t' & E & _ & Hi). unfold sh_main. rewrite E. cbn [mbind option_bind].
  assert (forall n input, (length input < n)%nat -> exists l, sh_loop n input = Some l /\ (length l <= length input)%nat) as Hloop.
  { clear. induction n as [|n IH]; intros input Hn; [lia|]. cbn [sh_loop].
    destruct (getcmd_total 100 input) as (r & buf & rest & -> & Hb & [i Hi] & Hr); [lia|]. cbn.
    destruct (Z.ltb_spec r 0); [exists []; split; [done|cbn; lia]|]. destruct Hr as [Hr|Hr]; [lia|].
    destruct (main_round_total buf i) as [x ->]; [rewrite Hb; lia|done|]. destruct (IH rest) as (xs & Ex & Hx); [lia|].
    cbn. rewrite Ex. exists (x :: xs). split; [done|cbn; lia]. }
  destruct (Hloop (S (length input)) input) as (l & -> & Hl); [lia|]. exists t', l. split_and!; [done|done|].
  intros i Hlt. rewrite Hi, (proj2 (Nat.ltb_lt _ _) Hlt). destruct (lookup_lt_is_Some_2 t i) as [o ->]; [lia|]. by eexists.
Qed.
