(* ===== verification/Shparse.v ===== *)
(** * The grammar of the shell

    The tokens of a line and the commands they stand for, as relations: [lexes] cuts the
    line into symbols and longest words, [g_line] is the grammar that the comments of sh.c
    sketch.  The parser of [Sh] is shown to accept exactly the lines of the grammar, with
    the command the grammar gives. *)

From stdpp Require Import base list numbers strings.
From S2P Require Import Prelude CString Ulib Sh.

Open Scope Z_scope.
Local Open Scope kernel_scope.

(** Characters in and out of the sets. *)
Ltac memb := unfold whitespace, symbols in *; rewrite ?elem_of_cons, ?elem_of_nil in *; lia.

(** A token as gettoken returns it: its kind, where it starts and where it ends. *)
Abbreviation token := (Z * span)%type.

(** ** The grammar *)

Inductive g_redirs : list token -> list redir -> Prop :=
| gr_none : g_redirs [] []
| gr_in q w ts rs : g_redirs ts rs -> g_redirs ((60, q) :: (97, w) :: ts) (mkredir w O_RDONLY 0 :: rs)
| gr_out k q w ts rs :
    k = 62 \/ k = 43 -> g_redirs ts rs ->
    g_redirs ((k, q) :: (97, w) :: ts) (mkredir w (Z.lor O_WRONLY O_CREATE) 1 :: rs).

Inductive g_args : list token -> list span -> list redir -> Prop :=
| ga_none : g_args [] [] []
| ga_word w ts1 rs1 ts2 argv rs2 :
    g_redirs ts1 rs1 -> g_args ts2 argv rs2 -> g_args ((97, w) :: ts1 ++ ts2) (w :: argv) (rs1 ++ rs2).

Inductive g_line : list token -> cmd -> Prop :=
| gl_last ts c : g_back ts c -> g_line ts c
| gl_seq ts1 c1 q ts2 c2 : g_back ts1 c1 -> g_line ts2 c2 -> g_line (ts1 ++ (59, q) :: ts2) (List c1 c2)
with g_back : list token -> cmd -> Prop :=
| gb_pipe ts c : g_pipe ts c -> g_back ts c
| gb_amp ts c q : g_back ts c -> g_back (ts ++ [(38, q)]) (Back c)
with g_pipe : list token -> cmd -> Prop :=
| gp_last ts c : g_exec ts c -> g_pipe ts c
| gp_bar ts1 c1 q ts2 c2 : g_exec ts1 c1 -> g_pipe ts2 c2 -> g_pipe (ts1 ++ (124, q) :: ts2) (Pipe c1 c2)
with g_exec : list token -> cmd -> Prop :=
| ge_simple ts0 rs0 ts1 argv rs1 :
    g_redirs ts0 rs0 -> g_args ts1 argv rs1 -> (length argv < MAXARGS)%nat ->
    g_exec (ts0 ++ ts1) (foldl wrap (Exec argv) (rs0 ++ rs1))
| ge_block q ts c q' ts' rs :
    g_line ts c -> g_redirs ts' rs -> g_exec ((40, q) :: ts ++ (41, q') :: ts') (foldl wrap c rs).

(** ** The tokens of a line *)

Section Lex.
Context (buf : list Z) (es : nat).

(** The line from [s] to its end. *)
Inductive lexes : nat -> list token -> Prop :=
| lex_end : lexes es []
| lex_space s c ts : (s < es)%nat -> buf !! s = Some c -> c ∈ whitespace -> lexes (S s) ts -> lexes s ts
| lex_symbol s c ts :
    (s < es)%nat -> buf !! s = Some c -> c ∈ [124; 40; 41; 59; 38; 60] ->
    lexes (S s) ts -> lexes s ((c, (s, S s)) :: ts)
| lex_gt s ts :
    (s < es)%nat -> buf !! s = Some 62 -> buf !! S s <> Some 62 -> lexes (S s) ts -> lexes s ((62, (s, S s)) :: ts)
| lex_gtgt s ts :
    (s < es)%nat -> buf !! s = Some 62 -> buf !! S s = Some 62 -> lexes (S (S s)) ts -> lexes s ((43, (s, S (S s))) :: ts)
| lex_word s e ts : word buf es (s, e) -> lexes e ts -> lexes s ((97, (s, e)) :: ts).

Hypothesis Hnul : buf !! es = Some 0.
Hypothesis Hchars : forall i, (i < es)%nat -> exists c, buf !! i = Some c /\ c <> 0.

Lemma lexes_len s ts : lexes s ts -> (s + length ts <= es)%nat.
Proof. induction 1 as [| | | |s ts H1 H2 H3 H4|s e ts [[H1 H2] _] H3]; cbn in *; lia. Qed.

Lemma lexes_kind s ts : lexes s ts -> Forall (fun t => fst t <> 0) ts.
Proof. induction 1; [constructor|done|constructor; [cbn; memb|done]|by constructor..]. Qed.

Lemma in_whitespace c : strchr_in whitespace c = bool_decide (c ∈ whitespace).
Proof. apply strchr_in_spec. unfold whitespace. repeat constructor; lia. Qed.

Lemma in_symbols c : strchr_in symbols c = bool_decide (c ∈ symbols).
Proof. apply strchr_in_spec. unfold symbols. repeat constructor; lia. Qed.

(** A word starts with a character that is neither white space nor a symbol. *)
Lemma word_first s e : word buf es (s, e) -> exists c, buf !! s = Some c /\ c <> 0 /\ c ∉ whitespace /\ c ∉ symbols.
Proof.
  intros ([H1 _] & H2 & _). cbn in *. destruct (H2 s) as (c & Hc & Hw); [lia|]. exists c. split; [done|]. unfold wordc in Hw.
  rewrite in_whitespace, in_symbols in Hw. zbool. rewrite bool_decide_eq_false in *. by split_and!.
Qed.

Lemma skip_ws_stop n s c : buf !! s = Some c -> c ∉ whitespace -> skip_ws buf es n s = Some s.
Proof.
  intros Hc Hw. destruct n as [|n]; [done|]. cbn [skip_ws]. destruct (s <? es)%nat; [|done]. rewrite Hc. cbn [mbind option_bind].
  by rewrite in_whitespace, bool_decide_eq_false_2.
Qed.

(** Where a token or the end of the line begins there is no white space. *)
Lemma lexes_stop s ts :
  lexes s ts -> (exists c, (s < es)%nat /\ buf !! s = Some c /\ c ∈ whitespace /\ lexes (S s) ts) \/ exists c, buf !! s = Some c /\ c ∉ whitespace.
Proof.
  intros [|s' c ts' H1 H2 H3 H4|s' c ts' H1 H2 H3 H4|s' ts' H1 H2 H3 H4|s' ts' H1 H2 H3 H4|s' e ts' H1 H2].
  - right. exists 0. split; [done|]. memb.
  - left. by exists c.
  - right. exists c. split; [done|]. memb.
  - right. exists 62. split; [done|]. memb.
  - right. exists 62. split; [done|]. memb.
  - right. destruct (word_first _ _ H1) as (c & Hc & _ & Hw & _). by exists c.
Qed.

Lemma skip_ws_lexes n s ts : lexes s ts -> (es - s <= n)%nat ->
  exists s' c, skip_ws buf es n s = Some s' /\ lexes s' ts /\ buf !! s' = Some c /\ c ∉ whitespace.
Proof.
  revert s. induction n as [|n IH]; intros s L Hn; destruct (lexes_stop s ts L) as [(c & H1 & H2 & H3 & H4)|(c & Hc & Hw)].
  - lia.
  - exists s, c. by rewrite (skip_ws_stop _ _ c).
  - cbn [skip_ws]. rewrite (proj2 (Nat.ltb_lt _ _) H1), H2. cbn [mbind option_bind]. rewrite in_whitespace, bool_decide_eq_true_2 by done. apply IH; [done|lia].
  - exists s, c. by rewrite (skip_ws_stop _ _ c).
Qed.

(** Every line has its tokens. *)
Lemma lexes_exist s : (s <= es)%nat -> exists ts, lexes s ts.
Proof.
  intros Hs. remember (es - s)%nat as n eqn:En. revert s Hs En. induction n as [n IH] using lt_wf_ind. intros s Hs ->.
  destruct (decide (s = es)) as [->|Hne]; [exists []; constructor|]. destruct (Hchars s) as (c & Hc & Hz); [lia|].
  destruct (decide (c ∈ whitespace)) as [Hw|Hw].
  { destruct (IH (es - S s)%nat ltac:(lia) (S s)) as [ts L]; [lia|done|]. exists ts. by eapply lex_space; [lia|..]. }
  destruct (decide (c ∈ [124; 40; 41; 59; 38; 60])) as [Hsy|Hsy].
  { destruct (IH (es - S s)%nat ltac:(lia) (S s)) as [ts L]; [lia|done|]. eexists. by eapply lex_symbol; [lia|..]. }
  destruct (decide (c = 62)) as [->|Hgt].
  { destruct (decide (buf !! S s = Some 62)) as [H2|H2].
    - assert (S s <> es) by congruence. destruct (IH (es - S (S s))%nat ltac:(lia) (S (S s))) as [ts L]; [lia|done|]. eexists. by eapply lex_gtgt; [lia|..].
    - destruct (IH (es - S s)%nat ltac:(lia) (S s)) as [ts L]; [lia|done|]. eexists. by eapply lex_gt; [lia|..]. }
  destruct (skip_word_spec buf es Hnul Hchars (es - s) s) as (e & _ & He & H1 & H2); [lia|lia|].
  assert (wordc c = true) as Hwc.
  { unfold wordc. rewrite in_whitespace, in_symbols, !bool_decide_eq_false_2, (proj2 (Z.eqb_neq _ _) Hz); [done| |done].
    clear -Hsy Hgt. memb. }
  assert (s <> e) by (intros ->; destruct H2 as (c' & Hc' & Hf); congruence).
  destruct (IH (es - e)%nat ltac:(lia) e) as [ts L]; [lia|done|]. exists ((97, (s, e)) :: ts). apply lex_word; [|done]. split; [cbn; lia|]. by split.
Qed.

Lemma symbol_test c :
  (c =? 124) || (c =? 40) || (c =? 41) || (c =? 59) || (c =? 38) || (c =? 60) = bool_decide (c ∈ [124; 40; 41; 59; 38; 60]).
Proof.
  destruct (bool_decide_reflect (c ∈ [124; 40; 41; 59; 38; 60])) as [H|H]; [|apply not_true_iff_false; intros E];
    rewrite ?orb_true_iff, ?Z.eqb_eq in *; memb.
Qed.

Lemma skip_word_word s e : word buf es (s, e) -> skip_word buf es (es - s) s = Some e.
Proof.
  intros (H1 & H2 & c & Hc & Hf). cbn in *. destruct (skip_word_spec buf es Hnul Hchars (es - s) s) as (e' & -> & He & H3 & c' & Hc' & Hf'); [lia|lia|].
  f_equal. destruct (Nat.lt_trichotomy e e') as [Hlt|[->|Hlt]]; [|done|].
  - destruct (H3 e) as (d & Hd & Hdw); [lia|]. congruence.
  - destruct (H2 e') as (d & Hd & Hdw); [lia|]. congruence.
Qed.

(** gettoken returns the next token, or 0 at the end. *)
Lemma wp_gettoken_lex s ts (Q : token -> nat -> Prop) :
  lexes s ts -> match ts with [] => forall s', lexes s' [] -> Q (0, (es, es)) s' | t :: ts => forall s', lexes s' ts -> Q t s' end -> wp (gettoken buf es) Q s.
Proof.
  intros L HQ. unfold gettoken. wp_steps. destruct (skip_ws_lexes (es - s) s ts L) as (q & c & E1 & Lq & Hc & Hw); [lia|].
  unfold id. eapply wp_lift_opt; [exact E1|]. wp_steps. eapply wp_lift_opt; [exact Hc|]. wp_steps.
  assert (forall (k : Z) e ts', lexes e ts' -> (forall s', lexes s' ts' -> Q (k, (q, e)) s') ->
    wp (lift_opt (skip_ws buf es (es - e) e)) (fun a s' => wp (modify (fun _ => a) ;; ret (k, (q, e))) Q s') s) as Hrest.
  { intros k e ts' Le HQ'. destruct (skip_ws_lexes (es - e) e ts' Le) as (s' & c' & E2 & Ls & _); [lia|].
    eapply wp_lift_opt; [exact E2|]. wp_steps. by apply HQ'. }
  rewrite symbol_test.
  destruct Lq as [|q c' ts' H1 H2 H3 H4|q c' ts' H1 H2 H3 H4|q ts' H1 H2 H3 H4|q ts' H1 H2 H3 H4|q e ts' H1 H2].
  - rewrite Hnul in Hc. injection Hc as <-. cbn [Z.eqb]. wp_steps. apply (Hrest 0 es []); [constructor|done].
  - congruence.
  - rewrite H2 in Hc. injection Hc as <-. rewrite bool_decide_eq_true_2 by done. rewrite (proj2 (Z.eqb_neq c' 0)) by memb. wp_steps. by eapply Hrest.
  - rewrite H2 in Hc. injection Hc as <-. cbn [Z.eqb]. rewrite bool_decide_eq_false_2 by memb. cbn [Z.eqb Pos.eqb]. wp_steps.
    destruct (at_pos buf es Hnul Hchars (S q)) as (d & Hd & _); [lia|]. eapply wp_lift_opt; [exact Hd|].
    rewrite (proj2 (Z.eqb_neq d 62)) by congruence. wp_steps. by eapply Hrest.
  - rewrite H2 in Hc. injection Hc as <-. cbn [Z.eqb]. rewrite bool_decide_eq_false_2 by memb. cbn [Z.eqb Pos.eqb]. wp_steps.
    eapply wp_lift_opt; [exact H3|]. cbn [Z.eqb Pos.eqb]. wp_steps. by eapply Hrest.
  - destruct (word_first _ _ H1) as (d & Hd & Hz & _ & Hsy). rewrite Hd in Hc. injection Hc as <-.
    rewrite (proj2 (Z.eqb_neq d 0) Hz), bool_decide_eq_false_2, (proj2 (Z.eqb_neq d 62)) by memb. wp_steps.
    eapply wp_lift_opt; [by apply skip_word_word|]. wp_steps. by eapply Hrest.
Qed.

(** The character a token begins with, for the tokens that peek is asked about. *)
Definition lead (t : token) : Z := if fst t =? 43 then 62 else fst t.
Definition sees (toks : list Z) (ts : list token) : bool :=
  match ts with [] => false | t :: _ => bool_decide (lead t ∈ toks) end.

Lemma wp_peek_lex toks s ts (Q : bool -> nat -> Prop) :
  Forall (fun c => c ∈ symbols) toks -> lexes s ts -> (forall s', lexes s' ts -> (ts = [] -> s' = es) -> Q (sees toks ts) s') ->
  wp (peek buf es toks) Q s.
Proof.
  intros Ht L HQ. unfold peek. wp_steps. destruct (skip_ws_lexes (es - s) s ts L) as (q & c & E1 & Lq & Hc & Hw); [lia|].
  unfold id. eapply wp_lift_opt; [exact E1|]. wp_steps. eapply wp_lift_opt; [exact Hc|]. wp_steps.
  assert (strchr_in toks c = bool_decide (c ∈ toks)) as ->.
  { apply strchr_in_spec. eapply Forall_impl; [exact Ht|]. intros a Ha. memb. }
  assert (negb (c =? 0) && bool_decide (c ∈ toks) = sees toks ts /\ (ts = [] -> q = es)) as [-> Hq]; [|by apply HQ].
  rewrite Forall_forall in Ht.
  destruct Lq as [|q c' ts' H1 H2 H3 H4|q c' ts' H1 H2 H3 H4|q ts' H1 H2 H3 H4|q ts' H1 H2 H3 H4|q e ts' H1 H2]; cbn [sees lead fst].
  - rewrite Hnul in Hc. by injection Hc as <-.
  - congruence.
  - rewrite H2 in Hc. injection Hc as <-. rewrite (proj2 (Z.eqb_neq c' 0)) by memb. cbn [negb andb]. split; [|done].
    apply bool_decide_ext. unfold lead. cbn [fst]. by rewrite (proj2 (Z.eqb_neq c' 43)) by memb.
  - rewrite H2 in Hc. by injection Hc as <-.
  - rewrite H2 in Hc. by injection Hc as <-.
  - split; [|done]. destruct (word_first _ _ H1) as (d & Hd & Hz & _ & Hsy). rewrite Hd in Hc. injection Hc as <-.
    rewrite (proj2 (Z.eqb_neq d 0) Hz). cbn [negb andb]. rewrite (bool_decide_eq_false_2 (d ∈ toks)) by (intros H; by apply Hsy, Ht).
    symmetry. apply bool_decide_eq_false_2. intros H. specialize (Ht _ H). unfold lead in Ht. cbn in Ht. memb.
Qed.
(** ** What the parser returns is in the grammar *)

(** [m] consumes tokens that [G] relates to its result, or panics. *)
Definition gives {A} (G : list token -> A -> Prop) (m : M nat A) (s : nat) (ts : list token) : Prop :=
  forall Q : A -> nat -> Prop, (forall a s' ts1 ts2, ts = ts1 ++ ts2 -> lexes s' ts2 -> G ts1 a -> Q a s') -> may m Q s.

Ltac toks := repeat constructor; unfold symbols; memb.

(** peek and gettoken, each with the tokens it leaves. *)
Lemma may_peek toks s ts (Q : bool -> nat -> Prop) :
  Forall (fun c => c ∈ symbols) toks -> lexes s ts -> (forall s', lexes s' ts -> Q (sees toks ts) s') -> may (peek buf es toks) Q s.
Proof. intros Ht L HQ. eapply may_of_wp, wp_peek_lex; [done|done|]. auto. Qed.

Lemma may_token toks s ts (Q : token -> nat -> Prop) :
  lexes s ts -> sees toks ts = true -> (forall t ts' s', ts = t :: ts' -> lead t ∈ toks -> lexes s' ts' -> Q t s') -> may (gettoken buf es) Q s.
Proof.
  intros L Hs HQ. destruct ts as [|t ts]; [done|]. eapply may_of_wp, wp_gettoken_lex; [exact L|]. cbn in Hs. apply bool_decide_eq_true in Hs.
  intros s' Ls. by eapply HQ.
Qed.

Lemma lead_is t c : lead t = c -> c <> 62 -> c <> 43 -> fst t = c.
Proof. unfold lead. destruct (Z.eqb_spec (fst t) 43); lia. Qed.

Lemma gives_redirs n acc s ts :
  lexes s ts -> (length ts < n)%nat -> gives (fun ts1 rs => exists rs1, rs = acc ++ rs1 /\ g_redirs ts1 rs1) (parseredirs buf es n acc) s ts.
Proof.
  revert acc s ts. induction n as [|n IH]; intros acc s ts L Hn Q HQ; [lia|]. cbn [parseredirs].
  apply may_bind, (may_peek _ _ ts); [toks|done|]. intros s1 L1. destruct (sees [60; 62] ts) eqn:Es.
  - apply may_bind, (may_token [60; 62] _ ts); [done|done|]. intros [k q] ts' s2 -> Hk L2. apply may_bind, may_of_wp.
    eapply wp_gettoken_lex; [exact L2|]. destruct ts' as [|[k' w] ts']; [done|]. intros s3 L3. cbn [fst snd].
    destruct (Z.eqb_spec k' 97) as [->|]; [|done]. cbn [negb]. cbn in Hn.
    assert (k = 60 \/ k = 62 \/ k = 43) as Hk3 by (unfold lead in Hk; cbn in Hk; destruct (Z.eqb_spec k 43); memb).
    eapply IH; [exact L3|lia|]. intros rs s4 ts1 ts2 -> L4 (rs1 & -> & G). 
    destruct Hk3 as [->|Hk3].
    + apply (HQ _ s4 ((60, q) :: (97, w) :: ts1) ts2); [done|done|]. eexists. split; [cbn; by rewrite <- app_assoc|]. by constructor.
    + apply (HQ _ s4 ((k, q) :: (97, w) :: ts1) ts2); [done|done|]. exists (mkredir w (Z.lor O_WRONLY O_CREATE) 1 :: rs1).
      split; [|by constructor]. destruct Hk3 as [-> | ->]; cbn; by rewrite <- app_assoc.
  - apply (HQ _ s1 [] ts); [done|done|]. exists []. split; [by rewrite app_nil_r|constructor].
Qed.

Lemma gives_args n argv rs s ts :
  lexes s ts -> (length ts < n)%nat -> (length argv < MAXARGS)%nat -> (length ts <= es)%nat ->
  gives (fun ts1 r => exists argv1 rs1, r = (argv ++ argv1, rs ++ rs1) /\ g_args ts1 argv1 rs1 /\ (length (argv ++ argv1) < MAXARGS)%nat)
    (parseargs buf es n argv rs) s ts.
Proof.
  revert argv rs s ts. induction n as [|n IH]; intros argv rs s ts L Hn Ha He Q HQ; [lia|]. cbn [parseargs].
  assert (forall s', lexes s' ts -> Q (argv, rs) s') as Hend.
  { intros s' L'. apply (HQ _ s' [] ts); [done|done|]. exists [], []. rewrite !app_nil_r. split; [done|]. split; [constructor|done]. }
  apply may_bind, (may_peek _ _ ts); [toks|done|]. intros s1 L1. destruct (sees _ ts); cbn [negb]; [by apply Hend|].
  apply may_bind, may_of_wp. eapply wp_gettoken_lex; [exact L1|]. destruct ts as [|[k w] ts]; intros s2 L2; cbn [fst snd]; [by apply Hend|].
  cbn in Hn, He. destruct (Z.eqb_spec k 0) as [->|Hz].
  { apply lexes_kind, list.Forall_cons in L1 as [L1 _]. done. }
  destruct (Z.eqb_spec k 97) as [->|]; [|done]. cbn [negb]. destruct (Nat.leb_spec MAXARGS (length (argv ++ [w]))) as [|Hlen]; [done|].
  apply may_bind. eapply gives_redirs; [exact L2|lia|]. intros rs' s3 ts1 ts2 -> L3 (rs1 & -> & G1). rewrite length_app in Hn, He.
  eapply IH; [exact L3|lia|done|lia|]. intros r s4 ts3 ts4 -> L4 (argv1 & rs2 & -> & G2 & Hl).
  apply (HQ _ s4 ((97, w) :: ts1 ++ ts3) ts4); [cbn; by rewrite <- app_assoc|done|]. exists (w :: argv1), (rs1 ++ rs2).
  rewrite <- !app_assoc in *. split; [done|]. split; [by constructor|done].
Qed.

Lemma gives_back n c s ts :
  lexes s ts -> (length ts < n)%nat -> gives (fun ts1 c1 => forall ts0, g_back ts0 c -> g_back (ts0 ++ ts1) c1) (parseback buf es n c) s ts.
Proof.
  revert c s ts. induction n as [|n IH]; intros c s ts L Hn Q HQ; [lia|]. cbn [parseback].
  apply may_bind, (may_peek _ _ ts); [toks|done|]. intros s1 L1. destruct (sees [38] ts) eqn:Es.
  - apply may_bind, (may_token [38] _ ts); [done|done|]. intros [k q] ts' s2 -> Hk L2. apply list_elem_of_singleton, lead_is in Hk; [|done..].
    cbn in Hk, Hn. subst k. eapply IH; [exact L2|lia|]. intros c1 s3 ts1 ts2 -> L3 G. apply (HQ _ s3 ((38, q) :: ts1) ts2); [done|done|].
    intros ts0 G0. change (ts0 ++ (38, q) :: ts1) with (ts0 ++ [(38, q)] ++ ts1). rewrite app_assoc. by apply G, gb_amp.
  - apply (HQ _ s1 [] ts); [done|done|]. intros ts0. by rewrite app_nil_r.
Qed.

(** The four routines that call each other. *)
Lemma gives_parse fuel s ts :
  lexes s ts -> (length ts <= es)%nat ->
  ((4 * length ts + 4 <= fuel)%nat -> gives g_line (parseline buf es fuel) s ts) /\
  ((4 * length ts + 3 <= fuel)%nat -> gives g_pipe (parsepipe buf es fuel) s ts) /\
  ((4 * length ts + 2 <= fuel)%nat -> gives g_exec (parseexec buf es fuel) s ts) /\
  (sees [40] ts = true -> (4 * length ts + 1 <= fuel)%nat -> gives g_exec (parseblock buf es fuel) s ts).
Proof.
  revert s ts. induction fuel as [|fuel IH]; intros s ts L He; [split_and!; intros; lia|]. split; [|split; [|split]].
  - intros Hf Q HQ. cbn [parseline]. apply may_bind, (proj1 (proj2 (IH s ts L He))); [lia|]. intros c1 s1 ts1 ts2 -> L1 G1.
    rewrite length_app in *. apply may_bind. eapply gives_back; [exact L1|lia|]. intros c2 s2 ts3 ts4 -> L2 G2. rewrite length_app in *.
    specialize (G2 _ (gb_pipe _ _ G1)). apply may_bind, (may_peek _ _ ts4); [toks|done|]. intros s3 L3. destruct (sees [59] ts4) eqn:Es.
    + apply may_bind, (may_token [59] _ ts4); [done|done|]. intros [k q] ts' s4 -> Hk L4. apply list_elem_of_singleton, lead_is in Hk; [|done..].
      cbn in Hk, Hf, He. subst k. apply may_bind, (proj1 (IH s4 ts' L4 ltac:(lia))); [lia|]. intros c5 s5 ts5 ts6 -> L5 G5.
      apply (HQ _ s5 ((ts1 ++ ts3) ++ (59, q) :: ts5) ts6); [by rewrite <- !app_assoc|done|]. by constructor.
    + apply (HQ _ s3 (ts1 ++ ts3) ts4); [by rewrite app_assoc|done|]. by constructor.
  - intros Hf Q HQ. cbn [parsepipe]. apply may_bind, (proj1 (proj2 (proj2 (IH s ts L He)))); [lia|]. intros c1 s1 ts1 ts2 -> L1 G1.
    rewrite length_app in *. apply may_bind, (may_peek _ _ ts2); [toks|done|]. intros s3 L3. destruct (sees [124] ts2) eqn:Es.
    + apply may_bind, (may_token [124] _ ts2); [done|done|]. intros [k q] ts' s4 -> Hk L4. apply list_elem_of_singleton, lead_is in Hk; [|done..].
      cbn in Hk, Hf, He. subst k. apply may_bind, (proj1 (proj2 (IH s4 ts' L4 ltac:(lia)))); [lia|]. intros c5 s5 ts5 ts6 -> L5 G5.
      apply (HQ _ s5 (ts1 ++ (124, q) :: ts5) ts6); [by rewrite <- !app_assoc|done|]. by constructor.
    + apply (HQ _ s3 ts1 ts2); [done|done|]. by constructor.
  - intros Hf Q HQ. cbn [parseexec]. apply may_bind, (may_peek _ _ ts); [toks|done|]. intros s1 L1. destruct (sees [40] ts) eqn:Es.
    + apply (proj2 (proj2 (proj2 (IH s1 ts L1 He)))); [done|lia|done].
    + apply may_bind. eapply gives_redirs; [exact L1|lia|]. intros rs0 s2 ts1 ts2 -> L2 (rs & -> & G2). rewrite length_app in *.
      apply may_bind. eapply gives_args; [exact L2|lia|cbn; unfold MAXARGS; lia|lia|]. intros r s3 ts3 ts4 -> L3 (argv & rs1 & -> & G3 & Hl).
      apply (HQ _ s3 (ts1 ++ ts3) ts4); [by rewrite app_assoc|done|]. by constructor.
  - intros Hs Hf Q HQ. cbn [parseblock]. apply may_bind, (may_peek _ _ ts); [toks|done|]. intros s1 L1. rewrite Hs. cbn [negb].
    apply may_bind, (may_token [40] _ ts); [done|done|]. intros [k q] ts' s2 -> Hk L2. apply list_elem_of_singleton, lead_is in Hk; [|done..].
    cbn in Hk, Hf, He. subst k. apply may_bind, (proj1 (IH s2 ts' L2 ltac:(lia))); [lia|]. intros c3 s3 ts1 ts2 -> L3 G3. rewrite length_app in *.
    apply may_bind, (may_peek _ _ ts2); [toks|done|]. intros s4 L4. destruct (sees [41] ts2) eqn:Es; cbn [negb]; [|done].
    apply may_bind, (may_token [41] _ ts2); [done|done|]. intros [k q'] ts' s5 -> Hk L5. apply list_elem_of_singleton, lead_is in Hk; [|done..].
    cbn in Hk, Hf, He. subst k. apply may_bind. eapply gives_redirs; [exact L5|lia|]. intros rs0 s6 ts3 ts4 -> L6 (rs & -> & G6).
    apply (HQ _ s6 ((40, q) :: ts1 ++ (41, q') :: ts3) ts4); [cbn; by rewrite <- app_assoc|done|]. by constructor.
Qed.

(** ** Every line of the grammar is accepted *)

(** What may follow a phrase: nothing, or a token that begins with one of [F]. *)
Definition follow (F : list Z) (rest : list token) : Prop := rest = [] \/ sees F rest = true.

Lemma follow_not F F' rest : follow F rest -> Forall (fun c => c ∉ F') F -> sees F' rest = false.
Proof.
  intros [->|Hs] Hd; [done|]. destruct rest as [|t rest]; [done|]. cbn in *. apply bool_decide_eq_true in Hs. rewrite Forall_forall in Hd.
  apply bool_decide_eq_false_2. by apply Hd.
Qed.

Lemma follow_more F F' rest : follow F rest -> F ⊆ F' -> follow F' rest.
Proof.
  intros [->|Hs] Hd; [by left|]. right. destruct rest as [|t rest]; [done|]. cbn in *. apply bool_decide_eq_true in Hs. apply bool_decide_eq_true_2. by apply Hd.
Qed.

Lemma run_redirs n acc s ts rs rest (Q : list redir -> nat -> Prop) :
  g_redirs ts rs -> sees [60; 62] rest = false -> (length (ts ++ rest) < n)%nat -> lexes s (ts ++ rest) ->
  (forall s', lexes s' rest -> Q (acc ++ rs) s') -> wp (parseredirs buf es n acc) Q s.
Proof.
  intros G. revert n acc s. induction G as [|q w ts rs G IH|k q w ts rs Hk G IH]; intros [|n] acc s Hr Hn L HQ; cbn in Hn; try lia; cbn [parseredirs app] in *.
  - wp_step. eapply wp_peek_lex; [toks|exact L|]. intros s1 L1 _. rewrite Hr. wp_steps. rewrite app_nil_r in HQ. by apply HQ.
  - wp_step. eapply wp_peek_lex; [toks|exact L|]. intros s1 L1 _. cbn [sees]. rewrite bool_decide_eq_true_2 by (cbn; memb).
    wp_step. eapply wp_gettoken_lex; [exact L1|]. intros s2 L2. wp_step. eapply wp_gettoken_lex; [exact L2|]. intros s3 L3.
    cbn [fst snd Z.eqb Pos.eqb negb]. apply IH; [done|lia|done|]. intros s' L'. rewrite <- app_assoc. by apply HQ.
  - wp_step. eapply wp_peek_lex; [toks|exact L|]. intros s1 L1 _. cbn [sees].
    rewrite bool_decide_eq_true_2 by (destruct Hk as [-> | ->]; cbn; memb).
    wp_step. eapply wp_gettoken_lex; [exact L1|]. intros s2 L2. wp_step. eapply wp_gettoken_lex; [exact L2|]. intros s3 L3.
    destruct Hk as [-> | ->]; cbn [fst snd Z.eqb Pos.eqb negb]; (apply IH; [done|lia|done|]; intros s' L'; rewrite <- app_assoc; by apply HQ).
Qed.

(** After an argument comes another one or the end of the command. *)
Lemma args_follow ts argv rs rest F :
  g_args ts argv rs -> follow [124; 41; 38; 59] rest -> Forall (fun c => c ∉ F) [124; 41; 38; 59; 97] -> sees F (ts ++ rest) = false.
Proof.
  intros G Hr HF. rewrite !list.Forall_cons in HF. destruct G; cbn.
  - apply (follow_not _ _ _ Hr). repeat constructor; tauto.
  - apply bool_decide_eq_false_2. unfold lead. cbn. tauto.
Qed.

Lemma run_args n argv rs s ts argv1 rs1 rest (Q : list span * list redir -> nat -> Prop) :
  g_args ts argv1 rs1 -> follow [124; 41; 38; 59] rest -> (length (argv ++ argv1) < MAXARGS)%nat ->
  (length (ts ++ rest) < n)%nat -> (length (ts ++ rest) <= es)%nat -> lexes s (ts ++ rest) ->
  (forall s', lexes s' rest -> Q (argv ++ argv1, rs ++ rs1) s') -> wp (parseargs buf es n argv rs) Q s.
Proof.
  intros G Hr. revert n argv rs s. induction G as [|w ts1 rs1 ts2 argv1 rs2 G1 G2 IH]; intros [|n] argv rs s Ha Hn He L HQ; cbn in Hn; try lia; cbn [parseargs app] in *.
  - rewrite !app_nil_r in HQ. wp_step. eapply wp_peek_lex; [toks|exact L|]. intros s1 L1 _. destruct Hr as [->|Hr].
    + cbn [sees negb]. wp_step. eapply wp_gettoken_lex; [exact L1|]. intros s2 L2. cbn [fst Z.eqb]. wp_steps. by apply HQ.
    + rewrite Hr. cbn [negb]. wp_steps. by apply HQ.
  - rewrite <- app_assoc in *. wp_step. eapply wp_peek_lex; [toks|exact L|]. intros s1 L1 _. cbn [sees].
    rewrite bool_decide_eq_false_2 by (cbn; memb). cbn [negb]. wp_step. eapply wp_gettoken_lex; [exact L1|]. intros s2 L2.
    cbn [fst snd Z.eqb Pos.eqb negb]. cbn in He. rewrite !length_app in Ha, Hn, He. cbn in Ha.
    destruct (Nat.leb_spec MAXARGS (length (argv ++ [w]))) as [Hge|_]; [rewrite length_app in Hge; cbn in Hge; lia|].
    wp_step. eapply (run_redirs _ _ _ ts1 rs1 (ts2 ++ rest)); [done| |rewrite length_app; lia|exact L2|].
    + apply (args_follow _ _ _ _ _ G2 Hr). repeat constructor; memb.
    + intros s3 L3. apply IH; [rewrite <- app_assoc, length_app; cbn; lia|lia|lia|exact L3|].
      intros s' L'. rewrite <- !app_assoc. by apply HQ.
Qed.

(** A command in the background is followed by its ampersands. *)
Lemma g_back_amps ts c :
  g_back ts c -> exists ts0 c0 amps, ts = ts0 ++ amps /\ g_pipe ts0 c0 /\ Forall (fun t => fst t = 38) amps /\ c = Nat.iter (length amps) Back c0.
Proof.
  induction 1 as [ts c G|ts c q G (ts0 & c0 & amps & -> & G0 & Ha & ->)].
  - exists ts, c, []. by rewrite app_nil_r.
  - exists ts0, c0, (amps ++ [(38, q)]). rewrite app_assoc, length_app, Nat.add_1_r. split_and!; [done|done| |done].
    apply Forall_app. split; [done|]. by repeat constructor.
Qed.

Lemma run_back n c s amps rest (Q : cmd -> nat -> Prop) :
  Forall (fun t => fst t = 38) amps -> sees [38] rest = false -> (length (amps ++ rest) < n)%nat -> lexes s (amps ++ rest) ->
  (forall s', lexes s' rest -> Q (Nat.iter (length amps) Back c) s') -> wp (parseback buf es n c) Q s.
Proof.
  intros Ha Hr. revert n c s. induction Ha as [|[k q] amps Hk Ha IH]; intros [|n] c s Hn L HQ; cbn in Hn; try lia; cbn [parseback app] in *.
  - wp_step. eapply wp_peek_lex; [toks|exact L|]. intros s1 L1 _. rewrite Hr. wp_steps. by apply HQ.
  - cbn in Hk. subst k. wp_step. eapply wp_peek_lex; [toks|exact L|]. intros s1 L1 _. cbn [sees]. rewrite bool_decide_eq_true_2 by (cbn; memb).
    wp_step. eapply wp_gettoken_lex; [exact L1|]. intros s2 L2. apply IH; [lia|done|]. intros s' L'. rewrite <- Nat.iter_succ_r. by apply HQ.
Qed.

(** [m] consumes exactly the tokens of a phrase when one of [F] follows. *)
Definition accepts (G : list token -> cmd -> Prop) (F : list Z) (m : M nat cmd) (s k fuel : nat) : Prop :=
  forall ts c rest (Q : cmd -> nat -> Prop), G ts c -> follow F rest -> (4 * length (ts ++ rest) + k <= fuel)%nat -> (length (ts ++ rest) <= es)%nat ->
  lexes s (ts ++ rest) -> (forall s', lexes s' rest -> Q c s') -> wp m Q s.

(** The three routines, against what the ones they call accept. *)
Lemma accepts_line fuel s :
  (forall s, accepts g_line [41] (parseline buf es fuel) s 4 fuel) ->
  (forall s, accepts g_pipe [41; 38; 59] (parsepipe buf es fuel) s 3 fuel) ->
  accepts g_line [41] (parseline buf es (S fuel)) s 4 (S fuel).
Proof.
  intros IHl IHp ts c rest Q G Hr Hf He L HQ.
  cbn [parseline]. assert (exists tsb cb more, g_back tsb cb /\ ts = tsb ++ more /\
    (more = [] /\ c = cb \/ exists q ts2 c2, more = (59, q) :: ts2 /\ g_line ts2 c2 /\ c = List cb c2)) as (tsb & cb & more & Gb & -> & Hmore).
  { destruct G as [ts c G|ts1 c1 q ts2 c2 G1 G2]; [exists ts, c, []; rewrite app_nil_r; auto|]. exists ts1, c1, ((59, q) :: ts2). eauto 10. }
  apply g_back_amps in Gb as (ts0 & c0 & amps & -> & G0 & Ha & ->). rewrite <- !app_assoc in *.
  assert (follow [41; 59] (more ++ rest)) as Hm.
  { destruct Hmore as [[-> _]|(q & ts2 & c2 & -> & _)]; [eapply follow_more; [exact Hr|]; intros x; memb|]. right. cbn. apply bool_decide_eq_true_2. cbn. memb. }
  wp_step. eapply (IHp s ts0 c0 (amps ++ more ++ rest)); [done| |lia|done|exact L|].
  { destruct Ha as [|[k q] amps Hk Ha]; [eapply follow_more; [exact Hm|]; intros x; memb|]. right. cbn in *. subst k. apply bool_decide_eq_true_2. cbn. memb. }
  intros s1 L1. rewrite !length_app in Hf, He. wp_step. eapply run_back; [exact Ha|apply (follow_not _ _ _ Hm); repeat constructor; memb|rewrite !length_app; lia|exact L1|].
  intros s2 L2. wp_step. eapply wp_peek_lex; [toks|exact L2|]. intros s3 L3 _.
  destruct Hmore as [[-> ->]|(q & ts2 & c2 & -> & G2 & ->)].
  + cbn [app] in *. rewrite (follow_not _ [59] _ Hr) by (repeat constructor; memb). wp_steps. by apply HQ.
  + cbn [app sees] in *. rewrite bool_decide_eq_true_2 by (cbn; memb). wp_step. eapply wp_gettoken_lex; [exact L3|]. intros s4 L4.
    cbn in Hf, He. wp_step. eapply (IHl s4 ts2 c2 rest); [done|done|rewrite length_app; lia|rewrite length_app; lia|exact L4|]. intros s5 L5. wp_steps. by apply HQ.
Qed.

Lemma accepts_pipe fuel s :
  (forall s, accepts g_pipe [41; 38; 59] (parsepipe buf es fuel) s 3 fuel) ->
  (forall s, accepts g_exec [124; 41; 38; 59] (parseexec buf es fuel) s 2 fuel) ->
  accepts g_pipe [41; 38; 59] (parsepipe buf es (S fuel)) s 3 (S fuel).
Proof.
  intros IHp IHe ts c rest Q G Hr Hf He L HQ.
  cbn [parsepipe]. destruct G as [ts c G|ts1 c1 q ts2 c2 G1 G2].
  + wp_step. eapply IHe; [exact G|eapply follow_more; [exact Hr|]; intros x; memb|lia|done|exact L|]. intros s1 L1.
    wp_step. eapply wp_peek_lex; [toks|exact L1|]. intros s3 L3 _. rewrite (follow_not _ [124] _ Hr) by (repeat constructor; memb). wp_steps. by apply HQ.
  + rewrite <- app_assoc in *. cbn [app] in *. wp_step. eapply (IHe s ts1 c1 ((124, q) :: ts2 ++ rest)); [exact G1|right; apply bool_decide_eq_true_2; cbn; memb|lia|done|exact L|]. intros s1 L1.
    wp_step. eapply wp_peek_lex; [toks|exact L1|]. intros s3 L3 _. cbn [app sees]. rewrite bool_decide_eq_true_2 by (cbn; memb).
    wp_step. eapply wp_gettoken_lex; [exact L3|]. intros s4 L4. rewrite length_app in Hf, He. cbn in Hf, He.
    wp_step. eapply IHp; [exact G2|exact Hr|lia|lia|exact L4|]. intros s5 L5. wp_steps. by apply HQ.
Qed.

Lemma accepts_exec fuel s :
  (forall s, accepts g_line [41] (parseline buf es (pred fuel)) s 4 (pred fuel)) ->
  accepts g_exec [124; 41; 38; 59] (parseexec buf es (S fuel)) s 2 (S fuel).
Proof.
  intros IHl ts c rest Q G Hr Hf He L HQ.
  cbn [parseexec]. wp_step. eapply wp_peek_lex; [toks|exact L|]. intros s1 L1 _. destruct G as [ts0 rs0 ts1 argv rs1 G0 G1 Hl|q ts c q' ts' rs G1 G2].
  + rewrite <- app_assoc in *.
    assert (sees [40] (ts0 ++ ts1 ++ rest) = false) as ->.
    { destruct G0 as [|q w ts rs G0|k q w ts rs Hk G0]; cbn [app sees].
      - apply (args_follow _ _ _ _ _ G1 Hr). repeat constructor; memb.
      - apply bool_decide_eq_false_2. cbn. memb.
      - apply bool_decide_eq_false_2. destruct Hk as [-> | ->]; cbn; memb. }
    wp_step. eapply (run_redirs _ _ _ ts0 rs0 (ts1 ++ rest)); [done|apply (args_follow _ _ _ _ _ G1 Hr); repeat constructor; memb|lia|exact L1|].
    intros s2 L2. rewrite length_app in He. wp_step. eapply (run_args _ [] _ _ ts1 argv rs1 rest); [done|done|done|lia|lia|exact L2|].
    intros s3 L3. wp_steps. by apply HQ.
  + cbn [app sees] in *. rewrite bool_decide_eq_true_2 by (cbn; memb). rewrite <- app_assoc in *. cbn [app] in *. cbn in Hf, He.
    destruct fuel as [|fuel]; [lia|]. cbn [parseblock].
    wp_step. eapply wp_peek_lex; [toks|exact L1|]. intros s2 L2 _. cbn [sees]. rewrite bool_decide_eq_true_2 by (cbn; memb). cbn [negb].
    wp_step. eapply wp_gettoken_lex; [exact L2|]. intros s3 L3. wp_step.
    eapply (IHl s3 ts c ((41, q') :: ts' ++ rest)); [exact G1|right; apply bool_decide_eq_true_2; cbn; memb|lia|lia|exact L3|]. intros s4 L4.
    wp_step. eapply wp_peek_lex; [toks|exact L4|]. intros s5 L5 _. cbn [sees]. rewrite bool_decide_eq_true_2 by (cbn; memb). cbn [negb].
    wp_step. eapply wp_gettoken_lex; [exact L5|]. intros s6 L6. rewrite length_app in He. cbn in He.
    wp_step. eapply (run_redirs _ [] _ ts' rs rest); [done|apply (follow_not _ _ _ Hr); repeat constructor; memb|lia|exact L6|].
    intros s7 L7. wp_steps. by apply HQ.
Qed.

Lemma accepts_parse fuel s :
  accepts g_line [41] (parseline buf es fuel) s 4 fuel /\
  accepts g_pipe [41; 38; 59] (parsepipe buf es fuel) s 3 fuel /\
  accepts g_exec [124; 41; 38; 59] (parseexec buf es fuel) s 2 fuel.
Proof.
  revert s. induction fuel as [fuel IH] using lt_wf_ind. intros s. destruct fuel as [|fuel]; [split_and!; intros ts c rest Q; lia|].
  split_and!; [apply accepts_line|apply accepts_pipe|apply accepts_exec]; intros s'; apply (IH (pred fuel) ltac:(lia)) || apply (IH fuel ltac:(lia)).
Qed.
End Lex.

(** ** The parser and the grammar *)

Section Parser.
Context (line rest : list Z).
Let buf := line ++ 0 :: rest.
Let es := length line.
Hypothesis Hline : Forall (fun c => c <> 0) line.
Hypothesis Hlen : Z.of_nat (length line) < 2 ^ 31.

Lemma parsecmd_run : parsecmd buf =
  (c <- parseline buf es (4 * es + 4) ;;
   peek buf es [] ;;
   s <- Prelude.gets id ;;
   if negb (s =? es)%nat then panic "syntax" else
   b <- lift_opt (nulterminate c buf) ;;
   ret (c, b)) 0%nat.
Proof. unfold parsecmd, buf. by rewrite strlen_line, Nat2Z.id by done. Qed.

Lemma may_ret {A} (m : M nat A) Q s a s' : may m Q s -> m s = Ret a s' -> Q a s'.
Proof. unfold may. intros Hm E. by rewrite E in Hm. Qed.

Lemma buf_nul : buf !! es = Some 0.
Proof. apply line_nul. Qed.

Lemma buf_chars i : (i < es)%nat -> exists c, buf !! i = Some c /\ c <> 0.
Proof. by apply line_chars. Qed.

Lemma parsecmd_sound c b s : parsecmd buf = Ret (c, b) s -> exists ts, lexes buf es 0 ts /\ g_line ts c.
Proof.
  destruct (lexes_exist buf es buf_nul buf_chars 0) as [ts L]; [lia|]. pose proof (lexes_len buf es 0 ts L) as Hts.
  rewrite parsecmd_run. unfold bind. destruct (parseline _ _ _ _) as [c1 s1| | | |] eqn:Ep; [|done..].
  eapply (may_ret _ (fun c s => exists ts1 ts2, ts = ts1 ++ ts2 /\ lexes buf es s ts2 /\ g_line ts1 c)) in Ep as (ts1 & ts2 & -> & L1 & G1);
    [|apply (proj1 (gives_parse buf es buf_nul buf_chars (4 * es + 4) 0 ts L ltac:(lia))); [lia|]; eauto].
  destruct (peek _ _ _ _) as [p s2| | | |] eqn:Ek; [|done..].
  eapply (may_ret _ (fun _ s => lexes buf es s ts2)) in Ek; [|by apply (may_peek buf es buf_nul [] s1 ts2); [constructor|..]].
  unfold Prelude.gets, id. destruct (Nat.eqb_spec s2 es) as [->|]; [|done]. cbn [negb]. unfold lift_opt, ret, fault.
  destruct (nulterminate c1 buf); [|done]. intros [= <- _ _]. apply lexes_len in Ek. destruct ts2; [|cbn in Ek; lia].
  rewrite app_nil_r in L. by exists ts1.
Qed.

Lemma parsecmd_complete ts c : lexes buf es 0 ts -> g_line ts c -> exists b s, parsecmd buf = Ret (c, b) s.
Proof.
  intros L G. pose proof (lexes_len buf es 0 ts L) as Hts.
  assert (wp (parseline buf es (4 * es + 4)) (fun c' s' => c' = c /\ lexes buf es s' []) 0%nat) as Hw.
  { eapply (proj1 (accepts_parse buf es buf_nul buf_chars (4 * es + 4) 0) ts c []); rewrite ?app_nil_r; [done|by left|lia|lia|exact L|]. eauto. }
  apply wp_run in Hw as (c' & s1 & Ep & -> & L1).
  assert (cmd_ok buf es c) as Hok.
  { eapply (may_ret _ (fun c _ => cmd_ok buf es c)); [|exact Ep].
    apply (proj1 (parse_ok buf es buf_nul buf_chars (4 * es + 4))); [lia|lia|]. auto. }
  rewrite parsecmd_run. unfold bind. rewrite Ep.
  assert (wp (peek buf es []) (fun _ s' => s' = es) s1) as (p & s2 & -> & ->)%wp_run
    by (eapply wp_peek_lex; [apply buf_nul|constructor|exact L1|]; intros s' _ Hs; by apply Hs).
  unfold Prelude.gets, id. rewrite Nat.eqb_refl. cbn [negb].
  rewrite nulterminate_zero; [cbn; by eexists _, _|]. eapply list.Forall_impl; [by apply spans_words|].
  intros w ((_ & Hw) & _). unfold buf. rewrite length_app. cbn. unfold es in Hw. lia.
Qed.

(** C30: The parser of the shell is the grammar, on every line: it returns a command exactly for the lines
    whose tokens, symbols and longest words, are a line of the grammar, and then the command
    the grammar gives, with each argument and file the word of its token; the words, read as
    C strings from the line parsecmd leaves behind, are those of the line. *)
Theorem parsecmd_grammar c :
  ((exists b s, parsecmd buf = Ret (c, b) s) <-> exists ts, lexes buf es 0 ts /\ g_line ts c) /\
  (forall b s, parsecmd buf = Ret (c, b) s ->
    cmd_ok buf es c /\ Forall (fun w => string_at b (fst w) = slice (fst w) (snd w - fst w) line) (spans c)).
Proof.
  split; [split|].
  - intros (b & s & E). by eapply parsecmd_sound.
  - intros (ts & L & G). by eapply parsecmd_complete.
  - intros b s E. by apply (parsecmd_strings line rest Hline Hlen c b s).
Qed.
End Parser.

(** "ls <f|wc&" is a pipeline in the background. *)
Lemma parsecmd_grammar_witness : exists ts,
  lexes (demo_line ++ [0]) 10 0 ts /\ g_line ts (Back (Pipe (Redir (Exec [(0, 2)]) (4, 5) 0 0) (Exec [(6, 8)])))%nat.
Proof.
  apply (parsecmd_grammar demo_line []); [unfold demo_line; repeat constructor; lia|cbn; lia|].
  eexists _, _. vm_compute. reflexivity.
Defined.
