(* ===== verification/Syscall.v ===== *)
(** * syscall.c: the arguments of system calls

    [uproc] is what the kernel sees of the process that made the call: the size of its
    address space, the saved user stack pointer and its memory.  Addresses are 32-bit and
    sums of them wrap.  A routine that returns -1 returns [None]; one that returns a
    pointer through its argument returns the address. *)

From stdpp Require Import base list numbers strings.
From S2P Require Import Prelude CString Kalloc.
Import Mem.

Open Scope Z_scope.

Record uproc := mku { u_sz : Z; u_esp : Z; u_mem : mem }.

(** The bytes at an address, and storing some there. *)
Definition ubytes (m : mem) (a : Z) (n : nat) : list Z := (fun k => m (a + Z.of_nat k)) <$> seq 0 n.
Definition ustore (m : mem) (a : Z) (bs : list Z) : mem := fun x =>
  if decide (a <= x < a + Z.of_nat (length bs)) then default 0 (bs !! Z.to_nat (x - a)) else m x.

Definition fetchint (u : uproc) (addr : Z) : option Z :=
  if (u_sz u <=? addr) || (u_sz u <? u32 (addr + 4)) then None
  else Some (i32 (load32 (u_mem u) addr)).

(** The loop of fetchstr from [s] with [k] bytes before the end. *)
Fixpoint fetchstr_loop (k : nat) (m : mem) (s : Z) : option Z :=
  match k with
  | O => None
  | S k => if m s =? 0 then Some s else fetchstr_loop k m (s + 1)
  end.

(** The length of the string. *)
Definition fetchstr (u : uproc) (addr : Z) : option Z :=
  if u_sz u <=? addr then None else
  s ← fetchstr_loop (Z.to_nat (u_sz u - addr)) (u_mem u) addr; Some (s - addr).

Definition argint (u : uproc) (n : Z) : option Z := fetchint u (u32 (u_esp u + 4 + 4 * n)).

Definition argptr (u : uproc) (n size : Z) : option Z :=
  i ← argint u n;
  if (u_sz u <=? u32 i) || (u_sz u <? u32 (u32 i + size)) then None else Some (u32 i).

(** The address and the length. *)
Definition argstr (u : uproc) (n : Z) : option (Z * Z) :=
  addr ← argint u n;
  len ← fetchstr u (u32 addr);
  Some (u32 addr, len).

(** The string a checked pointer points to, with its nul. *)
Definition ustring (u : uproc) (a len : Z) : list Z := ubytes (u_mem u) a (Z.to_nat (len + 1)).

(** ** The table of system calls *)

Inductive sysno :=
| SYS_fork | SYS_exit | SYS_wait | SYS_pipe | SYS_read | SYS_kill | SYS_exec | SYS_fstat
| SYS_chdir | SYS_dup | SYS_getpid | SYS_sbrk | SYS_sleep | SYS_uptime | SYS_open
| SYS_write | SYS_mknod | SYS_unlink | SYS_link | SYS_mkdir | SYS_close
| SYS_kthread_create | SYS_kthread_id | SYS_kthread_exit | SYS_kthread_join.

(** The entries by number; entry 0 is null. *)
Definition syscalls : list (option sysno) :=
  [None; Some SYS_fork; Some SYS_exit; Some SYS_wait; Some SYS_pipe; Some SYS_read; Some SYS_kill;
   Some SYS_exec; Some SYS_fstat; Some SYS_chdir; Some SYS_dup; Some SYS_getpid; Some SYS_sbrk;
   Some SYS_sleep; Some SYS_uptime; Some SYS_open; Some SYS_write; Some SYS_mknod; Some SYS_unlink;
   Some SYS_link; Some SYS_mkdir; Some SYS_close; Some SYS_kthread_create; Some SYS_kthread_id;
   Some SYS_kthread_exit; Some SYS_kthread_join].

Section Dispatch.
Context {S : Type}.
Local Open Scope kernel_scope.
(** The routines of the table, the message for a number that has none, and the return
    value in tf->eax. *)
Variable call : sysno -> M S Z.
Variable unknown : Z -> M S unit.
Variable set_eax : Z -> M S unit.

Definition syscall (num : Z) : M S unit :=
  let none := unknown num ;; set_eax (-1) in
  if (0 <? num) && (num <? Z.of_nat (length syscalls)) then
    match mjoin (syscalls !! Z.to_nat num) with
    | Some c => r <- call c ;; set_eax r
    | None => none
    end
  else none.
End Dispatch.

(** ** What the checks guarantee *)

Lemma fetchint_iff u a v :
  0 <= u_sz u <= KERNBASE -> 0 <= a < 2 ^ 32 ->
  fetchint u a = Some v <-> a + 4 <= u_sz u /\ v = i32 (load32 (u_mem u) a).
Proof.
  intros Hsz Ha. unfold fetchint, KERNBASE in *.
  destruct (Z.leb_spec (u_sz u) a) as [H|H]; cbn [orb]; [split; [done|lia]|].
  rewrite u32_small by lia. destruct (Z.ltb_spec (u_sz u) (a + 4)) as [H'|H']; [split; [done|lia]|].
  split; [|by intros [_ ->]]. intros [= <-]. split; [lia|done].
Qed.

Lemma fetchstr_loop_iff k m s e :
  fetchstr_loop k m s = Some e <->
  s <= e < s + Z.of_nat k /\ m e = 0 /\ forall x, s <= x < e -> m x <> 0.
Proof.
  revert s. induction k as [|k IH]; intros s; cbn [fetchstr_loop]; [split; [done|lia]|].
  destruct (Z.eqb_spec (m s) 0) as [Hs|Hs].
  - split.
    + intros [= <-]. repeat split; [lia|lia|done|]. lia.
    + intros (He & Hz & Hx). destruct (Z.eq_dec s e) as [->|Hne]; [done|]. destruct (Hx s); [lia|done].
  - rewrite IH. split; intros (He & Hz & Hx).
    + repeat split; [lia|lia|done|]. intros x Hxr. destruct (Z.eq_dec x s) as [->|]; [done|]. apply Hx. lia.
    + assert (s <> e) by congruence. repeat split; [lia|lia|done|]. intros x Hxr. apply Hx. lia.
Qed.

Lemma fetchstr_iff u a len :
  0 <= a ->
  fetchstr u a = Some len <->
  0 <= len /\ a + len < u_sz u /\ u_mem u (a + len) = 0 /\ forall x, a <= x < a + len -> u_mem u x <> 0.
Proof.
  intros Ha. unfold fetchstr. destruct (Z.leb_spec (u_sz u) a) as [H|H]; [split; [done|lia]|]. split.
  - destruct (fetchstr_loop _ _ _) as [e|] eqn:E; [|done]. cbn. intros [= <-].
    apply fetchstr_loop_iff in E as (He & Hz & Hx). replace (a + (e - a)) with e by lia. repeat split; [lia|lia|done|done].
  - intros (Hl & Hs & Hz & Hx).
    assert (fetchstr_loop (Z.to_nat (u_sz u - a)) (u_mem u) a = Some (a + len)) as ->; [|cbn; f_equal; lia].
    apply fetchstr_loop_iff. repeat split; [lia|lia|done|done].
Qed.

(** C39: For an address space below KERNBASE, the checks of system call arguments accept
    exactly what lies in it: argint a word of the user stack, argptr with a size that is not
    negative a block of that size, argstr a string whose first nul is in it. *)
Theorem args_checked u n :
  0 <= u_sz u <= KERNBASE ->
  let w := u32 (u_esp u + 4 + 4 * n) in
  (forall v, argint u n = Some v <-> w + 4 <= u_sz u /\ v = i32 (load32 (u_mem u) w)) /\
  (forall size p, 0 <= size < 2 ^ 31 ->
     argptr u n size = Some p <->
     exists v, argint u n = Some v /\ p = u32 v /\ p < u_sz u /\ p + size <= u_sz u) /\
  (forall a len,
     argstr u n = Some (a, len) <->
     exists v, argint u n = Some v /\ a = u32 v /\ 0 <= len /\ a + len < u_sz u /\
       u_mem u (a + len) = 0 /\ forall x, a <= x < a + len -> u_mem u x <> 0).
Proof.
  intros Hsz w. split; [|split].
  - intros v. apply fetchint_iff; [done|]. apply u32_range.
  - intros size p Hs. unfold argptr. destruct (argint u n) as [v|]; cbn [mbind option_bind]; [|split; [done|by intros (? & ? & _)]].
    pose proof (u32_range v) as Hv. unfold KERNBASE in Hsz.
    destruct (Z.leb_spec (u_sz u) (u32 v)) as [H|H]; cbn [orb].
    { split; [done|]. intros (? & [= <-] & -> & ? & ?). lia. }
    rewrite (u32_small (u32 v + size)) by lia. destruct (Z.ltb_spec (u_sz u) (u32 v + size)) as [H'|H'].
    { split; [done|]. intros (? & [= <-] & -> & ? & ?). lia. }
    split; [intros [= <-]; by eauto|]. by intros (? & [= <-] & -> & _).
  - intros a len. unfold argstr. destruct (argint u n) as [v|]; cbn [mbind option_bind]; [|split; [done|by intros (? & ? & _)]].
    pose proof (u32_range v) as Hv. split.
    + destruct (fetchstr u (u32 v)) as [l|] eqn:E; [|done]. cbn. intros [= <- <-].
      apply fetchstr_iff in E; [|lia]. exists v. by destruct E as (? & ? & ? & ?).
    + intros (? & [= <-] & -> & Hx). apply fetchstr_iff in Hx; [|lia]. by rewrite Hx.
Qed.

(** A process of 64 bytes whose stack holds the number 7 at its third argument. *)
Definition demo_user : uproc := mku 64 16 (ustore (fun _ => 0) 28 [7; 0; 0; 0]).

Lemma args_checked_witness :
  argint demo_user 2 = Some 7 /\ argptr demo_user 2 57 = Some 7 /\ argptr demo_user 2 58 <> Some 7.
Proof.
  destruct (args_checked demo_user 2) as (H1 & H2 & _); [vm_compute; split; discriminate|].
  assert (argint demo_user 2 = Some 7) as E by (apply H1; vm_compute; split; [discriminate|reflexivity]).
  split; [exact E|]. split.
  - apply H2; [lia|]. exists 7. split; [exact E|]. vm_compute. repeat split; discriminate.
  - intros (v & Ev & _ & _ & Hle)%H2; [|lia]. vm_compute in Hle. apply Hle. reflexivity.
Defined.
