(* ===== verification/File.v ===== *)
(** * file.c and pipealloc: the file table

    [fsys] holds the table of open files, the pipes by the address of their page, the page
    allocator and the file system below.  struct file pointers are indices into the table.
    The log is reached through [TxLayer], begin_op and end_op; a call that sleeps ends with
    the outcome of its own, except that pipewrite keeps how far it got. *)

From stdpp Require Import base list numbers strings gmap functions sets.
From S2P Require Import Prelude CString Spinlock Layout Pipe Buf Log Kalloc Block Inode.
Import Ctx.

Open Scope Z_scope.
Local Open Scope kernel_scope.

Definition NFILE : nat := 100.

Inductive ftype := FD_NONE | FD_PIPE | FD_INODE.

(** struct file. *)
Record file := mkfile {
  f_type : ftype; f_ref : Z; f_readable : Z; f_writable : Z; f_pipe : Z; f_ip : nat; f_off : Z }.

Definition fw_type v f := mkfile v (f_ref f) (f_readable f) (f_writable f) (f_pipe f) (f_ip f) (f_off f).
Definition fw_ref v f := mkfile (f_type f) v (f_readable f) (f_writable f) (f_pipe f) (f_ip f) (f_off f).
Definition fw_off v f := mkfile (f_type f) (f_ref f) (f_readable f) (f_writable f) (f_pipe f) (f_ip f) v.

(** What files need of the log. *)
Class TxLayer (S : Type) := { tx_begin : M S unit; tx_end : M S unit }.
#[export] Instance log_tx : TxLayer logst := {| tx_begin := begin_op; tx_end := end_op |}.

Record fsys (S : Type) := mkfsys {
  ftable : list file; pipes : gmap Z pstate; kmem : kst; inodes : ist S }.
Arguments mkfsys {S}. Arguments ftable {S}. Arguments pipes {S}. Arguments kmem {S}. Arguments inodes {S}.

#[export] Program Instance fsys_ctx (S : Type) `{HasCtx S} : HasCtx (fsys S) := {|
  ctx s := ctx (inodes s);
  with_ctx k s := mkfsys (ftable s) (pipes s) (kmem s) (with_ctx k (inodes s)) |}.
Next Obligation. intros. simpl. by rewrite ctx_with. Qed.
Next Obligation. intros. simpl. by rewrite with_with. Qed.
Next Obligation. intros ? ? [? ? ? []]. simpl. by rewrite with_same. Qed.

Section Ops.
Context {S : Type} `{HasCtx S} `{!BlockLayer S} `{!TxLayer S}.
Abbreviation FS := (fsys S).
Variable dev_read : Z -> option (nat -> Z -> M (ist S) (Z * list Z)).
Variable dev_write : Z -> option (nat -> list Z -> Z -> M (ist S) Z).
(** The first address after the kernel. *)
Variable end_ : Z.

(** Routines of the other components; the allocator and a pipe run in the caller's
    context. *)
Definition in_fs {A} (m : M (ist S) A) : M FS A :=
  zoom inodes (fun x s => mkfsys (ftable s) (pipes s) (kmem s) x) m.
Definition in_kmem {A} (m : M kst A) : M FS A :=
  zoom (fun s => with_ctx (ctx s) (kmem s))
    (fun k s => with_ctx (ctx k) (mkfsys (ftable s) (pipes s) k (inodes s))) m.
Definition in_pipe {A} (p : Z) (m : M pstate A) : M FS A :=
  ps <- gets pipes ;;
  x <- lift_opt (ps !! p) ;;
  zoom (fun s => with_ctx (ctx s) x)
    (fun y s => with_ctx (ctx y) (mkfsys (ftable s) (<[p := y]> (pipes s)) (kmem s) (inodes s))) m.
Definition begin_tx : M FS unit := in_fs (in_blk tx_begin).
Definition end_tx : M FS unit := in_fs (in_blk tx_end).

Definition getf (f : nat) : M FS file := l <- gets ftable ;; lift_opt (l !! f).
Definition setf (f : nat) (g : file -> file) : M FS unit :=
  getf f ;; modify (fun s => mkfsys (alter g f (ftable s)) (pipes s) (kmem s) (inodes s)).

(** The loop of filealloc. *)
Fixpoint find_free (l : list file) (i : nat) : option nat :=
  match l with
  | [] => None
  | f :: l => if f_ref f =? 0 then Some i else find_free l (1 + i)
  end.

Definition filealloc : M FS (option nat) :=
  acquire LkFtable ;;
  l <- gets ftable ;;
  match find_free l 0 with
  | Some f => setf f (fw_ref 1) ;; release LkFtable ;; ret (Some f)
  | None => release LkFtable ;; ret None
  end.

Definition filedup (f : nat) : M FS nat :=
  acquire LkFtable ;;
  x <- getf f ;;
  if f_ref x <? 1 then panic "filedup" else
  setf f (fun x => fw_ref (f_ref x + 1) x) ;;
  release LkFtable ;;
  ret f.

(** pipeclose, with the kfree of a pipe both of whose ends are closed. *)
Definition close_pipe (p : Z) (writable : bool) : M FS unit :=
  freed <- in_pipe p (pipeclose writable) ;;
  if freed : bool then
    modify (fun s => mkfsys (ftable s) (delete p (pipes s)) (kmem s) (inodes s)) ;;
    in_kmem (kfree end_ p)
  else ret tt.

Definition fileclose (f : nat) : M FS unit :=
  acquire LkFtable ;;
  x <- getf f ;;
  if f_ref x <? 1 then panic "fileclose" else
  setf f (fw_ref (f_ref x - 1)) ;;
  if 0 <? f_ref x - 1 then release LkFtable else
  ff <- getf f ;;
  setf f (fw_ref 0) ;;
  setf f (fw_type FD_NONE) ;;
  release LkFtable ;;
  match f_type ff with
  | FD_PIPE => close_pipe (f_pipe ff) (negb (f_writable ff =? 0))
  | FD_INODE => begin_tx ;; in_fs (iput (f_ip ff)) ;; end_tx
  | FD_NONE => ret tt
  end.

(** The result and *st. *)
Definition filestat (f : nat) : M FS (option stat) :=
  x <- getf f ;;
  match f_type x with
  | FD_INODE =>
      in_fs (ilock (f_ip x)) ;;
      st <- in_fs (stati (f_ip x)) ;;
      in_fs (iunlock (f_ip x)) ;;
      ret (Some st)
  | _ => ret None
  end.

(** The result and the bytes stored at addr, or a sleep in piperead. *)
Definition fileread (f : nat) (n : Z) : M FS rres :=
  x <- getf f ;;
  if f_readable x =? 0 then ret (RDone (-1) []) else
  match f_type x with
  | FD_PIPE => in_pipe (f_pipe x) (piperead n)
  | FD_INODE =>
      in_fs (ilock (f_ip x)) ;;
      x <- getf f ;;
      r <- in_fs (readi dev_read (f_ip x) (f_off x) (u32 n)) ;;
      (when (0 <? fst r) do setf f (fun x => fw_off (u32 (f_off x + fst r)) x)) ;;
      in_fs (iunlock (f_ip x)) ;;
      ret (RDone (fst r) (snd r))
  | FD_NONE => panic "fileread"
  end.

(** int max = ((LOGSIZE-1-1-2) / 2) * 512. *)
Definition max_write : Z := ((LOGSIZE - 1 - 1 - 2) / 2) * 512.

(** One round of filewrite between its begin_op and its end_op. *)
Definition write_round (f : nat) (src : list Z) (n1 : Z) : M FS Z :=
  x <- getf f ;;
  in_fs (ilock (f_ip x)) ;;
  x <- getf f ;;
  r <- in_fs (writei dev_write (f_ip x) src (f_off x) (u32 n1)) ;;
  (when (0 <? r) do setf f (fun x => fw_off (u32 (f_off x + r)) x)) ;;
  in_fs (iunlock (f_ip x)) ;;
  ret r.

(** The while loop of filewrite from [i]: the last value of i. *)
Fixpoint filewrite_loop (fuel : nat) (f : nat) (addr : list Z) (i n : Z) : M FS Z :=
  match fuel with
  | O => out_of_fuel
  | Datatypes.S fuel =>
      if i <? n then
        let n1 := if max_write <? n - i then max_write else n - i in
        begin_tx ;;
        r <- write_round f (drop (Z.to_nat i) addr) n1 ;;
        end_tx ;;
        if r <? 0 then ret i else
        if negb (r =? n1) then panic "short filewrite" else
        filewrite_loop fuel f addr (i + r) n
      else ret i
  end.

(** [k] is how far a pipewrite that slept had got; 0 for the call itself. *)
Definition filewrite (f : nat) (addr : list Z) (n : Z) (k : nat) : M FS wres :=
  x <- getf f ;;
  if f_writable x =? 0 then ret (WDone (-1) 0) else
  match f_type x with
  | FD_PIPE => in_pipe (f_pipe x) (pipewrite addr n k)
  | FD_INODE =>
      i <- filewrite_loop (1 + Z.to_nat n) f addr 0 n ;;
      ret (WDone (if i =? n then n else -1) (Z.to_nat i))
  | FD_NONE => panic "filewrite"
  end.

(** ** pipealloc *)

(** struct spinlock comes first in struct pipe, data after it. *)
Definition sizeof_spinlock : Z := 52.
Definition page_data (m : Mem.mem) (p : Z) : list Z :=
  (fun k => m (p + sizeof_spinlock + Z.of_nat k)) <$> seq 0 (Z.to_nat PIPESIZE).

Definition pipealloc : M FS (option (nat * nat)) :=
  f0 <- filealloc ;;
  match f0 with
  | None => ret None
  | Some f0 =>
  f1 <- filealloc ;;
  match f1 with
  | None => fileclose f0 ;; ret None
  | Some f1 =>
  p <- in_kmem kalloc ;;
  if p =? 0 then fileclose f0 ;; fileclose f1 ;; ret None else
  m <- gets (fun s => kmemory (kmem s)) ;;
  k <- gets ctx ;;
  modify (fun s => mkfsys (ftable s) (<[p := pipe_init (page_data m p) k]> (pipes s)) (kmem s) (inodes s)) ;;
  setf f0 (fun x => mkfile FD_PIPE (f_ref x) 1 0 p (f_ip x) (f_off x)) ;;
  setf f1 (fun x => mkfile FD_PIPE (f_ref x) 0 1 p (f_ip x) (f_off x)) ;;
  ret (Some (f0, f1))
  end end.
End Ops.
