(* ===== verification/Sysfile.v ===== *)
(** * sysfile.c: the file-system calls

    [sst] is the process that makes the call: its open files, its current directory, its
    memory and the system below.  Every routine runs from the fetching of its arguments to
    its return value; a call that sleeps ends there. *)

From stdpp Require Import base list numbers strings gmap functions sets.
From S2P Require Import Prelude CString Spinlock Layout Pipe Buf Log Kalloc Block Inode Dir Syscall File.
Import Ctx.

Open Scope Z_scope.
Local Open Scope kernel_scope.

Definition NOFILE : nat := 16.
Definition MAXARG : nat := 32.
Definition O_RDONLY : Z := 0.
Definition O_WRONLY : Z := 1.
Definition O_RDWR : Z := 2.
Definition O_CREATE : Z := 512.

Record sst (S : Type) := mksst { files : fsys S; ofile : list (option nat); cwd : nat; user : uproc }.
Arguments mksst {S}. Arguments files {S}. Arguments ofile {S}. Arguments cwd {S}. Arguments user {S}.

Definition dot : list Z := [46; 0].
Definition dotdot : list Z := [46; 46; 0].

(** The lowest descriptor that is free. *)
Fixpoint find_fd (l : list (option nat)) (fd : nat) : option nat :=
  match l with
  | [] => None
  | None :: _ => Some fd
  | Some _ :: l => find_fd l (1 + fd)
  end.

(** The assignments of stati to *st. *)
Definition put_stat (m : Mem.mem) (p : Z) (st : stat) : Mem.mem :=
  ustore (ustore (ustore (ustore (ustore m p (to_le 2 (st_type st))) (p + 4) (to_le 4 (st_dev st)))
    (p + 8) (to_le 4 (st_ino st))) (p + 12) (to_le 2 (st_nlink st))) (p + 16) (to_le 4 (st_size st)).
Definition sizeof_stat : Z := 20.

Section Ops.
Context {S : Type} `{HasCtx S} `{!BlockLayer S} `{!TxLayer S}.
Abbreviation SS := (sst S).
Variable dev_read : Z -> option (nat -> Z -> M (ist S) (Z * list Z)).
Variable dev_write : Z -> option (nat -> list Z -> Z -> M (ist S) Z).
(** The first address after the kernel. *)
Variable end_ : Z.

Definition in_files {A} (m : M (fsys S) A) : M SS A :=
  zoom files (fun x s => mksst x (ofile s) (cwd s) (user s)) m.
Definition in_inodes {A} (m : M (ist S) A) : M SS A := in_files (in_fs m).
Definition begin_call : M SS unit := in_files begin_tx.
Definition end_call : M SS unit := in_files end_tx.
Definition set_ofile (fd : nat) (v : option nat) : M SS unit :=
  modify (fun s => mksst (files s) (<[fd := v]> (ofile s)) (cwd s) (user s)).
Definition set_cwd (ip : nat) : M SS unit :=
  modify (fun s => mksst (files s) (ofile s) ip (user s)).
Definition set_umem (f : Mem.mem -> Mem.mem) : M SS unit :=
  modify (fun s => mksst (files s) (ofile s) (cwd s)
    (mku (u_sz (user s)) (u_esp (user s)) (f (u_mem (user s))))).

(** A return of -1. *)
Definition minus_one : M SS Z := ret (-1).
Definition end_minus_one : M SS Z := end_call ;; ret (-1).

(** The descriptor and the file. *)
Definition argfd (n : Z) : M SS (option (nat * nat)) :=
  u <- gets user ;;
  match argint u n with
  | None => ret None
  | Some fd =>
      if (fd <? 0) || (Z.of_nat NOFILE <=? fd) then ret None else
      l <- gets ofile ;;
      f <- lift_opt (l !! Z.to_nat fd) ;;
      ret ((fun f => (Z.to_nat fd, f)) <$> f)
  end.

Definition fdalloc (f : nat) : M SS Z :=
  l <- gets ofile ;;
  match find_fd l 0 with
  | Some fd => set_ofile fd (Some f) ;; ret (Z.of_nat fd)
  | None => ret (-1)
  end.

Definition sys_dup : M SS Z :=
  o <- argfd 0 ;;
  match o with
  | None => minus_one
  | Some (_, f) =>
      fd <- fdalloc f ;;
      if fd <? 0 then minus_one else
      in_files (filedup f) ;;
      ret fd
  end.

(** argfd(0, 0, &f) < 0 || argint(2, &n) < 0 || argptr(1, &p, n) < 0. *)
Definition rw_args : M SS (option (nat * Z * Z)) :=
  o <- argfd 0 ;;
  u <- gets user ;;
  ret ('(_, f) ← o; n ← argint u 2; p ← argptr u 1 n; Some (f, p, n)).

Definition sys_read : M SS Z :=
  o <- rw_args ;;
  match o with
  | None => minus_one
  | Some (f, p, n) =>
      r <- in_files (fileread dev_read f n) ;;
      match r with
      | RDone r bs => set_umem (fun m => ustore m p bs) ;; ret r
      | RSleep => sleep_on ChPipeRead
      end
  end.

(** [k] as for filewrite. *)
Definition sys_write (k : nat) : M SS wres :=
  o <- rw_args ;;
  match o with
  | None => ret (WDone (-1) 0)
  | Some (f, p, n) =>
      u <- gets user ;;
      in_files (filewrite dev_write f (ubytes (u_mem u) p (Z.to_nat n)) n k)
  end.

Definition sys_close : M SS Z :=
  o <- argfd 0 ;;
  match o with
  | None => minus_one
  | Some (fd, f) =>
      set_ofile fd None ;;
      in_files (fileclose end_ f) ;;
      ret 0
  end.

Definition sys_fstat : M SS Z :=
  o <- argfd 0 ;;
  u <- gets user ;;
  match o, argptr u 1 sizeof_stat with
  | Some (_, f), Some p =>
      st <- in_files (filestat f) ;;
      match st with
      | Some st => set_umem (fun m => put_stat m p st) ;; ret 0
      | None => minus_one
      end
  | _, _ => minus_one
  end.

(** A string argument, as the kernel reads it from the process. *)
Definition arg_path (n : Z) : M SS (option (list Z)) :=
  u <- gets user ;; ret ('(a, len) ← argstr u n; Some (ustring u a len)).

Definition lookup_path (path : list Z) : M SS (option nat) :=
  c <- gets cwd ;; in_inodes (namei dev_read c path).
(** char name[DIRSIZ] is the second result. *)
Definition lookup_parent (path : list Z) : M SS (option nat * list Z) :=
  c <- gets cwd ;; in_inodes (nameiparent dev_read c path (replicate DIRSIZ 0)).

(** The label bad of sys_link. *)
Definition link_bad (ip : nat) : M SS Z :=
  in_inodes (
    ilock ip ;;
    seti ip (fun x => iw_nlink (i16 (i_nlink x - 1)) x) ;;
    iupdate ip ;;
    iunlockput ip) ;;
  end_minus_one.

Definition sys_link : M SS Z :=
  o <- arg_path 0 ;;
  n <- arg_path 1 ;;
  match o, n with
  | Some old, Some new =>
      begin_call ;;
      ip <- lookup_path old ;;
      match ip with
      | None => end_minus_one
      | Some ip =>
          in_inodes (ilock ip) ;;
          x <- in_inodes (geti ip) ;;
          if i_type x =? T_DIR then in_inodes (iunlockput ip) ;; end_minus_one else
          in_inodes (
            seti ip (fun x => iw_nlink (i16 (i_nlink x + 1)) x) ;;
            iupdate ip ;;
            iunlock ip) ;;
          r <- lookup_parent new ;;
          match r with
          | (None, _) => link_bad ip
          | (Some dp, name) =>
              in_inodes (ilock dp) ;;
              d <- in_inodes (geti dp) ;;
              x <- in_inodes (geti ip) ;;
              l <- (if negb (i_dev d =? i_dev x) then ret (-1)
                    else in_inodes (dirlink dev_read dev_write dp name (i_inum x))) ;;
              if l <? 0 then in_inodes (iunlockput dp) ;; link_bad ip else
              in_inodes (iunlockput dp) ;;
              in_inodes (iput ip) ;;
              end_call ;;
              ret 0
          end
      end
  | _, _ => minus_one
  end.

(** The loop of isdirempty. *)
Fixpoint isdirempty_loop (fuel : nat) (dp : nat) (off : Z) : M (ist S) Z :=
  match fuel with
  | O => out_of_fuel
  | Datatypes.S fuel =>
      x <- geti dp ;;
      if off <? i_size x then
        r <- readi dev_read dp off sizeof_dirent ;;
        if negb (fst r =? sizeof_dirent) then panic "isdirempty: readi" else
        if negb (de_inum (dirent_of (snd r)) =? 0) then ret 0
        else isdirempty_loop fuel dp (off + sizeof_dirent)
      else ret 1
  end.

Definition isdirempty (dp : nat) : M (ist S) Z :=
  x <- geti dp ;; isdirempty_loop (1 + Z.to_nat (i_size x)) dp (2 * sizeof_dirent).

(** The label bad of sys_unlink. *)
Definition unlink_bad (dp : nat) : M SS Z := in_inodes (iunlockput dp) ;; end_minus_one.

(** sys_unlink once the entry at [off] of [dp] is found to be [ip]. *)
Definition unlink_entry (dp ip : nat) (off : Z) : M SS Z :=
  in_inodes (ilock ip) ;;
  x <- in_inodes (geti ip) ;;
  if i_nlink x <? 1 then panic "unlink: nlink < 1" else
  e <- (if i_type x =? T_DIR then in_inodes (isdirempty ip) else ret 1) ;;
  if e =? 0 then in_inodes (iunlockput ip) ;; unlink_bad dp else
  r <- in_inodes (writei dev_write dp (replicate (Z.to_nat sizeof_dirent) 0) off sizeof_dirent) ;;
  if negb (r =? sizeof_dirent) then panic "unlink: writei" else
  in_inodes (
    (when (i_type x =? T_DIR) do
      (seti dp (fun d => iw_nlink (i16 (i_nlink d - 1)) d) ;; iupdate dp)) ;;
    iunlockput dp ;;
    seti ip (fun x => iw_nlink (i16 (i_nlink x - 1)) x) ;;
    iupdate ip ;;
    iunlockput ip) ;;
  end_call ;;
  ret 0.

Definition sys_unlink : M SS Z :=
  o <- arg_path 0 ;;
  match o with
  | None => minus_one
  | Some path =>
      begin_call ;;
      r <- lookup_parent path ;;
      match r with
      | (None, _) => end_minus_one
      | (Some dp, name) =>
          in_inodes (ilock dp) ;;
          c1 <- lift_opt (namecmp name dot) ;;
          c2 <- lift_opt (namecmp name dotdot) ;;
          if (c1 =? 0) || (c2 =? 0) then unlink_bad dp else
          e <- in_inodes (dirlookup dev_read dp name) ;;
          match e with
          | None => unlink_bad dp
          | Some (ip, off) => unlink_entry dp ip off
          end
      end
  end.

(** create once [name] is known not to be in [dp]. *)
Definition create_new (dp : nat) (name : list Z) (type major minor : Z) : M (ist S) nat :=
  d <- geti dp ;;
  ip <- ialloc (i_dev d) type ;;
  ilock ip ;;
  seti ip (iw_devno major minor) ;;
  seti ip (iw_nlink 1) ;;
  iupdate ip ;;
  x <- geti ip ;;
  d <- geti dp ;;
  (when (type =? T_DIR) do
    (seti dp (fun d => iw_nlink (i16 (i_nlink d + 1)) d) ;;
     iupdate dp ;;
     r1 <- dirlink dev_read dev_write ip dot (i_inum x) ;;
     if r1 <? 0 then panic "create dots" else
     r2 <- dirlink dev_read dev_write ip dotdot (i_inum d) ;;
     if r2 <? 0 then panic "create dots" else ret tt)) ;;
  r <- dirlink dev_read dev_write dp name (i_inum x) ;;
  if r <? 0 then panic "create: dirlink" else
  iunlockput dp ;;
  ret ip.

(** The new inode, locked; ialloc panics rather than return 0. *)
Definition create (path : list Z) (type major minor : Z) : M SS (option nat) :=
  r <- lookup_parent path ;;
  match r with
  | (None, _) => ret None
  | (Some dp, name) =>
      in_inodes (
        ilock dp ;;
        o <- dirlookup dev_read dp name ;;
        match o with
        | Some (ip, _) =>
            iunlockput dp ;;
            ilock ip ;;
            x <- geti ip ;;
            if (type =? T_FILE) && (i_type x =? T_FILE) then ret (Some ip) else
            iunlockput ip ;;
            ret None
        | None => ip <- create_new dp name type major minor ;; ret (Some ip)
        end)
  end.

(** The inode sys_open opens, locked; None after the end_op of a failure. *)
Definition open_inode (path : list Z) (omode : Z) : M SS (option nat) :=
  if negb (Z.land omode O_CREATE =? 0) then
    ip <- create path T_FILE 0 0 ;;
    match ip with
    | None => end_call ;; ret None
    | Some ip => ret (Some ip)
    end
  else
    ip <- lookup_path path ;;
    match ip with
    | None => end_call ;; ret None
    | Some ip =>
        in_inodes (ilock ip) ;;
        x <- in_inodes (geti ip) ;;
        if (i_type x =? T_DIR) && negb (omode =? O_RDONLY) then
          in_inodes (iunlockput ip) ;; end_call ;; ret None
        else ret (Some ip)
    end.

(** sys_open up to its end_op: the inode, the file and the descriptor. *)
Definition open_fd (path : list Z) (omode : Z) : M SS (option (nat * nat * Z)) :=
  begin_call ;;
  o <- open_inode path omode ;;
  match o with
  | None => ret None
  | Some ip =>
      f <- in_files filealloc ;;
      match f with
      | None => in_inodes (iunlockput ip) ;; end_call ;; ret None
      | Some f =>
          fd <- fdalloc f ;;
          if fd <? 0 then
            in_files (fileclose end_ f) ;; in_inodes (iunlockput ip) ;; end_call ;; ret None
          else
            in_inodes (iunlock ip) ;;
            end_call ;;
            ret (Some (ip, f, fd))
      end
  end.

Definition bool_int (b : bool) : Z := if b then 1 else 0.

Definition sys_open : M SS Z :=
  o <- arg_path 0 ;;
  u <- gets user ;;
  match o, argint u 1 with
  | Some path, Some omode =>
      r <- open_fd path omode ;;
      match r with
      | None => minus_one
      | Some (ip, f, fd) =>
          in_files (setf f (fun x => mkfile FD_INODE (f_ref x)
            (bool_int (Z.land omode O_WRONLY =? 0))
            (bool_int (negb (Z.land omode O_WRONLY =? 0) || negb (Z.land omode O_RDWR =? 0)))
            (f_pipe x) ip 0)) ;;
          ret fd
      end
  | _, _ => minus_one
  end.

(** sys_mkdir and sys_mknod after their arguments. *)
Definition make (path : option (list Z)) (type major minor : Z) : M SS Z :=
  match path with
  | None => end_minus_one
  | Some path =>
      ip <- create path type major minor ;;
      match ip with
      | None => end_minus_one
      | Some ip => in_inodes (iunlockput ip) ;; end_call ;; ret 0
      end
  end.

Definition sys_mkdir : M SS Z :=
  begin_call ;;
  o <- arg_path 0 ;;
  make o T_DIR 0 0.

Definition sys_mknod : M SS Z :=
  begin_call ;;
  o <- arg_path 0 ;;
  u <- gets user ;;
  match argint u 1, argint u 2 with
  | Some major, Some minor => make o T_DEV (i16 major) (i16 minor)
  | _, _ => end_minus_one
  end.

Definition sys_chdir : M SS Z :=
  begin_call ;;
  o <- arg_path 0 ;;
  match o with
  | None => end_minus_one
  | Some path =>
      ip <- lookup_path path ;;
      match ip with
      | None => end_minus_one
      | Some ip =>
          in_inodes (ilock ip) ;;
          x <- in_inodes (geti ip) ;;
          if negb (i_type x =? T_DIR) then in_inodes (iunlockput ip) ;; end_minus_one else
          in_inodes (iunlock ip) ;;
          c <- gets cwd ;;
          in_inodes (iput c) ;;
          end_call ;;
          set_cwd ip ;;
          ret 0
      end
  end.

(** The loop of sys_exec over argv from index [i]: the strings before the null pointer. *)
Fixpoint argv_loop (k : nat) (u : uproc) (uargv : Z) (i : Z) : option (list (list Z)) :=
  match k with
  | O => None
  | Datatypes.S k =>
      uarg ← fetchint u (u32 (uargv + 4 * i));
      if u32 uarg =? 0 then Some [] else
      len ← fetchstr u (u32 uarg);
      l ← argv_loop k u uargv (i + 1);
      Some (ustring u (u32 uarg) len :: l)
  end.

(** The path and the argument strings sys_exec calls exec with. *)
Definition exec_args (u : uproc) : option (list Z * list (list Z)) :=
  '(a, len) ← argstr u 0;
  uargv ← argint u 1;
  argv ← argv_loop MAXARG u (u32 uargv) 0;
  Some (ustring u a len, argv).

Definition sys_pipe : M SS Z :=
  u <- gets user ;;
  match argptr u 0 8 with
  | None => minus_one
  | Some p =>
      o <- in_files (pipealloc end_) ;;
      match o with
      | None => minus_one
      | Some (rf, wf) =>
          fd0 <- fdalloc rf ;;
          fd1 <- (if fd0 <? 0 then ret (-1) else fdalloc wf) ;;
          if (fd0 <? 0) || (fd1 <? 0) then
            (when (0 <=? fd0) do set_ofile (Z.to_nat fd0) None) ;;
            in_files (fileclose end_ rf) ;;
            in_files (fileclose end_ wf) ;;
            ret (-1)
          else
            set_umem (fun m => ustore (ustore m p (to_le 4 fd0)) (p + 4) (to_le 4 fd1)) ;;
            ret 0
      end
  end.
End Ops.
