(* ===== verification/Descr.v ===== *)
(** * The references to open files

    Every count in the file table is the number of descriptors of all processes that refer
    to the file: [tri] is a triple that also says where a call may sleep, [counted] the
    counting seen by one process with the references elsewhere in [ext], [refs] the counting
    over all processes.  The theorems run any sequence of the calls of sysfile.c, of forks
    and of exits. *)

From stdpp Require Import base list numbers strings gmap functions sets.
From S2P Require Import Prelude CString Spinlock Layout Pipe Buf Log Kalloc Block Inode Dir Syscall File Sysfile.
Import Ctx.

Open Scope Z_scope.
Local Open Scope kernel_scope.

(** What the counting depends on: the reference counts and types of the files. *)
Definition sig (l : list file) : list (Z * ftype) := (fun x => (f_ref x, f_type x)) <$> l.

Fixpoint count (f : nat) (o : list (option nat)) : Z :=
  match o with
  | [] => 0
  | x :: o => (if decide (x = Some f) then 1 else 0) + count f o
  end.

(** A reference more to [f]. *)
Definition plus_one (f : nat) (ext : nat -> Z) (g : nat) : Z := ext g + if decide (g = f) then 1 else 0.

(** Each count is the number of descriptors of the process that refer to the file, and
    [ext] for the references elsewhere; a file without references has no type. *)
Definition counted (ext : nat -> Z) (sg : list (Z * ftype)) (o : list (option nat)) : Prop :=
  forall f, let x := default (0, FD_NONE) (sg !! f) in
    fst x = count f o + ext f /\ (fst x = 0 -> snd x = FD_NONE).

Definition on {S} (P : list (Z * ftype) -> list (option nat) -> Prop) (s : sst S) : Prop :=
  P (sig (ftable (files s))) (ofile s).

Lemma refcount_nonneg f o : 0 <= count f o.
Proof. induction o as [|x o IH]; cbn; [lia|]. case_decide; lia. Qed.

Lemma refcount_insert f o i v : (i < length o)%nat ->
  count f (<[i := v]> o) = count f o - (if decide (o !! i = Some (Some f)) then 1 else 0) + (if decide (v = Some f) then 1 else 0).
Proof.
  revert i. induction o as [|x o IH]; intros i Hi; cbn in Hi; [lia|]. destruct i as [|i]; cbn.
  - repeat case_decide; simplify_eq; try congruence; lia.
  - rewrite IH by lia. repeat case_decide; simplify_eq; try congruence; lia.
Qed.

Lemma refcount_pos f o i : o !! i = Some (Some f) -> 1 <= count f o.
Proof.
  revert i. induction o as [|x o IH]; intros i Hi; [done|]. cbn. pose proof (refcount_nonneg f o).
  destruct i as [|i]; cbn in Hi; [|specialize (IH _ Hi)]; case_decide; simplify_eq; lia.
Qed.

Lemma find_fd_spec o k fd : find_fd o k = Some fd -> (k <= fd)%nat /\ o !! (fd - k)%nat = Some None.
Proof.
  revert k. induction o as [|[f|] o IH]; intros k; cbn; [done| |].
  - intros [Hk Ho]%IH. split; [lia|]. by replace (fd - k)%nat with (S (fd - S k))%nat by lia.
  - intros [= <-]. by rewrite Nat.sub_diag.
Qed.

(** The changes of the counts. *)
Lemma counted_ref ext sg o f r t d t' : counted ext sg o -> sg !! f = Some (r, t) ->
  (r + d = 0 -> FD_NONE = t') -> counted (fun g => ext g + if decide (g = f) then d else 0) (<[f := (r + d, t')]> sg) o.
Proof.
  intros C Hf Ht g. pose proof (C g) as Cg. destruct (decide (g = f)) as [->|Hne].
  - rewrite list_lookup_insert_eq by (by eapply lookup_lt_Some). rewrite Hf in Cg. cbn in Cg |- *. split; [lia|]. intros. symmetry. auto.
  - rewrite list_lookup_insert_ne by done. rewrite Z.add_0_r. exact Cg.
Qed.

Lemma counted_ofile ext sg o fd f : counted ext sg o -> o !! fd = Some None ->
  counted (fun g => ext g - if decide (g = f) then 1 else 0) sg (<[fd := Some f]> o).
Proof.
  intros C Ho g. specialize (C g). cbn in C |- *. rewrite refcount_insert by (by eapply lookup_lt_Some). rewrite Ho.
  rewrite (decide_False (P := Some None = Some (Some g))) by congruence.
  split; [|apply C]. repeat case_decide; simplify_eq; try congruence; lia.
Qed.

Lemma counted_clear ext sg o fd f : counted ext sg o -> o !! fd = Some (Some f) ->
  counted (plus_one f ext) sg (<[fd := None]> o).
Proof.
  intros C Ho g. specialize (C g). cbn in C |- *. unfold plus_one. rewrite refcount_insert by (by eapply lookup_lt_Some). rewrite Ho.
  rewrite (decide_False (P := None = Some g)) by congruence.
  split; [|apply C]. repeat case_decide; simplify_eq; try congruence; lia.
Qed.

Lemma counted_ext ext ext' sg o : (forall g, ext g = ext' g) -> counted ext sg o -> counted ext' sg o.
Proof. intros E C g. specialize (C g). cbn in C |- *. by rewrite <- E. Qed.

(** [tri P m Q I]: from [P], [m] returns in [Q] and goes to sleep in [I]. *)
Definition tri {T A} (P : T -> Prop) (m : M T A) (Q : A -> T -> Prop) (I : T -> Prop) : Prop :=
  forall s, P s -> match m s with Ret a s' => Q a s' | Sleep _ s' => I s' | _ => True end.

Section Tri.
Context {T : Type}.
Implicit Types (P I : T -> Prop).

Lemma tri_bind {A B} P (m : M T A) (k : A -> M T B) R Q I :
  tri P m R I -> (forall a, tri (R a) (k a) Q I) -> tri P (bind m k) Q I.
Proof. intros Hm Hk s Hs. unfold bind. specialize (Hm s Hs). destruct (m s); try done. by apply Hk. Qed.
Lemma tri_ret {A} P (a : A) (Q : A -> T -> Prop) I : (forall s, P s -> Q a s) -> tri P (ret a) Q I.
Proof. intros HQ s Hs. by apply HQ. Qed.
Lemma tri_panic {A} P msg (Q : A -> T -> Prop) I : tri P (panic msg) Q I.
Proof. by intros s. Qed.
Lemma tri_gets {A} P (f : T -> A) (Q : A -> T -> Prop) I : (forall s, P s -> Q (f s) s) -> tri P (gets f) Q I.
Proof. intros HQ s Hs. by apply HQ. Qed.
Lemma tri_modify P f (Q : unit -> T -> Prop) I : (forall s, P s -> Q tt (f s)) -> tri P (modify f) Q I.
Proof. intros HQ s Hs. by apply HQ. Qed.
Lemma tri_lift_opt {A} P (o : option A) (Q : A -> T -> Prop) I :
  (forall a s, o = Some a -> P s -> Q a s) -> tri P (lift_opt o) Q I.
Proof. intros HQ s Hs. destruct o; [|done]. by apply HQ. Qed.
Lemma tri_mono {A} P P' (m : M T A) (Q Q' : A -> T -> Prop) I I' :
  tri P m Q I -> (forall s, P' s -> P s) -> (forall a s, Q a s -> Q' a s) -> (forall s, I s -> I' s) -> tri P' m Q' I'.
Proof. intros Hm HP HQ HI s Hs. specialize (Hm s (HP s Hs)). destruct (m s); auto. Qed.
Lemma tri_keeps {A} P (m : M T A) (Q : A -> T -> Prop) I :
  keeps P m -> (forall a s, P s -> Q a s) -> (forall s, P s -> I s) -> tri P m Q I.
Proof. intros Hm HQ HI s Hs. specialize (Hm s Hs). destruct (m s); auto. Qed.
Lemma keeps_tri {A} P (m : M T A) : keeps P m -> tri P m (fun _ => P) P.
Proof. intros Hm. by eapply tri_keeps. Qed.
End Tri.

Section Refs.
Context {S : Type} `{HasCtx S} `{!BlockLayer S} `{!TxLayer S}.
Variable dev_read : Z -> option (nat -> Z -> M (ist S) (Z * list Z)).
Variable dev_write : Z -> option (nat -> list Z -> Z -> M (ist S) Z).
Variable end_ : Z.
Abbreviation FS := (fsys S).
Abbreviation SS := (sst S).

(** Routines that change no count. *)
Definition has_sig (sg : list (Z * ftype)) (s : FS) : Prop := sig (ftable s) = sg.

Lemma keeps_in_fs {A} sg (m : M (ist S) A) : keeps (has_sig sg) (in_fs m).
Proof. intros s Hs. unfold in_fs, zoom. by destruct (m (inodes s)). Qed.
Lemma keeps_in_kmem {A} sg (m : M kst A) : keeps (has_sig sg) (in_kmem m).
Proof. intros s Hs. unfold in_kmem, zoom. by destruct (m _). Qed.
Lemma keeps_in_pipe {A} sg p (m : M pstate A) : keeps (has_sig sg) (in_pipe p m).
Proof.
  apply keeps_bind; [apply keeps_gets|]. intros ps. apply keeps_bind; [apply keeps_lift_opt|].
  intros x s Hs. unfold zoom. by destruct (m _).
Qed.
Lemma keeps_acquire_file sg l : keeps (has_sig sg) (acquire l).
Proof. intros s Hs. unfold acquire, bind, gets. by destruct (bool_decide _). Qed.
Lemma keeps_release_file sg l : keeps (has_sig sg) (release l).
Proof. intros s Hs. unfold release, bind, gets. by destruct (bool_decide _). Qed.
Lemma keeps_getf sg f : keeps (has_sig sg) (getf f).
Proof. apply keeps_bind; [apply keeps_gets|]. intros. apply keeps_lift_opt. Qed.
Lemma keeps_set_pipes sg (g : FS -> gmap Z pstate) :
  keeps (has_sig sg) (modify (fun s => mkfsys (ftable s) (g s) (kmem s) (inodes s))).
Proof. by intros s Hs. Qed.

(** The effect of an assignment to a file. *)
Lemma sig_alter (g : file -> file) f (l : list file) x : l !! f = Some x ->
  sig (alter g f l) = <[f := (f_ref (g x), f_type (g x))]> (sig l).
Proof.
  intros Hf. unfold sig. apply list_eq. intros i. rewrite list_lookup_fmap. destruct (decide (i = f)) as [->|Hne].
  - rewrite list_lookup_alter_eq, Hf, list_lookup_insert_eq; [done|]. rewrite length_fmap. by eapply lookup_lt_Some.
  - by rewrite list_lookup_alter_ne, list_lookup_insert_ne, list_lookup_fmap by done.
Qed.

Lemma tri_setf sg f g I :
  tri (has_sig sg) (setf f g)
    (fun _ s => exists x y, sg !! f = Some (f_ref x, f_type x) /\ y = g x /\ sig (ftable s) = <[f := (f_ref y, f_type y)]> sg) I.
Proof.
  intros s Hs. unfold setf, getf, bind, gets, lift_opt, modify. destruct (ftable s !! f) as [x|] eqn:E; [|done]. cbn.
  exists x, (g x). unfold has_sig in Hs. subst sg. split; [|split; [done|by apply sig_alter]].
  unfold sig. by rewrite list_lookup_fmap, E.
Qed.

Lemma keeps_set_off sg f g : keeps (has_sig sg) (setf f (fun x => fw_off (g x) x)).
Proof.
  intros s Hs. pose proof (tri_setf sg f (fun x => fw_off (g x) x) (has_sig sg) s Hs) as T.
  destruct (setf _ _ s); try done. destruct T as (x & y & Hx & -> & E). unfold has_sig. rewrite E. cbn.
  by apply list_insert_id.
Qed.

#[local] Hint Resolve keeps_in_fs keeps_in_kmem keeps_in_pipe keeps_acquire_file keeps_release_file
  keeps_getf keeps_set_off keeps_set_pipes : keeps.

Lemma keeps_fileread sg f n : keeps (has_sig sg) (fileread dev_read f n).
Proof. unfold fileread. auto 30 with keeps. Qed.
Lemma keeps_filestat sg f : keeps (has_sig sg) (filestat f).
Proof. unfold filestat. auto 30 with keeps. Qed.
Lemma keeps_filewrite_loop sg fuel f addr i n : keeps (has_sig sg) (filewrite_loop dev_write fuel f addr i n).
Proof.
  revert i. induction fuel as [|fuel IH]; intros i; cbn [filewrite_loop]; [done|].
  unfold write_round, begin_tx, end_tx. auto 30 with keeps.
Qed.
Lemma keeps_filewrite sg f addr n k : keeps (has_sig sg) (filewrite dev_write f addr n k).
Proof. unfold filewrite. pose proof (keeps_filewrite_loop sg). auto 30 with keeps. Qed.

(** The counts against the descriptors [o] of the process. *)
Definition fcount (ext : nat -> Z) (o : list (option nat)) (s : FS) : Prop := counted ext (sig (ftable s)) o.
Definition more (ext ext' : nat -> Z) : Prop := forall f, ext f <= ext' f.
Definition fbusy (ext : nat -> Z) (o : list (option nat)) (s : FS) : Prop := exists ext', more ext ext' /\ fcount ext' o s.

Lemma more_refl ext : more ext ext.
Proof. intros f. lia. Qed.
Lemma more_plus f ext : more ext (plus_one f ext).
Proof. intros g. unfold plus_one. case_decide; lia. Qed.
Lemma fbusy_now ext ext' o s : more ext ext' -> fcount ext' o s -> fbusy ext o s.
Proof. intros Hm Hc. by exists ext'. Qed.
Lemma fbusy_plus f ext o s : fbusy (plus_one f ext) o s -> fbusy ext o s.
Proof. intros (e & Hm & Hc). exists e. split; [|done]. intros g. specialize (Hm g). pose proof (more_plus f ext g). lia. Qed.

(** A routine that changes no count, on the counts of [ext'] of which [ext] are not the call's own. *)
Lemma tri_same {A} ext ext' o (m : M FS A) : more ext ext' -> (forall sg, keeps (has_sig sg) m) ->
  tri (fcount ext' o) m (fun _ => fcount ext' o) (fbusy ext o).
Proof.
  intros Hm Hk s Hs. specialize (Hk _ s eq_refl). destruct (m s); try done.
  - unfold fcount. by rewrite Hk.
  - eapply fbusy_now; [done|]. unfold fcount. by rewrite Hk.
Qed.
Lemma tri_then {A B} ext ext' o (m : M FS A) (k : A -> M FS B) Q : more ext ext' -> (forall sg, keeps (has_sig sg) m) ->
  (forall a, tri (fcount ext' o) (k a) Q (fbusy ext o)) -> tri (fcount ext' o) (bind m k) Q (fbusy ext o).
Proof. intros Hm Hs Hk. eapply tri_bind; [by apply tri_same|]. exact Hk. Qed.

Lemma find_free_spec l k f : find_free l k = Some f -> (k <= f)%nat /\ exists x, l !! (f - k)%nat = Some x /\ f_ref x = 0.
Proof.
  revert k. induction l as [|x l IH]; intros k; cbn; [done|]. destruct (Z.eqb_spec (f_ref x) 0).
  - intros [= <-]. rewrite Nat.sub_diag. split; [done|]. by exists x.
  - intros [Hk Ho]%IH. split; [lia|]. by replace (f - k)%nat with (Datatypes.S (f - Datatypes.S k))%nat by lia.
Qed.

(** One file's count changed by [d]. *)
Lemma fcount_file ext o (s s' : FS) f x y d : fcount ext o s -> ftable s !! f = Some x ->
  sig (ftable s') = <[f := (f_ref y, f_type y)]> (sig (ftable s)) -> f_ref y = f_ref x + d ->
  (f_ref y = 0 -> f_type y = FD_NONE) -> fcount (fun g => ext g + if decide (g = f) then d else 0) o s'.
Proof.
  intros C Hx E Hr Ht. unfold fcount. rewrite E, Hr. eapply counted_ref; [done|unfold sig; by rewrite list_lookup_fmap, Hx|].
  intros H0. symmetry. apply Ht. lia.
Qed.

Definition at_file (ext : nat -> Z) (o : list (option nat)) (f : nat) (x : file) (s : FS) : Prop :=
  fcount ext o s /\ ftable s !! f = Some x.

Lemma tri_getf ext o f I : tri (fcount ext o) (getf f) (at_file ext o f) I.
Proof.
  intros s Hs. unfold getf, bind, gets, lift_opt. destruct (ftable s !! f) as [x|] eqn:E; [|done]. by split.
Qed.

Lemma tri_setf_at ext o f x g d I : f_ref (g x) = f_ref x + d -> (f_ref (g x) = 0 -> f_type (g x) = FD_NONE) ->
  tri (at_file ext o f x) (setf f g) (fun _ => fcount (fun h => ext h + if decide (h = f) then d else 0) o) I.
Proof.
  intros Hr Ht s [Hs Hx]. unfold setf, getf, bind, gets, lift_opt, modify. rewrite Hx. cbn.
  eapply fcount_file; [exact Hs|exact Hx| |exact Hr|exact Ht]. by apply sig_alter.
Qed.

Lemma tri_filealloc ext o :
  tri (fcount ext o) filealloc (fun r => match r with None => fcount ext o | Some f => fcount (plus_one f ext) o end) (fbusy ext o).
Proof.
  unfold filealloc. apply tri_then; [apply more_refl|auto with keeps|]. intros [].
  apply (tri_bind _ _ _ (fun l s => fcount ext o s /\ l = ftable s)); [by apply tri_gets|]. intros l.
  destruct (find_free l 0) as [f|] eqn:E.
  - apply find_free_spec in E as (_ & x & Hx & H0). rewrite Nat.sub_0_r in Hx.
    apply (tri_bind _ _ _ (fun _ => fcount (plus_one f ext) o)).
    + eapply tri_mono; [apply (tri_setf_at ext o f x (fw_ref 1) 1 (fun _ => False))| |done|done].
      * cbn. lia.
      * done.
      * intros s [Hs ->]. by split.
    + intros []. apply tri_then; [apply more_plus|auto with keeps|]. intros []. by apply tri_ret.
  - apply (tri_mono (fcount ext o) _ _ (fun r => match r with None => fcount ext o | Some f => fcount (plus_one f ext) o end) _ (fbusy ext o) _);
      [|by intros s [? _]|done|done].
    apply tri_then; [apply more_refl|auto with keeps|]. intros []. by apply tri_ret.
Qed.

Lemma tri_filedup ext o f : tri (fcount ext o) (filedup f) (fun _ => fcount (plus_one f ext) o) (fbusy ext o).
Proof.
  unfold filedup. apply tri_then; [apply more_refl|auto with keeps|]. intros [].
  eapply tri_bind; [apply tri_getf|]. intros x. destruct (Z.ltb_spec (f_ref x) 1); [apply tri_panic|].
  eapply tri_bind; [apply (tri_setf_at ext o f x _ 1)|]; [done|cbn; lia|]. intros [].
  apply tri_then; [apply more_plus|auto with keeps|]. intros []. by apply tri_ret.
Qed.

(** The assignments of fileclose to a file whose last reference goes away. *)
Lemma tri_last {B} ext o f x (k : file -> M FS B) Q I : f_ref x = 1 ->
  (forall ff, tri (fcount (fun h => ext h + if decide (h = f) then -1 else 0) o) (k ff) Q I) ->
  tri (at_file ext o f x)
    (setf f (fw_ref (f_ref x - 1)) ;; ff <- getf f ;; setf f (fw_ref 0) ;; setf f (fw_type FD_NONE) ;; k ff) Q I.
Proof.
  intros Hr Hk s [Hs Hx]. unfold setf, getf, bind, gets, lift_opt, modify, ret. rewrite Hx. cbn.
  rewrite !list_lookup_alter_eq, Hx. cbn. rewrite !list_lookup_alter_eq, Hx. cbn. rewrite !list_lookup_alter_eq, Hx. cbn. apply Hk.
  eapply (fcount_file ext o s _ f x (fw_type FD_NONE (fw_ref 0 (fw_ref (f_ref x - 1) x)))); [exact Hs|exact Hx| |cbn; lia|done].
  cbn [ftable]. rewrite (sig_alter _ _ _ (fw_ref 0 (fw_ref (f_ref x - 1) x))) by (by rewrite !list_lookup_alter_eq, Hx).
  rewrite (sig_alter _ _ _ (fw_ref (f_ref x - 1) x)) by (by rewrite !list_lookup_alter_eq, Hx).
  by rewrite (sig_alter _ _ _ x), !list_insert_insert_eq by done.
Qed.

Lemma fcount_ext ext ext' o s : (forall g, ext g = ext' g) -> fcount ext o s -> fcount ext' o s.
Proof. apply counted_ext. Qed.
Lemma plus_minus f ext g : plus_one f ext g + (if decide (g = f) then -1 else 0) = ext g.
Proof. unfold plus_one. case_decide; lia. Qed.

Lemma tri_fileclose ext o f : tri (fcount (plus_one f ext) o) (fileclose end_ f) (fun _ => fcount ext o) (fbusy ext o).
Proof.
  unfold fileclose. apply tri_then; [apply more_plus|auto with keeps|]. intros [].
  eapply tri_bind; [apply tri_getf|]. intros x. destruct (Z.ltb_spec (f_ref x) 1); [apply tri_panic|].
  destruct (Z.ltb_spec 0 (f_ref x - 1)).
  - eapply tri_bind; [apply (tri_setf_at _ o f x _ (-1))|]; [done|cbn; lia|]. intros [].
    eapply tri_mono; [apply (tri_same ext ext o)| | |done]; [apply more_refl|auto with keeps| |done].
    intros s. apply fcount_ext, plus_minus.
  - apply tri_last; [lia|]. intros ff. eapply (tri_mono (fcount ext o)); [|intros s; apply fcount_ext, plus_minus|intros a s; exact id|done].
    apply tri_same; [apply more_refl|]. unfold close_pipe, begin_tx, end_tx. auto 20 with keeps.
Qed.

Lemma tri_busy {A} P (m : M FS A) Q ext f o : tri P m Q (fbusy (plus_one f ext) o) -> tri P m Q (fbusy ext o).
Proof. intros Hm. eapply tri_mono; [exact Hm|done|done|apply fbusy_plus]. Qed.

(** The type of a file that has a reference may change. *)
Lemma tri_set_type ext ext' o f g : more ext ext' -> (forall h, 0 <= ext h) -> ext f + 1 <= ext' f \/ (exists fd, o !! fd = Some (Some f)) ->
  (forall x, f_ref (g x) = f_ref x) -> tri (fcount ext' o) (setf f g) (fun _ => fcount ext' o) (fbusy ext o).
Proof.
  intros Hm Hpos Hf Hg s Hs.
  assert (1 <= count f o + ext' f) as H1.
  { pose proof (refcount_nonneg f o). pose proof (Hm f). pose proof (Hpos f). destruct Hf as [?|[fd ?%refcount_pos]]; lia. }
  pose proof (Hs f) as [C _]. unfold sig in C. rewrite list_lookup_fmap in C.
  unfold setf, getf, bind, gets, lift_opt, modify. destruct (ftable s !! f) as [x|] eqn:E; [|done]. cbn in C |- *.
  eapply (fcount_ext (fun h => ext' h + if decide (h = f) then 0 else 0)); [intros h; case_decide; lia|].
  eapply fcount_file; [exact Hs|exact E|by apply sig_alter|rewrite Hg; lia|]. rewrite Hg. lia.
Qed.

Lemma tri_pipealloc ext o : (forall h, 0 <= ext h) ->
  tri (fcount ext o) (pipealloc end_)
    (fun r => match r with None => fcount ext o | Some (a, b) => fcount (plus_one b (plus_one a ext)) o end) (fbusy ext o).
Proof.
  intros Hpos. unfold pipealloc. eapply tri_bind; [apply tri_filealloc|]. intros [f0|]; [|by apply tri_ret].
  eapply tri_bind; [eapply tri_busy, tri_filealloc|]. intros [f1|].
  2:{ eapply tri_bind; [apply tri_fileclose|]. intros []. by apply tri_ret. }
  assert (more ext (plus_one f1 (plus_one f0 ext))) as Hm.
  { intros h. pose proof (more_plus f0 ext h). pose proof (more_plus f1 (plus_one f0 ext) h). lia. }
  apply tri_then; [done|auto with keeps|]. intros p. destruct (Z.eqb_spec p 0).
  { apply (tri_bind _ _ _ (fun _ => fcount (plus_one f1 ext) o)).
    - eapply tri_busy. eapply tri_mono; [apply (tri_fileclose (plus_one f1 ext) o f0)| |done|done].
      intros s. apply fcount_ext. intros h. unfold plus_one. lia.
    - intros []. eapply tri_bind; [apply tri_fileclose|]. intros []. by apply tri_ret. }
  do 3 (apply tri_then; [done|auto with keeps|]; intros ?).
  do 2 (eapply tri_bind; [apply (tri_set_type ext); [done|done|left; unfold plus_one; repeat case_decide; simplify_eq; lia|done]|]; intros []).
  by apply tri_ret.
Qed.

(** The process: its counts, and what [R] says of its descriptors. *)
Definition scount (ext : nat -> Z) (R : list (option nat) -> Prop) (s : SS) : Prop :=
  counted ext (sig (ftable (files s))) (ofile s) /\ R (ofile s).
Definition sbusy (ext : nat -> Z) (s : SS) : Prop := exists ext', more ext ext' /\ scount ext' (fun _ => True) s.
Definition quiet (sg : list (Z * ftype)) (o : list (option nat)) (s : SS) : Prop :=
  sig (ftable (files s)) = sg /\ ofile s = o.

Lemma tri_in_files {A} ext e0 (e : A -> nat -> Z) R (m : M FS A) :
  (forall o, tri (fcount ext o) m (fun a => fcount (e a) o) (fbusy e0 o)) ->
  tri (scount ext R) (in_files m) (fun a => scount (e a) R) (sbusy e0).
Proof.
  intros Hm s [Hs HR]. specialize (Hm (ofile s) _ Hs). unfold in_files, zoom. destruct (m (files s)); try done.
  destruct Hm as (e' & Hme & He). exists e'. by split.
Qed.

Lemma keeps_in_files {A} sg o (m : M FS A) : keeps (has_sig sg) m -> keeps (quiet sg o) (in_files m).
Proof. intros Hm s [Hs Ho]. specialize (Hm _ Hs). unfold in_files, zoom. by destruct (m (files s)). Qed.
Lemma keeps_set_cwd sg o ip : keeps (quiet sg o) (set_cwd ip).
Proof. by intros s. Qed.
Lemma keeps_set_umem sg o f : keeps (quiet sg o) (set_umem f).
Proof. by intros s. Qed.

(** A call that changes no count and no descriptor. *)
Lemma tri_quiet {A} ext ext' R (m : M SS A) : more ext ext' -> (forall sg o, keeps (quiet sg o) m) ->
  tri (scount ext' R) m (fun _ => scount ext' R) (sbusy ext).
Proof.
  intros Hm Hk s [Hs HR]. specialize (Hk _ _ s (conj eq_refl eq_refl)). destruct (m s) as [a s'| |c s'| |]; try done; destruct Hk as [E1 E2].
  - split; [by rewrite E1, E2|by rewrite E2].
  - exists ext'. split; [done|]. split; [by rewrite E1, E2|done].
Qed.
Lemma tri_after {A B} ext ext' R (m : M SS A) (k : A -> M SS B) Q : more ext ext' -> (forall sg o, keeps (quiet sg o) m) ->
  (forall a, tri (scount ext' R) (k a) Q (sbusy ext)) -> tri (scount ext' R) (bind m k) Q (sbusy ext).
Proof. intros Hm Hs Hk. eapply tri_bind; [by apply tri_quiet|]. exact Hk. Qed.

#[local] Hint Resolve keeps_in_files keeps_set_cwd keeps_set_umem keeps_fileread keeps_filestat keeps_filewrite : keeps.

Lemma keeps_argfd sg o n : keeps (quiet sg o) (argfd n).
Proof. unfold argfd. auto 20 with keeps. Qed.
Lemma keeps_in_inodes {A} sg o (m : M (ist S) A) : keeps (quiet sg o) (in_inodes m).
Proof. unfold in_inodes. auto with keeps. Qed.
Lemma keeps_begin_call sg o : keeps (quiet sg o) (begin_call (S := S)).
Proof. unfold begin_call, begin_tx. auto with keeps. Qed.
Lemma keeps_end_call sg o : keeps (quiet sg o) (end_call (S := S)).
Proof. unfold end_call, end_tx. auto with keeps. Qed.
#[local] Hint Resolve keeps_argfd keeps_in_inodes keeps_begin_call keeps_end_call : keeps.

Lemma keeps_arg_path sg o n : keeps (quiet sg o) (arg_path n).
Proof. unfold arg_path. auto with keeps. Qed.
Lemma keeps_lookup_path sg o p : keeps (quiet sg o) (lookup_path dev_read p).
Proof. unfold lookup_path. auto with keeps. Qed.
Lemma keeps_lookup_parent sg o p : keeps (quiet sg o) (lookup_parent dev_read p).
Proof. unfold lookup_parent. auto with keeps. Qed.
Lemma keeps_end_minus_one sg o : keeps (quiet sg o) (end_minus_one (S := S)).
Proof. unfold end_minus_one. auto with keeps. Qed.
#[local] Hint Resolve keeps_arg_path keeps_lookup_path keeps_lookup_parent keeps_end_minus_one : keeps.

Lemma keeps_create sg o p t mj mn : keeps (quiet sg o) (create dev_read dev_write p t mj mn).
Proof. unfold create. auto 20 with keeps. Qed.
#[local] Hint Resolve keeps_create : keeps.

Lemma keeps_sys_read sg o : keeps (quiet sg o) (sys_read dev_read).
Proof. unfold sys_read, rw_args, minus_one. auto 30 with keeps. Qed.
Lemma keeps_sys_write sg o k : keeps (quiet sg o) (sys_write dev_write k).
Proof. unfold sys_write, rw_args, minus_one. auto 30 with keeps. Qed.
Lemma keeps_sys_fstat sg o : keeps (quiet sg o) sys_fstat.
Proof. unfold sys_fstat, minus_one. auto 30 with keeps. Qed.
Lemma keeps_sys_link sg o : keeps (quiet sg o) (sys_link dev_read dev_write).
Proof. unfold sys_link, minus_one, link_bad. auto 40 with keeps. Qed.
Lemma keeps_sys_unlink sg o : keeps (quiet sg o) (sys_unlink dev_read dev_write).
Proof. unfold sys_unlink, minus_one, unlink_entry, unlink_bad. auto 40 with keeps. Qed.
Lemma keeps_make sg o p t mj mn : keeps (quiet sg o) (make dev_read dev_write p t mj mn).
Proof. unfold make. auto 30 with keeps. Qed.
#[local] Hint Resolve keeps_make : keeps.
Lemma keeps_sys_mkdir sg o : keeps (quiet sg o) (sys_mkdir dev_read dev_write).
Proof. unfold sys_mkdir. auto 30 with keeps. Qed.
Lemma keeps_sys_mknod sg o : keeps (quiet sg o) (sys_mknod dev_read dev_write).
Proof. unfold sys_mknod. auto 30 with keeps. Qed.
Lemma keeps_sys_chdir sg o : keeps (quiet sg o) (sys_chdir dev_read).
Proof. unfold sys_chdir. auto 30 with keeps. Qed.

(** The calls that open and close. *)
Definition opened (fd : nat) (f : nat) (o : list (option nat)) : Prop := o !! fd = Some (Some f).
Definition minus_f (f : nat) (ext : nat -> Z) (g : nat) : Z := ext g - if decide (g = f) then 1 else 0.

Lemma scount_ext ext ext' R s : (forall g, ext g = ext' g) -> scount ext R s -> scount ext' R s.
Proof. intros E [C HR]. split; [|done]. by eapply counted_ext. Qed.
Lemma plus_minus_f f ext g : plus_one f (minus_f f ext) g = ext g.
Proof. unfold plus_one, minus_f. lia. Qed.
Lemma minus_plus_f f ext g : minus_f f (plus_one f ext) g = ext g.
Proof. unfold plus_one, minus_f. lia. Qed.

Lemma tri_argfd ext R n I :
  tri (scount ext R) (argfd n) (fun r => match r with None => scount ext R | Some (fd, f) => scount ext (opened fd f) end) I.
Proof.
  intros s [Hs HR]. unfold argfd, bind, gets. destruct (argint _ _) as [fd|]; [|done]. destruct (_ || _); [done|].
  unfold lift_opt. destruct (ofile s !! Z.to_nat fd) as [[f|]|] eqn:E; [by split..|done].
Qed.

Lemma tri_fdalloc ext R f I :
  tri (scount ext R) (fdalloc f)
    (fun fd => if fd <? 0 then scount ext R else scount (minus_f f ext) (opened (Z.to_nat fd) f)) I.
Proof.
  intros s [Hs HR]. unfold fdalloc, bind, gets. destruct (find_fd (ofile s) 0) as [fd|] eqn:E; [|by split].
  apply find_fd_spec in E as [_ E]. rewrite Nat.sub_0_r in E. cbn. destruct (Z.ltb_spec (Z.of_nat fd) 0); [lia|].
  split; cbn; [by apply counted_ofile|]. unfold opened. rewrite Nat2Z.id. apply list_lookup_insert_eq. by eapply lookup_lt_Some.
Qed.

Lemma tri_clear ext fd f I :
  tri (scount ext (opened fd f)) (set_ofile fd None) (fun _ => scount (plus_one f ext) (fun _ => True)) I.
Proof. intros s [Hs HR]. split; [|done]. cbn. by apply counted_clear. Qed.

Lemma filedup_awake f (s : FS) c s' : filedup f s <> Sleep c s'.
Proof.
  unfold filedup, acquire, release, setf, getf, bind, gets, lift_opt, modify, ret, set_held, panic, fault.
  repeat case_match; simplify_eq; try done.
Qed.

Lemma tri_sys_dup ext : tri (scount ext (fun _ => True)) sys_dup (fun _ => scount ext (fun _ => True)) (sbusy ext).
Proof.
  unfold sys_dup. eapply tri_bind; [apply tri_argfd|]. intros [[fd f]|]; [|by apply tri_ret].
  eapply tri_bind; [apply tri_fdalloc|]. intros fd'. cbv beta. destruct (fd' <? 0); [apply tri_ret; by intros s [? _]|].
  apply (tri_bind _ _ _ (fun _ => scount ext (fun _ => True))); [|intros; by apply tri_ret].
  intros s Hs. pose proof (tri_in_files (minus_f f ext) (minus_f f ext) (fun _ => plus_one f (minus_f f ext)) _ _ (fun o => tri_filedup _ o f) s Hs) as T.
  unfold in_files, zoom in *. pose proof (filedup_awake f (files s)). destruct (filedup f (files s)); try done.
  - destruct T as [C _]. split; [|done]. eapply counted_ext; [apply plus_minus_f|exact C].
  - by destruct (H0 c s0).
Qed.

Lemma tri_close ext R f :
  tri (scount (plus_one f ext) R) (in_files (fileclose end_ f)) (fun _ => scount ext R) (sbusy ext).
Proof. apply (tri_in_files _ ext (fun _ => ext)). intros o. apply tri_fileclose. Qed.

Lemma tri_sys_close ext : tri (scount ext (fun _ => True)) (sys_close end_) (fun _ => scount ext (fun _ => True)) (sbusy ext).
Proof.
  unfold sys_close. eapply tri_bind; [apply tri_argfd|]. intros [[fd f]|]; [|by apply tri_ret].
  eapply tri_bind; [apply tri_clear|]. intros []. eapply tri_bind; [apply tri_close|]. intros []. by apply tri_ret.
Qed.

Lemma tri_open_fd ext path omode :
  tri (scount ext (fun _ => True)) (open_fd dev_read dev_write end_ path omode)
    (fun r => match r with None => scount ext (fun _ => True) | Some (_, f, fd) => scount ext (opened (Z.to_nat fd) f) end) (sbusy ext).
Proof.
  unfold open_fd. apply tri_after; [apply more_refl|auto with keeps|]. intros [].
  apply tri_after; [apply more_refl|unfold open_inode; auto 30 with keeps|]. intros [ip|]; [|by apply tri_ret].
  apply (tri_bind _ _ _ (fun r => scount (match r with None => ext | Some f => plus_one f ext end) (fun _ => True))).
  { apply tri_in_files. intros o. eapply tri_mono; [apply tri_filealloc|done| |done]. by intros [f|]. }
  intros [f|].
  - eapply tri_bind; [apply tri_fdalloc|]. intros fd. cbv beta. destruct (fd <? 0).
    + eapply tri_bind; [apply tri_close|]. intros [].
      do 2 (apply tri_after; [apply more_refl|auto with keeps|]; intros []). by apply tri_ret.
    + eapply (tri_mono (scount ext (opened (Z.to_nat fd) f))); [|intros s; apply scount_ext, minus_plus_f|intros a s; exact id|done].
      do 2 (apply tri_after; [apply more_refl|auto with keeps|]; intros []). by apply tri_ret.
  - do 2 (apply tri_after; [apply more_refl|auto with keeps|]; intros []). by apply tri_ret.
Qed.

Lemma tri_sys_open ext : (forall h, 0 <= ext h) ->
  tri (scount ext (fun _ => True)) (sys_open dev_read dev_write end_) (fun _ => scount ext (fun _ => True)) (sbusy ext).
Proof.
  intros Hpos. unfold sys_open. apply tri_after; [apply more_refl|auto with keeps|]. intros o.
  apply tri_after; [apply more_refl|auto with keeps|]. intros u.
  destruct o as [path|], (argint u 1) as [omode|]; try by apply tri_ret.
  eapply tri_bind; [apply tri_open_fd|]. intros [[[ip f] fd]|]; [|by apply tri_ret].
  apply (tri_bind _ _ _ (fun _ => scount ext (fun _ => True))); [|intros; by apply tri_ret].
  intros s [Hs HR]. pose proof (tri_set_type ext ext (ofile s) f (fun x => mkfile FD_INODE (f_ref x)
    (bool_int (Z.land omode O_WRONLY =? 0)) (bool_int (negb (Z.land omode O_WRONLY =? 0) || negb (Z.land omode O_RDWR =? 0)))
    (f_pipe x) ip 0) (more_refl ext) Hpos (or_intror (ex_intro _ (Z.to_nat fd) HR)) (fun _ => eq_refl) (files s) Hs) as T.
  unfold in_files, zoom. destruct (setf f _ (files s)) as [a s'|msg|c s'| |]; [by split|done| |done|done].
  destruct T as (e & He & C). by exists e.
Qed.

Lemma tri_close_both ext rf wf :
  tri (scount (plus_one rf (plus_one wf ext)) (fun _ => True))
    (in_files (fileclose end_ rf) ;; in_files (fileclose end_ wf) ;; ret (-1)) (fun _ => scount ext (fun _ => True)) (sbusy ext).
Proof.
  eapply tri_bind; [eapply tri_mono; [apply tri_close|by intros s Hs|done|]|].
  - intros s (e & Hm & C). exists e. split; [|done]. intros g. pose proof (Hm g). pose proof (more_plus wf ext g). lia.
  - intros []. eapply tri_bind; [apply tri_close|]. intros []. by apply tri_ret.
Qed.

Lemma tri_sys_pipe ext : (forall h, 0 <= ext h) ->
  tri (scount ext (fun _ => True)) (sys_pipe end_) (fun _ => scount ext (fun _ => True)) (sbusy ext).
Proof.
  intros Hpos. unfold sys_pipe. apply tri_after; [apply more_refl|auto with keeps|]. intros u.
  destruct (argptr u 0 8) as [p|]; [|by apply tri_ret].
  apply (tri_bind _ _ _ (fun r => scount (match r with None => ext | Some (a, b) => plus_one b (plus_one a ext) end) (fun _ => True))).
  { apply tri_in_files. intros o. eapply tri_mono; [by apply tri_pipealloc|done| |done]. by intros [[a b]|]. }
  intros [[rf wf]|]; [|by apply tri_ret]. eapply tri_bind; [apply tri_fdalloc|]. intros fd0. cbv beta. destruct (Z.ltb_spec fd0 0).
  - apply (tri_bind _ _ _ (fun _ => scount (plus_one wf (plus_one rf ext)) (fun _ => True))); [by apply tri_ret|].
    intros fd1. cbn [orb]. destruct (Z.leb_spec 0 fd0); [lia|].
    apply (tri_bind _ _ _ (fun _ => scount (plus_one rf (plus_one wf ext)) (fun _ => True))); [|intros []; apply tri_close_both].
    apply tri_ret. intros s. apply scount_ext. intros g. unfold plus_one. lia.
  - apply (tri_mono (scount (plus_one wf ext) (opened (Z.to_nat fd0) rf)) _ _ (fun _ => scount ext (fun _ => True)) _ (sbusy ext) _); [|intros s; apply scount_ext; intros g; unfold minus_f, plus_one; lia|done|done].
    eapply tri_bind; [apply tri_fdalloc|]. intros fd1. cbv beta. cbn [orb]. destruct (Z.ltb_spec fd1 0).
    + destruct (Z.leb_spec 0 fd0); [|lia]. eapply tri_bind; [apply tri_clear|]. intros []. apply tri_close_both.
    + eapply (tri_mono (scount ext (fun _ => True))); [|intros s [? _]; split; [eapply counted_ext; [apply minus_plus_f|done]|done]|intros a s; exact id|done].
      apply tri_after; [apply more_refl|auto with keeps|]. intros []. by apply tri_ret.
Qed.

(** ** Several processes *)

(** The calls. *)
Inductive call :=
| CDup | CRead | CWrite (k : nat) | CClose | CFstat | CLink | CUnlink | COpen | CMkdir | CMknod | CChdir | CPipe.

Definition run_call (c : call) : M SS unit :=
  match c with
  | CDup => sys_dup ;; ret tt
  | CRead => sys_read dev_read ;; ret tt
  | CWrite k => sys_write dev_write k ;; ret tt
  | CClose => sys_close end_ ;; ret tt
  | CFstat => sys_fstat ;; ret tt
  | CLink => sys_link dev_read dev_write ;; ret tt
  | CUnlink => sys_unlink dev_read dev_write ;; ret tt
  | COpen => sys_open dev_read dev_write end_ ;; ret tt
  | CMkdir => sys_mkdir dev_read dev_write ;; ret tt
  | CMknod => sys_mknod dev_read dev_write ;; ret tt
  | CChdir => sys_chdir dev_read ;; ret tt
  | CPipe => sys_pipe end_ ;; ret tt
  end.

Lemma tri_run_call ext c : (forall h, 0 <= ext h) ->
  tri (scount ext (fun _ => True)) (run_call c) (fun _ => scount ext (fun _ => True)) (sbusy ext).
Proof.
  intros Hpos. destruct c; cbn [run_call];
    (eapply tri_bind; [|intros; apply tri_ret; intros s; exact id]);
    auto using tri_sys_dup, tri_sys_close, tri_sys_open, tri_sys_pipe;
    (apply tri_quiet; [apply more_refl|]);
    auto using keeps_sys_read, keeps_sys_write, keeps_sys_fstat, keeps_sys_link, keeps_sys_unlink, keeps_sys_mkdir, keeps_sys_mknod, keeps_sys_chdir.
Qed.

(** The loops of fork and exit over the open files. *)
Fixpoint dup_files (o : list (option nat)) : M FS unit :=
  match o with
  | [] => ret tt
  | Some f :: o => filedup f ;; dup_files o
  | None :: o => dup_files o
  end.
Fixpoint close_files (o : list (option nat)) : M FS unit :=
  match o with
  | [] => ret tt
  | Some f :: o => fileclose end_ f ;; close_files o
  | None :: o => close_files o
  end.

Lemma plus_count f o ext g : plus_one f (fun h => ext h + count h o) g = ext g + count g (Some f :: o).
Proof. unfold plus_one. cbn. repeat case_decide; simplify_eq; try congruence; lia. Qed.

Lemma tri_dup_files ext o l : tri (fcount ext o) (dup_files l) (fun _ => fcount (fun g => ext g + count g l) o) (fbusy ext o).
Proof.
  revert ext. induction l as [|[f|] l IH]; intros ext; cbn [dup_files].
  - apply tri_ret. intros s. apply fcount_ext. intros g. cbn. lia.
  - eapply tri_bind; [apply tri_filedup|]. intros ?. eapply tri_mono; [apply (IH (plus_one f ext))|done| |apply fbusy_plus].
    intros [] s. apply fcount_ext. intros g. rewrite <- plus_count. unfold plus_one. lia.
  - eapply tri_mono; [apply IH|done| |done]. intros [] s. by apply fcount_ext.
Qed.

Lemma tri_close_files ext o l : tri (fcount (fun g => ext g + count g l) o) (close_files l) (fun _ => fcount ext o) (fbusy ext o).
Proof.
  induction l as [|[f|] l IH]; cbn [close_files].
  - apply tri_ret. intros s. apply fcount_ext. intros g. cbn. lia.
  - apply (tri_bind _ _ _ (fun _ => fcount (fun g => ext g + count g l) o)); [|intros []; exact IH].
    eapply tri_mono; [apply (tri_fileclose (fun g => ext g + count g l) o f)|intros s; apply fcount_ext; intros g; by rewrite plus_count|done|].
    intros s (e & Hm & C). exists e. split; [|done]. intros g. specialize (Hm g). cbn in Hm. pose proof (refcount_nonneg g l). lia.
  - exact IH.
Qed.

(** A process: its open files and its current directory. *)
Definition process : Type := list (option nat) * nat.
Record msys := mkmsys { m_files : FS; m_procs : list process }.

Definition fork_files (p : process) : M FS nat := dup_files (fst p) ;; in_fs (idup (snd p)).
Definition exit_files (p : process) : M FS unit :=
  close_files (fst p) ;; begin_tx ;; in_fs (iput (snd p)) ;; end_tx.

(** A call of process [i] with the registers and memory it has then; process [i] forks, or
    exits. *)
Inductive event := ECall (i : nat) (c : call) (u : uproc) | EFork (i : nat) | EExit (i : nat).

Definition in_table {A} (m : M FS A) : M msys A := zoom m_files (fun x s => mkmsys x (m_procs s)) m.

Definition run_event (e : event) : M msys unit :=
  l <- gets m_procs ;;
  p <- lift_opt (l !! match e with ECall i _ _ => i | EFork i => i | EExit i => i end) ;;
  match e with
  | ECall i c u =>
      zoom (fun m => mksst (m_files m) (fst p) (snd p) u)
        (fun s m => mkmsys (files s) (<[i := (ofile s, cwd s)]> (m_procs m))) (run_call c)
  | EFork i =>
      d <- in_table (fork_files p) ;;
      modify (fun m => mkmsys (m_files m) (m_procs m ++ [(fst p, d)]))
  | EExit i =>
      in_table (exit_files p) ;;
      modify (fun m => mkmsys (m_files m) (<[i := (replicate NOFILE None, snd p)]> (m_procs m)))
  end.

Fixpoint total (f : nat) (ps : list process) : Z :=
  match ps with [] => 0 | p :: ps => count f (fst p) + total f ps end.

(** The count of every file is the number of descriptors that refer to it, and [extra]. *)
Definition refs (extra : nat -> Z) (s : msys) : Prop :=
  forall f, let x := default (0, FD_NONE) (sig (ftable (m_files s)) !! f) in
    fst x = total f (m_procs s) + extra f /\ (fst x = 0 -> snd x = FD_NONE).

Lemma total_nonneg f ps : 0 <= total f ps.
Proof. induction ps as [|p ps IH]; cbn; [lia|]. pose proof (refcount_nonneg f (fst p)). lia. Qed.
Lemma total_app f ps qs : total f (ps ++ qs) = total f ps + total f qs.
Proof. induction ps as [|p ps IH]; cbn; [done|]. lia. Qed.
Lemma total_insert f ps i p q : ps !! i = Some p -> total f (<[i := q]> ps) = total f ps - count f (fst p) + count f (fst q).
Proof.
  revert i. induction ps as [|p' ps IH]; intros i Hi; [done|]. destruct i as [|i]; cbn in Hi; [simplify_eq; cbn; lia|].
  change (<[Datatypes.S i := q]> (p' :: ps)) with (p' :: <[i := q]> ps). cbn [total]. rewrite (IH _ Hi). lia.
Qed.
Lemma total_at f ps i p fd : ps !! i = Some p -> fst p !! fd = Some (Some f) -> 1 <= total f ps.
Proof.
  intros Hi Ho%refcount_pos.
  enough (count f (fst p) <= total f ps) by lia. clear Ho. revert i Hi. induction ps as [|p' ps IH]; intros i Hi; [done|]. cbn.
  destruct i as [|i]; cbn in Hi; [simplify_eq; pose proof (total_nonneg f ps); lia|].
  specialize (IH _ Hi). pose proof (refcount_nonneg f (fst p')). lia.
Qed.

(** The counts seen by process [i]. *)
Lemma refs_one extra s i p : refs extra s -> m_procs s !! i = Some p ->
  counted (fun f => total f (m_procs s) - count f (fst p) + extra f) (sig (ftable (m_files s))) (fst p).
Proof. intros R Hi f. specialize (R f). cbn in R |- *. split; [lia|apply R]. Qed.
Lemma total_others f ps i p : ps !! i = Some p -> 0 <= total f ps - count f (fst p).
Proof.
  intros Hi. pose proof (total_insert f ps i p ([], 0%nat) Hi) as E. cbn in E. pose proof (total_nonneg f (<[i := ([], 0%nat)]> ps)). lia.
Qed.

(** The same in terms of one process, where the others are fixed. *)
Lemma counted_refs ext extra x i p q ps : ps !! i = Some p ->
  (forall f, ext f = total f ps - count f (fst p) + extra f) ->
  counted ext (sig (ftable x)) (fst q) -> refs extra (mkmsys x (<[i := q]> ps)).
Proof.
  intros Hi He C f. specialize (C f). cbn in C |- *. rewrite (total_insert f _ _ _ q Hi). split; [|apply C].
  rewrite He in C. lia.
Qed.

Definition awaits (s : msys) : Prop := exists extra, (forall f, 0 <= extra f) /\ refs extra s.

Lemma tri_call i c u p : tri (fun s => refs (fun _ => 0) s /\ m_procs s !! i = Some p)
  (zoom (fun m => mksst (m_files m) (fst p) (snd p) u)
    (fun s m => mkmsys (files s) (<[i := (ofile s, cwd s)]> (m_procs m))) (run_call c))
  (fun _ => refs (fun _ => 0)) awaits.
Proof.
  intros s [R Hi]. set (ext := fun f => total f (m_procs s) - count f (fst p) + 0).
  assert (forall f, 0 <= ext f) as Hpos by (intros f; pose proof (total_others f _ _ _ Hi); unfold ext; lia).
  pose proof (tri_run_call ext c Hpos (mksst (m_files s) (fst p) (snd p) u) (conj (refs_one _ s i p R Hi) I)) as T.
  unfold zoom. destruct (run_call c _) as [a s'| |ch s'| |]; try done.
  - destruct T as [C _]. by eapply (counted_refs ext).
  - destruct T as (e & Hm & C & _). exists (fun f => e f - ext f). split; [intros f; specialize (Hm f); lia|].
    eapply (counted_refs e); [exact Hi| |exact C]. intros f. unfold ext. lia.
Qed.

Lemma fcount_refs extra x ps : fcount (fun f => total f ps + extra f) [] x <-> refs extra (mkmsys x ps).
Proof. unfold fcount, counted, refs. cbn. by setoid_rewrite Z.add_0_l. Qed.

Lemma tri_fork_files ext o p : tri (fcount ext o) (fork_files p) (fun _ => fcount (fun g => ext g + count g (fst p)) o) (fbusy ext o).
Proof.
  eapply tri_bind; [apply tri_dup_files|]. intros []. apply tri_same; [|auto with keeps].
  intros f. pose proof (refcount_nonneg f (fst p)). lia.
Qed.
Lemma tri_exit_files ext o p : tri (fcount (fun g => ext g + count g (fst p)) o) (exit_files p) (fun _ => fcount ext o) (fbusy ext o).
Proof.
  eapply tri_bind; [apply tri_close_files|]. intros []. unfold begin_tx, end_tx.
  apply tri_same; [apply more_refl|auto with keeps].
Qed.

Lemma fbusy_awaits x ps : fbusy (fun f => total f ps) [] x -> awaits (mkmsys x ps).
Proof.
  intros (e & Hm & C). exists (fun f => e f - total f ps). split; [intros f; specialize (Hm f); cbn in Hm; lia|].
  apply (proj1 (fcount_refs _ _ _)). eapply fcount_ext; [|exact C]. intros f. cbn. lia.
Qed.

Lemma refs_fcount ext s : refs (fun _ => 0) s -> (forall f, ext f = total f (m_procs s)) -> fcount ext [] (m_files s).
Proof. destruct s as [x ps]. intros R%fcount_refs He. eapply fcount_ext; [|exact R]. intros f. cbn in *. rewrite He. lia. Qed.

(** exit removes a descriptor only after it gave up the reference, so nothing is said of where
    it sleeps. *)
Definition asleep (e : event) (s : msys) : Prop := match e with EExit _ => True | _ => awaits s end.

Lemma tri_event e : tri (refs (fun _ => 0)) (run_event e) (fun _ => refs (fun _ => 0)) (asleep e).
Proof.
  unfold run_event. apply (tri_bind _ _ _ (fun l s => refs (fun _ => 0) s /\ m_procs s = l)); [by apply tri_gets|]. intros l.
  eapply tri_bind; [apply (tri_lift_opt _ _ (fun p s => refs (fun _ => 0) s /\ m_procs s !! match e with ECall i _ _ => i | EFork i => i | EExit i => i end = Some p))|].
  { intros p s Hp [R <-]. by split. }
  intros p. destruct e as [i c u|i|i]; [apply tri_call| |]; intros s [R Hi]; unfold bind, in_table, zoom, modify.
  - pose proof (tri_fork_files (fun f => total f (m_procs s)) [] p _ (refs_fcount _ s R (fun _ => eq_refl))) as T.
    destruct (fork_files p (m_files s)) as [d x| |c x| |]; try done; [|by apply fbusy_awaits].
    apply (proj1 (fcount_refs _ _ _)). eapply fcount_ext; [|exact T]. intros f. cbn. rewrite total_app. cbn. lia.
  - set (ps := <[i := (replicate NOFILE None, snd p)]> (m_procs s)).
    assert (forall f, total f ps = total f (m_procs s) - count f (fst p)) as Ht.
    { intros f. unfold ps. rewrite (total_insert f _ _ _ _ Hi). assert (count f (replicate NOFILE None) = 0) as E by reflexivity.
      cbn [fst]. rewrite E. lia. }
    assert (fcount (fun f => total f ps + count f (fst p)) [] (m_files s)) as Hc.
    { apply refs_fcount; [done|]. intros f. cbn. rewrite Ht. lia. }
    pose proof (tri_exit_files (fun f => total f ps) [] p (m_files s) Hc) as T.
    destruct (exit_files p (m_files s)) as [[] x| |c x| |]; try done.
    apply (proj1 (fcount_refs _ _ _)). eapply fcount_ext; [|exact T]. intros f. symmetry. apply Z.add_0_r.
Qed.

Fixpoint run_events (es : list event) : M msys unit :=
  match es with [] => ret tt | e :: es => run_event e ;; run_events es end.

Lemma tri_events es : tri (refs (fun _ => 0)) (run_events es) (fun _ => refs (fun _ => 0)) (fun _ => True).
Proof.
  induction es as [|e es IH]; cbn [run_events]; [by apply tri_ret|].
  eapply tri_bind; [eapply tri_mono; [apply tri_event|done|intros a s; exact id|done]|]. by intros [].
Qed.

(** C8: Over any sequence of file-system calls, forks and exits of any number of processes,
    the reference count of every open file is the number of descriptors that refer to it:
    a file with a descriptor is never free, one without has no type and may be allocated
    again.  Where a call or a fork sleeps on the way, the counts are at least that. *)
Theorem descriptors_counted es s s' :
  refs (fun _ => 0) s -> run_events es s = Ret tt s' ->
  refs (fun _ => 0) s' /\
  (forall i p fd f, m_procs s' !! i = Some p -> fst p !! fd = Some (Some f) ->
     exists x, ftable (m_files s') !! f = Some x /\ 1 <= f_ref x) /\
  (forall e c s'', run_event e s' = Sleep c s'' -> asleep e s'').
Proof.
  intros R E. pose proof (tri_events es s R) as T. rewrite E in T. split; [exact T|]. split.
  - intros i p fd f Hp Hfd. pose proof (total_at f _ _ _ _ Hp Hfd). destruct (T f) as [C _].
    unfold sig in C. rewrite list_lookup_fmap in C. destruct (ftable (m_files s') !! f) as [x|]; cbn in C; [|lia].
    exists x. split; [done|]. lia.
  - intros e c s'' Es. pose proof (tri_event e s' T) as Te. by rewrite Es in Te.
Qed.
End Refs.

(** ** A machine with one process *)

Definition zero_file : file := mkfile FD_NONE 0 0 0 0 0 0.

(** The arguments of a call on the stack of a process of 64 bytes. *)
Definition demo_args (ws : list Z) : uproc := mku 64 0 (ustore (fun _ => 0) 4 (concat (to_le 4 <$> ws))).

Definition demo_dir : inode := mkinode ROOTDEV 1 1 I_VALID T_DIR 0 0 1 0 (replicate 13 0).
Definition demo_kmem : kst := mkkst 1 (KERNBASE + 4194304) (fun _ => 0) (mkctx [] [] false).
Definition demo_system : msys (S := logst) :=
  mkmsys (mkfsys (replicate NFILE zero_file) ∅ demo_kmem (mkist [demo_dir] (power_on []))) [(replicate NOFILE None, 0%nat)].

Definition no_read : Z -> option (nat -> Z -> M (ist logst) (Z * list Z)) := fun _ => None.
Definition no_write : Z -> option (nat -> list Z -> Z -> M (ist logst) Z) := fun _ => None.

(** pipe, dup of its first end, fork, and the child closes that end. *)
Definition demo_events : list event :=
  [ECall 0 CPipe (demo_args [40]); ECall 0 CDup (demo_args [0]); EFork 0; ECall 1 CClose (demo_args [0])].

Lemma demo_system_refs : refs (fun _ => 0) demo_system.
Proof.
  intros f. destruct (decide (f < NFILE)%nat) as [Hf|Hf].
  - cbn [demo_system m_files m_procs ftable]. unfold sig. rewrite fmap_replicate, lookup_replicate_2 by done. done.
  - cbn [demo_system m_files m_procs ftable]. rewrite lookup_ge_None_2; [done|]. unfold sig. rewrite fmap_replicate, length_replicate. lia.
Qed.

Lemma descriptors_counted_witness : exists s', run_events no_read no_write KERNBASE demo_events demo_system = Ret tt s' /\
  f_ref <$> ftable (m_files s') !! 0%nat = Some 3 /\ refs (fun _ => 0) s'.
Proof.
  eexists. split; [vm_compute; reflexivity|]. split; [reflexivity|].
  refine (proj1 (descriptors_counted no_read no_write KERNBASE demo_events demo_system _ demo_system_refs _)). vm_compute. reflexivity.
Defined.

(** ** Single calls *)

Section Calls.
Context {S : Type} `{HasCtx S} `{!BlockLayer S} `{!TxLayer S}.
Variable end_ : Z.
Abbreviation SS := (sst S).

(** The table with another count for [f]. *)
Definition with_ref (f : nat) (r : Z) (x : fsys S) : fsys S :=
  mkfsys (alter (fw_ref r) f (ftable x)) (pipes x) (kmem x) (inodes x).

Definition with_table (t : list file) (s : fsys S) : fsys S := mkfsys t (pipes s) (kmem s) (inodes s).
Lemma ctx_table t k (s : fsys S) : ctx (with_table t (with_ctx k s)) = k.
Proof. destruct s as [ft ps km [ic b]]. unfold with_table. cbn. by rewrite ctx_with. Qed.
Lemma release_table t k (s : fsys S) : with_ctx (ctx s) (with_table t (with_ctx k s)) = with_table t s.
Proof. destruct s as [ft ps km [ic b]]. unfold with_table. cbn. by rewrite with_with, with_same. Qed.
Lemma ctx_split (s : fsys S) : mkctx (held (ctx s)) (woken (ctx s)) (killed (ctx s)) = ctx s.
Proof. by destruct (ctx s). Qed.

(** An assignment to the table under its lock. *)
Lemma wp_unlock (s : fsys S) t Q :
  Q tt (with_table t s) ->
  wp (release LkFtable) Q (with_table t (with_ctx (mkctx (LkFtable :: held (ctx s)) (woken (ctx s)) (killed (ctx s))) s)).
Proof.
  intros HQ. eapply wp_release; [by rewrite ctx_table|]. rewrite ctx_table. cbn [woken killed].
  by rewrite ctx_split, release_table.
Qed.

Lemma wp_filedup f x (s : fsys S) Q :
  LkFtable ∉ held (ctx s) -> ftable s !! f = Some x -> 1 <= f_ref x ->
  Q f (with_table (alter (fun x => fw_ref (f_ref x + 1) x) f (ftable s)) s) -> wp (filedup f) Q s.
Proof.
  intros Hl Hf Hr HQ. unfold filedup, getf, setf. wp_steps. apply wp_acquire; [done|]. wp_steps.
  eapply wp_lift_opt; [exact Hf|]. cbv beta. destruct (Z.ltb_spec (f_ref x) 1); [lia|].
  wp_steps. eapply wp_lift_opt; [exact Hf|]. wp_steps. apply (wp_unlock s). wp_steps. done.
Qed.

Lemma wp_fileclose f x (s : fsys S) Q :
  LkFtable ∉ held (ctx s) -> ftable s !! f = Some x -> 2 <= f_ref x ->
  Q tt (with_table (alter (fw_ref (f_ref x - 1)) f (ftable s)) s) -> wp (fileclose end_ f) Q s.
Proof.
  intros Hl Hf Hr HQ. unfold fileclose, getf, setf. wp_steps. apply wp_acquire; [done|]. wp_steps.
  eapply wp_lift_opt; [exact Hf|]. cbv beta. destruct (Z.ltb_spec (f_ref x) 1); [lia|].
  wp_steps. eapply wp_lift_opt; [exact Hf|]. wp_steps. destruct (Z.ltb_spec 0 (f_ref x - 1)); [|lia].
  by apply (wp_unlock s).
Qed.

Lemma wp_argfd n fd f (s : SS) Q :
  argint (user s) n = Some (Z.of_nat fd) -> (fd < NOFILE)%nat -> ofile s !! fd = Some (Some f) ->
  Q (Some (fd, f)) s -> wp (argfd n) Q s.
Proof.
  intros Ha Hfd Ho HQ. unfold argfd. wp_steps. rewrite Ha.
  destruct (Z.ltb_spec (Z.of_nat fd) 0); [lia|]. destruct (Z.leb_spec (Z.of_nat NOFILE) (Z.of_nat fd)); [lia|]. cbn [orb].
  wp_steps. rewrite Nat2Z.id. eapply wp_lift_opt; [exact Ho|]. wp_steps. done.
Qed.

Lemma find_fd_first o k fd : find_fd o k = Some fd -> forall j, (j < fd - k)%nat -> exists f, o !! j = Some (Some f).
Proof.
  revert k. induction o as [|[f|] o IH]; intros k; cbn; [done| |intros [= <-]; lia].
  intros E j Hj. destruct j as [|j]; [by exists f|]. cbn. apply (IH _ E). lia.
Qed.

Lemma wp_exact {T A} (m : M T A) s a s' : wp m (fun b s1 => b = a /\ s1 = s') s -> m s = Ret a s'.
Proof. by intros (b & s1 & E & -> & ->)%wp_run. Qed.

Lemma wp_in_files {A} (m : M (fsys S) A) (Q : A -> SS -> Prop) s :
  wp m (fun a x => Q a (mksst x (ofile s) (cwd s) (user s))) (files s) -> wp (in_files m) Q s.
Proof. intros Hw. apply wp_zoom. exact Hw. Qed.

(** Dup of an open descriptor returns the lowest free one, which then refers to the same
    file, whose count is one more; closing it leaves the process and the whole system as
    they were. *)
Theorem dup_close fd fd' f x (s : SS) u' :
  LkFtable ∉ held (ctx (files s)) -> length (ofile s) = NOFILE ->
  argint (user s) 0 = Some (Z.of_nat fd) -> ofile s !! fd = Some (Some f) ->
  ftable (files s) !! f = Some x -> 1 <= f_ref x ->
  find_fd (ofile s) 0 = Some fd' -> argint u' 0 = Some (Z.of_nat fd') ->
  exists t, sys_dup s = Ret (Z.of_nat fd') (mksst t (<[fd' := Some f]> (ofile s)) (cwd s) (user s)) /\
    ftable t !! f = Some (fw_ref (f_ref x + 1) x) /\
    (forall j, (j < fd')%nat -> exists g, ofile s !! j = Some (Some g)) /\
    sys_close end_ (mksst t (<[fd' := Some f]> (ofile s)) (cwd s) u') = Ret 0 (mksst (files s) (ofile s) (cwd s) u').
Proof.
  intros Hl Hn Ha Ho Hf Hr Hfd Ha'. set (t := with_table (alter (fun x => fw_ref (f_ref x + 1) x) f (ftable (files s))) (files s)).
  pose proof (find_fd_spec _ _ _ Hfd) as [_ Hfree]. rewrite Nat.sub_0_r in Hfree. pose proof (lookup_lt_Some _ _ _ Hfree) as Hlt.
  pose proof (lookup_lt_Some _ _ _ Ho) as Hlt0. exists t. assert (ftable t !! f = Some (fw_ref (f_ref x + 1) x)) as Ht.
  { unfold t, with_table. cbn. by rewrite list_lookup_alter_eq, Hf. }
  split; [|split; [done|split]].
  - apply wp_exact. unfold sys_dup. wp_steps. eapply wp_argfd; [exact Ha|lia|exact Ho|].
    unfold fdalloc, set_ofile. wp_steps. rewrite Hfd. wp_steps. destruct (Z.ltb_spec (Z.of_nat fd') 0); [lia|].
    wp_steps. apply wp_in_files. eapply wp_filedup; [done|exact Hf|done|]. wp_steps. done.
  - intros j Hj. apply (find_fd_first _ _ _ Hfd). lia.
  - apply wp_exact. unfold sys_close. wp_steps. eapply wp_argfd; [exact Ha'|lia|by apply list_lookup_insert_eq|].
    unfold set_ofile. wp_steps. apply wp_in_files. eapply wp_fileclose; [exact Hl|exact Ht|cbn; lia|]. wp_steps.
    split; [done|]. cbn [files ofile cwd user]. rewrite list_insert_insert_eq, list_insert_id by done. f_equal.
    unfold t, with_table. cbn. destruct (files s) as [ft ps km ic] eqn:E. cbn in *. f_equal.
    apply list_eq. intros i. destruct (decide (i = f)) as [->|Hne]; [|by rewrite !list_lookup_alter_ne by done].
    rewrite !list_lookup_alter_eq, Hf. cbn. f_equal. rewrite Z.add_simpl_r. by destruct x.
Qed.
End Calls.

(** ** Demonstrations *)

(** A process with file [x] at descriptor 0, and another file [y], on inodes [ii]. *)
Definition demo_process (x y : file) (ii : list inode) (b : logst) (u : uproc) : sst logst :=
  mksst (mkfsys [x; y; zero_file] ∅ demo_kmem (mkist ii b)) (Some 0%nat :: replicate 15 None) 0 u.
Definition open_file (ip : nat) (off : Z) : file := mkfile FD_INODE 1 1 1 0 ip off.

Lemma dup_close_witness : exists t,
  sys_dup (demo_process (open_file 0 0) zero_file [] (power_on []) (demo_args [0])) =
    Ret 1 (mksst t (<[1%nat := Some 0%nat]> (Some 0%nat :: replicate 15 None)) 0 (demo_args [0])).
Proof.
  destruct (dup_close KERNBASE 0 1 0 (open_file 0 0) (demo_process (open_file 0 0) zero_file [] (power_on []) (demo_args [0])) (demo_args [1]))
    as (t & E & _); [apply not_elem_of_nil|reflexivity|vm_compute; reflexivity|reflexivity|reflexivity|cbn; lia|reflexivity|vm_compute; reflexivity|].
  exists t. exact E.
Defined.

(** A cached inode of a file of one byte without blocks. *)
Definition demo_one (inum : Z) : inode := mkinode ROOTDEV inum 1 I_VALID T_FILE 0 0 1 1 (replicate 13 0).
