(* ===== verification/Sysproc.v ===== *)
(** * sysproc.c: the process calls

    The calls fetch their arguments and run the routines of proc.c and kthread.c; [tsys]
    adds the clock to the state of those.  sys_sleep is cut where it switches away: a
    section returns [None] there, and the next one starts with the sleep's return. *)

From stdpp Require Import base list numbers strings gmap sets.
From S2P Require Import Prelude CString Spinlock Kalloc Proc Kthread Syscall.
Import Ctx.

Open Scope Z_scope.
Local Open Scope kernel_scope.

Record tsys (E : Type) := mktsys { tp : psys E; ticks : Z }.
Arguments mktsys {E}. Arguments tp {E}. Arguments ticks {E}.

#[export] Program Instance tsys_ctx (E : Type) : HasCtx (tsys E) := {|
  ctx s := ctx (tp s);
  with_ctx k s := mktsys (with_ctx k (tp s)) (ticks s) |}.
Next Obligation. done. Qed.
Next Obligation. done. Qed.
Next Obligation. intros ? [[] ?]. done. Qed.

Section Calls.
Context {E : Type} `{ProcEnv E}.
Variables trapret forkret_addr : Z.
Abbreviation TS := (tsys E).

Definition in_proc {A} (m : M (psys E) A) : M TS A := zoom tp (fun p s => mktsys p (ticks s)) m.

Definition sys_fork : M TS Z := in_proc (fork trapret forkret_addr).
(** exit does not return. *)
Definition sys_exit : M TS unit := in_proc exit.
Definition sys_wait : M TS Z := in_proc wait.

Definition sys_kill (u : uproc) : M TS Z :=
  match argint u 0 with None => ret (-1) | Some pid => in_proc (kill pid) end.

Definition sys_getpid : M TS Z :=
  in_proc (c <- curproc ;; p <- getp c ;; ret (p_pid p)).

Definition sys_sbrk (u : uproc) : M TS Z :=
  match argint u 0 with
  | None => ret (-1)
  | Some n =>
      in_proc (
        c <- curproc ;;
        p <- getp c ;;
        let addr := i32 (p_sz p) in
        r <- growproc n ;;
        if r <? 0 then ret (-1) else ret addr)
  end.

(** The while loop of sys_sleep, with tickslock held: the comparison is of uints. *)
Definition sleep_loop (ticks0 n : Z) : M TS (option Z) :=
  t <- gets ticks ;;
  if u32 (t - ticks0) <? u32 n then
    p <- in_proc (c <- curproc ;; getp c) ;;
    if negb (p_killed p =? 0) then release LkTicks ;; ret (Some (-1)) else
    in_proc (sleep_enter ChTicks LkTicks) ;; ret None
  else release LkTicks ;; ret (Some 0).

Definition sys_sleep (u : uproc) : M TS (option Z) :=
  match argint u 0 with
  | None => ret (Some (-1))
  | Some n => acquire LkTicks ;; ticks0 <- gets ticks ;; sleep_loop ticks0 n
  end.
Definition sys_sleep_resume (ticks0 n : Z) : M TS (option Z) :=
  in_proc (sleep_leave LkTicks) ;; sleep_loop ticks0 n.

Definition sys_uptime : M TS Z :=
  acquire LkTicks ;;
  xticks <- gets ticks ;;
  release LkTicks ;;
  ret (i32 xticks).

Definition sys_kthread_create (u : uproc) : M TS Z :=
  match argint u 0, argint u 1, argint u 2 with
  | Some start_func, Some stack, Some stack_size =>
      in_proc (kthread_create trapret forkret_addr (u32 start_func) (u32 stack) (u32 stack_size))
  | _, _, _ => ret (-1)
  end.
Definition sys_kthread_id : M TS Z := in_proc kthread_id.
Definition sys_kthread_exit : M TS Z := in_proc kthread_exit ;; ret 0.
Definition sys_kthread_join (u : uproc) : M TS Z :=
  match argint u 0 with None => ret (-1) | Some id => in_proc (kthread_join id) end.
End Calls.
