(* ===== verification/Umalloc.v ===== *)
(** * umalloc.c: the user-level allocator

    The free blocks form a circular list in order of address through the header [base];
    sizes count units of eight bytes, the size of a header.  The memory is bytes; sbrk is
    asked through [grows], which says whether the kernel grants the request.  [heap]
    relates the memory to the list of free blocks and the allocated ones. *)

From stdpp Require Import base list numbers strings gmap sets sorting.
From S2P Require Import Prelude CString Kalloc.
Import Mem.

Open Scope Z_scope.
Local Open Scope kernel_scope.

(** The static freep, and the end of the process. *)
Record ust := mkust { umem : mem; freep : Z; brk : Z }.

Definition sizeof_header : Z := 8.

Section Ops.
(** &base, and the answer of the kernel to sbrk. *)
Variable base : Z.
Variable grows : Z -> Z -> bool.

(** p->s.ptr and p->s.size, and p + n. *)
Definition getptr (p : Z) : M ust Z := gets (fun s => load32 (umem s) p).
Definition getsize (p : Z) : M ust Z := gets (fun s => load32 (umem s) (u32 (p + 4))).
Definition setptr (p v : Z) : M ust unit :=
  modify (fun s => mkust (store32 (umem s) p v) (freep s) (brk s)).
Definition setsize (p v : Z) : M ust unit :=
  modify (fun s => mkust (store32 (umem s) (u32 (p + 4)) v) (freep s) (brk s)).
Definition set_freep (p : Z) : M ust unit := modify (fun s => mkust (umem s) p (brk s)).
Definition hdr (p n : Z) : Z := u32 (p + sizeof_header * n).

Definition sbrk (n : Z) : M ust Z :=
  b <- gets brk ;;
  if grows b n then modify (fun s => mkust (umem s) (freep s) (u32 (b + n))) ;; ret b
  else ret (2 ^ 32 - 1).

(** No list is longer than the process. *)
Definition fuel (s : ust) : nat := (8 + Z.to_nat (brk s))%nat.

(** The for loop of free. *)
Fixpoint free_loop (k : nat) (bp p : Z) : M ust Z :=
  match k with
  | O => out_of_fuel
  | S k =>
      q <- getptr p ;;
      if (p <? bp) && (bp <? q) then ret p else
      if (q <=? p) && ((p <? bp) || (bp <? q)) then ret p else
      free_loop k bp q
  end.

Definition free (ap : Z) : M ust unit :=
  let bp := u32 (ap - sizeof_header) in
  f <- gets fuel ;;
  p <- gets freep ;;
  p <- free_loop f bp p ;;
  q <- getptr p ;;
  n <- getsize bp ;;
  (if hdr bp n =? q then
     nq <- getsize q ;;
     setsize bp (u32 (n + nq)) ;;
     r <- getptr q ;;
     setptr bp r
   else setptr bp q) ;;
  np <- getsize p ;;
  (if hdr p np =? bp then
     n <- getsize bp ;;
     setsize p (u32 (np + n)) ;;
     r <- getptr bp ;;
     setptr p r
   else setptr p bp) ;;
  set_freep p.

Definition morecore (nu : Z) : M ust Z :=
  let nu := if nu <? 4096 then 4096 else nu in
  p <- sbrk (i32 (u32 (nu * sizeof_header))) ;;
  if p =? 2 ^ 32 - 1 then ret 0 else
  setsize p nu ;;
  free (u32 (p + sizeof_header)) ;;
  gets freep.

(** The for loop of malloc. *)
Fixpoint malloc_loop (k : nat) (nunits prevp p : Z) : M ust Z :=
  match k with
  | O => out_of_fuel
  | S k =>
      n <- getsize p ;;
      if nunits <=? n then
        p <- (if n =? nunits then q <- getptr p ;; setptr prevp q ;; ret p
              else
                setsize p (n - nunits) ;;
                let p := hdr p (n - nunits) in
                setsize p nunits ;; ret p) ;;
        set_freep prevp ;;
        ret (hdr p 1)
      else
        fp <- gets freep ;;
        if p =? fp then
          p <- morecore nunits ;;
          if p =? 0 then ret 0 else
          q <- getptr p ;; malloc_loop k nunits p q
        else q <- getptr p ;; malloc_loop k nunits p q
  end.

Definition units (nbytes : Z) : Z := u32 (u32 (nbytes + sizeof_header - 1) / sizeof_header + 1).

Definition malloc (nbytes : Z) : M ust Z :=
  let nunits := units nbytes in
  f <- gets fuel ;;
  fp <- gets freep ;;
  (when (fp =? 0) do (set_freep base ;; setptr base base ;; setsize base 0)) ;;
  prevp <- gets freep ;;
  p <- getptr prevp ;;
  malloc_loop f nunits prevp p.
End Ops.

(** ** The list in memory *)

(** The chain of pointers from [p] through [ns] to [q]. *)
Fixpoint seg (m : mem) (p : Z) (ns : list Z) (q : Z) : Prop :=
  match ns with
  | [] => load32 m p = q
  | x :: ns => load32 m p = x /\ seg m x ns q
  end.

Definition end_of (p : Z) (ns : list Z) : Z := default p (last ns).

(** Blocks in order from [lo] to [top], each with its size in its header. *)
Fixpoint run (m : mem) (lo : Z) (L : list (Z * Z)) (top : Z) : Prop :=
  match L with
  | [] => lo <= top
  | (a, n) :: L => lo <= a /\ 1 <= n /\ load32 m (a + 4) = n /\ run m (a + 8 * n) L top
  end.

(** The bytes of the blocks. *)
Definition covers (L : list (Z * Z)) (x : Z) : Prop := exists a n, (a, n) ∈ L /\ a <= x < a + 8 * n.

Lemma seg_app m p ns x ns2 q : seg m p (ns ++ x :: ns2) q <-> seg m p ns x /\ seg m x ns2 q.
Proof. revert p. induction ns as [|y ns IH]; intros p; cbn [seg app]; [done|]. rewrite IH. tauto. Qed.

Lemma seg_end m p ns q : seg m p ns q -> load32 m (end_of p ns) = q.
Proof.
  destruct ns as [|x ns] using rev_ind; [done|]. unfold end_of. rewrite last_snoc. cbn.
  rewrite seg_app. by intros [_ E].
Qed.

Lemma seg_frame m m' p ns q : (forall x, x ∈ p :: ns -> load32 m' x = load32 m x) -> seg m p ns q -> seg m' p ns q.
Proof.
  revert p. induction ns as [|x ns IH]; intros p H; cbn [seg]; [rewrite H by left; done|].
  intros [E Hs]. split; [rewrite H by left; done|]. apply IH; [|done]. intros y Hy. apply H. by right.
Qed.

(** The chain with another end. *)
Lemma seg_new_end m m' p ns q q' : (forall x, x ∈ p :: ns -> x <> end_of p ns -> load32 m' x = load32 m x) ->
  load32 m' (end_of p ns) = q' -> NoDup (p :: ns) -> seg m p ns q -> seg m' p ns q'.
Proof.
  destruct ns as [|x ns] using rev_ind; [done|]. unfold end_of. rewrite last_snoc. cbn [default]. intros H E Hnd.
  rewrite !seg_app. intros [Hs _]. split; [|done]. eapply seg_frame; [|exact Hs]. intros y Hy. apply H.
  - rewrite app_comm_cons, elem_of_app. by left.
  - intros ->. rewrite app_comm_cons in Hnd. apply NoDup_app in Hnd as (_ & Hnd & _). apply (Hnd x Hy). left.
Qed.

Lemma seg_ptr_in m p ns q y : seg m p ns q -> y ∈ p :: ns -> load32 m y ∈ ns ++ [q].
Proof.
  revert p. induction ns as [|x ns IH]; intros p; cbn [seg app].
  - intros E ->%list_elem_of_singleton. rewrite E. left.
  - intros [E Hs] [->|Hy]%elem_of_cons; [rewrite E; left|]. right. by eapply IH.
Qed.

Lemma seg_inj m p ns q y z : seg m p ns q -> NoDup (ns ++ [q]) -> y ∈ p :: ns -> z ∈ p :: ns -> load32 m y = load32 m z -> y = z.
Proof.
  revert p. induction ns as [|x ns IH]; intros p; cbn [seg app].
  - by intros _ _ ->%list_elem_of_singleton ->%list_elem_of_singleton.
  - intros [E Hs] [Hx Hnd]%list.NoDup_cons Hy Hz Eyz.
    apply elem_of_cons in Hy as [->|Hy], Hz as [->|Hz]; [done| | |by eapply IH].
    + destruct Hx. rewrite <- E, Eyz. by eapply seg_ptr_in.
    + destruct Hx. rewrite <- E, <- Eyz. by eapply seg_ptr_in.
Qed.

(** The circle from any of its nodes. *)
Lemma seg_rotate m p ns f : seg m p ns p -> f ∈ p :: ns -> exists l, seg m f l f /\ f :: l ≡ₚ p :: ns.
Proof.
  intros Hs [->|(l1 & l2 & ->)%list_elem_of_split]%elem_of_cons; [by exists ns|].
  apply seg_app in Hs as [H1 H2]. exists (l2 ++ p :: l1). split; [by apply seg_app|].
  rewrite (Permutation_app_comm l2 (p :: l1)). cbn [app]. rewrite <- (Permutation_middle l1 l2 f). apply Permutation_swap.
Qed.

Lemma run_lo m lo lo' L top : run m lo L top -> lo' <= lo -> run m lo' L top.
Proof. destruct L as [|[a n] L]; cbn [run]; [lia|]. intuition lia. Qed.
Lemma run_top m lo L top top' : run m lo L top -> top <= top' -> run m lo L top'.
Proof. revert lo. induction L as [|[a n] L IH]; intros lo; cbn [run]; [lia|]. intuition eauto. Qed.
Lemma run_le m lo L top : run m lo L top -> lo <= top.
Proof. revert lo. induction L as [|[a n] L IH]; intros lo; cbn [run]; [done|]. intros (? & ? & _ & ?%IH). lia. Qed.
Lemma blocks_app m lo L1 a n L2 top :
  run m lo (L1 ++ (a, n) :: L2) top <-> run m lo L1 a /\ 1 <= n /\ load32 m (a + 4) = n /\ run m (a + 8 * n) L2 top.
Proof. revert lo. induction L1 as [|[b k] L1 IH]; intros lo; cbn [run app]; [tauto|]. rewrite IH. tauto. Qed.
Lemma run_join m lo L1 mid L2 top : run m lo L1 mid -> run m mid L2 top -> run m lo (L1 ++ L2) top.
Proof.
  revert lo. induction L1 as [|[b k] L1 IH]; intros lo; cbn [run app]; [intros; by eapply run_lo|]. intuition eauto.
Qed.
Lemma run_blk m lo L top a n : run m lo L top -> (a, n) ∈ L -> lo <= a /\ 1 <= n /\ load32 m (a + 4) = n /\ a + 8 * n <= top.
Proof.
  intros Hr (L1 & L2 & ->)%list_elem_of_split. apply blocks_app in Hr as (H1 & H2 & H3 & H4).
  apply run_le in H1, H4. tauto.
Qed.
Lemma run_node m lo L top a : run m lo L top -> a ∈ L.*1 -> lo <= a /\ a + 8 <= top.
Proof.
  intros Hr ([a' n] & -> & Hin)%list_elem_of_fmap. destruct (run_blk _ _ _ _ _ _ Hr Hin) as (? & ? & _ & ?). cbn. lia.
Qed.
Lemma run_frame m m' lo L top : (forall a, a ∈ L.*1 -> load32 m' (a + 4) = load32 m (a + 4)) -> run m lo L top -> run m' lo L top.
Proof.
  revert lo. induction L as [|[a n] L IH]; intros lo H; cbn [run]; [done|]. intros (? & ? & E & ?). split_and!; try done.
  - rewrite H; [done|]. cbn. left.
  - apply IH; [|done]. intros b Hb. apply H. cbn. by right.
Qed.
Lemma run_NoDup m lo L top : run m lo L top -> NoDup L.*1.
Proof.
  revert lo. induction L as [|[a n] L IH]; intros lo; cbn [run fmap list_fmap fst]; [constructor|]. intros (? & ? & _ & Hr). apply list.NoDup_cons. split; [|by eapply IH].
  intros Hin. apply (run_node _ _ _ _ _ Hr) in Hin. lia.
Qed.
Lemma run_length m lo L top : run m lo L top -> Z.of_nat (length L) * 8 <= top - lo.
Proof. revert lo. induction L as [|[a n] L IH]; intros lo; cbn [run length]; [lia|]. intros (? & ? & _ & ?%IH). lia. Qed.

(** A block apart from those of the list has its place in it. *)
Lemma run_split m lo L top b n : run m lo L top -> lo <= b -> 1 <= n -> b + 8 * n <= top ->
  (forall x, b <= x < b + 8 * n -> ~ covers L x) ->
  exists L1 L2, L = L1 ++ L2 /\ run m lo L1 b /\ run m (b + 8 * n) L2 top.
Proof.
  revert lo. induction L as [|[a k] L IH]; intros lo; cbn [run].
  - intros _ ? ? ? _. exists [], []. cbn [run app]. split_and!; [done|lia|lia].
  - intros (Ha & Hk & Es & Hr) Hb Hn Ht Hc.
    assert (~ (a <= b < a + 8 * k)) as C1 by (intros C; apply (Hc b); [lia|]; exists a, k; split; [left|lia]).
    assert (~ (b <= a < b + 8 * n)) as C2 by (intros C; apply (Hc a); [lia|]; exists a, k; split; [left|lia]).
    destruct (Z_lt_le_dec b a) as [Hlt|Hle].
    + exists [], ((a, k) :: L). cbn [run app]. split_and!; try done; lia.
    + destruct (IH (a + 8 * k)) as (L1 & L2 & -> & R1 & R2); [done|lia|lia|lia| |].
      { intros x Hx (a' & n' & Hin & Hx'). apply (Hc x Hx). exists a', n'. split; [by right|done]. }
      exists ((a, k) :: L1), L2. cbn [run app]. split_and!; done || lia.
Qed.

(** The pointers go up, but for the last one. *)
Lemma seg_up m p lo L top q y : run m lo L top -> p < lo -> seg m p L.*1 q -> y ∈ p :: L.*1 ->
  y = end_of p L.*1 \/ (y < load32 m y /\ load32 m y ∈ L.*1).
Proof.
  revert p lo. induction L as [|[a n] L IH]; intros p lo; cbn [run fmap list_fmap fst seg]; [intros _ _ _ ->%list_elem_of_singleton; by left|].
  intros (Ha & Hn & Es & Hr) Hp [Ep Hs] [->|Hy]%elem_of_cons.
  - right. rewrite Ep. split; [lia|left].
  - destruct (IH a (a + 8 * n) Hr ltac:(lia) Hs Hy) as [->|[H1 H2]]; [left|right; split; [done|by right]].
    unfold end_of. cbn [last]. destruct (L.*1) as [|z l] eqn:E; [done|]. cbn. destruct (last (z :: l)) eqn:El; [done|].
    by apply last_None in El.
Qed.

Lemma ld_st_eq m a v : 0 <= a -> a + 4 < 2 ^ 32 -> 0 <= v < 2 ^ 32 -> load32 (store32 m a v) a = v.
Proof. intros H0 H1 Hv. rewrite load_store32 by done. by apply u32_small. Qed.
Lemma st_out m a v x : 0 <= a -> a + 4 < 2 ^ 32 -> ~ (a <= x < a + 4) -> store32 m a v x = m x.
Proof.
  intros H0 H1 Hx. rewrite store32_spec by lia. unfold within.
  destruct (Z.leb_spec a x), (Z.ltb_spec x (a + 4)); cbn; lia || done.
Qed.
Lemma ld_same m m' a : 0 <= a -> a + 4 < 2 ^ 32 -> (forall x, a <= x < a + 4 -> m' x = m x) -> load32 m' a = load32 m a.
Proof. intros H0 H1 H. unfold load32. rewrite !u32_small by lia. by rewrite !H by lia. Qed.
Lemma ld_st_ne m a v b : 0 <= a -> a + 4 < 2 ^ 32 -> 0 <= b -> b + 4 < 2 ^ 32 -> a + 4 <= b \/ b + 4 <= a ->
  load32 (store32 m a v) b = load32 m b.
Proof. intros. apply ld_same; [done|done|]. intros x Hx. apply st_out; lia. Qed.

Lemma end_of_in p ns : end_of p ns ∈ p :: ns.
Proof.
  unfold end_of. destruct ns as [|x ns] using rev_ind; [left|]. rewrite last_snoc. cbn. right. apply elem_of_app. right. left.
Qed.
Lemma end_of_app p l1 x l2 : end_of p (l1 ++ x :: l2) = end_of x l2.
Proof.
  unfold end_of. destruct l2 as [|z l2] using rev_ind; [by rewrite last_snoc|].
  by rewrite app_comm_cons, app_assoc, !last_snoc.
Qed.

Section Heap.
Variable base : Z.
Variable grows : Z -> Z -> bool.
(** The end of the process when it starts; its static variables are below it. *)
Variable lo : Z.
Hypothesis base_ok : 0 < base /\ base + 8 <= lo.

(** The memory holds the free blocks [L] and the allocated blocks [A], by their headers. *)
Record heap (s : ust) (L : list (Z * Z)) (A : gmap Z Z) : Prop := {
  hp_brk : lo <= brk s <= KERNBASE;
  hp_run : run (umem s) lo L (brk s);
  hp_ring : seg (umem s) base L.*1 base;
  hp_base : load32 (umem s) (base + 4) = 0;
  hp_freep : freep s ∈ base :: L.*1;
  hp_used : forall a n, A !! a = Some n ->
    lo <= a /\ 1 <= n /\ a + 8 * n <= brk s /\ load32 (umem s) (a + 4) = n /\
    forall x, a <= x < a + 8 * n -> ~ covers L x;
  hp_sep : forall a b n k, a <> b -> A !! a = Some n -> A !! b = Some k -> a + 8 * n <= b \/ b + 8 * k <= a }.

(** ** free *)

Definition stop (m : mem) (bp y : Z) : bool :=
  let q := load32 m y in ((y <? bp) && (bp <? q)) || ((q <=? y) && ((y <? bp) || (bp <? q))).

Lemma free_walk k bp f l e W1 p W2 s :
  seg (umem s) f l e -> f :: l = W1 ++ p :: W2 -> (forall y, y ∈ W1 -> stop (umem s) bp y = false) ->
  stop (umem s) bp p = true -> (length W1 < k)%nat -> free_loop k bp f s = Ret p s.
Proof.
  intros Hs Hl Hno Hyes. revert k f l Hs Hl. induction W1 as [|y W1 IH]; intros k f l Hs Hl Hk; cbn in Hl; injection Hl as -> Hl.
  - destruct k as [|k]; [cbn in Hk; lia|]. cbn [free_loop]. unfold getptr, bind, gets, ret. unfold stop in Hyes.
    destruct ((p <? bp) && _); [done|]. cbn [orb] in Hyes. by rewrite Hyes.
  - destruct k as [|k]; [cbn in Hk; lia|]. cbn [free_loop]. unfold getptr, bind, gets, ret.
    pose proof (Hno y ltac:(left)) as Hy. unfold stop in Hy. apply orb_false_iff in Hy as [-> ->].
    destruct l as [|x l]; [by destruct W1|]. destruct Hs as [Ex Hs]. rewrite Ex.
    eapply IH; [intros z Hz; apply Hno; by right|exact Hs|exact Hl|]. cbn in Hk. lia.
Qed.

Lemma stop_iff m bp n L1 L2 top y :
  run m lo L1 bp -> run m (bp + 8 * n) L2 top -> 1 <= n -> seg m base (L1 ++ L2).*1 base -> y ∈ base :: (L1 ++ L2).*1 ->
  stop m bp y = true <-> y = end_of base L1.*1.
Proof.
  intros R1 R2 Hn Hs Hy. pose proof (run_le _ _ _ _ R1) as Hlo. destruct base_ok as [Hb0 Hb1].
  set (p := end_of base L1.*1).
  assert (exists q, seg m base L1.*1 q /\ seg m p L2.*1 base /\ (L2 = [] /\ q = base \/ bp < q)) as (q & S1 & S2 & Hq).
  { rewrite fmap_app in Hs. destruct L2 as [|[q nq] L2].
    - rewrite app_nil_r in Hs. exists base. split; [done|]. split; [by apply seg_end in Hs|by left].
    - cbn [fmap list_fmap fst] in Hs. pose proof Hs as Hs'. apply seg_app in Hs as [H1 H2]. exists q. split; [done|]. cbn [run] in R2.
      split; [split; [by apply seg_end in H1|done]|right; lia]. }
  assert (p < bp) as Hp.
  { pose proof (end_of_in base L1.*1) as [E|Hin]%elem_of_cons; [fold p in E; lia|fold p in Hin]. apply (run_node _ _ _ _ _ R1) in Hin. lia. }
  assert (load32 m p = q) as Ep by (by apply seg_end in S1).
  unfold stop. split.
  - intros Hst. destruct (decide (y = p)) as [|Hne]; [done|]. exfalso.
    assert (y ∈ base :: L1.*1 \/ y ∈ p :: L2.*1) as [Hin|Hin].
    { rewrite fmap_app, app_comm_cons, elem_of_app in Hy. destruct Hy as [?|?]; [by left|right; by right]. }
    + destruct (seg_up m base lo L1 bp q y R1 ltac:(lia) S1 Hin) as [?|[Hu Hi]]; [done|].
      apply (run_node _ _ _ _ _ R1) in Hi.
      destruct (Z.ltb_spec bp (load32 m y)), (Z.leb_spec (load32 m y) y); cbn in Hst; rewrite ?andb_false_r in Hst; cbn in Hst; try done; lia.
    + apply elem_of_cons in Hin as [?|Hin]; [done|]. pose proof (run_node _ _ _ _ _ R2 Hin) as Hyr.
      destruct (seg_up m p (bp + 8 * n) L2 top base y R2 ltac:(lia) S2 ltac:(by right)) as [E|[Hu Hi]].
      * apply seg_end in S2. rewrite <- E in S2. rewrite S2 in Hst.
        destruct (Z.ltb_spec y bp), (Z.ltb_spec bp base); cbn in Hst; rewrite ?andb_false_r in Hst; try done; lia.
      * destruct (Z.ltb_spec y bp), (Z.leb_spec (load32 m y) y); cbn in Hst; try done; lia.
  - intros ->. fold p. rewrite Ep. destruct (Z.ltb_spec p bp); [|lia]. destruct Hq as [[-> ->]|Hq].
    + destruct (Z.leb_spec base p) as [|Hc]; [by rewrite orb_true_r|].
      pose proof (end_of_in base L1.*1) as [E|Hin]%elem_of_cons; [fold p in E; lia|fold p in Hin]. apply (run_node _ _ _ _ _ R1) in Hin. lia.
    + destruct (Z.ltb_spec bp q); [done|lia].
Qed.

Lemma seg_head m m' p p' ns q : seg m p ns q -> load32 m' p' = load32 m p -> (forall x, x ∈ ns -> load32 m' x = load32 m x) -> seg m' p' ns q.
Proof.
  destruct ns as [|x ns]; cbn [seg]; [intros <- ->; done|]. intros [<- Hs] E H. split; [done|]. eapply seg_frame; [|exact Hs]. exact H.
Qed.

Lemma ptr_range m p lo' L top : seg m p L.*1 base -> run m lo' L top -> base < lo' -> top <= KERNBASE -> 0 <= load32 m p < 2 ^ 32.
Proof.
  unfold KERNBASE. intros S R Hl Ht. pose proof (run_le _ _ _ _ R). destruct L as [|[q nq] L]; cbn [fmap list_fmap fst seg] in S.
  - rewrite S. lia.
  - destruct S as [-> _]. cbn [run] in R. destruct R as (? & ? & _ & R). apply run_le in R. lia.
Qed.

(** Joining the block at [bp] with the one after it, or linking it to that. *)
Definition join_next (m : mem) (bp n q : Z) : mem :=
  if hdr bp n =? q then store32 (store32 m (bp + 4) (n + load32 m (q + 4))) bp (load32 m q) else store32 m bp q.

Lemma join_next_ok m bp n L2 top p :
  lo <= bp -> 1 <= n -> load32 m (bp + 4) = n -> run m (bp + 8 * n) L2 top -> top <= KERNBASE -> seg m p L2.*1 base ->
  let m1 := join_next m bp n (load32 m p) in
  exists n' L2', n <= n' /\ load32 m1 (bp + 4) = n' /\ seg m1 bp L2'.*1 base /\ run m1 (bp + 8 * n') L2' top /\
    (forall x, ~ (bp <= x < bp + 8) -> m1 x = m x) /\
    (forall x, covers L2' x \/ bp <= x < bp + 8 * n' <-> covers L2 x \/ bp <= x < bp + 8 * n) /\ (length L2' <= length L2)%nat.
Proof.
  unfold KERNBASE. intros Hbp Hn Hsz R Ht S. pose proof (run_le _ _ _ _ R) as Hle. destruct base_ok as [Hb0 Hb1]. unfold join_next, hdr, sizeof_header.
  rewrite u32_small by lia. cbv zeta.
  assert (forall m1, (forall x, ~ (bp <= x < bp + 8) -> m1 x = m x) -> forall a, a ∈ L2.*1 ->
    load32 m1 a = load32 m a /\ load32 m1 (a + 4) = load32 m (a + 4)) as Hfr.
  { intros m1 H a Ha. apply (run_node _ _ _ _ _ R) in Ha. split; apply ld_same; try lia; intros x Hx; apply H; lia. }
  destruct (Z.eqb_spec (bp + 8 * n) (load32 m p)) as [E|E].
  - destruct L2 as [|[q nq] L2]; cbn [fmap list_fmap fst seg] in S; [lia|]. destruct S as [Eq S]. rewrite Eq in *. subst q.
    cbn [run] in R. destruct R as (_ & Hnq & Hsq & R). pose proof (run_le _ _ _ _ R) as Hle2. rewrite Hsq.
    set (m1 := store32 _ bp _).
    assert (forall x, ~ (bp <= x < bp + 8) -> m1 x = m x) as Hm1 by (intros x Hx; unfold m1; rewrite !st_out by lia; done).
    exists (n + nq), L2. split_and!.
    + lia.
    + unfold m1. rewrite ld_st_ne, ld_st_eq by lia. done.
    + eapply seg_head; [exact S| |].
      * unfold m1. apply ld_st_eq; [lia|lia|]. apply (ptr_range _ _ _ _ _ S R); unfold KERNBASE; lia.
      * intros x Hx. apply (Hfr m1 Hm1). cbn. by right.
    + replace (bp + 8 * (n + nq)) with (load32 m p + 8 * nq) by lia. eapply run_frame; [|exact R].
      intros a Ha. apply (Hfr m1 Hm1). cbn. by right.
    + done.
    + intros x. split.
      * intros [(a & k & Hin & Hx)|Hx]; [left; exists a, k; split; [by right|done]|].
        destruct (Z_lt_le_dec x (bp + 8 * n)); [by right; lia|]. left. exists (load32 m p), nq. split; [left|lia].
      * intros [(a & k & [[= -> ->]|Hin]%elem_of_cons & Hx)|Hx]; [right; lia|left; by exists a, k|right; lia].
    + cbn. lia.
  - set (m1 := store32 m bp (load32 m p)).
    assert (forall x, ~ (bp <= x < bp + 8) -> m1 x = m x) as Hm1 by (intros x Hx; unfold m1; rewrite !st_out by lia; done).
    exists n, L2. split_and!; try done; try lia.
    + unfold m1. rewrite ld_st_ne by lia. done.
    + eapply seg_head; [exact S| |intros x Hx; by apply (Hfr m1 Hm1)].
      unfold m1. apply ld_st_eq; [lia|lia|]. apply (ptr_range _ _ _ _ _ S R); unfold KERNBASE; lia.
    + eapply run_frame; [|exact R]. intros a Ha. by apply (Hfr m1 Hm1).
Qed.

(** Linking the block at [bp] after [p], or joining it with that. *)
Definition link_prev (m : mem) (p bp : Z) : mem :=
  if hdr p (load32 m (p + 4)) =? bp then store32 (store32 m (p + 4) (load32 m (p + 4) + load32 m (bp + 4))) p (load32 m bp)
  else store32 m p bp.

Lemma covers_app L1 L2 x : covers (L1 ++ L2) x <-> covers L1 x \/ covers L2 x.
Proof. unfold covers. setoid_rewrite elem_of_app. naive_solver. Qed.
Lemma covers_cons a n L x : covers ((a, n) :: L) x <-> a <= x < a + 8 * n \/ covers L x.
Proof. unfold covers. setoid_rewrite elem_of_cons. naive_solver. Qed.
Lemma covers_nil x : ~ covers [] x.
Proof. intros (a & n & H & _). by apply not_elem_of_nil in H. Qed.

(** Nothing but the header at [p] changes. *)
Definition only_header (p : Z) (m m' : mem) : Prop := forall x, ~ (p <= x < p + 8) -> m' x = m x.
Lemma only_header_ld p m m' a : only_header p m m' -> 0 <= a -> a + 8 < 2 ^ 32 -> a + 8 <= p \/ p + 8 <= a ->
  load32 m' a = load32 m a /\ load32 m' (a + 4) = load32 m (a + 4).
Proof. intros H Ha Hb Hd. split; apply ld_same; try lia; intros x Hx; apply H; lia. Qed.

Definition linked (m : mem) (p bp n : Z) (L1 L2 : list (Z * Z)) (top : Z) (m2 : mem) : Prop :=
  only_header p m m2 /\ exists L', run m2 lo L' top /\ seg m2 base L'.*1 base /\ load32 m2 (base + 4) = 0 /\ p ∈ base :: L'.*1 /\
    (forall x, covers L' x <-> covers (L1 ++ L2) x \/ bp <= x < bp + 8 * n) /\
    (exists a k, (a, k) ∈ L' /\ n <= k) /\ (length L' <= 1 + length L1 + length L2)%nat.

(** Another pointer at the end of a chain from base. *)
Lemma set_end m L1 bp v q0 (p := end_of base L1.*1) (m' := store32 m p v) :
  run m lo L1 bp -> bp <= KERNBASE -> seg m base L1.*1 q0 -> load32 m (base + 4) = 0 -> 0 <= v < 2 ^ 32 ->
  only_header p m m' /\ run m' lo L1 bp /\ seg m' base L1.*1 v /\ load32 m' (base + 4) = 0 /\ 0 < p /\ p + 8 <= bp.
Proof.
  unfold KERNBASE. intros R1 Hbp S1 Hb Hv. destruct base_ok as [Hb0 Hb1]. pose proof (run_le _ _ _ _ R1).
  assert (forall a, a ∈ base :: L1.*1 -> a <> p -> 0 < a /\ a + 8 <= p) as Hbefore.
  { subst p m'. destruct L1 as [|[p np] L1 _] using rev_ind; [by intros a ->%list_elem_of_singleton|].
    apply blocks_app in R1 as (R1 & _ & _ & _). rewrite fmap_app. cbn [fmap list_fmap fst]. rewrite end_of_app.
    pose proof (run_le _ _ _ _ R1). intros a [->|[Ha| ->%list_elem_of_singleton]%elem_of_app]%elem_of_cons Hne; [unfold end_of; cbn; lia| |done].
    apply (run_node _ _ _ _ _ R1) in Ha. unfold end_of. cbn. lia. }
  assert (p + 8 <= bp /\ 0 < p) as [Hp Hp0].
  { pose proof (end_of_in base L1.*1) as [E|Hin]%elem_of_cons; [fold p in E; lia|fold p in Hin].
    apply (run_node _ _ _ _ _ R1) in Hin. lia. }
  assert (only_header p m m') as Ho by (intros x Hx; apply st_out; lia).
  assert (forall a, a ∈ base :: L1.*1 -> load32 m' (a + 4) = load32 m (a + 4)) as Hsize.
  { intros a Ha. destruct (decide (a = p)) as [->|Hne]; [apply ld_st_ne; lia|]. destruct (Hbefore a Ha Hne). apply (only_header_ld p); [done|lia|lia|lia]. }
  split_and!; try done.
  - eapply run_frame; [|exact R1]. intros a Ha. apply Hsize. by right.
  - eapply seg_new_end; [| | |exact S1].
    + intros x Hx Hne. destruct (Hbefore x Hx Hne). apply ld_st_ne; lia.
    + apply ld_st_eq; lia.
    + apply list.NoDup_cons. split; [|by eapply run_NoDup]. intros Hin. apply (run_node _ _ _ _ _ R1) in Hin. lia.
  - rewrite Hsize; [done|left].
Qed.

Lemma run_above m m' p lo' L top : only_header p m m' -> run m lo' L top -> p + 8 <= lo' -> 0 < p -> top <= KERNBASE -> run m' lo' L top.
Proof.
  unfold KERNBASE. intros O R Hp Hp0 Ht. eapply run_frame; [|exact R]. intros a Ha. apply (run_node _ _ _ _ _ R) in Ha. apply (only_header_ld p); [done|lia|lia|lia].
Qed.
Lemma seg_above m m' p lo' L top b q : only_header p m m' -> run m lo' L top -> p + 8 <= lo' -> p + 8 <= b <= KERNBASE -> 0 < p -> top <= KERNBASE ->
  seg m b L.*1 q -> seg m' b L.*1 q.
Proof.
  unfold KERNBASE. intros O R Hp Hb Hp0 Ht. apply seg_frame. intros x [->|Hx]%elem_of_cons; [apply (only_header_ld p); [done|lia|lia|lia]|].
  apply (run_node _ _ _ _ _ R) in Hx. apply (only_header_ld p); [done|lia|lia|lia].
Qed.

Lemma link_plain m bp n L1 L2 top q0 (p := end_of base L1.*1) :
  run m lo L1 bp -> 1 <= n -> load32 m (bp + 4) = n -> run m (bp + 8 * n) L2 top -> top <= KERNBASE ->
  seg m base L1.*1 q0 -> seg m bp L2.*1 base -> load32 m (base + 4) = 0 -> linked m p bp n L1 L2 top (store32 m p bp).
Proof.
  intros R1 Hn Hsz R2 Ht S1 S2 Hb. destruct base_ok as [Hb0 Hb1]. pose proof (run_le _ _ _ _ R1). pose proof (run_le _ _ _ _ R2).
  destruct (set_end m L1 bp bp q0 R1 ltac:(lia) S1 Hb ltac:(unfold KERNBASE in *; lia)) as (O & R1' & S1' & Hb' & Hp0 & Hp). fold p in O, R1', S1', Hb', Hp0, Hp.
  split; [done|]. exists (L1 ++ (bp, n) :: L2). split_and!.
  - apply blocks_app. split_and!; [done|done| |by eapply run_above; eauto; lia].
    rewrite <- Hsz. unfold KERNBASE in *. apply (only_header_ld p); [done|lia|lia|lia].
  - rewrite fmap_app. cbn [fmap list_fmap fst]. apply seg_app. split; [done|]. by eapply seg_above; eauto; lia.
  - done.
  - rewrite fmap_app, app_comm_cons. apply elem_of_app. left. apply end_of_in.
  - intros x. rewrite !covers_app, covers_cons. tauto.
  - exists bp, n. split; [|lia]. apply elem_of_app. right. left.
  - rewrite length_app. cbn. lia.
Qed.

Lemma link_join m bp n L1 p np L2 top q0 :
  run m lo (L1 ++ [(p, np)]) bp -> 1 <= n -> load32 m (bp + 4) = n -> run m (bp + 8 * n) L2 top -> top <= KERNBASE ->
  seg m base (L1 ++ [(p, np)]).*1 q0 -> seg m bp L2.*1 base -> load32 m (base + 4) = 0 -> p + 8 * np = bp ->
  linked m p bp n (L1 ++ [(p, np)]) L2 top (store32 (store32 m (p + 4) (np + n)) p (load32 m bp)).
Proof.
  unfold KERNBASE. intros R1 Hn Hsz R2 Ht S1 S2 Hb E. destruct base_ok as [Hb0 Hb1].
  apply blocks_app in R1 as (R1 & Hnp & Hsp & _). pose proof (run_le _ _ _ _ R1). pose proof (run_le _ _ _ _ R2).
  rewrite fmap_app in S1. cbn [fmap list_fmap fst] in S1. apply seg_app in S1 as [S1 _].
  set (m2 := store32 _ p _). assert (only_header p m m2) as Ho by (intros x Hx; unfold m2; rewrite !st_out by lia; done).
  assert (forall a, 0 <= a -> a + 8 < 2 ^ 32 -> a + 8 <= p \/ p + 8 <= a -> load32 m2 a = load32 m a /\ load32 m2 (a + 4) = load32 m (a + 4)) as Hfr
    by (intros; by apply (only_header_ld p)).
  split; [done|]. exists (L1 ++ (p, np + n) :: L2). split_and!.
  - apply blocks_app. split_and!.
    + eapply run_frame; [|exact R1]. intros a Ha. apply (run_node _ _ _ _ _ R1) in Ha. apply Hfr; lia.
    + lia.
    + unfold m2. rewrite ld_st_ne, ld_st_eq by lia. done.
    + replace (p + 8 * (np + n)) with (bp + 8 * n) by lia. eapply run_frame; [|exact R2].
      intros a Ha. apply (run_node _ _ _ _ _ R2) in Ha. apply Hfr; lia.
  - rewrite fmap_app. cbn [fmap list_fmap fst]. apply seg_app. split.
    + eapply seg_frame; [|exact S1]. intros x [->|Hx]%elem_of_cons; [apply Hfr; lia|]. apply (run_node _ _ _ _ _ R1) in Hx. apply Hfr; lia.
    + eapply seg_head; [exact S2| |].
      * unfold m2. apply ld_st_eq; [lia|lia|]. apply (ptr_range _ _ _ _ _ S2 R2); unfold KERNBASE; lia.
      * intros x Hx. apply (run_node _ _ _ _ _ R2) in Hx. apply Hfr; lia.
  - destruct (Hfr base) as [_ ->]; [lia|lia|lia|done].
  - rewrite fmap_app. right. apply elem_of_app. right. left.
  - intros x. rewrite !covers_app, !covers_cons. pose proof (covers_nil x). intuition lia.
  - exists p, (np + n). split; [|lia]. apply elem_of_app. right. left.
  - rewrite !length_app. cbn. lia.
Qed.

Lemma link_prev_ok m bp n L1 L2 top q0 (p := end_of base L1.*1) :
  run m lo L1 bp -> 1 <= n -> load32 m (bp + 4) = n -> run m (bp + 8 * n) L2 top -> top <= KERNBASE ->
  seg m base L1.*1 q0 -> seg m bp L2.*1 base -> load32 m (base + 4) = 0 -> linked m p bp n L1 L2 top (link_prev m p bp).
Proof.
  intros R1 Hn Hsz R2 Ht S1 S2 Hb. pose proof base_ok as [Hb0 Hb1]. pose proof (run_le _ _ _ _ R1). pose proof (run_le _ _ _ _ R2).
  unfold link_prev, hdr, sizeof_header. unfold KERNBASE in Ht. destruct (Z.eqb_spec (u32 (p + 8 * load32 m (p + 4))) bp) as [E|E]; [|by eapply link_plain].
  subst p. destruct L1 as [|[p np] L1 _] using rev_ind.
  - change (end_of base ([] : list (Z * Z)).*1) with base in E. rewrite Hb, u32_small in E by lia. lia.
  - assert (end_of base (L1 ++ [(p, np)]).*1 = p) as Ep by (rewrite fmap_app; cbn [fmap list_fmap fst]; by rewrite end_of_app).
    rewrite Ep in *. pose proof R1 as (R1' & Hnp & Hsp & Hle)%blocks_app. cbn [run] in Hle. pose proof (run_le _ _ _ _ R1').
    rewrite Hsp, Hsz in *. rewrite u32_small in E by lia. by eapply link_join.
Qed.

(** The two halves of free once its loop has found [p]. *)
Definition free_join (bp p : Z) : M ust unit :=
  q <- getptr p ;;
  n <- getsize bp ;;
  (if hdr bp n =? q then
     nq <- getsize q ;;
     setsize bp (u32 (n + nq)) ;;
     r <- getptr q ;;
     setptr bp r
   else setptr bp q).
Definition free_link (bp p : Z) : M ust unit :=
  np <- getsize p ;;
  (if hdr p np =? bp then
     n <- getsize bp ;;
     setsize p (u32 (np + n)) ;;
     r <- getptr bp ;;
     setptr p r
   else setptr p bp) ;;
  set_freep p.

Lemma free_eq ap s : free ap s =
  (f <- gets fuel ;; p <- gets freep ;; p <- free_loop f (u32 (ap - sizeof_header)) p ;; free_join (u32 (ap - sizeof_header)) p ;; free_link (u32 (ap - sizeof_header)) p) s.
Proof.
  unfold free, free_join, free_link, bind, gets. destruct (free_loop _ _ _ s) as [p s1| | | |]; try done.
Qed.

Lemma free_join_mem bp p s n :
  load32 (umem s) (bp + 4) = n -> 0 <= bp -> bp + 8 < 2 ^ 32 ->
  (hdr bp n = load32 (umem s) p -> let q := load32 (umem s) p in
     bp + 8 <= q /\ q + 8 < 2 ^ 32 /\ 0 <= n + load32 (umem s) (q + 4) < 2 ^ 32) ->
  free_join bp p s = Ret tt (mkust (join_next (umem s) bp n (load32 (umem s) p)) (freep s) (brk s)).
Proof.
  intros Hn H0 H1 HR. unfold free_join, join_next, getptr, getsize, setptr, setsize, bind, gets, modify.
  rewrite !(u32_small (bp + 4)), Hn by lia. destruct (Z.eqb_spec (hdr bp n) (load32 (umem s) p)) as [E|E]; [|done].
  destruct (HR E) as (Hq & Hq' & Hs). rewrite !(u32_small (load32 (umem s) p + 4)), (u32_small (n + _)) by lia. cbn [umem freep brk].
  by rewrite ld_st_ne by lia.
Qed.

Lemma free_link_mem bp p s :
  0 <= p -> p + 8 <= bp -> bp + 8 < 2 ^ 32 ->
  (hdr p (load32 (umem s) (p + 4)) = bp -> 0 <= load32 (umem s) (p + 4) + load32 (umem s) (bp + 4) < 2 ^ 32) ->
  free_link bp p s = Ret tt (mkust (link_prev (umem s) p bp) p (brk s)).
Proof.
  intros H0 H1 H2 HL. unfold free_link, link_prev, getptr, getsize, setptr, setsize, set_freep, bind, gets, modify.
  rewrite !(u32_small (p + 4)), !(u32_small (bp + 4)) by lia.
  destruct (Z.eqb_spec (hdr p (load32 (umem s) (p + 4))) bp) as [E|E]; [|done].
  rewrite (u32_small (load32 (umem s) (p + 4) + _)) by (by apply HL). cbn [umem freep brk]. by rewrite ld_st_ne by lia.
Qed.

(** The bytes of the allocated blocks are as they were. *)
Definition kept (A : gmap Z Z) (m m' : mem) : Prop := forall b k x, A !! b = Some k -> b <= x < b + 8 * k -> m' x = m x.

Lemma free_finds s L A bp n L1 L2 (p := end_of base L1.*1) :
  heap s L A -> L = L1 ++ L2 -> run (umem s) lo L1 bp -> run (umem s) (bp + 8 * n) L2 (brk s) -> 1 <= n ->
  free_loop (fuel s) bp (freep s) s = Ret p s.
Proof.
  intros Hp -> R1 R2 Hn.
  destruct (seg_rotate _ _ _ _ (hp_ring _ _ _ Hp) (hp_freep _ _ _ Hp)) as (l & Sl & Pl).
  assert (p ∈ freep s :: l) as (W1 & W2 & EW)%list_elem_of_split.
  { rewrite Pl. rewrite fmap_app, app_comm_cons. apply elem_of_app. left. apply end_of_in. }
  assert (NoDup (freep s :: l)) as Hnd.
  { rewrite Pl. apply list.NoDup_cons. split; [|eapply run_NoDup, (hp_run _ _ _ Hp)].
    intros Hin. apply (run_node _ _ _ _ _ (hp_run _ _ _ Hp)) in Hin. lia. }
  assert (forall y, y ∈ freep s :: l -> stop (umem s) bp y = true <-> y = p) as Hst.
  { intros y Hy. rewrite Pl in Hy. eapply stop_iff; [exact R1|exact R2|done|apply Hp|done]. }
  eapply free_walk; [exact Sl|exact EW| | |].
  - intros y Hy. apply not_true_iff_false. intros E. apply Hst in E; [|rewrite EW; apply elem_of_app; by left]. subst y.
    rewrite EW in Hnd. apply NoDup_app in Hnd as (_ & Hnd & _). apply (Hnd p Hy). left.
  - apply Hst; [|done]. rewrite EW. apply elem_of_app. right. left.
  - pose proof (run_length _ _ _ _ (hp_run _ _ _ Hp)) as Hlen. apply Permutation_length in Pl. rewrite EW in Pl. unfold fuel.
    pose proof (hp_brk _ _ _ Hp). cbn in Pl. rewrite length_fmap, !length_app in *. cbn in Pl. lia.
Qed.

Lemma ring_split m (L1 L2 : list (Z * Z)) : seg m base (L1 ++ L2).*1 base ->
  exists q, seg m base L1.*1 q /\ seg m (end_of base L1.*1) L2.*1 base.
Proof.
  rewrite fmap_app. destruct L2 as [|[q nq] L2]; cbn [fmap list_fmap fst].
  - rewrite app_nil_r. intros Hs. exists base. split; [done|]. by apply seg_end in Hs.
  - intros [H1 H2]%seg_app. exists q. split; [done|]. split; [by apply seg_end in H1|done].
Qed.

(** The header a chain ends at is below the block that follows. *)
Lemma end_below m (L1 : list (Z * Z)) bp : run m lo L1 bp -> load32 m (base + 4) = 0 -> let p := end_of base L1.*1 in
  0 < p /\ p + 8 <= bp /\ 0 <= load32 m (p + 4) /\ 8 * load32 m (p + 4) <= bp /\ (p = base \/ forall x, p <= x < p + 8 -> covers L1 x).
Proof.
  intros R Hb p. pose proof (run_le _ _ _ _ R). destruct base_ok as [Hb0 Hb1].
  pose proof (end_of_in base L1.*1) as [E|Hin]%elem_of_cons; [fold p in E|fold p in Hin].
  - rewrite E, Hb. split_and!; lia || by left.
  - apply list_elem_of_fmap in Hin as ([p' np] & Ep & Hin). cbn in Ep. rewrite Ep.
    destruct (run_blk _ _ _ _ _ _ R Hin) as (? & ? & -> & ?). split_and!; try lia. right. intros x Hx. exists p', np. split; [done|lia].
Qed.

Lemma free_ok s L A a n : heap s L A -> A !! a = Some n ->
  exists m' p L', free (a + 8) s = Ret tt (mkust m' p (brk s)) /\ heap (mkust m' p (brk s)) L' (delete a A) /\
    kept (delete a A) (umem s) m' /\ (exists b k, (b, k) ∈ L' /\ n <= k) /\ (length L' <= 1 + length L)%nat.
Proof.
  intros Hp Ha. destruct (hp_used _ _ _ Hp a n Ha) as (Hlo & Hn & Htop & Hsz & Hc). destruct base_ok as [Hb0 Hb1].
  pose proof (hp_brk _ _ _ Hp) as Hbrk. unfold KERNBASE in Hbrk. set (m := umem s) in *.
  destruct (run_split m lo L (brk s) a n (hp_run _ _ _ Hp) Hlo Hn Htop Hc) as (L1 & L2 & EL & R1 & R2).
  pose proof (hp_ring _ _ _ Hp) as Ring. fold m in Ring. rewrite EL in Ring. apply ring_split in Ring as (q0 & S1 & S2). set (p := end_of base L1.*1) in *.
  destruct (end_below m L1 a R1 (hp_base _ _ _ Hp)) as (Hp0 & Hpa & _ & _ & Hpc). fold p in Hp0, Hpa, Hpc.
  destruct (join_next_ok m a n L2 (brk s) p Hlo Hn Hsz R2 ltac:(unfold KERNBASE; lia) S2) as (n' & L2' & Hnn & Hsz1 & S21 & R21 & O1 & C1 & Len).
  set (m1 := join_next m a n (load32 m p)) in *. pose proof (run_le _ _ _ _ R21) as Htop1.
  assert (forall b, 0 <= b -> b + 8 <= a -> load32 m1 b = load32 m b /\ load32 m1 (b + 4) = load32 m (b + 4)) as Hlow
    by (intros; apply (only_header_ld a); [exact O1|lia|lia|lia]).
  assert (run m1 lo L1 a) as R11.
  { eapply run_frame; [|exact R1]. intros b Hb. apply (run_node _ _ _ _ _ R1) in Hb. apply Hlow; lia. }
  assert (seg m1 base L1.*1 q0) as S11.
  { eapply seg_frame; [|exact S1]. intros b [->|Hb]%elem_of_cons; [apply Hlow; lia|]. apply (run_node _ _ _ _ _ R1) in Hb. apply Hlow; lia. }
  assert (load32 m1 (base + 4) = 0) as Hb4 by (rewrite (proj2 (Hlow base ltac:(lia) ltac:(lia))); apply Hp).
  destruct (link_prev_ok m1 a n' L1 L2' (brk s) q0 R11 ltac:(lia) Hsz1 R21 ltac:(unfold KERNBASE; lia) S11 S21 Hb4)
    as (O2 & L' & R' & S' & B' & Pin & C2 & Big & Len'). fold p in O2, Pin, R', S', B'. set (m2 := link_prev m1 p a) in *.
  destruct (end_below m1 L1 a R11 Hb4) as (_ & _ & Hnp0 & Hnp & _). fold p in Hnp0, Hnp.
  assert (kept (delete a A) m m2) as K.
  { intros b k x Hb Hx. apply lookup_delete_Some in Hb as [Hne Hb]. destruct (hp_used _ _ _ Hp b k Hb) as (Hb1' & Hb2 & Hb3 & _ & Hbc).
    rewrite O2, O1; [done| |].
    - destruct (hp_sep _ _ _ Hp a b n k Hne Ha Hb); lia.
    - destruct Hpc as [->|Hpc]; [lia|]. intros Hx'. apply (Hbc x Hx). rewrite EL. apply covers_app. left. by apply Hpc. }
  exists m2, p, L'. split; [|split; [|split; [done|split]]].
  - rewrite free_eq. replace (u32 (a + 8 - sizeof_header)) with a by (unfold sizeof_header; rewrite u32_small; lia).
    unfold bind at 1 2 3, gets. rewrite (free_finds s L A a n L1 L2) by done. fold p. unfold bind.
    rewrite (free_join_mem a p s n); [|done|lia|lia|].
    + fold m m1. cbn [umem freep brk]. rewrite free_link_mem; cbn [umem freep brk]; [done|lia|lia|lia|]. intros _. rewrite Hsz1. lia.
    + fold m. unfold hdr, sizeof_header. rewrite u32_small by lia. intros E. destruct L2 as [|[q nq] L2]; cbn [fmap list_fmap fst seg] in S2; [lia|].
      destruct S2 as [Eq _]. rewrite Eq in *. cbn [run] in R2. destruct R2 as (? & ? & -> & R2). apply run_le in R2. cbv zeta. lia.
  - constructor; cbn [umem freep brk]; try done.
    + intros b k Hb. pose proof Hb as [Hne Hb']%lookup_delete_Some. destruct (hp_used _ _ _ Hp b k Hb') as (Hb1' & Hb2 & Hb3 & Hb4' & Hbc).
      split_and!; try done.
      * rewrite <- Hb4'. apply ld_same; [lia|lia|]. intros x Hx. apply (K b k x Hb). lia.
      * intros x Hx. rewrite C2, covers_app. specialize (C1 x). specialize (Hbc x Hx). rewrite EL, covers_app in Hbc.
        pose proof (hp_sep _ _ _ Hp a b n k Hne Ha Hb'). intuition lia.
    + intros b c k k' Hne [_ Hb]%lookup_delete_Some [_ Hc']%lookup_delete_Some. by eapply (hp_sep _ _ _ Hp).
  - destruct Big as (b & k & ? & ?). exists b, k. split; [done|lia].
  - rewrite EL, length_app. lia.
Qed.

(** ** malloc *)

(** The block taken from the end of [p]. *)
Definition take_block (nunits n prevp p : Z) : M ust Z :=
  p <- (if n =? nunits then q <- getptr p ;; setptr prevp q ;; ret p
        else
          setsize p (n - nunits) ;;
          let p := hdr p (n - nunits) in
          setsize p nunits ;; ret p) ;;
  set_freep prevp ;;
  ret (hdr p 1).

Lemma seg_join m p l1 l2 q e : seg m p l1 q -> seg m (end_of p l1) l2 e -> seg m p (l1 ++ l2) e.
Proof.
  intros H1 H2. pose proof (seg_end _ _ _ _ H1) as E. destruct l2 as [|y l2]; cbn [seg] in H2.
  - rewrite app_nil_r. congruence.
  - destruct H2 as [Ey H2]. apply seg_app. split; [|done]. congruence.
Qed.

(** The allocated blocks stay, and one in the free area that [L'] leaves is added. *)
Lemma used_add s L L' A m' p a n : heap s L A -> kept A (umem s) m' -> lo <= a -> 1 <= n -> a + 8 * n <= brk s ->
  load32 m' (a + 4) = n -> (forall x, covers L' x -> covers L x) -> (forall x, a <= x < a + 8 * n -> covers L x /\ ~ covers L' x) ->
  run m' lo L' (brk s) -> seg m' base L'.*1 base -> load32 m' (base + 4) = 0 -> p ∈ base :: L'.*1 ->
  heap (mkust m' p (brk s)) L' (<[a := n]> A) /\ A !! a = None.
Proof.
  intros Hp K Ha Hn Ht Hsz Hsub Hnew R S B P. pose proof (hp_brk _ _ _ Hp) as Hbrk. unfold KERNBASE in Hbrk.
  assert (forall b k, A !! b = Some k -> b + 8 * k <= a \/ a + 8 * n <= b) as Hdis.
  { intros b k Hb. destruct (hp_used _ _ _ Hp b k Hb) as (H1 & H2 & H3 & _ & Hc).
    destruct (Z_le_gt_dec (b + 8 * k) a); [by left|]. destruct (Z_le_gt_dec (a + 8 * n) b); [by right|]. exfalso.
    apply (Hc (Z.max a b)); [lia|]. apply Hnew. lia. }
  assert (A !! a = None) as Hnone.
  { destruct (A !! a) as [k|] eqn:E; [|done]. destruct (hp_used _ _ _ Hp a k E) as (_ & H2 & _). destruct (Hdis a k E); lia. }
  split; [|done]. constructor; cbn [umem freep brk]; try done.
  - intros b k [[<- <-]|[Hne Hb]]%lookup_insert_Some.
    + split_and!; try done. intros x Hx. by apply Hnew.
    + destruct (hp_used _ _ _ Hp b k Hb) as (H1 & H2 & H3 & H4 & Hc). split_and!; try done.
      * rewrite <- H4. apply ld_same; [lia|lia|]. intros x Hx. apply (K b k x Hb). lia.
      * intros x Hx HL. apply (Hc x Hx). by apply Hsub.
  - intros b c k k' Hne [[<- <-]|[Hb1 Hb]]%lookup_insert_Some [[<- <-]|[Hc1 Hc]]%lookup_insert_Some; [done| | |by eapply (hp_sep _ _ _ Hp)].
    + destruct (Hdis c k' Hc); lia.
    + destruct (Hdis b k Hb); lia.
Qed.

Lemma heap_node s L A p : heap s L A -> p ∈ base :: L.*1 -> 0 < p /\ p + 8 <= KERNBASE.
Proof.
  intros Hp. pose proof (hp_brk _ _ _ Hp). destruct base_ok. intros [->|Hin%(run_node _ _ _ _ _ (hp_run _ _ _ Hp))]%elem_of_cons; lia.
Qed.

(** A write into the free area or into base. *)
Lemma kept_free s L A p m' : heap s L A -> only_header p (umem s) m' -> p ∈ base :: L.*1 -> kept A (umem s) m'.
Proof.
  intros Hp O Hin b k x Hb Hx. destruct (hp_used _ _ _ Hp b k Hb) as (H1 & H2 & H3 & _ & Hc). apply O. intros Hx'.
  apply elem_of_cons in Hin as [->|Hin]; [lia|]. apply list_elem_of_fmap in Hin as ([p' np] & Ep & Hin). cbn in Ep. subst p'.
  apply (Hc x Hx). exists p, np. split; [done|]. destruct (run_blk _ _ _ _ _ _ (hp_run _ _ _ Hp) Hin) as (? & ? & _). lia.
Qed.

Definition took (s : ust) (A : gmap Z Z) (nu r : Z) (s' : ust) : Prop :=
  exists L' a m' p, r = a + 8 /\ s' = mkust m' p (brk s) /\ A !! a = None /\ heap s' L' (<[a := nu]> A) /\ kept A (umem s) m'.

Lemma take_all s L A L1 x n L2 (prev := end_of base L1.*1) : heap s L A -> L = L1 ++ (x, n) :: L2 ->
  exists r s', take_block n n prev x s = Ret r s' /\ took s A n r s'.
Proof.
  intros Hp ->. pose proof (hp_run _ _ _ Hp) as R. apply blocks_app in R as (R1 & Hn & Hsz & R2).
  pose proof (hp_ring _ _ _ Hp) as S. rewrite fmap_app in S. cbn [fmap list_fmap fst] in S. apply seg_app in S as [S1 S2].
  pose proof (hp_brk _ _ _ Hp) as Hbrk. unfold KERNBASE in Hbrk. destruct base_ok as [Hb0 Hb1]. pose proof (run_le _ _ _ _ R1). pose proof (run_le _ _ _ _ R2).
  destruct (end_below (umem s) L1 x R1 (hp_base _ _ _ Hp)) as (Hp0 & Hpx & _ & _ & _). fold prev in Hp0, Hpx.
  pose proof (ptr_range _ _ _ _ _ S2 R2 ltac:(lia) ltac:(unfold KERNBASE; lia)) as Hr.
  set (m' := store32 (umem s) prev (load32 (umem s) x)).
  assert (prev ∈ base :: (L1 ++ (x, n) :: L2).*1) as Hin by (rewrite fmap_app, app_comm_cons; apply elem_of_app; left; apply end_of_in).
  destruct (set_end (umem s) L1 x (load32 (umem s) x) x R1 ltac:(unfold KERNBASE; lia) S1 (hp_base _ _ _ Hp) Hr) as (O & R1' & S1' & Hb' & _). fold prev m' in O, R1', S1', Hb'.
  assert (run m' (x + 8 * n) L2 (brk s)) as R2' by (eapply run_above; eauto; unfold KERNBASE; lia).
  destruct (used_add s (L1 ++ (x, n) :: L2) (L1 ++ L2) A m' prev x n Hp) as [Hh Hnone]; try done; try lia.
  - by eapply kept_free.
  - rewrite <- Hsz. apply (only_header_ld prev); [done|lia|lia|lia].
  - intros y. rewrite !covers_app, covers_cons. tauto.
  - intros y Hy. rewrite !covers_app, covers_cons. split; [by right; left|].
    intros [(b & k & Hbk & Hyb)|(b & k & Hbk & Hyb)].
    + destruct (run_blk _ _ _ _ _ _ R1 Hbk) as (_ & _ & _ & ?). lia.
    + destruct (run_blk _ _ _ _ _ _ R2 Hbk) as (? & _). lia.
  - eapply run_join; [exact R1'|]. eapply run_lo; [exact R2'|lia].
  - rewrite fmap_app. eapply seg_join; [exact S1'|]. eapply (seg_head _ _ x); [exact S2|by apply ld_st_eq; lia|].
    intros y Hy. apply (run_node _ _ _ _ _ R2) in Hy. apply (only_header_ld prev); [done|lia|lia|lia].
  - rewrite fmap_app, app_comm_cons. apply elem_of_app. left. apply end_of_in.
  - exists (x + 8), (mkust m' prev (brk s)). split.
    + unfold take_block, getptr, setptr, set_freep, bind, gets, modify, ret. rewrite Z.eqb_refl. unfold hdr, sizeof_header. by rewrite u32_small by lia.
    + exists (L1 ++ L2), x, m', prev. split_and!; try done. by eapply kept_free.
Qed.

Lemma take_part s L A L1 x n L2 nu (prev := end_of base L1.*1) : heap s L A -> L = L1 ++ (x, n) :: L2 -> 1 <= nu < n ->
  exists r s', take_block nu n prev x s = Ret r s' /\ took s A nu r s'.
Proof.
  intros Hp -> Hnu. pose proof (hp_run _ _ _ Hp) as R. apply blocks_app in R as (R1 & Hn & Hsz & R2).
  pose proof (hp_ring _ _ _ Hp) as S.
  pose proof (hp_brk _ _ _ Hp) as Hbrk. unfold KERNBASE in Hbrk. destruct base_ok as [Hb0 Hb1]. pose proof (run_le _ _ _ _ R1). pose proof (run_le _ _ _ _ R2).
  set (a := x + 8 * (n - nu)). set (m' := store32 (store32 (umem s) (x + 4) (n - nu)) (a + 4) nu).
  assert (forall y, ~ (x + 4 <= y < x + 8) -> ~ (a + 4 <= y < a + 8) -> m' y = umem s y) as O by (intros y ? ?; unfold m'; rewrite !st_out by lia; done).
  assert (forall y, 0 <= y -> y + 8 < 2 ^ 32 -> y + 8 <= x \/ x + 8 * n <= y -> load32 m' (y + 4) = load32 (umem s) (y + 4)) as Hsize
    by (intros y ? ? ?; apply ld_same; try lia; intros z Hz; apply O; lia).
  assert (kept A (umem s) m') as K.
  { intros b k y Hb Hy. destruct (hp_used _ _ _ Hp b k Hb) as (_ & _ & _ & _ & Hc). specialize (Hc y Hy). rewrite covers_app, covers_cons in Hc.
    apply O; intros Hyy; apply Hc; right; left; lia. }
  destruct (used_add s (L1 ++ (x, n) :: L2) (L1 ++ (x, n - nu) :: L2) A m' prev a nu Hp) as [Hh Hnone]; try done; try lia.
  - unfold m'. apply ld_st_eq; lia.
  - intros y. rewrite !covers_app, !covers_cons. intuition lia.
  - intros y Hy. rewrite !covers_app, !covers_cons. split; [right; left; lia|].
    intros [(b & k & Hbk & Hyb)|[?|(b & k & Hbk & Hyb)]]; [|lia|].
    + destruct (run_blk _ _ _ _ _ _ R1 Hbk) as (_ & _ & _ & ?). lia.
    + destruct (run_blk _ _ _ _ _ _ R2 Hbk) as (? & _). lia.
  - apply blocks_app. split_and!.
    + eapply run_frame; [|exact R1]. intros b Hb. apply (run_node _ _ _ _ _ R1) in Hb. apply Hsize; lia.
    + lia.
    + unfold m'. rewrite ld_st_ne, ld_st_eq by lia. done.
    + eapply run_lo; [|instantiate (1 := x + 8 * n); lia]. eapply run_frame; [|exact R2].
      intros b Hb. apply (run_node _ _ _ _ _ R2) in Hb. apply Hsize; lia.
  - rewrite fmap_app in S |- *. cbn [fmap list_fmap fst] in S |- *. eapply seg_frame; [|exact S].
    intros y Hy. assert (y + 8 <= x \/ y = x \/ x + 8 * n <= y /\ y + 8 <= brk s) as Hyy.
    { apply elem_of_cons in Hy as [->|[Hy|[->|Hy]%elem_of_cons]%elem_of_app]; [lia| |lia|].
      - apply (run_node _ _ _ _ _ R1) in Hy. lia.
      - apply (run_node _ _ _ _ _ R2) in Hy. lia. }
    destruct (heap_node s (L1 ++ (x, n) :: L2) A y Hp) as [Hy0 Hy1]; [rewrite fmap_app; exact Hy|]. unfold KERNBASE in Hy1.
    apply ld_same; [lia|lia|]. intros z Hz. apply O; lia.
  - rewrite (proj1 (conj (Hsize base ltac:(lia) ltac:(lia) ltac:(lia)) I)). apply Hp.
  - rewrite fmap_app, app_comm_cons. apply elem_of_app. left. apply end_of_in.
  - exists (a + 8), (mkust m' prev (brk s)). split.
    + unfold take_block, setsize, set_freep, bind, modify, ret. destruct (Z.eqb_spec n nu); [lia|]. unfold hdr, sizeof_header.
      rewrite (u32_small (x + 4)), (u32_small (x + 8 * _)) by lia. fold a. rewrite !u32_small by lia. by rewrite Z.mul_1_r.
    + by exists (L1 ++ (x, n - nu) :: L2), a, m', prev.
Qed.

Lemma take_block_ok s L A L1 x n L2 nu : heap s L A -> L = L1 ++ (x, n) :: L2 -> 1 <= nu <= n ->
  exists r s', take_block nu n (end_of base L1.*1) x s = Ret r s' /\ took s A nu r s'.
Proof.
  intros Hp EL Hn. destruct (decide (nu = n)) as [->|]; [by eapply take_all|]. eapply take_part; [done|done|lia].
Qed.

(** A node of the search, reached from [prevp]. *)
Lemma visit s L A prevp nu y : heap s L A -> 1 <= nu -> prevp ∈ base :: L.*1 -> load32 (umem s) prevp = y -> y ∈ base :: L.*1 ->
  (load32 (umem s) (y + 4) < nu /\ forall n, (y, n) ∈ L -> n < nu) \/
  (exists L1 n L2, L = L1 ++ (y, n) :: L2 /\ nu <= n /\ load32 (umem s) (y + 4) = n /\ prevp = end_of base L1.*1).
Proof.
  intros Hp Hnu Hprev Ey Hy. pose proof (hp_run _ _ _ Hp) as R. pose proof (hp_ring _ _ _ Hp) as S. destruct base_ok as [Hb0 Hb1].
  destruct (Z_lt_le_dec (load32 (umem s) (y + 4)) nu) as [Hlt|Hle].
  - left. split; [done|]. intros n Hin. destruct (run_blk _ _ _ _ _ _ R Hin) as (_ & _ & <- & _). done.
  - right. apply elem_of_cons in Hy as [->|Hy]; [rewrite (hp_base _ _ _ Hp) in Hle; lia|].
    apply list_elem_of_fmap in Hy as ([y' n] & E & Hin). cbn in E. subst y'.
    apply list_elem_of_split in Hin as (L1 & L2 & EL). exists L1, n, L2. rewrite EL in R, S. pose proof R as (R1 & _ & Hsz & R2)%blocks_app.
    split_and!; [done|lia|done|]. eapply seg_inj; [exact S| |rewrite <- EL; exact Hprev| |].
    + apply NoDup_app. split_and!; [by eapply run_NoDup| |apply NoDup_singleton].
      intros z Hz ->%list_elem_of_singleton. apply (run_node _ _ _ _ _ R) in Hz. lia.
    + rewrite fmap_app, app_comm_cons. apply elem_of_app. left. apply end_of_in.
    + rewrite fmap_app in S. cbn [fmap list_fmap fst] in S. apply seg_app in S as [S1 _]. apply seg_end in S1. congruence.
Qed.

(** The search from [prevp]: a block that is large enough is taken, or the search comes round
    to freep without one. *)
Lemma wp_walk k nu prevp ns s L A Q : heap s L A -> 1 <= nu -> seg (umem s) prevp ns (freep s) -> prevp ∈ base :: L.*1 ->
  (forall x, x ∈ ns -> x ∈ base :: L.*1 /\ x <> freep s) -> (length ns < k)%nat ->
  (forall r s', took s A nu r s' -> Q r s') ->
  (forall k', (k <= k' + length ns + 1)%nat -> (forall a n, (a, n) ∈ L -> a ∈ ns ++ [freep s] -> n < nu) ->
     wp (p <- morecore grows nu ;; if p =? 0 then ret 0 else q <- getptr p ;; malloc_loop grows k' nu p q) Q s) ->
  wp (malloc_loop grows k nu prevp (load32 (umem s) prevp)) Q s.
Proof.
  intros Hp Hnu. revert k prevp. induction ns as [|x ns IH]; intros k prevp Hs Hprev Hns Hk Htake Hmore;
    (destruct k as [|k]; [cbn in Hk; lia|]); cbn [malloc_loop seg length] in *.
  - assert (freep s ∈ base :: L.*1) as Hy by apply Hp. destruct (heap_node _ _ _ _ Hp Hy) as [Hy0 Hy1]. unfold KERNBASE in Hy1.
    unfold getsize at 1. wp_steps. rewrite Hs, (u32_small (freep s + 4)) by lia.
    destruct (visit s L A prevp nu (freep s) Hp Hnu Hprev Hs Hy) as [[Hlt Hno]|(L1 & n & L2 & EL & Hle & -> & ->)].
    + destruct (Z.leb_spec nu (load32 (umem s) (freep s + 4))); [lia|]. wp_steps. rewrite Z.eqb_refl. apply Hmore; [lia|].
      intros a n Hin ->%list_elem_of_singleton. by apply Hno.
    + destruct (Z.leb_spec nu n); [|lia]. destruct (take_block_ok s L A L1 (freep s) n L2 nu Hp EL ltac:(lia)) as (r & s' & E & T).
      eapply wp_of_run; [exact E|by apply Htake].
  - destruct Hs as [Ex Hs]. destruct (Hns x ltac:(left)) as [Hy Hne]. destruct (heap_node _ _ _ _ Hp Hy) as [Hy0 Hy1]. unfold KERNBASE in Hy1.
    unfold getsize at 1. wp_steps. rewrite Ex, (u32_small (x + 4)) by lia.
    destruct (visit s L A prevp nu x Hp Hnu Hprev Ex Hy) as [[Hlt Hno]|(L1 & n & L2 & EL & Hle & -> & ->)].
    + destruct (Z.leb_spec nu (load32 (umem s) (x + 4))); [lia|]. wp_steps. destruct (Z.eqb_spec x (freep s)) as [|_]; [done|].
      unfold getptr at 1. wp_steps. apply IH; [done|done|intros z Hz; apply Hns; by right|lia|done|].
      intros k' Hk' Hsmall. apply Hmore; [lia|]. intros a n Hin [->|Ha]%elem_of_cons; [by apply Hno|by eapply Hsmall].
    + destruct (Z.leb_spec nu n); [|lia]. destruct (take_block_ok s L A L1 x n L2 nu Hp EL ltac:(lia)) as (r & s' & E & T).
      eapply wp_of_run; [exact E|by apply Htake].
Qed.

(** The kernel never lets the process reach KERNBASE (allocuvm in vm.c). *)
Hypothesis grows_ok : forall b n, grows b n = true -> b + n <= KERNBASE.

(** What morecore asks for. *)
Definition asked (nu : Z) : Z := 8 * Z.max nu 4096.

(** The memory sbrk grants, as an allocated block. *)
Lemma heap_grow s L A n : heap s L A -> 1 <= n -> brk s + 8 * n <= KERNBASE ->
  let s' := mkust (store32 (umem s) (brk s + 4) n) (freep s) (brk s + 8 * n) in
  heap s' L (<[brk s := n]> A) /\ A !! brk s = None /\ kept A (umem s) (umem s').
Proof.
  intros Hp Hn Hk s'. unfold KERNBASE in Hk. pose proof (hp_brk _ _ _ Hp) as Hbrk. unfold KERNBASE in Hbrk. destruct base_ok as [Hb0 Hb1].
  assert (forall y, ~ (brk s + 4 <= y < brk s + 8) -> umem s' y = umem s y) as O by (intros y Hy; apply st_out; lia).
  assert (forall y, 0 <= y -> y + 4 <= brk s -> load32 (umem s') y = load32 (umem s) y) as Hld by (intros; apply ld_same; try lia; intros; apply O; lia).
  assert (kept A (umem s) (umem s')) as K by (intros b k x Hb Hx; destruct (hp_used _ _ _ Hp b k Hb) as (? & ? & ? & _); apply O; lia).
  assert (A !! brk s = None) as Hnone.
  { destruct (A !! brk s) as [k|] eqn:E; [|done]. destruct (hp_used _ _ _ Hp _ _ E) as (? & ? & ? & _). lia. }
  split; [|done]. pose proof (hp_run _ _ _ Hp) as R. constructor; try change (brk s') with (brk s + 8 * n); try change (freep s') with (freep s).
  - unfold KERNBASE. lia.
  - eapply run_top; [|instantiate (1 := brk s); lia]. eapply run_frame; [|exact R]. intros a Ha. apply (run_node _ _ _ _ _ R) in Ha. apply Hld; lia.
  - eapply seg_frame; [|apply Hp]. intros x [->|Hx%(run_node _ _ _ _ _ R)]%elem_of_cons; apply Hld; lia.
  - rewrite Hld by lia. apply Hp.
  - apply Hp.
  - intros b k [[<- <-]|[Hne Hb]]%lookup_insert_Some.
    + split_and!; try lia; [apply ld_st_eq; lia|]. intros x Hx (a & k & Hin & Hxa). destruct (run_blk _ _ _ _ _ _ R Hin) as (_ & _ & _ & ?). lia.
    + destruct (hp_used _ _ _ Hp b k Hb) as (H1 & H2 & H3 & H4 & Hc). split_and!; try done; [lia|]. rewrite <- H4. apply Hld; lia.
  - intros b c k k' Hne [[<- <-]|[Hb1' Hb]]%lookup_insert_Some [[<- <-]|[Hc1 Hc]]%lookup_insert_Some; [done| | |by eapply (hp_sep _ _ _ Hp)].
    + destruct (hp_used _ _ _ Hp c k' Hc) as (? & ? & ? & _). lia.
    + destruct (hp_used _ _ _ Hp b k Hb) as (? & ? & ? & _). lia.
Qed.

Lemma ukept_trans A m1 m2 m3 : kept A m1 m2 -> kept A m2 m3 -> kept A m1 m3.
Proof. intros K1 K2 b k x Hb Hx. rewrite (K2 b k x Hb Hx). by apply (K1 b k). Qed.

Lemma morecore_ok s L A nu : heap s L A -> 1 <= nu -> 8 * nu < 2 ^ 31 ->
  if grows (brk s) (asked nu) then
    exists s' L', morecore grows nu s = Ret (freep s') s' /\ heap s' L' A /\ kept A (umem s) (umem s') /\ brk s <= brk s' /\
      (exists b k, (b, k) ∈ L' /\ nu <= k) /\ (length L' <= 1 + length L)%nat
  else morecore grows nu s = Ret 0 s.
Proof.
  intros Hp Hnu Hmax. pose proof (hp_brk _ _ _ Hp) as Hbrk. unfold KERNBASE in Hbrk. destruct base_ok as [Hb0 Hb1].
  unfold morecore, sbrk, bind, gets. set (n := if nu <? 4096 then 4096 else nu).
  assert (i32 (u32 (n * sizeof_header)) = asked nu /\ 8 * n = asked nu /\ 1 <= n /\ nu <= n) as (En & En8 & Hn & Hle).
  { unfold asked, sizeof_header, n. destruct (Z.ltb_spec nu 4096); rewrite u32_small, i32_small by lia; lia. }
  rewrite En. destruct (grows (brk s) (asked nu)) eqn:G; [|by destruct s].
  pose proof (grows_ok _ _ G) as Hk. unfold KERNBASE in Hk. rewrite <- En8 in *. cbn match beta.
  unfold modify, ret. destruct (Z.eqb_spec (brk s) (2 ^ 32 - 1)); [lia|].
  unfold setsize, modify. rewrite (u32_small (brk s + 8 * n)), (u32_small (brk s + 4)), (u32_small (brk s + sizeof_header)) by (unfold sizeof_header; lia).
  cbn [umem freep brk]. destruct (heap_grow s L A n Hp Hn ltac:(unfold KERNBASE; lia)) as (Hg & Hnone & K1).
  destruct (free_ok _ _ _ (brk s) n Hg (lookup_insert_eq _ _ _)) as (m' & p & L' & E & Hh & K2 & Big & Len).
  cbn [umem freep brk] in *. rewrite delete_insert_id in Hh, K2 by done. unfold sizeof_header. rewrite E.
  exists (mkust m' p (brk s + 8 * n)), L'. cbn [umem freep brk]. split_and!; try done; [by eapply ukept_trans|lia|].
  destruct Big as (b & k & ? & ?). exists b, k. split; [done|lia].
Qed.

(** malloc gave [n] units at [r]. *)
Definition got (s : ust) (A : gmap Z Z) (n r : Z) (s' : ust) : Prop :=
  exists L' a, r = a + 8 /\ A !! a = None /\ heap s' L' (<[a := n]> A) /\ kept A (umem s) (umem s') /\ brk s <= brk s'.

Lemma took_got s A n r s' : took s A n r s' -> got s A n r s'.
Proof. intros (L' & a & m' & p & -> & -> & ? & ? & ?). exists L', a. split_and!; done || (cbn; lia). Qed.

(** A search from freep itself. *)
Lemma wp_search k nu s L A Q : heap s L A -> 1 <= nu -> (length L < k)%nat ->
  (forall r s', took s A nu r s' -> Q r s') ->
  (forall k', (k <= k' + length L + 1)%nat -> (forall a n, (a, n) ∈ L -> n < nu) ->
     wp (p <- morecore grows nu ;; if p =? 0 then ret 0 else q <- getptr p ;; malloc_loop grows k' nu p q) Q s) ->
  wp (malloc_loop grows k nu (freep s) (load32 (umem s) (freep s))) Q s.
Proof.
  intros Hp Hnu Hk Htake Hmore. destruct (seg_rotate _ _ _ _ (hp_ring _ _ _ Hp) (hp_freep _ _ _ Hp)) as (l & Sl & Pl).
  assert (length l = length L) as Hl by (apply Permutation_length in Pl; cbn in Pl; rewrite length_fmap in Pl; lia).
  assert (NoDup (freep s :: l)) as Hnd.
  { rewrite Pl. apply list.NoDup_cons. split; [|eapply run_NoDup, (hp_run _ _ _ Hp)].
    intros Hin. apply (run_node _ _ _ _ _ (hp_run _ _ _ Hp)) in Hin. lia. }
  apply list.NoDup_cons in Hnd as [Hnd _].
  eapply wp_walk; [exact Hp|done|exact Sl|apply Hp| |lia|done|].
  - intros x Hx. split; [rewrite <- Pl; by right|]. by intros ->.
  - intros k' Hk' Hsmall. apply Hmore; [lia|]. intros a n Hin. eapply Hsmall; [exact Hin|].
    assert (a ∈ freep s :: l) as Ha by (rewrite Pl; right; apply list_elem_of_fmap; by exists (a, n)).
    rewrite elem_of_app. apply elem_of_cons in Ha as [->|?]; [right; left|by left].
Qed.

Lemma heap_fuel s L A : heap s L A -> (2 * length L + 8 <= fuel s)%nat.
Proof.
  intros Hp. pose proof (run_length _ _ _ _ (hp_run _ _ _ Hp)). pose proof (hp_brk _ _ _ Hp). unfold fuel. lia.
Qed.

Lemma wp_malloc_heap s L A nu Q : heap s L A -> 1 <= nu -> 8 * nu < 2 ^ 31 ->
  (forall r s', got s A nu r s' -> Q r s') -> (grows (brk s) (asked nu) = false -> Q 0 s) ->
  wp (malloc_loop grows (fuel s) nu (freep s) (load32 (umem s) (freep s))) Q s.
Proof.
  intros Hp Hnu Hmax Hgot Hno. pose proof (heap_fuel _ _ _ Hp) as Hf.
  eapply wp_search; [exact Hp|done|lia|intros r s' T; by apply Hgot, took_got|]. intros k Hk _.
  pose proof (morecore_ok s L A nu Hp Hnu Hmax) as Hm. apply wp_bind. destruct (grows (brk s) (asked nu)).
  - destruct Hm as (s' & L' & E & Hp' & K & Hb & (b & n & Hin & Hbig) & Len). eapply wp_of_run; [exact E|].
    destruct (heap_node _ _ _ _ Hp' (hp_freep _ _ _ Hp')) as [H0 _]. destruct (Z.eqb_spec (freep s') 0); [lia|].
    unfold getptr at 1. wp_steps. eapply wp_search; [exact Hp'|done|lia| |].
    + intros r s2 T%took_got. apply Hgot. destruct T as (L2 & a & ? & ? & ? & K2 & ?). exists L2, a. split_and!; try done; [by eapply ukept_trans|lia].
    + intros k' _ Hsmall. specialize (Hsmall b n Hin). lia.
  - eapply wp_of_run; [exact Hm|]. wp_steps. by apply Hno.
Qed.

(** The allocator in use, or not yet. *)
Definition ready (s : ust) (A : gmap Z Z) : Prop :=
  (exists L, heap s L A) \/ (freep s = 0 /\ A = ∅ /\ lo <= brk s <= KERNBASE).

Lemma units_ok nbytes : 0 <= nbytes < 2 ^ 31 - 16 ->
  1 <= units nbytes /\ 8 * units nbytes < 2 ^ 31 /\ nbytes + 8 <= 8 * units nbytes.
Proof.
  intros H. unfold units, sizeof_header. rewrite (u32_small (nbytes + 8 - 1)) by lia.
  pose proof (Z.div_mod (nbytes + 8 - 1) 8 ltac:(lia)). pose proof (Z.mod_pos_bound (nbytes + 8 - 1) 8 ltac:(lia)).
  rewrite u32_small by lia. lia.
Qed.

Lemma ready_init s : freep s = 0 -> lo <= brk s <= KERNBASE ->
  heap (mkust (store32 (store32 (umem s) base base) (base + 4) 0) base (brk s)) [] ∅.
Proof.
  intros _ Hb. unfold KERNBASE in Hb. destruct base_ok as [Hb0 Hb1]. constructor; cbn [umem freep brk]; try done.
  - cbn. lia.
  - cbn [fmap list_fmap seg]. rewrite ld_st_ne, ld_st_eq by lia. done.
  - apply ld_st_eq; lia.
  - left.
Qed.

Lemma malloc_ok s A nbytes : ready s A -> 0 <= nbytes < 2 ^ 31 - 16 ->
  exists r s', malloc base grows nbytes s = Ret r s' /\
    ((r = 0 /\ ready s' A /\ kept A (umem s) (umem s') /\ brk s' = brk s /\ grows (brk s) (asked (units nbytes)) = false) \/
     got s A (units nbytes) r s').
Proof.
  intros Hr Hn. destruct (units_ok nbytes Hn) as (U1 & U2 & U3). apply wp_run.
  unfold malloc. wp_steps. destruct Hr as [[L Hp]|(Hf & -> & Hb)].
  - destruct (heap_node _ _ _ _ Hp (hp_freep _ _ _ Hp)) as [H0 _]. destruct (Z.eqb_spec (freep s) 0); [lia|]. unfold getptr at 1. wp_steps.
    eapply wp_malloc_heap; [exact Hp|done|done|by right|]. intros G. left. split_and!; try done; [left; by exists L].
  - rewrite Hf, Z.eqb_refl. unfold set_freep, setptr, setsize, getptr at 1. wp_steps. cbn [umem freep brk].
    pose proof base_ok. unfold KERNBASE in Hb. rewrite (u32_small (base + 4)) by lia.
    pose proof (ready_init s Hf ltac:(unfold KERNBASE; lia)) as Hi. set (s1 := mkust _ base (brk s)) in *.
    change (fuel s) with (fuel s1). change base with (freep s1) at 1. 
    eapply (wp_malloc_heap s1); [exact Hi|done|done| |].
    + intros r s' (L' & a & ? & ? & ? & ? & ?). right. exists L', a. split_and!; done || (intros b k x Hb'; by rewrite lookup_empty in Hb').
    + intros G. left. split_and!; done || (left; by exists []) || (intros b k x Hb'; by rewrite lookup_empty in Hb').
Qed.

(** ** A program that uses the allocator *)

(** [B] maps the pointers the program holds to the sizes it asked for.  Between calls it
    writes what it likes into those bytes. *)
Inductive reach : ust -> gmap Z Z -> Prop :=
| reach_start s : freep s = 0 -> lo <= brk s <= KERNBASE -> reach s ∅
| reach_malloc s B nbytes r s' :
    reach s B -> 0 <= nbytes < 2 ^ 31 - 16 -> malloc base grows nbytes s = Ret r s' ->
    reach s' (if r =? 0 then B else <[r := nbytes]> B)
| reach_free s B p nb s' : reach s B -> B !! p = Some nb -> free p s = Ret tt s' -> reach s' (delete p B)
| reach_write s B m' :
    reach s B -> (forall x, (forall p nb, B !! p = Some nb -> ~ (p <= x < p + nb)) -> m' x = umem s x) ->
    reach (mkust m' (freep s) (brk s)) B.

Definition owns (B A : gmap Z Z) : Prop :=
  forall p nb, B !! p = Some nb -> 0 <= nb /\ exists n, A !! (p - 8) = Some n /\ nb + 8 <= 8 * n.

Lemma owns_kept B A m m' : owns B A -> kept A m m' -> forall p nb x, B !! p = Some nb -> p <= x < p + nb -> m' x = m x.
Proof. intros O K p nb x Hb Hx. destruct (O p nb Hb) as (_ & n & Ha & Hn). apply (K _ _ _ Ha). lia. Qed.

Lemma heap_write s L A B m' : heap s L A -> owns B A ->
  (forall x, (forall p nb, B !! p = Some nb -> ~ (p <= x < p + nb)) -> m' x = umem s x) -> heap (mkust m' (freep s) (brk s)) L A.
Proof.
  intros Hp O W. pose proof (hp_brk _ _ _ Hp) as Hbrk. unfold KERNBASE in Hbrk. destruct base_ok as [Hb0 Hb1]. pose proof (hp_run _ _ _ Hp) as R.
  assert (forall x, x < lo \/ covers L x \/ (exists a n, A !! a = Some n /\ a <= x < a + 8) -> m' x = umem s x) as Hw.
  { intros x Hx. apply W. intros p nb Hb Hpx. destruct (O p nb Hb) as (Hnb & n & Ha & Hn).
    destruct (hp_used _ _ _ Hp _ _ Ha) as (H1 & H2 & H3 & _ & Hc). destruct Hx as [?|[Hx|(a & k & Hak & Hx)]]; [lia|apply (Hc x); [lia|done]|].
    destruct (decide (a = p - 8)) as [->|Hne]; [lia|]. destruct (hp_used _ _ _ Hp _ _ Hak) as (_ & Hk & _). destruct (hp_sep _ _ _ Hp a (p - 8) k n Hne Hak Ha); lia. }
  assert (forall a, a ∈ base :: L.*1 -> load32 m' a = load32 (umem s) a /\ load32 m' (a + 4) = load32 (umem s) (a + 4)) as Hnode.
  { intros a Ha. destruct (heap_node _ _ _ _ Hp Ha) as [? Ha1]. unfold KERNBASE in Ha1.
    assert (forall x, a <= x < a + 8 -> m' x = umem s x) as Hx.
    { intros x Hx. apply Hw. apply elem_of_cons in Ha as [->|Ha]; [left; lia|]. right. left.
      apply list_elem_of_fmap in Ha as ([a' n] & E & Hin). cbn in E. subst a'. exists a, n. split; [done|].
      destruct (run_blk _ _ _ _ _ _ R Hin) as (_ & ? & _). lia. }
    split; apply ld_same; try lia; intros x ?; apply Hx; lia. }
  constructor; cbn [umem freep brk]; try apply Hp.
  - eapply run_frame; [|exact R]. intros a Ha. apply Hnode. by right.
  - eapply seg_frame; [|apply Hp]. intros x Hx. by apply Hnode.
  - rewrite (proj2 (Hnode base ltac:(left))). apply Hp.
  - intros a n Ha. destruct (hp_used _ _ _ Hp a n Ha) as (H1 & H2 & H3 & H4 & Hc). split_and!; try done.
    rewrite <- H4. apply ld_same; [lia|lia|]. intros x Hx. apply Hw. right. right. exists a, n. split; [done|lia].
Qed.

Lemma owns_malloc B A a n nbytes : owns B A -> A !! a = None -> 0 <= nbytes -> nbytes + 8 <= 8 * n -> owns (<[a + 8 := nbytes]> B) (<[a := n]> A).
Proof.
  intros O Ha Hn Hle p nb [[<- <-]|[Hne Hb]]%lookup_insert_Some.
  - split; [done|]. exists n. replace (a + 8 - 8) with a by lia. by rewrite lookup_insert_eq.
  - destruct (O p nb Hb) as (H1 & k & Hk & H2). split; [done|]. exists k. rewrite lookup_insert_ne by lia. done.
Qed.

Lemma reach_ready s B : reach s B -> exists A, ready s A /\ owns B A.
Proof.
  induction 1 as [s Hf Hb|s B nbytes r s' _ (A & Hr & O) Hn E|s B p nb s' _ (A & Hr & O) Hb E|s B m' _ (A & Hr & O) W].
  - exists ∅. split; [by right|]. intros p nb Hp. by rewrite lookup_empty in Hp.
  - destruct (malloc_ok s A nbytes Hr Hn) as (r' & s2 & E' & Hcase). rewrite E in E'. injection E' as <- <-.
    destruct (units_ok nbytes Hn) as (U1 & U2 & U3). destruct Hcase as [(-> & Hr' & _)|(L' & a & -> & Ha & Hh & _)]; [by exists A|].
    destruct (hp_used _ _ _ Hh a (units nbytes) (lookup_insert_eq _ _ _)) as (Hlo & _). destruct base_ok.
    destruct (Z.eqb_spec (a + 8) 0); [lia|]. exists (<[a := units nbytes]> A). split; [left; by exists L'|]. apply owns_malloc; done || lia.
  - destruct (O p nb Hb) as (_ & n & Ha & _). destruct Hr as [[L Hp]|(_ & -> & _)]; [|by rewrite lookup_empty in Ha].
    destruct (free_ok s L A (p - 8) n Hp Ha) as (m' & f & L' & E' & Hh & _). replace (p - 8 + 8) with p in E' by lia. rewrite E in E'. injection E' as ->.
    exists (delete (p - 8) A). split; [left; by exists L'|]. intros q nq [Hne Hq]%lookup_delete_Some. destruct (O q nq Hq) as (H1 & k & Hk & H2).
    split; [done|]. exists k. rewrite lookup_delete_ne by lia. done.
  - exists A. split; [|done]. destruct Hr as [[L Hp]|(Hf & -> & Hb)]; [left; exists L; by eapply heap_write|by right].
Qed.

(** C9: Whatever a program does with malloc of less than 2^31 - 16 bytes, free of pointers it
    holds and writes into the bytes it asked for: free of a pointer it holds returns; malloc
    of less than 2^31 - 16 bytes returns 0 only when the kernel refuses to grow the process,
    and otherwise a pointer it does not hold to bytes inside the process that overlap none of
    those it holds; neither changes a byte the program keeps.  (With larger requests the
    number of units wraps around, or sbrk gets a negative size.) *)
Theorem malloc_safe s B : reach s B ->
  (forall p nb, B !! p = Some nb -> exists s', free p s = Ret tt s' /\
     forall q nq x, q <> p -> B !! q = Some nq -> q <= x < q + nq -> umem s' x = umem s x) /\
  (forall nbytes, 0 <= nbytes < 2 ^ 31 - 16 -> exists r s', malloc base grows nbytes s = Ret r s' /\
     (forall q nq x, B !! q = Some nq -> q <= x < q + nq -> umem s' x = umem s x) /\
     (r = 0 /\ grows (brk s) (asked (units nbytes)) = false \/
      B !! r = None /\ lo <= r /\ r + nbytes <= brk s' /\ forall q nq, B !! q = Some nq -> r + nbytes <= q \/ q + nq <= r)).
Proof.
  intros (A & Hr & O)%reach_ready. split.
  - intros p nb Hb. destruct (O p nb Hb) as (_ & n & Ha & _). destruct Hr as [[L Hp]|(_ & -> & _)]; [|by rewrite lookup_empty in Ha].
    destruct (free_ok s L A (p - 8) n Hp Ha) as (m' & f & L' & E & _ & K & _). replace (p - 8 + 8) with p in E by lia.
    eexists. split; [exact E|]. intros q nq x Hne Hq Hx. destruct (O q nq Hq) as (_ & k & Hk & Hnk). apply (K (q - 8) k); [|lia].
    rewrite lookup_delete_ne by lia. done.
  - intros nbytes Hn. destruct (malloc_ok s A nbytes Hr Hn) as (r & s' & E & Hcase). destruct (units_ok nbytes Hn) as (U1 & U2 & U3).
    exists r, s'. split; [exact E|]. destruct Hcase as [(-> & _ & K & _ & G)|(L' & a & -> & Ha & Hh & K & _)]; (split; [by eapply owns_kept|]); [by left|right].
    destruct (hp_used _ _ _ Hh a (units nbytes) (lookup_insert_eq _ _ _)) as (H1 & _ & H3 & _). split_and!; [|lia|lia|].
    + destruct (B !! (a + 8)) as [nb|] eqn:Eb; [|done]. destruct (O _ _ Eb) as (_ & k & Hk & _). replace (a + 8 - 8) with a in Hk by lia. congruence.
    + intros q nq Hq. destruct (O q nq Hq) as (Hnq & k & Hk & Hkn). assert (a <> q - 8) as Hne by congruence.
      destruct (hp_sep _ _ _ Hh a (q - 8) (units nbytes) k Hne (lookup_insert_eq _ _ _)); [by rewrite lookup_insert_ne|lia|lia].
Qed.
End Heap.

(** The first request of a process of 12288 bytes. *)
Definition demo_grows (b n : Z) : bool := b + n <=? KERNBASE.
Definition demo_start : ust := mkust (fun _ => 0) 0 12288.

Lemma malloc_safe_witness : exists r s' r' s'', malloc 16 demo_grows 100 demo_start = Ret r s' /\ r = 44952 /\
  malloc 16 demo_grows 50 s' = Ret r' s'' /\ (r' + 50 <= r \/ r + 100 <= r').
Proof.
  assert (forall b n, demo_grows b n = true -> b + n <= KERNBASE) as G by (intros b n; apply Z.leb_le).
  assert (reach 16 demo_grows 12288 demo_start ∅) as R0 by (apply reach_start; [reflexivity|vm_compute; split; discriminate]).
  assert (exists r s', malloc 16 demo_grows 100 demo_start = Ret r s' /\ r = 44952) as (r & s' & E & ->)
    by (eexists _, _; split; [vm_compute; reflexivity|reflexivity]).
  pose proof (reach_malloc _ _ _ _ _ 100 _ _ R0 ltac:(lia) E) as R1.
  destruct (malloc_safe 16 demo_grows 12288 ltac:(lia) G s' _ R1) as [_ H]. destruct (H 50 ltac:(lia)) as (r' & s'' & E' & _ & Hcase).
  exists 44952, s', r', s''. split; [exact E|]. split; [reflexivity|]. split; [exact E'|]. destruct Hcase as [[-> _]|(_ & _ & _ & Hd)]; [left; lia|].
  destruct (Hd 44952 100); [reflexivity|left|right]; assumption.
Defined.
