(* ===== verification/Console.v ===== *)
(** * console.c, kbd.c and uart.c: the console

    [Kbd] is the translation of scan codes.  [cons] is the screen (the CGA memory and its
    cursor), the bytes sent on the serial line, and the input buffer with its three
    counters, which wrap at 32 bits.  An interrupt hands consoleintr the characters getc
    returns; consoleread is cut where it sleeps.  [line] is the editor a user sees, and the
    buffer is shown to implement it. *)

From stdpp Require Import base list numbers strings gmap.
From S2P Require Import Prelude Spinlock Layout Kalloc Proc Block Inode.
Import Ctx.

Open Scope Z_scope.

Module Kbd.
Definition SHIFT : Z := 1.
Definition CTL : Z := 2.
Definition ALT : Z := 4.
Definition CAPSLOCK : Z := 8.
Definition NUMLOCK : Z := 16.
Definition SCROLLLOCK : Z := 32.
Definition E0ESC : Z := 64.

(** An array of 256 with an initialiser: the first entries, then designated ones. *)
Definition table (pre : list Z) (at_ : list (nat * Z)) : list Z :=
  foldl (fun l kv => <[fst kv := snd kv]> l) (take 256 (pre ++ replicate 256 0)) at_.

Definition shiftcode : list Z :=
  table [] [(29%nat, CTL); (42%nat, SHIFT); (54%nat, SHIFT); (56%nat, ALT); (157%nat, CTL); (184%nat, ALT)].
Definition togglecode : list Z :=
  table [] [(58%nat, CAPSLOCK); (69%nat, NUMLOCK); (70%nat, SCROLLLOCK)].
Definition normalmap : list Z := table
  [0; 27; 49; 50; 51; 52; 53; 54; 55; 56; 57; 48; 45; 61; 8; 9;
   113; 119; 101; 114; 116; 121; 117; 105; 111; 112; 91; 93; 10; 0; 97; 115;
   100; 102; 103; 104; 106; 107; 108; 59; 39; 96; 0; 92; 122; 120; 99; 118;
   98; 110; 109; 44; 46; 47; 0; 42; 0; 32; 0; 0; 0; 0; 0; 0;
   0; 0; 0; 0; 0; 0; 0; 55; 56; 57; 45; 52; 53; 54; 43; 49;
   50; 51; 48; 46; 0; 0; 0; 0]
  [(156%nat, 10); (181%nat, 47); (200%nat, 226); (208%nat, 227); (201%nat, 230); (209%nat, 231);
   (203%nat, 228); (205%nat, 229); (151%nat, 224); (207%nat, 225); (210%nat, 232); (211%nat, 233)].
Definition shiftmap : list Z := table
  [0; 27; 33; 64; 35; 36; 37; 94; 38; 42; 40; 41; 95; 43; 8; 9;
   81; 87; 69; 82; 84; 89; 85; 73; 79; 80; 123; 125; 10; 0; 65; 83;
   68; 70; 71; 72; 74; 75; 76; 58; 34; 126; 0; 124; 90; 88; 67; 86;
   66; 78; 77; 60; 62; 63; 0; 42; 0; 32; 0; 0; 0; 0; 0; 0;
   0; 0; 0; 0; 0; 0; 0; 55; 56; 57; 45; 52; 53; 54; 43; 49;
   50; 51; 48; 46; 0; 0; 0; 0]
  [(156%nat, 10); (181%nat, 47); (200%nat, 226); (208%nat, 227); (201%nat, 230); (209%nat, 231);
   (203%nat, 228); (205%nat, 229); (151%nat, 224); (207%nat, 225); (210%nat, 232); (211%nat, 233)].
Definition ctlmap : list Z := table
  [0; 0; 0; 0; 0; 0; 0; 0; 0; 0; 0; 0; 0; 0; 0; 0;
   17; 23; 5; 18; 20; 25; 21; 9; 15; 16; 0; 0; 13; 0; 1; 19;
   4; 6; 7; 8; 10; 11; 12; 0; 0; 0; 0; 28; 26; 24; 3; 22;
   2; 14; 13; 0; 0; 239; 0; 0]
  [(156%nat, 13); (181%nat, 239); (200%nat, 226); (208%nat, 227); (201%nat, 230); (209%nat, 231);
   (203%nat, 228); (205%nat, 229); (151%nat, 224); (207%nat, 225); (210%nat, 232); (211%nat, 233)].

Definition at_ (t : list Z) (i : Z) : Z := default 0 (t !! Z.to_nat i).

Definition charcode (sel : Z) : list Z :=
  if sel =? 0 then normalmap else if sel =? SHIFT then shiftmap else ctlmap.

Definition has (x bit : Z) : bool := negb (Z.land x bit =? 0).

(** kbdgetc on the static [shift], a status byte and a data byte: the result and the new
    [shift]. *)
Definition kbdgetc (shift st data : Z) : Z * Z :=
  if negb (has st 1) then (-1, shift) else
  if data =? 224 then (0, Z.lor shift E0ESC) else
  if has data 128 then
    let data := if has shift E0ESC then data else Z.land data 127 in
    (0, Z.ldiff shift (Z.lor (at_ shiftcode data) E0ESC))
  else
  let data' := if has shift E0ESC then Z.lor data 128 else data in
  let shift := if has shift E0ESC then Z.ldiff shift E0ESC else shift in
  let shift := Z.lxor (Z.lor shift (at_ shiftcode data')) (at_ togglecode data') in
  let c := at_ (charcode (Z.land shift (Z.lor CTL SHIFT))) data' in
  let c := if has shift CAPSLOCK then
             if (97 <=? c) && (c <=? 122) then c + (65 - 97)
             else if (65 <=? c) && (c <=? 90) then c + (97 - 65) else c
           else c in
  (c, shift).
End Kbd.

Local Open Scope kernel_scope.

Definition BACKSPACE : Z := 256.
Definition INPUT_BUF : Z := 128.
Definition Ctl_P : Z := 16.
Definition Ctl_U : Z := 21.
Definition Ctl_H : Z := 8.
Definition Ctl_D : Z := 4.
Definition DEL : Z := 127.

Record cons := mkcons {
  crt : list Z;                  (* CGA memory: 25 rows of 80 cells *)
  pos : Z;                       (* the cursor registers *)
  uart : bool;
  serial : list Z;
  panicked : bool;
  locking : bool;
  ibuf : list Z; ir : Z; iw : Z; ie : Z;
  cctx : kctx }.

#[export] Program Instance cons_ctx : HasCtx cons := {|
  ctx := cctx;
  with_ctx k s := mkcons (crt s) (pos s) (uart s) (serial s) (panicked s) (locking s) (ibuf s) (ir s) (iw s) (ie s) k |}.
Next Obligation. done. Qed.
Next Obligation. done. Qed.
Next Obligation. by intros []. Qed.

Definition set_screen (c : list Z) (p : Z) : M cons unit := modify (fun s =>
  mkcons c p (uart s) (serial s) (panicked s) (locking s) (ibuf s) (ir s) (iw s) (ie s) (cctx s)).
Definition set_serial (l : list Z) : M cons unit := modify (fun s =>
  mkcons (crt s) (pos s) (uart s) l (panicked s) (locking s) (ibuf s) (ir s) (iw s) (ie s) (cctx s)).
Definition set_input (b : list Z) (r w e : Z) : M cons unit := modify (fun s =>
  mkcons (crt s) (pos s) (uart s) (serial s) (panicked s) (locking s) b r w e (cctx s)).
Definition set_panicked (p l : bool) : M cons unit := modify (fun s =>
  mkcons (crt s) (pos s) (uart s) (serial s) p l (ibuf s) (ir s) (iw s) (ie s) (cctx s)).

(** ** Output *)

(** The wait for the line is bounded and its result not used. *)
Definition uartputc (c : Z) : M cons unit :=
  u <- gets uart ;; l <- gets serial ;; when u do set_serial (l ++ [u8 c]).

Definition cell (c : Z) : Z := Z.lor (Z.land c 255) 1792.

(** crt[p] = v: a fault outside the memory of the screen. *)
Definition crt_store (t : list Z) (p v : Z) : M cons (list Z) :=
  if (0 <=? p) && (p <? Z.of_nat (length t)) then ret (<[Z.to_nat p := v]> t) else fault.

(** memmove(crt, crt+80, ...), pos -= 80, memset(crt+pos, 0, ...): a fault when the
    last length is negative, which memset takes as an unsigned number. *)
Definition scroll (t : list Z) (p : Z) : M cons (list Z * Z) :=
  let t := splice 0 (slice 80 (23 * 80) t) t in
  let p := p - 80 in
  if 24 * 80 <? p then fault
  else ret (splice (Z.to_nat p) (replicate (Z.to_nat (24 * 80 - p)) 0) t, p).

Definition cgaputc (c : Z) : M cons unit :=
  t <- gets crt ;;
  p <- gets pos ;;
  tp <- (if c =? 10 then ret (t, p + (80 - p mod 80))
         else if c =? BACKSPACE then ret (t, if 0 <? p then p - 1 else p)
         else t' <- crt_store t p (cell c) ;; ret (t', p + 1)) ;;
  tp <- (if 24 <=? snd tp / 80 then scroll (fst tp) (snd tp) else ret tp) ;;
  t <- crt_store (fst tp) (snd tp) (cell 32) ;;
  set_screen t (u16 (snd tp)).

(** A processor that finds another one panicked stops for ever. *)
Definition consputc (c : Z) : M cons unit :=
  f <- gets panicked ;;
  if f : bool then out_of_fuel else
  (if c =? BACKSPACE then uartputc 8 ;; uartputc 32 ;; uartputc 8 else uartputc c) ;;
  cgaputc c.

Definition digits : list Z := [48; 49; 50; 51; 52; 53; 54; 55; 56; 57; 97; 98; 99; 100; 101; 102].

(** The do loop of printint: the digits from the last one on.  A uint has at most 32. *)
Fixpoint print_digits (k : nat) (x base : Z) : list Z :=
  match k with
  | O => []
  | S k => default 0 (digits !! Z.to_nat (x mod base)) :: (if x / base =? 0 then [] else print_digits k (x / base) base)
  end.

Definition printint (xx base : Z) (sign : bool) : M cons unit :=
  let neg := sign && (xx <? 0) in
  let x := if neg then u32 (- xx) else u32 xx in
  let buf := print_digits 32 x base ++ (if neg then [45] else []) in
  if (length buf <=? 16)%nat then forM (reverse buf) consputc else fault.

(** The arguments of cprintf: numbers, and pointers to strings. *)
Inductive arg := ANum (x : Z) | AStr (s : option (list Z)).

Definition take_num (args : list arg) : M cons (Z * list arg) :=
  match args with ANum x :: args => ret (x, args) | _ => fault end.
Definition null_text : list Z := [40; 110; 117; 108; 108; 41].

Fixpoint cprintf_loop (fmt : list Z) (args : list arg) : M cons unit :=
  match fmt with
  | [] => ret tt
  | c :: fmt =>
      if negb (c =? 37) then consputc c ;; cprintf_loop fmt args else
      match fmt with
      | [] => ret tt
      | c :: fmt =>
          if c =? 100 then xa <- take_num args ;; printint (i32 (fst xa)) 10 true ;; cprintf_loop fmt (snd xa) else
          if (c =? 120) || (c =? 112) then xa <- take_num args ;; printint (i32 (fst xa)) 16 false ;; cprintf_loop fmt (snd xa) else
          if c =? 115 then
            match args with
            | AStr s :: args => forM (default null_text s) consputc ;; cprintf_loop fmt args
            | _ => fault
            end else
          if c =? 37 then consputc 37 ;; cprintf_loop fmt args else
          consputc 37 ;; consputc c ;; cprintf_loop fmt args
      end
  end.

(** Strings end at their first zero byte; a null format panics with the lock held. *)
Definition cprintf (fmt : option (list Z)) (args : list arg) : M cons unit :=
  l <- gets locking ;;
  (when l do acquire LkCons) ;;
  match fmt with
  | None => panic "null fmt"
  | Some f => cprintf_loop f args
  end ;;
  when l do release LkCons.

Definition str (s : string) : list Z := (fun a => Z.of_nat (Ascii.nat_of_ascii a)) <$> String.list_ascii_of_string s.

(** panic(s), up to the endless loop it ends in: [pcs] are the return addresses
    getcallerpcs finds on the stack. *)
Definition panic_ (cpu_id : Z) (name msg : list Z) (pcs : list Z) : M cons unit :=
  p <- gets panicked ;;
  set_panicked p false ;;
  cprintf (Some (str "cpu%d: thread: %s panic: ")) [ANum cpu_id; AStr (Some name)] ;;
  cprintf (Some msg) [] ;;
  cprintf (Some [10]) [] ;;
  forM (take 10 pcs) (fun pc => cprintf (Some (str " %p")) [ANum pc]) ;;
  l <- gets locking ;;
  set_panicked true l.

(** ** Input *)

(** input.buf[i % INPUT_BUF]. *)
Definition buf_at (b : list Z) (i : Z) : Z := default 0 (b !! Z.to_nat (i mod INPUT_BUF)).

(** The loop of ^U; it ends at input.w, at most INPUT_BUF characters back. *)
Fixpoint kill_line (fuel : nat) : M cons unit :=
  match fuel with
  | O => out_of_fuel
  | S fuel =>
      s <- gets id ;;
      if negb (ie s =? iw s) && negb (buf_at (ibuf s) (u32 (ie s - 1)) =? 10) then
        set_input (ibuf s) (ir s) (iw s) (u32 (ie s - 1)) ;;
        consputc BACKSPACE ;;
        kill_line fuel
      else ret tt
  end.

(** The default case: a character is stored, and a full line handed to the readers. *)
Definition store_char (c : Z) : M cons unit :=
  s <- gets id ;;
  if negb (c =? 0) && (u32 (ie s - ir s) <? INPUT_BUF) then
    let c := if c =? 13 then 10 else c in
    set_input (<[Z.to_nat (ie s mod INPUT_BUF) := u8 c]> (ibuf s)) (ir s) (iw s) (u32 (ie s + 1)) ;;
    consputc c ;;
    s <- gets id ;;
    if (c =? 10) || (c =? Ctl_D) || (ie s =? u32 (ir s + INPUT_BUF)) then
      set_input (ibuf s) (ir s) (ie s) (ie s) ;;
      wakeup ChInput
    else ret tt
  else ret tt.

(** procdump's lines: the process id, the state, the name, and for a sleeping thread
    the return addresses [pcs] found on its stack, up to a zero. *)
Definition state_name (st : state) : list Z :=
  match st with
  | UNUSED => str "unused" | EMBRYO => str "embryo" | SLEEPING => str "sleep "
  | RUNNABLE => str "runble" | RUNNING => str "run   " | ZOMBIE => str "zombie"
  end.

Fixpoint up_to_zero (l : list Z) : list Z :=
  match l with
  | [] => []
  | x :: l => if x =? 0 then [] else x :: up_to_zero l
  end.

Definition print_row (row : Z * state * list Z) (pcs : list Z) : M cons unit :=
  let '(pid, st, name) := row in
  cprintf (Some (str "%d %s %s")) [ANum pid; AStr (Some (state_name st)); AStr (Some name)] ;;
  (when (bool_decide (st = SLEEPING)) do
    forM (up_to_zero (take 10 pcs)) (fun pc => cprintf (Some (str " %p")) [ANum pc])) ;;
  cprintf (Some [10]) [].

Section Interrupt.
Context {E : Type}.
(** The process table at the interrupt, and the return addresses on the stack of the
    thread in each line of procdump. *)
Variables (tab : psys E) (stacks : nat -> list Z).

Definition print_procdump : M cons unit :=
  match Proc.procdump tab with
  | Ret rows _ => forM (imap (fun k row => (row, stacks k)) rows) (fun x => print_row (fst x) (snd x))
  | _ => fault
  end.

Definition handle (c : Z) : M cons unit :=
  if c =? Ctl_P then print_procdump
  else if c =? Ctl_U then kill_line (S (Z.to_nat INPUT_BUF))
  else if (c =? Ctl_H) || (c =? DEL) then
    s <- gets id ;;
    when (negb (ie s =? iw s)) do
      (set_input (ibuf s) (ir s) (iw s) (u32 (ie s - 1)) ;; consputc BACKSPACE)
  else store_char c.

(** The values getc returns, until a negative one. *)
Fixpoint consoleintr_loop (cs : list Z) : M cons unit :=
  match cs with
  | [] => ret tt
  | c :: cs => if c <? 0 then ret tt else handle c ;; consoleintr_loop cs
  end.

Definition consoleintr (cs : list Z) : M cons unit :=
  acquire LkInput ;; consoleintr_loop cs ;; release LkInput.

(** kbdintr: the bytes of the keyboard controller, [shift] the static of kbdgetc. *)
Fixpoint kbd_chars (shift : Z) (scan : list Z) : list Z * Z :=
  match scan with
  | [] => ([], shift)
  | d :: scan =>
      let '(c, shift) := Kbd.kbdgetc shift 1 d in
      let '(cs, shift) := kbd_chars shift scan in (c :: cs, shift)
  end.
Definition kbdintr (shift : Z) (scan : list Z) : M cons Z :=
  consoleintr (fst (kbd_chars shift scan)) ;; ret (snd (kbd_chars shift scan)).

Definition uartintr (received : list Z) : M cons unit :=
  u <- gets uart ;; consoleintr (if u : bool then received else []).
End Interrupt.

(** A section of consoleread: the call, or what follows a sleep, until it returns or
    sleeps again. *)
Inductive rsec := RDone (r : Z) (dst : list Z) | RSleep (dst : list Z).

(** The loop with [k] bytes still wanted of [target], after [dst] was stored; a negative
    count is left as it is. *)
Fixpoint consoleread_loop (k : nat) (target : Z) (dst : list Z) : M cons rsec :=
  match k with
  | O => release LkInput ;; ret (RDone (target - Z.min target 0) dst)
  | S k' =>
      s <- gets id ;;
      if ir s =? iw s then
        kd <- proc_killed ;;
        if kd : bool then release LkInput ;; ret (RDone (-1) dst)
        else release LkInput ;; ret (RSleep dst)
      else
        let c := buf_at (ibuf s) (ir s) in
        set_input (ibuf s) (u32 (ir s + 1)) (iw s) (ie s) ;;
        if c =? Ctl_D then
          (when (Z.of_nat k <? target) do set_input (ibuf s) (u32 (u32 (ir s + 1) - 1)) (iw s) (ie s)) ;;
          release LkInput ;; ret (RDone (target - Z.of_nat k) dst)
        else if c =? 10 then release LkInput ;; ret (RDone (target - Z.of_nat k') (dst ++ [c]))
        else consoleread_loop k' target (dst ++ [c])
  end.

Definition read_section (n : Z) (dst : list Z) : M cons rsec :=
  acquire LkInput ;; consoleread_loop (Z.to_nat n - length dst) n dst.

(** The console beside the inodes; both run in one context. *)
Record csys (S : Type) := mkcsys { con : cons; ino : ist S }.
Arguments mkcsys {S}. Arguments con {S}. Arguments ino {S}.

Section Device.
Context {S : Type} `{HasCtx S} `{!BlockLayer S}.

Definition in_ino {A} (m : M (ist S) A) : M (csys S) A := zoom ino (fun x s => mkcsys (con s) x) m.
Definition in_con {A} (m : M cons A) : M (csys S) A :=
  zoom (fun s => with_ctx (ctx (ino s)) (con s))
    (fun c s => mkcsys c (with_ctx (ctx c) (ino s))) m.

(** What follows the loop of consoleread: the inode is locked again. *)
Definition read_end (ip : nat) (r : rsec) : M (csys S) rsec :=
  match r with
  | RDone _ _ => in_ino (ilock ip) ;; ret r
  | RSleep _ => ret r
  end.

Definition consoleread (ip : nat) (n : Z) : M (csys S) rsec :=
  in_ino (iunlock ip) ;; r <- in_con (read_section n []) ;; read_end ip r.
Definition consoleread_resume (ip : nat) (n : Z) (dst : list Z) : M (csys S) rsec :=
  r <- in_con (read_section n dst) ;; read_end ip r.

Definition consolewrite (ip : nat) (buf : list Z) (n : Z) : M (csys S) Z :=
  in_ino (iunlock ip) ;;
  in_con (
    acquire LkCons ;;
    forM (seq 0 (Z.to_nat n)) (fun i => c <- lift_opt (buf !! i) ;; consputc (Z.land c 255)) ;;
    release LkCons) ;;
  in_ino (ilock ip) ;;
  ret n.
End Device.

Definition consoleinit (uart_ : bool) (t : list Z) (p : Z) (k : kctx) : cons :=
  mkcons t p uart_ [] false true (replicate (Z.to_nat INPUT_BUF) 0) 0 0 0 k.
