(* ===== verification/Lineedit.v ===== *)
(** * The console as a line editor

    [editor] is what a user at the console sees: the text handed to readers, the line being
    typed, and what was echoed.  The buffer of console.c, with its wrapping counters, is
    shown to implement it under any sequence of interrupts and reads, and no reader sleeps
    while there is text for it. *)

From stdpp Require Import base list numbers strings gmap.
From S2P Require Import Prelude Spinlock Layout Kalloc Proc Block Inode Console.
Import Ctx.

Open Scope Z_scope.
Local Open Scope kernel_scope.

(** ** The editor *)

Record editor := mked { ready : list Z; edit : list Z; out : list Z }.

Definition rubout : list Z := [8; 32; 8].

(** A character is typed: the end of a line, an end of file or a full buffer hands the
    line to the readers. *)
Definition ed_store (d : editor) (c : Z) : editor :=
  if (c =? 0) || (INPUT_BUF <=? Z.of_nat (length (ready d) + length (edit d))) then d
  else
    let c := if c =? 13 then 10 else c in
    let l := edit d ++ [c] in
    if (c =? 10) || (c =? Ctl_D) || (Z.of_nat (length (ready d) + length l) =? INPUT_BUF)
    then mked (ready d ++ l) [] (out d ++ [c])
    else mked (ready d) l (out d ++ [c]).

Definition ed_key (d : editor) (c : Z) : editor :=
  if c =? Ctl_U then mked (ready d) [] (out d ++ mjoin (replicate (length (edit d)) rubout))
  else if (c =? Ctl_H) || (c =? DEL) then
    if bool_decide (edit d = []) then d else mked (ready d) (removelast (edit d)) (out d ++ rubout)
  else ed_store d c.

(** A read of [k] more bytes: whether it is complete, the bytes, and what is left.  An
    end of file is left for the next read unless this one is empty. *)
Fixpoint take_line (k : nat) (empty : bool) (q : list Z) : bool * list Z * list Z :=
  match k, q with
  | O, _ => (true, [], q)
  | S _, [] => (false, [], [])
  | S k, c :: q' =>
      if c =? Ctl_D then (true, [], if empty then q' else q)
      else if c =? 10 then (true, [c], q')
      else let '(b, l, r) := take_line k false q' in (b, c :: l, r)
  end.

Definition ed_read (d : editor) (n : Z) (dst : list Z) (kd : bool) : editor * rsec :=
  let '(b, l, r) := take_line (Z.to_nat n - length dst) (bool_decide (dst = [])) (ready d) in
  (mked r (edit d) (out d),
   if b then RDone (Z.of_nat (length (dst ++ l))) (dst ++ l)
   else if kd then RDone (-1) (dst ++ l) else RSleep (dst ++ l)).

(** ** Threads reading, and interrupts *)

Record call := mkcall { want : Z; dst : list Z; asleep : bool }.
Abbreviation calls := (gmap nat call).
Definition wake (c : call) : call := mkcall (want c) (dst c) false.

(** [Read t n kd]: thread [t] calls consoleread for [n] bytes; [Resume t kd]: it goes on
    after a wakeup, [kd] being proc->killed; [Kill t]: kill makes it runnable. *)
Inductive event := Keys (cs : list Z) | Read (t : nat) (n : Z) (kd : bool)
| Resume (t : nat) (kd : bool) | Kill (t : nat).

(** A call that returned: the thread, the result and the bytes stored. *)
Definition output : Type := nat * Z * list Z.

Definition ended (t : nat) (n : Z) (m : calls) (r : rsec) : calls * list output :=
  match r with
  | RDone v l => (delete t m, [(t, v, l)])
  | RSleep l => (<[t := mkcall n l true]> m, [])
  end.

Section Systems.
Context {E : Type} (tab : psys E) (stacks : nat -> list Z).

Definition fresh (kd : bool) (s : cons) : cons := with_ctx (mkctx [] [] kd) s.

Definition reads (t : nat) (n : Z) (l : list Z) (kd : bool) (s : cons) (m : calls) :
  option (cons * calls * list output) :=
  match read_section n l (fresh kd s) with
  | Ret r s' => Some (s', fst (ended t n m r), snd (ended t n m r))
  | _ => None
  end.

Definition step (s : cons) (m : calls) (ev : event) : option (cons * calls * list output) :=
  match ev with
  | Keys cs =>
      match consoleintr tab stacks cs (fresh false s) with
      | Ret _ s' => Some (s', if bool_decide (ChInput ∈ woken (ctx s')) then wake <$> m else m, [])
      | _ => None
      end
  | Read t n kd => match m !! t with Some _ => Some (s, m, []) | None => reads t n [] kd s m end
  | Resume t kd =>
      match m !! t with
      | Some c => if asleep c then Some (s, m, []) else reads t (want c) (dst c) kd s m
      | None => Some (s, m, [])
      end
  | Kill t => Some (s, alter wake t m, [])
  end.

Fixpoint run (s : cons) (m : calls) (evs : list event) : option (cons * calls * list output) :=
  match evs with
  | [] => Some (s, m, [])
  | ev :: evs =>
      match step s m ev with
      | Some (s, m, o) => match run s m evs with Some (s, m, os) => Some (s, m, o ++ os) | None => None end
      | None => None
      end
  end.
End Systems.

Definition ed_reads (t : nat) (n : Z) (l : list Z) (kd : bool) (d : editor) (m : calls) :
  editor * calls * list output :=
  let '(d, r) := ed_read d n l kd in (d, fst (ended t n m r), snd (ended t n m r)).

Definition ed_step (d : editor) (m : calls) (ev : event) : editor * calls * list output :=
  match ev with
  | Keys cs =>
      let d' := foldl ed_key d cs in
      (d', if (length (ready d) <? length (ready d'))%nat then wake <$> m else m, [])
  | Read t n kd => match m !! t with Some _ => (d, m, []) | None => ed_reads t n [] kd d m end
  | Resume t kd =>
      match m !! t with
      | Some c => if asleep c then (d, m, []) else ed_reads t (want c) (dst c) kd d m
      | None => (d, m, [])
      end
  | Kill t => (d, alter wake t m, [])
  end.

Fixpoint ed_run (d : editor) (m : calls) (evs : list event) : editor * calls * list output :=
  match evs with
  | [] => (d, m, [])
  | ev :: evs =>
      let '(d, m, o) := ed_step d m ev in
      let '(d, m, os) := ed_run d m evs in (d, m, o ++ os)
  end.

(** ** The screen *)

Record screen_ok (s : cons) : Prop := {
  sc_len : length (crt s) = 2000%nat; sc_pos : 0 <= pos s < 1920 }.

(** [s'] is [s] after [l] was put out. *)
Definition shown (l : list Z) (s s' : cons) : Prop :=
  screen_ok s' /\ exists t p,
  s' = mkcons t p (uart s) (serial s ++ (if uart s then l else [])) (panicked s) (locking s)
         (ibuf s) (ir s) (iw s) (ie s) (cctx s).

Definition echo (c : Z) : list Z := if c =? BACKSPACE then rubout else [u8 c].

Lemma uartputc_shows c s Q :
  Q tt (mkcons (crt s) (pos s) (uart s) (serial s ++ (if uart s then [u8 c] else [])) (panicked s)
         (locking s) (ibuf s) (ir s) (iw s) (ie s) (cctx s)) ->
  wp (uartputc c) Q s.
Proof.
  intros HQ. unfold uartputc, set_serial. wp_steps. destruct s as [? ? u ? ? ? ? ? ? ? ?]; simpl in *.
  destruct u; wp_steps; simpl; [done|]. by rewrite app_nil_r in HQ.
Qed.

Lemma crt_store_in t p v Q s :
  0 <= p < Z.of_nat (length t) -> Q (<[Z.to_nat p := v]> t) s -> wp (crt_store t p v) Q s.
Proof.
  intros Hp HQ. unfold crt_store.
  by rewrite (proj2 (Z.leb_le _ _)), (proj2 (Z.ltb_lt _ _)) by lia.
Qed.

Lemma scroll_in t p Q s :
  length t = 2000%nat -> 1920 <= p < 2000 ->
  (forall t', length t' = 2000%nat -> Q (t', p - 80) s) -> wp (scroll t p) Q s.
Proof.
  intros Hl Hp HQ. unfold scroll. rewrite (proj2 (Z.ltb_ge _ _)) by lia. wp_steps. apply HQ.
  assert (length (splice 0 (slice 80 (23 * 80) t) t) = 2000%nat) as Hl'
    by (rewrite length_splice; rewrite ?length_slice; lia).
  rewrite length_splice; rewrite ?length_replicate, Hl'; lia.
Qed.

(** The cursor stays on the first 24 rows and every store is on the screen. *)
Lemma cgaputc_shows c s Q :
  screen_ok s -> (forall s', shown [] s s' -> Q tt s') -> wp (cgaputc c) Q s.
Proof.
  intros [Hl Hp] HQ. unfold cgaputc. do 3 wp_step.
  set (F := fun (tp : list Z * Z) (s' : cons) => s' = s /\ length (fst tp) = 2000%nat /\ 0 <= snd tp < 2000).
  apply wp_bind, wp_mono with (Q := F).
  { pose proof (Z.mod_pos_bound (pos s) 80). pose proof (Z.div_mod (pos s) 80).
    destruct (c =? 10); [wp_steps; repeat split; simpl; lia|].
    destruct (c =? BACKSPACE); [wp_steps; repeat split; simpl; destruct (Z.ltb_spec 0 (pos s)); lia|].
    apply wp_bind, crt_store_in; [lia|]. wp_steps. repeat split; simpl; rewrite ?length_insert; lia. }
  intros [t p] s' (-> & Ht & Hp'). cbn [fst snd] in *.
  set (G := fun (tp : list Z * Z) (s' : cons) => s' = s /\ length (fst tp) = 2000%nat /\ 0 <= snd tp < 1920).
  apply wp_bind, wp_mono with (Q := G).
  { pose proof (Z.mod_pos_bound p 80). pose proof (Z.div_mod p 80).
    destruct (Z.leb_spec 24 (p / 80)).
    - apply scroll_in; [done|lia|]. intros t' Ht'. repeat split; simpl; lia.
    - wp_steps. repeat split; simpl; lia. }
  intros [t' p'] s' (-> & Ht'' & Hp''). cbn [fst snd] in *.
  apply wp_bind, crt_store_in; [lia|]. unfold set_screen. wp_steps. apply HQ. split.
  - split; simpl; rewrite ?length_insert; [done|]. rewrite u16_small; lia.
  - eexists _, _. destruct s as [? ? u ? ? ? ? ? ? ? ?]; simpl.
    f_equal. destruct u; by rewrite app_nil_r.
Qed.

Lemma consputc_shows c s Q :
  screen_ok s -> panicked s = false -> (forall s', shown (echo c) s s' -> Q tt s') -> wp (consputc c) Q s.
Proof.
  intros Hsc Hp HQ. unfold consputc. do 2 wp_step. rewrite Hp. apply wp_bind.
  assert (wp (if c =? BACKSPACE then uartputc 8 ;; uartputc 32 ;; uartputc 8 else uartputc c)
    (fun _ s' => s' = mkcons (crt s) (pos s) (uart s) (serial s ++ (if uart s then echo c else []))
       (panicked s) (locking s) (ibuf s) (ir s) (iw s) (ie s) (cctx s)) s) as Hu.
  { unfold echo. destruct (c =? BACKSPACE); repeat (apply wp_bind || apply uartputc_shows); simpl; [|done].
    f_equal. destruct (uart s); rewrite <- ?app_assoc; by rewrite ?app_nil_r. }
  eapply wp_mono; [exact Hu|]. intros [] s' ->. apply cgaputc_shows; [by destruct Hsc|].
  intros s' (Hok & t & p & ->). apply HQ. split; [done|]. eexists _, _. simpl.
  f_equal. destruct (uart s); by rewrite ?app_nil_r.
Qed.

(** ** The buffer *)

Record shows (s : cons) (d : editor) : Prop := {
  sh_len : length (ibuf s) = Z.to_nat INPUT_BUF;
  sh_r : 0 <= ir s < 2 ^ 32;
  sh_w : iw s = u32 (ir s + Z.of_nat (length (ready d)));
  sh_e : ie s = u32 (ir s + Z.of_nat (length (ready d) + length (edit d)));
  sh_room : Z.of_nat (length (ready d) + length (edit d)) <= INPUT_BUF;
  sh_data k x : (ready d ++ edit d) !! k = Some x -> buf_at (ibuf s) (ir s + Z.of_nat k) = x;
  sh_edit : 10 ∉ edit d;
  sh_out : serial s = if uart s then out d else [];
  sh_screen : screen_ok s;
  sh_alive : panicked s = false }.

Lemma u32_mod_buf x : u32 x mod INPUT_BUF = x mod INPUT_BUF.
Proof. unfold u32, INPUT_BUF. apply Z.mod_mod_divide. by exists (2 ^ 25). Qed.

Lemma buf_at_u32 b x : buf_at b (u32 x) = buf_at b x.
Proof. unfold buf_at. by rewrite u32_mod_buf. Qed.

Lemma u32_inj_near a x y :
  0 <= x <= INPUT_BUF -> 0 <= y <= INPUT_BUF -> u32 (a + x) = u32 (a + y) -> x = y.
Proof.
  unfold u32, INPUT_BUF. intros Hx Hy E.
  pose proof (Z.div_mod (a + x) (2 ^ 32)). pose proof (Z.div_mod (a + y) (2 ^ 32)). lia.
Qed.

Lemma u32_step a b : u32 (u32 a + b) = u32 (a + b).
Proof. unfold u32. by rewrite Zplus_mod_idemp_l. Qed.

Lemma u32_diff a x : 0 <= x <= INPUT_BUF -> u32 (u32 (a + x) - a) = x.
Proof.
  intros Hx. unfold u32. rewrite Zminus_mod_idemp_l. replace (a + x - a) with x by lia.
  apply Z.mod_small. unfold INPUT_BUF in Hx. lia.
Qed.

(** Two slots of the buffer less than its size apart are different. *)
Lemma slot_ne a x y :
  0 <= x < y -> y < x + INPUT_BUF -> Z.to_nat ((a + x) mod INPUT_BUF) <> Z.to_nat ((a + y) mod INPUT_BUF).
Proof.
  unfold INPUT_BUF. intros Hx Hy E.
  pose proof (Z.mod_pos_bound (a + x) 128). pose proof (Z.mod_pos_bound (a + y) 128).
  pose proof (Z.div_mod (a + x) 128). pose proof (Z.div_mod (a + y) 128). lia.
Qed.

(** Output leaves the input alone. *)
Lemma shows_shown l s s' d :
  shows s d -> shown l s s' -> shows s' (mked (ready d) (edit d) (out d ++ l)).
Proof.
  intros [] (Hok & t & p & ->). constructor; simpl; try done.
  rewrite sh_out0. by destruct (uart s).
Qed.

(** The last character of the line is taken back. *)
Lemma shows_rub s d l x :
  shows s d -> edit d = l ++ [x] ->
  shows (mkcons (crt s) (pos s) (uart s) (serial s) (panicked s) (locking s) (ibuf s) (ir s) (iw s)
           (u32 (ie s - 1)) (cctx s)) (mked (ready d) l (out d)) /\
  ie s <> iw s /\ buf_at (ibuf s) (u32 (ie s - 1)) = x.
Proof.
  intros [] E. rewrite E in *. rewrite length_app in *. cbn [length] in *.
  assert (u32 (ie s - 1) = u32 (ir s + Z.of_nat (length (ready d) + length l))) as He.
  { rewrite sh_e0. change (?a - 1) with (a + -1). rewrite u32_step. f_equal. lia. }
  split; [|split].
  - constructor; simpl; try done; [lia| |set_solver|by destruct sh_screen0].
    intros k y Hy. apply sh_data0. rewrite app_assoc. by apply lookup_app_l_Some.
  - rewrite sh_e0, sh_w0. intros Eq. apply u32_inj_near in Eq; lia.
  - rewrite He, buf_at_u32. apply sh_data0. rewrite app_assoc, lookup_app_r by (rewrite length_app; lia).
    by rewrite length_app, Nat.sub_diag.
Qed.

Lemma shows_no_edit s d : shows s d -> edit d = [] -> ie s = iw s.
Proof. intros [] E. rewrite sh_e0, sh_w0, E. cbn [length]. by rewrite Nat.add_0_r. Qed.

Lemma kill_line_edits fuel s d Q :
  (length (edit d) < fuel)%nat -> shows s d ->
  (forall s', shows s' (mked (ready d) [] (out d ++ mjoin (replicate (length (edit d)) rubout))) ->
     cctx s' = cctx s -> Q tt s') ->
  wp (kill_line fuel) Q s.
Proof.
  revert s d Q. induction fuel as [|fuel IH]; intros s d Q Hf Hs HQ; [lia|].
  cbn [kill_line]. do 2 wp_step. unfold id.
  destruct (edit d) as [|x l _] eqn:Ed using rev_ind.
  - rewrite (shows_no_edit _ _ Hs Ed), Z.eqb_refl. simpl. wp_steps. apply HQ; [|done].
    cbn. rewrite app_nil_r. rewrite <- Ed. by destruct d.
  - destruct (shows_rub _ _ _ _ Hs Ed) as (Hs' & Hne & Hx).
    assert (x <> 10) as H10 by (pose proof (sh_edit _ _ Hs) as Hn; rewrite Ed in Hn; set_solver).
    rewrite (proj2 (Z.eqb_neq _ _) Hne), Hx, (proj2 (Z.eqb_neq _ _) H10). simpl.
    rewrite length_app in *. cbn [length] in *.
    unfold set_input. wp_steps. apply consputc_shows; [apply (sh_screen _ _ Hs')|apply (sh_alive _ _ Hs')|].
    intros s1 H1. pose proof (shows_shown _ _ _ _ Hs' H1) as Hs1.
    eapply IH; [|exact Hs1|]; simpl; [lia|]. intros s2 Hs2 Hc. apply HQ.
    + rewrite Nat.add_comm. cbn [replicate mjoin list_join Nat.add]. by rewrite <- app_assoc in Hs2.
    + rewrite Hc. by destruct H1 as (_ & ? & ? & ->).
Qed.

(** A character was stored at the end, and the text split anew into what is handed out
    and what is still edited. *)
Lemma shows_store s d c rd ed o t p ser w k :
  shows s d -> Z.of_nat (length (ready d) + length (edit d)) < INPUT_BUF ->
  rd ++ ed = (ready d ++ edit d) ++ [c] -> 10 ∉ ed -> w = u32 (ir s + Z.of_nat (length rd)) ->
  ser = (if uart s then o else []) -> length t = 2000%nat -> 0 <= p < 1920 ->
  shows (mkcons t p (uart s) ser (panicked s) (locking s) (<[Z.to_nat (ie s mod INPUT_BUF) := c]> (ibuf s))
           (ir s) w (u32 (ie s + 1)) k) (mked rd ed o).
Proof.
  intros [] Hroom E Hed -> -> Ht Hp.
  assert (length rd + length ed = length (ready d) + length (edit d) + 1)%nat as Hlen
    by (rewrite <- !length_app, E, !length_app; done).
  constructor; simpl; try done.
  - by rewrite length_insert.
  - rewrite sh_e0, u32_step. f_equal. lia.
  - lia.
  - rewrite E. intros k0 x Hx. unfold buf_at. rewrite sh_e0, u32_mod_buf.
    apply lookup_app_Some in Hx as [Hx|[Hk Hx]].
    + pose proof (lookup_lt_Some _ _ _ Hx) as Hlt. rewrite length_app in Hlt.
      rewrite list_lookup_insert_ne; [by apply sh_data0|]. symmetry. apply slot_ne; lia.
    + rewrite length_app in *. apply list_lookup_singleton_Some in Hx as [Hk0 <-].
      replace k0 with (length (ready d) + length (edit d))%nat by lia.
      rewrite list_lookup_insert_eq; [done|]. rewrite sh_len0.
      pose proof (Z.mod_pos_bound (ir s + Z.of_nat (length (ready d) + length (edit d))) INPUT_BUF).
      unfold INPUT_BUF in *. lia.
Qed.

(** The context after keys were handled: the readers were woken exactly when text was
    handed to them. *)
Record rung (d d' : editor) (s s' : cons) : Prop := {
  rg_held : held (cctx s') = held (cctx s);
  rg_killed : killed (cctx s') = killed (cctx s);
  rg_ready : exists l, ready d' = ready d ++ l;
  rg_woken : ChInput ∈ woken (cctx s') <->
    ChInput ∈ woken (cctx s) \/ (length (ready d) < length (ready d'))%nat }.

Lemma rung_same d d' s s' : ready d' = ready d -> cctx s' = cctx s -> rung d d' s s'.
Proof.
  intros E C. constructor; rewrite ?C, ?E; try done; [exists []; by rewrite app_nil_r|].
  split; [by left|]. intros [|?]; [done|lia].
Qed.

Lemma rung_trans d1 d2 d3 s1 s2 s3 : rung d1 d2 s1 s2 -> rung d2 d3 s2 s3 -> rung d1 d3 s1 s3.
Proof.
  intros [h1 k1 [l1 r1] w1] [h2 k2 [l2 r2] w2]. constructor; [by rewrite h2|by rewrite k2| |].
  - exists (l1 ++ l2). by rewrite r2, r1, app_assoc.
  - rewrite w2, w1, r2, r1, !length_app. intuition lia.
Qed.

(** The test for a full buffer, after a character was stored. *)
Lemma full_test s d c :
  shows s d -> Z.of_nat (length (ready d) + length (edit d)) < INPUT_BUF ->
  (u32 (ie s + 1) =? u32 (ir s + INPUT_BUF)) =
  (Z.of_nat (length (ready d) + length (edit d ++ [c])) =? INPUT_BUF).
Proof.
  intros [] Hroom. rewrite length_app, sh_e0, u32_step. cbn [length].
  destruct (Z.eqb_spec (Z.of_nat (length (ready d) + (length (edit d) + 1))) INPUT_BUF) as [<-|Hn].
  - apply Z.eqb_eq. f_equal. lia.
  - apply Z.eqb_neq. intros E. rewrite <- Z.add_assoc in E. apply u32_inj_near in E; lia.
Qed.

Lemma store_char_edits c s d Q :
  0 <= c < 256 -> shows s d -> LkPtable ∉ held (cctx s) ->
  (forall s', shows s' (ed_store d c) -> rung d (ed_store d c) s s' -> Q tt s') ->
  wp (store_char c) Q s.
Proof.
  intros Hc Hs Hl HQ. pose proof Hs as [].
  unfold store_char. do 2 wp_step. unfold id.
  assert (u32 (ie s - ir s) = Z.of_nat (length (ready d) + length (edit d))) as ->
    by (rewrite sh_e0; apply u32_diff; lia).
  unfold ed_store in HQ. rewrite Z.ltb_antisym.
  destruct (c =? 0) eqn:E0; [by apply HQ, rung_same|].
  destruct (Z.leb_spec INPUT_BUF (Z.of_nat (length (ready d) + length (edit d)))); [by apply HQ, rung_same|].
  cbn [orb negb andb] in *. set (c' := if c =? 13 then 10 else c) in *.
  assert (u8 c' = c') as Hu by (apply u8_small; unfold c'; destruct (c =? 13); lia).
  rewrite Hu. unfold set_input. wp_steps. apply consputc_shows; [by destruct sh_screen0|done|].
  intros s1 ([Ht Hp] & t & p & ->). unfold echo. simpl in *.
  replace (c' =? BACKSPACE) with false in * by (symmetry; apply Z.eqb_neq; unfold c', BACKSPACE; destruct (c =? 13); lia).
  rewrite Hu in *. wp_steps. unfold id. simpl.
  rewrite (full_test _ _ c' Hs) by lia.
  assert (serial s ++ (if uart s then [c'] else []) = if uart s then out d ++ [c'] else []) as Hser
    by (rewrite sh_out0; by destruct (uart s)).
  destruct ((c' =? 10) || (c' =? Ctl_D) || _) eqn:Eb.
  - wp_steps. apply wp_wakeup; [done|]. simpl. apply HQ.
    + eapply shows_store; simpl; try done; [by rewrite app_nil_r, app_assoc|set_solver|].
      rewrite sh_e0, u32_step, !length_app. cbn [length]. f_equal. lia.
    + constructor; simpl; try done; [by eexists|]. rewrite !length_app. cbn [length].
      split; [intros _; right; lia|intros _; left].
  - wp_steps. apply HQ; [|by apply rung_same].
    eapply shows_store; simpl; try done; [by rewrite app_assoc|].
    zbool. rewrite elem_of_app, list_elem_of_singleton. intros [|]; [done|congruence].
Qed.

(** ** Interrupts and reads *)

Section Refinement.
Context {E : Type} (tab : psys E) (stacks : nat -> list Z).

Lemma handle_edits c s d Q :
  0 <= c < 256 -> c <> Ctl_P -> shows s d -> LkPtable ∉ held (cctx s) ->
  (forall s', shows s' (ed_key d c) -> rung d (ed_key d c) s s' -> Q tt s') ->
  wp (handle tab stacks c) Q s.
Proof.
  intros Hc HP Hs Hl HQ. unfold handle, ed_key in *. rewrite (proj2 (Z.eqb_neq _ _) HP).
  destruct (c =? Ctl_U) eqn:EU.
  { pose proof (sh_room _ _ Hs). eapply kill_line_edits; [|exact Hs|].
    - unfold INPUT_BUF in *. lia.
    - intros s' Hs' Hk. apply HQ; [done|]. by apply rung_same. }
  destruct ((c =? Ctl_H) || (c =? DEL)) eqn:EH; [|by eapply store_char_edits].
  do 2 wp_step. unfold id.
  destruct (edit d) as [|x l _] eqn:Ed using rev_ind.
  { rewrite (shows_no_edit _ _ Hs Ed), Z.eqb_refl. wp_steps. by apply HQ, rung_same. }
  destruct (shows_rub _ _ _ _ Hs Ed) as (Hs' & Hne & _).
  rewrite (proj2 (Z.eqb_neq _ _) Hne). cbn [negb]. unfold set_input. wp_steps.
  apply consputc_shows; [apply (sh_screen _ _ Hs')|apply (sh_alive _ _ Hs')|].
  intros s1 H1. pose proof (shows_shown _ _ _ _ Hs' H1) as Hs1.
  rewrite removelast_last, bool_decide_eq_false_2 in HQ by (by destruct l).
  apply HQ; [done|]. destruct H1 as (_ & ? & ? & ->). by apply rung_same.
Qed.

Definition key_ok (c : Z) : Prop := 0 <= c < 256 /\ c <> Ctl_P.

Lemma consoleintr_loop_edits cs s d Q :
  Forall key_ok cs -> shows s d -> LkPtable ∉ held (cctx s) ->
  (forall s', shows s' (foldl ed_key d cs) -> rung d (foldl ed_key d cs) s s' -> Q tt s') ->
  wp (consoleintr_loop tab stacks cs) Q s.
Proof.
  intros Hcs. revert s d Q. induction Hcs as [|c cs [Hc HP] _ IH]; intros s d Q Hs Hl HQ; simpl.
  { wp_steps. by apply HQ, rung_same. }
  rewrite (proj2 (Z.ltb_ge _ _)) by lia. apply wp_bind. eapply handle_edits; [done..|].
  intros s1 Hs1 R1. apply IH with (d := ed_key d c); [done|by rewrite (rg_held _ _ _ _ R1)|].
  intros s2 Hs2 R2. apply HQ; [done|by eapply rung_trans].
Qed.

Lemma shows_ctx k s d : shows s d -> shows (with_ctx k s) d.
Proof. intros [? ? ? ? ? ? ? ? [] ?]. by constructor. Qed.

Lemma consoleintr_edits cs s d :
  Forall key_ok cs -> shows s d ->
  wp (consoleintr tab stacks cs) (fun _ s' => shows s' (foldl ed_key d cs) /\
    (exists l, ready (foldl ed_key d cs) = ready d ++ l) /\
    (ChInput ∈ woken (ctx s') <-> (length (ready d) < length (ready (foldl ed_key d cs)))%nat)) (fresh false s).
Proof.
  intros Hcs Hs. unfold consoleintr, fresh. apply wp_bind, wp_acquire; [simpl; set_solver|].
  simpl. apply wp_bind. eapply consoleintr_loop_edits; [done|by apply (shows_ctx _ s)|simpl; set_solver|].
  intros s' Hs' [Hh _ Hr Hw]. simpl in *. eapply wp_release; [exact Hh|].
  split; [by apply (shows_ctx _ s')|]. split; [done|]. simpl. rewrite Hw. set_solver.
Qed.

(** One character is taken. *)
Lemma shows_take s d x q :
  shows s d -> ready d = x :: q ->
  shows (mkcons (crt s) (pos s) (uart s) (serial s) (panicked s) (locking s) (ibuf s)
    (u32 (ir s + 1)) (iw s) (ie s) (cctx s)) (mked q (edit d) (out d)) /\
  ir s <> iw s /\ buf_at (ibuf s) (ir s) = x.
Proof.
  intros [] Er. rewrite Er in *. cbn [length app] in *. split; [|split].
  - constructor; simpl; try done.
    + apply u32_range.
    + rewrite sh_w0, u32_step. f_equal. lia.
    + rewrite sh_e0, u32_step. f_equal. lia.
    + lia.
    + intros k y Hy. rewrite <- (sh_data0 (S k) y) by done.
      rewrite <- (buf_at_u32 _ (u32 _ + _)), u32_step, buf_at_u32. f_equal. lia.
    + by destruct sh_screen0.
  - rewrite sh_w0. intros Eq. rewrite <- (u32_small (ir s)) in Eq at 1 by done.
    rewrite <- (Z.add_0_r (ir s)) in Eq at 1. apply u32_inj_near in Eq; lia.
  - rewrite <- (sh_data0 0%nat x) by done. by rewrite Z.add_0_r.
Qed.

Lemma shows_empty s d : shows s d -> ready d = [] -> ir s = iw s.
Proof. intros [] Er. rewrite sh_w0, Er. cbn [length]. rewrite Z.add_0_r. symmetry. by apply u32_small. Qed.

(** A section ends: the lock is released. *)
Lemma read_ends r s d h (Q : rsec -> cons -> Prop) :
  shows s d -> held (cctx s) = LkInput :: h -> (forall s', shows s' d -> Q r s') ->
  wp (release LkInput ;; ret r) Q s.
Proof. intros Hs Hh HQ. wp_step. eapply wp_release; [exact Hh|]. wp_steps. by apply HQ, shows_ctx. Qed.

(** The character taken last is put back. *)
Lemma unread s : 0 <= ir s < 2 ^ 32 -> u32 (u32 (ir s + 1) - 1) = ir s.
Proof.
  intros Hr. change (?a - 1) with (a + -1). rewrite u32_step.
  replace (ir s + 1 + -1) with (ir s) by lia. by apply u32_small.
Qed.

Lemma consoleread_loop_edits k n l s d h Q :
  k = (Z.to_nat n - length l)%nat -> (length l <= Z.to_nat n)%nat -> shows s d ->
  held (cctx s) = LkInput :: h ->
  (forall s', shows s' (fst (ed_read d n l (killed (cctx s)))) -> Q (snd (ed_read d n l (killed (cctx s)))) s') ->
  wp (consoleread_loop k n l) Q s.
Proof.
  revert l s d Q. induction k as [|k IH]; intros l s d Q Hk Hn Hs Hh HQ; cbn [consoleread_loop];
    unfold ed_read in HQ; rewrite <- Hk in HQ; cbn [take_line] in HQ.
  { simpl in HQ. rewrite app_nil_r in HQ. replace (n - Z.min n 0) with (Z.of_nat (length l)) by lia.
    eapply read_ends; [exact Hs|exact Hh|]. intros s1 H1. apply HQ. by destruct d. }
  do 2 wp_step. unfold id. destruct (ready d) as [|c q] eqn:Er.
  { rewrite (shows_empty _ _ Hs Er), Z.eqb_refl. unfold proc_killed. wp_steps. simpl in HQ.
    assert (shows s (mked [] (edit d) (out d))) as Hs' by (rewrite <- Er; by destruct d).
    rewrite app_nil_r in HQ. change (ctx s) with (cctx s).
    destruct (killed (cctx s)); by eapply read_ends. }
  destruct (shows_take _ _ _ _ Hs Er) as (Hs' & Hne & Hc). rewrite (proj2 (Z.eqb_neq _ _) Hne), Hc.
  assert ((Z.of_nat (S k) <? n) = negb (bool_decide (l = []))) as Ef.
  { case_bool_decide as El; [subst l; apply Z.ltb_ge; simpl in *; lia|].
    apply Z.ltb_lt. destruct l; [done|]. simpl in *. lia. }
  cbv zeta. unfold set_input. wp_step. wp_step. destruct (Z.eqb_spec c Ctl_D) as [->|HD].
  - rewrite Ef. simpl in HQ. rewrite app_nil_r in HQ.
    replace (n - Z.of_nat (S k)) with (Z.of_nat (length l)) by lia.
    wp_step. case_bool_decide; simpl; wp_step; (eapply read_ends; [|exact Hh|exact HQ]); [done|].
    simpl. rewrite unread by apply Hs. rewrite <- Er. by destruct s, d.
  - destruct (Z.eqb_spec c 10) as [->|H10].
    + replace (n - Z.of_nat k) with (Z.of_nat (length (l ++ [10]))) by (rewrite length_app; simpl; lia).
      by eapply read_ends.
    + eapply IH; [rewrite length_app; simpl; lia..|exact Hs'|done|].
      intros s'. simpl. unfold ed_read.
      replace (Z.to_nat n - length (l ++ [c]))%nat with k by (rewrite length_app; simpl; lia).
      rewrite bool_decide_eq_false_2 by (by destruct l). simpl.
      destruct (take_line k false q) as [[b l'] r]. simpl in *. rewrite <- app_assoc. exact (HQ s').
Qed.

Lemma read_section_edits n l kd s d :
  (length l <= Z.to_nat n)%nat -> shows s d ->
  wp (read_section n l) (fun r s' => r = snd (ed_read d n l kd) /\ shows s' (fst (ed_read d n l kd)))
    (fresh kd s).
Proof.
  intros Hl Hs. unfold read_section. apply wp_bind, wp_acquire; [simpl; set_solver|].
  eapply consoleread_loop_edits; [done|done|by apply (shows_ctx _ s)|done|]. by simpl.
Qed.

(** ** The calls *)

(** A thread asleep has nothing to read. *)
Definition calls_ok (d : editor) (m : calls) : Prop :=
  forall t c, m !! t = Some c -> (length (dst c) <= Z.to_nat (want c))%nat /\ (asleep c -> ready d = []).

Lemma take_line_bound k e q : (length (snd (fst (take_line k e q))) <= k)%nat.
Proof.
  revert e q. induction k as [|k IH]; intros e [|c q]; simpl; try lia.
  destruct (c =? Ctl_D); [simpl; lia|]. destruct (c =? 10); [simpl; lia|].
  pose proof (IH false q). destruct (take_line k false q) as [[] ]. simpl in *. lia.
Qed.

Lemma take_line_short k e q : fst (fst (take_line k e q)) = false -> snd (take_line k e q) = [].
Proof.
  revert e q. induction k as [|k IH]; intros e [|c q]; simpl; try done.
  destruct (c =? Ctl_D); [done|]. destruct (c =? 10); [done|].
  pose proof (IH false q). destruct (take_line k false q) as [[] ]. simpl in *. done.
Qed.

Lemma take_line_suffix k e q : exists p, q = p ++ snd (take_line k e q).
Proof.
  revert e q. induction k as [|k IH]; intros e [|c q]; simpl; try (by exists []).
  destruct (c =? Ctl_D); [destruct e; [by exists [c]|by exists []]|]. destruct (c =? 10); [by exists [c]|].
  destruct (IH false q) as [p Hp]. destruct (take_line k false q) as [[] ]. simpl in *.
  exists (c :: p). by rewrite Hp at 1.
Qed.

Lemma ed_reads_ok t n l kd d m :
  (length l <= Z.to_nat n)%nat -> calls_ok d m ->
  calls_ok (fst (ed_read d n l kd)) (fst (ended t n m (snd (ed_read d n l kd)))).
Proof.
  intros Hl Hm. unfold ed_read.
  pose proof (take_line_bound (Z.to_nat n - length l) (bool_decide (l = [])) (ready d)) as Hb.
  pose proof (take_line_short (Z.to_nat n - length l) (bool_decide (l = [])) (ready d)) as Hs.
  destruct (take_line_suffix (Z.to_nat n - length l) (bool_decide (l = [])) (ready d)) as [p Hp].
  destruct (take_line _ _ _) as [[b l'] r]. simpl in *.
  assert (forall t' c, m !! t' = Some c -> (length (dst c) <= Z.to_nat (want c))%nat /\ (asleep c -> r = [])) as Hold.
  { intros t' c Hc. destruct (Hm _ _ Hc) as [H1 H2]. split; [done|]. intros Ha. apply H2 in Ha.
    rewrite Hp in Ha. by apply app_eq_nil in Ha as [_ ?]. }
  destruct b; [|destruct kd]; simpl; intros t' c; try (by intros [_ Hc]%lookup_delete_Some; apply (Hold t')).
  intros [[<- <-]|[_ Hc]]%lookup_insert_Some; [|by apply (Hold t')]. simpl.
  rewrite length_app. split; [lia|]. intros _. by apply Hs.
Qed.

Definition event_ok (ev : event) : Prop :=
  match ev with Keys cs => Forall key_ok cs | _ => True end.

Lemma reads_refines t n l kd s d m :
  (length l <= Z.to_nat n)%nat -> shows s d -> calls_ok d m ->
  exists s', reads t n l kd s m = Some (s', snd (fst (ed_reads t n l kd d m)), snd (ed_reads t n l kd d m)) /\
  shows s' (fst (fst (ed_reads t n l kd d m))) /\
  calls_ok (fst (fst (ed_reads t n l kd d m))) (snd (fst (ed_reads t n l kd d m))).
Proof.
  intros Hl Hs Hm. pose proof (ed_reads_ok t n l kd d m Hl Hm) as Hm'.
  destruct (wp_run _ _ _ (read_section_edits n l kd s d Hl Hs)) as (r & s' & Er & -> & Hs').
  exists s'. unfold reads, ed_reads. rewrite Er. destruct (ed_read d n l kd) as [d' r]. done.
Qed.

Lemma step_refines ev s d m :
  event_ok ev -> shows s d -> calls_ok d m ->
  exists s', step tab stacks s m ev = Some (s', snd (fst (ed_step d m ev)), snd (ed_step d m ev)) /\
  shows s' (fst (fst (ed_step d m ev))) /\ calls_ok (fst (fst (ed_step d m ev))) (snd (fst (ed_step d m ev))).
Proof.
  intros Hev Hs Hm. destruct ev as [cs|t n kd|t kd|t]; cbn [step ed_step].
  - destruct (wp_run _ _ _ (consoleintr_edits cs s d Hev Hs)) as ([] & s' & Er & Hs' & [l Hl] & Hw).
    exists s'. rewrite Er. cbn [fst snd]. split; [|split; [done|]].
    + repeat f_equal. case_bool_decide as Hb; destruct (Nat.ltb_spec (length (ready d))
        (length (ready (foldl ed_key d cs)))); try done; [apply Hw in Hb; lia|tauto].
    + destruct (Nat.ltb_spec (length (ready d)) (length (ready (foldl ed_key d cs)))) as [Hlt|Hge]; intros t c Hc.
      * apply lookup_fmap_Some in Hc as (c0 & <- & Hc). split; [apply (Hm _ _ Hc)|done].
      * destruct (Hm _ _ Hc) as [H1 H2]. split; [done|]. intros Ha. apply H2 in Ha.
        rewrite Ha in *. apply nil_length_inv. simpl in *. lia.
  - destruct (m !! t) eqn:Et; [by exists s|]. apply reads_refines; [simpl; lia|done|done].
  - destruct (m !! t) as [c|] eqn:Et; [|by exists s].
    destruct (asleep c) eqn:Ea; [by exists s|]. apply reads_refines; [apply (Hm _ _ Et)|done|done].
  - exists s. split; [done|]. split; [done|]. intros t' c Hc. simpl in Hc.
    apply lookup_alter_Some in Hc as [(<- & c0 & Hc & ->)|[_ Hc]]; [|by apply (Hm t')].
    split; [apply (Hm _ _ Hc)|done].
Qed.
End Refinement.

(** Every byte of the keyboard gives a character consoleintr takes: the tables are never
    indexed out of range and the static [shift] stays within its seven bits. *)
Definition kbd_byte_ok (shift data : nat) : bool :=
  let '(c, s) := Kbd.kbdgetc (Z.of_nat shift) 1 (Z.of_nat data) in
  (0 <=? c) && (c <? 256) && (0 <=? s) && (s <? 128).

Lemma kbd_bytes_ok : forallb (fun sh => forallb (kbd_byte_ok sh) (seq 0 256)) (seq 0 128) = true.
Proof. vm_compute. reflexivity. Qed.

Lemma kbdgetc_range shift data :
  0 <= shift < 128 -> byte data ->
  0 <= fst (Kbd.kbdgetc shift 1 data) < 256 /\ 0 <= snd (Kbd.kbdgetc shift 1 data) < 128.
Proof.
  intros Hs Hd. pose proof kbd_bytes_ok as H. unfold byte in Hd.
  pose proof (proj1 (forallb_forall _ _) H (Z.to_nat shift) ltac:(apply in_seq; lia)) as H1.
  pose proof (proj1 (forallb_forall _ _) H1 (Z.to_nat data) ltac:(apply in_seq; lia)) as H2.
  unfold kbd_byte_ok in H2. rewrite !Z2Nat.id in H2 by lia.
  destruct (Kbd.kbdgetc shift 1 data) as [c s']. zbool. simpl. lia.
Qed.

Lemma kbd_chars_range shift scan :
  0 <= shift < 128 -> bytes scan ->
  bytes (fst (kbd_chars shift scan)) /\ 0 <= snd (kbd_chars shift scan) < 128.
Proof.
  intros Hs Hb. revert shift Hs. induction Hb as [|b scan Hb _ IH]; intros shift Hs; [by split; [constructor|]|].
  cbn [kbd_chars]. destruct (kbdgetc_range shift b Hs Hb) as [Hc Hs'].
  destruct (Kbd.kbdgetc shift 1 b) as [c s']. simpl in Hc, Hs'. destruct (IH s' Hs') as [H1 H2].
  destruct (kbd_chars s' scan) as [cs s'']. simpl in *. split; [by constructor|done].
Qed.

(** C10: Whatever is typed (any characters but the ^P that lists the processes), however
    the characters are split between interrupts, and whatever threads call consoleread,
    are woken or killed in between, the console behaves as the line editor: consoleintr and
    consoleread always return, calls end with the same results and bytes, the echo is
    the same, all stores are on the screen, and no thread sleeps while text is ready. *)
Theorem console_edits_lines {E : Type} (tab : psys E) (stacks : nat -> list Z) evs s d m :
  Forall event_ok evs -> shows s d -> calls_ok d m ->
  exists s' d' m' os,
  run tab stacks s m evs = Some (s', m', os) /\ ed_run d m evs = (d', m', os) /\ shows s' d' /\
  (forall t c, m' !! t = Some c -> asleep c -> ready d' = []).
Proof.
  intros Hevs. revert s d m. induction Hevs as [|ev evs Hev _ IH]; intros s d m Hs Hm.
  { exists s, d, m, []. split; [done|]. split; [done|]. split; [done|]. intros t c Hc. by apply (Hm t). }
  destruct (step_refines tab stacks ev s d m Hev Hs Hm) as (s1 & E1 & Hs1 & Hm1).
  cbn [run ed_run]. rewrite E1. destruct (ed_step d m ev) as [[d1 m1] o1]. cbn [fst snd] in *.
  destruct (IH _ _ _ Hs1 Hm1) as (s2 & d2 & m2 & os & -> & -> & Hs2 & Hl). by exists s2, d2, m2, (o1 ++ os).
Qed.

Definition start : cons := consoleinit true (replicate 2000 0) 0 (mkctx [] [] false).

Lemma start_shows : shows start (mked [] [] []).
Proof. constructor; try done. set_solver. Qed.

(** A reader sleeps, "abx", a rubout and a return are typed in two interrupts, and the
    read returns "ab" and the end of the line. *)
Lemma console_edits_lines_witness :
  let evs := [Read 1 10 false; Keys [97; 98; 120]; Resume 1 false; Keys [8; 13; 99]; Resume 1 false] in
  exists s' d' m',
  run (mkpsys [] [] None 0 0 ∅ ∅ ∅ None None false tt (mkctx [] [] false)) (fun _ => []) start ∅ evs = Some (s', m', [(1%nat, 3, [97; 98; 10])]) /\
  shows s' d'.
Proof.
  intros evs.
  destruct (console_edits_lines (mkpsys [] [] None 0 0 ∅ ∅ ∅ None None false tt (mkctx [] [] false)) (fun _ => []) evs start (mked [] [] []) ∅)
    as (s' & d' & m' & os & Hr & He & Hs & _).
  - repeat constructor; vm_compute; try done.
  - apply start_shows.
  - by intros t c.
  - exists s', d', m'. split; [|done]. rewrite Hr. vm_compute in He. by injection He as _ _ <-.
Defined.
