(* ===== verification/Ide.v ===== *)
(** * ide.c: the disk driver

    [Drive] is the disk at the other end of the ports, given by what the driver relies on:
    a status that becomes ready, and the commands that read and write the sector the
    registers address.  [ide] is the queue of requests, linked through qnext, with the
    buffers.  iderw is cut where it sleeps.  [Queue] interleaves any requests, wakeups and
    interrupts: requests finish in the order they were made, every read returns what the
    writes before it left, and nobody sleeps on a request that has finished. *)

From stdpp Require Import base list numbers strings gmap.
From S2P Require Import Prelude Spinlock Buf.
Import Ctx.

Open Scope Z_scope.
Local Open Scope kernel_scope.

Definition IDE_BSY : Z := 128.
Definition IDE_DRDY : Z := 64.
Definition IDE_DF : Z := 32.
Definition IDE_ERR : Z := 1.
Definition IDE_CMD_READ : Z := 32.
Definition IDE_CMD_WRITE : Z := 48.

(** A status byte the loop of idewait ends at, and one that reports an error. *)
Definition is_ready (r : Z) : bool := Z.land r (Z.lor IDE_BSY IDE_DRDY) =? IDE_DRDY.
Definition is_error (r : Z) : bool := negb (Z.land r (Z.lor IDE_DF IDE_ERR) =? 0).

(** A sector of one of the two disks. *)
Definition addr : Type := Z * Z.

(** The ports of the drive: the status at 0x1f7, byte output, and the data port. *)
Class Ports (D : Type) := {
  d_status : D -> Z * D;
  d_outb : Z -> Z -> D -> D;
  d_outsl : list Z -> D -> D;
  d_insl : D -> list Z * D }.

Definition outs {D} `{Ports D} (l : list (Z * Z)) (d : D) : D :=
  foldl (fun d pv => d_outb (fst pv) (snd pv) d) d l.

Record ide (D : Type) := mkide {
  ibufs : list buf;
  qnexts : list (option nat);    (* qnext of each buffer *)
  idequeue : option nat;
  havedisk1 : bool;
  drive : D;
  ictx : kctx }.
Arguments mkide {D}. Arguments ibufs {D}. Arguments qnexts {D}. Arguments idequeue {D}.
Arguments havedisk1 {D}. Arguments drive {D}. Arguments ictx {D}.

#[export] Program Instance ide_ctx (D : Type) : HasCtx (ide D) := {|
  ctx := ictx;
  with_ctx k s := mkide (ibufs s) (qnexts s) (idequeue s) (havedisk1 s) (drive s) k |}.
Next Obligation. done. Qed.
Next Obligation. done. Qed.
Next Obligation. by intros ? []. Qed.

Section Driver.
Context {D : Type} `{!Ports D}.
Abbreviation IDE := (ide D).

Definition set_drive (d : D) : M IDE unit :=
  modify (fun s => mkide (ibufs s) (qnexts s) (idequeue s) (havedisk1 s) d (ictx s)).
Definition set_queue (q : option nat) : M IDE unit :=
  modify (fun s => mkide (ibufs s) (qnexts s) q (havedisk1 s) (drive s) (ictx s)).
Definition set_havedisk1 (v : bool) : M IDE unit :=
  modify (fun s => mkide (ibufs s) (qnexts s) (idequeue s) v (drive s) (ictx s)).
Definition ibuf_at (b : nat) : M IDE buf := l <- gets ibufs ;; lift_opt (l !! b).
Definition set_ibuf (b : nat) (f : buf -> buf) : M IDE unit :=
  x <- ibuf_at b ;;
  modify (fun s => mkide (<[b := f x]> (ibufs s)) (qnexts s) (idequeue s) (havedisk1 s) (drive s) (ictx s)).
Definition qnext_at (b : nat) : M IDE (option nat) := l <- gets qnexts ;; lift_opt (l !! b).
Definition set_qnext (b : nat) (v : option nat) : M IDE unit :=
  qnext_at b ;;
  modify (fun s => mkide (ibufs s) (<[b := v]> (qnexts s)) (idequeue s) (havedisk1 s) (drive s) (ictx s)).

Definition outb (p v : Z) : M IDE unit := d <- gets drive ;; set_drive (d_outb p (u8 v) d).

(** The loop of idewait reads the status until the drive is ready; [spins] bounds it. *)
Fixpoint idewait (spins : nat) (checkerr : bool) : M IDE Z :=
  match spins with
  | O => out_of_fuel
  | S spins =>
      d <- gets drive ;;
      let '(r, d) := d_status d in
      set_drive d ;;
      if is_ready r then ret (if checkerr && is_error r then -1 else 0)
      else idewait spins checkerr
  end.

Variable spins : nat.

(** The loop of ideinit: does disk 1 answer within [k] reads of the status? *)
Fixpoint probe (k : nat) : M IDE unit :=
  match k with
  | O => ret tt
  | S k =>
      d <- gets drive ;;
      let '(r, d) := d_status d in
      set_drive d ;;
      if negb (r =? 0) then set_havedisk1 true else probe k
  end.

Definition ideinit : M IDE unit :=
  idewait spins false ;;
  outb 502 (Z.lor 224 (Z.shiftl 1 4)) ;;
  probe 1000 ;;
  outb 502 (Z.lor 224 (Z.shiftl 0 4)).

Definition idestart (b : option nat) : M IDE unit :=
  match b with
  | None => panic "idestart"
  | Some b =>
      x <- ibuf_at b ;;
      idewait spins false ;;
      outb 1014 0 ;;
      outb 498 1 ;;
      outb 499 (Z.land (sector x) 255) ;;
      outb 500 (Z.land (Z.shiftr (sector x) 8) 255) ;;
      outb 501 (Z.land (Z.shiftr (sector x) 16) 255) ;;
      outb 502 (Z.lor (Z.lor 224 (Z.shiftl (Z.land (dev x) 1) 4)) (Z.land (Z.shiftr (sector x) 24) 15)) ;;
      if has (flags x) B_DIRTY then
        outb 503 IDE_CMD_WRITE ;;
        d <- gets drive ;;
        set_drive (d_outsl (bdata x) d)
      else outb 503 IDE_CMD_READ
  end.

Definition ideintr : M IDE unit :=
  acquire LkIde ;;
  q <- gets idequeue ;;
  match q with
  | None => release LkIde
  | Some b =>
      n <- qnext_at b ;;
      set_queue n ;;
      x <- ibuf_at b ;;
      (if has (flags x) B_DIRTY then ret tt else
        r <- idewait spins true ;;
        if 0 <=? r then
          d <- gets drive ;;
          let '(bs, d) := d_insl d in
          set_drive d ;;
          set_ibuf b (w_data bs)
        else ret tt) ;;
      x <- ibuf_at b ;;
      set_ibuf b (w_flags (Z.lor (flags x) B_VALID)) ;;
      x <- ibuf_at b ;;
      set_ibuf b (w_flags (Z.ldiff (flags x) B_DIRTY)) ;;
      wakeup (ChBuf (Z.of_nat b)) ;;
      q <- gets idequeue ;;
      (match q with None => ret tt | Some _ => idestart q end) ;;
      release LkIde
  end.

(** The walk of iderw to the end of the queue: [pp] is idequeue, or qnext of a buffer. *)
Fixpoint append (fuel : nat) (pp : option nat) (b : nat) : M IDE unit :=
  match fuel with
  | O => out_of_fuel
  | S fuel =>
      v <- (match pp with None => gets idequeue | Some p => qnext_at p end) ;;
      match v with
      | Some c => append fuel (Some c) b
      | None => match pp with None => set_queue (Some b) | Some p => set_qnext p (Some b) end
      end
  end.

Definition finished (x : buf) : bool := Z.land (flags x) (Z.lor B_VALID B_DIRTY) =? B_VALID.

(** The loop at the end of iderw, up to its sleep: true when the call returns. *)
Definition iderw_wait (b : nat) : M IDE bool :=
  x <- ibuf_at b ;;
  release LkIde ;;
  ret (finished x).

(** The call of iderw up to its first sleep, and what follows a wakeup. *)
Definition iderw (b : nat) : M IDE bool :=
  x <- ibuf_at b ;;
  if negb (has (flags x) B_BUSY) then panic "iderw: buf not busy" else
  if finished x then panic "iderw: nothing to do" else
  h <- gets havedisk1 ;;
  if negb (dev x =? 0) && negb h then panic "iderw: ide disk 1 not present" else
  acquire LkIde ;;
  set_qnext b None ;;
  l <- gets ibufs ;;
  append (S (length l)) None b ;;
  q <- gets idequeue ;;
  (when (bool_decide (q = Some b)) do idestart (Some b)) ;;
  iderw_wait b.
Definition iderw_resume (b : nat) : M IDE bool := acquire LkIde ;; iderw_wait b.
End Driver.

(** ** What the driver relies on *)

Definition lba (l0 l1 l2 h : Z) : Z := l0 + 256 * l1 + 65536 * l2 + 16777216 * h.

(** The registers for one sector of a disk, and the command. *)
Definition command (k l0 l1 l2 h cmd : Z) : list (Z * Z) :=
  [(1014, 0); (498, 1); (499, l0); (500, l1); (501, l2); (502, 224 + 16 * k + h); (503, cmd)].

Fixpoint poll {D} `{Ports D} (k : nat) (d : D) : option D :=
  match k with
  | O => None
  | S k => let '(r, d) := d_status d in if is_ready r then Some d else poll k d
  end.

(** A drive without faults: it becomes ready within [spins] reads of its status; a read
    command makes the data port deliver the sector, a write command stores what is sent. *)
Class Drive (D : Type) `{Ports D} (spins : nat) := {
  sectors : D -> addr -> list Z;
  idle : D -> Prop;
  reading : D -> option addr;
  ready_soon d : poll spins d <> None;
  no_error d : is_error (fst (d_status d)) = false;
  status_keeps d : reading (snd (d_status d)) = reading d /\ forall a, sectors (snd (d_status d)) a = sectors d a;
  ready_idle d : is_ready (fst (d_status d)) = true -> idle (snd (d_status d));
  read_cmd d k l0 l1 l2 h :
    idle d -> 0 <= k < 2 -> byte l0 -> byte l1 -> byte l2 -> 0 <= h < 16 ->
    reading (outs (command k l0 l1 l2 h IDE_CMD_READ) d) = Some (k, lba l0 l1 l2 h) /\
    forall a, sectors (outs (command k l0 l1 l2 h IDE_CMD_READ) d) a = sectors d a;
  read_data d a :
    idle d -> reading d = Some a ->
    fst (d_insl d) = sectors d a /\ forall x, sectors (snd (d_insl d)) x = sectors d x;
  write_cmd d k l0 l1 l2 h bs :
    idle d -> 0 <= k < 2 -> byte l0 -> byte l1 -> byte l2 -> 0 <= h < 16 -> length bs = BSIZE ->
    forall x, sectors (d_outsl bs (outs (command k l0 l1 l2 h IDE_CMD_WRITE) d)) x =
      if decide (x = (k, lba l0 l1 l2 h)) then bs else sectors d x }.

(** ** The queue *)

(** From [q] on the queue goes through the buffers [l]. *)
Fixpoint chain (qn : list (option nat)) (q : option nat) (l : list nat) : Prop :=
  match l with
  | [] => q = None
  | b :: l => q = Some b /\ exists n, qn !! b = Some n /\ chain qn n l
  end.

Lemma chain_insert qn q l b v : b ∉ l -> chain qn q l -> chain (<[b := v]> qn) q l.
Proof.
  revert q. induction l as [|c l IH]; intros q Hb; [done|]. intros (-> & n & Hn & Hc).
  apply not_elem_of_cons in Hb as [Hne Hb]. split; [done|]. exists n. split; [by rewrite list_lookup_insert_ne|].
  by apply IH.
Qed.

Lemma chain_snoc qn q l p b :
  chain qn q (l ++ [p]) -> NoDup (l ++ [p]) -> b ∉ l ++ [p] -> qn !! b = Some None ->
  chain (<[p := Some b]> qn) q ((l ++ [p]) ++ [b]).
Proof.
  revert q. induction l as [|c l IH]; intros q Hc Hnd Hb Hn; simpl in *.
  - destruct Hc as (-> & n & Hp & ->). split; [done|]. exists (Some b).
    rewrite list_lookup_insert_eq by (by eapply lookup_lt_Some). split; [done|]. split; [done|]. exists None.
    split; [|done]. rewrite list_lookup_insert_ne; [done|]. set_solver.
  - destruct Hc as (-> & n & Hq & Hc). apply list.NoDup_cons in Hnd as [Hc' Hnd]. split; [done|]. exists n.
    split; [rewrite list_lookup_insert_ne; [done|set_solver]|]. apply IH; [done|done|set_solver|done].
Qed.

Section Sections.
Context {D : Type} `{!Ports D} (spins : nat) `{!Drive D spins}.
Abbreviation IDE := (ide D).

Definition linked (pp : option nat) (b : nat) (s : IDE) : IDE :=
  match pp with
  | None => mkide (ibufs s) (qnexts s) (Some b) (havedisk1 s) (drive s) (ictx s)
  | Some p => mkide (ibufs s) (<[p := Some b]> (qnexts s)) (idequeue s) (havedisk1 s) (drive s) (ictx s)
  end.

Definition at_ptr (s : IDE) (pp : option nat) : option (option nat) :=
  match pp with None => Some (idequeue s) | Some p => qnexts s !! p end.

Lemma append_spec fuel pp v l b s (Q : unit -> IDE -> Prop) :
  at_ptr s pp = Some v -> chain (qnexts s) v l -> (length l < fuel)%nat ->
  Q tt (linked (match last l with Some p => Some p | None => pp end) b s) -> wp (append fuel pp b) Q s.
Proof.
  revert pp v l. induction fuel as [|fuel IH]; intros pp v l Hv Hc Hf HQ; [lia|]. cbn [append].
  apply wp_bind. assert (wp (match pp with None => gets idequeue | Some p => qnext_at p end)
    (fun v' s' => v' = v /\ s' = s) s) as Hr.
  { destruct pp as [p|]; simpl in Hv; [|by injection Hv as <-].
    unfold qnext_at. wp_steps. by eapply wp_lift_opt. }
  eapply wp_mono; [exact Hr|]. intros ? ? [-> ->]. destruct l as [|c l]; simpl in Hc.
  - subst v. destruct pp as [p|]; simpl in *; [|by apply wp_modify].
    unfold set_qnext, qnext_at. wp_steps. eapply wp_lift_opt; [exact Hv|]. by wp_steps.
  - destruct Hc as (-> & n & Hn & Hc). eapply (IH (Some c) n l); [done|done|simpl in Hf; lia|].
    destruct l as [|c' l] using rev_ind; [done|].
    rewrite last_snoc. by rewrite last_cons, last_snoc in HQ.
Qed.

(** The drive and the buffers a waiting or starting driver leaves alone. *)
Lemma wp_idewait_within k ck s (Q : Z -> IDE -> Prop) :
  poll k (drive s) <> None ->
  (forall d', idle d' -> reading d' = reading (drive s) -> (forall a, sectors d' a = sectors (drive s) a) ->
     Q 0 (mkide (ibufs s) (qnexts s) (idequeue s) (havedisk1 s) d' (ictx s))) ->
  wp (idewait k ck) Q s.
Proof.
  revert s. induction k as [|k IH]; intros s Hr HQ; [done|].
  cbn [idewait poll] in *. do 2 wp_step. pose proof (no_error (drive s)) as He.
  pose proof (status_keeps (drive s)) as [Hk1 Hk2]. pose proof (ready_idle (drive s)) as Hi.
  destruct (d_status (drive s)) as [r d']. simpl in *. unfold set_drive. wp_steps.
  destruct (is_ready r) eqn:Er.
  - rewrite He, andb_false_r. wp_steps. apply HQ; [by apply Hi|done|done].
  - apply IH; [done|]. simpl. intros d'' H1 H2 H3. apply HQ; [done|by rewrite H2|].
    intros a. by rewrite H3.
Qed.

Lemma wp_idewait ck s (Q : Z -> IDE -> Prop) :
  (forall d', idle d' -> reading d' = reading (drive s) -> (forall a, sectors d' a = sectors (drive s) a) ->
     Q 0 (mkide (ibufs s) (qnexts s) (idequeue s) (havedisk1 s) d' (ictx s))) ->
  wp (idewait spins ck) Q s.
Proof. apply wp_idewait_within, ready_soon. Qed.

Definition address (x : buf) : addr := (Z.land (dev x) 1, Z.land (sector x) 268435455).

Lemma land_mod z k : 0 <= k -> Z.land z (2 ^ k - 1) = z mod 2 ^ k.
Proof. intros Hk. rewrite <- Z.land_ones by done. by rewrite Z.ones_equiv, <- Z.sub_1_r. Qed.

(** The four registers hold the 28 bits of the sector. *)
Lemma lba_of z :
  lba (Z.land z 255) (Z.land (Z.shiftr z 8) 255) (Z.land (Z.shiftr z 16) 255) (Z.land (Z.shiftr z 24) 15)
  = Z.land z 268435455.
Proof.
  unfold lba. rewrite !Z.shiftr_div_pow2 by lia.
  change 255 with (2 ^ 8 - 1). change 15 with (2 ^ 4 - 1). change 268435455 with (2 ^ 28 - 1).
  rewrite !land_mod by lia.
  replace (z / 2 ^ 24) with (z / 2 ^ 8 / 2 ^ 8 / 2 ^ 8) by (by rewrite !Zdiv_Zdiv by lia).
  replace (z / 2 ^ 16) with (z / 2 ^ 8 / 2 ^ 8) by (by rewrite Zdiv_Zdiv by lia).
  set (q1 := z / 2 ^ 8). set (q2 := q1 / 2 ^ 8). set (q3 := q2 / 2 ^ 8).
  pose proof (Z.div_mod z (2 ^ 8) ltac:(lia)). pose proof (Z.div_mod q1 (2 ^ 8) ltac:(lia)).
  pose proof (Z.div_mod q2 (2 ^ 8) ltac:(lia)). pose proof (Z.div_mod q3 (2 ^ 4) ltac:(lia)).
  pose proof (Z.mod_pos_bound z (2 ^ 8)). pose proof (Z.mod_pos_bound q1 (2 ^ 8)).
  pose proof (Z.mod_pos_bound q2 (2 ^ 8)). pose proof (Z.mod_pos_bound q3 (2 ^ 4)).
  apply (Z.mod_unique _ _ (q3 / 2 ^ 4)); lia.
Qed.

Lemma land_byte z k : 0 <= k -> 0 <= Z.land z (2 ^ k - 1) < 2 ^ k.
Proof. intros. rewrite land_mod by done. apply Z.mod_pos_bound. lia. Qed.

(** The drive register: the disk in bit 4, the upper bits of the sector below it. *)
Lemma drive_register k h :
  0 <= k < 2 -> 0 <= h < 16 -> Z.lor (Z.lor 224 (Z.shiftl k 4)) h = 224 + 16 * k + h.
Proof.
  intros Hk Hh. assert (k = 0 \/ k = 1) as [-> | ->] by lia;
    (assert (h ∈ seqZ 0 16) as Hin by (apply elem_of_seqZ; lia));
    cbv [seqZ seq Z.to_nat Pos.to_nat fmap list_fmap] in Hin; simpl in Hin;
    repeat (apply elem_of_cons in Hin as [-> | Hin]; [done|]); by apply elem_of_nil in Hin.
Qed.

(** The drive after the command for [x] was given. *)
Definition started (x : buf) (d d' : D) : Prop :=
  if has (flags x) B_DIRTY
  then forall a, sectors d' a = if decide (a = address x) then bdata x else sectors d a
  else reading d' = Some (address x) /\ forall a, sectors d' a = sectors d a.

Lemma wp_idestart b x s (Q : unit -> IDE -> Prop) :
  ibufs s !! b = Some x -> length (bdata x) = BSIZE ->
  (forall d', started x (drive s) d' ->
     Q tt (mkide (ibufs s) (qnexts s) (idequeue s) (havedisk1 s) d' (ictx s))) ->
  wp (idestart spins (Some b)) Q s.
Proof.
  intros Hx Hl HQ. unfold idestart, ibuf_at. wp_steps. eapply wp_lift_opt; [exact Hx|].
  apply wp_bind, wp_idewait. intros d1 Hi _ Hd1. unfold outb, set_drive.
  pose proof (land_byte (dev x) 1 ltac:(lia)) as Hk. change (2 ^ 1 - 1) with 1 in Hk.
  pose proof (land_byte (sector x) 8 ltac:(lia)) as H0. pose proof (land_byte (Z.shiftr (sector x) 8) 8 ltac:(lia)) as H1.
  pose proof (land_byte (Z.shiftr (sector x) 16) 8 ltac:(lia)) as H2.
  pose proof (land_byte (Z.shiftr (sector x) 24) 4 ltac:(lia)) as Hh.
  change (2 ^ 8 - 1) with 255 in *. change (2 ^ 4 - 1) with 15 in *.
  rewrite drive_register by lia.
  set (l0 := Z.land (sector x) 255) in *. set (l1 := Z.land (Z.shiftr (sector x) 8) 255) in *.
  set (l2 := Z.land (Z.shiftr (sector x) 16) 255) in *. set (h := Z.land (Z.shiftr (sector x) 24) 15) in *.
  set (k := Z.land (dev x) 1) in *.
  assert ((k, lba l0 l1 l2 h) = address x) as Ha by (unfold address, l0, l1, l2, h; by rewrite lba_of).
  change (u8 IDE_CMD_WRITE) with IDE_CMD_WRITE. change (u8 IDE_CMD_READ) with IDE_CMD_READ.
  rewrite !u8_small by lia. wp_steps. simpl.
  destruct (has (flags x) B_DIRTY) eqn:Ed; wp_steps; simpl; apply HQ; unfold started; rewrite Ed.
  - intros a. rewrite <- Ha, <- Hd1. by apply (write_cmd d1 k l0 l1 l2 h (bdata x)).
  - destruct (read_cmd d1 k l0 l1 l2 h) as [Hr Hs]; try done. rewrite <- Ha. split; [done|].
    intros a. rewrite <- Hd1. apply Hs.
Qed.

(** A buffer that waits for the disk. *)
Record waiting (x : buf) : Prop := {
  wt_busy : has (flags x) B_BUSY = true;
  wt_open : finished x = false;
  wt_data : length (bdata x) = BSIZE }.

(** The queue is [l], its first buffer is the command the drive works on, and the sectors
    were [f] before that command. *)
Record queue_ok (f : addr -> list Z) (l : list nat) (s : IDE) : Prop := {
  q_len : length (qnexts s) = length (ibufs s);
  q_chain : chain (qnexts s) (idequeue s) l;
  q_nodup : NoDup l;
  q_bufs b : b ∈ l -> exists x, ibufs s !! b = Some x /\ waiting x;
  q_drive : match l with
            | [] => forall a, sectors (drive s) a = f a
            | b :: _ => exists x d, ibufs s !! b = Some x /\ (forall a, sectors d a = f a) /\ started x d (drive s)
            end }.

Lemma queue_short f l s : queue_ok f l s -> (length l <= length (ibufs s))%nat.
Proof.
  intros Hq. rewrite <- (length_seq (length (ibufs s)) 0). apply submseteq_length, NoDup_submseteq; [apply Hq|].
  intros b Hb. destruct (q_bufs _ _ _ Hq b Hb) as (x & Hx & _). apply elem_of_seq.
  apply lookup_lt_Some in Hx. lia.
Qed.

Lemma finished_flags fl : Z.land (Z.ldiff (Z.lor fl B_VALID) B_DIRTY) (Z.lor B_VALID B_DIRTY) = B_VALID.
Proof.
  apply Z.bits_inj'. intros k Hk. rewrite Z.land_spec, Z.ldiff_spec, !Z.lor_spec.
  assert (k = 0 \/ k = 1 \/ k = 2 \/ 3 <= k) as [-> |[-> |[-> |H3]]] by lia;
    [unfold B_VALID, B_DIRTY; simpl; by rewrite ?orb_true_r, ?andb_true_r, ?andb_false_r..|].
  unfold B_VALID, B_DIRTY. change 2 with (2 ^ 1). change 4 with (2 ^ 2). rewrite !Z.pow2_bits_false by lia.
  by rewrite andb_false_r.
Qed.

(** The queue after a buffer was appended, before the drive is started. *)
Lemma linked_ok f l b x s :
  queue_ok f l s -> ibufs s !! b = Some x -> waiting x -> b ∉ l -> qnexts s !! b = Some None ->
  let s' := linked (match last l with Some p => Some p | None => None end) b s in
  chain (qnexts s') (idequeue s') (l ++ [b]) /\ length (qnexts s') = length (qnexts s) /\
  (idequeue s' = Some b <-> l = []) /\ ibufs s' = ibufs s /\ drive s' = drive s /\ ictx s' = ictx s /\
  havedisk1 s' = havedisk1 s.
Proof.
  intros [] Hx Hw Hb Hn. simpl. destruct l as [|p l _] using rev_ind.
  - simpl. split; [split; [done|by exists None]|]. done.
  - rewrite last_snoc. simpl. split; [by apply chain_snoc|]. split; [by rewrite length_insert|].
    split; [|done]. split; [|by destruct l]. intros Hq. exfalso.
    destruct l as [|c l]; simpl in *; destruct q_chain0 as [Hq' _]; rewrite Hq' in Hq; injection Hq as ->; set_solver.
Qed.

Lemma wp_iderw_wait b x h s (Q : bool -> IDE -> Prop) :
  ibufs s !! b = Some x -> held (ictx s) = LkIde :: h ->
  Q (finished x) (with_ctx (mkctx h (woken (ictx s)) (killed (ictx s))) s) -> wp (iderw_wait b) Q s.
Proof.
  intros Hx Hh HQ. unfold iderw_wait, ibuf_at. wp_steps. eapply wp_lift_opt; [exact Hx|]. wp_step.
  eapply wp_release; [exact Hh|]. by wp_steps.
Qed.

(** iderw once it holds the lock and has cleared qnext of the buffer. *)
Lemma iderw_appends f l b x s h (Q : bool -> IDE -> Prop) :
  queue_ok f l s -> ibufs s !! b = Some x -> waiting x -> b ∉ l -> qnexts s !! b = Some None ->
  held (ictx s) = LkIde :: h ->
  (forall s', queue_ok f (l ++ [b]) s' -> ibufs s' = ibufs s -> havedisk1 s' = havedisk1 s ->
     ictx s' = mkctx h (woken (ictx s)) (killed (ictx s)) -> Q false s') ->
  wp (append (S (length (ibufs s))) None b ;;
      q <- gets idequeue ;;
      (when (bool_decide (q = Some b)) do idestart spins (Some b)) ;;
      iderw_wait b) Q s.
Proof.
  intros Hq Hx Hw Hb Hn Hh HQ. apply wp_bind.
  eapply (append_spec _ None _ l); [done|apply (q_chain _ _ _ Hq)|pose proof (queue_short _ _ _ Hq); lia|].
  destruct (linked_ok f l b x s Hq Hx Hw Hb Hn) as (L1 & L2 & L3 & L4 & L5 & L6 & L7).
  set (s2 := linked _ b s) in *. clearbody s2. do 3 wp_step.
  assert (forall d' k, match l with [] => exists d, (forall a, sectors d a = f a) /\ started x d d' | _ => d' = drive s end ->
    queue_ok f (l ++ [b]) (mkide (ibufs s2) (qnexts s2) (idequeue s2) (havedisk1 s2) d' k)) as Hok.
  { intros d' k Hd'. pose proof Hq as []. constructor; simpl; rewrite ?L2, ?L4; try done.
    - apply NoDup_app. split; [done|]. split; [set_solver|apply NoDup_singleton].
    - intros c [Hc|Hc]%elem_of_app; [by apply q_bufs0|]. apply list_elem_of_singleton in Hc as ->. by exists x.
    - destruct l as [|c l]; simpl; [destruct Hd' as (d & H1 & H2); by exists x, d|]. by rewrite Hd'. }
  case_bool_decide as Hqb.
  - apply L3 in Hqb as ->. eapply wp_idestart; [rewrite L4; exact Hx|apply Hw|]. intros d' Hd'.
    eapply wp_iderw_wait; [simpl; rewrite L4; exact Hx|simpl; rewrite L6; exact Hh|].
    rewrite (wt_open _ Hw). apply HQ; simpl; [|done|done|by rewrite L6].
    apply Hok. exists (drive s). rewrite <- L5. split; [|done]. intros a. rewrite L5. apply (q_drive _ _ _ Hq).
  - wp_steps. eapply wp_iderw_wait; [rewrite L4; exact Hx|rewrite L6; exact Hh|].
    rewrite (wt_open _ Hw). apply HQ; simpl; [|done|done|by rewrite L6].
    apply Hok. destruct l; [|done]. by exfalso; apply Hqb, L3.
Qed.

Lemma iderw_queues f l b x s (Q : bool -> IDE -> Prop) :
  queue_ok f l s -> ibufs s !! b = Some x -> waiting x -> b ∉ l ->
  (dev x = 0 \/ havedisk1 s = true) -> held (ictx s) = [] ->
  (forall s', queue_ok f (l ++ [b]) s' -> ibufs s' = ibufs s -> havedisk1 s' = havedisk1 s ->
     ictx s' = mkctx [] (woken (ictx s)) (killed (ictx s)) -> Q false s') ->
  wp (iderw spins b) Q s.
Proof.
  intros Hq Hx Hw Hb Hd Hh HQ. pose proof Hw as [Hw1 Hw2 Hw3]. pose proof Hq as [].
  unfold iderw. wp_step. unfold ibuf_at at 1. wp_steps. eapply wp_lift_opt; [exact Hx|]. rewrite Hw1, Hw2.
  cbn [negb]. do 2 wp_step. replace (negb (dev x =? 0) && negb (havedisk1 s)) with false
    by (destruct Hd as [-> | ->]; [done|by rewrite andb_false_r]).
  wp_step. apply wp_acquire; [simpl; rewrite Hh; set_solver|].
  unfold set_qnext at 1, qnext_at at 1. wp_steps. simpl ctx.
  assert (is_Some (qnexts s !! b)) as [n Hn]
    by (apply lookup_lt_is_Some; rewrite q_len0; by eapply lookup_lt_Some).
  eapply wp_lift_opt; [exact Hn|]. do 3 wp_step.
  eapply (iderw_appends f l b x (mkide (ibufs s) (<[b := None]> (qnexts s)) (idequeue s) (havedisk1 s) (drive s) _));
    simpl; try done; [|by apply list_lookup_insert_eq; eapply lookup_lt_Some|by rewrite Hh].
  constructor; simpl; try done; [by rewrite length_insert|by apply chain_insert].
Qed.

Definition upd (f : addr -> list Z) (a : addr) (bs : list Z) : addr -> list Z :=
  fun x => if decide (x = a) then bs else f x.

(** What serving the request of [x] makes of the sectors, and of the buffer. *)
Definition serve (x : buf) (f : addr -> list Z) : addr -> list Z :=
  if has (flags x) B_DIRTY then upd f (address x) (bdata x) else f.
Definition served (x : buf) (f : addr -> list Z) : buf :=
  w_flags (Z.ldiff (Z.lor (flags x) B_VALID) B_DIRTY)
    (w_data (if has (flags x) B_DIRTY then bdata x else f (address x)) x).

Lemma served_finished x f : finished (served x f) = true.
Proof. unfold finished. simpl. rewrite finished_flags. apply Z.eqb_refl. Qed.

(** The data phase of ideintr. *)
Lemma wp_ideintr_data b x d0 f s (Q : unit -> IDE -> Prop) :
  ibufs s !! b = Some x -> (forall a, sectors d0 a = f a) -> started x d0 (drive s) ->
  (forall d', (forall a, sectors d' a = serve x f a) ->
     Q tt (mkide (<[b := w_data (if has (flags x) B_DIRTY then bdata x else f (address x)) x]> (ibufs s))
       (qnexts s) (idequeue s) (havedisk1 s) d' (ictx s))) ->
  wp (if has (flags x) B_DIRTY then ret tt else
        r <- idewait spins true ;;
        if 0 <=? r then
          d <- gets drive ;;
          let '(bs, d) := d_insl d in
          set_drive d ;;
          set_ibuf b (w_data bs)
        else ret tt) Q s.
Proof.
  intros Hx Hf Hst HQ. unfold serve, started in *. destruct (has (flags x) B_DIRTY) eqn:Ed.
  - wp_steps. assert (s = mkide (<[b := w_data (bdata x) x]> (ibufs s)) (qnexts s) (idequeue s) (havedisk1 s) (drive s) (ictx s)) as Es.
    { rewrite list_insert_id; [by destruct s|]. rewrite Hx. by destruct x. }
    rewrite Es. apply HQ. intros a. rewrite Hst. unfold upd. destruct (decide (a = address x)); [done|apply Hf].
  - destruct Hst as [Hr Hs]. wp_step. apply wp_idewait. intros d1 Hi Hr1 Hs1. cbn [Z.leb Z.compare].
    do 2 wp_step. simpl drive. destruct (read_data d1 (address x)) as [H1 H2]; [done|by rewrite Hr1|].
    destruct (d_insl d1) as [bs d2]. simpl in H1, H2. unfold set_drive, set_ibuf, ibuf_at. wp_steps.
    eapply wp_lift_opt; [exact Hx|]. wp_steps. simpl. subst bs. rewrite Hs1, Hs, Hf. apply HQ.
    intros a. by rewrite H2, Hs1, Hs.
Qed.

Lemma chain_head qn q b l : chain qn q (b :: l) -> q = Some b /\ exists n, qn !! b = Some n /\ chain qn n l.
Proof. done. Qed.

(** The queue once its first buffer has been served. *)
Lemma queue_next f b l x s d' s' :
  queue_ok f (b :: l) s -> ibufs s !! b = Some x ->
  ibufs s' = <[b := served x f]> (ibufs s) -> qnexts s' = qnexts s -> chain (qnexts s) (idequeue s') l ->
  (forall a, sectors d' a = serve x f a) ->
  match l with
  | [] => drive s' = d'
  | c :: _ => forall y, ibufs s !! c = Some y -> started y d' (drive s')
  end -> queue_ok (serve x f) l s'.
Proof.
  intros [] Hx Hbs Hqn Hch Hd' Hst. apply list.NoDup_cons in q_nodup0 as [Hb Hnd].
  constructor; rewrite ?Hqn, ?Hbs, ?length_insert; try done.
  - intros c Hc. rewrite list_lookup_insert_ne by (by intros ->). apply q_bufs0. by right.
  - destruct l as [|c l]; [by rewrite Hst|].
    destruct (q_bufs0 c) as (y & Hy & _); [right; left|]. exists y, d'.
    rewrite list_lookup_insert_ne by (intros ->; apply Hb; left). split; [done|]. split; [done|by apply Hst].
Qed.

Lemma ideintr_serves f b l x s (Q : unit -> IDE -> Prop) :
  queue_ok f (b :: l) s -> ibufs s !! b = Some x -> held (ictx s) = [] ->
  (forall s', queue_ok (serve x f) l s' -> ibufs s' = <[b := served x f]> (ibufs s) ->
     havedisk1 s' = havedisk1 s ->
     ictx s' = mkctx [] (ChBuf (Z.of_nat b) :: woken (ictx s)) (killed (ictx s)) -> Q tt s') ->
  wp (ideintr spins) Q s.
Proof.
  intros Hq Hx Hh HQ. pose proof Hq as []. apply chain_head in q_chain0 as (Hb & n & Hn & Hc).
  unfold ideintr. wp_step. apply wp_acquire; [simpl; rewrite Hh; set_solver|]. do 2 wp_step. simpl idequeue.
  rewrite Hb. unfold qnext_at. wp_steps. eapply wp_lift_opt; [exact Hn|]. unfold set_queue. wp_step. wp_step.
  wp_step. unfold ibuf_at at 1. wp_steps. eapply wp_lift_opt; [exact Hx|]. wp_step.
  destruct q_drive0 as (x' & d0 & Hx' & Hd0 & Hst). rewrite Hx in Hx'. injection Hx' as <-.
  eapply wp_ideintr_data; [exact Hx|exact Hd0|exact Hst|]. intros d' Hd'. simpl.
  assert (b < length (ibufs s))%nat as Hlt by (by eapply lookup_lt_Some).
  unfold set_ibuf, ibuf_at. wp_steps. simpl.
  do 4 (eapply wp_lift_opt; [rewrite list_lookup_insert_eq; [done|rewrite ?length_insert; done]|]; wp_steps; simpl;
        rewrite ?list_insert_insert_eq).
  apply wp_wakeup; [simpl; rewrite Hh; set_solver|]. wp_steps. simpl.
  change (w_flags _ (w_flags _ _)) with (served x f).
  destruct l as [|c l]; [simpl in Hc; subst n|pose proof Hc as (-> & _)].
  - wp_steps. eapply wp_release; [done|]. simpl. apply HQ; [|done|done|by rewrite Hh].
    by eapply queue_next with (d' := d').
  - destruct (q_bufs0 c) as (y & Hy & Hw); [right; left|].
    assert (c <> b) as Hne by (intros ->; apply list.NoDup_cons in q_nodup0 as [Hnb _]; apply Hnb; left).
    eapply wp_idestart; [simpl; rewrite list_lookup_insert_ne by done; exact Hy|apply Hw|].
    intros d'' Hd''. eapply wp_release; [done|]. simpl. apply HQ; [|done|done|by rewrite Hh].
    eapply queue_next with (d' := d'); try done. simpl. intros y' Hy'. rewrite Hy in Hy'. by injection Hy' as <-.
Qed.

Lemma ideintr_spurious f s (Q : unit -> IDE -> Prop) :
  queue_ok f [] s -> held (ictx s) = [] ->
  Q tt (with_ctx (mkctx [] (woken (ictx s)) (killed (ictx s))) s) -> wp (ideintr spins) Q s.
Proof.
  intros Hq Hh HQ. unfold ideintr. wp_step. apply wp_acquire; [simpl; rewrite Hh; set_solver|].
  wp_steps. simpl idequeue. rewrite (q_chain _ _ _ Hq : idequeue s = None).
  eapply wp_release; [done|]. simpl. by rewrite Hh.
Qed.

Lemma iderw_resumes b x s (Q : bool -> IDE -> Prop) :
  ibufs s !! b = Some x -> held (ictx s) = [] ->
  Q (finished x) (with_ctx (mkctx [] (woken (ictx s)) (killed (ictx s))) s) -> wp (iderw_resume b) Q s.
Proof.
  intros Hx Hh HQ. unfold iderw_resume. wp_step. apply wp_acquire; [simpl; rewrite Hh; set_solver|].
  eapply wp_iderw_wait; [exact Hx|done|]. simpl. by rewrite Hh.
Qed.

Lemma queue_ctx f l k s : queue_ok f l s -> queue_ok f l (with_ctx k s).
Proof. by intros []. Qed.
End Sections.

(** ** Any number of threads, and interrupts *)

Module Queue.
Record request := mkreq { rq_buf : nat; rq_write : bool; rq_addr : addr; rq_data : list Z }.
Definition request_of (b : nat) (x : buf) : request :=
  mkreq b (has (flags x) B_DIRTY) (address x) (bdata x).

(** [Request b x]: a thread that holds buffer [b], with contents [x], calls iderw;
    [Resume b]: it goes on after a wakeup; [Kick b]: it is woken by something else. *)
Inductive event := Request (b : nat) (x : buf) | Interrupt | Resume (b : nat) | Kick (b : nat).

(** The buffers of the calls that have not returned: is the caller asleep? *)
Abbreviation calls := (gmap nat bool).

Section Run.
Context {D : Type} `{!Ports D} (spins : nat).
Abbreviation IDE := (ide D).

Definition fresh (s : IDE) : IDE := with_ctx (mkctx [] [] false) s.
Definition put_buf (b : nat) (x : buf) (s : IDE) : IDE :=
  mkide (<[b := x]> (ibufs s)) (qnexts s) (idequeue s) (havedisk1 s) (drive s) (ictx s).

(** The request an interrupt finishes, with the data the caller finds in the buffer. *)
Definition completed (s s' : IDE) : list request :=
  match idequeue s with
  | Some b =>
      match ibufs s !! b, ibufs s' !! b with
      | Some x, Some y => [mkreq b (has (flags x) B_DIRTY) (address x) (bdata y)]
      | _, _ => []
      end
  | None => []
  end.

Definition wake_calls (w : list chan) (m : calls) : calls :=
  map_imap (fun b a => Some (a && negb (bool_decide (ChBuf (Z.of_nat b) ∈ w)))) m.

(** One event: the state, the calls, the requests made and the requests finished. *)
Definition step (s : IDE) (m : calls) (ev : event) : option (IDE * calls * list request * list request) :=
  match ev with
  | Request b x =>
      match m !! b, ibufs s !! b with
      | None, Some _ =>
          match iderw spins b (fresh (put_buf b x s)) with
          | Ret r s' => Some (s', if r : bool then m else <[b := true]> m, [request_of b x], [])
          | _ => None
          end
      | _, _ => Some (s, m, [], [])
      end
  | Interrupt =>
      match ideintr spins (fresh s) with
      | Ret _ s' => Some (s', wake_calls (woken (ctx s')) m, [], completed s s')
      | _ => None
      end
  | Resume b =>
      match m !! b with
      | Some false =>
          match iderw_resume b (fresh s) with
          | Ret r s' => Some (s', if r : bool then delete b m else <[b := true]> m, [], [])
          | _ => None
          end
      | _ => Some (s, m, [], [])
      end
  | Kick b => Some (s, alter (fun _ => false) b m, [], [])
  end.

Fixpoint run (s : IDE) (m : calls) (evs : list event) : option (IDE * calls * list request * list request) :=
  match evs with
  | [] => Some (s, m, [], [])
  | ev :: evs =>
      match step s m ev with
      | Some (s, m, made, dn) =>
          match run s m evs with
          | Some (s, m, made', dn') => Some (s, m, made ++ made', dn ++ dn')
          | None => None
          end
      | None => None
      end
  end.
End Run.

(** The sectors after the requests, and: every read among them returned the contents at
    its place in the order. *)
Definition effect (f : addr -> list Z) (r : request) : addr -> list Z :=
  if rq_write r then upd f (rq_addr r) (rq_data r) else f.
Fixpoint reads_right (f : addr -> list Z) (rs : list request) : Prop :=
  match rs with
  | [] => True
  | r :: rs => (rq_write r = false -> rq_data r = f (rq_addr r)) /\ reads_right (effect f r) rs
  end.

(** The same request; a read has its data only once it is finished. *)
Definition matches (r r' : request) : Prop :=
  rq_buf r = rq_buf r' /\ rq_write r = rq_write r' /\ rq_addr r = rq_addr r' /\
  (rq_write r = true -> rq_data r = rq_data r').

Lemma reads_right_app f rs rs' :
  reads_right f (rs ++ rs') <-> reads_right f rs /\ reads_right (foldl effect f rs) rs'.
Proof. revert f. induction rs as [|r rs IH]; intros f; simpl; [tauto|]. rewrite IH. tauto. Qed.

Section Order.
Context {D : Type} `{!Ports D} (spins : nat) `{!Drive D spins}.
Abbreviation IDE := (ide D).

Definition pending (s : IDE) (l : list nat) : list request :=
  l ≫= (fun b => match ibufs s !! b with Some x => [request_of b x] | None => [] end).

Lemma pending_ext s s' l : (forall b, b ∈ l -> ibufs s' !! b = ibufs s !! b) -> pending s' l = pending s l.
Proof.
  intros H. unfold pending. induction l as [|b l IH]; [done|]. cbn. rewrite H by left.
  f_equal. apply IH. intros c Hc. apply H. by right.
Qed.

Lemma pending_app s l l' : pending s (l ++ l') = pending s l ++ pending s l'.
Proof. apply bind_app. Qed.

Lemma pending_bufs f s l :
  queue_ok spins f l s -> forall b, b ∈ rq_buf <$> pending s l <-> b ∈ l.
Proof.
  intros [_ _ _ Hb _] b. unfold pending. rewrite list_elem_of_fmap. split.
  - intros (r & -> & (c & Hr & Hc)%list_elem_of_bind). destruct (ibufs s !! c); [|by apply elem_of_nil in Hr].
    by apply list_elem_of_singleton in Hr as ->.
  - intros Hl. destruct (Hb b Hl) as (x & Hx & _). exists (request_of b x). split; [done|].
    apply list_elem_of_bind. exists b. rewrite Hx. split; [by apply list_elem_of_singleton|done].
Qed.

(** The state after the requests [dn] of [made] were finished. *)
Record ordered (f : addr -> list Z) (made dn : list request) (l : list nat) (s : IDE) (m : calls) : Prop := {
  o_queue : queue_ok spins (foldl effect f dn) l s;
  o_reads : reads_right f dn;
  o_order : Forall2 matches made (dn ++ pending s l);
  o_calls b a : m !! b = Some a ->
    exists x, ibufs s !! b = Some x /\ (b ∈ l \/ (a = false /\ finished x = true));
  o_known b : b ∈ l -> is_Some (m !! b) }.

Definition event_ok (h : bool) (ev : event) : Prop :=
  match ev with Request b x => waiting x /\ (dev x = 0 \/ h = true) | _ => True end.

Lemma put_buf_queue f l b x s :
  queue_ok spins f l s -> b ∉ l -> queue_ok spins f l (put_buf b x s).
Proof.
  intros [] Hb. constructor; simpl; rewrite ?length_insert; try done.
  - intros c Hc. rewrite list_lookup_insert_ne by (by intros ->). by apply q_bufs0.
  - destruct l as [|c l]; [done|]. rewrite list_lookup_insert_ne; [done|]. intros ->. apply Hb. left.
Qed.

Lemma request_ordered f made dn l s m b x :
  ordered f made dn l s m -> waiting x -> (dev x = 0 \/ havedisk1 s = true) ->
  exists s' m' made' l', step spins s m (Request b x) = Some (s', m', made', []) /\
    ordered f (made ++ made') dn l' s' m' /\ havedisk1 s' = havedisk1 s.
Proof.
  intros O Hw Hd. pose proof O as []. cbn [step]. destruct (m !! b) as [a|] eqn:Em.
  { exists s, m, [], l. rewrite app_nil_r. by destruct (ibufs s !! b). }
  destruct (ibufs s !! b) as [x0|] eqn:Ex; [|exists s, m, [], l; by rewrite app_nil_r].
  assert (b ∉ l) as Hb by (intros Hb; destruct (o_known0 b Hb); congruence).
  assert (b < length (ibufs s))%nat as Hlt by (by eapply lookup_lt_Some).
  assert (wp (iderw spins b) (fun r s' => r = false /\ queue_ok spins (foldl effect f dn) (l ++ [b]) s' /\
    ibufs s' = <[b := x]> (ibufs s) /\ havedisk1 s' = havedisk1 s) (fresh (put_buf b x s))) as Hi.
  { eapply (iderw_queues spins (foldl effect f dn) l b x); try done.
    - apply queue_ctx. by apply put_buf_queue.
    - simpl. by rewrite list_lookup_insert_eq. }
  apply wp_run in Hi as (r & s' & -> & -> & Hq & Hbs & Hh).
  exists s', (<[b := true]> m), [request_of b x], (l ++ [b]). split; [done|]. split; [|done].
  constructor; [done|done| | |].
  - rewrite pending_app, app_assoc. apply Forall2_app.
    + rewrite (pending_ext s); [done|]. intros c Hc. rewrite Hbs. apply list_lookup_insert_ne. by intros ->.
    + cbn. rewrite Hbs, list_lookup_insert_eq by done. by repeat constructor.
  - intros c a [[<- <-]|[Hne Hc]]%lookup_insert_Some; rewrite Hbs.
    + exists x. rewrite list_lookup_insert_eq by done. split; [done|]. left. set_solver.
    + rewrite list_lookup_insert_ne by done. destruct (o_calls0 c a Hc) as (y & Hy & Hor). exists y. set_solver.
  - intros c [Hc|Hc]%elem_of_app; destruct (decide (c = b)) as [->|Hne]; rewrite ?lookup_insert_eq;
      rewrite ?lookup_insert_ne by done; [done|by apply o_known0|done|set_solver].
Qed.

Lemma wake_calls_lookup w m b :
  wake_calls w m !! b = (fun a => a && negb (bool_decide (ChBuf (Z.of_nat b) ∈ w))) <$> m !! b.
Proof. unfold wake_calls. rewrite map_lookup_imap. by destruct (m !! b). Qed.

(** The queue is served: the first request is finished, and its caller woken. *)
Lemma served_ordered f made dn b l x s m s' :
  ordered f made dn (b :: l) s m -> ibufs s !! b = Some x ->
  queue_ok spins (serve x (foldl effect f dn)) l s' ->
  ibufs s' = <[b := served x (foldl effect f dn)]> (ibufs s) -> woken (ctx s') = [ChBuf (Z.of_nat b)] ->
  ordered f made (dn ++ completed s s') l s' (wake_calls (woken (ctx s')) m).
Proof.
  intros O Hx Hq Hbs Hwk. pose proof O as []. pose proof o_queue0 as [].
  apply chain_head in q_chain0 as (Hb & _). apply list.NoDup_cons in q_nodup0 as [Hnb Hnd].
  assert (b < length (ibufs s))%nat as Hlt by (by eapply lookup_lt_Some).
  set (g := foldl effect f dn) in *.
  assert (completed s s' = [mkreq b (has (flags x) B_DIRTY) (address x) (bdata (served x g))]) as Ec
    by (unfold completed; by rewrite Hb, Hx, Hbs, list_lookup_insert_eq by done).
  rewrite Ec. constructor.
  - rewrite foldl_app. fold g. cbn [foldl]. unfold effect, serve in *. simpl. by destruct (has (flags x) B_DIRTY).
  - apply reads_right_app. split; [done|]. fold g. simpl. split; [|done]. intros E. by rewrite E.
  - rewrite <- app_assoc. cbn [app].
    assert (pending s' l = pending s l) as ->
      by (apply pending_ext; intros c Hc; rewrite Hbs; apply list_lookup_insert_ne; by intros ->).
    assert (pending s (b :: l) = request_of b x :: pending s l) as Ep by (unfold pending; cbn; by rewrite Hx).
    rewrite Ep in o_order0. apply Forall2_app_inv_r in o_order0 as (m1 & m2 & H1 & H2 & ->).
    apply Forall2_app; [done|]. apply Forall2_cons_inv_r in H2 as (r & m3 & (M1 & M2 & M3 & M4) & H3 & ->).
    constructor; [|done]. unfold matches in *. simpl in *. rewrite M1, M2, M3. split_and!; try done.
    intros E. by rewrite E, M4 by congruence.
  - intros c a Hc. rewrite wake_calls_lookup, Hwk in Hc. destruct (m !! c) as [a0|] eqn:Em; [|done].
    simpl in Hc. injection Hc as Hc. destruct (o_calls0 c a0 Em) as (y & Hy & Hor). rewrite Hbs.
    destruct (decide (c = b)) as [->|Hne].
    + exists (served x g). rewrite list_lookup_insert_eq by done. split; [done|]. right.
      split; [|apply served_finished]. by rewrite bool_decide_eq_true_2, andb_false_r in Hc by left.
    + exists y. rewrite list_lookup_insert_ne by done. split; [done|].
      destruct Hor as [Hor|[-> Hf]]; [left; set_solver|right]. by rewrite <- Hc.
  - intros c Hc. rewrite wake_calls_lookup. destruct (o_known0 c) as [a Ha]; [by right|]. by rewrite Ha.
Qed.

Lemma interrupt_ordered f made dn l s m :
  ordered f made dn l s m ->
  exists s' m' dn' l', step spins s m Interrupt = Some (s', m', [], dn') /\
    ordered f made (dn ++ dn') l' s' m' /\ havedisk1 s' = havedisk1 s.
Proof.
  intros O. pose proof O as []. cbn [step]. destruct l as [|b l].
  - assert (wp (ideintr spins) (fun _ s' => s' = fresh s) (fresh s)) as Hi
      by (eapply ideintr_spurious; [by apply queue_ctx|done|done]).
    apply wp_run in Hi as ([] & s' & -> & ->).
    exists (fresh s), (wake_calls [] m), [], []. rewrite app_nil_r.
    assert (completed s (fresh s) = []) as -> by (unfold completed; by rewrite (q_chain _ _ _ _ o_queue0 : idequeue s = None)).
    split; [done|]. split; [|done]. constructor; try done; [by apply queue_ctx|..].
    + intros b a Hb. rewrite wake_calls_lookup in Hb. destruct (m !! b) as [a0|] eqn:Em; [|done].
      simpl in Hb. rewrite andb_true_r in Hb. injection Hb as <-. by apply o_calls0.
    + intros b Hb. by apply elem_of_nil in Hb.
  - destruct (q_bufs _ _ _ _ o_queue0 b) as (x & Hx & Hw); [left|].
    assert (wp (ideintr spins) (fun _ s' => queue_ok spins (serve x (foldl effect f dn)) l s' /\
      ibufs s' = <[b := served x (foldl effect f dn)]> (ibufs s) /\ havedisk1 s' = havedisk1 s /\
      woken (ctx s') = [ChBuf (Z.of_nat b)]) (fresh s)) as Hi.
    { eapply (ideintr_serves spins _ b l x (fresh s)); [by apply queue_ctx|done|done|].
      intros s' H1 H2 H3 H4. split_and!; try done. simpl. by rewrite H4. }
    apply wp_run in Hi as ([] & s' & -> & Hq & Hbs & Hh & Hwk).
    exists s', (wake_calls (woken (ctx s')) m), (completed s s'), l. split; [done|]. split; [|done].
    by eapply served_ordered.
Qed.

Lemma resume_ordered f made dn l s m b :
  ordered f made dn l s m ->
  exists s' m', step spins s m (Resume b) = Some (s', m', [], []) /\ ordered f made dn l s' m' /\
    havedisk1 s' = havedisk1 s.
Proof.
  intros O. pose proof O as []. cbn [step]. destruct (m !! b) as [[]|] eqn:Em; [by exists s, m| |by exists s, m].
  destruct (o_calls0 b false Em) as (x & Hx & Hor).
  assert (wp (iderw_resume b) (fun r s' => r = finished x /\ s' = fresh s) (fresh s)) as Hi
    by (by eapply (iderw_resumes b x)).
  apply wp_run in Hi as (r & s' & -> & -> & ->).
  exists (fresh s), (if finished x then delete b m else <[b := true]> m). split; [done|]. split; [|done].
  assert (finished x = true -> b ∉ l) as Hfin.
  { intros Hf Hb. destruct (q_bufs _ _ _ _ o_queue0 b Hb) as (y & Hy & Hw). rewrite Hx in Hy. injection Hy as <-.
    by rewrite (wt_open _ Hw) in Hf. }
  constructor; try done; [by apply queue_ctx|..].
  - intros c a Hc. destruct (finished x) eqn:Ef.
    + apply lookup_delete_Some in Hc as [_ Hc]. by apply o_calls0.
    + apply lookup_insert_Some in Hc as [[<- <-]|[_ Hc]]; [|by apply o_calls0].
      exists x. split; [done|]. left. destruct Hor as [?|[_ ?]]; [done|congruence].
  - intros c Hc. destruct (finished x) eqn:Ef.
    + rewrite lookup_delete_ne; [by apply o_known0|]. intros ->. by apply Hfin.
    + destruct (decide (c = b)) as [->|Hne]; [by rewrite lookup_insert_eq|].
      rewrite lookup_insert_ne by done. by apply o_known0.
Qed.

Lemma kick_ordered f made dn l s m b :
  ordered f made dn l s m -> ordered f made dn l s (alter (fun _ => false) b m).
Proof.
  intros []. constructor; try done.
  - intros c a Hc. apply lookup_alter_Some in Hc as [(<- & a0 & Hc & ->)|[_ Hc]]; [|by apply o_calls0].
    destruct (o_calls0 b a0 Hc) as (x & Hx & [Hor|[-> Hf]]); exists x; split; auto.
  - intros c Hc. destruct (o_known0 c Hc) as [a Ha]. destruct (decide (c = b)) as [->|Hne].
    + rewrite lookup_alter_eq, Ha. by eexists.
    + rewrite lookup_alter_ne by done. by eexists.
Qed.

Lemma step_ordered f made dn l s m ev :
  ordered f made dn l s m -> event_ok (havedisk1 s) ev ->
  exists s' m' made' dn' l', step spins s m ev = Some (s', m', made', dn') /\
    ordered f (made ++ made') (dn ++ dn') l' s' m' /\ havedisk1 s' = havedisk1 s.
Proof.
  intros O Hev. destruct ev as [b x| |b|b].
  - destruct Hev as [Hw Hd]. destruct (request_ordered f made dn l s m b x O Hw Hd) as (s' & m' & made' & l' & H1 & H2 & H3).
    exists s', m', made', [], l'. by rewrite app_nil_r.
  - destruct (interrupt_ordered f made dn l s m O) as (s' & m' & dn' & l' & H1 & H2 & H3).
    exists s', m', [], dn', l'. by rewrite app_nil_r.
  - destruct (resume_ordered f made dn l s m b O) as (s' & m' & H1 & H2 & H3).
    exists s', m', [], [], l. by rewrite !app_nil_r.
  - exists s, (alter (fun _ => false) b m), [], [], l. rewrite !app_nil_r. split; [done|].
    split; [by apply kick_ordered|done].
Qed.

Lemma run_ordered evs f made dn l s m :
  ordered f made dn l s m -> Forall (event_ok (havedisk1 s)) evs ->
  exists s' m' made' dn' l', run spins s m evs = Some (s', m', made', dn') /\
    ordered f (made ++ made') (dn ++ dn') l' s' m'.
Proof.
  intros O Hev. revert made dn l s m O Hev. induction evs as [|ev evs IH]; intros made dn l s m O Hev.
  { exists s, m, [], [], l. by rewrite !app_nil_r. }
  apply Forall_cons in Hev as [He Hevs].
  destruct (step_ordered _ _ _ _ _ _ ev O He) as (s1 & m1 & made1 & dn1 & l1 & E1 & O1 & Hh).
  rewrite <- Hh in Hevs. destruct (IH _ _ _ _ _ O1 Hevs) as (s2 & m2 & made2 & dn2 & l2 & E2 & O2).
  exists s2, m2, (made1 ++ made2), (dn1 ++ dn2), l2. cbn [run]. rewrite E1, E2. by rewrite !app_assoc.
Qed.
End Order.

(** C11: On a drive without faults the driver serves any number of threads correctly,
    whatever the order of their calls, wakeups and interrupts, spurious ones included: no
    call panics or hangs; the requests finish in the order in which they were made; every
    finished read has the data that the finished writes before it left in its sector of its
    disk; a caller that sleeps still waits for its request, and one that is awake with its
    request finished will return; and when nothing is pending the disk holds the effect of
    all the writes. *)
Theorem ide_serves_in_order {D : Type} `{!Ports D} (spins : nat) `{!Drive D spins} evs (s : ide D) :
  queue_ok spins (sectors (drive s)) [] s -> Forall (event_ok (havedisk1 s)) evs ->
  exists s' m made dn pend,
  run spins s ∅ evs = Some (s', m, made, dn) /\
  Forall2 matches made (dn ++ pend) /\ reads_right (sectors (drive s)) dn /\
  (forall b, m !! b = Some true -> b ∈ rq_buf <$> pend) /\
  (forall b, m !! b = Some false -> b ∉ rq_buf <$> pend -> exists x, ibufs s' !! b = Some x /\ finished x = true) /\
  (pend = [] -> forall a, sectors (drive s') a = foldl effect (sectors (drive s)) dn a).
Proof.
  intros Hq Hev. assert (ordered spins (sectors (drive s)) [] [] [] s ∅) as O
    by (constructor; try done; intros b Hb; by apply elem_of_nil in Hb).
  destruct (run_ordered spins evs _ _ _ _ _ _ O Hev) as (s' & m & made & dn & l & Hr & O').
  simpl in O'. pose proof O' as []. exists s', m, made, dn, (pending s' l).
  assert (forall b, b ∈ rq_buf <$> pending s' l <-> b ∈ l) as Hp by (by eapply pending_bufs).
  split; [done|]. split; [done|]. split; [done|]. split_and!.
  - intros b Hb. apply Hp. destruct (o_calls0 b true Hb) as (x & _ & [|[? _]]); done.
  - intros b Hb Hn. rewrite Hp in Hn. destruct (o_calls0 b false Hb) as (x & Hx & [|[_ Hf]]); [done|by exists x].
  - intros E. assert (l = []) as -> by (apply elem_of_nil_inv; intros b Hb; apply Hp in Hb; rewrite E in Hb; set_solver).
    by destruct o_queue0.
Qed.

(** A drive that is always ready: its registers, the sectors addressed by the last
    commands and the disks. *)
Record toy := mktoy { t_regs : Z -> Z; t_read : option addr; t_write : addr; t_disk : addr -> list Z }.

Definition toy_addr (r : Z -> Z) : addr :=
  ((r 502 - 224) / 16, lba (r 499) (r 500) (r 501) ((r 502 - 224) mod 16)).

#[export] Instance toy_ports : Ports toy := {|
  d_status d := (IDE_DRDY, d);
  d_outb p v d :=
    if p =? 503 then
      if v =? IDE_CMD_READ then mktoy (t_regs d) (Some (toy_addr (t_regs d))) (t_write d) (t_disk d)
      else mktoy (t_regs d) None (toy_addr (t_regs d)) (t_disk d)
    else mktoy (fun q => if q =? p then v else t_regs d q) (t_read d) (t_write d) (t_disk d);
  d_outsl bs d := mktoy (t_regs d) (t_read d) (t_write d) (upd (t_disk d) (t_write d) bs);
  d_insl d := (match t_read d with Some a => t_disk d a | None => [] end, d) |}.

Lemma toy_addr_of k l0 l1 l2 h :
  0 <= h < 16 ->
  ((224 + 16 * k + h - 224) / 16, lba l0 l1 l2 ((224 + 16 * k + h - 224) mod 16)) = (k, lba l0 l1 l2 h).
Proof.
  intros Hh. replace (224 + 16 * k + h - 224) with (k * 16 + h) by lia.
  rewrite Z.div_add_l, Z.div_small, Z.add_0_r by lia.
  by rewrite Z.add_comm, Z.mod_add, Z.mod_small by lia.
Qed.

#[export] Program Instance toy_drive : Drive toy 1 := {|
  sectors := t_disk; idle _ := True; reading := t_read |}.
Next Obligation. done. Qed.
Next Obligation. done. Qed.
Next Obligation. done. Qed.
Next Obligation. done. Qed.
Next Obligation. intros. split; [|done]. cbn. unfold toy_addr. cbn. by rewrite toy_addr_of. Qed.
Next Obligation. intros d a _ E. cbn in *. by rewrite E. Qed.
Next Obligation. intros. cbn. unfold upd, toy_addr. cbn. by rewrite toy_addr_of. Qed.

Definition demo_buf (sec : Z) (dirty : bool) (c : Z) : buf :=
  mkbuf (if dirty then Z.lor B_BUSY B_DIRTY else B_BUSY) 1 sec 0 0 (replicate BSIZE c).
Definition demo_ide : ide toy :=
  mkide [demo_buf 0 false 0; demo_buf 0 false 0] [None; None] None true
    (mktoy (fun _ => 0) None (0, 0) (fun _ => replicate BSIZE 0)) (mkctx [] [] false).

(** Buffer 0 is written to a sector with a 28-bit number while buffer 1 asks to read it; the
    interrupts come in between wakeups. *)
Lemma ide_serves_in_order_witness :
  let evs := [Request 0 (demo_buf 200000000 true 7); Request 1 (demo_buf 200000000 false 0); Kick 1; Resume 1;
              Interrupt; Resume 0; Interrupt; Resume 1; Interrupt] in
  exists s' made dn, run 1 demo_ide ∅ evs = Some (s', ∅, made, dn) /\
    reads_right (fun _ => replicate BSIZE 0) dn /\ length dn = 2%nat.
Proof.
  intros evs.
  destruct (ide_serves_in_order 1 evs demo_ide) as (s' & m & made & dn & pend & Hr & _ & Hrr & _).
  - constructor; try done; [apply NoDup_nil_2|]. intros b Hb. by apply elem_of_nil in Hb.
  - repeat (apply Forall_cons; split; [exact I || (split; [constructor; vm_compute; done|by right])|]). constructor.
  - exists s', made, dn.
    assert ((fun r => (snd (fst (fst r)), length (snd r))) <$> run 1 demo_ide ∅ evs = Some (∅, 2%nat)) as Hl
      by (vm_compute; reflexivity).
    rewrite Hr in Hl. change (Some (m, length dn) = Some (∅, 2%nat)) in Hl. clearbody evs. injection Hl as Hm Hl.
    rewrite Hm in Hr. split; [exact Hr|]. split; [exact Hrr|exact Hl].
Defined.
End Queue.

(** ** A read the drive reports an error for *)

(** When the drive reports an error, ideintr leaves the data alone and still marks the
    buffer valid and wakes its reader. *)
Module Faulty.
#[export] Instance bad_ports : Ports unit := {|
  d_status d := (Z.lor IDE_DRDY IDE_ERR, d); d_outb _ _ d := d; d_outsl _ d := d; d_insl d := ([], d) |}.

Lemma error_marked_valid :
  let s := mkide [Queue.demo_buf 3 false 9] [None] (Some 0%nat) true tt (mkctx [] [] false) in
  match ideintr 1 s with
  | Ret _ s' => exists x, ibufs s' !! 0%nat = Some x /\ finished x = true /\ bdata x = replicate BSIZE 9
  | _ => False
  end.
Proof. vm_compute. eexists. done. Qed.
End Faulty.
