(* ===== verification/Trap.v ===== *)
(** * trap.c: the dispatch of traps and interrupts

    [ksys] puts together what trap() reaches: the process table and the clock, the
    console, the disk driver, and how often an interrupt was acknowledged.  A handler of a
    device runs on its own state with the locks of the processor; the wakeups it issues
    are carried out on the process table.  trap() is cut where it gives up the processor:
    [trap] ends with [Exited], [Yielded] or [Returned], and [trap_resume] is what follows a
    yield.  The routines of the system calls are an argument. *)

From stdpp Require Import base list numbers strings gmap sets.
From S2P Require Import Prelude CString Spinlock Kalloc Proc Kthread Syscall Sysproc Console Ide Trapasm.
Import Ctx.

Open Scope Z_scope.
Local Open Scope kernel_scope.

Definition T_IRQ0 : Z := 32.
Definition IRQ_TIMER : Z := 0.
Definition IRQ_KBD : Z := 1.
Definition IRQ_COM1 : Z := 4.
Definition IRQ_IDE : Z := 14.
Definition IRQ_SPURIOUS : Z := 31.

Record ksys (E D : Type) := mkks {
  kt : tsys E;
  kcon : cons;
  kshift : Z;                    (* the static variable of kbdgetc *)
  kide : ide D;
  lapic : bool;                  (* lapic is not null *)
  eois : nat }.
Arguments mkks {E D}. Arguments kt {E D}. Arguments kcon {E D}. Arguments kshift {E D}. Arguments kide {E D}.
Arguments lapic {E D}. Arguments eois {E D}.

Inductive tend := Exited | Yielded | Returned.

Section Trap.
Context {E D : Type} `{ProcEnv E} `{!Ports D}.
Abbreviation KS := (ksys E D).

Definition in_clock {A} (m : M (tsys E) A) : M KS A :=
  zoom kt (fun t s => mkks t (kcon s) (kshift s) (kide s) (lapic s) (eois s)) m.
Definition in_table {A} (m : M (psys E) A) : M KS A := in_clock (in_proc m).

(** A handler on the part [get] of the state. *)
Definition device {S A} `{HasCtx S} (get : KS -> S) (put : S -> KS -> KS) (m : M S A) : M KS A :=
  r <- zoom (fun s => with_ctx (mkctx (held (ctx (kt s))) [] (killed (ctx (kt s)))) (get s)) put
         (a <- m ;; w <- gets (fun d => woken (ctx d)) ;; ret (a, w)) ;;
  forM (rev (snd r)) (fun c => in_table (Proc.wakeup c)) ;;
  ret (fst r).

Definition in_cons {A} (m : M cons A) : M KS A :=
  device kcon (fun c s => mkks (kt s) c (kshift s) (kide s) (lapic s) (eois s)) m.
Definition in_ide {A} (m : M (ide D) A) : M KS A :=
  device kide (fun d s => mkks (kt s) (kcon s) (kshift s) d (lapic s) (eois s)) m.
Definition set_shift (v : Z) : M KS unit :=
  modify (fun s => mkks (kt s) (kcon s) v (kide s) (lapic s) (eois s)).

(** lapic.c lapiceoi: a write of the register EOI. *)
Definition lapiceoi : M KS unit :=
  l <- gets lapic ;;
  when l do modify (fun s => mkks (kt s) (kcon s) (kshift s) (kide s) (lapic s) (S (eois s))).

(** cprintf of a message and a newline. *)
Definition printk (fmt : string) (args : list arg) : M KS unit := in_cons (cprintf (Some (str fmt ++ [10])) args).

(** The processor, the page-fault address it holds, the bound on the polls of the drive;
    the bytes the keyboard and the serial line have when they interrupt, and the stacks
    that procdump would print. *)
Variables (cpu_id cr2 : Z) (spins : nat) (scan received : list Z) (stacks : nat -> list Z).
Variable call : sysno -> M KS Z.

Definition cur_killed : M KS bool :=
  in_table (c <- curproc ;; p <- getp c ;; ret (negb (p_killed p =? 0))).

(** proc && proc->killed && (tf->cs&3) == DPL_USER. *)
Definition killed_user (f : trapframe) : M KS bool :=
  in_table (
    c <- gets cur ;;
    match c with
    | None => ret false
    | Some c => p <- getp c ;; ret (negb (p_killed p =? 0) && (Z.land (tf_cs f) 3 =? DPL_USER))
    end).

(** syscall.c syscall, with thread->tf as the frame. *)
Definition frame_eax : M KS Z :=
  in_table (rt <- curthread ;; th <- gett (fst rt) (snd rt) ;; f <- get_tf (t_tf th) ;; ret (i32 (tf_eax f))).
Definition set_eax (v : Z) : M KS unit :=
  in_table (rt <- curthread ;; th <- gett (fst rt) (snd rt) ;; f <- get_tf (t_tf th) ;;
            put_tf (t_tf th) (tf_set_eax (u32 v) f)).
Definition unknown_call (num : Z) : M KS unit :=
  p <- in_table (c <- curproc ;; getp c) ;;
  printk "%d %s: unknown sys call %d" [ANum (p_pid p); AStr (Some (p_name p)); ANum num].

Definition do_syscall : M KS unit :=
  num <- frame_eax ;; syscall call unknown_call set_eax num.

Definition tick : M KS unit :=
  in_clock (
    acquire LkTicks ;;
    modify (fun s => mktsys (tp s) (u32 (ticks s + 1))) ;;
    in_proc (Proc.wakeup ChTicks) ;;
    release LkTicks).

(** The default case. *)
Definition unexpected (f : trapframe) : M KS unit :=
  t <- in_table (gets curt) ;;
  if bool_decide (t = None) || (Z.land (tf_cs f) 3 =? 0) then
    printk "unexpected trap %d from cpu %d eip %x (cr2=0x%x)" [ANum (tf_trapno f); ANum cpu_id; ANum (tf_eip f); ANum cr2] ;;
    panic "trap"
  else
    p <- in_table (c <- curproc ;; getp c) ;;
    printk "pid %d %s: trap %d err %d on cpu %d eip 0x%x addr 0x%x--kill proc"
      [ANum (p_pid p); AStr (Some (p_name p)); ANum (tf_trapno f); ANum (tf_err f); ANum cpu_id; ANum (tf_eip f); ANum cr2] ;;
    in_table (c <- curproc ;; setp c (pw_killed 1)).

(** The switch on the trap number. *)
Definition dispatch (f : trapframe) : M KS unit :=
  let n := tf_trapno f in
  if n =? T_IRQ0 + IRQ_TIMER then (when (cpu_id =? 0) do tick) ;; lapiceoi
  else if n =? T_IRQ0 + IRQ_IDE then in_ide (ideintr spins) ;; lapiceoi
  else if n =? T_IRQ0 + IRQ_IDE + 1 then ret tt
  else if n =? T_IRQ0 + IRQ_KBD then
    (sh <- gets kshift ;; t <- gets (fun s => tp (kt s)) ;;
     sh <- in_cons (kbdintr t stacks sh scan) ;; set_shift sh) ;; lapiceoi
  else if n =? T_IRQ0 + IRQ_COM1 then
    (t <- gets (fun s => tp (kt s)) ;; in_cons (uartintr t stacks received)) ;; lapiceoi
  else if (n =? T_IRQ0 + 7) || (n =? T_IRQ0 + IRQ_SPURIOUS) then
    printk "cpu%d: spurious interrupt at %x:%x" [ANum cpu_id; ANum (tf_cs f); ANum (tf_eip f)] ;; lapiceoi
  else unexpected f.

Definition do_exit : M KS tend := in_table exit ;; ret Exited.

(** The last check, also where trap() continues after a yield. *)
Definition trap_end (f : trapframe) : M KS tend :=
  e <- killed_user f ;; if e : bool then do_exit else ret Returned.

Definition must_yield (f : trapframe) : M KS bool :=
  in_table (
    c <- gets cur ;;
    match c with
    | None => ret false
    | Some _ =>
        rt <- curthread ;; th <- gett (fst rt) (snd rt) ;;
        ret (bool_decide (t_state th = RUNNING) && (tf_trapno f =? T_IRQ0 + IRQ_TIMER))
    end).

(** trap(tf), [a] the address tf. *)
Definition trap (a : Z) : M KS tend :=
  f <- in_table (get_tf a) ;;
  if tf_trapno f =? T_SYSCALL then
    k <- cur_killed ;;
    if k : bool then do_exit else
    in_table (rt <- curthread ;; sett (fst rt) (snd rt) (tw_tf a)) ;;
    do_syscall ;;
    k <- cur_killed ;;
    if k : bool then do_exit else ret Returned
  else
    dispatch f ;;
    e <- killed_user f ;;
    if e : bool then do_exit else
    y <- must_yield f ;;
    if y : bool then in_table yield_enter ;; ret Yielded else
    trap_end f.

Definition trap_resume (a : Z) : M KS tend :=
  in_table yield_leave ;; f <- in_table (get_tf a) ;; trap_end f.

(** ** A killed process does not get back to user mode *)

(** [ends m Q]: [Q] holds wherever [m] returns. *)
Definition ends {S A} (m : M S A) (Q : A -> S -> Prop) : Prop := forall s a s', m s = Ret a s' -> Q a s'.

Lemma ends_bind {S A B} (m : M S A) (k : A -> M S B) Q : (forall a, ends (k a) Q) -> ends (bind m k) Q.
Proof. intros Hk s b s' Hb. unfold bind in Hb. destruct (m s) as [a s1| | | |]; try done. by eapply Hk. Qed.

Lemma ends_ret {S A} (a : A) (Q : A -> S -> Prop) : (forall s, Q a s) -> ends (ret a) Q.
Proof. intros HQ s b s' Hb. unfold ret in Hb. injection Hb as <- <-. apply HQ. Qed.

(** The process that runs has not been killed. *)
Definition alive (s : KS) : Prop :=
  forall c p, cur (tp (kt s)) = Some c -> procs (tp (kt s)) !! c = Some p -> p_killed p = 0.

Definition alive_end (r : tend) (s : KS) : Prop := r = Returned -> alive s.

Lemma ends_exit : ends do_exit alive_end.
Proof. apply ends_bind. intros []. by apply ends_ret. Qed.

Lemma ends_checked (m : M KS bool) :
  (forall s s', m s = Ret false s' -> alive s') ->
  ends (k <- m ;; if k : bool then do_exit else ret Returned) alive_end.
Proof.
  intros Hm s r s' Hr. unfold bind in Hr. destruct (m s) as [[] s1| | | |] eqn:Em; try done.
  - by eapply ends_exit.
  - unfold ret in Hr. injection Hr as <- <-. intros _. by eapply Hm.
Qed.

Lemma cur_killed_false s s' : cur_killed s = Ret false s' -> alive s'.
Proof.
  unfold cur_killed, in_table, in_clock, in_proc, curproc, getp, zoom, bind, gets, lift_opt, ret. cbn.
  destruct s as [[P n] ? ? ? ? ?]. cbn [kt tp ticks]. destruct (cur P) as [c|] eqn:Ec; [|done].
  destruct (procs P !! c) as [p|] eqn:Ep; [|done]. intros [= Hk <-] c' p'. cbn [kt tp]. rewrite Ec. intros [= <-].
  rewrite Ep. intros [= <-]. apply negb_false_iff, Z.eqb_eq in Hk. done.
Qed.

Lemma killed_user_false f s s' : Z.land (tf_cs f) 3 = DPL_USER -> killed_user f s = Ret false s' -> alive s'.
Proof.
  intros Hu. unfold killed_user, in_table, in_clock, in_proc, getp, zoom, bind, gets, lift_opt, ret. cbn.
  destruct s as [[P n] ? ? ? ? ?]. cbn [kt tp ticks]. destruct (cur P) as [c|] eqn:Ec.
  - destruct (procs P !! c) as [p|] eqn:Ep; [|done]. rewrite Hu. intros [= Hk <-] c' p'. cbn [kt tp]. rewrite Ec. intros [= <-].
    rewrite Ep. intros [= <-]. rewrite andb_true_r in Hk. apply negb_false_iff, Z.eqb_eq in Hk. done.
  - intros [= <-] c' p'. cbn [kt tp]. by rewrite Ec.
Qed.

Lemma ends_trap_end f : Z.land (tf_cs f) 3 = DPL_USER -> ends (trap_end f) alive_end.
Proof. intros Hu. apply ends_checked. intros s s'. by apply killed_user_false. Qed.

(** The frame at [a] is that of a trap from user mode. *)
Definition from_user (s : KS) (a : Z) : Prop :=
  forall f, tfs (tp (kt s)) !! a = Some f -> Z.land (tf_cs f) 3 = DPL_USER.

Lemma get_tf_ret a (s s' : KS) f : in_table (get_tf a) s = Ret f s' -> tfs (tp (kt s)) !! a = Some f.
Proof.
  unfold in_table, in_clock, in_proc, get_tf, zoom, bind, gets, lift_opt, ret. cbn.
  destruct (tfs (tp (kt s)) !! a); [|done]. by intros [= <- _].
Qed.

Lemma yield_leave_frames (s s' : KS) u : in_table yield_leave s = Ret u s' -> tfs (tp (kt s')) = tfs (tp (kt s)).
Proof.
  unfold in_table, in_clock, in_proc, yield_leave, release, set_held, modify, zoom, bind, gets, ret. cbn.
  destruct (bool_decide _); [|done]. by intros [= _ <-].
Qed.

(** C28: trap() never returns to user mode in a process that has been killed, whatever the
    trap or the system call did and whoever killed it in the meantime, also when trap()
    gave up the processor to another thread: it returns only if proc->killed is 0. *)
Theorem no_return_when_killed a (s s' : KS) :
  from_user s a -> trap a s = Ret Returned s' \/ trap_resume a s = Ret Returned s' -> alive s'.
Proof.
  intros Hu [Ht|Ht].
  - unfold trap, bind at 1 in Ht. destruct (in_table (get_tf a) s) as [f s1| | | |] eqn:Ef; try done.
    apply get_tf_ret, Hu in Ef. revert Ht. generalize s1. clear s1. destruct (tf_trapno f =? T_SYSCALL); intros s1 Ht.
    + eapply (ends_bind (A := bool) _ _ alive_end); [|exact Ht|done]. intros []; [apply ends_exit|].
      do 2 (apply ends_bind; intros []). apply ends_checked, cur_killed_false.
    + eapply (ends_bind (A := unit) _ _ alive_end); [|exact Ht|done]. intros []. apply ends_bind. intros []; [apply ends_exit|].
      apply ends_bind. intros []; [apply ends_bind; intros []; by apply ends_ret|by apply ends_trap_end].
  - unfold trap_resume, bind in Ht. destruct (in_table yield_leave s) as [[] s1| | | |] eqn:Ey; try done.
    destruct (in_table (get_tf a) s1) as [f s2| | | |] eqn:Ef; try done. apply get_tf_ret in Ef.
    rewrite (yield_leave_frames _ _ _ Ey) in Ef. eapply ends_trap_end; [by apply Hu|exact Ht|done].
Qed.

(** ** The clock interrupt *)

Definition with_table (P : psys E) (s : KS) : KS :=
  mkks (mktsys P (ticks (kt s))) (kcon s) (kshift s) (kide s) (lapic s) (eois s).
Definition with_ticks (n : Z) (s : KS) : KS :=
  mkks (mktsys (tp (kt s)) n) (kcon s) (kshift s) (kide s) (lapic s) (eois s).
Definition with_eois (n : nat) (s : KS) : KS := mkks (kt s) (kcon s) (kshift s) (kide s) (lapic s) n.

Lemma wp_in_table {A} (m : M (psys E) A) (Q : A -> KS -> Prop) s :
  wp m (fun a P => Q a (with_table P s)) (tp (kt s)) -> wp (in_table m) Q s.
Proof. intros Hm. by do 2 apply wp_zoom. Qed.

Lemma wp_tick s (Q : unit -> KS -> Prop) :
  let P := tp (kt s) in
  sys_ok P -> held (pctx P) = [] ->
  Q tt (with_ticks (u32 (ticks (kt s) + 1)) (with_table (with_ttable (wake_rows (procs P) (Some ChTicks) (ttable P)) P) s)) ->
  wp tick Q s.
Proof.
  intros P Hs Hh HQ. unfold tick. apply wp_zoom. wp_steps.
  apply wp_acquire; [cbn; fold P; rewrite Hh; apply not_elem_of_nil|]. wp_steps. apply wp_zoom.
  apply wp_wakeup_proc; [exact Hs|cbn; fold P; rewrite Hh; set_solver|].
  eapply wp_release; [cbn; reflexivity|]. cbn. fold P. destruct P as [? ? ? ? ? ? ? ? ? ? ? ? [h w k]] eqn:EP. cbn in *. subst h. exact HQ.
Qed.

Lemma wp_lapiceoi s (Q : unit -> KS -> Prop) :
  Q tt (with_eois (if lapic s then S (eois s) else eois s) s) -> wp lapiceoi Q s.
Proof. intros HQ. unfold lapiceoi. wp_steps. destruct s as [? ? ? ? l ?]. cbn [lapic] in *. by destruct l; wp_steps. Qed.

(** A thread that runs gives up the processor. *)
Lemma wp_yield_enter r t th (P : psys E) (Q : unit -> psys E -> Prop) :
  curt P = Some (r, t) -> thread_at (ttable P) r t = Some th -> held (pctx P) = [] ->
  Q tt (with_pctx (mkctx [LkPtable] (woken (pctx P)) (killed (pctx P))) (with_ttable (alter (alter (tw_state RUNNABLE) t) r (ttable P)) P)) ->
  wp yield_enter Q P.
Proof.
  intros Hct Hth Hh HQ. unfold yield_enter. wp_steps. apply wp_acquire; [cbn; rewrite Hh; apply not_elem_of_nil|]. wp_steps.
  unfold curthread at 1. wp_steps. eapply wp_lift_opt; [exact Hct|]. cbn [fst snd]. wp_steps. apply wp_sett; [by eexists|].
  unfold sched. wp_steps. cbn [pctx with_ttable with_ctx psys_ctx held ctx]. rewrite Hh, bool_decide_eq_true_2 by left.
  cbn [negb length Nat.eqb].
  unfold curthread. wp_steps. eapply wp_lift_opt; [exact Hct|]. wp_steps. cbn [fst snd].
  eapply wp_gett; [cbn; rewrite thread_at_alter, decide_True, Hth by done; reflexivity|]. wp_steps. cbn in HQ |- *. exact HQ.
Qed.

Lemma running_not_woken ps c tab r t th :
  thread_at tab r t = Some th -> t_state th <> SLEEPING -> thread_at (wake_rows ps c tab) r t = Some th.
Proof.
  intros Hth Hst. unfold thread_at, wake_rows in *. rewrite list_lookup_imap. destruct (tab !! r) as [row|]; [|done]. cbn in *.
  destruct (ready_at ps r); [|done]. rewrite list_lookup_fmap, Hth. cbn. unfold wake_th. by rewrite bool_decide_eq_false_2.
Qed.

(** The clock after trap() on the processor [cpu_id]. *)
Definition clock_table (P : psys E) : list (list kthread) :=
  if cpu_id =? 0 then wake_rows (procs P) (Some ChTicks) (ttable P) else ttable P.
Definition clock_ticks (n : Z) : Z := if cpu_id =? 0 then u32 (n + 1) else n.

Lemma with_table_same s : with_table (tp (kt s)) s = s.
Proof. by destruct s as [[] ? ? ? ? ?]. Qed.

Lemma wp_dispatch_timer f s (Q : unit -> KS -> Prop) :
  let P := tp (kt s) in
  sys_ok P -> held (pctx P) = [] -> tf_trapno f = T_IRQ0 + IRQ_TIMER ->
  Q tt (with_eois (if lapic s then S (eois s) else eois s)
    (with_ticks (clock_ticks (ticks (kt s))) (with_table (with_ttable (clock_table P) P) s))) ->
  wp (dispatch f) Q s.
Proof.
  intros P Hs Hh Hno HQ. unfold dispatch. rewrite Hno, Z.eqb_refl. apply wp_bind. unfold clock_ticks, clock_table in HQ.
  destruct (cpu_id =? 0).
  - apply wp_tick; [exact Hs|exact Hh|]. by apply wp_lapiceoi.
  - wp_steps. apply wp_lapiceoi. unfold P in HQ. rewrite with_ttable_same, with_table_same in HQ. by destruct s as [[] ? ? ? ? ?].
Qed.

Lemma run_eq {A} (m : M KS A) s a s' : wp m (fun x t => x = a /\ t = s') s -> m s = Ret a s'.
Proof. intros (x & t & Hm & -> & ->)%wp_run. exact Hm. Qed.

(** The state after the switch on the trap number. *)
Definition after_clock (s : KS) : KS :=
  let P := tp (kt s) in
  with_eois (if lapic s then S (eois s) else eois s)
    (with_ticks (clock_ticks (ticks (kt s))) (with_table (with_ttable (clock_table P) P) s)).

(** C27: The clock interrupt of a running thread.  On the first processor ticks advances
    modulo 2^32 and the threads asleep on it in ready processes, and no others, become
    RUNNABLE; on the others the clock is left alone.  The interrupt is acknowledged once if
    there is a local APIC.  Then a thread that was interrupted in user mode and whose
    process has been killed goes to exit(); any other gives up the processor, marked
    RUNNABLE under the lock of the process table. *)
Theorem timer_interrupt a f c p r t th s :
  let P := tp (kt s) in
  sys_ok P -> held (pctx P) = [] -> tfs P !! a = Some f -> tf_trapno f = T_IRQ0 + IRQ_TIMER ->
  cur P = Some c -> procs P !! c = Some p ->
  curt P = Some (r, t) -> thread_at (ttable P) r t = Some th -> t_state th = RUNNING ->
  trap a s =
    if negb (p_killed p =? 0) && (Z.land (tf_cs f) 3 =? DPL_USER) then do_exit (after_clock s)
    else Ret Yielded
      (with_eois (if lapic s then S (eois s) else eois s)
        (with_ticks (clock_ticks (ticks (kt s)))
          (with_table (with_pctx (mkctx [LkPtable] (woken (pctx P)) (killed (pctx P)))
            (with_ttable (alter (alter (tw_state RUNNABLE) t) r (clock_table P)) P)) s))).
Proof.
  intros P Hs Hh Hf Hno Hc Hp Hct Hth Hst.
  assert (thread_at (clock_table P) r t = Some th) as Hth'.
  { unfold clock_table. destruct (cpu_id =? 0); [|done]. apply running_not_woken; [done|by rewrite Hst]. }
  assert (dispatch f s = Ret tt (after_clock s)) as Hd.
  { apply run_eq. by apply wp_dispatch_timer. }
  assert (killed_user f (after_clock s) = Ret (negb (p_killed p =? 0) && (Z.land (tf_cs f) 3 =? DPL_USER)) (after_clock s)) as Hu.
  { apply run_eq, wp_in_table. wp_steps. cbn [kt tp after_clock with_eois with_ticks with_table cur with_ttable]. fold P. rewrite Hc. wp_steps.
    eapply wp_getp; [exact Hp|]. wp_steps. split; [done|]. apply (with_table_same (after_clock s)). }
  assert (in_table (get_tf a) s = Ret f s) as Eg.
  { apply run_eq, wp_in_table. unfold get_tf. wp_steps. eapply wp_lift_opt; [exact Hf|]. split; [done|]. apply with_table_same. }
  unfold trap, bind at 1. rewrite Eg, Hno. change (T_IRQ0 + IRQ_TIMER =? T_SYSCALL) with false. cbn match.
  unfold bind at 1. rewrite Hd. unfold bind at 1. rewrite Hu. destruct (_ && _); [done|].
  apply run_eq. wp_step. apply wp_in_table. wp_steps. cbn [kt tp after_clock with_eois with_ticks with_table cur with_ttable]. fold P. rewrite Hc. wp_steps.
  unfold curthread. wp_steps. eapply wp_lift_opt; [exact Hct|]. wp_steps. cbn [fst snd]. eapply wp_gett; [exact Hth'|]. wp_steps.
  rewrite Hst, Hno, bool_decide_eq_true_2, Z.eqb_refl by done. cbn [andb]. wp_step.
  apply wp_in_table. eapply (wp_yield_enter r t th); [exact Hct|exact Hth'|exact Hh|]. wp_steps. split; [done|]. reflexivity.
Qed.
End Trap.

#[local] Existing Instance Queue.toy_ports.

(** The first process is in user mode, with the frame of a trap [n] at its trap frame. *)
Definition trapped (n : Z) (P : psys Z) : psys Z :=
  mkpsys (procs P) (ttable P) (initproc P) (nextpid P) (nexttid P)
    (<[5000 := mktf 0 0 0 0 0 0 0 11 0 0 43 43 n 0 100 35 512 4096 43]> (tfs P)) (contexts P) (words P)
    (cur P) (curt P) (first P) (env P) (pctx P).
Definition demo_table (n : Z) : psys Z := trapped n demo_main.
Definition demo_ks (n : Z) : ksys Z Queue.toy :=
  mkks (mktsys (demo_table n) 4294967295) (consoleinit true [] 0 (mkctx [] [] false)) 0 Queue.demo_ide true 0.

Lemma running_ok r t f (P : psys Z) : sys_ok P -> sys_ok (with_ttable (alter (alter f t) r (ttable P)) P).
Proof. apply table_ok_sett. Qed.

(** What the witnesses use of [demo_main]. *)
Lemma demo_main_facts :
  exists p th, sys_ok demo_main /\ procs demo_main !! 0%nat = Some p /\ p_killed p = 0 /\ cur demo_main = Some 0%nat /\
    curt demo_main = Some (0, 0)%nat /\ thread_at (ttable demo_main) 0 0 = Some th /\ t_state th = RUNNING /\ pctx demo_main = mkctx [] [] false.
Proof.
  eexists _, _. split; [apply running_ok; exact (proj1 (proj1 Demo.init_inv))|].
  split; [vm_compute; reflexivity|]. split; [vm_compute; reflexivity|]. split; [vm_compute; reflexivity|]. split; [vm_compute; reflexivity|].
  split; [vm_compute; reflexivity|]. split; vm_compute; reflexivity.
Qed.

(** The clock wraps around. *)
Lemma timer_interrupt_witness :
  exists s', trap 0 0 1 [] [] (fun _ => []) (fun _ => ret 0) 5000 (demo_ks 32) = Ret Yielded s' /\
    ticks (kt s') = 0 /\ eois s' = 1%nat /\ held (pctx (tp (kt s'))) = [LkPtable] /\
    t_state <$> thread_at (ttable (tp (kt s'))) 0 0 = Some RUNNABLE.
Proof.
  destruct demo_main_facts as (p & th & Hs & Hp & Hk & Hc & Hct & Hth & Hst & Hx).
  unfold demo_ks, demo_table. revert Hs Hp Hk Hc Hct Hth Hst Hx. generalize demo_main. intros P Hs Hp Hk Hc Hct Hth Hst Hx.
  eexists. split.
  { etransitivity; [apply (timer_interrupt 0 0 1 [] [] (fun _ => []) (fun _ => ret 0) 5000
      (mktf 0 0 0 0 0 0 0 11 0 0 43 43 32 0 100 35 512 4096 43) 0 p 0 0 th (mkks (mktsys (trapped 32 P) 4294967295)
        (consoleinit true [] 0 (mkctx [] [] false)) 0 Queue.demo_ide true 0));
      [exact Hs|cbn; rewrite Hx; reflexivity|apply lookup_insert_eq|reflexivity|exact Hc|exact Hp|exact Hct|exact Hth|exact Hst]|].
    rewrite Hk. cbn [Z.eqb negb andb]. reflexivity. }
  split; [reflexivity|]. split; [reflexivity|]. split; [reflexivity|].
  cbn [kt tp with_eois with_ticks with_table]. unfold with_pctx. cbn [with_ctx psys_ctx with_ttable ttable]. rewrite thread_at_alter, decide_True by (split; reflexivity).
  unfold clock_table. cbn [Z.eqb ttable trapped]. rewrite (running_not_woken _ _ _ _ _ th Hth) by (rewrite Hst; discriminate). reflexivity.
Defined.

(** A system call that returns 7. *)
Lemma no_return_when_killed_witness :
  exists s', trap 0 0 1 [] [] (fun _ => []) (fun _ => ret 7) 5000 (demo_ks 64) = Ret Returned s' /\ alive s' /\
    tf_eax <$> tfs (tp (kt s')) !! 5000 = Some 7.
Proof.
  assert (exists s', trap 0 0 1 [] [] (fun _ => []) (fun _ => ret 7) 5000 (demo_ks 64) = Ret Returned s' /\
    tf_eax <$> tfs (tp (kt s')) !! 5000 = Some 7) as (s' & Hs & Hx) by (eexists; split; vm_compute; reflexivity).
  exists s'. split; [exact Hs|]. split; [|exact Hx].
  apply (no_return_when_killed 0 0 1 [] [] (fun _ => []) (fun _ => ret 7) 5000 (demo_ks 64) s').
  - intros f Hf. cbn in Hf. rewrite lookup_insert_eq in Hf. injection Hf as <-. reflexivity.
  - left. exact Hs.
Defined.
