(* ===== verification/Intr.v ===== *)
(** * picirq.c, ioapic.c, lapic.c, timer.c and uartinit: interrupt controllers and clocks

    The registers of the devices, as their data sheets describe them: two 8259A interrupt
    controllers, the redirection table of the I/O APIC, the local APIC with the messages it
    sends to other processors, counter 0 of the interval timer, the 8250 serial port and the
    clock in the CMOS memory.  The routines of the kernel are sequences of writes to them.
    The theorems: after the calls that main makes, exactly the lines of the devices in use
    are open, each at the vector that trap() expects; cmostime never returns a date put
    together from two. *)

From stdpp Require Import base list numbers strings functions.
From S2P Require Import Prelude Trapasm Trap.

Open Scope Z_scope.
Local Open Scope kernel_scope.

(** ** The devices *)

(** An 8259A: the mask, the vector of its line 0, and what the initialisation words chose;
    [p_next] is the initialisation word it expects, 0 for none. *)
Record pic := mkpic {
  p_mask : Z; p_base : Z; p_next : nat; p_need4 : bool; p_edge : bool; p_slaves : Z; p_aeoi : bool; p_special : bool }.

Definition pic_write (a0 : bool) (v : Z) (p : pic) : pic :=
  if a0 then
    match p_next p with
    | 2%nat => mkpic (p_mask p) (Z.land v 248) 3 (p_need4 p) (p_edge p) (p_slaves p) (p_aeoi p) (p_special p)
    | 3%nat => mkpic (p_mask p) (p_base p) (if p_need4 p then 4 else 0)%nat (p_need4 p) (p_edge p) v (p_aeoi p) (p_special p)
    | 4%nat => mkpic (p_mask p) (p_base p) 0 (p_need4 p) (p_edge p) (p_slaves p) (Z.testbit v 1) (p_special p)
    | _ => mkpic v (p_base p) 0 (p_need4 p) (p_edge p) (p_slaves p) (p_aeoi p) (p_special p)
    end
  else if Z.testbit v 4 then mkpic 0 (p_base p) 2 (Z.testbit v 0) (negb (Z.testbit v 3)) (p_slaves p) false false
  else if Z.testbit v 3 && Z.testbit v 6 then
    mkpic (p_mask p) (p_base p) (p_next p) (p_need4 p) (p_edge p) (p_slaves p) (p_aeoi p) (Z.testbit v 5)
  else p.

(** Counter 0 of the 8254: the control word, and the bytes of the count written after it. *)
Record pit := mkpit { t_mode : Z; t_bytes : list Z }.

(** An 8250: the line control, the divisor, the interrupt enable, FIFO and modem control
    registers and the characters sent. *)
Record com := mkcom { c_lcr : Z; c_dll : Z; c_dlm : Z; c_ier : Z; c_fcr : Z; c_mcr : Z; c_sent : list Z }.

Definition com_write (off v : Z) (c : com) : com :=
  let dlab := Z.testbit (c_lcr c) 7 in
  if off =? 0 then if dlab then mkcom (c_lcr c) v (c_dlm c) (c_ier c) (c_fcr c) (c_mcr c) (c_sent c)
    else mkcom (c_lcr c) (c_dll c) (c_dlm c) (c_ier c) (c_fcr c) (c_mcr c) (c_sent c ++ [v])
  else if off =? 1 then if dlab then mkcom (c_lcr c) (c_dll c) v (c_ier c) (c_fcr c) (c_mcr c) (c_sent c)
    else mkcom (c_lcr c) (c_dll c) (c_dlm c) v (c_fcr c) (c_mcr c) (c_sent c)
  else if off =? 2 then mkcom (c_lcr c) (c_dll c) (c_dlm c) (c_ier c) v (c_mcr c) (c_sent c)
  else if off =? 3 then mkcom v (c_dll c) (c_dlm c) (c_ier c) (c_fcr c) (c_mcr c) (c_sent c)
  else if off =? 4 then mkcom (c_lcr c) (c_dll c) (c_dlm c) (c_ier c) (c_fcr c) v (c_sent c)
  else c.

(** The devices, with the static variable irqmask, uart, and whether ioapicinit complained. *)
Record intr := mkintr {
  pic1 : pic; pic2 : pic; irqmask : Z;
  iosel : Z; ioregs : Z -> Z; said : bool;
  counter : pit; serial0 : com; has_uart : bool }.

Definition set_pic1 (f : pic -> pic) (s : intr) : intr :=
  mkintr (f (pic1 s)) (pic2 s) (irqmask s) (iosel s) (ioregs s) (said s) (counter s) (serial0 s) (has_uart s).
Definition set_pic2 (f : pic -> pic) (s : intr) : intr :=
  mkintr (pic1 s) (f (pic2 s)) (irqmask s) (iosel s) (ioregs s) (said s) (counter s) (serial0 s) (has_uart s).
Definition set_irqmask (v : Z) (s : intr) : intr :=
  mkintr (pic1 s) (pic2 s) v (iosel s) (ioregs s) (said s) (counter s) (serial0 s) (has_uart s).
Definition set_io (sel : Z) (r : Z -> Z) (s : intr) : intr :=
  mkintr (pic1 s) (pic2 s) (irqmask s) sel r (said s) (counter s) (serial0 s) (has_uart s).
Definition set_said (b : bool) (s : intr) : intr :=
  mkintr (pic1 s) (pic2 s) (irqmask s) (iosel s) (ioregs s) b (counter s) (serial0 s) (has_uart s).
Definition set_counter (f : pit -> pit) (s : intr) : intr :=
  mkintr (pic1 s) (pic2 s) (irqmask s) (iosel s) (ioregs s) (said s) (f (counter s)) (serial0 s) (has_uart s).
Definition set_com (f : com -> com) (s : intr) : intr :=
  mkintr (pic1 s) (pic2 s) (irqmask s) (iosel s) (ioregs s) (said s) (counter s) (f (serial0 s)) (has_uart s).
Definition set_uart (b : bool) (s : intr) : intr :=
  mkintr (pic1 s) (pic2 s) (irqmask s) (iosel s) (ioregs s) (said s) (counter s) (serial0 s) b.

Definition COM1 : Z := 1016.

Definition outb (port v : Z) : M intr unit := modify (
  let v := u8 v in
  if port =? 32 then set_pic1 (pic_write false v) else if port =? 33 then set_pic1 (pic_write true v)
  else if port =? 160 then set_pic2 (pic_write false v) else if port =? 161 then set_pic2 (pic_write true v)
  else if port =? 67 then set_counter (fun _ => mkpit v [])
  else if port =? 64 then set_counter (fun t => mkpit (t_mode t) (t_bytes t ++ [v]))
  else if (COM1 <=? port) && (port <? COM1 + 8) then set_com (com_write (port - COM1) v)
  else fun s => s).

(** ** picirq.c *)

Definition IO_PIC1 : Z := 32.
Definition IO_PIC2 : Z := 160.
Definition IRQ_SLAVE : Z := 2.
Definition irqmask0 : Z := Z.land 65535 (Z.lnot (Z.shiftl 1 IRQ_SLAVE)).

Definition picsetmask (mask : Z) : M intr unit :=
  modify (set_irqmask mask) ;;
  outb (IO_PIC1 + 1) mask ;;
  outb (IO_PIC2 + 1) (Z.shiftr mask 8).

Definition picenable (irq : Z) : M intr unit :=
  m <- gets irqmask ;; picsetmask (u16 (Z.land m (Z.lnot (Z.shiftl 1 irq)))).

Definition picinit : M intr unit :=
  outb (IO_PIC1 + 1) 255 ;;
  outb (IO_PIC2 + 1) 255 ;;
  outb IO_PIC1 17 ;;
  outb (IO_PIC1 + 1) T_IRQ0 ;;
  outb (IO_PIC1 + 1) (Z.shiftl 1 IRQ_SLAVE) ;;
  outb (IO_PIC1 + 1) 3 ;;
  outb IO_PIC2 17 ;;
  outb (IO_PIC2 + 1) (T_IRQ0 + 8) ;;
  outb (IO_PIC2 + 1) IRQ_SLAVE ;;
  outb (IO_PIC2 + 1) 3 ;;
  outb IO_PIC1 104 ;;
  outb IO_PIC1 10 ;;
  outb IO_PIC2 104 ;;
  outb IO_PIC2 10 ;;
  m <- gets irqmask ;;
  (when (negb (m =? 65535)) do picsetmask m).

(** ** ioapic.c *)

Definition REG_ID : Z := 0.
Definition REG_VER : Z := 1.
Definition REG_TABLE : Z := 16.
Definition INT_DISABLED : Z := 65536.

Definition ioapicread (reg : Z) : M intr Z :=
  modify (fun s => set_io reg (ioregs s) s) ;; gets (fun s => ioregs s (iosel s)).
Definition ioapicwrite (reg data : Z) : M intr unit :=
  modify (fun s => set_io reg (ioregs s) s) ;; modify (fun s => set_io (iosel s) (<[iosel s := data]> (ioregs s)) s).

(** for(i = 0; i <= maxintr; i++): [n] entries are left. *)
Fixpoint ioapicinit_loop (n : nat) (i : Z) : M intr unit :=
  match n with
  | O => ret tt
  | S n =>
      ioapicwrite (REG_TABLE + 2 * i) (Z.lor INT_DISABLED (T_IRQ0 + i)) ;;
      ioapicwrite (REG_TABLE + 2 * i + 1) 0 ;;
      ioapicinit_loop n (i + 1)
  end.

Section Boot.
(** Found by mpinit: whether there is an I/O APIC, its identifier, and the processors. *)
Variables (ismp : bool) (ioapicid ncpu : Z).
(** The line status register of the serial port when uartinit reads it. *)
Variable status : Z.

Definition ioapicinit : M intr unit :=
  if negb ismp then ret tt else
  v <- ioapicread REG_VER ;;
  let maxintr := Z.land (Z.shiftr v 16) 255 in
  r <- ioapicread REG_ID ;;
  let id := Z.shiftr r 24 in
  (when (negb (id =? ioapicid)) do modify (set_said true)) ;;
  ioapicinit_loop (Z.to_nat (maxintr + 1)) 0.

Definition ioapicenable (irq cpunum : Z) : M intr unit :=
  if negb ismp then ret tt else
  ioapicwrite (REG_TABLE + 2 * irq) (T_IRQ0 + irq) ;;
  ioapicwrite (REG_TABLE + 2 * irq + 1) (u32 (Z.shiftl cpunum 24)).

(** ** timer.c *)

Definition TIMER_FREQ : Z := 1193182.
Definition TIMER_DIV (x : Z) : Z := (TIMER_FREQ + x / 2) / x.

Definition timerinit : M intr unit :=
  outb 67 (Z.lor (Z.lor 0 4) 48) ;;
  outb 64 (TIMER_DIV 100 mod 256) ;;
  outb 64 (TIMER_DIV 100 / 256) ;;
  picenable IRQ_TIMER.

(** ** uart.c: uartinit; the characters that uartputc sends *)

Definition uartinit : M intr unit :=
  outb (COM1 + 2) 0 ;;
  outb (COM1 + 3) 128 ;;
  outb COM1 (115200 / 9600) ;;
  outb (COM1 + 1) 0 ;;
  outb (COM1 + 3) 3 ;;
  outb (COM1 + 4) 0 ;;
  outb (COM1 + 1) 1 ;;
  if status =? 255 then ret tt else
  modify (set_uart true) ;;
  picenable IRQ_COM1 ;;
  ioapicenable IRQ_COM1 0 ;;
  forM [120; 118; 54; 46; 46; 46; 10] (fun c => outb COM1 c).

(** What main calls of this, in its order: consoleinit enables the keyboard, ideinit the
    disk. *)
Definition main_intrs : M intr unit :=
  picinit ;;
  ioapicinit ;;
  picenable IRQ_KBD ;;
  ioapicenable IRQ_KBD 0 ;;
  uartinit ;;
  picenable IRQ_IDE ;;
  ioapicenable IRQ_IDE (ncpu - 1) ;;
  (when (negb ismp) do timerinit).
End Boot.

(** ** Where the interrupts go *)

(** The line [irq] of the two 8259A is not masked, and its vector. *)
Definition line_open (s : intr) (irq : Z) : bool :=
  if irq <? 8 then negb (Z.testbit (p_mask (pic1 s)) irq)
  else negb (Z.testbit (p_mask (pic2 s)) (irq - 8)) && negb (Z.testbit (p_mask (pic1 s)) IRQ_SLAVE).
Definition line_vector (s : intr) (irq : Z) : Z := if irq <? 8 then p_base (pic1 s) + irq else p_base (pic2 s) + (irq - 8).

(** The lines of the keyboard, the disk and, when there is one, the serial port. *)
Definition in_use (status irq : Z) : bool :=
  (irq =? IRQ_KBD) || (irq =? IRQ_IDE) || ((irq =? IRQ_COM1) && negb (status =? 255)).

Definition pic_after (base slaves mask : Z) : pic := mkpic mask base 0 true true slaves true true.

Lemma picinit_run s : irqmask s = irqmask0 ->
  picinit s = Ret tt (mkintr (pic_after 32 4 251) (pic_after 40 2 255) irqmask0 (iosel s) (ioregs s) (said s) (counter s) (serial0 s) (has_uart s)).
Proof. destruct s as [p1 p2 m ? ? ? ? ? ?]. cbn [irqmask]. intros ->. vm_compute. reflexivity. Qed.

(** The redirection table after ioapicinit. *)
Definition masked_table (n : Z) (r r' : Z -> Z) : Prop :=
  (forall i, 0 <= i < n -> r' (REG_TABLE + 2 * i) = Z.lor INT_DISABLED (T_IRQ0 + i) /\ r' (REG_TABLE + 2 * i + 1) = 0) /\
  (forall x, x < REG_TABLE \/ REG_TABLE + 2 * n <= x -> r' x = r x).

Lemma wp_ioapicinit_loop n i s (Q : unit -> intr -> Prop) :
  0 <= i ->
  (forall sel r', (forall k, i <= k < i + Z.of_nat n -> r' (REG_TABLE + 2 * k) = Z.lor INT_DISABLED (T_IRQ0 + k) /\ r' (REG_TABLE + 2 * k + 1) = 0) ->
     (forall x, x < REG_TABLE + 2 * i \/ REG_TABLE + 2 * (i + Z.of_nat n) <= x -> r' x = ioregs s x) -> Q tt (set_io sel r' s)) ->
  wp (ioapicinit_loop n i) Q s.
Proof.
  revert i s. induction n as [|n IH]; intros i s Hi HQ; cbn [ioapicinit_loop].
  - wp_steps. specialize (HQ (iosel s) (ioregs s)). destruct s. apply HQ; [intros k Hk; lia|done].
  - unfold ioapicwrite. wp_steps. apply IH; [lia|]. cbn [ioregs iosel set_io]. intros sel r' H1 H2. unfold REG_TABLE in *.
    apply (HQ sel r').
    + intros k Hk. destruct (decide (k = i)) as [->|Hne]; [|apply H1; lia].
      rewrite !H2 by lia. rewrite fn_lookup_insert. split; [|done]. rewrite fn_lookup_insert_ne by lia. apply fn_lookup_insert.
    + intros x Hx. rewrite H2 by lia. by rewrite !fn_lookup_insert_ne by lia.
Qed.

Definition maxintr (s : intr) : Z := Z.land (Z.shiftr (ioregs s REG_VER) 16) 255.

Lemma wp_ioapicinit ioapicid s (Q : unit -> intr -> Prop) :
  (forall sel r' b, masked_table (maxintr s + 1) (ioregs s) r' -> Q tt (set_said b (set_io sel r' s))) ->
  wp (ioapicinit true ioapicid) Q s.
Proof.
  intros HQ. assert (0 <= maxintr s) as Hm by (apply Z.land_nonneg; right; lia).
  unfold ioapicinit, ioapicread. cbn [negb]. wp_steps. cbn [ioregs iosel set_io]. fold (maxintr s).
  assert (forall b s1, s1 = set_said b (set_io REG_ID (ioregs s) s) -> wp (ioapicinit_loop (Z.to_nat (maxintr s + 1)) 0) Q s1) as Hl.
  { intros b s1 ->. apply wp_ioapicinit_loop; [done|]. cbn [ioregs set_said set_io]. intros sel r' H1 H2. apply (HQ sel r' b).
    rewrite Z2Nat.id, Z.add_0_l in H1, H2 by lia. split; [exact H1|exact H2]. }
  destruct (negb (Z.shiftr (ioregs s REG_ID) 24 =? ioapicid)); wp_steps.
  - by apply (Hl true).
  - apply (Hl (said s)). by destruct s.
Qed.

Lemma masked_low i : 0 <= i < 224 -> Z.lor INT_DISABLED (T_IRQ0 + i) = INT_DISABLED + (T_IRQ0 + i).
Proof.
  intros Hi. unfold INT_DISABLED, T_IRQ0. symmetry. rewrite <- Z.lxor_lor; [apply Z.add_nocarry_lxor|].
  all: apply Z.bits_inj'; intros n Hn; rewrite Z.land_spec, Z.bits_0; change 65536 with (2 ^ 16); rewrite Z.pow2_bits_eqb by lia;
    destruct (Z.eqb_spec 16 n) as [<-|]; [|done]; cbn [andb]; apply Z.bits_above_log2; [lia|apply Z.log2_lt_pow2; lia].
Qed.

(** Setting the masks, the two controllers initialised. *)
Definition with_mask (m : Z) (s : intr) : intr :=
  mkintr (mkpic (u8 m) (p_base (pic1 s)) 0 (p_need4 (pic1 s)) (p_edge (pic1 s)) (p_slaves (pic1 s)) (p_aeoi (pic1 s)) (p_special (pic1 s)))
    (mkpic (u8 (Z.shiftr m 8)) (p_base (pic2 s)) 0 (p_need4 (pic2 s)) (p_edge (pic2 s)) (p_slaves (pic2 s)) (p_aeoi (pic2 s)) (p_special (pic2 s)))
    m (iosel s) (ioregs s) (said s) (counter s) (serial0 s) (has_uart s).

Lemma wp_picenable irq s (Q : unit -> intr -> Prop) :
  p_next (pic1 s) = 0%nat -> p_next (pic2 s) = 0%nat ->
  Q tt (with_mask (u16 (Z.land (irqmask s) (Z.lnot (Z.shiftl 1 irq)))) s) -> wp (picenable irq) Q s.
Proof.
  intros H1 H2 HQ. destruct s as [[] [] ? ? ? ? ? ? ?]. cbn [pic1 pic2 p_next irqmask] in *. subst.
  unfold picenable, picsetmask, outb. wp_steps. exact HQ.
Qed.

Lemma wp_ioapicenable irq c s (Q : unit -> intr -> Prop) :
  Q tt (set_io (REG_TABLE + 2 * irq + 1) (<[REG_TABLE + 2 * irq + 1 := u32 (Z.shiftl c 24)]> (<[REG_TABLE + 2 * irq := T_IRQ0 + irq]> (ioregs s))) s) ->
  wp (ioapicenable true irq c) Q s.
Proof. intros HQ. unfold ioapicenable, ioapicwrite. cbn [negb]. wp_steps. exact HQ. Qed.

(** A write to the serial port changes nothing else. *)
Lemma wp_outb_com p v c0 s (Q : unit -> intr -> Prop) :
  COM1 <= p < COM1 + 8 -> (forall c, Q tt (set_com (fun _ => c) s)) -> wp (outb p v) Q (set_com (fun _ => c0) s).
Proof.
  intros Hp HQ. unfold outb. wp_step. unfold COM1 in *.
  rewrite !(proj2 (Z.eqb_neq p _)), (proj2 (Z.leb_le _ p)), (proj2 (Z.ltb_lt p _)) by lia. apply HQ.
Qed.
Lemma set_com_same s : s = set_com (fun _ => serial0 s) s.
Proof. by destruct s. Qed.

(** uartinit: the serial port answers unless its status is all ones. *)
Lemma wp_uartinit ismp status s (Q : unit -> intr -> Prop) :
  (forall c, if status =? 255 then Q tt (set_com (fun _ => c) s)
    else wp (picenable IRQ_COM1) (fun _ => wp (ioapicenable ismp IRQ_COM1 0) (fun _ s' => forall c', Q tt (set_com (fun _ => c') s'))) (set_uart true (set_com (fun _ => c) s))) ->
  wp (uartinit ismp status) Q s.
Proof.
  intros HQ. rewrite (set_com_same s). generalize (serial0 s). intros c0. unfold uartinit.
  do 7 (wp_step; apply wp_outb_com; [unfold COM1; lia|]; intros ?).
  match goal with |- wp _ _ (set_com (fun _ => ?c) _) => specialize (HQ c) end.
  destruct (status =? 255); wp_steps; [exact HQ|]. eapply wp_mono; [exact HQ|]. cbn beta. intros [] s1 H1. wp_step.
  eapply wp_mono; [exact H1|]. cbn beta. intros [] s2 H2. cbn [forM]. rewrite (set_com_same s2). generalize (serial0 s2). intros ?.
  do 7 (wp_step; apply wp_outb_com; [unfold COM1; lia|]; intros ?). wp_steps. apply H2.
Qed.

(** The state of the 8259A after the calls of main. *)
Definition lines_right (ismp : bool) (status : Z) (s : intr) : Prop :=
  forall irq, 0 <= irq < 16 -> line_vector s irq = T_IRQ0 + irq /\
    line_open s irq = in_use status irq || (irq =? IRQ_SLAVE) || ((irq =? IRQ_TIMER) && negb ismp).

Lemma lines_check ismp (b : bool) status s : (status =? 255) = b ->
  forallb (fun irq => (line_vector s irq =? T_IRQ0 + irq) &&
    eqb (line_open s irq) ((irq =? IRQ_KBD) || (irq =? IRQ_IDE) || ((irq =? IRQ_COM1) && negb b) || (irq =? IRQ_SLAVE) || ((irq =? IRQ_TIMER) && negb ismp)))
    [0; 1; 2; 3; 4; 5; 6; 7; 8; 9; 10; 11; 12; 13; 14; 15] = true -> lines_right ismp status s.
Proof.
  intros Eb H irq Hirq. rewrite forallb_forall in H. destruct (proj1 (andb_true_iff _ _) (H irq ltac:(cbn; lia))) as [H1 H2].
  unfold in_use. rewrite Eb. split; [by apply Z.eqb_eq|by apply eqb_prop].
Qed.

(** The redirection table with the keyboard and the disk open, and the serial port. *)
Ltac entry := repeat first [rewrite fn_lookup_insert | rewrite fn_lookup_insert_ne by lia].
Lemma table_after r' mx ncpu irq :
  (forall irq, 0 <= irq <= mx -> irq < 224 -> r' (REG_TABLE + 2 * irq) = T_IRQ0 + irq + INT_DISABLED /\ r' (REG_TABLE + 2 * irq + 1) = 0) ->
  0 <= irq <= mx -> irq < 224 ->
  let r := <[REG_TABLE + 2 * IRQ_IDE + 1 := u32 (Z.shiftl (ncpu - 1) 24)]> (<[REG_TABLE + 2 * IRQ_IDE := T_IRQ0 + IRQ_IDE]>
    (<[REG_TABLE + 2 * IRQ_KBD + 1 := u32 (Z.shiftl 0 24)]> (<[REG_TABLE + 2 * IRQ_KBD := T_IRQ0 + IRQ_KBD]> r'))) in
  r (REG_TABLE + 2 * irq) = T_IRQ0 + irq + (if (irq =? IRQ_KBD) || (irq =? IRQ_IDE) then 0 else INT_DISABLED) /\
  r (REG_TABLE + 2 * irq + 1) = (if irq =? IRQ_IDE then u32 (Z.shiftl (ncpu - 1) 24) else 0).
Proof.
  intros Hr H1 H2. cbv zeta. destruct (Hr irq H1 H2) as [E1 E2]. unfold REG_TABLE, IRQ_KBD, IRQ_IDE in *.
  destruct (Z.eqb_spec irq 1) as [->|N1]; [|destruct (Z.eqb_spec irq 14) as [->|N2]]; cbn [orb]; entry; (split; [lia|done]).
Qed.
Lemma table_after_com r' mx ncpu irq :
  (forall irq, 0 <= irq <= mx -> irq < 224 -> r' (REG_TABLE + 2 * irq) = T_IRQ0 + irq + INT_DISABLED /\ r' (REG_TABLE + 2 * irq + 1) = 0) ->
  0 <= irq <= mx -> irq < 224 ->
  let r := <[REG_TABLE + 2 * IRQ_IDE + 1 := u32 (Z.shiftl (ncpu - 1) 24)]> (<[REG_TABLE + 2 * IRQ_IDE := T_IRQ0 + IRQ_IDE]>
    (<[REG_TABLE + 2 * IRQ_COM1 + 1 := u32 (Z.shiftl 0 24)]> (<[REG_TABLE + 2 * IRQ_COM1 := T_IRQ0 + IRQ_COM1]>
    (<[REG_TABLE + 2 * IRQ_KBD + 1 := u32 (Z.shiftl 0 24)]> (<[REG_TABLE + 2 * IRQ_KBD := T_IRQ0 + IRQ_KBD]> r'))))) in
  r (REG_TABLE + 2 * irq) = T_IRQ0 + irq + (if (irq =? IRQ_KBD) || (irq =? IRQ_IDE) || (irq =? IRQ_COM1) then 0 else INT_DISABLED) /\
  r (REG_TABLE + 2 * irq + 1) = (if irq =? IRQ_IDE then u32 (Z.shiftl (ncpu - 1) 24) else 0).
Proof.
  intros Hr H1 H2. cbv zeta. destruct (Hr irq H1 H2) as [E1 E2]. unfold REG_TABLE, IRQ_KBD, IRQ_IDE, IRQ_COM1 in *.
  destruct (Z.eqb_spec irq 1) as [->|N1]; [|destruct (Z.eqb_spec irq 14) as [->|N2]; [|destruct (Z.eqb_spec irq 4) as [->|N3]]]; cbn [orb]; entry; (split; [lia|done]).
Qed.

(** On a machine with one processor. *)
Lemma wp_routed_up ioapicid ncpu status s (Q : unit -> intr -> Prop) :
  irqmask s = irqmask0 -> p_next (pic1 s) = 0%nat -> p_next (pic2 s) = 0%nat -> p_base (pic1 s) = 32 -> p_base (pic2 s) = 40 ->
  (forall s', lines_right false status s' -> ioregs s' = ioregs s -> counter s' = mkpit 52 [11932 mod 256; 11932 / 256] -> Q tt s') ->
  wp (ioapicinit false ioapicid ;; picenable IRQ_KBD ;; ioapicenable false IRQ_KBD 0 ;; uartinit false status ;;
      picenable IRQ_IDE ;; ioapicenable false IRQ_IDE (ncpu - 1) ;; timerinit) Q s.
Proof.
  intros Hm Hn1 Hn2 Hb1 Hb2 HQ. unfold ioapicinit, ioapicenable at 1 2. cbn [negb]. wp_steps. apply wp_picenable; [done|done|]. wp_steps.
  apply wp_uartinit. intros c. destruct (status =? 255) eqn:Es.
  - wp_steps. apply wp_picenable; [done|done|]. unfold timerinit. wp_steps. unfold outb. wp_steps. apply wp_picenable; [done|done|].
    apply HQ; [|done|done]. apply (lines_check _ true); [done|]. destruct s as [[] [] ? ? ? ? ? ? ?]. cbn in Hm, Hb1, Hb2. subst. vm_compute. reflexivity.
  - apply wp_picenable; [done|done|]. unfold ioapicenable. cbn [negb]. wp_steps. intros c'. wp_steps. apply wp_picenable; [done|done|].
    unfold timerinit. wp_steps. unfold outb. wp_steps. apply wp_picenable; [done|done|].
    apply HQ; [|done|done]. apply (lines_check _ false); [done|]. destruct s as [[] [] ? ? ? ? ? ? ?]. cbn in Hm, Hb1, Hb2. subst. vm_compute. reflexivity.
Qed.

(** With an I/O APIC. *)
Lemma wp_routed_mp ioapicid ncpu status s (Q : unit -> intr -> Prop) :
  irqmask s = irqmask0 -> p_next (pic1 s) = 0%nat -> p_next (pic2 s) = 0%nat -> p_base (pic1 s) = 32 -> p_base (pic2 s) = 40 ->
  (forall s', lines_right true status s' ->
    (forall irq, 0 <= irq <= maxintr s -> irq < 224 ->
       ioregs s' (REG_TABLE + 2 * irq) = T_IRQ0 + irq + (if in_use status irq then 0 else INT_DISABLED) /\
       ioregs s' (REG_TABLE + 2 * irq + 1) = (if irq =? IRQ_IDE then u32 (Z.shiftl (ncpu - 1) 24) else 0)) -> Q tt s') ->
  wp (ioapicinit true ioapicid ;; picenable IRQ_KBD ;; ioapicenable true IRQ_KBD 0 ;; uartinit true status ;;
      picenable IRQ_IDE ;; ioapicenable true IRQ_IDE (ncpu - 1) ;; ret tt) Q s.
Proof.
  intros Hm Hn1 Hn2 Hb1 Hb2 HQ. wp_step. apply wp_ioapicinit. intros sel r' b [Hr1 _].
  assert (forall irq, 0 <= irq <= maxintr s -> irq < 224 -> r' (REG_TABLE + 2 * irq) = T_IRQ0 + irq + INT_DISABLED /\ r' (REG_TABLE + 2 * irq + 1) = 0) as Hr.
  { intros irq H1 H2. destruct (Hr1 irq) as [-> ->]; [lia|]. rewrite masked_low by lia. split; [lia|done]. }
  clear Hr1. wp_step. apply wp_picenable; [done|done|]. wp_step. apply wp_ioapicenable. wp_step. apply wp_uartinit. intros c.
  destruct (status =? 255) eqn:Es.
  - wp_step. apply wp_picenable; [done|done|]. wp_step. apply wp_ioapicenable. wp_step.
    apply HQ; [apply (lines_check _ true); [done|]; destruct s as [[] [] ? ? ? ? ? ? ?]; cbn in Hm, Hb1, Hb2; subst; vm_compute; reflexivity|].
    intros irq H1 H2. cbn [ioregs set_io with_mask set_com set_said]. unfold in_use. rewrite Es, andb_false_r, orb_false_r. by apply (table_after _ (maxintr s)).
  - apply wp_picenable; [done|done|]. apply wp_ioapicenable. intros c'. wp_step. apply wp_picenable; [done|done|]. wp_step. apply wp_ioapicenable. wp_step.
    apply HQ; [apply (lines_check _ false); [done|]; destruct s as [[] [] ? ? ? ? ? ? ?]; cbn in Hm, Hb1, Hb2; subst; vm_compute; reflexivity|].
    intros irq H1 H2. cbn [ioregs set_io with_mask set_com set_said set_uart]. unfold in_use. rewrite Es, andb_true_r. by apply (table_after_com _ (maxintr s)).
Qed.

(** C20: After the calls that main makes, the two 8259A deliver line [irq] at the vector
    T_IRQ0 + irq, and let through exactly the keyboard, the disk, the serial port if there is
    one, the cascade, and the timer on a machine with one processor; with an I/O APIC each
    of its lines has the same vector and is open exactly for the devices in use, routed to
    the processor the code names; without one the timer counts 11932 cycles, a hundred
    interrupts a second.  irqmask starts as picirq.c initialises it. *)
Theorem interrupts_routed ismp ioapicid ncpu status s :
  irqmask s = irqmask0 ->
  exists s', main_intrs ismp ioapicid ncpu status s = Ret tt s' /\ lines_right ismp status s' /\
    (ismp = true -> forall irq, 0 <= irq <= maxintr s -> irq < 224 ->
       ioregs s' (REG_TABLE + 2 * irq) = T_IRQ0 + irq + (if in_use status irq then 0 else INT_DISABLED) /\
       ioregs s' (REG_TABLE + 2 * irq + 1) = (if irq =? IRQ_IDE then u32 (Z.shiftl (ncpu - 1) 24) else 0)) /\
    (ismp = false -> ioregs s' = ioregs s /\ counter s' = mkpit 52 [11932 mod 256; 11932 / 256]).
Proof.
  intros Hm.
  assert (wp (main_intrs ismp ioapicid ncpu status) (fun _ s' => lines_right ismp status s' /\
    (ismp = true -> forall irq, 0 <= irq <= maxintr s -> irq < 224 ->
       ioregs s' (REG_TABLE + 2 * irq) = T_IRQ0 + irq + (if in_use status irq then 0 else INT_DISABLED) /\
       ioregs s' (REG_TABLE + 2 * irq + 1) = (if irq =? IRQ_IDE then u32 (Z.shiftl (ncpu - 1) 24) else 0)) /\
    (ismp = false -> ioregs s' = ioregs s /\ counter s' = mkpit 52 [11932 mod 256; 11932 / 256])) s) as Hw.
  { unfold main_intrs. wp_step. eapply wp_of_run; [by apply picinit_run|]. destruct ismp; cbn [negb].
    - apply wp_routed_mp; [reflexivity..|]. intros s' H1 H2. split; [exact H1|]. split; [intros _; exact H2|discriminate].
    - apply wp_routed_up; [reflexivity..|]. intros s' H1 H2 H3. split; [exact H1|]. split; [discriminate|]. intros _. split; [exact H2|exact H3]. }
  apply wp_run in Hw as ([] & s' & E & H1 & H2 & H3). exists s'. by split_and!.
Qed.

Lemma interrupts_routed_witness :
  let p := mkpic 0 0 0 false false 0 false false in
  let s := mkintr p p irqmask0 0 (fun r => if r =? REG_VER then 23 * 65536 + 17 else 0) false (mkpit 0 []) (mkcom 0 0 0 0 0 0 []) false in
  exists s', main_intrs true 0 2 96 s = Ret tt s' /\ line_open s' IRQ_COM1 = true /\ line_open s' 12 = false /\
    ioregs s' (REG_TABLE + 2 * IRQ_IDE) = 46 /\ ioregs s' (REG_TABLE + 2 * IRQ_IDE + 1) = 16777216 /\ ioregs s' (REG_TABLE + 2 * 7) = 65536 + 39.
Proof.
  intros p s. destruct (interrupts_routed true 0 2 96 s eq_refl) as (s' & E & Hl & Ht & _).
  exists s'. split; [exact E|]. destruct (Hl IRQ_COM1 ltac:(done)) as [_ H1]. destruct (Hl 12 ltac:(done)) as [_ H2].
  assert (maxintr s = 23) as Em by reflexivity. rewrite Em in Ht.
  destruct (Ht eq_refl IRQ_IDE ltac:(done) ltac:(done)) as [H3 H4]. destruct (Ht eq_refl 7 ltac:(lia) ltac:(lia)) as [H5 _].
  split; [exact H1|]. split; [exact H2|]. split; [exact H3|]. split; [exact H4|exact H5].
Defined.

(** ** lapic.c: the local APIC *)

Definition ID : Z := 8.
Definition VER : Z := 12.
Definition TPR : Z := 32.
Definition EOI : Z := 44.
Definition SVR : Z := 60.
Definition ESR : Z := 160.
Definition ICRLO : Z := 192.
Definition ICRHI : Z := 196.
Definition TIMER : Z := 200.
Definition PCINT : Z := 208.
Definition LINT0 : Z := 212.
Definition LINT1 : Z := 216.
Definition ERROR : Z := 220.
Definition TICR : Z := 224.
Definition TDCR : Z := 248.
Definition ENABLE : Z := 256.
Definition INIT : Z := 1280.
Definition STARTUP : Z := 1536.
Definition DELIVS : Z := 4096.
Definition ASSERT : Z := 16384.
Definition LEVEL : Z := 32768.
Definition BCAST : Z := 524288.
Definition MASKED : Z := 65536.
Definition PERIODIC : Z := 131072.
Definition IRQ_ERROR : Z := 19.

(** The registers, for how many reads a message is still under way, the messages sent as
    the two halves of the command register, the warm reset vector and the shutdown code. *)
Record lap := mklap { lregs : Z -> Z; busy : nat; sent : list (Z * Z); wrv : Z * Z; shutdown : Z }.

Section Lapic.
(** lapic is not null; a message is under way for [delay] reads; [spins] bounds the wait. *)
Variables (present : bool) (delay spins : nat).

Definition lapicw (index value : Z) : M lap unit := modify (fun s =>
  let r := <[index := u32 value]> (lregs s) in
  if index =? ICRLO then mklap r delay (sent s ++ [(r ICRHI, u32 value)]) (wrv s) (shutdown s)
  else mklap r (busy s) (sent s) (wrv s) (shutdown s)).

(** while(lapic[ICRLO] & DELIVS). *)
Fixpoint wait_delivery (n : nat) : M lap unit :=
  match n with
  | O => out_of_fuel
  | S n =>
      b <- gets busy ;;
      match b with
      | O => ret tt
      | S b => modify (fun s => mklap (lregs s) b (sent s) (wrv s) (shutdown s)) ;; wait_delivery n
      end
  end.

Definition lapicinit : M lap unit :=
  if negb present then ret tt else
  lapicw SVR (Z.lor ENABLE (T_IRQ0 + IRQ_SPURIOUS)) ;;
  lapicw TDCR 11 ;;
  lapicw TIMER (Z.lor PERIODIC (T_IRQ0 + IRQ_TIMER)) ;;
  lapicw TICR 10000000 ;;
  lapicw LINT0 MASKED ;;
  lapicw LINT1 MASKED ;;
  v <- gets (fun s => lregs s VER) ;;
  (when (4 <=? Z.land (Z.shiftr v 16) 255) do lapicw PCINT MASKED) ;;
  lapicw ERROR (T_IRQ0 + IRQ_ERROR) ;;
  lapicw ESR 0 ;;
  lapicw ESR 0 ;;
  lapicw EOI 0 ;;
  lapicw ICRHI 0 ;;
  lapicw ICRLO (Z.lor (Z.lor BCAST INIT) LEVEL) ;;
  wait_delivery spins ;;
  lapicw TPR 0.

(** cpunum, without the message when interrupts are on. *)
Definition cpunum : M lap Z := if present then gets (fun s => Z.shiftr (lregs s ID) 24) else ret 0.

Definition lapicstartap (apicid addr : Z) : M lap unit :=
  modify (fun s => mklap (lregs s) (busy s) (sent s) (0, u16 (Z.shiftr addr 4)) 10) ;;
  lapicw ICRHI (Z.shiftl apicid 24) ;;
  lapicw ICRLO (Z.lor (Z.lor INIT LEVEL) ASSERT) ;;
  lapicw ICRLO (Z.lor INIT LEVEL) ;;
  forM [0; 1] (fun _ =>
    lapicw ICRHI (Z.shiftl apicid 24) ;;
    lapicw ICRLO (Z.lor STARTUP (Z.shiftr addr 12))).

Lemma wp_wait_delivery n s (Q : unit -> lap -> Prop) :
  (busy s < n)%nat -> Q tt (mklap (lregs s) 0 (sent s) (wrv s) (shutdown s)) -> wp (wait_delivery n) Q s.
Proof.
  revert s. induction n as [|n IH]; intros s Hb HQ; [lia|]. cbn [wait_delivery]. wp_steps. destruct s as [r [|b] ? ? ?]; cbn [busy] in *; wp_steps.
  - exact HQ.
  - apply IH; [cbn; lia|exact HQ].
Qed.

(** A write to a register, the command register apart. *)
Lemma wp_lapicw index value s (Q : unit -> lap -> Prop) :
  index <> ICRLO ->
  (forall s', lregs s' = <[index := u32 value]> (lregs s) -> sent s' = sent s -> wrv s' = wrv s /\ shutdown s' = shutdown s -> Q tt s') ->
  wp (lapicw index value) Q s.
Proof. intros Hi HQ. unfold lapicw. wp_step. rewrite (proj2 (Z.eqb_neq _ _) Hi). by apply HQ. Qed.
Lemma wp_lapicw_icr value s (Q : unit -> lap -> Prop) :
  (forall s', lregs s' = <[ICRLO := u32 value]> (lregs s) -> sent s' = sent s ++ [(lregs s ICRHI, u32 value)] -> busy s' = delay -> wrv s' = wrv s /\ shutdown s' = shutdown s -> Q tt s') ->
  wp (lapicw ICRLO value) Q s.
Proof. intros HQ. unfold lapicw. wp_step. apply HQ; [done| |done|done]. cbn. by rewrite fn_lookup_insert_ne by done. Qed.

Ltac write_next := wp_step; apply wp_lapicw; [done|]; let s' := fresh "s" in let H := fresh "R" in let H' := fresh "T" in let W := fresh "W" in intros s' H H' W.

(** What a register holds after the writes. *)
Ltac read_reg := repeat first [rewrite fn_lookup_insert | rewrite fn_lookup_insert_ne by done
  | match goal with R : lregs ?a = <[_ := _]> _ |- context [lregs ?a _] => rewrite R end
  | match goal with R : forall x, x <> PCINT -> lregs ?a x = _ |- context [lregs ?a _] => rewrite R by done end].

(** The local APIC raises the timer at the vector that trap() takes for the clock, spurious
    interrupts at theirs, keeps the lines of the 8259A off, and accepts interrupts. *)
Theorem lapicinit_sets s :
  present = true -> (delay < spins)%nat ->
  exists s', lapicinit s = Ret tt s' /\ lregs s' TIMER = PERIODIC + (T_IRQ0 + IRQ_TIMER) /\ lregs s' SVR = ENABLE + (T_IRQ0 + IRQ_SPURIOUS) /\
    lregs s' LINT0 = MASKED /\ lregs s' LINT1 = MASKED /\ lregs s' TPR = 0 /\ lregs s' ID = lregs s ID /\
    sent s' = sent s ++ [(0, BCAST + INIT + LEVEL)].
Proof.
  intros Hp Hd. assert (wp lapicinit (fun _ s' => lregs s' TIMER = PERIODIC + (T_IRQ0 + IRQ_TIMER) /\ lregs s' SVR = ENABLE + (T_IRQ0 + IRQ_SPURIOUS) /\
    lregs s' LINT0 = MASKED /\ lregs s' LINT1 = MASKED /\ lregs s' TPR = 0 /\ lregs s' ID = lregs s ID /\ sent s' = sent s ++ [(0, BCAST + INIT + LEVEL)]) s) as Hw.
  { unfold lapicinit. rewrite Hp. cbn [negb]. do 6 write_next. wp_step. wp_step. wp_step.
    assert (forall s7, (forall x, x <> PCINT -> lregs s7 x = lregs s5 x) -> sent s7 = sent s5 ->
      wp (lapicw ERROR (T_IRQ0 + IRQ_ERROR) ;; lapicw ESR 0 ;; lapicw ESR 0 ;; lapicw EOI 0 ;; lapicw ICRHI 0 ;;
          lapicw ICRLO (Z.lor (Z.lor BCAST INIT) LEVEL) ;; wait_delivery spins ;; lapicw TPR 0)
        (fun _ s' => lregs s' TIMER = PERIODIC + (T_IRQ0 + IRQ_TIMER) /\ lregs s' SVR = ENABLE + (T_IRQ0 + IRQ_SPURIOUS) /\
    lregs s' LINT0 = MASKED /\ lregs s' LINT1 = MASKED /\ lregs s' TPR = 0 /\ lregs s' ID = lregs s ID /\ sent s' = sent s ++ [(0, BCAST + INIT + LEVEL)]) s7) as Hrest.
    { intros s7 R7 T7. do 5 write_next. wp_step. apply wp_lapicw_icr. intros s12 R12 T12 Hb _. wp_step. apply wp_wait_delivery; [by rewrite Hb|].
      apply wp_lapicw; [done|]. cbn [lregs sent]. intros s13 R13 T13 _.
      split_and!; [read_reg; done..|]. rewrite T13, T12, T10, T9, T8, T6, T5, T7, T4, T3, T2, T1, T0, T. f_equal. f_equal. f_equal. read_reg. done. }
    destruct (4 <=? Z.land (Z.shiftr (lregs s5 VER) 16) 255).
    - apply wp_lapicw; [done|]. intros s6 R5 T5 _. apply Hrest; [|done]. intros x Hx. by rewrite R5, fn_lookup_insert_ne by done.
    - wp_steps. by apply Hrest. }
  apply wp_run in Hw as ([] & s' & E & H). exists s'. by split.
Qed.
(** lapicstartap sends INIT and two STARTUP messages to the processor [apicid]; they and the
    warm reset vector name the page of the entry code. *)
Lemma lapicstartap_sends apicid page s :
  0 <= apicid < 256 -> 0 <= page < 256 ->
  exists s', lapicstartap apicid (4096 * page) s = Ret tt s' /\
    sent s' = sent s ++ [(16777216 * apicid, INIT + LEVEL + ASSERT); (16777216 * apicid, INIT + LEVEL);
      (16777216 * apicid, Z.lor STARTUP page); (16777216 * apicid, Z.lor STARTUP page)] /\
    fst (wrv s') + 16 * snd (wrv s') = 4096 * page /\ shutdown s' = 10 /\ lregs s' ID = lregs s ID.
Proof.
  intros Ha Hp. assert (Z.shiftl apicid 24 = 16777216 * apicid) as E1 by (rewrite Z.shiftl_mul_pow2 by lia; lia).
  assert (Z.shiftr (4096 * page) 12 = page) as E2 by (rewrite Z.shiftr_div_pow2 by lia; change (2 ^ 12) with 4096; rewrite Z.mul_comm, Z.div_mul; lia).
  assert (Z.shiftr (4096 * page) 4 = 256 * page) as E3
    by (rewrite Z.shiftr_div_pow2 by lia; replace (4096 * page) with (256 * page * 2 ^ 4) by lia; rewrite Z.div_mul; lia).
  assert (u32 (Z.lor STARTUP page) = Z.lor STARTUP page) as E4.
  { apply u32_small. split; [apply Z.lor_nonneg; unfold STARTUP; lia|].
    destruct (decide (page = 0)) as [->|]; [done|]. apply Z.log2_lt_pow2; [|rewrite Z.log2_lor by (unfold STARTUP; lia)].
    - pose proof (proj2 (Z.lor_nonneg STARTUP page) ltac:(unfold STARTUP; lia)). assert (Z.lor STARTUP page <> 0); [|lia]. intros E. apply Z.lor_eq_0_iff in E. lia.
    - assert (Z.log2 page < 8) by (apply Z.log2_lt_pow2; lia). change (Z.log2 STARTUP) with 10. lia. }
  assert (wp (lapicstartap apicid (4096 * page)) (fun _ s' =>
    sent s' = sent s ++ [(16777216 * apicid, INIT + LEVEL + ASSERT); (16777216 * apicid, INIT + LEVEL);
      (16777216 * apicid, Z.lor STARTUP page); (16777216 * apicid, Z.lor STARTUP page)] /\
    fst (wrv s') + 16 * snd (wrv s') = 4096 * page /\ shutdown s' = 10 /\ lregs s' ID = lregs s ID) s) as Hw.
  { unfold lapicstartap. rewrite E1, E2, E3, u16_small by lia. wp_step. wp_step.
    write_next. wp_step. apply wp_lapicw_icr. intros s1 R1 T1 _ W1. wp_step. apply wp_lapicw_icr. intros s2 R2 T2 _ W2. cbn [forM].
    wp_step. wp_step. apply wp_lapicw; [done|]. intros s3 R3 T3 W3. apply wp_lapicw_icr. intros s4 R4 T4 _ W4.
    wp_step. wp_step. apply wp_lapicw; [done|]. intros s5 R5 T5 W5. apply wp_lapicw_icr. intros s6 R6 T6 _ W6. wp_steps.
    destruct W as [W W'], W1 as [W1 W1'], W2 as [W2 W2'], W3 as [W3 W3'], W4 as [W4 W4'], W5 as [W5 W5'], W6 as [W6 W6'].
    rewrite W6, W5, W4, W3, W2, W1, W, W6', W5', W4', W3', W2', W1', W'. cbn [wrv shutdown fst snd].
    split; [|split_and!; [lia|done|read_reg; done]]. rewrite T6, T5, T4, T3, T2, T1, T. read_reg. rewrite E4, u32_small by lia. cbn [sent]. by rewrite <- !app_assoc. }
  apply wp_run in Hw as ([] & s' & E & H). exists s'. by split.
Qed.

End Lapic.

(** ** The clock: cmostime *)

Record rtcdate := mkrtc { second : Z; minute : Z; hour : Z; day : Z; month : Z; year : Z }.
Definition CMOS_STATA : Z := 10.
Definition CMOS_STATB : Z := 11.
Definition CMOS_UIP : Z := 128.

Section Cmos.
(** What the register [r] holds at the [n]-th access; the state counts the accesses. *)
Variable rtc : nat -> Z -> Z.

Definition cmos_read (r : Z) : M nat Z := n <- gets id ;; modify S ;; ret (u8 (rtc n r)).

Definition fill_rtcdate : M nat rtcdate :=
  a <- cmos_read 0 ;; b <- cmos_read 2 ;; c <- cmos_read 4 ;; d <- cmos_read 7 ;; e <- cmos_read 8 ;; f <- cmos_read 9 ;;
  ret (mkrtc a b c d e f).

Definition same_date (s t : rtcdate) : bool :=
  (second s =? second t) && (minute s =? minute t) && (hour s =? hour t) && (day s =? day t) && (month s =? month t) && (year s =? year t).

Fixpoint cmos_loop (fuel : nat) : M nat rtcdate :=
  match fuel with
  | O => out_of_fuel
  | S fuel =>
      t1 <- fill_rtcdate ;;
      a <- cmos_read CMOS_STATA ;;
      if negb (Z.land a CMOS_UIP =? 0) then cmos_loop fuel else
      t2 <- fill_rtcdate ;;
      if same_date t1 t2 then ret t1 else cmos_loop fuel
  end.

Definition CONV (x : Z) : Z := Z.shiftr x 4 * 10 + Z.land x 15.

Definition cmostime (fuel : nat) : M nat rtcdate :=
  sb <- cmos_read CMOS_STATB ;;
  t <- cmos_loop fuel ;;
  let t := if Z.land sb (Z.shiftl 1 2) =? 0
           then mkrtc (CONV (second t)) (CONV (minute t)) (CONV (hour t)) (CONV (day t)) (CONV (month t)) (CONV (year t)) else t in
  ret (mkrtc (second t) (minute t) (hour t) (day t) (month t) (u32 (year t + 2000))).

(** How the clock encodes a number, and its registers when it shows the date [d]. *)
Variable bcd : bool.
Definition enc (v : Z) : Z := if bcd then 16 * (v / 10) + v mod 10 else v.
Definition enc_date (d : rtcdate) : rtcdate := mkrtc (enc (second d)) (enc (minute d)) (enc (hour d)) (enc (day d)) (enc (month d)) (enc (year d)).
Definition two_digits (v : Z) : Prop := 0 <= v < 100.
Definition valid (d : rtcdate) : Prop :=
  two_digits (second d) /\ two_digits (minute d) /\ two_digits (hour d) /\ two_digits (day d) /\ two_digits (month d) /\ two_digits (year d).
Definition shows (n : nat) (d : rtcdate) : Prop :=
  rtc n 0 = enc (second d) /\ rtc n 2 = enc (minute d) /\ rtc n 4 = enc (hour d) /\ rtc n 7 = enc (day d) /\ rtc n 8 = enc (month d) /\ rtc n 9 = enc (year d).

Lemma enc_byte v : two_digits v -> u8 (enc v) = enc v.
Proof.
  intros Hv. apply u8_small. unfold enc, two_digits in *. destruct bcd; [|lia].
  pose proof (Z.div_mod v 10 ltac:(lia)). pose proof (Z.mod_pos_bound v 10 ltac:(lia)). lia.
Qed.
Lemma CONV_enc v : bcd = true -> two_digits v -> CONV (enc v) = v.
Proof.
  intros Hb Hv. unfold CONV, enc. rewrite Hb. unfold two_digits in Hv. pose proof (Z.div_mod v 10 ltac:(lia)). pose proof (Z.mod_pos_bound v 10 ltac:(lia)).
  rewrite Z.shiftr_div_pow2 by lia. change 15 with (Z.ones 4). rewrite Z.land_ones by lia. change (2 ^ 4) with 16.
  rewrite (Z.mul_comm 16), (Z.add_comm (v / 10 * 16)), Z.div_add, Z_mod_plus_full, Z.div_small, Z.mod_small by lia. lia.
Qed.

(** The clock shows [d1] before the access [u] and [d2] from the access [v] on.  In between
    it updates its registers, which can hold anything, and says so in CMOS_UIP. *)
Variables (u v : nat) (d1 d2 : rtcdate).
Hypothesis valid1 : valid d1.
Hypothesis valid2 : valid d2.
Hypothesis before : forall n, (n < u)%nat -> shows n d1.
Hypothesis during : forall n, (u <= n < v)%nat -> Z.land (u8 (rtc n CMOS_STATA)) CMOS_UIP <> 0.
Hypothesis after_ : forall n, (v <= n)%nat -> shows n d2 /\ Z.land (u8 (rtc n CMOS_STATA)) CMOS_UIP = 0.
Hypothesis ordered : (u <= v)%nat.

Definition read_at (n : nat) : rtcdate :=
  mkrtc (u8 (rtc n 0)) (u8 (rtc (1 + n)%nat 2)) (u8 (rtc (2 + n)%nat 4)) (u8 (rtc (3 + n)%nat 7)) (u8 (rtc (4 + n)%nat 8)) (u8 (rtc (5 + n)%nat 9)).
Lemma fill_run n : fill_rtcdate n = Ret (read_at n) (6 + n)%nat.
Proof. done. Qed.

Lemma read_shows n d : valid d -> (forall k, (n <= k < 6 + n)%nat -> shows k d) -> read_at n = enc_date d.
Proof.
  intros (V1 & V2 & V3 & V4 & V5 & V6) Hs. unfold read_at, enc_date.
  destruct (Hs n ltac:(lia)) as (-> & _). destruct (Hs (1 + n)%nat ltac:(lia)) as (_ & -> & _). destruct (Hs (2 + n)%nat ltac:(lia)) as (_ & _ & -> & _).
  destruct (Hs (3 + n)%nat ltac:(lia)) as (_ & _ & _ & -> & _). destruct (Hs (4 + n)%nat ltac:(lia)) as (_ & _ & _ & _ & -> & _).
  destruct (Hs (5 + n)%nat ltac:(lia)) as (_ & _ & _ & _ & _ & ->). by rewrite !enc_byte.
Qed.
Lemma read_before n : (6 + n <= u)%nat -> read_at n = enc_date d1.
Proof. intros Hn. apply read_shows; [done|]. intros k Hk. apply before. lia. Qed.
Lemma read_after n : (v <= n)%nat -> read_at n = enc_date d2.
Proof. intros Hn. apply read_shows; [done|]. intros k Hk. apply after_. lia. Qed.

Lemma same_date_eq s t : same_date s t = true <-> s = t.
Proof.
  unfold same_date. rewrite !andb_true_iff, !Z.eqb_eq. destruct s, t. cbn. split; [|intros [= -> -> -> -> -> ->]; tauto].
  by intros [[[[[-> ->] ->] ->] ->] ->].
Qed.

Lemma cmos_loop_step fuel n : cmos_loop (S fuel) n =
  if negb (Z.land (u8 (rtc (6 + n)%nat CMOS_STATA)) CMOS_UIP =? 0) then cmos_loop fuel (7 + n)%nat else
  if same_date (read_at n) (read_at (7 + n)) then Ret (read_at n) (13 + n)%nat else cmos_loop fuel (13 + n)%nat.
Proof.
  cbn [cmos_loop]. unfold bind at 1. rewrite fill_run. unfold bind at 1, cmos_read at 1. unfold bind, gets, modify, ret. cbn [id].
  destruct (negb _); [done|]. rewrite fill_run. change (S (6 + n)) with (7 + n)%nat. by destruct (same_date _ _).
Qed.

Lemma cmos_loop_runs fuel n : (v - n < fuel)%nat -> exists n', cmos_loop fuel n = Ret (enc_date d1) n' \/ cmos_loop fuel n = Ret (enc_date d2) n'.
Proof.
  revert n. induction fuel as [|fuel IH]; intros n Hf; [lia|]. rewrite cmos_loop_step.
  destruct (Z.eqb_spec (Z.land (u8 (rtc (6 + n)%nat CMOS_STATA)) CMOS_UIP) 0) as [Eu|Eu]; cbn [negb].
  - assert (6 + n < u \/ v <= 6 + n)%nat as Hn.
    { destruct (decide (6 + n < u)%nat); [by left|]. destruct (decide (v <= 6 + n)%nat); [by right|]. destruct (during (6 + n)%nat); [lia|done]. }
    destruct (same_date (read_at n) (read_at (7 + n))) eqn:Es.
    + apply same_date_eq in Es. eexists. destruct Hn as [Hn|Hn]; [left; by rewrite (read_before n) by lia|].
      right. by rewrite Es, (read_after (7 + n)) by lia.
    + apply IH. destruct (decide (v <= n)%nat) as [Hv|Hv]; [|lia]. exfalso.
      rewrite !read_after, (proj2 (same_date_eq _ _) eq_refl) in Es by lia. discriminate.
  - apply IH. destruct (decide (v <= 6 + n)%nat) as [Hv|Hv]; [|lia]. by destruct (after_ _ Hv) as [_ E].
Qed.

Hypothesis mode : (Z.land (u8 (rtc 0 CMOS_STATB)) 4 =? 0) = bcd.

(** C25: cmostime ends and returns a date the clock shows, even if the clock changes while
    it reads: when the clock shows one date up to some access and another from some access
    on, and in between updates its registers, with any values in them and CMOS_UIP set, the
    result is one of the two dates, in binary or in decimal digits. *)
Theorem cmostime_not_torn fuel :
  (v < fuel)%nat ->
  exists d n, cmostime fuel 0%nat = Ret (mkrtc (second d) (minute d) (hour d) (day d) (month d) (year d + 2000)) n /\ (d = d1 \/ d = d2).
Proof.
  intros Hf.
  assert (forall d n, valid d -> cmos_loop fuel 1%nat = Ret (enc_date d) n ->
    cmostime fuel 0%nat = Ret (mkrtc (second d) (minute d) (hour d) (day d) (month d) (year d + 2000)) n) as Hd.
  { intros d n (V1 & V2 & V3 & V4 & V5 & V6) Hl. unfold cmostime, cmos_read, bind, gets, modify, ret. cbn [id]. rewrite Hl.
    change (Z.shiftl 1 2) with 4. rewrite mode. destruct bcd eqn:Eb; cbn [enc_date second minute hour day month year].
    - rewrite !CONV_enc by done. rewrite u32_small; [done|unfold two_digits in *; lia].
    - unfold enc. rewrite Eb. rewrite u32_small; [done|unfold two_digits in *; lia]. }
  destruct (cmos_loop_runs fuel 1 ltac:(lia)) as (n & [E|E]); [exists d1, n|exists d2, n]; (split; [by apply Hd|auto]).
Qed.
End Cmos.

(** The year ends while the date is read: all registers read 153 during the update. *)
Definition demo_rtc (n : nat) (r : Z) : Z :=
  if r =? CMOS_STATB then 2 else if r =? CMOS_STATA then (if (5 <=? n)%nat && (n <? 30)%nat then 128 else 0) else
  if (5 <=? n)%nat && (n <? 30)%nat then 153 else
  let d := if (n <? 5)%nat then mkrtc 59 59 23 31 12 25 else mkrtc 0 0 0 1 1 26 in
  if r =? 0 then enc true (second d) else if r =? 2 then enc true (minute d) else if r =? 4 then enc true (hour d)
  else if r =? 7 then enc true (day d) else if r =? 8 then enc true (month d) else enc true (year d).

Lemma cmostime_not_torn_witness :
  exists n, cmostime demo_rtc 31 0%nat = Ret (mkrtc 0 0 0 1 1 2026) n.
Proof.
  destruct (cmostime_not_torn demo_rtc true 5 30 (mkrtc 59 59 23 31 12 25) (mkrtc 0 0 0 1 1 26)) with (fuel := 31%nat) as (d & n & E & Hd).
  - repeat split; discriminate.
  - repeat split; discriminate.
  - intros k Hk. unfold shows, demo_rtc. rewrite (proj2 (Nat.leb_gt 5 k)), (proj2 (Nat.ltb_lt k 5)) by lia. repeat split.
  - intros k Hk. unfold demo_rtc. cbn [Z.eqb Pos.eqb CMOS_STATA CMOS_STATB]. rewrite (proj2 (Nat.leb_le 5 k)), (proj2 (Nat.ltb_lt k 30)) by lia. discriminate.
  - intros k Hk. unfold shows, demo_rtc. rewrite (proj2 (Nat.leb_le 5 k)), (proj2 (Nat.ltb_ge k 30)), (proj2 (Nat.ltb_ge k 5)) by lia. repeat split.
  - lia.
  - reflexivity.
  - lia.
  - exists n. rewrite E. destruct Hd as [->| ->]; [|reflexivity].
    vm_compute in E. discriminate.
Defined.
