(* ===== verification/Startap.v ===== *)
(** * main.c: startothers, and what entryother.S and mpmain do on the other processors

    The boot processor copies entryother.S to a low page, and for each other processor
    leaves a stack, an entry point and a page directory in the three words below the copy,
    sends the messages that start the processor and waits until it has set started.  The
    started processor reads the three words, two of them through the page directory it has
    just loaded.  How long it takes to come up is a parameter. *)

From stdpp Require Import base list numbers strings gmap sets.
From S2P Require Import Prelude CString Spinlock Kalloc Vm Intr.
Import Ctx Mem.

Open Scope Z_scope.
Local Open Scope kernel_scope.

Definition KSTACKSIZE : Z := 4096.
Definition PTE_PS : Z := 128.

(** entrypgdir: two entries, each for the first four megabytes of physical memory. *)
Definition entrypgdir (i : Z) : Z :=
  if i =? 0 then Z.lor (Z.lor PTE_P PTE_W) PTE_PS
  else if i =? Z.shiftr KERNBASE 22 then Z.lor (Z.lor PTE_P PTE_W) PTE_PS
  else 0.

(** What the processor does with an address when cr3 holds [cr3] and page size extensions
    are on: the physical address, when a large page maps it. *)
Definition translate (m : mem) (cr3 va : Z) : option Z :=
  let pde := load32 m (p2v (u32 (cr3 + 4 * PDX va))) in
  if negb (Z.land pde PTE_P =? 0) && negb (Z.land pde PTE_PS =? 0)
  then Some (u32 (4194304 * (pde / 4194304) + va mod 4194304)) else None.

(** A processor that runs: its number, page directory, stack pointer and where it goes. *)
Record ap := mkap { a_id : Z; a_cr3 : Z; a_esp : Z; a_eip : Z }.

(** The address the Makefile links entryother.S for. *)
Definition start : Z := 28672.

(** entryother.S from the load of cr3 on; [None] when a read is not mapped. *)
Definition entryother (m : mem) (id : Z) : option ap :=
  let cr3 := load32 m (p2v (start - 12)) in
  match translate m cr3 (start - 4), translate m cr3 (start - 8) with
  | Some x, Some y => Some (mkap id cr3 (load32 m (p2v x)) (load32 m (p2v y)))
  | _, _ => None
  end.

(** A processor leaves its halt when it has been sent INIT and then STARTUP; the vector is
    the page it starts at. *)
Definition told (id kind page : Z) (l : list (Z * Z)) : bool :=
  existsb (fun '(hi, lo) => (Z.shiftr hi 24 =? id) && (Z.land lo 1792 =? kind) && (Z.land lo 255 =? page)) l.
Definition awake (id page : Z) (l : list (Z * Z)) : bool := told id INIT 0 l && told id STARTUP page l.

(** The allocator and memory, the local APIC of the boot processor, the field started of
    cpus and the processors that have come up, in order. *)
Record st := mkst { k_of : kst; l_of : lap; started : list Z; aps : list ap }.

Definition set_k (k : kst) (s : st) : st := mkst k (l_of s) (started s) (aps s).
Definition set_l (l : lap) (s : st) : st := mkst (k_of s) l (started s) (aps s).
Notation kmem m := (zoom k_of set_k m).
Notation apic m := (zoom l_of set_l m).

Section Startothers.
(** The address of mpenter and of entrypgdir; the bytes of entryother; the ids and the number
    of processors that mpinit found. *)
Variables (mpenter entry_at : Z) (image : list Z) (cpu_id : list Z) (ncpu : nat).
(** How many rounds a message is under way and how many reads of started a processor takes
    to come up; the bound of the wait. *)
Variables (delay : nat) (slow : nat -> nat) (spins : nat).

(** The processor of slot [c] starts, when the messages make it run at the copy of the code,
    and mpmain sets started of the slot that its own number selects. *)
Definition ap_runs (c : nat) : M st unit := modify (fun s =>
  let id := default 0 (cpu_id !! c) in
  if awake id (start / 4096) (sent (l_of s)) then
    match entryother (kmemory (k_of s)) id with
    | Some a => mkst (k_of s) (l_of s) (<[Z.to_nat id := 1]> (started s)) (aps s ++ [a])
    | None => s
    end
  else s).

(** while(c->started == 0). *)
Fixpoint wait_started (n d c : nat) : M st unit :=
  match n with
  | O => out_of_fuel
  | S n =>
      v <- gets (fun s => default 0 (started s !! c)) ;;
      if v =? 0 then
        (match d with O => ap_runs c | S _ => ret tt end) ;;
        wait_started n (pred d) c
      else ret tt
  end.

Definition start_one (code : Z) (c : nat) : M st unit :=
  me <- apic (cpunum true) ;;
  if Z.of_nat c =? me then ret tt else
  stack <- kmem kalloc ;;
  kmem (set_mem (fun m => store32 m (code - 4) (u32 (stack + KSTACKSIZE)))) ;;
  kmem (set_mem (fun m => store32 m (code - 8) mpenter)) ;;
  kmem (set_mem (fun m => store32 m (code - 12) (v2p entry_at))) ;;
  apic (lapicstartap delay (default 0 (cpu_id !! c)) (v2p code)) ;;
  wait_started spins (slow c) c.

Definition startothers : M st unit :=
  let code := p2v 28672 in
  kmem (copy_in code image) ;;
  forM (seq 0 ncpu) (start_one code).

(** ** The page directory of the first instructions *)

Variable end_ : Z.

(** entrypgdir lies in the kernel, which is loaded at one megabyte. *)
Definition pgdir_at (m : mem) : Prop :=
  entry_at mod PGSIZE = 0 /\ KERNLINK <= entry_at /\ entry_at + PGSIZE <= end_ /\ end_ <= KERNBASE + 4194304 /\
  forall i, 0 <= i < 1024 -> load32 m (entry_at + 4 * i) = entrypgdir i.

Lemma pgdir_same m m' :
  (forall a, KERNLINK <= a < end_ -> m' a = m a) -> pgdir_at m -> pgdir_at m'.
Proof.
  intros H (H1 & H2 & H3 & H4 & H5). unfold KERNLINK, EXTMEM, KERNBASE, PGSIZE in *.
  split_and!; try done. intros i Hi. rewrite <- H5 by done. apply load32_same; [lia|lia|]. intros x Hx. apply H. lia.
Qed.

Lemma translate_low m va :
  pgdir_at m -> 0 <= va < 4194304 \/ KERNBASE <= va < KERNBASE + 4194304 ->
  translate m (v2p entry_at) va = Some (va mod 4194304).
Proof.
  intros (H1 & H2 & H3 & H4 & H5) Hva. unfold KERNLINK, EXTMEM, KERNBASE, PGSIZE in *.
  assert (PDX va = 0 \/ PDX va = 512) as HP.
  { unfold PDX. rewrite Z.shiftr_div_pow2 by lia. change 1023 with (Z.ones 10). rewrite Z.land_ones by lia. change (2 ^ 22) with 4194304. change (2 ^ 10) with 1024.
    destruct Hva; [left|right].
    - rewrite Z.div_small by lia. done.
    - rewrite <- (Z.div_unique va 4194304 512 (va - 2147483648)) by lia. done. }
  unfold translate. assert (p2v (u32 (v2p entry_at + 4 * PDX va)) = entry_at + 4 * PDX va) as ->.
  { unfold p2v, v2p, KERNBASE. rewrite (u32_small (entry_at - _)) by lia. rewrite (u32_small (_ + 4 * _)) by (destruct HP as [-> | ->]; lia).
    rewrite u32_small; [lia|destruct HP as [-> | ->]; lia]. }
  rewrite H5 by (destruct HP as [-> | ->]; lia).
  assert (entrypgdir (PDX va) = 131) as -> by (destruct HP as [-> | ->]; done). cbn [negb].
  change (131 / 4194304) with 0. change (Z.land 131 PTE_P =? 0) with false. change (Z.land 131 PTE_PS =? 0) with false. cbn [negb andb].
  rewrite u32_small; [done|]. pose proof (Z.mod_pos_bound va 4194304). lia.
Qed.

(** ** One processor *)

Hypothesis mpenter_range : 0 <= mpenter < 2 ^ 32.

(** The memory with the three words for a processor with stack pointer [sp]. *)
Definition three_words (m : mem) (sp : Z) : mem :=
  store32 (store32 (store32 m (p2v 28672 - 4) sp) (p2v 28672 - 8) mpenter) (p2v 28672 - 12) (v2p entry_at).

Lemma three_words_out m sp a : ~ (p2v 28672 - 12 <= a < p2v 28672) -> three_words m sp a = m a.
Proof. change (p2v 28672) with 2147512320. intros H. unfold three_words. change (p2v 28672) with 2147512320. by rewrite !store32_out by lia. Qed.

Lemma three_words_load m sp :
  0 <= sp < 2 ^ 32 -> 0 <= v2p entry_at < 2 ^ 32 ->
  load32 (three_words m sp) (p2v 28672 - 4) = sp /\ load32 (three_words m sp) (p2v 28672 - 8) = mpenter /\
  load32 (three_words m sp) (p2v 28672 - 12) = v2p entry_at.
Proof.
  intros Hs He. unfold three_words. change (p2v 28672) with 2147512320. cbn [Z.sub Z.add Z.opp Z.pos_sub].
  split_and!.
  - rewrite (load32_same (store32 m 2147512316 sp)); [|lia|lia|intros x Hx; by rewrite !store32_out by lia].
    rewrite load_store32 by lia. by apply u32_small.
  - rewrite (load32_same (store32 (store32 m 2147512316 sp) 2147512312 mpenter)); [|lia|lia|intros x Hx; by rewrite !store32_out by lia].
    rewrite load_store32 by lia. by apply u32_small.
  - rewrite load_store32 by lia. by apply u32_small.
Qed.

Lemma entryother_reads m sp id :
  pgdir_at m -> 0 <= sp < 2 ^ 32 -> entryother (three_words m sp) id = Some (mkap id (v2p entry_at) sp mpenter).
Proof.
  intros HP Hs. assert (pgdir_at (three_words m sp)) as HP'.
  { apply (pgdir_same m); [|done]. intros a Ha. apply three_words_out. change (p2v 28672) with 2147512320. unfold KERNLINK, KERNBASE, EXTMEM in Ha. lia. }
  destruct HP as (H1 & H2 & H3 & H4 & _). unfold KERNLINK, EXTMEM, KERNBASE, PGSIZE in *.
  destruct (three_words_load m sp Hs) as (L1 & L2 & L3); [unfold v2p, u32; apply Z.mod_pos_bound; lia|].
  unfold entryother, start. change (p2v (28672 - 12)) with (p2v 28672 - 12). rewrite L3, !(translate_low _ _ HP') by lia.
  change (p2v ((28672 - 4) mod 4194304)) with (p2v 28672 - 4). change (p2v ((28672 - 8) mod 4194304)) with (p2v 28672 - 8).
  by rewrite L1, L2.
Qed.

Lemma told_app id kind page l l' : told id kind page l' = true -> told id kind page (l ++ l') = true.
Proof. intros H. unfold told in *. rewrite existsb_app, H. apply orb_true_r. Qed.

Lemma awake_sent id l :
  0 <= id < 256 ->
  awake id 7 (l ++ [(16777216 * id, INIT + LEVEL + ASSERT); (16777216 * id, INIT + LEVEL);
    (16777216 * id, Z.lor STARTUP 7); (16777216 * id, Z.lor STARTUP 7)]) = true.
Proof.
  intros Hid. assert (Z.shiftr (16777216 * id) 24 = id) as E by (rewrite Z.shiftr_div_pow2 by lia; change (2 ^ 24) with 16777216; rewrite Z.mul_comm; apply Z.div_mul; lia).
  unfold awake. rewrite !told_app; [done|..]; unfold told; cbn [existsb]; rewrite E, Z.eqb_refl; done.
Qed.

Lemma wp_wait_started n d c s s' (Q : unit -> st -> Prop) :
  started s !! c = Some 0 -> (S d < n)%nat -> ap_runs c s = Ret tt s' -> started s' !! c = Some 1 -> Q tt s' ->
  wp (wait_started n d c) Q s.
Proof.
  intros H0 Hn E H1 HQ. revert n Hn. induction d as [|d IH]; intros [|n] Hn; [lia| |lia|].
  - cbn [wait_started]. wp_steps. rewrite H0. cbn. wp_step. eapply wp_of_run; [exact E|]. destruct n as [|n]; [lia|].
    cbn [wait_started]. wp_steps. rewrite H1. cbn. by wp_steps.
  - cbn [wait_started]. wp_steps. rewrite H0. cbn. wp_steps. apply IH. lia.
Qed.

(** ** All of them *)

Hypothesis image_fits : p2v 28672 + Z.of_nat (length image) <= KERNLINK.
Hypothesis ids : forall c, (c < ncpu)%nat -> cpu_id !! c = Some (Z.of_nat c).
Hypothesis few : (ncpu <= 8)%nat.
Hypothesis patient : forall c, (c < ncpu)%nat -> (S (slow c) < spins)%nat.

(** The processors below [k] other than the boot processor [me], and how each comes up. *)
Definition others (me k : nat) : list nat := filter (fun c => c <> me) (seq 0 k).
Definition comes_up (c : nat) (p : Z) : ap := mkap (Z.of_nat c) (v2p entry_at) (p + KSTACKSIZE) mpenter.

Lemma others_S me k : others me (S k) = others me k ++ if decide (k <> me) then [k] else [].
Proof. unfold others. by rewrite seq_S, filter_app. Qed.

(** The state before processor [k] is looked at; [m] is the memory with the code in place. *)
Record begun (l : list Z) (m : mem) (me k : nat) (s : st) : Prop := {
  be_mem : forall a, ~ (p2v 28672 - 12 <= a < p2v 28672) -> kmemory (k_of s) a = m a;
  be_kmem : kmem_ok end_ (k_of s) (drop (length (others me k)) l);
  be_id : Z.shiftr (lregs (l_of s) ID) 24 = Z.of_nat me;
  be_down : forall c, (k <= c < ncpu)%nat -> c <> me -> started s !! c = Some 0;
  be_up : forall c, (c < k)%nat -> c <> me -> started s !! c = Some 1;
  be_aps : aps s = zip_with comes_up (others me k) l }.

Lemma begun_pgdir l m me k s : pgdir_at m -> begun l m me k s -> pgdir_at (kmemory (k_of s)).
Proof.
  intros HP B. apply (pgdir_same m); [|done]. intros a Ha. apply (be_mem _ _ _ _ _ B).
  change (p2v 28672) with 2147512320. unfold KERNLINK, KERNBASE, EXTMEM in Ha. lia.
Qed.

(** The allocator does not see the low words. *)
Lemma kmem_ok_low k l m' :
  KERNLINK <= end_ -> (forall a, KERNLINK <= a -> m' a = kmemory k a) -> kmem_ok end_ k l ->
  kmem_ok end_ (mkkst (use_lock k) (freelist k) m' (kctx_of k)) l.
Proof.
  intros He H [H1 H2 H3]. constructor; [|done|done]. cbn. eapply flist_ext; [|exact H1].
  intros p a Hp Ha. apply H. pose proof (flist_page _ _ _ _ _ H1 Hp) as (_ & Hr & _). unfold in_page in Ha. lia.
Qed.

(** From the three words to the answer of the processor. *)
Lemma wp_launch k p s (Q : unit -> st -> Prop) :
  pgdir_at (kmemory (k_of s)) -> (k < ncpu)%nat -> started s !! k = Some 0 -> 0 <= p -> p + KSTACKSIZE < 2 ^ 32 ->
  (forall l', lregs l' ID = lregs (l_of s) ID ->
    Q tt (mkst (mkkst (use_lock (k_of s)) (freelist (k_of s)) (three_words (kmemory (k_of s)) (p + KSTACKSIZE)) (kctx_of (k_of s)))
           l' (<[k := 1]> (started s)) (aps s ++ [comes_up k p]))) ->
  wp (kmem (set_mem (fun m => store32 m (p2v 28672 - 4) (u32 (p + KSTACKSIZE)))) ;;
      kmem (set_mem (fun m => store32 m (p2v 28672 - 8) mpenter)) ;;
      kmem (set_mem (fun m => store32 m (p2v 28672 - 12) (v2p entry_at))) ;;
      apic (lapicstartap delay (default 0 (cpu_id !! k)) (v2p (p2v 28672))) ;;
      wait_started spins (slow k) k) Q s.
Proof.
  intros HP Hk Hs H0 H1 HQ. unfold KSTACKSIZE in *. rewrite u32_small, ids by lia. cbn [default from_option id].
  unfold set_mem. do 3 (wp_step; apply wp_zoom; wp_step). wp_step. apply wp_zoom.
  change (v2p (p2v 28672)) with (4096 * 7).
  destruct (lapicstartap_sends delay (Z.of_nat k) 7 (l_of s)) as (l' & El & Es & _ & _ & Ei); [lia|lia|].
  eapply wp_of_run; [exact El|]. eapply wp_wait_started; [exact Hs|by apply patient| | |apply (HQ l' Ei)].
  - unfold ap_runs, modify. rewrite ids by lia. cbn [default from_option id k_of l_of set_k set_l kmemory started aps use_lock freelist kctx_of]. change (start / 4096) with 7.
    rewrite Es, awake_sent by lia. fold (three_words (kmemory (k_of s)) (p + 4096)). rewrite entryother_reads by (done || lia).
    by rewrite Nat2Z.id.
  - cbn. apply list_lookup_insert_eq. by eapply lookup_lt_Some.
Qed.

Lemma others_room me k n : (k < n)%nat -> k <> me -> (length (others me k) < length (others me n))%nat.
Proof.
  intros Hk Hne. induction n as [|n IH]; [lia|]. rewrite others_S, length_app.
  destruct (decide (k = n)) as [->|]; [rewrite decide_True by done; cbn; lia|]. specialize (IH ltac:(lia)). lia.
Qed.

Lemma zip_next (f : nat -> Z -> ap) xs x (l : list Z) p :
  l !! length xs = Some p -> zip_with f (xs ++ [x]) l = zip_with f xs l ++ [f x p].
Proof.
  revert l. induction xs as [|y xs IH]; intros [|q l] H; cbn in *; try done; [by injection H as ->|].
  f_equal. by apply IH.
Qed.

Lemma wp_start_one l m me k s :
  pgdir_at m -> (length (others me ncpu) <= length l)%nat -> (k < ncpu)%nat -> begun l m me k s ->
  wp (start_one (p2v 28672) k) (fun _ => begun l m me (S k)) s.
Proof.
  intros HP Hl Hk B. pose proof (begun_pgdir _ _ _ _ _ HP B) as HPs. destruct B as [B1 B2 B3 B4 B5 B6].
  unfold start_one. wp_step. apply wp_zoom. unfold cpunum. wp_step. rewrite B3.
  destruct (Z.eqb_spec (Z.of_nat k) (Z.of_nat me)) as [E|E].
  { wp_steps. apply Nat2Z.inj in E as ->. assert (others me (S me) = others me me) as Eo by (rewrite others_S, decide_False by tauto; apply app_nil_r).
    destruct s. constructor; cbn in *; rewrite ?Eo; try done; intros c Hc Hm; [apply B4|apply B5]; lia. }
  assert (k <> me) as Hne by lia.
  pose proof (others_room me k ncpu Hk Hne) as Hroom.
  destruct (lookup_lt_is_Some_2 l (length (others me k))) as [p Hp]; [lia|]. rewrite (drop_S _ _ _ Hp) in B2.
  assert (page end_ p) as Hpp by (eapply flist_page; [exact (ko_list _ _ _ B2)|left]).
  pose proof (page_range _ _ Hpp) as Hpr. unfold KERNBASE, PHYSTOP, PGSIZE in Hpr.
  wp_step. apply wp_zoom. eapply wp_kalloc; [exact B2|]. cbv zeta. intros K.
  with_strategy opaque [wp bind zoom set_mem p2v v2p u32 store32 lapicstartap wait_started] apply wp_launch; [exact HPs|done|by apply B4|lia|unfold KSTACKSIZE; lia|].
  intros l' Ei. assert (others me (S k) = others me k ++ [k]) as Eo by (by rewrite others_S, decide_True).
  constructor; cbn [k_of l_of started aps set_k set_l kmemory use_lock freelist kctx_of] in *; rewrite ?Eo.
  - intros a Ha. rewrite three_words_out by done. by apply B1.
  - rewrite length_app, Nat.add_1_r. refine (kmem_ok_low _ _ _ _ _ K); [destruct HP as (_ & ? & ? & _); unfold PGSIZE in *; lia|].
    intros a Ha. cbn [kmemory]. apply three_words_out. change (p2v 28672) with 2147512320. unfold KERNLINK, KERNBASE, EXTMEM in Ha. lia.
  - by rewrite Ei.
  - intros c Hc Hm. rewrite list_lookup_insert_ne by lia. apply B4; lia.
  - intros c Hc Hm. destruct (decide (c = k)) as [->|].
    + apply list_lookup_insert_eq. eapply lookup_lt_Some, B4; lia.
    + rewrite list_lookup_insert_ne by lia. apply B5; lia.
  - rewrite B6. symmetry. by apply zip_next.
Qed.

(** C21: when the allocator has a page for each processor, all of them in the memory that
    kinit1 released, startothers ends with every other processor of the machine running:
    each was started once, in order, with a page of its own as stack, at mpenter and on
    entrypgdir, which maps every byte of that stack where the kernel has it; the pages are
    no longer free and the entry code is in place. *)
Theorem startothers_starts s l me :
  kmem_ok end_ (k_of s) l -> Forall (fun p => p + PGSIZE <= KERNBASE + 4194304) l -> (length (others me ncpu) <= length l)%nat ->
  pgdir_at (kmemory (k_of s)) -> Z.shiftr (lregs (l_of s) ID) 24 = Z.of_nat me ->
  (forall c, (c < ncpu)%nat -> c <> me -> started s !! c = Some 0) -> aps s = [] ->
  exists s', startothers s = Ret tt s' /\
    aps s' = zip_with comes_up (others me ncpu) l /\
    kmem_ok end_ (k_of s') (drop (length (others me ncpu)) l) /\
    (forall c, (c < ncpu)%nat -> c <> me -> started s' !! c = Some 1) /\
    (forall p a, p ∈ l -> in_page p a -> translate (kmemory (k_of s')) (v2p entry_at) a = Some (v2p a)) /\
    (forall i b, image !! i = Some b -> kmemory (k_of s') (p2v 28672 + Z.of_nat i) = b).
Proof.
  intros HK HF Hl HP Hid Hd Ha. set (m := fun x => if within x (p2v 28672) (Z.of_nat (length image)) then default 0 (image !! Z.to_nat (x - p2v 28672)) else kmemory (k_of s) x).
  assert (forall a, KERNLINK <= a -> m a = kmemory (k_of s) a) as Hm.
  { intros a Hx. unfold m, within. rewrite (proj2 (Z.ltb_ge a _)) by lia. by rewrite andb_false_r. }
  assert (pgdir_at m) as HPm by (apply (pgdir_same (kmemory (k_of s))); [|done]; intros a Hx; apply Hm; lia).
  assert (wp startothers (fun _ => begun l m me ncpu) s) as Hw.
  { unfold startothers. wp_step. apply wp_zoom. unfold copy_in, set_mem. wp_step.
    eapply wp_mono; [eapply (wp_forM _ _ (fun k => begun l m me k))|by intros []; rewrite length_seq].
    - constructor; cbn; [done| |done|intros c Hc; apply Hd; lia|lia|done].
      apply (kmem_ok_low _ _ m); [destruct HP as (_ & ? & ? & _); unfold PGSIZE in *; lia|done|by rewrite drop_0].
    - intros k c s' Hc. apply lookup_seq in Hc as [-> Hc]. by apply wp_start_one. }
  apply wp_run in Hw as ([] & s' & E & B). exists s'. pose proof (begun_pgdir _ _ _ _ _ HPm B) as HPs. destruct B as [B1 B2 _ _ B5 B6].
  split_and!; [done..| |].
  - intros p a Hp Hpa. rewrite Forall_forall in HF. specialize (HF p Hp). pose proof (flist_page _ _ _ _ _ (ko_list _ _ _ HK) Hp) as Hpg.
    destruct (page_range _ _ Hpg) as [H1 _]. unfold in_page, PGSIZE, KERNBASE in *. rewrite (translate_low _ _ HPs) by (unfold KERNBASE; lia).
    f_equal. unfold v2p, KERNBASE. rewrite u32_small by lia. symmetry. apply (Z.mod_unique _ _ 512); lia.
  - intros i b Hi. pose proof (lookup_lt_Some _ _ _ Hi). rewrite B1 by lia. unfold m, within.
    rewrite (proj2 (Z.leb_le _ _)), (proj2 (Z.ltb_lt _ _)) by lia. cbn [andb]. by rewrite Z.add_simpl_l, Nat2Z.id, Hi.
Qed.

End Startothers.

(** Three processors: the page directory at 0x8010a000 and two free pages after the kernel. *)
Definition demo_mem (a : Z) : Z :=
  if (a =? 2148573184) || (a =? 2148575232) then 131
  else if a =? 2148597761 then 16 else if a =? 2148597762 then 17 else if a =? 2148597763 then 128 else 0.
Definition demo_start : st :=
  mkst (mkkst 0 2148597760 demo_mem (mkctx [] [] false)) (mklap (fun _ => 0) 0 [] (0, 0) 0) (replicate 8 0) [].

Lemma demo_pgdir : pgdir_at 2148573184 2148597760 demo_mem.
Proof.
  split_and!; [done..|]. intros i Hi.
  assert (forallb (fun i => load32 demo_mem (2148573184 + 4 * Z.of_nat i) =? entrypgdir (Z.of_nat i)) (seq 0 1024) = true) as H by (vm_compute; reflexivity).
  rewrite forallb_forall in H. specialize (H (Z.to_nat i)). rewrite Z2Nat.id in H by lia. apply Z.eqb_eq, H, in_seq. lia.
Qed.

Lemma demo_pages : kmem_ok 2148597760 (k_of demo_start) [2148597760; 2148601856].
Proof. constructor; [by vm_compute|by repeat (apply NoDup_cons_2; [set_solver|]); apply NoDup_nil_2|set_solver]. Qed.

Lemma startothers_starts_witness :
  exists s', startothers 2148532224 2148573184 [250; 49; 192] [0; 1; 2] 3 2 (fun c => c) 5 demo_start = Ret tt s' /\
    aps s' = [mkap 1 1089536 2148601856 2148532224; mkap 2 1089536 2148605952 2148532224].
Proof.
  destruct (startothers_starts 2148532224 2148573184 [250; 49; 192] [0; 1; 2] 3 2 (fun c => c) 5 2148597760) with (s := demo_start) (l := [2148597760; 2148601856]) (me := 0%nat) as (s' & E & H & _).
  - lia.
  - by vm_compute.
  - intros [|[|[|c]]] Hc; [done..|lia].
  - lia.
  - intros c Hc. lia.
  - apply demo_pages.
  - repeat constructor; by vm_compute.
  - vm_compute. repeat constructor.
  - apply demo_pgdir.
  - done.
  - intros [|[|[|c]]] Hc; [done..|lia].
  - done.
  - exists s'. split; [exact E|]. rewrite H. vm_compute. reflexivity.
Defined.
