(* ===== verification/Exec.v ===== *)
(** * exec.c, and loaduvm of vm.c: loading a program

    The state is the process table over the file system and the page allocator, [psys (fsys
    S)]; inode pointers are indices of the cache.  exec is cut into the part that builds the
    new image (the file, its segments, the stack) and the part that commits to it.  The
    label bad is [exec_bad].  The contents of the stack variable elf before readi fills it
    are a parameter. *)

From stdpp Require Import base list numbers strings gmap functions sets.
From S2P Require Import Prelude CString Spinlock Layout Pipe Buf Log Kalloc Proc Block Inode Dir Vm Syscall File Sysfile.
Import Ctx Mem.

Open Scope Z_scope.
Local Open Scope kernel_scope.

Definition ELF_MAGIC : Z := 1179403647.
Definition ELF_PROG_LOAD : Z := 1.
Definition sizeof_elfhdr : nat := 52.
Definition sizeof_proghdr : nat := 32.

Record elfhdr := mkelf {
  e_magic : Z; e_elf : list Z; e_type : Z; e_machine : Z; e_version : Z; e_entry : Z; e_phoff : Z; e_shoff : Z;
  e_flags : Z; e_ehsize : Z; e_phentsize : Z; e_phnum : Z; e_shentsize : Z; e_shnum : Z; e_shstrndx : Z }.
Definition elf_of (d : list Z) : elfhdr :=
  mkelf (get32 d 0) (slice 4 12 d) (get16 d 16) (get16 d 18) (get32 d 20) (get32 d 24) (get32 d 28) (get32 d 32)
    (get32 d 36) (get16 d 40) (get16 d 42) (get16 d 44) (get16 d 46) (get16 d 48) (get16 d 50).

Record proghdr := mkph {
  ph_type : Z; ph_off : Z; ph_vaddr : Z; ph_paddr : Z; ph_filesz : Z; ph_memsz : Z; ph_flags : Z; ph_align : Z }.
Definition ph_of (d : list Z) : proghdr :=
  mkph (get32 d 0) (get32 d 4) (get32 d 8) (get32 d 12) (get32 d 16) (get32 d 20) (get32 d 24) (get32 d 28).

(** The program a process runs after exec. *)
Record image := mkimage { im_pgdir : Z; im_sz : Z; im_eip : Z; im_esp : Z }.

Section Stack.
Variable end_ : Z.

(** The loop over argv: the stack pointer and the entries of ustack from 3 on. *)
Fixpoint push_args (argv : list (list Z)) (pgdir sp : Z) (ustack : list Z) : M kst (option (Z * list Z)) :=
  match argv with
  | [] => ret (Some (sp, ustack))
  | a :: argv =>
      if (MAXARG <=? length ustack)%nat then ret None else
      n <- lift_opt (Str.strlen a) ;;
      let sp := Z.ldiff (u32 (sp - (n + 1))) 3 in
      r <- copyout pgdir sp a (n + 1) ;;
      if r <? 0 then ret None else push_args argv pgdir sp (ustack ++ [sp])
  end.

(** From the allocation of the two pages to the copy of ustack: the size and the stack
    pointer, or bad. *)
Definition user_stack (pgdir sz : Z) (argv : list (list Z)) : M kst (option (Z * Z)) :=
  let sz := PGROUNDUP sz in
  r <- allocuvm end_ pgdir sz (u32 (sz + 2 * PGSIZE)) ;;
  let sz := u32 r in
  if sz =? 0 then ret None else
  clearpteu pgdir (u32 (sz - 2 * PGSIZE)) ;;
  o <- push_args argv pgdir sz [] ;;
  match o with
  | None => ret None
  | Some (sp, args) =>
      let argc := Z.of_nat (length args) in
      let ustack := [4294967295; argc; u32 (sp - (argc + 1) * 4)] ++ args ++ [0] in
      let sp := u32 (sp - (3 + argc + 1) * 4) in
      r <- copyout pgdir sp (ustack ≫= to_le 4) ((3 + argc + 1) * 4) ;;
      if r <? 0 then ret None else ret (Some (sz, sp))
  end.
End Stack.

Section Exec.
Context {S : Type} `{HasCtx S} `{!BlockLayer S} `{!TxLayer S}.
Abbreviation FS := (fsys S).
Abbreviation XS := (psys (fsys S)).
Variable dev_read : Z -> option (nat -> Z -> M (ist S) (Z * list Z)).
(** The linker's end and data. *)
Variables end_ data : Z.

Fixpoint loaduvm_loop (fuel : nat) (pgdir addr : Z) (ip : nat) (offset sz i : Z) : M FS Z :=
  match fuel with
  | O => out_of_fuel
  | Datatypes.S fuel =>
      if i <? sz then
        pte <- in_kmem (walkpgdir pgdir (u32 (addr + i)) false) ;;
        if pte =? 0 then panic "loaduvm: address should exist" else
        e <- in_kmem (load_pte pte) ;;
        let pa := PTE_ADDR e in
        let n := if sz - i <? PGSIZE then sz - i else PGSIZE in
        r <- in_fs (readi dev_read ip (u32 (offset + i)) n) ;;
        in_kmem (copy_in (p2v pa) (snd r)) ;;
        if negb (fst r =? n) then ret (-1)
        else loaduvm_loop fuel pgdir addr ip offset sz (u32 (i + PGSIZE))
      else ret 0
  end.

Definition loaduvm (pgdir addr : Z) (ip : nat) (offset sz : Z) : M FS Z :=
  if negb (addr mod PGSIZE =? 0) then panic "loaduvm: addr must be page aligned" else
  loaduvm_loop (2 + Z.to_nat (sz / PGSIZE)) pgdir addr ip offset sz 0.

(** The loop over the program headers, [k] to go: the size of the image, or bad. *)
Fixpoint load_segments (k : nat) (ip : nat) (pgdir off sz : Z) : M FS (option Z) :=
  match k with
  | O => ret (Some sz)
  | Datatypes.S k =>
      r <- in_fs (readi dev_read ip off (Z.of_nat sizeof_proghdr)) ;;
      if negb (fst r =? Z.of_nat sizeof_proghdr) then ret None else
      let ph := ph_of (snd r) in
      let off := u32 (off + Z.of_nat sizeof_proghdr) in
      if negb (ph_type ph =? ELF_PROG_LOAD) then load_segments k ip pgdir off sz else
      if ph_memsz ph <? ph_filesz ph then ret None else
      sz <- in_kmem (allocuvm end_ pgdir sz (u32 (ph_vaddr ph + ph_memsz ph))) ;;
      if u32 sz =? 0 then ret None else
      r <- loaduvm pgdir (ph_vaddr ph) ip (ph_off ph) (ph_filesz ph) ;;
      if r <? 0 then ret None else load_segments k ip pgdir off (u32 sz)
  end.

(** The label bad. *)
Definition exec_bad {A} (pgdir : Z) (ip : option nat) : M FS (option A) :=
  (when (negb (pgdir =? 0)) do in_kmem (freevm end_ pgdir)) ;;
  match ip with
  | Some ip => in_fs (iunlockput ip) ;; end_tx
  | None => ret tt
  end ;;
  ret None.

(** readi's result is compared with a size_t: a result of -1 passes the first test. *)
Definition exec_image (junk : list Z) (cwd : nat) (path : list Z) (argv : list (list Z)) : M FS (option image) :=
  begin_tx ;;
  o <- in_fs (namei dev_read cwd path) ;;
  match o with
  | None => end_tx ;; ret None
  | Some ip =>
      in_fs (ilock ip) ;;
      r <- in_fs (readi dev_read ip 0 (Z.of_nat sizeof_elfhdr)) ;;
      let elf := elf_of (splice 0 (snd r) junk) in
      if u32 (fst r) <? Z.of_nat sizeof_elfhdr then exec_bad 0 (Some ip) else
      if negb (e_magic elf =? ELF_MAGIC) then exec_bad 0 (Some ip) else
      pgdir <- in_kmem (setupkvm data) ;;
      if pgdir =? 0 then exec_bad 0 (Some ip) else
      o <- load_segments (Z.to_nat (e_phnum elf)) ip pgdir (e_phoff elf) 0 ;;
      match o with
      | None => exec_bad pgdir (Some ip)
      | Some sz =>
          in_fs (iunlockput ip) ;;
          end_tx ;;
          o <- in_kmem (user_stack end_ pgdir sz argv) ;;
          match o with
          | None => exec_bad pgdir None
          | Some (sz, sp) => ret (Some (mkimage pgdir sz (e_entry elf) sp))
          end
      end
  end.

(** The last element of the path, for the name of the process. *)
Fixpoint last_elem (s last : list Z) : option (list Z) :=
  match s with
  | [] => None
  | c :: s => if c =? 0 then Some last else last_elem s (if c =? slash then s else last)
  end.

(** The loop that is to wait for the other threads: [k] counts those in a state that is
    both ZOMBIE and UNUSED. *)
Definition count_ended (c : nat) (me : nat * nat) : M XS Z :=
  r <- row_of c ;;
  ts <- gets ttable ;;
  row <- lift_opt (ts !! r) ;;
  ret (Z.of_nat (length (filter (fun x => bool_decide ((r, fst x) <> me) &&
    (bool_decide (t_state (snd x) = ZOMBIE) && bool_decide (t_state (snd x) = UNUSED))) (imap pair (take NTHREAD row))))).
Fixpoint exec_wait (fuel : nat) (c : nat) (k : Z) : M XS unit :=
  match fuel with
  | O => out_of_fuel
  | Datatypes.S fuel =>
      if k =? Z.of_nat NTHREAD - 1 then
        me <- curthread ;; k <- count_ended c me ;; exec_wait fuel c k
      else ret tt
  end.

Definition tf_program (eip esp : Z) (f : trapframe) : trapframe := tf_start eip esp (tf_eflags f) f.

(** The commit to the image. *)
Definition exec_commit (c : nat) (path : list Z) (im : image) : M XS Z :=
  last <- lift_opt (last_elem path path) ;;
  p <- getp c ;;
  nm <- lift_opt (Str.safestrcpy (p_name p) last 16) ;;
  setp c (pw_name nm) ;;
  p <- getp c ;;
  let oldpgdir := p_pgdir p in
  acquire_via_thread ;;
  exec_wait 1 c 0 ;;
  release_via_thread ;;
  setp c (pw_pgdir (im_pgdir im)) ;;
  setp c (pw_sz (im_sz im)) ;;
  rt <- curthread ;;
  th <- gett (fst rt) (snd rt) ;;
  f <- get_tf (t_tf th) ;;
  put_tf (t_tf th) (tf_program (im_eip im) (im_esp im) f) ;;
  switchuvm c ;;
  in_env (in_kmem (freevm end_ oldpgdir)) ;;
  ret 0.

Definition exec (junk path : list Z) (argv : list (list Z)) : M XS Z :=
  c <- curproc ;;
  p <- getp c ;;
  o <- in_env (exec_image junk (Z.to_nat (p_cwd p)) path argv) ;;
  match o with
  | None => ret (-1)
  | Some im => exec_commit c path im
  end.

Definition sys_exec (junk : list Z) (u : uproc) : M XS Z :=
  match exec_args u with
  | None => ret (-1)
  | Some (path, argv) => exec junk path argv
  end.
End Exec.
