(* ===== verification/Boot.v ===== *)
(** * bootmain.c: the boot loader

    The loader reads the kernel, an ELF file that starts at sector 1 of the first disk, into
    physical memory: a function from addresses to bytes.  It reads whole sectors, so it can
    store more than a segment holds, before and after it.  The disk is behind the ports of
    [Ide]; [BootDrive] is what the loader relies on.  The theorem: the loader jumps to the
    entry point with every segment in memory and the rest of it cleared. *)

From stdpp Require Import base list numbers strings.
From S2P Require Import Prelude Layout Ide Exec.

Open Scope Z_scope.
Local Open Scope kernel_scope.

Definition SECTSIZE : Z := 512.

Record bst (D : Type) := mkbst { disk : D; pmem : Z -> Z }.
Arguments mkbst {D}. Arguments disk {D}. Arguments pmem {D}.

(** The [n] bytes from address [a] on. *)
Definition bytes_at (m : Z -> Z) (a : Z) (n : nat) : list Z := (fun i => m (u32 (a + Z.of_nat i))) <$> seq 0 n.

(** Storing bytes from address [a] on. *)
Definition store_at (a : Z) (l : list Z) (m : Z -> Z) : Z -> Z :=
  fun x => match l !! Z.to_nat (u32 (x - a)) with Some c => c | None => m x end.

Section Boot.
Context {D : Type} `{!Ports D}.
Variable spins : nat.

Definition set_disk (d : D) : M (bst D) unit := modify (fun s => mkbst d (pmem s)).
Definition set_pmem (m : Z -> Z) : M (bst D) unit := modify (fun s => mkbst (disk s) m).
Definition boot_outb (p v : Z) : M (bst D) unit := d <- gets disk ;; set_disk (d_outb p (u8 v) d).

(** [spins] bounds the reads of the status. *)
Fixpoint waitdisk (k : nat) : M (bst D) unit :=
  match k with
  | O => out_of_fuel
  | S k =>
      d <- gets disk ;;
      let '(r, d) := d_status d in
      set_disk d ;;
      if Z.land r 192 =? 64 then ret tt else waitdisk k
  end.

Definition readsect (dst offset : Z) : M (bst D) unit :=
  waitdisk spins ;;
  boot_outb 498 1 ;;
  boot_outb 499 offset ;;
  boot_outb 500 (Z.shiftr offset 8) ;;
  boot_outb 501 (Z.shiftr offset 16) ;;
  boot_outb 502 (Z.lor (Z.shiftr offset 24) 224) ;;
  boot_outb 503 32 ;;
  waitdisk spins ;;
  d <- gets disk ;;
  let '(bs, d) := d_insl d in
  set_disk d ;;
  m <- gets pmem ;;
  set_pmem (store_at dst bs m).

(** for(; pa < epa; pa += SECTSIZE, offset++). *)
Fixpoint readseg_loop (n : nat) (pa epa offset : Z) : M (bst D) unit :=
  if pa <? epa then
    match n with
    | O => out_of_fuel
    | S n => readsect pa offset ;; readseg_loop n (u32 (pa + SECTSIZE)) epa (u32 (offset + 1))
    end
  else ret tt.

Definition readseg (pa count offset : Z) : M (bst D) unit :=
  let epa := u32 (pa + count) in
  let pa := u32 (pa - offset mod SECTSIZE) in
  readseg_loop (S (Z.to_nat ((count + SECTSIZE) / SECTSIZE))) pa epa (offset / SECTSIZE + 1).

Definition ELF_ADDR : Z := 65536.

(** The loop over the program headers; [k] are left, the next is at [ph]. *)
Fixpoint load_loop (k : nat) (ph : Z) : M (bst D) unit :=
  match k with
  | O => ret tt
  | S k =>
      m <- gets pmem ;;
      let p := ph_of (bytes_at m ph sizeof_proghdr) in
      let pa := ph_paddr p in
      readseg pa (ph_filesz p) (ph_off p) ;;
      m <- gets pmem ;;
      let p := ph_of (bytes_at m ph sizeof_proghdr) in
      (when (ph_filesz p <? ph_memsz p) do
         set_pmem (store_at (u32 (pa + ph_filesz p)) (replicate (Z.to_nat (ph_memsz p - ph_filesz p)) 0) m)) ;;
      load_loop k (u32 (ph + Z.of_nat sizeof_proghdr))
  end.

(** The address that bootmain calls; [None] when it returns. *)
Definition bootmain : M (bst D) (option Z) :=
  readseg ELF_ADDR 4096 0 ;;
  m <- gets pmem ;;
  let elf := elf_of (bytes_at m ELF_ADDR sizeof_elfhdr) in
  if negb (e_magic elf =? ELF_MAGIC) then ret None else
  load_loop (Z.to_nat (e_phnum elf)) (u32 (ELF_ADDR + e_phoff elf)) ;;
  m <- gets pmem ;;
  ret (Some (e_entry (elf_of (bytes_at m ELF_ADDR sizeof_elfhdr)))).
End Boot.

(** ** What the loader relies on *)

Definition boot_command (l0 l1 l2 h : Z) : list (Z * Z) :=
  [(498, 1); (499, l0); (500, l1); (501, l2); (502, 224 + h); (503, 32)].

(** The first disk becomes ready within [spins] reads of its status, and delivers the sector
    that the registers address after a read command. *)
Class BootDrive (D : Type) `{Ports D} (spins : nat) := {
  b_sectors : D -> Z -> list Z;
  b_idle : D -> Prop;
  b_reading : D -> option Z;
  b_soon d : poll spins d <> None;
  b_status d : b_reading (snd (d_status d)) = b_reading d /\ b_sectors (snd (d_status d)) = b_sectors d;
  b_ready d : is_ready (fst (d_status d)) = true -> b_idle (snd (d_status d));
  b_cmd d l0 l1 l2 h : b_idle d -> byte l0 -> byte l1 -> byte l2 -> 0 <= h < 16 ->
    b_reading (outs (boot_command l0 l1 l2 h) d) = Some (lba l0 l1 l2 h) /\
    b_sectors (outs (boot_command l0 l1 l2 h) d) = b_sectors d;
  b_data d a : b_idle d -> b_reading d = Some a ->
    fst (d_insl d) = b_sectors d a /\ b_sectors (snd (d_insl d)) = b_sectors d }.

(** ** Reading sectors *)

Lemma store_at_spec a l m x :
  0 <= a -> a + Z.of_nat (length l) <= 2 ^ 32 -> 0 <= x < 2 ^ 32 ->
  store_at a l m x = if decide (a <= x < a + Z.of_nat (length l)) then l !!! Z.to_nat (x - a) else m x.
Proof.
  intros Ha Hl Hx. unfold store_at. case_decide as Hd.
  - rewrite u32_small by lia. destruct (lookup_lt_is_Some_2 l (Z.to_nat (x - a))) as [c Hc]; [lia|]. rewrite Hc. by rewrite (list_lookup_total_correct _ _ _ Hc).
  - rewrite lookup_ge_None_2; [done|]. destruct (Z_lt_dec x a).
    + replace (u32 (x - a)) with (x - a + 2 ^ 32); [lia|]. unfold u32. rewrite <- (Z_mod_plus_full _ 1), Z.mul_1_l, Z.mod_small; lia.
    + rewrite u32_small by lia. lia.
Qed.

Lemma boot_lba off : 0 <= off < 2 ^ 28 ->
  0 <= Z.shiftr off 24 < 16 /\ lba (u8 off) (u8 (Z.shiftr off 8)) (u8 (Z.shiftr off 16)) (Z.shiftr off 24) = off.
Proof.
  intros Ho. pose proof (lba_of off) as L. change 255 with (2 ^ 8 - 1) in L. change 15 with (2 ^ 4 - 1) in L. change 268435455 with (2 ^ 28 - 1) in L.
  rewrite !land_mod in L by lia. assert (0 <= Z.shiftr off 24 < 16) as Hh.
  { rewrite Z.shiftr_div_pow2 by lia. split; [apply Z.div_pos; lia|apply Z.div_lt_upper_bound; lia]. }
  split; [done|]. unfold u8. rewrite (Z.mod_small (Z.shiftr off 24)), (Z.mod_small off (2 ^ 28)) in L by lia. exact L.
Qed.

Section Load.
Context {D : Type} `{!Ports D} (spins : nat) `{!BootDrive D spins}.

Lemma wp_waitdisk_within k s (Q : unit -> bst D -> Prop) :
  poll k (disk s) <> None ->
  (forall d', b_idle d' -> b_reading d' = b_reading (disk s) -> b_sectors d' = b_sectors (disk s) -> Q tt (mkbst d' (pmem s))) ->
  wp (waitdisk k) Q s.
Proof.
  revert s. induction k as [|k IH]; intros s Hp HQ; [done|]. cbn [waitdisk poll] in *. do 2 wp_step.
  pose proof (b_status (disk s)) as [Hr Hs]. pose proof (b_ready (disk s)) as Hi. destruct (d_status (disk s)) as [r d']. cbn [fst snd] in *.
  unfold set_disk. wp_steps. change (Z.land r 192 =? 64) with (is_ready r). destruct (is_ready r).
  - wp_steps. by apply HQ; [apply Hi|..].
  - apply IH; [done|]. cbn. intros d'' H1 H2 H3. apply HQ; [done|by rewrite H2|by rewrite H3].
Qed.

Lemma wp_readsect dst off s (Q : unit -> bst D -> Prop) :
  0 <= off < 2 ^ 28 ->
  (forall d', b_sectors d' = b_sectors (disk s) -> Q tt (mkbst d' (store_at dst (b_sectors (disk s) off) (pmem s)))) ->
  wp (readsect spins dst off) Q s.
Proof.
  intros Ho HQ. destruct (boot_lba off Ho) as [Hh Hl]. unfold readsect. wp_step. apply wp_waitdisk_within; [apply b_soon|].
  intros d1 Hi1 _ Hs1. unfold boot_outb, set_disk. wp_steps. cbn [disk pmem].
  replace (Z.lor (Z.shiftr off 24) 224) with (224 + Z.shiftr off 24)
    by (symmetry; rewrite Z.lor_comm; apply (drive_register 0 (Z.shiftr off 24) ltac:(lia) Hh)).
  rewrite (u8_small (224 + Z.shiftr off 24)), (u8_small 1), (u8_small 32) by lia.
  destruct (b_cmd d1 (u8 off) (u8 (Z.shiftr off 8)) (u8 (Z.shiftr off 16)) (Z.shiftr off 24)) as [Hr2 Hs2]; [done|apply u8_range..|done|].
  cbn [boot_command outs foldl fst snd] in Hr2, Hs2. rewrite Hl in Hr2.
  apply wp_waitdisk_within; [apply b_soon|]. cbn [disk pmem]. intros d3 Hi3 Hr3 Hs3. rewrite Hr2 in Hr3. rewrite Hs2, Hs1 in Hs3.
  destruct (b_data d3 off Hi3 Hr3) as [Hd4 Hs4]. wp_steps. cbn [disk]. destruct (d_insl d3) as [bs d4]. cbn [fst snd] in *. wp_steps.
  unfold set_pmem. wp_steps. cbn [disk pmem]. subst bs. rewrite Hs3. apply HQ. by rewrite Hs4.
Qed.

(** The kernel file [img] is on the disk from sector 1 on. *)
Variable img : Z -> Z.
Definition on_disk (d : D) : Prop :=
  forall k, 0 <= k -> length (b_sectors d (k + 1)) = 512%nat /\ forall i, 0 <= i < 512 -> b_sectors d (k + 1) !!! Z.to_nat i = img (512 * k + i).

(** The memory [m'] is [m] with the file from [o] on stored between [lo] and [hi]. *)
Definition stored (lo hi o : Z) (m m' : Z -> Z) : Prop :=
  forall x, 0 <= x < 2 ^ 32 -> m' x = if decide (lo <= x < hi) then img (o + (x - lo)) else m x.

Lemma wp_readseg_loop n pa epa k s (Q : unit -> bst D -> Prop) :
  on_disk (disk s) -> 0 <= pa -> 0 <= k -> let r := Z.max 0 ((epa - pa + 511) / 512) in
  r <= Z.of_nat n -> pa + 512 * r < 2 ^ 32 -> k + r < 2 ^ 28 - 1 ->
  (forall d' m', b_sectors d' = b_sectors (disk s) -> stored pa (pa + 512 * r) (512 * k) (pmem s) m' -> Q tt (mkbst d' m')) ->
  wp (readseg_loop spins n pa epa (k + 1)) Q s.
Proof.
  revert pa k s. induction n as [|n IH]; intros pa k s Hd Hpa Hk r Hn Hm Hs HQ; unfold readseg_loop; fold (readseg_loop (D := D) spins).
  - destruct (Z.ltb_spec pa epa) as [Hlt|Hge]; [pose proof (Z.div_le_lower_bound (epa - pa + 511) 512 1); lia|]. wp_steps.
    assert (r = 0) as Er by (unfold r; pose proof (Z.div_lt_upper_bound (epa - pa + 511) 512 1); lia). destruct s as [d m]. apply HQ; [done|].
    intros x Hx. rewrite decide_False by lia. done.
  - destruct (Z.ltb_spec pa epa) as [Hlt|Hge].
    + assert ((epa - (pa + 512) + 511) / 512 = (epa - pa + 511) / 512 - 1) as Ed
        by (replace (epa - (pa + 512) + 511) with (epa - pa + 511 + (-1) * 512) by lia; rewrite Z_div_plus_full by lia; lia).
      pose proof (Z.div_le_lower_bound (epa - pa + 511) 512 1).
      wp_step. apply wp_readsect; [lia|]. intros d1 Hs1. rewrite !u32_small by (unfold SECTSIZE; lia). unfold SECTSIZE.
      destruct (Hd k Hk) as [Hlen Hbytes].
      apply IH; cbn [disk pmem]; [unfold on_disk; by rewrite Hs1|lia|lia|lia|lia|lia|].
      intros d2 m2 Hs2 Hst. apply HQ; [by rewrite Hs2|]. intros x Hx. rewrite (Hst x Hx), store_at_spec by (rewrite ?Hlen; lia). rewrite Hlen.
      change (Z.of_nat 512) with 512. repeat case_decide; try lia; try done; [f_equal; lia|]. rewrite Hbytes by lia. done.
    + wp_steps. assert (r = 0) as Er by (unfold r; pose proof (Z.div_lt_upper_bound (epa - pa + 511) 512 1); lia). destruct s as [d m]. apply HQ; [done|].
      intros x Hx. rewrite decide_False by lia. done.
Qed.

(** Where a call of readseg stores: from the sector boundary in the file before [off] to the
    one after the last byte. *)
Definition lo (pa off : Z) : Z := pa - off mod 512.
Definition hi (pa count off : Z) : Z := lo pa off + 512 * ((count + off mod 512 + 511) / 512).

Lemma wp_readseg pa count off s (Q : unit -> bst D -> Prop) :
  on_disk (disk s) -> 0 <= lo pa off -> 0 <= count -> 0 <= off -> hi pa count off < 2 ^ 32 -> (off + count) / 512 + 2 < 2 ^ 28 - 1 ->
  (forall d' m', b_sectors d' = b_sectors (disk s) -> stored (lo pa off) (hi pa count off) (off - off mod 512) (pmem s) m' -> Q tt (mkbst d' m')) ->
  wp (readseg spins pa count off) Q s.
Proof.
  intros Hd Hlo Hc Ho Hhi Hs HQ. unfold readseg, SECTSIZE. unfold hi, lo in *. pose proof (Z.mod_pos_bound off 512 ltac:(lia)) as Hm.
  pose proof (Z.div_mod (count + off mod 512 + 511) 512 ltac:(lia)). pose proof (Z.mod_pos_bound (count + off mod 512 + 511) 512 ltac:(lia)).
  pose proof (Z.div_mod off 512 ltac:(lia)). pose proof (Z.div_mod (off + count) 512 ltac:(lia)). pose proof (Z.mod_pos_bound (off + count) 512 ltac:(lia)).
  pose proof (Z.div_mod (count + 512) 512 ltac:(lia)). pose proof (Z.mod_pos_bound (count + 512) 512 ltac:(lia)).
  rewrite !u32_small by lia. replace ((pa + count - (pa - off mod 512) + 511)) with (count + off mod 512 + 511) by lia.
  apply wp_readseg_loop; [done|lia|lia|..]; replace (pa + count - (pa - off mod 512) + 511) with (count + off mod 512 + 511) by lia; rewrite ?Z.max_r by lia; [lia|lia|lia|].
  intros d' m' Hs' Hst. apply HQ; [done|]. replace (off - off mod 512) with (512 * (off / 512)) by lia. exact Hst.
Qed.

(** ** Loading the kernel *)

Definition img_bytes (o : Z) (n : nat) : list Z := (fun i => img (o + Z.of_nat i)) <$> seq 0 n.
Definition hdr : elfhdr := elf_of (img_bytes 0 sizeof_elfhdr).
Definition phdr (i : nat) : proghdr := ph_of (img_bytes (e_phoff hdr + 32 * Z.of_nat i) sizeof_proghdr).

(** The memory between [a] and [a + n] holds the file from [o] on. *)
Lemma bytes_at_img m a o n : 0 <= a -> a + Z.of_nat n <= 2 ^ 32 ->
  (forall x, a <= x < a + Z.of_nat n -> m x = img (o + (x - a))) -> bytes_at m a n = img_bytes o n.
Proof.
  intros Ha Hn Hm. unfold bytes_at, img_bytes. apply list_fmap_ext. intros i k Hk. apply lookup_seq in Hk as [-> Hk].
  rewrite u32_small, Hm by lia. f_equal. lia.
Qed.

(** What loading the segment [p] may store to, and what of it belongs to the segment. *)
Definition touches (p : proghdr) (x : Z) : Prop :=
  lo (ph_paddr p) (ph_off p) <= x < Z.max (hi (ph_paddr p) (ph_filesz p) (ph_off p)) (ph_paddr p + ph_memsz p).
Definition owns (p : proghdr) (x : Z) : Prop := ph_paddr p <= x < ph_paddr p + Z.max (ph_filesz p) (ph_memsz p).

Record seg_fits (p : proghdr) : Prop := {
  sf_low : 0 <= lo (ph_paddr p) (ph_off p);
  sf_pos : 0 <= ph_filesz p /\ 0 <= ph_memsz p /\ 0 <= ph_off p;
  sf_high : hi (ph_paddr p) (ph_filesz p) (ph_off p) < 2 ^ 32 /\ ph_paddr p + ph_memsz p < 2 ^ 32;
  sf_sector : (ph_off p + ph_filesz p) / 512 + 2 < 2 ^ 28 - 1;
  sf_header : forall x, touches p x -> ~ ELF_ADDR <= x < ELF_ADDR + 4096 }.

Definition loaded_seg (p : proghdr) (m : Z -> Z) : Prop :=
  (forall k, 0 <= k < ph_filesz p -> m (ph_paddr p + k) = img (ph_off p + k)) /\
  (forall k, ph_filesz p <= k < ph_memsz p -> m (ph_paddr p + k) = 0).

(** One round of the loop. *)
Lemma load_seg p m1 m2 :
  seg_fits p -> stored (lo (ph_paddr p) (ph_off p)) (hi (ph_paddr p) (ph_filesz p) (ph_off p)) (ph_off p - ph_off p mod 512) m1 m2 ->
  let m3 := if ph_filesz p <? ph_memsz p
            then store_at (u32 (ph_paddr p + ph_filesz p)) (replicate (Z.to_nat (ph_memsz p - ph_filesz p)) 0) m2 else m2 in
  loaded_seg p m3 /\ forall x, 0 <= x < 2 ^ 32 -> ~ touches p x -> m3 x = m1 x.
Proof.
  intros [F1 F2 F3 F4 _] Hst m3. unfold touches, stored, hi, lo in *.
  set (pa := ph_paddr p) in *. set (fs := ph_filesz p) in *. set (ms := ph_memsz p) in *. set (o := ph_off p) in *.
  pose proof (Z.mod_pos_bound o 512 ltac:(lia)). pose proof (Z.div_mod (fs + o mod 512 + 511) 512 ltac:(lia)).
  pose proof (Z.mod_pos_bound (fs + o mod 512 + 511) 512 ltac:(lia)).
  assert (forall x, 0 <= x < 2 ^ 32 -> m3 x = if decide (pa + fs <= x < pa + ms) then 0 else m2 x) as Hm3.
  { intros x Hx. unfold m3. destruct (Z.ltb_spec fs ms); [|by rewrite decide_False by lia].
    rewrite u32_small, store_at_spec by (rewrite ?length_replicate; lia). rewrite length_replicate.
    repeat case_decide; try lia; try done. rewrite lookup_total_replicate_2 by lia. done. }
  split; [split|].
  - intros k Hk. rewrite Hm3, decide_False, Hst, decide_True by lia. f_equal. lia.
  - intros k Hk. rewrite Hm3, decide_True by lia. done.
  - intros x Hx Ht. rewrite Hm3, decide_False, Hst, decide_False by lia. done.
Qed.

Variable s0 : bst D.
Hypothesis img_on_disk : on_disk (disk s0).
Hypothesis headers_first : 0 <= e_phoff hdr /\ 0 <= e_phnum hdr /\ e_phoff hdr + 32 * e_phnum hdr <= 4096.
Hypothesis fits : forall i, Z.of_nat i < e_phnum hdr -> seg_fits (phdr i).
Hypothesis apart : forall i j x, (i < j)%nat -> Z.of_nat j < e_phnum hdr -> owns (phdr i) x -> ~ touches (phdr j) x.

Definition header_in (m : Z -> Z) : Prop := forall x, ELF_ADDR <= x < ELF_ADDR + 4096 -> m x = img (x - ELF_ADDR).

Lemma header_phdr m i : header_in m -> Z.of_nat i < e_phnum hdr ->
  ph_of (bytes_at m (ELF_ADDR + e_phoff hdr + 32 * Z.of_nat i) sizeof_proghdr) = phdr i.
Proof.
  intros Hm Hi. unfold phdr. f_equal. unfold ELF_ADDR, sizeof_proghdr in *. apply bytes_at_img; [lia|lia|]. intros x Hx. rewrite Hm by (unfold ELF_ADDR; lia).
  f_equal. unfold ELF_ADDR. lia.
Qed.

Lemma owns_range p x : seg_fits p -> owns p x -> 0 <= x < 2 ^ 32.
Proof.
  intros [F1 F2 F3 F4 _] Ho. unfold owns, hi, lo in *. pose proof (Z.mod_pos_bound (ph_off p) 512 ltac:(lia)).
  pose proof (Z.div_mod (ph_filesz p + ph_off p mod 512 + 511) 512 ltac:(lia)).
  pose proof (Z.mod_pos_bound (ph_filesz p + ph_off p mod 512 + 511) 512 ltac:(lia)). lia.
Qed.

Lemma loaded_kept p m m' : seg_fits p -> loaded_seg p m -> (forall x, owns p x -> m' x = m x) -> loaded_seg p m'.
Proof. intros [_ F2 _ _ _] [H1 H2] Hm. split; intros k Hk; rewrite Hm by (unfold owns; lia); [by apply H1|by apply H2]. Qed.

Lemma wp_load_loop k i s (Q : unit -> bst D -> Prop) :
  Z.of_nat (i + k) = e_phnum hdr -> b_sectors (disk s) = b_sectors (disk s0) -> header_in (pmem s) ->
  (forall j, (j < i)%nat -> loaded_seg (phdr j) (pmem s)) ->
  (forall d' m', header_in m' -> (forall j, Z.of_nat j < e_phnum hdr -> loaded_seg (phdr j) m') -> Q tt (mkbst d' m')) ->
  wp (load_loop spins k (ELF_ADDR + e_phoff hdr + 32 * Z.of_nat i)) Q s.
Proof.
  revert i s. induction k as [|k IH]; intros i s Hn Hs Hh Hl HQ; cbn [load_loop].
  - wp_steps. destruct s as [d m]. apply HQ; [done|]. intros j Hj. apply Hl. lia.
  - assert (Z.of_nat i < e_phnum hdr) as Hi by lia. pose proof (fits i Hi) as Hf. wp_steps. rewrite (header_phdr _ i Hh Hi).
    apply wp_readseg; [unfold on_disk; by rewrite Hs|apply Hf|apply Hf|apply Hf|apply Hf|apply Hf|].
    intros d1 m1 Hs1 Hst. wp_steps. cbn [pmem disk].
    assert (forall x, 0 <= x < 2 ^ 32 -> ~ touches (phdr i) x -> m1 x = pmem s x) as Hout.
    { intros x Hx Ht. rewrite Hst by done. rewrite decide_False; [done|]. intros Hin. apply Ht. unfold touches. lia. }
    assert (header_in m1) as Hh1.
    { intros x Hx. rewrite Hout; [by apply Hh|unfold ELF_ADDR in Hx; lia|]. intros Ht. by apply (sf_header _ Hf x Ht). }
    rewrite (header_phdr _ i Hh1 Hi). destruct (load_seg _ _ _ Hf Hst) as [Hld Hkeep]. cbv zeta in Hld, Hkeep.
    set (m2 := if ph_filesz (phdr i) <? ph_memsz (phdr i) then _ else m1) in *.
    assert (wp (load_loop spins k (u32 (ELF_ADDR + e_phoff hdr + 32 * Z.of_nat i + Z.of_nat sizeof_proghdr))) Q (mkbst d1 m2)) as Hw.
    { rewrite u32_small by (unfold ELF_ADDR, sizeof_proghdr; lia).
      replace (ELF_ADDR + e_phoff hdr + 32 * Z.of_nat i + Z.of_nat sizeof_proghdr) with (ELF_ADDR + e_phoff hdr + 32 * Z.of_nat (S i)) by (unfold sizeof_proghdr; lia).
      apply IH; cbn [disk pmem]; [lia|by rewrite Hs1| | |exact HQ].
      - intros x Hx. rewrite Hkeep; [by apply Hh|unfold ELF_ADDR in Hx; lia|]. intros Ht. by apply (sf_header _ Hf x Ht).
      - intros j Hj. destruct (decide (j = i)) as [->|Hne]; [done|]. assert (Z.of_nat j < e_phnum hdr) as Hj2 by lia.
        eapply loaded_kept; [by apply fits|apply Hl; lia|]. intros x Hx. apply Hkeep; [by eapply owns_range; [apply fits|]|].
        eapply apart; [|exact Hi|exact Hx]. lia. }
    unfold m2 in Hw. destruct (ph_filesz (phdr i) <? ph_memsz (phdr i)); unfold set_pmem; wp_steps; exact Hw.
Qed.

Hypothesis magic_right : e_magic hdr = ELF_MAGIC.

(** C19: The boot loader loads the kernel: when the program headers of the ELF file are in its
    first 4096 bytes, the segments fit in memory and no sector read for a segment reaches the scratch page or a segment loaded before it,
    bootmain ends and calls the entry point of the file, with every byte of every segment
    in place and the memory of a segment beyond its part of the file zero, although it
    stores whole sectors and so more than it was asked for. *)
Theorem bootmain_loads :
  exists s', bootmain spins s0 = Ret (Some (e_entry hdr)) s' /\ forall i, Z.of_nat i < e_phnum hdr -> loaded_seg (phdr i) (pmem s').
Proof.
  assert (wp (bootmain spins) (fun r s' => r = Some (e_entry hdr) /\ forall i, Z.of_nat i < e_phnum hdr -> loaded_seg (phdr i) (pmem s')) s0) as Hw.
  { unfold bootmain. wp_step. apply wp_readseg; [done|done|done|done|done|done|]. intros d1 m1 Hs1 Hst.
    change (lo ELF_ADDR 0) with ELF_ADDR in Hst. change (hi ELF_ADDR 4096 0) with (ELF_ADDR + 4096) in Hst. change (0 - 0 mod 512) with 0 in Hst.
    assert (header_in m1) as Hh by (intros x Hx; rewrite Hst, decide_True by (done || unfold ELF_ADDR in *; lia); f_equal; lia).
    assert (forall m, header_in m -> elf_of (bytes_at m ELF_ADDR sizeof_elfhdr) = hdr) as He.
    { intros m Hm. unfold hdr. f_equal. apply bytes_at_img; [done|done|]. intros x Hx. rewrite Hm by (unfold sizeof_elfhdr in Hx; lia). f_equal. }
    wp_steps. cbn [pmem]. rewrite (He m1 Hh), magic_right, Z.eqb_refl. cbn [negb]. wp_step.
    rewrite u32_small by (unfold ELF_ADDR; lia). replace (ELF_ADDR + e_phoff hdr) with (ELF_ADDR + e_phoff hdr + 32 * Z.of_nat 0) by lia.
    apply wp_load_loop; cbn [disk pmem]; [lia|by rewrite Hs1|done|intros j Hj; lia|]. intros d2 m2 Hh2 Hl2. wp_steps. cbn [pmem]. rewrite (He m2 Hh2). done. }
  apply wp_run in Hw as (r & s' & E & -> & Hl). by exists s'.
Qed.
End Load.

(** ** An example *)

Definition first_disk (a : option addr) : option Z := match a with Some (0, n) => Some n | _ => None end.
#[local] Existing Instance Queue.toy_ports.
#[local] Program Instance toy_boot : BootDrive Queue.toy 1 := {|
  b_sectors d n := Queue.t_disk d (0, n); b_idle _ := True; b_reading d := first_disk (Queue.t_read d) |}.
Next Obligation. done. Qed.
Next Obligation. done. Qed.
Next Obligation. done. Qed.
Next Obligation.
  intros d l0 l1 l2 h _ _ _ _ Hh. split; [|done]. unfold boot_command, outs. cbn -[Z.add Z.sub Z.div Z.modulo lba].
  unfold Queue.toy_addr. cbn -[Z.add Z.sub Z.div Z.modulo lba]. replace (224 + h - 224) with h by lia. by rewrite Z.div_small, Z.mod_small by lia.
Qed.
Next Obligation.
  intros d a _ E. cbn in *. destruct (Queue.t_read d) as [[[| |] n]|]; cbn in E; try discriminate. by injection E as ->.
Qed.

(** A file with one segment of ten bytes, 256 bytes into the file, at 1 MB. *)
Definition demo_image : list Z :=
  to_le 4 ELF_MAGIC ++ replicate 12 0 ++ to_le 2 2 ++ to_le 2 3 ++ to_le 4 1 ++ to_le 4 1048588 ++ to_le 4 52 ++ replicate 8 0 ++
  to_le 2 52 ++ to_le 2 32 ++ to_le 2 1 ++ replicate 6 0 ++
  to_le 4 1 ++ to_le 4 256 ++ to_le 4 1048832 ++ to_le 4 1048832 ++ to_le 4 10 ++ to_le 4 20 ++ to_le 4 0 ++ to_le 4 0 ++
  replicate 172 0 ++ [1; 2; 3; 4; 5; 6; 7; 8; 9; 10].
Definition demo_img (x : Z) : Z := nth (Z.to_nat x) demo_image 0.
Definition demo_boot : bst Queue.toy :=
  mkbst (Queue.mktoy (fun _ => 0) None (0, 0) (fun a => (fun i => demo_img (512 * (snd a - 1) + Z.of_nat i)) <$> seq 0 512)) (fun _ => 255).

Lemma bootmain_loads_witness :
  exists s', bootmain 1 demo_boot = Ret (Some 1048588) s' /\ pmem s' 1048835 = 4 /\ pmem s' 1048845 = 0.
Proof.
  assert (hdr demo_img = mkelf ELF_MAGIC (replicate 12 0) 2 3 1 1048588 52 0 0 52 32 1 0 0 0) as Eh by (vm_compute; reflexivity).
  assert (phdr demo_img 0 = mkph 1 256 1048832 1048832 10 20 0 0) as Ep by (vm_compute; reflexivity).
  destruct (bootmain_loads 1 demo_img demo_boot) as (s' & Hb & Hl).
  - intros k Hk. cbn [b_sectors toy_boot demo_boot disk Queue.t_disk snd]. split; [by rewrite length_fmap, length_seq|].
    intros i Hi. apply list_lookup_total_correct. rewrite list_lookup_fmap, lookup_seq_lt by lia.
    cbn [fmap option_fmap option_map]. f_equal. f_equal. lia.
  - rewrite Eh. cbn. lia.
  - intros i Hi. rewrite Eh in Hi. cbn in Hi. assert (i = 0%nat) as -> by lia. rewrite Ep.
    constructor; [vm_compute; discriminate|vm_compute; repeat split; discriminate|vm_compute; repeat split; discriminate|vm_compute; reflexivity|].
    intros x Hx. unfold touches, lo, hi in Hx. cbn [ph_paddr ph_off ph_filesz ph_memsz] in Hx. change (256 mod 512) with 256 in Hx.
    change ((10 + 256 + 511) / 512) with 1 in Hx. unfold ELF_ADDR. lia.
  - intros i j x Hij Hj. rewrite Eh in Hj. cbn in Hj. lia.
  - rewrite Eh. reflexivity.
  - exists s'. rewrite Eh in Hb. split; [exact Hb|]. destruct (Hl 0%nat) as [H1 H2]; [rewrite Eh; cbn; lia|]. rewrite Ep in H1, H2. cbn in H1, H2.
    split; [exact (H1 3 ltac:(lia))|exact (H2 13 ltac:(lia))].
Defined.
