(* ===== verification/Image.v ===== *)
(** * The memory exec builds: the stack with the arguments, and loaded segments

    [uview] is the memory of a process as the processor shows it to user code, through the
    page table.  The stack of a new program is specified by what the program reads there;
    arguments that do not fit make exec fail.  loaduvm is specified by the bytes of the file
    the program reads at the addresses of the segment. *)

From stdpp Require Import base list numbers strings gmap functions sets.
From S2P Require Import Prelude CString Spinlock Layout Pipe Buf Log Kalloc Proc Block Inode Content Icache Dir Vm Uvm Copyuvm Syscall File Sysfile Exec.
Import Ctx Mem.

Open Scope Z_scope.
Local Open Scope kernel_scope.

(** The byte user code reads at [va]: the entry must be present and allow it. *)
Definition uview (m : mem) (T : gmap Z Z) (va : Z) : option Z :=
  let e := ptes m T (va / 4096) in
  if negb (Z.land e PTE_P =? 0) && negb (Z.land e PTE_U =? 0)
  then Some (m (p2v (PTE_ADDR e) + va mod 4096)) else None.

(** User code finds [l] at [va]. *)
Definition ureads (m : mem) (T : gmap Z Z) (va : Z) (l : list Z) : Prop :=
  forall j x, l !! j = Some x -> uview m T (va + Z.of_nat j) = Some x.

(** The memory after [copy_in a l]. *)
Definition poke (m : mem) (a : Z) (l : list Z) : mem :=
  fun x => if within x a (Z.of_nat (length l)) then default 0 (l !! Z.to_nat (x - a)) else m x.

Lemma poke_in m a l j x : l !! j = Some x -> poke m a l (a + Z.of_nat j) = x.
Proof.
  intros Hj. unfold poke, within. pose proof (lookup_lt_Some _ _ _ Hj).
  rewrite (proj2 (Z.leb_le _ _)), (proj2 (Z.ltb_lt _ _)) by lia. simpl.
  replace (Z.to_nat (a + Z.of_nat j - a)) with j by lia. by rewrite Hj.
Qed.

Lemma poke_out m a l x : ~ (a <= x < a + Z.of_nat (length l)) -> poke m a l x = m x.
Proof.
  intros Hx. unfold poke, within. destruct (Z.leb_spec a x), (Z.ltb_spec x (a + Z.of_nat (length l))); simpl; lia || done.
Qed.

(** Entries of user pages, and of the page made inaccessible. *)
Lemma user_entry end_ p :
  page end_ p -> entry (v2p p) 6 = v2p p + 7 /\ Z.land (v2p p + 7) PTE_P = 1 /\ Z.land (v2p p + 7) PTE_U = 4 /\
  PTE_ADDR (v2p p + 7) = v2p p /\ Z.ldiff (v2p p + 7) PTE_U = v2p p + 3 /\ Z.land (v2p p + 3) PTE_U = 0 /\
  Z.land (v2p p + 3) PTE_P = 1.
Proof.
  intros Hp. destruct (v2p_page _ _ Hp) as (_ & Hm & _). apply Z.mod_divide in Hm as [k Hk]; [|lia].
  assert (forall c, 0 <= c < 4096 -> v2p p + c = Z.lor (v2p p) c) as Hlor
    by (intros c Hc; symmetry; apply lor_page; [rewrite Hk; apply Z.mod_mul; lia|done]).
  assert (forall c, 0 <= c < 4096 -> Z.land (v2p p) c = 0) as Hland.
  { intros c Hc. rewrite Hk. apply Z.bits_inj'. intros n Hn. rewrite Z.land_spec, Z.bits_0. change 4096 with (2 ^ 12).
    destruct (Z.lt_ge_cases n 12); [by rewrite Z.mul_pow2_bits_low by lia|].
    rewrite andb_comm. destruct (decide (c = 0)) as [->|]; [by rewrite Z.bits_0|].
    rewrite Z.bits_above_log2; [done|lia|]. assert (Z.log2 c < 12) by (apply Z.log2_lt_pow2; lia). lia. }
  assert (v2p p mod 4096 = 0) as Hm by (rewrite Hk; apply Z.mod_mul; lia).
  split; [rewrite entry_add by (done || lia); done|].
  split; [rewrite land_P by (done || lia); done|].
  split; [rewrite Hlor, Z.land_lor_distr_l, Hland by (unfold PTE_U; lia); done|].
  split; [apply PTE_ADDR_add; [done|lia]|].
  split; [|split; [rewrite Hlor, Z.land_lor_distr_l, Hland by (unfold PTE_U; lia); done|rewrite land_P by (done || lia); done]].
  rewrite (Hlor 7), (Hlor 3) by lia. apply Z.bits_inj'. intros n Hn. rewrite Z.ldiff_spec, !Z.lor_spec.
  pose proof (f_equal (fun z => Z.testbit z n) (Hland PTE_U ltac:(unfold PTE_U; lia))) as Hb.
  cbv beta in Hb. rewrite Z.land_spec, Z.bits_0 in Hb. change 7 with (Z.lor 3 PTE_U). rewrite Z.lor_spec.
  assert (Z.testbit 3 n && Z.testbit PTE_U n = false) as H3 by (rewrite <- Z.land_spec; apply Z.bits_0).
  by destruct (Z.testbit (v2p p) n), (Z.testbit PTE_U n), (Z.testbit 3 n).
Qed.

(** ** Copying into a page of the process *)

Section Stack.
Variable end_ : Z.

(** [p] is the page of the user at page number [v]. *)
Record upage (s : kst) (l : list Z) (A : gset Z) (pgdir : Z) (T : gmap Z Z) (v p : Z) : Prop := {
  ug_ok : vm_ok end_ s l A pgdir T;
  ug_v : 0 <= v < 524288;
  ug_own : p ∈ A;
  ug_dir : p <> pgdir;
  ug_tab : forall d, T !! d <> Some p;
  ug_map : ptes (kmemory s) T v = v2p p + 7 }.

Lemma ug_page s l A pgdir T v p : upage s l A pgdir T v p -> page end_ p.
Proof. intros U. by destruct (vo_own _ _ _ _ _ _ (ug_ok _ _ _ _ _ _ _ U) p (ug_own _ _ _ _ _ _ _ U)). Qed.

(** The entry for page [v] is found. *)
Lemma walk_entry s l A pgdir T v :
  vm_ok end_ s l A pgdir T -> 0 <= v < 524288 -> Z.land (ptes (kmemory s) T v) PTE_P = 1 ->
  exists t, T !! PDX (4096 * v) = Some t /\ t + 4 * PTX (4096 * v) <> 0 /\
    load32 (kmemory s) (t + 4 * PTX (4096 * v)) = ptes (kmemory s) T v /\
    forall alloc (Q : Z -> kst -> Prop), Q (t + 4 * PTX (4096 * v)) s -> wp (walkpgdir pgdir (4096 * v) alloc) Q s.
Proof.
  intros V Hv Hp. assert (0 <= 4096 * v < 2 ^ 32) as Hva by lia.
  assert (4096 * v / 4096 = v) as Hdv by (rewrite Z.mul_comm; apply Z.div_mul; lia).
  destruct (PDX_div (4096 * v) Hva) as [Hpd _]. rewrite Hdv in Hpd.
  assert (exists t, T !! PDX (4096 * v) = Some t) as [t Ht].
  { rewrite Hpd. unfold ptes in Hp. destruct (T !! (v / 1024)); [by eexists|done]. }
  exists t. destruct (tab_addr _ _ _ _ _ _ _ _ V Hva Ht) as (_ & _ & _ & Hz & _ & Hpte). rewrite Hdv in Hpte.
  split; [done|]. split; [done|]. split; [by rewrite <- Hpte|]. intros alloc Q HQ. by eapply wp_walk_find.
Qed.

Lemma wp_uva2ka s l A pgdir T v (Q : Z -> kst -> Prop) :
  vm_ok end_ s l A pgdir T -> 0 <= v < 524288 -> Z.land (ptes (kmemory s) T v) PTE_P = 1 ->
  Q (if Z.land (ptes (kmemory s) T v) PTE_U =? 0 then 0 else p2v (PTE_ADDR (ptes (kmemory s) T v))) s ->
  wp (uva2ka pgdir (4096 * v)) Q s.
Proof.
  intros V Hv Hp HQ. destruct (walk_entry _ _ _ _ _ _ V Hv Hp) as (t & _ & Hz & He & Hw).
  unfold uva2ka. wp_step. apply Hw. unfold load_pte. rewrite (proj2 (Z.eqb_neq _ _) Hz). wp_steps.
  rewrite He, Hp. cbn [Z.eqb]. destruct (Z.land (ptes (kmemory s) T v) PTE_U =? 0); by wp_steps.
Qed.

Lemma wp_clearpteu s l A pgdir T v (Q : unit -> kst -> Prop) :
  vm_ok end_ s l A pgdir T -> 0 <= v < 524288 -> Z.land (ptes (kmemory s) T v) PTE_P = 1 ->
  0 <= Z.ldiff (ptes (kmemory s) T v) PTE_U < 2 ^ 32 ->
  (forall s', vm_grew end_ s A pgdir T s' l A T ->
     (forall w, 0 <= w -> ptes (kmemory s') T w =
        if decide (w = v) then Z.ldiff (ptes (kmemory s) T v) PTE_U else ptes (kmemory s) T w) -> Q tt s') ->
  wp (clearpteu pgdir (4096 * v)) Q s.
Proof.
  intros V Hv Hp Hr HQ. destruct (walk_entry _ _ _ _ _ _ V Hv Hp) as (t & Ht & Hz & He & Hw).
  unfold clearpteu. wp_step. apply Hw. unfold load_pte, store_pte, set_mem. rewrite (proj2 (Z.eqb_neq _ _) Hz). wp_steps.
  rewrite He. destruct (store_grew _ s l A pgdir T (4096 * v) t _ V ltac:(lia) Ht Hr) as [G Hp'].
  assert (4096 * v / 4096 = v) as Hdv by (rewrite Z.mul_comm; apply Z.div_mul; lia). rewrite Hdv in Hp'.
  by apply HQ.
Qed.

(** A copy that stays in a page of the user. *)
Definition poked (s : kst) (a : Z) (b : list Z) : kst :=
  mkkst (use_lock s) (freelist s) (poke (kmemory s) a b) (kctx_of s).

Lemma upage_poked s l A pgdir T v p o b :
  upage s l A pgdir T v p -> 0 <= o -> o + Z.of_nat (length b) <= 4096 ->
  upage (poked s (p + o) b) l A pgdir T v p /\
  (forall w, ptes (kmemory (poked s (p + o) b)) T w = ptes (kmemory s) T w) /\
  (forall a, ~ (p + o <= a < p + o + Z.of_nat (length b)) -> kmemory (poked s (p + o) b) a = kmemory s a).
Proof.
  intros U Ho Hl. pose proof (ug_page _ _ _ _ _ _ _ U) as Hp. pose proof U as [V].
  assert (forall a, ~ in_page p a -> poke (kmemory s) (p + o) b a = kmemory s a) as Hout
    by (intros a Ha; apply poke_out; intros H; apply Ha; unfold in_page, PGSIZE; lia).
  assert (forall w, ptes (poke (kmemory s) (p + o) b) T w = ptes (kmemory s) T w) as Hpt.
  { intros w. eapply ptes_same; [exact V|]. intros t x Hd Hx. apply Hout. intros Hx'.
    destruct (vo_tab _ _ _ _ _ _ V _ _ Hd) as (_ & HA & _). destruct (vo_own _ _ _ _ _ _ V _ HA) as [Htp _].
    apply (ug_tab0 (w / 1024)). by rewrite (pages_disjoint _ _ _ _ Hp Htp Hx' Hx). }
  split; [|split; [exact Hpt|intros a Ha; by apply poke_out]].
  constructor; try done; [|by simpl; rewrite Hpt]. eapply vm_ok_write; eauto.
Qed.

Lemma wp_copyout_page s l A pgdir T v p va b (Q : Z -> kst -> Prop) :
  upage s l A pgdir T v p -> 4096 * v <= va -> va + Z.of_nat (length b) <= 4096 * (v + 1) -> b <> [] ->
  Q 0 (poked s (p + (va - 4096 * v)) b) -> wp (copyout pgdir va b (Z.of_nat (length b))) Q s.
Proof.
  intros U H1 H2 Hb HQ. pose proof (ug_page _ _ _ _ _ _ _ U) as Hp. pose proof U as [V].
  assert (length b <> 0)%nat as Hlen by (by destruct b). destruct (user_entry _ _ Hp) as (_ & E1 & E2 & E3 & _).
  assert (PGROUNDDOWN va = 4096 * v) as Hrd
    by (replace va with (4096 * v + (va - 4096 * v)) by lia; apply PGROUNDDOWN_page; lia).
  unfold copyout. cbn [copyout_loop]. rewrite (proj2 (Z.ltb_lt _ _)) by lia. rewrite Hrd. wp_step.
  eapply wp_uva2ka; [exact V|done|by rewrite ug_map0|]. rewrite ug_map0, E2, E3. cbn [Z.eqb].
  destruct (v2p_page _ _ Hp) as (_ & _ & _ & ->). pose proof (page_range _ _ Hp) as Hr. unfold KERNBASE, PHYSTOP, PGSIZE in *.
  rewrite (proj2 (Z.eqb_neq p 0)) by lia.
  assert ((if Z.of_nat (length b) <? 4096 - (va - 4096 * v) then Z.of_nat (length b) else 4096 - (va - 4096 * v)) = Z.of_nat (length b))
    as -> by (destruct (Z.ltb_spec (Z.of_nat (length b)) (4096 - (va - 4096 * v))); lia).
  rewrite Nat2Z.id, take_ge by lia. rewrite u32_small by lia. unfold copy_in, set_mem. wp_steps.
  rewrite drop_ge, Z.sub_diag by lia. unfold poked, poke in HQ. destruct (length b); [done|]. cbn [copyout_loop Z.ltb Z.compare]. wp_steps. exact HQ.
Qed.

(** A copy that starts in a page the user has no access to. *)
Lemma wp_copyout_guard s l A pgdir T v va b n (Q : Z -> kst -> Prop) :
  vm_ok end_ s l A pgdir T -> 0 <= v < 524288 -> Z.land (ptes (kmemory s) T v) PTE_P = 1 ->
  Z.land (ptes (kmemory s) T v) PTE_U = 0 -> 4096 * v <= va < 4096 * (v + 1) -> 0 < n ->
  Q (-1) s -> wp (copyout pgdir va b n) Q s.
Proof.
  intros V Hv Hp Hu Hva Hn HQ. unfold copyout. cbn [copyout_loop]. rewrite (proj2 (Z.ltb_lt _ _)) by lia.
  replace va with (4096 * v + (va - 4096 * v)) by lia. rewrite PGROUNDDOWN_page by lia. wp_step.
  eapply wp_uva2ka; [exact V|done|done|]. rewrite Hu. cbn [Z.eqb]. by wp_steps.
Qed.

(** ** The arguments on the stack *)

(** An argument: a string with its nul, which fits in the stack by itself. *)
Record arg_ok (a : list Z) : Prop := {
  arg_str : exists l, a = l ++ [0] /\ 0 ∉ l;
  arg_len : Z.of_nat (length a) <= 4093 }.

Lemma strlen_arg a : arg_ok a -> Str.strlen a = Some (Z.of_nat (length a) - 1).
Proof.
  intros [(l & -> & Hl) _]. rewrite length_app. cbn [length]. induction l as [|c l IH]; [done|].
  cbn [app Str.strlen length]. apply not_elem_of_cons in Hl as [Hc Hl]. rewrite (proj2 (Z.eqb_neq c 0)) by done.
  rewrite IH by done. cbn. f_equal. lia.
Qed.

(** Where the strings go, from [sp] down: the last address and the addresses, or none if
    they reach below [lo]. *)
Fixpoint place (lo sp : Z) (argv : list (list Z)) : option (Z * list Z) :=
  match argv with
  | [] => Some (sp, [])
  | a :: argv =>
      let q := Z.ldiff (sp - Z.of_nat (length a)) 3 in
      if q <? lo then None else '(sp', qs) ← place lo q argv; Some (sp', q :: qs)
  end.

Lemma ldiff3 x : Z.ldiff x 3 = 4 * (x / 4) /\ x - 4 < Z.ldiff x 3 <= x.
Proof.
  change 3 with (Z.ones 2). rewrite Z.ldiff_ones_r, Z.shiftl_mul_pow2, Z.shiftr_div_pow2 by lia. change (2 ^ 2) with 4.
  pose proof (Z.div_mod x 4). pose proof (Z.mod_pos_bound x 4). lia.
Qed.

(** The stack page [p] at page [v], with the inaccessible page below it. *)
Record stack (s : kst) (l : list Z) (A : gset Z) (pgdir : Z) (T : gmap Z Z) (v p : Z) : Prop := {
  sk_page : upage s l A pgdir T v p;
  sk_v : 1 <= v;
  sk_present : Z.land (ptes (kmemory s) T (v - 1)) PTE_P = 1;
  sk_guard : Z.land (ptes (kmemory s) T (v - 1)) PTE_U = 0 }.

Definition at_mem (m : mem) (a : Z) (l : list Z) : Prop := forall j x, l !! j = Some x -> m (a + Z.of_nat j) = x.

(** The state after the bytes of the stack page between [lo] and [hi] have changed. *)
Record stacked (s : kst) (l : list Z) (A : gset Z) (pgdir : Z) (T : gmap Z Z) (v p lo hi : Z) (s' : kst) : Prop := {
  st_stack : stack s' l A pgdir T v p;
  st_ptes : forall w, ptes (kmemory s') T w = ptes (kmemory s) T w;
  st_other : use_lock s' = use_lock s /\ freelist s' = freelist s /\ kctx_of s' = kctx_of s;
  st_mem : forall x, ~ (p + (lo - 4096 * v) <= x < p + (hi - 4096 * v)) -> kmemory s' x = kmemory s x }.

Lemma stacked_refl s l A pgdir T v p sp : stack s l A pgdir T v p -> stacked s l A pgdir T v p sp sp s.
Proof. by constructor. Qed.

Lemma stacked_trans s l A pgdir T v p a b c s1 s2 :
  a <= b <= c -> stacked s l A pgdir T v p b c s1 -> stacked s1 l A pgdir T v p a b s2 ->
  stacked s l A pgdir T v p a c s2.
Proof.
  intros Hab [K1 P1 (U1 & F1 & C1) M1] [K2 P2 (U2 & F2 & C2) M2]. constructor; try done.
  - intros w. by rewrite P2.
  - split_and!; congruence.
  - intros x Hx. rewrite M2, M1; [done|lia|lia].
Qed.

Lemma stacked_poke s l A pgdir T v p va b :
  stack s l A pgdir T v p -> 4096 * v <= va -> va + Z.of_nat (length b) <= 4096 * (v + 1) ->
  stacked s l A pgdir T v p va (va + Z.of_nat (length b)) (poked s (p + (va - 4096 * v)) b).
Proof.
  intros [U Hv Hp Hg] H1 H2. destruct (upage_poked _ _ _ _ _ _ _ (va - 4096 * v) b U) as (U' & P' & M'); [lia|lia|].
  constructor; [constructor; rewrite ?P'; done|done|done|]. intros x Hx. apply M'. lia.
Qed.

Lemma wp_push_args argv s l A pgdir T v p sp us (Q : option (Z * list Z) -> kst -> Prop) :
  stack s l A pgdir T v p -> Forall arg_ok argv -> 4096 * v <= sp <= 4096 * (v + 1) ->
  match (if (length us + length argv <=? MAXARG)%nat || bool_decide (argv = []) then place (4096 * v) sp argv else None) with
  | None => forall s', Q None s'
  | Some (sp', qs) => forall s', stacked s l A pgdir T v p sp' sp s' -> 4096 * v <= sp' <= sp ->
      Forall2 (fun a q => at_mem (kmemory s') (p + (q - 4096 * v)) a) argv qs -> Q (Some (sp', us ++ qs)) s'
  end -> wp (push_args argv pgdir sp us) Q s.
Proof.
  intros Hst Hargs. revert s sp us Q Hst. induction Hargs as [|a argv Ha _ IH]; intros s sp us Q Hst Hsp HQ; cbn [push_args place] in *.
  { rewrite orb_true_r in HQ. wp_steps. rewrite <- (app_nil_r us). apply HQ; [by apply stacked_refl|lia|constructor]. }
  cbn [length] in HQ. rewrite orb_false_r in HQ. pose proof Hst as [U Hv Hp Hg]. pose proof (ug_v _ _ _ _ _ _ _ U) as Hvr. pose proof (arg_len _ Ha) as Hal.
  assert (1 <= Z.of_nat (length a)) as Hal1 by (destruct (arg_str _ Ha) as (? & -> & _); rewrite length_app; simpl; lia).
  destruct (Nat.leb_spec MAXARG (length us)) as [Hmax|Hmax].
  { rewrite (proj2 (Nat.leb_gt _ _)) in HQ by lia. wp_steps. apply HQ. }
  wp_step. eapply wp_lift_opt; [by apply strlen_arg|].
  replace (Z.of_nat (length a) - 1 + 1) with (Z.of_nat (length a)) by lia. rewrite u32_small by lia.
  destruct (ldiff3 (sp - Z.of_nat (length a))) as [_ Hq]. set (q := Z.ldiff (sp - Z.of_nat (length a)) 3) in *. wp_step.
  destruct (Z.ltb_spec q (4096 * v)) as [Hlt|Hge].
  - eapply (wp_copyout_guard s l A pgdir T (v - 1)); [apply U|lia|done|done|lia|lia|]. wp_steps. destruct (_ <=? _)%nat; apply HQ.
  - eapply wp_copyout_page; [exact U|lia|lia|by destruct a|]. cbn [Z.ltb Z.compare].
    pose proof (stacked_poke _ _ _ _ _ _ _ q a Hst ltac:(lia) ltac:(lia)) as Hk.
    set (s1 := poked s (p + (q - 4096 * v)) a) in *.
    apply IH; [apply Hk|lia|]. rewrite length_app. cbn [length].
    assert ((length us + 1 + length argv <=? MAXARG)%nat || bool_decide (argv = []) = (length us + S (length argv) <=? MAXARG)%nat) as ->.
    { destruct argv; [|by rewrite orb_false_r, <- Nat.add_assoc]. cbn. rewrite orb_true_r. symmetry. apply Nat.leb_le. lia. }
    destruct (length us + S (length argv) <=? MAXARG)%nat; [|exact HQ].
    destruct (place (4096 * v) q argv) as [[sp' qs]|]; cbn in HQ |- *; [|exact HQ].
    intros s' Hs' Hsp' Hqs. rewrite <- app_assoc. apply HQ; [|lia|].
    + eapply stacked_trans with (b := q); [lia| |exact Hs'].
      destruct Hk as [K1 K2 K3 K4]. constructor; try done. intros x Hx. apply K4. lia.
    + constructor; [|done]. intros j x Hj. rewrite (st_mem _ _ _ _ _ _ _ _ _ _ Hs').
      * by apply poke_in.
      * lia.
Qed.

(** The words of ustack. *)
Definition frame_words (sp : Z) (qs : list Z) : list Z :=
  [4294967295; Z.of_nat (length qs); sp + 12] ++ qs ++ [0].

Lemma length_words (l : list Z) : length (l ≫= to_le 4) = (4 * length l)%nat.
Proof. induction l as [|x l IH]; [done|]. cbn [length]. change ((x :: l) ≫= to_le 4) with (to_le 4 x ++ (l ≫= to_le 4)).
  rewrite length_app, IH, length_to_le. lia. Qed.

(** Where the frame goes: the stack pointer and the addresses of the arguments; none if there
    are too many or they do not fit. *)
Definition place_frame (v : Z) (argv : list (list Z)) : option (Z * list Z) :=
  '(sp, qs) ← (if (length argv <=? MAXARG)%nat then place (4096 * v) (4096 * (v + 1)) argv else None);
  let sp' := sp - 4 * (4 + Z.of_nat (length argv)) in
  if sp' <? 4096 * v then None else Some (sp', qs).

Lemma length_place lo sp argv sp' qs : place lo sp argv = Some (sp', qs) -> length qs = length argv.
Proof.
  revert sp sp' qs. induction argv as [|a argv IH]; intros sp sp' qs; cbn [place]; [by intros [= <- <-]|].
  destruct (_ <? lo); [done|]. destruct (place lo _ argv) as [[sp1 qs1]|] eqn:E; [|done].
  intros [= <- <-]. cbn. f_equal. by eapply IH.
Qed.

(** The stack page as the program sees it. *)
Lemma stack_view s l A pgdir T v p va b :
  stack s l A pgdir T v p -> 4096 * v <= va -> va + Z.of_nat (length b) <= 4096 * (v + 1) ->
  at_mem (kmemory s) (p + (va - 4096 * v)) b -> ureads (kmemory s) T va b.
Proof.
  intros [U _ _ _] H1 H2 Hat j x Hj. pose proof (ug_page _ _ _ _ _ _ _ U) as Hp. pose proof U as [].
  destruct (user_entry _ _ Hp) as (_ & E1 & E2 & E3 & _). destruct (v2p_page _ _ Hp) as (_ & _ & _ & Hv).
  pose proof (lookup_lt_Some _ _ _ Hj) as Hlt.
  assert ((va + Z.of_nat j) / 4096 = v /\ (va + Z.of_nat j) mod 4096 = va + Z.of_nat j - 4096 * v) as [Hd Hm].
  { pose proof (Z.div_mod (va + Z.of_nat j) 4096). pose proof (Z.mod_pos_bound (va + Z.of_nat j) 4096). lia. }
  unfold uview. rewrite Hd, ug_map0, E1, E2, E3, Hv, Hm. cbn. f_equal. rewrite <- (Hat j x Hj). f_equal. lia.
Qed.

(** The strings above [sp] stay. *)
Lemma strings_kept s l A pgdir T v p lo sp s' argv qs :
  stacked s l A pgdir T v p lo sp s' -> Forall (fun q => sp <= q) qs ->
  Forall2 (fun a q => at_mem (kmemory s) (p + (q - 4096 * v)) a) argv qs ->
  Forall2 (fun a q => at_mem (kmemory s') (p + (q - 4096 * v)) a) argv qs.
Proof.
  intros Hk Hqs Hat. revert Hqs. induction Hat as [|a q argv qs Ha _ IH]; intros Hqs; constructor;
    apply Forall_cons in Hqs as [Hq Hqs]; [|by apply IH].
  intros j x Hj. rewrite (st_mem _ _ _ _ _ _ _ _ _ _ Hk); [by apply Ha|lia].
Qed.

(** The frame below the strings: the last part of user_stack. *)
Lemma wp_push_frame s0 s l A pgdir T v p sp argv qs sz (Q : option (Z * Z) -> kst -> Prop) :
  stacked s0 l A pgdir T v p sp (4096 * (v + 1)) s -> 4096 * v <= sp <= 4096 * (v + 1) -> length qs = length argv ->
  (length argv <= MAXARG)%nat ->
  Forall2 (fun a q => at_mem (kmemory s) (p + (q - 4096 * v)) a) argv qs -> Forall (fun q => sp <= q) qs ->
  (if sp - 4 * (4 + Z.of_nat (length argv)) <? 4096 * v then forall s', Q None s' else
   forall s', stack s' l A pgdir T v p ->
    stacked s0 l A pgdir T v p (sp - 4 * (4 + Z.of_nat (length argv))) (4096 * (v + 1)) s' ->
    at_mem (kmemory s') (p + (sp - 4 * (4 + Z.of_nat (length argv)) - 4096 * v))
      (frame_words (sp - 4 * (4 + Z.of_nat (length argv))) qs ≫= to_le 4) ->
    Forall2 (fun a q => at_mem (kmemory s') (p + (q - 4096 * v)) a) argv qs ->
    Q (Some (sz, sp - 4 * (4 + Z.of_nat (length argv)))) s') ->
  wp (let argc := Z.of_nat (length qs) in
      let ustack := [4294967295; argc; u32 (sp - (argc + 1) * 4)] ++ qs ++ [0] in
      let sp := u32 (sp - (3 + argc + 1) * 4) in
      r <- copyout pgdir sp (ustack ≫= to_le 4) ((3 + argc + 1) * 4) ;;
      if r <? 0 then ret None else ret (Some (sz, sp))) Q s.
Proof.
  intros Hst Hsp Hlen Hmax Hat Hqs HQ. pose proof (st_stack _ _ _ _ _ _ _ _ _ _ Hst) as [U Hv Hp Hg].
  pose proof (ug_v _ _ _ _ _ _ _ U) as Hvr. unfold MAXARG in Hmax. cbv zeta. rewrite Hlen.
  set (n := Z.of_nat (length argv)) in *. replace (sp - (3 + n + 1) * 4) with (sp - 4 * (4 + n)) by lia.
  rewrite !u32_small by lia. set (sp' := sp - 4 * (4 + n)) in *.
  assert ([4294967295; n; sp - (n + 1) * 4] ++ qs ++ [0] = frame_words sp' qs) as ->
    by (unfold frame_words; rewrite Hlen; fold n; repeat f_equal; lia).
  assert (Z.of_nat (length (frame_words sp' qs ≫= to_le 4)) = (3 + n + 1) * 4) as Hfl
    by (rewrite length_words; unfold frame_words; rewrite !length_app, Hlen; cbn [length]; unfold n; lia).
  wp_step. rewrite <- Hfl. destruct (Z.ltb_spec sp' (4096 * v)) as [Hlt|Hge].
  - eapply (wp_copyout_guard s l A pgdir T (v - 1)); [apply U|lia|done|done|lia|lia|]. wp_steps. apply HQ.
  - eapply wp_copyout_page; [exact U|lia|lia|done|]. cbn [Z.ltb Z.compare]. wp_steps.
    pose proof (stacked_poke s l A pgdir T v p sp' (frame_words sp' qs ≫= to_le 4)) as Hk.
    rewrite Hfl in Hk. specialize (Hk (st_stack _ _ _ _ _ _ _ _ _ _ Hst) ltac:(lia) ltac:(lia)). replace (sp' + (3 + n + 1) * 4) with sp in Hk by lia. apply HQ.
    + apply Hk.
    + eapply stacked_trans; [|exact Hst|exact Hk]. lia.
    + intros j x Hj. by apply poke_in.
    + by eapply strings_kept.
Qed.

Lemma place_bounds lo sp argv sp' qs :
  place lo sp argv = Some (sp', qs) -> sp mod 4 = 0 -> lo <= sp ->
  lo <= sp' <= sp /\ sp' mod 4 = 0 /\ Forall (fun q => sp' <= q) qs /\
  Forall2 (fun a q => lo <= q /\ q + Z.of_nat (length a) <= sp) argv qs.
Proof.
  revert sp sp' qs. induction argv as [|a argv IH]; intros sp sp' qs; cbn [place].
  { intros [= <- <-] Hm Hlo. split_and!; try done; lia. }
  destruct (ldiff3 (sp - Z.of_nat (length a))) as [Hq4 Hq]. set (q := Z.ldiff (sp - Z.of_nat (length a)) 3) in *.
  destruct (Z.ltb_spec q lo) as [|Hge]; [done|]. destruct (place lo q argv) as [[sp1 qs1]|] eqn:E; [|done].
  intros [= <- <-] Hm Hlo. destruct (IH _ _ _ E) as (H1 & H2 & H3 & H4); [|lia|].
  { rewrite Hq4, Z.mul_comm. apply Z.mod_mul. lia. }
  split; [lia|]. split; [done|]. split; [constructor; [lia|done]|]. constructor; [lia|].
  eapply Forall2_impl; [exact H4|]. cbv beta. intros. lia.
Qed.

Lemma grew_stacked s A pgdir T s2 l2 A2 T2 v p lo hi s' :
  vm_grew end_ s A pgdir T s2 l2 A2 T2 -> vm_ok end_ s2 l2 A2 pgdir T2 -> p ∉ A ->
  (forall q, q ∈ A -> page end_ q) -> 4096 * v <= lo -> hi <= 4096 * (v + 1) ->
  stacked s2 l2 A2 pgdir T2 v p lo hi s' -> vm_grew end_ s A pgdir T s' l2 A2 T2.
Proof.
  intros [G1 G2 G3 G4 (G5 & G6 & G7)] V HpA HA Hlo Hhi [K1 K2 (K3 & K4 & K5) K6].
  pose proof (sk_page _ _ _ _ _ _ _ K1) as U. constructor; try done; [apply U|].
  split; [congruence|]. split; [congruence|]. intros q a Hq Hd Ht Ha. rewrite K6; [by apply (G7 q)|].
  intros Hx. apply HpA. assert (in_page p a) as Hpa by (unfold in_page, PGSIZE; lia).
  by rewrite (pages_disjoint _ _ _ _ (ug_page _ _ _ _ _ _ _ U) (HA q Hq) Hpa Ha).
Qed.

(** The two pages below the size: the guard and the stack. *)
Lemma new_stack s A pgdir T s1 l1 A1 T1 g p v s2 :
  vm_grew end_ s A pgdir T s1 l1 A1 T1 -> new_pages end_ A A1 pgdir T1 [g; p] -> 1 <= v < 524287 ->
  maps (kmemory s) T (kmemory s1) T1 (v - 1) [g; p] 6 -> vm_grew end_ s1 A1 pgdir T1 s2 l1 A1 T1 ->
  (forall w, 0 <= w -> ptes (kmemory s2) T1 w =
     if decide (w = v - 1) then Z.ldiff (ptes (kmemory s1) T1 (v - 1)) PTE_U else ptes (kmemory s1) T1 w) ->
  stack s2 l1 A1 pgdir T1 v p /\ (p ∉ A) /\
  (forall w, 0 <= w < v - 1 -> ptes (kmemory s2) T1 w = ptes (kmemory s) T w).
Proof.
  intros G N Hv M G2 Hp. destruct (np_page _ _ _ _ _ _ N g) as (Hg & _); [left|].
  destruct (np_page _ _ _ _ _ _ N p) as (Hpp & HpA & HpA1 & Hpd); [right; left|].
  destruct (user_entry _ _ Hg) as (Eg & _ & _ & _ & Eg4 & Eg5 & Eg6). destruct (user_entry _ _ Hpp) as (Ep & _).
  pose proof (mp_in _ _ _ _ _ _ _ M 0%nat g eq_refl) as Mg. pose proof (mp_in _ _ _ _ _ _ _ M 1%nat p eq_refl) as Mp.
  rewrite Z.add_0_r in Mg. replace (v - 1 + Z.of_nat 1) with v in Mp by lia.
  assert (ptes (kmemory s2) T1 (v - 1) = v2p g + 3) as Hgv by (rewrite Hp, decide_True, Mg, Eg by lia; done).
  split; [|split; [done|]].
  - constructor; [|lia|by rewrite Hgv|by rewrite Hgv]. constructor; [apply G2|lia|done|done| |].
    + intros d. apply (np_tab _ _ _ _ _ _ N). right; left.
    + rewrite Hp, decide_False, Mp, Ep by lia. done.
  - intros w Hw. rewrite Hp, decide_False by lia. apply (mp_out _ _ _ _ _ _ _ M); [lia|]. cbn [length]. lia.
Qed.

(** What the program finds, with the stack at page [v]: [s] is the state before. *)
Record built (s : kst) (A : gset Z) (pgdir : Z) (T : gmap Z Z) (v : Z) (argv : list (list Z)) (sp : Z) (qs : list Z)
    (s' : kst) (T' : gmap Z Z) : Prop := {
  bt_grew : exists l' A', vm_grew end_ s A pgdir T s' l' A' T';
  bt_below w : 0 <= w < v - 1 -> ptes (kmemory s') T' w = ptes (kmemory s) T w;
  bt_guard va : 4096 * (v - 1) <= va < 4096 * v -> uview (kmemory s') T' va = None;
  bt_frame : ureads (kmemory s') T' sp (frame_words sp qs ≫= to_le 4);
  bt_args : Forall2 (fun a q => ureads (kmemory s') T' q a) argv qs }.

Lemma stack_built s A pgdir T s2 l2 A2 T2 v p argv sp qs s' :
  vm_grew end_ s A pgdir T s2 l2 A2 T2 -> vm_ok end_ s2 l2 A2 pgdir T2 -> p ∉ A -> (forall q, q ∈ A -> page end_ q) ->
  (forall w, 0 <= w < v - 1 -> ptes (kmemory s2) T2 w = ptes (kmemory s) T w) ->
  stack s' l2 A2 pgdir T2 v p -> stacked s2 l2 A2 pgdir T2 v p sp (4096 * (v + 1)) s' -> 4096 * v <= sp ->
  sp + 4 * (4 + Z.of_nat (length qs)) <= 4096 * (v + 1) ->
  at_mem (kmemory s') (p + (sp - 4096 * v)) (frame_words sp qs ≫= to_le 4) ->
  Forall2 (fun a q => 4096 * v <= q /\ q + Z.of_nat (length a) <= 4096 * (v + 1)) argv qs ->
  Forall2 (fun a q => at_mem (kmemory s') (p + (q - 4096 * v)) a) argv qs ->
  built s A pgdir T v argv sp qs s' T2.
Proof.
  intros G V HpA HA Hlow K Hk Hsp Hfit Hfr Hb Hat. constructor.
  - exists l2, A2. eapply grew_stacked; [exact G|exact V|exact HpA|exact HA|exact Hsp| |exact Hk]; lia.
  - intros w Hw. by rewrite (st_ptes _ _ _ _ _ _ _ _ _ _ Hk), Hlow.
  - intros va Hva. unfold uview. replace (va / 4096) with (v - 1) by (pose proof (Z.div_mod va 4096); pose proof (Z.mod_pos_bound va 4096); lia).
    rewrite (sk_guard _ _ _ _ _ _ _ K). cbn. by rewrite andb_false_r.
  - eapply stack_view; [exact K|done| |done]. rewrite length_words. unfold frame_words. rewrite !length_app. cbn [length]. lia.
  - apply Forall2_same_length_lookup. split; [by eapply Forall2_length|]. intros i a q Ha Hq.
    rewrite Forall2_same_length_lookup in Hb. rewrite Forall2_same_length_lookup in Hat.
    destruct Hb as [_ Hb], Hat as [_ Hat]. destruct (Hb i a q Ha Hq) as [H1 H2].
    eapply stack_view; [exact K|done|done|by eapply Hat].
Qed.

(** C16: The stack exec builds for a program, given four free pages and arguments of at most
    4093 bytes each with their nuls.  When there are at most MAXARG arguments, and they and
    the frame fit in the page of the stack, the program finds at its stack pointer, which is
    word aligned, a return address of -1, argc, and a pointer to argv, which holds the
    addresses of all the argument strings and ends with a null pointer; each string can be
    read with its nul at its address; the page below cannot be read; the memory below that
    stays as it was.  When there are more arguments or they do not fit, the call fails. *)
Theorem exec_stack s l A pgdir T sz argv :
  vm_ok end_ s l A pgdir T -> 0 <= sz -> 4096 * (pages_to sz + 2) < KERNBASE ->
  (forall w, pages_to sz <= w < pages_to sz + 2 -> ptes (kmemory s) T w = 0) -> 4 <= Z.of_nat (length l) ->
  Forall arg_ok argv ->
  exists r s', user_stack end_ pgdir sz argv s = Ret r s' /\
  match place_frame (pages_to sz + 1) argv with
  | None => r = None
  | Some (sp, qs) => r = Some (4096 * (pages_to sz + 2), sp) /\ sp mod 4 = 0 /\ length qs = length argv /\
      exists T', built s A pgdir T (pages_to sz + 1) argv sp qs s' T'
  end.
Proof.
  intros V Hsz Hk Hfree Hl Hargs. unfold KERNBASE in Hk. destruct (pages_to_bounds sz Hsz) as [Hp0 Hpb].
  assert (forall q, q ∈ A -> page end_ q) as HA by (intros q Hq; by destruct (vo_own _ _ _ _ _ _ V q Hq)).
  set (v := pages_to sz + 1). replace (pages_to sz + 2) with (v + 1) in * by lia.
  match goal with |- exists r s', (_ = _ /\ @?P r s') => enough (wp (user_stack end_ pgdir sz argv) (fun r s' => P r s') s)
    as (r & s' & E & HP)%wp_run by eauto end.
  unfold user_stack, PGSIZE. rewrite PGROUNDUP_pages by lia. rewrite u32_small by lia.
  replace (4096 * pages_to sz + 2 * 4096) with (4096 * (v + 1)) by lia. wp_step.
  assert (forall x, pages_to (4096 * x) = x) as Hpt
    by (intros x; unfold pages_to; rewrite Z.mul_comm, Z.div_add_l, Z.div_small by lia; lia).
  eapply wp_allocuvm; [exact V|lia|unfold KERNBASE; lia|rewrite !Hpt; exact Hfree|rewrite !Hpt; lia|].
  rewrite !Hpt. intros s1 l1 A1 T1 ps G N Hz Hps M. replace (pages_to sz) with (v - 1) in M by lia.
  destruct ps as [|g [|p [|]]]; cbn [length] in Hps; try lia.
  rewrite u32_small by lia. rewrite (proj2 (Z.eqb_neq _ _)) by lia.
  rewrite u32_small by lia. replace (4096 * (v + 1) - 2 * 4096) with (4096 * (v - 1)) by lia. wp_step.
  destruct (np_page _ _ _ _ _ _ N g) as (Hg & _); [left|]. destruct (user_entry _ _ Hg) as (Eg & Eg1 & _ & _ & Eg4 & _).
  pose proof (mp_in _ _ _ _ _ _ _ M 0%nat g eq_refl) as Mg. rewrite Z.add_0_r, Eg in Mg.
  destruct (v2p_page _ _ Hg) as (_ & _ & Hgr & _). unfold PHYSTOP in Hgr.
  eapply wp_clearpteu; [apply G|lia|by rewrite Mg|rewrite Mg, Eg4; lia|]. intros s2 G2 Hp2.
  destruct (new_stack _ _ _ _ _ _ _ _ _ _ v _ G N ltac:(lia) M G2 Hp2) as (K & HpA & Hlow).
  pose proof (vm_grew_trans _ _ _ _ _ _ _ _ _ _ _ _ _ G G2) as G12. wp_step.
  eapply (wp_push_args argv s2); [exact K|done|lia|]. unfold place_frame.
  assert ((length (A := Z) [] + length argv <=? MAXARG)%nat || bool_decide (argv = []) = (length argv <=? MAXARG)%nat) as ->
    by (destruct argv; [done|by rewrite orb_false_r]).
  destruct (Nat.leb_spec (length argv) MAXARG) as [Hmax|Hmax]; [|intros s'; by wp_steps].
  destruct (place (4096 * v) (4096 * (v + 1)) argv) as [[sp qs]|] eqn:Epl; cbn; [|intros s'; by wp_steps].
  destruct (place_bounds _ _ _ _ _ Epl) as (B1 & B2 & B3 & B4); [replace (4096 * (v + 1)) with (1024 * (v + 1) * 4) by lia; apply Z.mod_mul; lia|lia|].
  pose proof (length_place _ _ _ _ _ Epl) as Hlen. intros s3 Hk3 Hsp3 Hat3.
  eapply (wp_push_frame s2 s3 l1 A1 pgdir T1 v p sp argv qs); [exact Hk3|lia|done|done|done|done|].
  destruct (Z.ltb_spec (sp - 4 * (4 + Z.of_nat (length argv))) (4096 * v)) as [Hlt|Hge]; [done|].
  intros s4 K4 Hk4 Hfr Hat4. split; [done|]. split.
  { by rewrite Zminus_mod, B2, (Z.mul_comm 4), Z.mod_mul by lia. }
  split; [done|]. exists T1. eapply stack_built; [exact G12|apply G2|done|done|done|exact K4|exact Hk4|lia|rewrite Hlen; lia|done|done|done].
Qed.
End Stack.

(** ** Loading a segment *)

Section Load.
Context {S : Type} `{HasCtx S} `{!BlockLayer S} `{!TxLayer S} `{!BlockLaws S}.
Variable dev_read : Z -> option (nat -> Z -> M (ist S) (Z * list Z)).
Variable end_ : Z.

Lemma wp_in_kmem {B} (m : M kst B) (Q : B -> fsys S -> Prop) s :
  wp m (fun a k => Q a (with_ctx (ctx k) (mkfsys (ftable s) (pipes s) k (inodes s)))) (with_ctx (ctx s) (kmem s)) ->
  wp (in_kmem m) Q s.
Proof. intros Hw. unfold in_kmem. apply wp_zoom. exact Hw. Qed.

(** The allocator takes over the context; the rest stays. *)
Definition sync (s : fsys S) : fsys S := mkfsys (ftable s) (pipes s) (with_ctx (ctx s) (kmem s)) (inodes s).

Lemma sync_sync s : sync (sync s) = sync s.
Proof. done. Qed.

Lemma wp_in_kmem_read {B} (m : M kst B) a (Q : B -> fsys S -> Prop) s :
  wp m (fun b k => b = a /\ k = with_ctx (ctx s) (kmem s)) (with_ctx (ctx s) (kmem s)) -> Q a (sync s) ->
  wp (in_kmem m) Q s.
Proof.
  intros Hm HQ. apply wp_in_kmem. eapply wp_mono; [exact Hm|]. intros b k [-> ->].
  assert (with_ctx (ctx (with_ctx (ctx s) (kmem s))) (mkfsys (ftable s) (pipes s) (with_ctx (ctx s) (kmem s)) (inodes s)) = sync s) as ->; [|done].
  unfold sync. rewrite ctx_with. unfold with_ctx at 1. cbn [fsys_ctx ctx]. f_equal. apply with_same.
Qed.

Lemma vm_ok_ctx k c l A pgdir T :
  vm_ok end_ k l A pgdir T -> LkKmem ∉ held c -> vm_ok end_ (with_ctx c k) l A pgdir T.
Proof. intros [[K1 K2 K3] V2 V3 V4 V5 V6] Hc. by constructor. Qed.

(** The segment: [n] bytes of the file from [off] on go to the pages [ps], mapped at [v]. *)
Variables (V : Z -> list Z) (sb : superblock) (r : nat) (lim : Z) (ip : nat) (x : inode) (cache : list inode).
Variables (l : list Z) (A : gset Z) (pgdir : Z) (T : gmap Z Z) (v off n : Z) (ps : list Z).
Hypothesis Hx : cache !! ip = Some x.
Hypothesis Hfile : file_ok V sb lim x.
Hypothesis Hfull : full V x.
Hypothesis Hsb : 0 <= data_start sb.
Hypothesis Htype : i_type x <> T_DEV.
Hypothesis Hoff : 0 <= off.
Hypothesis Hn : 0 <= n.
Hypothesis Hsize : off + n <= i_size x.
Hypothesis Hps : Z.of_nat (length ps) = pages_to n.
Hypothesis Hv : 0 <= v.
Hypothesis Hvn : v + pages_to n <= 524288.

(** The system while the segment is loaded. *)
Record loading (s : fsys S) : Prop := {
  ld_rep : bl_rep (blk (inodes s)) V ∅ ∅ r;
  ld_lim : bl_lim (blk (inodes s)) = lim;
  ld_cache : icache (inodes s) = cache;
  ld_lock : LkKmem ∉ held (ctx s);
  ld_vm : vm_ok end_ (kmem s) l A pgdir T;
  ld_pages : user_pages (kmem s) A pgdir T v ps 6 }.

Lemma user_upage k j p :
  vm_ok end_ k l A pgdir T -> user_pages k A pgdir T v ps 6 -> ps !! j = Some p -> upage end_ k l A pgdir T (v + Z.of_nat j) p.
Proof.
  intros Vm [U1 U2 U3 U4] Hj. pose proof (lookup_lt_Some _ _ _ Hj). pose proof (list_elem_of_lookup_2 _ _ _ Hj) as Hp.
  destruct (U2 p Hp) as [HpA Hpd]. destruct (vo_own _ _ _ _ _ _ Vm p HpA) as [Hpp _].
  constructor; [done|lia|done|done|by intros d; apply U3|]. rewrite (U4 j p Hj). by destruct (user_entry _ _ Hpp) as (-> & _).
Qed.

(** What the pages from number [k] on hold at the end. *)
Record loaded (m : mem) (k : nat) (m' : mem) : Prop := {
  lo_in j p o : (k <= j)%nat -> ps !! j = Some p -> 0 <= o < 4096 ->
    m' (p + o) = if 4096 * Z.of_nat j + o <? n
                 then default 0 (content V x !! Z.to_nat (off + 4096 * Z.of_nat j + o)) else m (p + o);
  lo_out a : (forall j p, (k <= j)%nat -> ps !! j = Some p -> ~ in_page p a) -> m' a = m a }.

Lemma loading_sync s : loading s -> loading (sync s).
Proof.
  intros [L1 L2 L3 L4 L5 [U1 U2 U3 U4]]. constructor; try done. by apply vm_ok_ctx.
Qed.

(** One page: the part of the file that belongs to it is read into it. *)
Lemma wp_load_page {B} s j p (k : Z * list Z -> M (fsys S) B) (Q : B -> fsys S -> Prop) :
  loading s -> ps !! j = Some p -> 4096 * Z.of_nat j < n ->
  let c := Z.min 4096 (n - 4096 * Z.of_nat j) in
  let bs := slice (Z.to_nat (off + 4096 * Z.of_nat j)) (Z.to_nat c) (content V x) in
  (forall s', loading s' -> kmemory (kmem s') = poke (kmemory (kmem s)) p bs -> wp (k (c, bs)) Q s') ->
  wp (bd <- in_fs (readi dev_read ip (off + 4096 * Z.of_nat j) c) ;; in_kmem (copy_in p (snd bd)) ;; k bd) Q s.
Proof.
  intros L Hj Hlt c bs HQ. pose proof L as [L1 L2 L3 L4 L5 L6]. pose proof (fo_size _ _ _ _ Hfile) as Hsz.
  unfold MAXFILE, NDIRECT, NINDIRECT in Hsz. change (Z.of_nat BSIZE) with 512 in Hsz.
  wp_step. unfold in_fs at 1. apply wp_zoom.
  eapply (wp_readi dev_read ip x _ c (inodes s) V r sb); rewrite ?L2, ?L3; try done; [lia|lia|lia|]. cbv zeta.
  replace (Z.min c (i_size x - (off + 4096 * Z.of_nat j))) with c by lia. fold bs. intros b' R' (X1 & X2 & X3 & _).
  wp_step. apply wp_in_kmem. cbn [snd]. unfold copy_in, set_mem. wp_step. simpl.
  pose proof (user_upage _ j p L5 L6 Hj) as U. destruct L6 as [U1 U2 U3 U4].
  assert (Z.of_nat (length bs) <= 4096) as Hbs by (unfold bs, slice; rewrite length_take; lia).
  destruct (upage_poked _ _ _ _ _ _ _ _ 0 bs U) as (U' & P' & M'); [lia|lia|]. rewrite Z.add_0_r in U', P', M'.
  apply HQ; [|done]. constructor; simpl; try done.
  - rewrite with_same. simpl. done.
  - rewrite with_same, X3. done.
  - rewrite with_same, X1. done.
  - by apply (vm_ok_ctx (poked (kmem s) p bs)); [apply U'|rewrite X1].
  - constructor; try done. intros i q Hi. rewrite <- (U4 i q Hi). apply P'.
Qed.

Lemma page_inside end0 p o : page end0 p -> 0 <= o < 4096 -> in_page p (p + o).
Proof. unfold in_page, PGSIZE. lia. Qed.

Lemma length_content s : loading s -> length (content V x) = Z.to_nat (i_size x).
Proof.
  intros [R L _ _ _ _]. unfold content. pose proof (fo_size _ _ _ _ Hfile) as Hsz.
  assert (MAXFILE * Z.of_nat BSIZE = 71680) as HM by reflexivity.
  rewrite length_take, (length_flat _ _ _ _ Hfile); [unfold BSIZE, nblocks; lia|].
  intros p Hp Hz. destruct (fo_slot _ _ _ _ Hfile _ Hp Hz) as (B1 & _). eapply bl_len; [exact R|lia].
Qed.

(** One page more. *)
Lemma loaded_step s j p m' :
  loading s -> ps !! j = Some p -> 4096 * Z.of_nat j < n ->
  loaded (poke (kmemory (kmem s)) p (slice (Z.to_nat (off + 4096 * Z.of_nat j))
    (Z.to_nat (Z.min 4096 (n - 4096 * Z.of_nat j))) (content V x))) (1 + j) m' ->
  loaded (kmemory (kmem s)) j m'.
Proof.
  intros L Hj Hlt [I O]. pose proof (length_content _ L) as Hlc. pose proof L as [_ _ _ _ L5 [U1 U2 _ _]]. set (c := Z.min 4096 (n - 4096 * Z.of_nat j)) in *.
  set (bs := slice _ _ _) in *.
  assert (length bs = Z.to_nat c) as Hbs by (apply length_slice; rewrite Hlc; lia).
  assert (forall i q, ps !! i = Some q -> page end_ q) as Hpg.
  { intros i q Hi. apply list_elem_of_lookup_2 in Hi. destruct (U2 q Hi) as [HA _]. by destruct (vo_own _ _ _ _ _ _ L5 q HA). }
  assert (forall i q o, ps !! i = Some q -> i <> j -> 0 <= o < 4096 -> ~ in_page p (q + o)) as Hdis.
  { intros i q o Hi Hne Ho Hin. apply Hne. eapply NoDup_lookup; [exact U1|exact Hi|].
    rewrite (pages_disjoint _ _ _ _ (Hpg _ _ Hi) (Hpg _ _ Hj) (page_inside _ _ _ (Hpg _ _ Hi) Ho) Hin). done. }
  constructor.
  - intros i q o Hi Hq Ho. destruct (decide (i = j)) as [->|Hne].
    + rewrite Hj in Hq. injection Hq as <-. rewrite O.
      * destruct (Z.ltb_spec (4096 * Z.of_nat j + o) n); [|apply poke_out; lia].
        destruct (lookup_lt_is_Some_2 bs (Z.to_nat o)) as [y Hy]; [lia|].
        rewrite <- (Z2Nat.id o) at 1 by lia. rewrite (poke_in _ _ _ _ y Hy). unfold bs in Hy.
        rewrite lookup_slice, decide_True in Hy by lia. replace (Z.to_nat (off + 4096 * Z.of_nat j + o))
          with (Z.to_nat (off + 4096 * Z.of_nat j) + Z.to_nat o)%nat by lia. by rewrite Hy.
      * intros i' q' Hi' Hq' Hin. apply (Hdis i' q' (p + o - q')); [done|lia|unfold in_page, PGSIZE in Hin; lia|].
        replace (q' + (p + o - q')) with (p + o) by lia. by eapply page_inside; [eapply Hpg|].
    + rewrite I with (j := i) by (done || lia). destruct (_ <? n); [done|]. apply poke_out.
      intros Hin. apply (Hdis i q o); [done|done|done|]. unfold in_page, PGSIZE. lia.
  - intros a Ha. rewrite O by (intros i q Hi Hq; apply (Ha i q); [lia|done]). apply poke_out. intros Hin.
    apply (Ha j p); [lia|done|]. unfold in_page, PGSIZE. lia.
Qed.

Lemma wp_loaduvm_loop d fuel j s (Q : Z -> fsys S -> Prop) :
  loading s -> Z.of_nat j + Z.of_nat d = pages_to n -> (d < fuel)%nat ->
  (forall s', loading s' -> loaded (kmemory (kmem s)) j (kmemory (kmem s')) -> Q 0 s') ->
  wp (loaduvm_loop dev_read fuel pgdir (4096 * v) ip off n (4096 * Z.of_nat j)) Q s.
Proof.
  destruct (pages_to_bounds n Hn) as [Hp0 Hp1]. pose proof (fo_size _ _ _ _ Hfile) as Hsz.
  unfold MAXFILE, NDIRECT, NINDIRECT in Hsz. change (Z.of_nat BSIZE) with 512 in Hsz.
  revert fuel j s. induction d as [|d IH]; intros fuel j s L Hjd Hf HQ; (destruct fuel as [|fuel]; [lia|]); cbn [loaduvm_loop].
  { rewrite (proj2 (Z.ltb_ge _ _)) by lia. wp_steps. apply HQ; [done|]. constructor; [|done].
    intros i p o Hi Hp. apply lookup_lt_Some in Hp. lia. }
  rewrite (proj2 (Z.ltb_lt _ _)) by lia. destruct (lookup_lt_is_Some_2 ps j) as [p Hj]; [lia|].
  pose proof L as [L1 L2 L3 L4 L5 L6]. pose proof (user_upage _ j p L5 L6 Hj) as U. pose proof (ug_page _ _ _ _ _ _ _ _ U) as Hpp.
  destruct (user_entry _ _ Hpp) as (_ & E1 & _ & E3 & _). destruct (v2p_page _ _ Hpp) as (_ & _ & _ & E4).
  rewrite (u32_small (4096 * v + _)), (u32_small (off + _)), (u32_small (_ + PGSIZE)) by (unfold PGSIZE; lia).
  replace (4096 * v + 4096 * Z.of_nat j) with (4096 * (v + Z.of_nat j)) by lia.
  destruct (walk_entry end_ (with_ctx (ctx s) (kmem s)) l A pgdir T (v + Z.of_nat j)) as (t & _ & Hz & He & Hw);
    [by apply vm_ok_ctx|apply U|simpl; by rewrite (ug_map _ _ _ _ _ _ _ _ U)|]. simpl in He. rewrite (ug_map _ _ _ _ _ _ _ _ U) in He.
  wp_step. eapply wp_in_kmem_read; [by apply Hw|]. rewrite (proj2 (Z.eqb_neq _ _) Hz). wp_step.
  eapply (wp_in_kmem_read _ (v2p p + 7)).
  { unfold load_pte. rewrite (proj2 (Z.eqb_neq _ _) Hz). wp_steps. simpl. rewrite He. done. }
  rewrite E3, E4, sync_sync. unfold PGSIZE.
  assert ((if n - 4096 * Z.of_nat j <? 4096 then n - 4096 * Z.of_nat j else 4096) = Z.min 4096 (n - 4096 * Z.of_nat j))
    as -> by (destruct (Z.ltb_spec (n - 4096 * Z.of_nat j) 4096); lia).
  eapply (wp_load_page (sync s) j p); [by apply loading_sync|done|lia|]. intros s1 L1' Hm1. cbn [fst].
  rewrite Z.eqb_refl. cbn [negb]. replace (4096 * Z.of_nat j + 4096) with (4096 * Z.of_nat (1 + j)) by lia.
  apply IH; [done|lia|lia|]. intros s' L' Hl. apply HQ; [done|]. rewrite Hm1 in Hl. eapply loaded_step; [exact L|exact Hj|lia|exact Hl].
Qed.

(** The segment as user code sees it. *)
Lemma loaded_view m s' :
  loading s' -> loaded m 0 (kmemory (kmem s')) ->
  ureads (kmemory (kmem s')) T (4096 * v) (slice (Z.to_nat off) (Z.to_nat n) (content V x)).
Proof.
  intros [_ _ _ _ L5 L6] [I _] i y Hi. rewrite lookup_slice in Hi. case_decide as Hlt; [|done].
  destruct (pages_to_bounds n Hn) as [_ Hp1]. pose proof (Z.div_mod (Z.of_nat i) 4096). pose proof (Z.mod_pos_bound (Z.of_nat i) 4096).
  set (j := Z.of_nat i / 4096) in *. set (o := Z.of_nat i mod 4096) in *.
  destruct (lookup_lt_is_Some_2 ps (Z.to_nat j)) as [p Hj]; [lia|].
  pose proof (user_upage _ _ p L5 L6 Hj) as U. rewrite Z2Nat.id in U by lia. pose proof (ug_page _ _ _ _ _ _ _ _ U) as Hpp.
  destruct (user_entry _ _ Hpp) as (_ & E1 & E2 & E3 & _). destruct (v2p_page _ _ Hpp) as (_ & _ & _ & E4).
  assert ((4096 * v + Z.of_nat i) / 4096 = v + j /\ (4096 * v + Z.of_nat i) mod 4096 = o) as [Hd Hm].
  { pose proof (Z.div_mod (4096 * v + Z.of_nat i) 4096). pose proof (Z.mod_pos_bound (4096 * v + Z.of_nat i) 4096). lia. }
  unfold uview. rewrite Hd, Hm, (ug_map _ _ _ _ _ _ _ _ U), E1, E2, E3, E4. cbn. f_equal.
  rewrite (I (Z.to_nat j) p o), (proj2 (Z.ltb_lt _ _)) by (done || lia).
  replace (Z.to_nat (off + 4096 * Z.of_nat (Z.to_nat j) + o)) with (Z.to_nat off + i)%nat by lia. by rewrite Hi.
Qed.

Lemma loaded_frame m s' a :
  loading s' -> loaded m 0 (kmemory (kmem s')) ->
  (forall j p, ps !! j = Some p -> in_page p a -> 4096 * Z.of_nat j + (a - p) >= n) -> kmemory (kmem s') a = m a.
Proof.
  intros [_ _ _ _ L5 [U1 U2 _ _]] [I O] Ha.
  destruct (decide (Exists (fun p => in_page p a) ps)) as [Hex|Hno].
  - apply Exists_exists in Hex as (p & Hp & Hin). apply list_elem_of_lookup in Hp as [j Hj].
    pose proof (Ha j p Hj Hin). unfold in_page, PGSIZE in Hin. replace a with (p + (a - p)) by lia.
    rewrite (I j p) by (done || lia). rewrite (proj2 (Z.ltb_ge _ _)) by lia. done.
  - apply O. intros j p _ Hj Hin. apply Hno, Exists_exists. exists p. split; [by eapply list_elem_of_lookup_2|done].
Qed.

(** C17: loaduvm fills the pages of a segment from the file: when the pages are mapped for
    the user, no buffer is held, the inode is that of a file whose blocks are all there and
    which has the bytes, it returns 0, user code reads the bytes of the file from [off] on
    at the addresses of the segment, what the last page holds beyond them stays, no
    other memory changes, and neither does a block of the disk. *)
Theorem loaduvm_loads s :
  loading s ->
  exists s', loaduvm dev_read pgdir (4096 * v) ip off n s = Ret 0 s' /\ loading s' /\
    ureads (kmemory (kmem s')) T (4096 * v) (slice (Z.to_nat off) (Z.to_nat n) (content V x)) /\
    (forall a, (forall j p, ps !! j = Some p -> in_page p a -> 4096 * Z.of_nat j + (a - p) >= n) ->
       kmemory (kmem s') a = kmemory (kmem s) a).
Proof.
  intros L.
  assert (wp (loaduvm dev_read pgdir (4096 * v) ip off n) (fun r s' => r = 0 /\ loading s' /\
    loaded (kmemory (kmem s)) 0 (kmemory (kmem s'))) s) as (rv & s' & E & -> & L' & [I O])%wp_run.
  { unfold loaduvm, PGSIZE. rewrite Z.mul_comm, Z.mod_mul by lia. cbn [Z.eqb negb]. rewrite Z.mul_comm.
    apply (wp_loaduvm_loop (Z.to_nat (pages_to n)) _ 0); [done|lia| |done]. pose proof (pages_to_fuel n). lia. }
  exists s'. split; [done|]. split; [done|]. split.
  - by eapply loaded_view.
  - intros a Ha. by eapply loaded_frame.
Qed.
End Load.

(** ** An example *)

(** "ls -l" on an empty address space. *)
Definition demo_argv : list (list Z) := [[108; 115; 0]; [45; 108; 0]].

Lemma demo_args : Forall arg_ok demo_argv.
Proof.
  repeat constructor; try (vm_compute; discriminate); [exists [108; 115]|exists [45; 108]]; (split; [done|set_solver]).
Qed.

Lemma exec_stack_witness : exists s pgdir s' T',
  user_stack demo_end pgdir 0 demo_argv s = Ret (Some (8192, 8160)) s' /\
  ureads (kmemory s') T' 8160 (frame_words 8160 [8188; 8184] ≫= to_le 4) /\
  ureads (kmemory s') T' 8184 [45; 108; 0].
Proof.
  destruct (demo_dir 10) as (s & l & d & V & Hlen); [lia|].
  destruct (exec_stack demo_end s l ({[d]} ∪ ∅) d ∅ 0 demo_argv V) as (r & s' & E & HP).
  - lia.
  - vm_compute. done.
  - intros w _. unfold ptes. by rewrite lookup_empty.
  - lia.
  - apply demo_args.
  - change (place_frame (pages_to 0 + 1) demo_argv) with (Some (8160, [8188; 8184])) in HP.
    destruct HP as (-> & _ & _ & T' & [_ _ _ Hf Ha]). exists s, d, s', T'. split; [exact E|]. split; [exact Hf|].
    apply Forall2_cons in Ha as [_ Ha]. by apply Forall2_cons in Ha as [Ha _].
Defined.

(** A page of the user, filled from the file "abc". *)
Lemma demo_user : exists k l A d T p, vm_ok demo_end k l A d T /\ user_pages k A d T 0 [p] 6.
Proof.
  destruct (demo_dir 10) as (s & l & d & V & Hlen); [lia|].
  destruct (wp_run (allocuvm demo_end d 0 4096) (fun _ s' => exists l' A' T' p,
    vm_ok demo_end s' l' A' d T' /\ user_pages s' A' d T' 0 [p] 6) s) as (r & s' & _ & l' & A' & T' & p & H1 & H2); [|eauto 10].
  eapply wp_allocuvm; [exact V|lia|unfold KERNBASE; lia| |rewrite Hlen; vm_compute; done|].
  - intros w _. unfold ptes. by rewrite lookup_empty.
  - intros s1 l1 A1 T1 ps G N _ Hps M. change (pages_to 4096 - pages_to 0) with 1 in Hps.
    destruct ps as [|p [|? ?]]; cbn [length] in Hps; try lia. exists l1, A1, T1, p. split; [apply G|].
    change (pages_to 0) with 0 in M. eapply new_user_pages; [apply G|exact N|exact M|done].
Qed.

Lemma loaduvm_loads_witness : exists (s s' : fsys logst) pgdir T,
  loaduvm (fun _ => None) pgdir 0 0 1 2 s = Ret 0 s' /\ ureads (kmemory (kmem s')) T 0 [98; 99].
Proof.
  destruct demo_file as (s & V & R & Hlim & Hh & Hc & Sh & F & Hf & Hcont & _).
  destruct demo_user as (k & l & A & d & T & p & Vm & U).
  pose proof (data_start_pos _ _ _ Sh) as Hds.
  destruct (loaduvm_loads (fun _ => None) demo_end V demo_sb 27 64 0 demo_ino demo_slots l A d T 0 1 2 [p])
    with (s := mkfsys (S := logst) [] ∅ k s) as (s' & E & _ & Hr & _); try done; try (cbn; lia).
  - constructor; try done. change (LkKmem ∉ held (ctx s)). rewrite Hh. apply not_elem_of_nil.
  - rewrite Hcont in Hr. exists (mkfsys [] ∅ k s), s', d, T. split; [exact E|exact Hr].
Defined.
