(* ===== verification/Kernel.v ===== *)
(** * The kernel: proc.c on the components it calls

    [kernel_env] is the interface [ProcEnv] of proc.c filled in with kalloc.c, vm.c, file.c,
    fs.c and log.c as the other files model them; struct file and struct inode pointers are
    the index in their table plus one.  On it, what fork gives the child: memory, open
    files and directory. *)

From stdpp Require Import base list numbers strings gmap sets.
From S2P Require Import Prelude CString Spinlock Layout Buf Log Kalloc Proc Block Inode Content Dir Vm Uvm Copyuvm File Descr Image.
Import Ctx.

Open Scope Z_scope.
Local Open Scope kernel_scope.

(** Pointers into a table, and back; a null pointer has no entry. *)
Definition ptr (i : nat) : Z := Z.of_nat i + 1.
Definition idx (a : Z) : option nat := if 0 <? a then Some (Z.to_nat (a - 1)) else None.

Lemma idx_Some a i : idx a = Some i <-> a = ptr i.
Proof.
  unfold idx, ptr. destruct (Z.ltb_spec 0 a); split; [intros [= <-]; lia|intros ->; f_equal; lia|done|lia].
Qed.

Section Env.
(** The first address after the kernel and after its text, the bytes of initcode.S, and the
    devices. *)
Variables (end_ data : Z) (initcode : list Z).
Variable dev_read : Z -> option (nat -> Z -> M (ist logst) (Z * list Z)).
Abbreviation KE := (fsys logst).

(** A call with a pointer. *)
Definition with_ptr {A} (a : Z) (m : nat -> M KE A) : M KE A := i <- lift_opt (idx a) ;; m i.

Definition kernel_env : ProcEnv KE := {|
  e_kalloc := in_kmem kalloc;
  e_kfree v := in_kmem (kfree end_ v);
  e_setupkvm := in_kmem (setupkvm data);
  e_inituvm pg := in_kmem (inituvm pg initcode (Z.of_nat (length initcode)));
  e_copyuvm pg sz := in_kmem (copyuvm end_ data pg sz);
  e_allocuvm pg o n := in_kmem (allocuvm end_ pg o n);
  e_deallocuvm pg o n := in_kmem (deallocuvm end_ pg o n);
  e_freevm pg := in_kmem (freevm end_ pg);
  e_filedup f := with_ptr f (fun i => j <- filedup i ;; ret (ptr j));
  e_fileclose f := with_ptr f (fileclose end_);
  e_idup ip := with_ptr ip (fun i => j <- in_fs (idup i) ;; ret (ptr j));
  e_iput ip := with_ptr ip (fun i => in_fs (iput i));
  e_namei_root := o <- in_fs (namei dev_read 0 [slash; 0]) ;; ret (match o with Some i => ptr i | None => 0 end);
  e_begin_op := begin_tx;
  e_end_op := end_tx;
  e_initlog := in_fs (in_blk initlog) |}.
#[local] Existing Instance kernel_env.

(** ** The open files *)

(** An open file, and an inode of the cache, by their pointers. *)
Definition open_ptr (e : KE) (f : Z) : Prop := exists i y, f = ptr i /\ ftable e !! i = Some y /\ 1 <= f_ref y.
Definition inode_ptr (e : KE) (ip : Z) : Prop := exists i y, ip = ptr i /\ icache (inodes e) !! i = Some y.

(** The references a list of pointers holds, and the table with these added. *)
Definition refs_in (fs : list Z) (i : nat) : Z := Z.of_nat (length (filter (fun f => f = ptr i) fs)).
Definition add_refs (fs : list Z) (t : list file) : list file :=
  imap (fun i y => fw_ref (f_ref y + refs_in fs i) y) t.

Lemma add_refs_nil t : add_refs [] t = t.
Proof.
  apply list_eq. intros i. unfold add_refs. rewrite list_lookup_imap. destruct (t !! i) as [[]|]; [|done].
  unfold refs_in, fw_ref. cbn. by rewrite Z.add_0_r.
Qed.

Lemma refs_in_other f fs i : f <> ptr i -> refs_in (f :: fs) i = refs_in fs i.
Proof. intros Hf. unfold refs_in. by rewrite filter_cons_False. Qed.

Lemma add_refs_cons i fs t :
  add_refs fs (alter (fun y => fw_ref (f_ref y + 1) y) i t) = add_refs (ptr i :: fs) t.
Proof.
  apply list_eq. intros j. unfold add_refs. rewrite !list_lookup_imap. destruct (decide (j = i)) as [->|Hne].
  - rewrite list_lookup_alter_eq. destruct (t !! i) as [y|]; [|done]. unfold refs_in, fw_ref.
    rewrite filter_cons_True by done. cbn. do 2 f_equal. lia.
  - rewrite list_lookup_alter_ne by done. rewrite refs_in_other by (unfold ptr; lia). done.
Qed.

Lemma add_refs_0 fs t : add_refs (0 :: fs) t = add_refs fs t.
Proof.
  apply list_eq. intros j. unfold add_refs. rewrite !list_lookup_imap.
  rewrite refs_in_other by (unfold ptr; lia). done.
Qed.

(** filedup of the open files of a process returns each time, and counts the references. *)
Lemma dups_open fs (e : KE) :
  LkFtable ∉ held (ctx e) -> Forall (fun f => f = 0 \/ open_ptr e f) fs ->
  dups fs e (with_table (add_refs fs (ftable e)) e).
Proof.
  revert e. induction fs as [|f fs IH]; intros e Hl Hf.
  { rewrite add_refs_nil. destruct e. constructor. }
  apply list.Forall_cons in Hf as [[->|(i & y & -> & Hy & Hr)] Hf]; [rewrite add_refs_0; by apply dups_zero, IH|].
  set (e1 := with_table (alter (fun y => fw_ref (f_ref y + 1) y) i (ftable e)) e).
  assert (e_filedup (ptr i) e = Ret (ptr i) e1) as E.
  { assert (wp (e_filedup (ptr i)) (fun a e' => a = ptr i /\ e' = e1) e) as Hw.
    { cbn [e_filedup kernel_env]. unfold with_ptr. rewrite (proj2 (idx_Some _ _) eq_refl). wp_steps.
      apply wp_bind. eapply wp_filedup; [done|exact Hy|done|]. by wp_steps. }
    apply wp_run in Hw as (a & e' & -> & -> & ->). done. }
  eapply dups_file; [unfold ptr; lia|exact E|].
  rewrite <- add_refs_cons. change (with_table ?t e) with (with_table t e1).
  change (alter _ i (ftable e)) with (ftable e1). apply IH; [exact Hl|].
  eapply Forall_impl; [exact Hf|]. intros f [->|(j & z & -> & Hz & Hzr)]; [by left|right]. exists j.
  cbn. destruct (decide (j = i)) as [->|Hne].
  - rewrite list_lookup_alter_eq, Hz. eexists. split; [done|]. split; [done|]. cbn. lia.
  - rewrite list_lookup_alter_ne, Hz by done. by exists z.
Qed.

Lemma idup_counts (e : KE) i y :
  LkIcache ∉ held (ctx e) -> icache (inodes e) !! i = Some y ->
  e_idup (ptr i) e = Ret (ptr i) (mkfsys (ftable e) (pipes e) (kmem e)
    (mkist (<[i := iw_ref (i_ref y + 1) y]> (icache (inodes e))) (blk (inodes e)))).
Proof.
  intros Hl Hy. set (e1 := mkfsys _ _ _ _).
  assert (wp (e_idup (ptr i)) (fun a e' => a = ptr i /\ e' = e1) e) as Hw.
  { cbn [e_idup kernel_env]. unfold with_ptr. rewrite (proj2 (idx_Some _ _) eq_refl). wp_steps.
    apply wp_bind, wp_zoom. unfold idup. wp_steps. apply wp_acquire; [done|]. wp_steps.
    eapply wp_seti; [exact Hy|]. wp_steps. eapply wp_release; [done|]. wp_steps. split; [done|]. unfold e1. cbn.
    by destruct (blk (inodes e)) as [? [? ? ? []]]. }
  apply wp_run in Hw as (a & e' & -> & -> & ->). done.
Qed.

(** ** The memory *)

(** The allocator in the caller's context. *)
Definition kernel_mem (e : KE) : kst := with_ctx (ctx e) (kmem e).
Definition with_kmem (k : kst) (e : KE) : KE := mkfsys (ftable e) (pipes e) k (inodes e).

Lemma in_kmem_run {B} (m : M kst B) (e : KE) a k :
  m (kernel_mem e) = Ret a k -> kctx_of k = ctx e -> in_kmem m e = Ret a (with_kmem k e).
Proof.
  unfold in_kmem, zoom, kernel_mem. intros -> Hk. unfold with_kmem. change (ctx k) with (kctx_of k). rewrite Hk.
  by destruct e as [ft ps km [ic [? []]]].
Qed.

Lemma kernel_mem_with k (e : KE) : kctx_of k = ctx e -> kernel_mem (with_kmem k e) = k.
Proof. intros Hk. destruct k as [? ? ? kc]. unfold kernel_mem. cbn in *. by rewrite Hk. Qed.

(** What user code reads does not depend on the page behind an entry, only on its flags
    and its contents. *)
Lemma uview_entry m T m' T' va p q f :
  page end_ p -> page end_ q -> 0 <= f < 4096 ->
  ptes m T (va / 4096) = v2p p + f -> ptes m' T' (va / 4096) = v2p q + f ->
  m' (q + va mod 4096) = m (p + va mod 4096) -> uview m' T' va = uview m T va.
Proof.
  intros Hp Hq Hf E E' Hm. unfold uview. rewrite E, E'.
  destruct (v2p_page _ _ Hp) as (_ & P1 & _ & P2). destruct (v2p_page _ _ Hq) as (_ & Q1 & _ & Q2).
  rewrite !PTE_ADDR_add, P2, Q2, Hm by done.
  assert (forall x b, x mod 4096 = 0 -> Z.land 4095 b = b -> Z.land (x + f) b = Z.land f b) as Hb.
  { intros x b Hx Hb. transitivity (Z.land (Z.land (x + f) 4095) b); [by rewrite <- Z.land_assoc, Hb|].
    f_equal. by apply PTE_FLAGS_add. }
  rewrite !Hb by done. done.
Qed.

(** The address space [d] of the child, with tables [T'], after fork: the bytes its user code
    reads are the parent's, which are as before, and its pages are none of the pages [A] that
    were in use. *)
Definition forked_memory (e e' : KE) (A : gset Z) (pgdir : Z) (T : gmap Z Z) (sz d : Z) : Prop :=
  exists l' A' T', vm_ok end_ (kmem e') l' A' pgdir T /\ vm_ok end_ (kmem e') l' A' d T' /\
    forall va, 0 <= va < 4096 * pages_to sz ->
      uview (kmemory (kmem e')) T' va = uview (kmemory (kmem e)) T va /\
      uview (kmemory (kmem e')) T va = uview (kmemory (kmem e)) T va /\
      exists q f, ptes (kmemory (kmem e')) T' (va / 4096) = v2p q + f /\ 0 <= f < 4096 /\ page end_ q /\ q ∉ A.

Context (dq : Z) (Hdata : data = KERNBASE + 4096 * dq) (Hdq : 256 < dq < 57344).

(** kalloc and copyuvm, one after the other. *)
Lemma fork_mem (e : KE) l A pgdir T ps sz :
  vm_ok end_ (kernel_mem e) l A pgdir T -> parent (kernel_mem e) A T ps ->
  Z.of_nat (length ps) = pages_to sz -> 0 <= sz < KERNBASE -> (73 + 2 * length ps <= length l)%nat ->
  exists k k1 pg k2,
    e_kalloc e = Ret k (with_kmem k1 e) /\ k <> 0 /\
    e_copyuvm pgdir sz (with_kmem k1 e) = Ret pg (with_kmem k2 e) /\ pg <> 0 /\ kctx_of k2 = ctx e /\
    forall e', kmem e' = k2 -> forked_memory e e' A pgdir T sz pg.
Proof.
  intros V P Hlen Hsz Hl. destruct l as [|k l]; cbn [length] in Hl; [lia|].
  destruct (wp_run kalloc (fun a s1 => a = k /\ kmemory s1 = kmemory (kernel_mem e) /\ kctx_of s1 = ctx e /\ page end_ k /\
    k ∉ A /\ vm_ok end_ s1 l ({[k]} ∪ A) pgdir T) (kernel_mem e)) as (a & k1 & Ek & -> & Em & Ec & Hk & HkA & V1).
  { eapply wp_vm_kalloc; [exact V|]. intros s1 Em _ Ec Hk HkA V1. by rewrite Ec. }
  pose proof (page_range _ _ Hk) as Hr. unfold KERNBASE in Hr.
  assert (parent k1 ({[k]} ∪ A) T ps) as P1.
  { destruct P as [P1 P2]. constructor; [intros p f Hp; destruct (P1 p f Hp); set_solver|]. rewrite Em. exact P2. }
  destruct (wp_run (copyuvm end_ data pgdir sz) (fun d s' => d <> 0 /\ exists l' A' T' qs, length qs = length ps /\
    child end_ data k1 ({[k]} ∪ A) ps s' l' A' d T' qs) k1) as (pg & k2 & Ec2 & Hpg & l' & A' & T' & qs & Hqs & C).
  { eapply (wp_copyuvm end_ data dq); [done|done|exact V1|exact P1|done|done|lia|]. intros d s' l' A' T' qs Hd Hqs C. split; [done|].
    by exists l', A', T', qs. }
  destruct (ch_kept _ _ _ _ _ _ _ _ _ _ _ C) as (Hk1 & Hk2 & Hk3).
  exists k, k1, pg, k2. split; [by apply (in_kmem_run kalloc)|]. split; [lia|]. split.
  { apply (in_kmem_run (copyuvm end_ data pgdir sz) (with_kmem k1 e)); [by rewrite kernel_mem_with|by rewrite Hk2]. }
  split; [done|]. split; [by rewrite Hk2|]. intros e' He. unfold forked_memory. rewrite He.
  assert (vm_ok end_ k2 l' A' pgdir T) as V2 by (eapply vm_ok_kept; [exact V1|apply C..]).
  exists l', A', T'. split; [done|]. split; [apply C|]. intros va Hva.
  assert (0 <= va / 4096 < pages_to sz) as Hvr by (split; [apply Z.div_pos; lia|apply Z.div_lt_upper_bound; lia]).
  destruct (lookup_lt_is_Some_2 ps (Z.to_nat (va / 4096))) as [[p f] Hp]; [lia|].
  destruct (lookup_lt_is_Some_2 qs (Z.to_nat (va / 4096))) as [q Hq]; [lia|].
  assert (Z.of_nat (Z.to_nat (va / 4096)) = va / 4096) as Hw by lia.
  destruct (pa_own _ _ _ _ P1 p f) as (HpA & Hf & _); [by eapply list_elem_of_lookup_2|].
  destruct (np_page _ _ _ _ _ _ (ch_new _ _ _ _ _ _ _ _ _ _ _ C) q) as (Hqp & HqA & _); [by eapply list_elem_of_lookup_2|].
  pose proof (pa_map _ _ _ _ P _ _ _ Hp) as Ep. rewrite Hw in Ep.
  pose proof (ch_map _ _ _ _ _ _ _ _ _ _ _ C _ _ _ _ Hq Hp) as Eq. rewrite Hw in Eq.
  destruct (vo_own _ _ _ _ _ _ V1 _ HpA) as [Hpp _]. pose proof (Z.mod_pos_bound va 4096).
  split_and!.
  - eapply (uview_entry _ _ _ _ _ p q f); [done..|exact Ep|exact Eq|].
    rewrite (ch_data _ _ _ _ _ _ _ _ _ _ _ C _ _ _ _ _ Hq Hp) by (unfold PGSIZE; lia). by rewrite Em.
  - eapply (uview_entry _ _ _ _ _ p p f); [done..|exact Ep| |].
    + rewrite (ptes_kept end_ k1 l ({[k]} ∪ A) pgdir) by (done || (split; done)). rewrite Em. exact Ep.
    + rewrite (Hk3 p) by (done || (unfold in_page, PGSIZE; lia)). by rewrite Em.
  - exists q, f. split; [exact Eq|]. split; [done|]. split; [done|]. set_solver.
Qed.

(** ** fork *)

Variables trapret forkret_addr : Z.

(** The entry [x'] of the child of process [c]. *)
Record forked_entry (np c : nat) (pid : Z) (p x' : proc) : Prop := {
  fe_state : p_state x' = RUNNABLE;
  fe_pid : p_pid x' = pid;
  fe_parent : p_parent x' = Some c;
  fe_threads : p_threads x' = Some np;
  fe_sz : p_sz x' = p_sz p;
  fe_files : p_ofile x' = p_ofile p;
  fe_cwd : p_cwd x' = p_cwd p;
  fe_name : Str.cstr 16 (p_name x') = Str.cstr 15 (p_name p) }.

(** C34: fork of the kernel, with a free entry of the table whose descriptors are clear, 73
    free pages and two for each page of the caller, no lock held, and the caller's descriptors
    and directory referring to open files and a cached inode.  It returns the identifier of a new
    process: a RUNNABLE child of the caller with the caller's size, open files, directory
    and name; its thread returns to user space with the caller's registers and 0 in eax.  At
    every address of the caller's memory the child's user code reads what the caller's
    does, the caller's own memory is as before, and the child's pages were not in use.
    The reference count of every open file has grown by the number of descriptors of the
    caller for it and that of the directory by one; every other entry and thread is as
    before. *)
Theorem fork_makes_child (s : psys KE) np x c p t th f0 l A T ps :
  sys_ok s -> 0 < nextpid s < 2 ^ 31 - 1 -> held (pctx s) = [] -> held (ctx (env s)) = [] ->
  find_unused (procs s) 0 = Some np -> procs s !! np = Some x -> Forall (eq 0) (p_ofile x) ->
  cur s = Some c -> procs s !! c = Some p -> live (p_state p) ->
  curt s = Some (c, t) -> thread_at (ttable s) c t = Some th -> tfs s !! t_tf th = Some f0 ->
  vm_ok end_ (kernel_mem (env s)) l A (p_pgdir p) T -> parent (kernel_mem (env s)) A T ps ->
  Z.of_nat (length ps) = pages_to (p_sz p) -> 0 <= p_sz p < KERNBASE -> (73 + 2 * length ps <= length l)%nat ->
  Forall (fun f => f = 0 \/ open_ptr (env s) f) (p_ofile p) -> inode_ptr (env s) (p_cwd p) ->
  exists s' x' th',
    fork trapret forkret_addr s = Ret (nextpid s) s' /\
    procs s' !! np = Some x' /\ forked_entry np c (nextpid s) p x' /\
    (thread_at (ttable s') np 0 = Some th' /\ t_state th' = RUNNABLE) /\
    tfs s' = <[t_tf th' := tf_set_eax 0 f0]> (tfs s) /\
    forked_memory (env s) (env s') A (p_pgdir p) T (p_sz p) (p_pgdir x') /\
    ftable (env s') = add_refs (p_ofile p) (ftable (env s)) /\
    (forall i, p_cwd p = ptr i -> icache (inodes (env s')) = alter (fun y => iw_ref (i_ref y + 1) y) i (icache (inodes (env s)))) /\
    (forall j, j <> np -> procs s' !! j = procs s !! j) /\
    (forall j u, j <> np -> thread_at (ttable s') j u = thread_at (ttable s) j u).
Proof.
  intros Hs Hn Hl He Hu Hx Hclr Hc Hp Hlive Hct Hth Hf V P Hlen Hsz Hfree Hof (i & y & Hi & Hy).
  destruct (fork_mem (env s) l A (p_pgdir p) T ps (p_sz p) V P Hlen Hsz Hfree)
    as (k & k1 & pg & k2 & Ek & Hk & Ecp & Hpg & Hk2 & Hmem).
  assert (forall lk, lk ∉ held (ctx (env s))) as Hno by (intros lk; rewrite He; apply not_elem_of_nil).
  pose proof (dups_open (p_ofile p) (with_kmem k2 (env s)) (Hno LkFtable) Hof) as Hd.
  pose proof (idup_counts (with_table (add_refs (p_ofile p) (ftable (env s))) (with_kmem k2 (env s))) i y (Hno LkIcache) Hy) as Hid.
  rewrite <- Hi in Hid.
  edestruct (fork_made trapret forkret_addr s np x c p t th f0)
    as (s' & x' & th' & E & Hx' & (F1 & F2 & F3 & F4) & (F5 & F6 & F7 & F8 & F9) & Hth' & Htf & Ho1 & Ho2 & Henv);
    try eassumption; [rewrite Hl; apply not_elem_of_nil|].
  exists s', x', th'. rewrite F6, Henv. split; [exact E|]. split; [exact Hx'|]. split; [by constructor|].
  split; [done|]. split; [done|]. split; [by apply Hmem|]. split; [done|]. split; [|done].
  intros j Hj. assert (j = i) as -> by (unfold ptr in *; lia). cbn.
  apply list_eq. intros j'. destruct (decide (j' = i)) as [->|Hne].
  - rewrite list_lookup_alter_eq, list_lookup_insert_eq, Hy; [done|]. by eapply lookup_lt_Some.
  - by rewrite list_lookup_alter_ne, list_lookup_insert_ne.
Qed.
End Env.

(** ** An example *)

(** The first process, with one page at address 0, one open file and a directory. *)
Definition demo_parent (d : Z) (p : proc) : proc :=
  pw_pgdir d (pw_sz 4096 (pw_ofile (ptr 0 :: replicate 15 0) (pw_cwd (ptr 0) p))).
Definition demo_kernel (k : kst) (d : Z) : psys (fsys logst) :=
  let s := Demo.init in
  mkpsys (alter (demo_parent d) 0%nat (procs s)) (ttable s) (initproc s) (nextpid s) (nexttid s) (tfs s) (contexts s)
    (words s) (cur s) (curt s) (first s) (mkfsys [open_file 0 0] ∅ k (mkist [demo_one 1] (power_on []))) (pctx s).

Lemma demo_kernel_ok k d : sys_ok (demo_kernel k d).
Proof.
  pose proof (proj1 (proj1 Demo.init_inv)) as Hs. assert (is_Some (procs Demo.init !! 0%nat)) as [p Hp] by (vm_compute; by eexists).
  unfold sys_ok. eapply (table_ok_setp _ _ _ 0 p); [exact Hs|exact Hp| |by left].
  destruct (to_proc _ _ _ Hs 0%nat p Hp). by constructor.
Qed.

Lemma fork_makes_child_witness : exists s s' x',
  fork (H := kernel_env demo_end (KERNBASE + 4096 * 512) [] (fun _ => None)) 1 2 s = Ret 2 s' /\
  procs s' !! 1%nat = Some x' /\ p_parent x' = Some 0%nat /\ p_ofile x' = ptr 0 :: replicate 15 0 /\
  f_ref <$> ftable (env s') !! 0%nat = Some 2.
Proof.
  destruct demo_space as (k & l & A & d & T & q & V & Hq & Hpte & _ & Hl).
  assert (exists th f0, thread_at (ttable Demo.init) 0 0 = Some th /\ tfs Demo.init !! t_tf th = Some f0) as (th & f0 & Hth & Hf).
  { eexists _, _. split; vm_compute; reflexivity. }
  assert (exists p, procs Demo.init !! 0%nat = Some p /\ p_state p = RUNNABLE) as (p & Hp & Hst)
    by (eexists; split; vm_compute; reflexivity).
  edestruct (fork_makes_child demo_end (KERNBASE + 4096 * 512) [] (fun _ => None) 512 eq_refl ltac:(lia) 1 2
    (demo_kernel k d) 1 zero_proc 0 (demo_parent d p) 0 th f0 l A T [(q, 7)]) as (s' & x' & th' & E & Hx' & F & _ & _ & _ & Ft & _).
  - apply demo_kernel_ok.
  - vm_compute. done.
  - vm_compute. reflexivity.
  - vm_compute. reflexivity.
  - vm_compute. reflexivity.
  - vm_compute. reflexivity.
  - repeat constructor.
  - vm_compute. reflexivity.
  - cbn [demo_kernel procs]. by rewrite list_lookup_alter_eq, Hp.
  - cbn. rewrite Hst. split; discriminate.
  - vm_compute. reflexivity.
  - exact Hth.
  - exact Hf.
  - apply vm_ok_ctx; [exact V|apply not_elem_of_nil].
  - constructor.
    + intros p' f [= -> ->]%list_elem_of_singleton. split; [done|]. split; [lia|done].
    + intros [|i] p' f Hi; [injection Hi as <- <-; exact Hpte|done].
  - reflexivity.
  - unfold KERNBASE. cbn. lia.
  - cbn. lia.
  - constructor; [right; exists 0%nat; eexists; split; [done|]; split; [done|]; cbn; lia|]. repeat constructor.
  - exists 0%nat. eexists. split; done.
  - exists (demo_kernel k d), s', x'. split; [exact E|]. split; [exact Hx'|]. split; [apply F|]. split; [apply F|]. by rewrite Ft.
Defined.
