(* ===== verification/Mkfs.v ===== *)
(** * mkfs.c: the builder of the file-system image

    The state is the image file as its sectors, and the counters.  A dinode is an [inode]
    record whose fields hold the numbers; xshort and xint arrange the bytes of a number in
    memory in the order of the disk, and on a host with that order change nothing.  An
    input file is its name and the results of the calls of read.  A failed assertion or
    system call ends the program with a message. *)

From stdpp Require Import base list numbers strings functions.
From S2P Require Import Prelude CString Layout Buf Inode Dir.

Open Scope Z_scope.
Local Open Scope kernel_scope.

Definition nblocks_ : Z := 995 - LOGSIZE.
Definition nlog : Z := LOGSIZE.
Definition ninodes : Z := 200.
Definition size : Z := 1024.

Record mkst := mkmk { img : list (list Z); freeblock : Z; usedblocks : Z; freeinode : Z }.

Definition set_img (l : list (list Z)) : M mkst unit :=
  modify (fun s => mkmk l (freeblock s) (usedblocks s) (freeinode s)).
Definition set_blocks (f u : Z) : M mkst unit :=
  modify (fun s => mkmk (img s) f u (freeinode s)).
Definition set_freeinode (v : Z) : M mkst unit :=
  modify (fun s => mkmk (img s) (freeblock s) (usedblocks s) v).

Definition xshort (x : Z) : Z := of_le [u8 x; u8 (Z.shiftr x 8)].
Definition xint (x : Z) : Z := of_le [u8 x; u8 (Z.shiftr x 8); u8 (Z.shiftr x 16); u8 (Z.shiftr x 24)].

Definition assert_ (b : bool) : M mkst unit := if b then ret tt else panic "assert".

(** lseek and write: a write beyond the end of the file leaves a hole of zeros. *)
Definition wsect (sec : Z) (buf : list Z) : M mkst unit :=
  l <- gets img ;;
  let l := l ++ replicate (S (Z.to_nat sec) - length l) (replicate 512 0) in
  set_img (<[Z.to_nat sec := buf]> l).

Definition rsect (sec : Z) : M mkst (list Z) :=
  l <- gets img ;;
  match l !! Z.to_nat sec with Some d => ret d | None => panic "read" end.

Definition i2b (inum : Z) : Z := inum / IPB + 2.

Definition winode (inum : Z) (ip : inode) : M mkst unit :=
  d <- rsect (i2b inum) ;;
  wsect (i2b inum) (store_dinode d (dip_off inum) ip).

(** The fields that are only in memory are those of an inode of the root device. *)
Definition rinode (inum : Z) : M mkst inode :=
  d <- rsect (i2b inum) ;;
  ret (load_dinode d (dip_off inum) (mkinode ROOTDEV inum 0 0 0 0 0 0 0 [])).

Definition ialloc (type : Z) : M mkst Z :=
  inum <- gets freeinode ;;
  set_freeinode (u32 (inum + 1)) ;;
  winode inum (mkinode 0 0 0 0 (xshort type) 0 0 (xshort 1) (xint 0) (replicate 13 0)) ;;
  ret inum.

(** The bitmap with the first [k] bits set. *)
Fixpoint set_bits (k : nat) : list Z :=
  match k with
  | O => replicate 512 0
  | S k => alter (fun x => Z.lor x (Z.shiftl 1 (Z.of_nat (k mod 8)))) (k / 8)%nat (set_bits k)
  end.

Definition balloc (used : Z) : M mkst unit :=
  assert_ (used <? 512 * 8) ;;
  wsect (ninodes / IPB + 3) (set_bits (Z.to_nat used)).

(** freeblock++, usedblocks++. *)
Definition new_block : M mkst Z :=
  f <- gets freeblock ;;
  u <- gets usedblocks ;;
  set_blocks (u32 (f + 1)) (u32 (u + 1)) ;;
  ret f.

(** The block for [fbn]: the dinode and the block number. *)
Definition find_block (din : inode) (fbn : Z) : M mkst (inode * Z) :=
  if fbn <? NDIRECT then
    a <- lift_opt (i_addrs din !! Z.to_nat fbn) ;;
    din <- (if xint a =? 0 then f <- new_block ;; ret (iw_addrs (<[Z.to_nat fbn := xint f]> (i_addrs din)) din)
            else ret din) ;;
    a <- lift_opt (i_addrs din !! Z.to_nat fbn) ;;
    ret (din, xint a)
  else
    a <- lift_opt (i_addrs din !! Z.to_nat NDIRECT) ;;
    din <- (if xint a =? 0 then f <- new_block ;; ret (iw_addrs (<[Z.to_nat NDIRECT := xint f]> (i_addrs din)) din)
            else ret din) ;;
    a <- lift_opt (i_addrs din !! Z.to_nat NDIRECT) ;;
    let k := Z.to_nat (fbn - NDIRECT) in
    indirect <- rsect (xint a) ;;
    e <- lift_opt (rd32 indirect (4 * k)) ;;
    if e =? 0 then
      f <- new_block ;;
      let indirect := put32 indirect (4 * k) (xint f) in
      wsect (xint a) indirect ;;
      e <- lift_opt (rd32 indirect (4 * k)) ;;
      ret (din, xint e)
    else ret (din, xint e).

(** The loop of iappend on [p], the bytes still to append. *)
Fixpoint iappend_loop (fuel : nat) (din : inode) (off : Z) (p : list Z) : M mkst (inode * Z) :=
  match fuel with
  | O => out_of_fuel
  | S fuel =>
      if 0 <? Z.of_nat (length p) then
        let fbn := off / 512 in
        assert_ (fbn <? MAXFILE) ;;
        r <- find_block din fbn ;;
        let n1 := Z.min (Z.of_nat (length p)) ((fbn + 1) * 512 - off) in
        buf <- rsect (snd r) ;;
        wsect (snd r) (splice (Z.to_nat (off - fbn * 512)) (take (Z.to_nat n1) p) buf) ;;
        iappend_loop fuel (fst r) (u32 (off + n1)) (drop (Z.to_nat n1) p)
      else ret (din, off)
  end.

Definition iappend (inum : Z) (xp : list Z) : M mkst unit :=
  din <- rinode inum ;;
  r <- iappend_loop (S (length xp)) din (xint (i_size din)) xp ;;
  winode inum (iw_size (xint (snd r)) (fst r)).

(** ** main *)

(** An entry: bzero, inum, and the name. *)
Definition entry_bytes (inum : Z) (name : list Z) : list Z := dirent_bytes (mkdirent (xshort inum) name).

(** An input file: its name, with the nul, and what read returns until the end of file. *)
Record input := mkinput { in_name : list Z; in_reads : list (list Z) }.

Definition skip_underscore (name : list Z) : list Z :=
  match name with
  | c :: rest => if c =? 95 then rest else name
  | [] => name
  end.

Definition add_file (rootino : Z) (f : input) : M mkst unit :=
  assert_ (negb (bool_decide (slash ∈ in_name f))) ;;
  let name := skip_underscore (in_name f) in
  inum <- ialloc T_FILE ;;
  nm <- lift_opt (Str.strncpy (replicate DIRSIZ 0) name (Z.of_nat DIRSIZ)) ;;
  iappend rootino (entry_bytes inum nm) ;;
  forM (in_reads f) (iappend inum).

Definition super : list Z :=
  put32 (put32 (put32 (put32 (replicate 512 0) 0 (xint size)) 4 (xint nblocks_)) 8 (xint ninodes)) 12 (xint nlog).

Definition dot_name : list Z := 46 :: replicate 13 0.
Definition dotdot_name : list Z := 46 :: 46 :: replicate 12 0.

(** The rounding of the size of the root directory. *)
Definition fix_root (rootino : Z) : M mkst unit :=
  din <- rinode rootino ;;
  let off := xint (i_size din) in
  let off := (off / Z.of_nat BSIZE + 1) * Z.of_nat BSIZE in
  winode rootino (iw_size (xint off) din).

Definition main (files : list input) : M mkst unit :=
  let bitblocks := size / (512 * 8) + 1 in
  let used := ninodes / IPB + 3 + bitblocks in
  set_blocks used used ;;
  assert_ (nblocks_ + used + nlog =? size) ;;
  forM (seq 0 (Z.to_nat (nblocks_ + used + nlog))) (fun i => wsect (Z.of_nat i) (replicate 512 0)) ;;
  wsect 1 super ;;
  rootino <- ialloc T_DIR ;;
  assert_ (rootino =? ROOTINO) ;;
  iappend rootino (entry_bytes rootino dot_name) ;;
  iappend rootino (entry_bytes rootino dotdot_name) ;;
  forM files (add_file rootino) ;;
  fix_root rootino ;;
  u <- gets usedblocks ;;
  balloc u.

Definition start : mkst := mkmk [] 0 0 1.
