(* ===== verification/Fsimage.v ===== *)
(** * The image mkfs builds is a file system

    [mk_rep] reads the image as contents of blocks, the view the kernel's theorems take of
    a disk.  While the image is built every file owns its blocks, exactly those its size
    needs, below the next free block; iappend appends.  At the end the image has the shape
    the kernel relies on, with the root directory and the files. *)

From stdpp Require Import base list numbers strings functions.
From S2P Require Import Prelude CString Layout Buf Log Block Inode Content Dinode Dir Dirent Mkfs.

Open Scope Z_scope.
Local Open Scope kernel_scope.

Lemma xint_id x : 0 <= x < 2 ^ 32 -> xint x = x.
Proof.
  intros Hx. unfold xint, u8. rewrite !Z.shiftr_div_pow2 by lia.
  change (2 ^ 16) with (256 * 256). change (2 ^ 24) with (256 * 256 * 256). change (2 ^ 8) with 256.
  rewrite <- !Z.div_div by lia. change (of_le (to_le 4 x) = x). rewrite of_le_to_le. by apply Z.mod_small.
Qed.

Lemma xshort_id x : 0 <= x < 2 ^ 16 -> xshort x = x.
Proof.
  intros Hx. unfold xshort, u8. rewrite !Z.shiftr_div_pow2 by lia. change (2 ^ 8) with 256.
  change (of_le (to_le 2 x) = x). rewrite of_le_to_le. by apply Z.mod_small.
Qed.

(** ** The image as contents of blocks *)

Record mk_rep (s : mkst) (V : Z -> list Z) (fb fi : Z) : Prop := {
  mr_len : length (img s) = 1024%nat;
  mr_img n : 0 <= n < 1024 -> img s !! Z.to_nat n = Some (V n);
  mr_fb : freeblock s = fb;
  mr_ub : usedblocks s = fb;
  mr_fi : freeinode s = fi }.

Lemma wp_rsect s V fb fi n (Q : list Z -> mkst -> Prop) :
  mk_rep s V fb fi -> 0 <= n < 1024 -> Q (V n) s -> wp (rsect n) Q s.
Proof. intros R Hn HQ. unfold rsect. wp_steps. by rewrite (mr_img _ _ _ _ R n Hn). Qed.

Lemma wp_wsect s V fb fi n d (Q : unit -> mkst -> Prop) :
  mk_rep s V fb fi -> 0 <= n < 1024 -> (forall s', mk_rep s' (<[n := d]> V) fb fi -> Q tt s') -> wp (wsect n d) Q s.
Proof.
  intros [R1 R2 R3 R4 R5] Hn HQ. unfold wsect, set_img. wp_steps. apply HQ.
  rewrite R1. replace (S (Z.to_nat n) - 1024)%nat with 0%nat by lia. rewrite app_nil_r.
  constructor; simpl; try done; [by rewrite length_insert|]. intros k Hk. destruct (decide (k = n)) as [->|Hne].
  - rewrite list_lookup_insert_eq by lia. by rewrite fn_lookup_insert.
  - rewrite list_lookup_insert_ne by lia. rewrite fn_lookup_insert_ne by done. by apply R2.
Qed.

Lemma wp_new_block s V fb fi (Q : Z -> mkst -> Prop) :
  mk_rep s V fb fi -> 0 <= fb <= 1024 -> (forall s', mk_rep s' V (fb + 1) fi -> Q fb s') -> wp new_block Q s.
Proof.
  intros [R1 R2 R3 R4 R5] Hfb HQ. unfold new_block, set_blocks. wp_steps. rewrite R3, R4. apply HQ.
  rewrite !u32_small by lia. by constructor.
Qed.

(** ** A file under construction *)

(** The blocks a file of [nb] blocks of data needs. *)
Definition need (nb : Z) : Z := nb + (if 12 <? nb then 1 else 0).

(** The blocks of [x] are below [fb], all different. *)
Record wfile (V : Z -> list Z) (fb : Z) (x : inode) : Prop := {
  wf_len : length (i_addrs x) = 13%nat;
  wf_range p : (p < nslots)%nat -> slot V x p <> 0 -> 29 <= slot V x p < fb;
  wf_inj p q : (p < nslots)%nat -> (q < nslots)%nat -> slot V x p = slot V x q -> slot V x p <> 0 -> p = q }.

(** The first [nb] blocks of data are there, no other; [ib]: the indirect block is there. *)
Record exact (V : Z -> list Z) (x : inode) (nb : Z) (ib : bool) : Prop := {
  ex_slot bn : (bn < nblocks)%nat -> slot V x (slot_of bn) <> 0 <-> Z.of_nat bn < nb;
  ex_ind : ind x <> 0 <-> ib = true }.

(** The blocks not yet given to a file are zero, and all have the size of a block. *)
Record spare (V : Z -> list Z) (fb : Z) : Prop := {
  sp_zero n : fb <= n -> V n = zeros;
  sp_len n : length (V n) = BSIZE }.

(** From [V], [fb], [x] to [V'], [fb'], [x']: the file grew, nothing else changed. *)
Record grows (V : Z -> list Z) (fb : Z) (x : inode) (V' : Z -> list Z) (fb' : Z) (x' : inode) : Prop := {
  gr_file : wfile V' fb' x';
  gr_spare : spare V' fb';
  gr_fb : fb <= fb';
  gr_keep n : n < fb -> (forall p, (p < nslots)%nat -> slot V x p <> n) -> V' n = V n;
  gr_slot p : (p < nslots)%nat -> slot V' x' p = slot V x p \/ fb <= slot V' x' p;
  gr_ino : x' = iw_addrs (i_addrs x') x }.

Lemma grows_refl V fb x : wfile V fb x -> spare V fb -> grows V fb x V fb x.
Proof. intros. constructor; auto; [lia|]. apply iw_addrs_same. Qed.

Lemma grows_trans V fb x V1 fb1 x1 V2 fb2 x2 :
  grows V fb x V1 fb1 x1 -> grows V1 fb1 x1 V2 fb2 x2 -> grows V fb x V2 fb2 x2.
Proof.
  intros [F1 S1 L1 K1 P1 I1] [F2 S2 L2 K2 P2 I2]. constructor; try done.
  - lia.
  - intros n Hn Hs. rewrite K2; [by apply K1|lia|]. intros p Hp E. destruct (P1 p Hp) as [E1|E1]; [|lia].
    apply (Hs p Hp). congruence.
  - intros p Hp. destruct (P2 p Hp) as [->|]; [|right; lia]. by apply P1.
  - rewrite I2 at 1. rewrite I1. done.
Qed.

(** A slot gets the next free block. *)
Record fills (V : Z -> list Z) (fb : Z) (x : inode) (p0 : nat) (V' : Z -> list Z) (x' : inode) : Prop := {
  fl_slot p : (p < nslots)%nat -> slot V' x' p = if decide (p = p0) then fb else slot V x p;
  fl_same n : n <> ind x -> V' n = V n;
  fl_len n : length (V' n) = BSIZE;
  fl_ino : x' = iw_addrs (i_addrs x') x /\ length (i_addrs x') = 13%nat }.

Lemma fills_grows V fb x p0 V' x' :
  wfile V fb x -> spare V fb -> 29 <= fb -> (p0 < nslots)%nat -> slot V x p0 = 0 -> fills V fb x p0 V' x' ->
  grows V fb x V' (fb + 1) x'.
Proof.
  intros [F1 F2 F3] [S1 S2] Hfb Hp0 Hz [L1 L2 L3 [L4 L5]].
  assert (forall n, fb <= n -> n <> ind x) as Hind.
  { intros n Hn ->. assert (ind x <> 0) as Hi by lia. rewrite <- (slot_ind V) in Hi, Hn.
    destruct (F2 ind_slot) as [_ ?]; [unfold ind_slot, nslots; lia|done|lia]. }
  constructor.
  - constructor; [done| |].
    + intros p Hp. rewrite L1 by done. case_decide; [lia|]. intros Hs. pose proof (F2 p Hp Hs). lia.
    + intros p q Hp Hq. rewrite !L1 by done. case_decide; case_decide; subst; try done; [| |by apply F3].
      * intros E _. destruct (decide (slot V x q = 0)) as [E0|E0]; [lia|]. pose proof (F2 q Hq E0). lia.
      * intros E E0. pose proof (F2 p Hp E0). lia.
  - constructor; [|done]. intros n Hn. rewrite L2 by (apply Hind; lia). apply S1. lia.
  - lia.
  - intros n Hn Hs. apply L2. intros ->. destruct (decide (ind x = 0)) as [E|E].
    + by apply (Hs p0 Hp0); rewrite Hz, E.
    + apply (Hs ind_slot); [unfold ind_slot, nslots; lia|apply slot_ind].
  - intros p Hp. rewrite L1 by done. case_decide; [right; lia|by left].
  - done.
Qed.

Lemma fills_flat V fb x p0 V' x' :
  wfile V fb x -> spare V fb -> 29 <= fb -> slot V x p0 = 0 -> fills V fb x p0 V' x' -> flat V' x' = flat V x.
Proof.
  intros [F1 F2 F3] [S1 S2] Hfb Hz [L1 L2 L3 [L4 L5]].
  assert (forall n, fb <= n -> n <> ind x) as Hind.
  { intros n Hn ->. assert (ind x <> 0) as Hi by lia. rewrite <- (slot_ind V) in Hi, Hn.
    destruct (F2 ind_slot) as [_ ?]; [unfold ind_slot, nslots; lia|done|lia]. }
  unfold flat. f_equal. apply list_fmap_ext. intros i bn Hbn. apply lookup_seq in Hbn as [E Hbn]. cbn [Nat.add] in E. subst i.
  destruct (slot_of_lt bn Hbn) as [Hsl Hni]. unfold block_of. rewrite L1 by done. case_decide as E.
  - rewrite E, Hz. rewrite (proj2 (Z.eqb_neq fb 0)) by lia. cbn [Z.eqb]. rewrite L2 by (apply Hind; lia). apply S1. lia.
  - destruct (slot V x (slot_of bn) =? 0) eqn:E0; [done|]. zbool. apply L2. intros Ei. apply Hni.
    apply F3; [done|unfold ind_slot, nslots; lia|by rewrite slot_ind|done].
Qed.

Lemma fills_exact_data V fb x V' x' nb ib :
  29 <= fb -> 0 <= nb < 140 -> exact V x nb ib -> fills V fb x (slot_of (Z.to_nat nb)) V' x' -> exact V' x' (nb + 1) ib.
Proof.
  intros Hfb Hnb [E1 E2] [L1 _ _ _]. constructor.
  - intros bn Hbn. rewrite L1 by by apply slot_of_lt. case_decide as E.
    + apply slot_of_inj in E as ->. lia.
    + rewrite E1 by done. split; [lia|]. intros. destruct (decide (Z.of_nat bn = nb)) as [<-|]; [|lia].
      by rewrite Nat2Z.id in E.
  - rewrite <- (slot_ind V'), L1 by (unfold ind_slot, nslots; lia). rewrite decide_False; [done|].
    apply not_eq_sym, slot_of_lt. unfold nblocks. lia.
Qed.

Lemma fills_exact_ind V fb x V' x' nb ib :
  29 <= fb -> exact V x nb ib -> fills V fb x ind_slot V' x' -> exact V' x' nb true.
Proof.
  intros Hfb [E1 E2] [L1 _ _ _]. constructor.
  - intros bn Hbn. destruct (slot_of_lt bn Hbn). rewrite L1 by done. rewrite decide_False by done. by apply E1.
  - rewrite <- (slot_ind V'), L1 by (unfold ind_slot, nslots; lia). rewrite decide_True by done. split; [done|lia].
Qed.

Section Fills.
Context (V : Z -> list Z) (fb : Z) (x : inode).
Context (F : wfile V fb x) (Sp : spare V fb) (Hfb : 29 <= fb <= 1024).

Lemma fills_direct p0 : (p0 < 13)%nat -> slot V x p0 = 0 -> fills V fb x p0 V (iw_addrs (<[p0 := fb]> (i_addrs x)) x).
Proof.
  intros Hp Hz. pose proof (wf_len _ _ _ F) as Hlen. set (x' := iw_addrs _ x).
  assert (forall p, (p < 13)%nat -> slot V x' p = if decide (p = p0) then fb else slot V x p) as Hdir.
  { intros p Hp'. rewrite !slot_direct by done. unfold x'. cbn [i_addrs iw_addrs]. case_decide as E.
    - subst. rewrite list_lookup_insert_eq by lia. done.
    - by rewrite list_lookup_insert_ne by done. }
  assert (ind x' = if decide (ind_slot = p0) then fb else ind x) as Hind
    by (rewrite <- (slot_ind V); rewrite Hdir by (unfold ind_slot; lia); by rewrite slot_ind).
  constructor.
  - intros p Hpn. destruct (decide (p < 13)%nat) as [Hlt|Hge]; [by apply Hdir|].
    replace p with (13 + (p - 13))%nat by lia. rewrite !slot_entry, Hind.
    rewrite (decide_False (P := (13 + (p - 13))%nat = p0)) by lia. case_decide as E; [|done].
    rewrite (proj2 (Z.eqb_neq fb 0)) by lia. assert (ind x = 0) as -> by (rewrite <- (slot_ind V), E; done).
    rewrite (sp_zero _ _ Sp) by lia. cbn [Z.eqb]. apply get32_zeros. unfold nslots in Hpn. lia.
  - done.
  - apply Sp.
  - split; [done|]. unfold x'. cbn [i_addrs iw_addrs]. by rewrite length_insert.
Qed.

Lemma fills_entry k :
  (k < 128)%nat -> ind x <> 0 -> slot V x (13 + k) = 0 ->
  fills V fb x (13 + k) (<[ind x := put32 (V (ind x)) (4 * k) fb]> V) x.
Proof.
  intros Hk Hi Hz. pose proof (sp_len _ _ Sp (ind x)) as Hli. constructor.
  - intros p Hp. destruct (decide (p < 13)%nat) as [Hlt|Hge].
    + rewrite decide_False by lia. by rewrite !slot_direct by done.
    + replace p with (13 + (p - 13))%nat by lia. rewrite !slot_entry. rewrite (proj2 (Z.eqb_neq (ind x) 0) Hi).
      rewrite fn_lookup_insert. unfold nslots in Hp. case_decide as E.
      * replace (p - 13)%nat with k by lia. rewrite get32_put32 by (rewrite Hli; unfold BSIZE; lia). apply u32_small. lia.
      * rewrite get32_put32_ne by (rewrite ?Hli; unfold BSIZE; lia). done.
  - intros n Hn. by rewrite fn_lookup_insert_ne.
  - intros n. destruct (decide (n = ind x)) as [->|Hn].
    + rewrite fn_lookup_insert, length_put32; [done|]. rewrite Hli. unfold BSIZE. lia.
    + rewrite fn_lookup_insert_ne by done. apply Sp.
  - split; [apply iw_addrs_same|apply F].
Qed.

Lemma wfile_addr p : (p < 13)%nat -> i_addrs x !! p = Some (slot V x p) /\ (slot V x p <> 0 -> 29 <= slot V x p < fb).
Proof.
  intros Hp. pose proof (wf_len _ _ _ F) as Hlen. split.
  - rewrite slot_direct by done. destruct (lookup_lt_is_Some_2 (i_addrs x) p) as [a Ha]; [lia|]. by rewrite Ha.
  - apply F. unfold nslots. lia.
Qed.

Lemma wp_direct s fi p0 (Q : inode -> mkst -> Prop) :
  mk_rep s V fb fi -> (p0 < 13)%nat ->
  (slot V x p0 <> 0 -> Q x s) ->
  (forall s' x', slot V x p0 = 0 -> mk_rep s' V (fb + 1) fi -> fills V fb x p0 V x' -> Q x' s') ->
  wp (if xint (slot V x p0) =? 0 then f <- new_block ;; ret (iw_addrs (<[p0 := xint f]> (i_addrs x)) x) else ret x) Q s.
Proof.
  intros R Hp Q1 Q2. destruct (wfile_addr p0 Hp) as [_ Hr]. destruct (decide (slot V x p0 = 0)) as [E|E].
  - rewrite E. cbn [xint Z.eqb]. apply wp_bind. eapply wp_new_block; [exact R|lia|]. intros s' R'. wp_steps.
    rewrite xint_id by lia. apply Q2; [done|done|by apply fills_direct].
  - rewrite xint_id by lia. rewrite (proj2 (Z.eqb_neq _ _) E). apply Q1. done.
Qed.
End Fills.

(** ** The block for the next bytes *)

(** The image and a file of it with [nb] blocks of data. *)
Record making (s : mkst) (V : Z -> list Z) (fb fi : Z) (x : inode) (nb : Z) (ib : bool) : Prop := {
  mk_is : mk_rep s V fb fi;
  mk_file : wfile V fb x;
  mk_spare : spare V fb;
  mk_exact : exact V x nb ib;
  mk_fb : 29 <= fb <= 1024 }.

(** One step of the making: the same bytes, [m] more blocks. *)
Definition more (V : Z -> list Z) (fb : Z) (x : inode) (V' : Z -> list Z) (m : Z) (x' : inode) : Prop :=
  grows V fb x V' (fb + m) x' /\ flat V' x' = flat V x.

Lemma more_trans V fb x V1 m1 x1 V2 m2 x2 :
  more V fb x V1 m1 x1 -> more V1 (fb + m1) x1 V2 m2 x2 -> more V fb x V2 (m1 + m2) x2.
Proof.
  intros [G1 E1] [G2 E2]. split; [|congruence]. rewrite Z.add_assoc. by eapply grows_trans.
Qed.

Lemma more_none s V fb fi x nb ib : making s V fb fi x nb ib -> more V fb x V 0 x.
Proof. intros [R F Sp _ _]. split; [|done]. rewrite Z.add_0_r. by apply grows_refl. Qed.

Lemma fills_making s V fb fi x nb ib p0 V' s' x' nb' ib' :
  making s V fb fi x nb ib -> fb < 1024 -> (p0 < nslots)%nat -> slot V x p0 = 0 -> fills V fb x p0 V' x' ->
  mk_rep s' V' (fb + 1) fi -> exact V' x' nb' ib' ->
  making s' V' (fb + 1) fi x' nb' ib' /\ more V fb x V' 1 x'.
Proof.
  intros [R F Sp X Hfb] Hlt Hp Hz L R' X'.
  assert (grows V fb x V' (fb + 1) x') as G by (eapply fills_grows; try done; lia).
  split; [|split; [done|eapply fills_flat; try done; lia]].
  constructor; [done|apply G|apply G|done|lia].
Qed.

Lemma wp_find_direct s V fb fi x nb fbn (Q : inode * Z -> mkst -> Prop) :
  making s V fb fi x nb (12 <? nb) -> 0 <= fbn < 12 -> fbn <= nb <= fbn + 1 -> fb + (fbn + 1 - nb) <= 1024 ->
  (forall s' V' x', let m := fbn + 1 - nb in
     making s' V' (fb + m) fi x' (fbn + 1) false -> more V fb x V' m x' ->
     Q (x', slot V' x' (slot_of (Z.to_nat fbn))) s') ->
  wp (find_block x fbn) Q s.
Proof.
  intros B Hf Hnb Hroom HQ. pose proof B as [R F Sp X Hfb]. unfold find_block. rewrite (proj2 (Z.ltb_lt fbn NDIRECT)) by (unfold NDIRECT; lia).
  assert (slot_of (Z.to_nat fbn) = Z.to_nat fbn) as Es by (unfold slot_of; rewrite (proj2 (Nat.ltb_lt _ _)) by lia; done).
  pose proof (ex_slot _ _ _ _ X (Z.to_nat fbn)) as Xs. rewrite Es, Z2Nat.id in Xs by lia. specialize (Xs ltac:(unfold nblocks; lia)).
  rewrite (proj2 (Z.ltb_ge 12 nb)) in * by lia. rewrite Es in HQ.
  destruct (wfile_addr _ _ _ F (Z.to_nat fbn)) as [Ea Hr]; [lia|]. wp_step. eapply wp_lift_opt; [exact Ea|]. wp_step.
  assert (forall s' V' fb' x', making s' V' fb' fi x' (fbn + 1) false -> Q (x', slot V' x' (Z.to_nat fbn)) s' ->
    wp (a <- lift_opt (i_addrs x' !! Z.to_nat fbn) ;; ret (x', xint a)) Q s') as Hend.
  { intros s' V' fb' x' [R' F' Sp' X' Hfb'] HQ'. destruct (wfile_addr _ _ _ F' (Z.to_nat fbn)) as [Ea' Hr']; [lia|].
    wp_step. eapply wp_lift_opt; [exact Ea'|]. wp_steps. rewrite xint_id; [done|].
    destruct (decide (slot V' x' (Z.to_nat fbn) = 0)); lia. }
  destruct (decide (nb = fbn)) as [->|].
  - eapply wp_direct; [exact F|exact Sp|lia|exact R|lia|lia|]. intros s' x' E R' L. rewrite <- Es in E, L.
    destruct (fills_making s V fb fi x fbn false _ V s' x' (fbn + 1) false B ltac:(lia) (proj1 (slot_of_lt (Z.to_nat fbn) ltac:(unfold nblocks; lia))) E L R') as [B' M'].
    { eapply fills_exact_data; [| |exact X|exact L]; lia. }
    eapply Hend; [exact B'|]. apply HQ; by replace (fbn + 1 - fbn) with 1 by lia.
  - assert (nb = fbn + 1) as -> by lia. eapply wp_direct; [exact F|exact Sp| |exact R|lia| |].
    + lia.
    + intros _. eapply Hend; [exact B|]. apply HQ; replace (fbn + 1 - (fbn + 1)) with 0 by lia; [by rewrite Z.add_0_r|].
      by eapply more_none.
    + intros ? ? E. lia.
Qed.

Lemma entry_slot V x k : ind x <> 0 -> slot V x (13 + k) = get32 (V (ind x)) (4 * k).
Proof. intros Hi. rewrite slot_entry. by rewrite (proj2 (Z.eqb_neq _ _) Hi). Qed.

Lemma wp_find_entry s V fb fi x nb fbn (Q : inode * Z -> mkst -> Prop) :
  making s V fb fi x nb true -> 12 <= fbn < 140 -> fbn <= nb <= fbn + 1 -> fb + (fbn + 1 - nb) <= 1024 ->
  (forall s' V' x', let m := fbn + 1 - nb in
     making s' V' (fb + m) fi x' (fbn + 1) true -> more V fb x V' m x' ->
     Q (x', slot V' x' (slot_of (Z.to_nat fbn))) s') ->
  wp (let k := Z.to_nat (fbn - NDIRECT) in
      indirect <- rsect (ind x) ;;
      e <- lift_opt (rd32 indirect (4 * k)) ;;
      if e =? 0 then
        f <- new_block ;;
        let indirect := put32 indirect (4 * k) (xint f) in
        wsect (ind x) indirect ;;
        e <- lift_opt (rd32 indirect (4 * k)) ;;
        ret (x, xint e)
      else ret (x, xint e)) Q s.
Proof.
  intros B Hf Hnb Hroom HQ. pose proof B as [R F Sp X Hfb]. cbv zeta. set (k := Z.to_nat (fbn - NDIRECT)).
  assert (slot_of (Z.to_nat fbn) = (13 + k)%nat) as Es
    by (unfold slot_of; rewrite (proj2 (Nat.ltb_ge _ _)) by lia; unfold k, NDIRECT; lia).
  assert (k < 128)%nat as Hk by (unfold k, NDIRECT; lia).
  pose proof (ex_slot _ _ _ _ X (Z.to_nat fbn)) as Xs. rewrite Es, Z2Nat.id in Xs by lia. specialize (Xs ltac:(unfold nblocks; lia)).
  assert (ind x <> 0) as Hi by by apply X.
  assert (29 <= ind x < fb) as Hir by (rewrite <- (slot_ind V); apply F; [unfold ind_slot, nslots; lia|done]).
  assert (forall d, length d = BSIZE -> rd32 d (4 * k) = Some (get32 d (4 * k))) as Hrd.
  { intros d Hd. unfold rd32. by rewrite (proj2 (Nat.leb_le _ _)) by (rewrite Hd; unfold BSIZE; lia). }
  apply wp_bind. eapply wp_rsect; [exact R|lia|]. wp_step. eapply wp_lift_opt; [apply Hrd, Sp|].
  rewrite <- entry_slot by done. rewrite Es in HQ. destruct (decide (nb = fbn)) as [->|].
  - assert (slot V x (13 + k) = 0) as E0 by (destruct (decide (slot V x (13 + k) = 0)); lia). rewrite E0. cbn [Z.eqb].
    apply wp_bind. eapply wp_new_block; [exact R|lia|]. intros s1 R1. rewrite xint_id by lia.
    apply wp_bind. eapply wp_wsect; [exact R1|lia|]. intros s2 R2.
    pose proof (fills_entry V fb x F Sp Hfb k Hk Hi E0) as L. wp_step.
    assert (length (put32 (V (ind x)) (4 * k) fb) = BSIZE) as Hl.
    { rewrite length_put32; rewrite (sp_len _ _ Sp (ind x)); unfold BSIZE; lia. }
    eapply wp_lift_opt; [by apply Hrd|]. wp_steps.
    rewrite get32_put32 by (rewrite (sp_len _ _ Sp (ind x)); unfold BSIZE; lia). rewrite u32_small, xint_id by lia.
    destruct (fills_making s V fb fi x fbn true (13 + k) _ s2 x (fbn + 1) true B ltac:(lia) ltac:(unfold nslots; lia) E0 L R2) as [B' M'].
    { eapply fills_exact_data; [| |exact X|by rewrite Es]; lia. }
    pose proof (fl_slot _ _ _ _ _ _ L (13 + k) ltac:(unfold nslots; lia)) as Ef. rewrite decide_True in Ef by done. rewrite <- Ef.
    apply HQ; by replace (fbn + 1 - fbn) with 1 by lia.
  - assert (nb = fbn + 1) as -> by lia. assert (slot V x (13 + k) <> 0) as E0 by (apply Xs; lia).
    rewrite (proj2 (Z.eqb_neq _ _) E0). wp_steps. pose proof (wf_range _ _ _ F (13 + k) ltac:(unfold nslots; lia) E0).
    rewrite xint_id by lia. apply HQ; replace (fbn + 1 - (fbn + 1)) with 0 by lia; [by rewrite Z.add_0_r|]. by eapply more_none.
Qed.

Lemma need_step nb fbn : fbn <= nb <= fbn + 1 -> 12 <= fbn ->
  need (fbn + 1) - need nb = (if nb =? 12 then 1 else 0) + (fbn + 1 - nb).
Proof.
  intros. unfold need. destruct (Z.ltb_spec 12 (fbn + 1)), (Z.ltb_spec 12 nb), (Z.eqb_spec nb 12); lia.
Qed.

Lemma wp_find_block s V fb fi x nb fbn (Q : inode * Z -> mkst -> Prop) :
  making s V fb fi x nb (12 <? nb) -> 0 <= fbn < 140 -> fbn <= nb <= fbn + 1 -> fb + (need (fbn + 1) - need nb) <= 1024 ->
  (forall s' V' x', let m := need (fbn + 1) - need nb in
     making s' V' (fb + m) fi x' (fbn + 1) (12 <? fbn + 1) -> more V fb x V' m x' ->
     Q (x', slot V' x' (slot_of (Z.to_nat fbn))) s') ->
  wp (find_block x fbn) Q s.
Proof.
  intros B Hf Hnb Hroom HQ. destruct (decide (fbn < 12)) as [Hd|Hd].
  { assert (need (fbn + 1) - need nb = fbn + 1 - nb) as E
      by (unfold need; rewrite !(proj2 (Z.ltb_ge _ _)) by lia; lia).
    rewrite E in *. eapply wp_find_direct; [exact B|lia|lia|lia|]. rewrite (proj2 (Z.ltb_ge 12 (fbn + 1))) in HQ by lia. exact HQ. }
  rewrite need_step in * by lia. pose proof B as [R F Sp X Hfb]. unfold find_block.
  rewrite (proj2 (Z.ltb_ge fbn NDIRECT)) by (unfold NDIRECT; lia). change (Z.to_nat NDIRECT) with ind_slot.
  rewrite (proj2 (Z.ltb_lt 12 (fbn + 1))) in HQ by lia.
  assert (forall s' V' fb' x', making s' V' fb' fi x' nb true -> exists a, i_addrs x' !! ind_slot = Some a /\ xint a = ind x') as Hind.
  { intros s' V' fb' x' [R' F' Sp' X' Hfb']. destruct (wfile_addr _ _ _ F' ind_slot) as [Ea' Hr']; [unfold ind_slot; lia|].
    rewrite slot_ind in *. assert (ind x' <> 0) by by apply X'. eexists. split; [exact Ea'|]. apply xint_id. lia. }
  destruct (wfile_addr _ _ _ F ind_slot) as [Ea _]; [unfold ind_slot; lia|]. wp_step. eapply wp_lift_opt; [exact Ea|]. wp_step.
  pose proof (ex_ind _ _ _ _ X) as Xi. rewrite <- (slot_ind V) in Xi. eapply wp_direct; [exact F|exact Sp|lia|exact R|unfold ind_slot; lia| |].
  - intros Hi. rewrite (proj1 Xi Hi) in B. destruct (Hind _ _ _ _ B) as (a & Ea' & Ha). wp_step. eapply wp_lift_opt; [exact Ea'|].
    rewrite Ha. assert (nb <> 12) by (apply Xi in Hi; zbool; lia). rewrite (proj2 (Z.eqb_neq nb 12)) in * by done.
    eapply wp_find_entry; [exact B|lia|lia|lia|]. exact HQ.
  - intros s' x' E0 R' L. assert (~ 12 < nb) by (intros Hn; apply Xi; [by apply Z.ltb_lt|done]).
    assert (nb = 12) as -> by lia. assert (fbn = 12) as -> by lia. cbn [Z.eqb Pos.eqb] in *.
    destruct (fills_making s V fb fi x 12 false ind_slot V s' x' 12 true B ltac:(lia) ltac:(unfold ind_slot, nslots; lia) E0 L R') as [B' M'].
    { eapply (fills_exact_ind V fb); [lia|exact X|exact L]. }
    destruct (Hind _ _ _ _ B') as (a & Ea' & Ha). wp_step. eapply wp_lift_opt; [exact Ea'|]. rewrite Ha.
    eapply wp_find_entry; [exact B'|lia|lia|lia|]. intros s2 V2 x2 m2 B2 M2. apply HQ.
    + by rewrite Z.add_assoc.
    + by eapply more_trans.
Qed.

(** ** Appending *)

Lemma flat_length V fb x : spare V fb -> length (flat V x) = (BSIZE * nblocks)%nat.
Proof.
  intros Sp. unfold flat. rewrite (length_concat_blocks BSIZE), length_fmap, length_seq; [done|].
  apply blocks_len. intros. apply Sp.
Qed.

Section Store.
Context (s : mkst) (V : Z -> list Z) (fb fi : Z) (x : inode) (nb : Z) (ib : bool) (bn : nat) (d : list Z).
Context (B : making s V fb fi x nb ib) (Hbn : (bn < nblocks)%nat) (Hd : length d = BSIZE).
Let a := slot V x (slot_of bn).
Hypothesis Ha : a <> 0.

Lemma put_slot p : slot (<[a := d]> V) x p = slot V x p.
Proof.
  destruct (slot_of_lt bn Hbn) as [Hsl Hni]. unfold slot. destruct (p <? 13)%nat; [done|]. destruct (ind x =? 0); [done|].
  rewrite fn_lookup_insert_ne; [done|]. intros E. apply Hni.
  apply (wf_inj _ _ _ (mk_file _ _ _ _ _ _ _ B)); [done|unfold ind_slot, nslots; lia|by rewrite slot_ind|done].
Qed.

Lemma put_block bn' : (bn' < nblocks)%nat -> block_of (<[a := d]> V) x bn' = if decide (bn' = bn) then d else block_of V x bn'.
Proof.
  intros Hbn'. destruct (slot_of_lt bn' Hbn') as [Hsl _]. unfold block_of. rewrite put_slot. case_decide as E.
  - subst bn'. fold a. rewrite (proj2 (Z.eqb_neq _ _) Ha). by rewrite fn_lookup_insert.
  - destruct (slot V x (slot_of bn') =? 0) eqn:E0; [done|]. zbool. rewrite fn_lookup_insert_ne; [done|].
    intros E1. apply E. apply slot_of_inj.
    apply (wf_inj _ _ _ (mk_file _ _ _ _ _ _ _ B)); [done|by apply slot_of_lt|by rewrite <- E1|done].
Qed.

Lemma put_flat o c :
  (o + length c <= BSIZE)%nat -> d = splice o c (V a) -> flat (<[a := d]> V) x = splice (BSIZE * bn + o) c (flat V x).
Proof.
  intros Ho Ed. unfold flat. rewrite <- (splice_concat BSIZE _ bn o c (block_of V x bn)).
  - f_equal. apply list_eq. intros k. destruct (decide (k < nblocks)%nat) as [Hk|Hk].
    + rewrite lookup_blocks, put_block by done. case_decide as E.
      * subst k. rewrite list_lookup_insert_eq by (rewrite length_fmap, length_seq; done).
        f_equal. rewrite Ed. unfold block_of. fold a. by rewrite (proj2 (Z.eqb_neq _ _) Ha).
      * rewrite list_lookup_insert_ne by done. by rewrite lookup_blocks.
    + rewrite !lookup_ge_None_2; [done|rewrite length_insert|]; rewrite length_fmap, length_seq; lia.
  - apply blocks_len. intros. apply (mk_spare _ _ _ _ _ _ _ B).
  - by apply lookup_blocks.
  - done.
Qed.

Lemma put_making s' : mk_rep s' (<[a := d]> V) fb fi ->
  making s' (<[a := d]> V) fb fi x nb ib /\ grows V fb x (<[a := d]> V) fb x.
Proof.
  intros R'. destruct B as [R F Sp X Hfb]. destruct (slot_of_lt bn Hbn) as [Hsl _].
  pose proof (wf_range _ _ _ F _ Hsl Ha) as Hr. fold a in Hr.
  assert (wfile (<[a := d]> V) fb x) as F'.
  { destruct F as [F1 F2 F3]. constructor; [done| |].
    - intros p. rewrite put_slot. apply F2.
    - intros p q. rewrite !put_slot. apply F3. }
  assert (spare (<[a := d]> V) fb) as Sp'.
  { constructor; intros n.
    - intros Hn. rewrite fn_lookup_insert_ne by lia. by apply Sp.
    - destruct (decide (n = a)) as [->|]; [by rewrite fn_lookup_insert|]. rewrite fn_lookup_insert_ne by done. apply Sp. }
  split.
  - constructor; try done. destruct X as [X1 X2]. constructor; [|done]. intros bn'. rewrite put_slot. apply X1.
  - constructor; try done; [| |apply iw_addrs_same].
    + intros n _ Hs. rewrite fn_lookup_insert_ne; [done|]. by apply Hs.
    + intros p _. left. apply put_slot.
Qed.
End Store.

(** The blocks of data of a file of [sz] bytes. *)
Definition blocks (sz : Z) : Z := (sz + 511) / 512.

Lemma blocks_bounds sz : 512 * (blocks sz - 1) < sz <= 512 * blocks sz.
Proof. unfold blocks. pose proof (Z.div_mod (sz + 511) 512 ltac:(lia)). pose proof (Z.mod_pos_bound (sz + 511) 512 ltac:(lia)). lia. Qed.

Lemma blocks_unique sz n : 512 * (n - 1) < sz <= 512 * n -> blocks sz = n.
Proof. pose proof (blocks_bounds sz). lia. Qed.

Lemma need_mono a b : a <= b -> need a <= need b.
Proof. intros. unfold need. destruct (Z.ltb_spec 12 a), (Z.ltb_spec 12 b); lia. Qed.

Lemma wp_iappend_loop fuel s V fb fi x off p (Q : inode * Z -> mkst -> Prop) :
  let e := off + Z.of_nat (length p) in let m := need (blocks e) - need (blocks off) in
  making s V fb fi x (blocks off) (12 <? blocks off) -> 0 <= off -> e <= 71680 -> fb + m <= 1024 -> (length p < fuel)%nat ->
  (forall s' V' x', making s' V' (fb + m) fi x' (blocks e) (12 <? blocks e) -> grows V fb x V' (fb + m) x' ->
     flat V' x' = splice (Z.to_nat off) p (flat V x) -> Q (x', e) s') ->
  wp (iappend_loop fuel x off p) Q s.
Proof.
  cbv zeta. revert s V fb x off p. induction fuel as [|fuel IH]; intros s V fb x off p B Hoff Hmax Hroom Hfuel HQ; [lia|].
  cbn [iappend_loop]. destruct (Z.ltb_spec 0 (Z.of_nat (length p))) as [Hlt|Hge].
  - cbv zeta. pose proof (Z.div_mod off 512 ltac:(lia)) as Hdm. pose proof (Z.mod_pos_bound off 512 ltac:(lia)) as Hmb.
    set (fbn := off / 512) in *. set (n1 := Z.min (Z.of_nat (length p)) ((fbn + 1) * 512 - off)).
    pose proof (blocks_bounds off). pose proof (blocks_bounds (off + Z.of_nat (length p))).
    assert (blocks (off + n1) = fbn + 1) as Eb by (apply blocks_unique; lia).
    pose proof (need_mono (fbn + 1) (blocks (off + Z.of_nat (length p))) ltac:(lia)).
    unfold assert_. rewrite (proj2 (Z.ltb_lt fbn MAXFILE)) by (unfold MAXFILE, NDIRECT, NINDIRECT; cbn; lia). wp_step. wp_step.
    apply wp_bind. eapply wp_find_block; [exact B|lia|lia|lia|]. cbv zeta. intros s1 V1 x1 B1 [G1 Ef1]. cbn [fst snd].
    set (bn := Z.to_nat fbn). set (a := slot V1 x1 (slot_of bn)).
    assert (bn < nblocks)%nat as Hbn by (unfold bn, nblocks; lia). pose proof B1 as [R1 F1 Sp1 X1 Hfb1].
    assert (a <> 0) as Ha by (apply X1; unfold bn; lia).
    pose proof (wf_range _ _ _ F1 _ (proj1 (slot_of_lt bn Hbn)) Ha) as Har. fold a in Har.
    apply wp_bind. eapply wp_rsect; [exact R1|lia|]. apply wp_bind. eapply wp_wsect; [exact R1|lia|]. intros s2 R2.
    assert (length (take (Z.to_nat n1) p) = Z.to_nat n1) as Hlt1 by (rewrite length_take; lia).
    set (d := splice _ _ (V1 a)) in *.
    assert (Z.to_nat (off - fbn * 512) + length (take (Z.to_nat n1) p) <= BSIZE)%nat as Hfit by (rewrite Hlt1; unfold BSIZE; lia).
    assert (length d = BSIZE) as Hld by (unfold d; rewrite length_splice; rewrite (sp_len _ _ Sp1 a); [done|exact Hfit]).
    destruct (put_making s1 V1 _ fi x1 _ _ bn d B1 Hbn Hld Ha s2 R2) as [B2 G2]. fold a in B2, G2.
    pose proof (put_flat s1 V1 _ fi x1 _ _ bn d B1 Hbn Hld Ha _ _ Hfit eq_refl) as Ef2. fold a in Ef2.
    rewrite u32_small by lia. rewrite <- Eb in G1, B2, G2.
    assert (off + n1 + Z.of_nat (length (drop (Z.to_nat n1) p)) = off + Z.of_nat (length p)) as Ee by (rewrite length_drop; lia).
    eapply IH; [exact B2|lia|lia|rewrite Ee; lia|rewrite length_drop; lia|]. rewrite Ee.
    intros s3 V3 x3 B3 G3 Ef3.
    replace (fb + (need (blocks (off + n1)) - need (blocks off)) + (need (blocks (off + Z.of_nat (length p))) - need (blocks (off + n1))))
      with (fb + (need (blocks (off + Z.of_nat (length p))) - need (blocks off))) in B3, G3 by lia.
    eapply HQ; [exact B3|eapply grows_trans; [|exact G3]; eapply grows_trans; [exact G1|exact G2]|].
    rewrite Ef3, Ef2, Ef1. replace (BSIZE * bn + Z.to_nat (off - fbn * 512))%nat with (Z.to_nat off) by (unfold BSIZE, bn; lia).
    replace (Z.to_nat (off + n1)) with (Z.to_nat off + length (take (Z.to_nat n1) p))%nat by lia.
    rewrite splice_app_l; rewrite take_drop; [done|]. rewrite (flat_length V fb x) by apply B. unfold BSIZE, nblocks. lia.
  - wp_steps. assert (p = []) as -> by (apply nil_length_inv; lia). cbn [length Z.of_nat] in *. rewrite Z.add_0_r, Z.sub_diag, Z.add_0_r in HQ.
    eapply HQ; [exact B|apply grows_refl; apply B|]. unfold splice. simpl. by rewrite Nat.add_0_r, take_drop.
Qed.

(** ** The image while it is built *)

(** The inode of the image. *)
Definition dino (V : Z -> list Z) (n : Z) : inode :=
  load_dinode (V (IBLOCK n)) (dip_off n) (mkinode ROOTDEV n 0 0 0 0 0 0 0 []).

Definition with_ino (V : Z -> list Z) (n : Z) (y : inode) : Z -> list Z :=
  <[IBLOCK n := store_dinode (V (IBLOCK n)) (dip_off n) y]> V.

Lemma IBLOCK_meta n : 0 <= n < 200 -> 2 <= IBLOCK n < 28.
Proof. intros. unfold IBLOCK, IPB. assert (0 <= n / 8 < 26) by (split; [apply Z.div_pos|apply Z.div_lt_upper_bound]; lia). lia. Qed.

Lemma dino_with V n y m :
  0 <= n -> 0 <= m -> length (V (IBLOCK n)) = BSIZE -> inode_fits y ->
  dino (with_ino V n y) m =
    if decide (m = n) then mkinode ROOTDEV n 0 0 (i_type y) (i_major y) (i_minor y) (i_nlink y) (i_size y) (i_addrs y)
    else dino V m.
Proof.
  intros Hn Hm Hl Hy. pose proof (dip_off_fits n). unfold dino, with_ino. case_decide as E.
  - subst m. rewrite fn_lookup_insert. rewrite load_store; [done|rewrite Hl; lia|done].
  - destruct (decide (IBLOCK m = IBLOCK n)) as [Eb|Eb]; [|by rewrite fn_lookup_insert_ne by done].
    rewrite Eb, fn_lookup_insert. apply load_outside; [rewrite Hl; lia|done|].
    unfold IBLOCK, dip_off, sizeof_dinode, IPB in *. pose proof (Z.div_mod m 8). pose proof (Z.div_mod n 8).
    pose proof (Z.mod_pos_bound m 8). pose proof (Z.mod_pos_bound n 8). lia.
Qed.

(** A file keeps its blocks where they are kept. *)
Section Frame.
Context (V V' : Z -> list Z) (fb fb' : Z) (x : inode).
Context (F : wfile V fb x).
Hypothesis Hk : forall p, (p < nslots)%nat -> slot V x p <> 0 -> V' (slot V x p) = V (slot V x p).

Lemma kept_slot p : slot V' x p = slot V x p.
Proof.
  unfold slot. destruct (p <? 13)%nat; [done|]. destruct (ind x =? 0) eqn:E; [done|]. zbool.
  rewrite <- (slot_ind V), Hk; [done|unfold ind_slot, nslots; lia|done].
Qed.

Lemma kept_flat : flat V' x = flat V x.
Proof.
  unfold flat. f_equal. apply list_fmap_ext. intros k bn Hb. apply lookup_seq in Hb as [-> Hb]. cbn [Nat.add].
  unfold block_of. rewrite kept_slot. destruct (slot V x (slot_of k) =? 0) eqn:E; [done|]. zbool. apply Hk; [by apply slot_of_lt|done].
Qed.

Lemma kept_file : fb <= fb' -> wfile V' fb' x.
Proof.
  intros Hle. destruct F as [F1 F2 F3]. constructor; [done| |].
  - intros p Hp. rewrite kept_slot. intros Hz. pose proof (F2 p Hp Hz). lia.
  - intros p q. rewrite !kept_slot. apply F3.
Qed.

Lemma kept_exact nb ib : exact V x nb ib -> exact V' x nb ib.
Proof. intros [X1 X2]. constructor; [|done]. intros bn. rewrite kept_slot. apply X1. Qed.
End Frame.

(** Inode [n] is a file of type [fst f] with the bytes [snd f]. *)
Record has (V : Z -> list Z) (fb : Z) (n : Z) (f : Z * list Z) : Prop := {
  has_ino : dino V n = mkinode ROOTDEV n 0 0 (fst f) 0 0 1 (Z.of_nat (length (snd f))) (i_addrs (dino V n));
  has_file : wfile V fb (dino V n);
  has_exact : let nb := blocks (Z.of_nat (length (snd f))) in exact V (dino V n) nb (12 <? nb);
  has_flat : exists z, flat V (dino V n) = snd f ++ replicate z 0;
  has_max : 0 < fst f < 2 ^ 15 /\ Z.of_nat (length (snd f)) <= 71680 }.

Definition cost (f : Z * list Z) : Z := need (blocks (Z.of_nat (length (snd f)))).
Fixpoint total (fs : list (Z * list Z)) : Z := match fs with [] => 0 | f :: fs => cost f + total fs end.

(** The files of the image are [fs], from inode 1 on; the files own different blocks. *)
Record image (s : mkst) (V : Z -> list Z) (fs : list (Z * list Z)) : Prop := {
  im_rep : mk_rep s V (29 + total fs) (1 + Z.of_nat (length fs));
  im_spare : spare V (29 + total fs);
  im_room : 0 <= total fs <= 1024 - 29 /\ Z.of_nat (length fs) < 200;
  im_super : V 1 = super;
  im_has i f : fs !! i = Some f -> has V (29 + total fs) (1 + Z.of_nat i) f;
  im_disj i j p q : (i < length fs)%nat -> (j < length fs)%nat -> i <> j -> (p < nslots)%nat -> (q < nslots)%nat ->
    slot V (dino V (1 + Z.of_nat i)) p <> 0 ->
    slot V (dino V (1 + Z.of_nat i)) p <> slot V (dino V (1 + Z.of_nat j)) q;
  im_free n : Z.of_nat (length fs) < n < 200 -> i_type (dino V n) = 0 }.

Lemma wfile_fits V fb x ty sz :
  wfile V fb x -> fb <= 1024 -> 0 < ty < 2 ^ 15 -> 0 <= sz < 2 ^ 32 ->
  forall dv n, inode_fits (mkinode dv n 0 0 ty 0 0 1 sz (i_addrs x)).
Proof.
  intros F Hfb Ht Hs dv n. constructor; simpl; try lia. split; [apply F|]. apply list.Forall_lookup. intros p a Ha.
  pose proof (lookup_lt_Some _ _ _ Ha) as Hp. rewrite (wf_len _ _ _ F) in Hp.
  destruct (wfile_addr _ _ _ F p Hp) as [E Hr]. assert (a = slot V x p) as -> by congruence.
  destruct (decide (slot V x p = 0)); lia.
Qed.

Lemma wp_winode s V fb fi n y (Q : unit -> mkst -> Prop) :
  mk_rep s V fb fi -> 0 <= n < 200 -> (forall s', mk_rep s' (with_ino V n y) fb fi -> Q tt s') -> wp (winode n y) Q s.
Proof.
  intros R Hn HQ. pose proof (IBLOCK_meta n Hn). unfold winode. change (i2b n) with (IBLOCK n).
  apply wp_bind. eapply wp_rsect; [exact R|lia|]. eapply wp_wsect; [exact R|lia|]. exact HQ.
Qed.

Lemma wp_rinode s V fb fi n (Q : inode -> mkst -> Prop) :
  mk_rep s V fb fi -> 0 <= n < 200 -> Q (dino V n) s -> wp (rinode n) Q s.
Proof.
  intros R Hn HQ. pose proof (IBLOCK_meta n Hn). unfold rinode. change (i2b n) with (IBLOCK n).
  apply wp_bind. eapply wp_rsect; [exact R|lia|]. apply wp_ret. exact HQ.
Qed.

Lemma costs_insert fs i f f' : fs !! i = Some f -> total (<[i := f']> fs) = total fs - cost f + cost f'.
Proof.
  revert i. induction fs as [|g fs IH]; intros [|i] Hi; try done.
  - injection Hi as ->. cbn. lia.
  - change (cost g + total (<[i := f']> fs) = cost g + total fs - cost f + cost f'). rewrite (IH i Hi). lia.
Qed.

(** File [i] grew to [x1], which was written back with the size of the bytes [c']. *)
Section Appended.
Context (s : mkst) (V : Z -> list Z) (fs : list (Z * list Z)) (i : nat) (ty : Z) (c c' : list Z).
Context (Im : image s V fs) (Hi : fs !! i = Some (ty, c)).
Let n := 1 + Z.of_nat i.
Let x := dino V n.
Context (V1 : Z -> list Z) (x1 : inode).
Let fs' := <[i := (ty, c')]> fs.
Let fb1 := 29 + total fs'.
Hypothesis G : grows V (29 + total fs) x V1 fb1 x1.
Hypothesis Hroom : 0 <= total fs' <= 1024 - 29.
Let y := iw_size (Z.of_nat (length c')) x1.
Let V2 := with_ino V1 n y.
Hypothesis Hmax : Z.of_nat (length c') <= 71680.

Lemma ap_range : 0 <= n < 200 /\ (i < length fs)%nat.
Proof. pose proof (im_room _ _ _ Im). apply lookup_lt_Some in Hi. unfold n. lia. Qed.

Lemma ap_y : y = mkinode ROOTDEV n 0 0 ty 0 0 1 (Z.of_nat (length c')) (i_addrs x1) /\ inode_fits y.
Proof.
  pose proof (im_has _ _ _ Im i _ Hi) as [H1 H2 H3 H4 [H5 H6]]. cbn [fst snd] in *. fold n x in H1.
  assert (y = mkinode ROOTDEV n 0 0 ty 0 0 1 (Z.of_nat (length c')) (i_addrs x1)) as E.
  { unfold y. rewrite (gr_ino _ _ _ _ _ _ G), H1. done. }
  split; [done|]. rewrite E. eapply wfile_fits; [apply G|unfold fb1|..]; lia.
Qed.

Lemma ap_meta k : 0 < k < 29 -> V1 k = V k.
Proof.
  intros Hk. apply (gr_keep _ _ _ _ _ _ G); [pose proof (im_room _ _ _ Im); lia|]. intros p Hp E.
  pose proof (wf_range _ _ _ (has_file _ _ _ _ (im_has _ _ _ Im i _ Hi)) p Hp). fold n x in H. lia.
Qed.

Lemma ap_spare : spare V2 fb1.
Proof.
  destruct ap_range as [Hn _]. pose proof (IBLOCK_meta n Hn). destruct (gr_spare _ _ _ _ _ _ G) as [S1 S2]. unfold V2, with_ino. constructor; intros k.
  - intros Hk. rewrite fn_lookup_insert_ne by (unfold fb1 in Hk; lia). by apply S1.
  - destruct (decide (k = IBLOCK n)) as [->|]; [|by rewrite fn_lookup_insert_ne].
    rewrite fn_lookup_insert, length_store; [apply S2|rewrite S2; apply dip_off_fits|apply ap_y].
Qed.

Lemma ap_dino m : 0 < m < 200 -> dino V2 m = if decide (m = n) then y else dino V m.
Proof.
  intros Hm. destruct ap_range as [Hn _]. destruct ap_y as [Ey Hy].
  unfold V2. rewrite dino_with; [|lia|lia|apply (gr_spare _ _ _ _ _ _ G)|exact Hy]. case_decide; [by rewrite Ey|].
  unfold dino. rewrite ap_meta; [done|]. pose proof (IBLOCK_meta m). lia.
Qed.

Lemma ap_data k : 29 <= k -> V2 k = V1 k.
Proof. intros Hk. destruct ap_range as [Hn _]. pose proof (IBLOCK_meta n Hn). unfold V2, with_ino. by rewrite fn_lookup_insert_ne by lia. Qed.

Lemma ap_kept_new p : (p < nslots)%nat -> slot V1 x1 p <> 0 -> V2 (slot V1 x1 p) = V1 (slot V1 x1 p).
Proof. intros Hp Hz. apply ap_data. pose proof (wf_range _ _ _ (gr_file _ _ _ _ _ _ G) p Hp Hz). lia. Qed.

Lemma ap_kept_other j p :
  j <> i -> (j < length fs)%nat -> (p < nslots)%nat -> let z := slot V (dino V (1 + Z.of_nat j)) p in z <> 0 -> V2 z = V z.
Proof.
  intros Hj Hl Hp z Hz. destruct (lookup_lt_is_Some_2 fs j Hl) as [f Hf].
  pose proof (wf_range _ _ _ (has_file _ _ _ _ (im_has _ _ _ Im j _ Hf)) p Hp Hz) as Hr. fold z in Hr.
  rewrite ap_data by lia. apply (gr_keep _ _ _ _ _ _ G); [lia|]. intros q Hq E.
  apply (im_disj _ _ _ Im j i p q Hl (proj2 ap_range) Hj Hp Hq Hz). done.
Qed.

Lemma ap_has j f : fs' !! j = Some f ->
  exact V1 x1 (blocks (Z.of_nat (length c'))) (12 <? blocks (Z.of_nat (length c'))) ->
  (exists z, flat V1 x1 = c' ++ replicate z 0) -> has V2 fb1 (1 + Z.of_nat j) f.
Proof.
  intros Hj X [z Ef]. destruct ap_range as [Hn Hil]. pose proof (lookup_lt_Some _ _ _ Hj) as Hjl. unfold fs' in Hjl. rewrite length_insert in Hjl.
  pose proof (im_room _ _ _ Im) as [_ Hlen]. destruct ap_y as [Ey _]. destruct (decide (j = i)) as [->|Hne].
  - unfold fs' in Hj. rewrite list_lookup_insert_eq in Hj by done. injection Hj as <-. fold n.
    pose proof (ap_dino n ltac:(unfold n; lia)) as Ed. rewrite decide_True in Ed by done. constructor; cbn [fst snd]; rewrite ?Ed.
    + exact Ey.
    + destruct (kept_file V1 V2 fb1 fb1 x1 (gr_file _ _ _ _ _ _ G) ap_kept_new (Z.le_refl _)) as [A1 A2 A3]. by constructor.
    + destruct (kept_exact V1 V2 x1 ap_kept_new _ _ X) as [A1 A2]. by constructor.
    + exists z. rewrite <- Ef. exact (kept_flat V1 V2 x1 ap_kept_new).
    + split; [|done]. apply (has_max _ _ _ _ (im_has _ _ _ Im i _ Hi)).
  - unfold fs' in Hj. rewrite list_lookup_insert_ne in Hj by done. destruct (im_has _ _ _ Im j _ Hj) as [H1 H2 H3 H4 H5].
    assert (Hk := fun p => ap_kept_other j p Hne Hjl).
    pose proof (ap_dino (1 + Z.of_nat j) ltac:(lia)) as Ed. rewrite decide_False in Ed by (unfold n; lia). constructor; rewrite ?Ed; try done.
    + eapply kept_file; [exact H2|exact Hk|apply G].
    + by eapply kept_exact.
    + destruct H4 as [z' E']. exists z'. rewrite <- E'. by apply kept_flat.
Qed.

Lemma ap_slot j p : (j < length fs)%nat -> (p < nslots)%nat ->
  slot V2 (dino V2 (1 + Z.of_nat j)) p =
    if decide (j = i) then slot V1 x1 p else slot V (dino V (1 + Z.of_nat j)) p.
Proof.
  intros Hjl Hp. pose proof (im_room _ _ _ Im) as [_ Hlen]. rewrite ap_dino by lia. case_decide as E; case_decide as E'.
  - exact (kept_slot V1 V2 x1 ap_kept_new p).
  - unfold n in E. lia.
  - unfold n in E. subst. done.
  - apply kept_slot. intros q. by apply ap_kept_other.
Qed.

Lemma ap_disj j k p q : (j < length fs)%nat -> (k < length fs)%nat -> j <> k -> (p < nslots)%nat -> (q < nslots)%nat ->
  slot V2 (dino V2 (1 + Z.of_nat j)) p <> 0 ->
  slot V2 (dino V2 (1 + Z.of_nat j)) p <> slot V2 (dino V2 (1 + Z.of_nat k)) q.
Proof.
  intros Hj Hk Hne Hp Hq. rewrite !ap_slot by done.
  assert (forall l r, (l < length fs)%nat -> (r < nslots)%nat -> slot V (dino V (1 + Z.of_nat l)) r <> 0 ->
    29 <= slot V (dino V (1 + Z.of_nat l)) r < 29 + total fs) as Hr.
  { intros l r Hl Hrr. destruct (lookup_lt_is_Some_2 fs l Hl) as [f Hf]. by apply (has_file _ _ _ _ (im_has _ _ _ Im l _ Hf)). }
  pose proof (im_room _ _ _ Im) as [? _].
  case_decide as E; case_decide as E'; try congruence; intros Hz.
  - subst j. destruct (gr_slot _ _ _ _ _ _ G p Hp) as [Es|Es].
    + rewrite Es in *. by apply (im_disj _ _ _ Im).
    + intros Ez. specialize (Hr k q Hk Hq). lia.
  - subst k. specialize (Hr j p Hj Hp Hz). destruct (gr_slot _ _ _ _ _ _ G q Hq) as [Es|Es]; [|lia].
    rewrite Es. by apply (im_disj _ _ _ Im).
  - by apply (im_disj _ _ _ Im).
Qed.

Lemma ap_image s2 :
  mk_rep s2 V2 fb1 (1 + Z.of_nat (length fs)) ->
  exact V1 x1 (blocks (Z.of_nat (length c'))) (12 <? blocks (Z.of_nat (length c'))) ->
  (exists z, flat V1 x1 = c' ++ replicate z 0) -> image s2 V2 fs'.
Proof.
  intros R2 X Ef. pose proof (im_room _ _ _ Im) as [_ Hlen]. destruct ap_range as [Hn Hil].
  assert (length fs' = length fs) as El by apply length_insert. constructor; rewrite ?El.
  - exact R2.
  - apply ap_spare.
  - done.
  - unfold V2, with_ino. pose proof (IBLOCK_meta n Hn). rewrite fn_lookup_insert_ne, ap_meta by lia. apply Im.
  - intros j f Hj. by apply ap_has.
  - apply ap_disj.
  - intros m Hm. rewrite ap_dino by lia. rewrite decide_False by (unfold n; lia). by apply Im.
Qed.
End Appended.

Lemma wp_iappend s V fs i ty c xp :
  image s V fs -> fs !! i = Some (ty, c) -> let fs' := <[i := (ty, c ++ xp)]> fs in
  total fs' <= 1024 - 29 -> Z.of_nat (length (c ++ xp)) <= 71680 ->
  wp (iappend (1 + Z.of_nat i) xp) (fun _ s' => exists V', image s' V' fs') s.
Proof.
  intros Im Hi fs' Hroom Hmax. pose proof (lookup_lt_Some _ _ _ Hi) as Hil.
  assert (0 <= 1 + Z.of_nat i < 200) as Hn by (pose proof (im_room _ _ _ Im); lia). set (n := 1 + Z.of_nat i) in *.
  pose proof (im_has _ _ _ Im i _ Hi) as [H1 H2 H3 H4 [H5 H6]]. fold n in H1, H2, H3, H4. cbn [fst snd] in *.
  pose proof (im_rep _ _ _ Im) as R. pose proof (im_room _ _ _ Im) as [Hr0 Hlen].
  unfold iappend. apply wp_bind. eapply wp_rinode; [exact R|exact Hn|]. apply wp_bind.
  rewrite length_app in Hmax.
  assert (i_size (dino V n) = Z.of_nat (length c)) as -> by by rewrite H1. rewrite xint_id by lia.
  assert (total fs' = total fs + (need (blocks (Z.of_nat (length c) + Z.of_nat (length xp))) - need (blocks (Z.of_nat (length c))))) as Et.
  { unfold fs'. rewrite (costs_insert _ _ _ _ Hi). unfold cost. cbn [snd]. rewrite length_app, Nat2Z.inj_add. lia. }
  pose proof (blocks_bounds (Z.of_nat (length c))). pose proof (blocks_bounds (Z.of_nat (length c) + Z.of_nat (length xp))).
  pose proof (need_mono (blocks (Z.of_nat (length c))) (blocks (Z.of_nat (length c) + Z.of_nat (length xp))) ltac:(lia)).
  eapply wp_iappend_loop; [constructor; [exact R|exact H2|apply Im|exact H3|lia]|lia|lia|lia|lia|].
  rewrite <- Z.add_assoc, <- Et. intros s1 V1 x1 [R1 F1 Sp1 X1 Hfb1] G1 Ef1. cbn [fst snd].
  rewrite xint_id by lia. eapply wp_winode; [exact R1|exact Hn|]. intros s2 R2. eexists.
  rewrite <- Nat2Z.inj_add, <- length_app in *.
  eapply (ap_image s V fs i ty c (c ++ xp) Im Hi V1 x1 G1); [fold fs'; lia|exact Hmax|exact R2|exact X1|].
  destruct H4 as [z Ez]. rewrite Ef1, Ez, Nat2Z.id. exists (z - length xp)%nat. unfold splice.
  rewrite take_app_length. rewrite drop_app_ge by lia. rewrite <- app_assoc. do 2 f_equal.
  rewrite drop_replicate. f_equal. lia.
Qed.

(** ** A new inode *)

Lemma empty_slot V dv n ty p : slot V (mkinode dv n 0 0 ty 0 0 1 0 (replicate 13 0)) p = 0.
Proof.
  assert (forall k, default 0 (replicate 13 0 !! k) = 0) as E.
  { intros k. destruct (decide (k < 13)%nat); [by rewrite lookup_replicate_2|]. rewrite lookup_ge_None_2; [done|]. rewrite length_replicate. lia. }
  unfold slot, ind. cbn [i_addrs]. rewrite !E. by destruct (p <? 13)%nat.
Qed.

Lemma empty_flat V x : (forall p, slot V x p = 0) -> flat V x = replicate (BSIZE * nblocks) 0.
Proof.
  intros Hs. unfold flat. assert (forall l, concat (block_of V x <$> l) = replicate (BSIZE * length l) 0) as E.
  { induction l as [|k l IH]; [by rewrite Nat.mul_0_r|]. cbn [fmap list_fmap concat length]. rewrite IH. unfold block_of. rewrite Hs. cbn [Z.eqb].
    unfold zeros. rewrite <- replicate_add. f_equal. lia. }
  rewrite E, length_seq. done.
Qed.

Lemma costs_app fs1 fs2 : total (fs1 ++ fs2) = total fs1 + total fs2.
Proof. induction fs1 as [|f fs1 IH]; [done|]. cbn [app total]. lia. Qed.

Section Allocated.
Context (s : mkst) (V : Z -> list Z) (fs : list (Z * list Z)) (ty : Z).
Context (Im : image s V fs) (Hty : 0 < ty < 2 ^ 15) (Hlen : Z.of_nat (length fs) < 199).
Let n := 1 + Z.of_nat (length fs).
Let y := mkinode 0 0 0 0 ty 0 0 1 0 (replicate 13 0).
Let V' := with_ino V n y.

Lemma al_dino m : 0 <= m -> dino V' m = if decide (m = n) then mkinode ROOTDEV n 0 0 ty 0 0 1 0 (replicate 13 0) else dino V m.
Proof.
  intros Hm. unfold V'. rewrite dino_with; [done|unfold n; lia|lia|apply (im_spare _ _ _ Im)|].
  constructor; simpl; try lia. split; [done|]. repeat constructor; lia.
Qed.

Lemma al_kept i p : (i < length fs)%nat -> (p < nslots)%nat ->
  let z := slot V (dino V (1 + Z.of_nat i)) p in z <> 0 -> V' z = V z.
Proof.
  intros Hi Hp z Hz. destruct (lookup_lt_is_Some_2 fs i Hi) as [f Hf].
  pose proof (wf_range _ _ _ (has_file _ _ _ _ (im_has _ _ _ Im i _ Hf)) p Hp Hz) as Hr. fold z in Hr.
  pose proof (IBLOCK_meta n ltac:(unfold n; lia)). unfold V', with_ino. by rewrite fn_lookup_insert_ne by lia.
Qed.

Lemma al_slot i p : (i < S (length fs))%nat ->
  slot V' (dino V' (1 + Z.of_nat i)) p = if decide (i = length fs) then 0 else slot V (dino V (1 + Z.of_nat i)) p.
Proof.
  intros Hi. rewrite al_dino by lia. case_decide as E; case_decide as E'; unfold n in E; try lia.
  - apply empty_slot.
  - apply kept_slot. intros q. apply al_kept. lia.
Qed.

Lemma al_new : has V' (29 + total fs) n (ty, []).
Proof.
  assert (dino V' n = mkinode ROOTDEV n 0 0 ty 0 0 1 0 (replicate 13 0)) as Ed.
  { rewrite al_dino by (unfold n; lia). by rewrite decide_True. }
  assert (forall p, slot V' (dino V' n) p = 0) as Es by (intros p; rewrite Ed; apply empty_slot).
  constructor; cbn [fst snd length Z.of_nat].
  - by rewrite Ed.
  - constructor; [by rewrite Ed| |]; intros p; intros; by rewrite Es in *.
  - constructor.
    + intros bn _. rewrite Es. split; [done|]. intros Hb. change (Z.of_nat bn < 0) in Hb. lia.
    + by rewrite <- (slot_ind V'), Es.
  - eexists. cbn [app]. by apply empty_flat.
  - split; [done|lia].
Qed.

Lemma al_old i f : fs !! i = Some f -> has V' (29 + total fs) (1 + Z.of_nat i) f.
Proof.
  intros Hf. pose proof (lookup_lt_Some _ _ _ Hf) as Hi. destruct (im_has _ _ _ Im i _ Hf) as [H1 H2 H3 H4 H5].
  assert (Hk := fun p => al_kept i p Hi).
  assert (dino V' (1 + Z.of_nat i) = dino V (1 + Z.of_nat i)) as Ed by (rewrite al_dino, decide_False by (unfold n; lia); done).
  constructor; rewrite ?Ed; try done.
  - eapply kept_file; [exact H2|exact Hk|lia].
  - by eapply kept_exact.
  - destruct H4 as [z E']. exists z. rewrite <- E'. by apply kept_flat.
Qed.

Lemma al_image s' : mk_rep s' V' (29 + total fs) (1 + n) -> image s' V' (fs ++ [(ty, [])]).
Proof.
  intros R. assert (total (fs ++ [(ty, [])]) = total fs) as Et by (rewrite costs_app; change (total [(ty, [])]) with 0; lia).
  assert (length (fs ++ [(ty, [])]) = S (length fs)) as El by (rewrite length_app; simpl; lia).
  pose proof (im_room _ _ _ Im) as [Hroom _]. pose proof (IBLOCK_meta n ltac:(unfold n; lia)) as Hb.
  constructor; rewrite ?Et, ?El.
  - replace (1 + Z.of_nat (S (length fs))) with (1 + n) by (unfold n; lia). exact R.
  - destruct (im_spare _ _ _ Im) as [S1 S2]. unfold V', with_ino. constructor; intros k.
    + intros Hk. rewrite fn_lookup_insert_ne by lia. by apply S1.
    + destruct (decide (k = IBLOCK n)) as [->|]; [|by rewrite fn_lookup_insert_ne].
      rewrite fn_lookup_insert, length_store; [apply S2|rewrite S2; apply dip_off_fits|].
      constructor; simpl; try lia. split; [done|]. repeat constructor; lia.
  - lia.
  - unfold V', with_ino. rewrite fn_lookup_insert_ne by lia. apply Im.
  - intros i f. rewrite lookup_app_Some. intros [Hf|[Hi Hf]]; [by apply al_old|].
    apply list_lookup_singleton_Some in Hf as [E <-]. replace i with (length fs) by lia. apply al_new.
  - intros i j p q Hi Hj Hij Hp Hq. rewrite !al_slot by done. case_decide; [done|]. intros Hz.
    case_decide; [done|]. apply (im_disj _ _ _ Im); try done; lia.
  - intros m Hm. rewrite al_dino by lia. rewrite decide_False by (unfold n; lia). apply Im. lia.
Qed.
End Allocated.

Lemma wp_ialloc s V fs ty :
  image s V fs -> 0 < ty < 2 ^ 15 -> Z.of_nat (length fs) < 199 ->
  wp (ialloc ty) (fun n s' => n = 1 + Z.of_nat (length fs) /\ exists V', image s' V' (fs ++ [(ty, [])])) s.
Proof.
  intros Im Hty Hlen. destruct (im_rep _ _ _ Im) as [R1 R2 R3 R4 R5]. unfold ialloc, set_freeinode. wp_steps. rewrite R5, u32_small by lia.
  eapply wp_winode; [|lia|].
  - constructor; cbn [img freeblock usedblocks freeinode]; [exact R1|exact R2|exact R3|exact R4|reflexivity].
  - intros s' R. wp_steps. split; [done|]. eexists. apply (al_image s); try done.
    change (xshort 1) with 1 in R. change (xint 0) with 0 in R. rewrite xshort_id in R by lia.
    replace (1 + (1 + Z.of_nat (length fs))) with (1 + Z.of_nat (length fs) + 1) by lia. exact R.
Qed.

(** ** The files *)

Definition entry (k : nat) (f : input) : list Z :=
  entry_bytes (2 + Z.of_nat k) (padded (skip_underscore (in_name f))).

(** The bytes of the root directory, and the files of the image. *)
Definition entries (files : list input) : list Z :=
  entry_bytes 1 dot_name ++ entry_bytes 1 dotdot_name ++ concat (imap entry files).

Definition tree (files : list input) : list (Z * list Z) :=
  (T_DIR, entries files) :: ((fun f => (T_FILE, concat (in_reads f))) <$> files).

Record good (f : input) : Prop := {
  gd_slash : slash ∉ in_name f;
  gd_name : Str.readable DIRSIZ (skip_underscore (in_name f));
  gd_size : Z.of_nat (length (concat (in_reads f))) <= 71680 }.

Lemma length_entry k f : length (entry k f) = 16%nat.
Proof. unfold entry, entry_bytes, dirent_bytes. rewrite length_app, length_to_le. cbn [de_name]. by rewrite length_padded. Qed.

Lemma length_entries files : length (entries files) = (16 * (2 + length files))%nat.
Proof.
  unfold entries. rewrite !length_app. rewrite (length_concat_blocks 16), length_imap; [cbn; lia|].
  apply list.Forall_forall. intros b Hb. apply elem_of_lookup_imap in Hb as (k & f & -> & _). apply length_entry.
Qed.

Lemma entries_snoc files f : entries (files ++ [f]) = entries files ++ entry (length files) f.
Proof. unfold entries. rewrite imap_app, concat_app. cbn [imap concat]. by rewrite Nat.add_0_r, app_nil_r, !app_assoc. Qed.

Lemma tree_snoc files f : tree (files ++ [f]) = <[0%nat := (T_DIR, entries files ++ entry (length files) f)]>
  (<[length (tree files) := (T_FILE, concat (in_reads f))]> (tree files ++ [(T_FILE, [])])).
Proof.
  rewrite insert_app_r_alt by lia. rewrite Nat.sub_diag. unfold tree. rewrite fmap_app, entries_snoc. done.
Qed.

Lemma cost_mono ty a b : cost (ty, a) <= cost (ty, a ++ b).
Proof.
  unfold cost. cbn [snd]. apply need_mono. rewrite length_app.
  pose proof (blocks_bounds (Z.of_nat (length a))). pose proof (blocks_bounds (Z.of_nat (length a + length b))). lia.
Qed.

Lemma cost_nonneg f : 0 <= cost f.
Proof. destruct f as [ty c]. pose proof (cost_mono ty [] c) as H. exact H. Qed.

Lemma costs_nonneg fs : 0 <= total fs.
Proof. induction fs as [|f fs IH]; cbn [total]; [lia|]. pose proof (cost_nonneg f). lia. Qed.

Lemma total_prefix files k : total (tree (take k files)) <= total (tree files).
Proof.
  rewrite <- (take_drop k files) at 2. unfold tree. cbn [total]. rewrite fmap_app, costs_app.
  pose proof (costs_nonneg ((fun f => (T_FILE, concat (in_reads f))) <$> drop k files)).
  assert (exists b, entries (take k files ++ drop k files) = entries (take k files) ++ b) as [b ->].
  { unfold entries. rewrite imap_app, concat_app. eexists. rewrite <- !app_assoc. reflexivity. }
  pose proof (cost_mono T_DIR (entries (take k files)) b). lia.
Qed.

Lemma wp_appends reads s V fs i ty c :
  image s V fs -> fs !! i = Some (ty, c) -> let fs' := <[i := (ty, c ++ concat reads)]> fs in
  total fs' <= 1024 - 29 -> Z.of_nat (length (c ++ concat reads)) <= 71680 ->
  wp (forM reads (iappend (1 + Z.of_nat i))) (fun _ s' => exists V', image s' V' fs') s.
Proof.
  cbv zeta. revert s V fs c. induction reads as [|r reads IH]; intros s V fs c Im Hi Hroom Hmax; cbn [forM concat] in *.
  - wp_steps. exists V. rewrite app_nil_r, list_insert_id by done. exact Im.
  - rewrite app_assoc in *. assert (i < length fs)%nat as Hil by by eapply lookup_lt_Some.
    rewrite (costs_insert _ _ _ _ Hi) in Hroom. pose proof (cost_mono ty (c ++ r) (concat reads)).
    apply wp_bind. eapply wp_mono; [eapply wp_iappend; [exact Im|exact Hi|rewrite (costs_insert _ _ _ _ Hi); lia|]|].
    { rewrite (length_app (c ++ r)) in Hmax. lia. }
    cbn beta. intros _ s1 [V1 Im1]. eapply wp_mono.
    + eapply (IH s1 V1 _ (c ++ r)); [exact Im1|by apply list_lookup_insert_eq| |exact Hmax].
      rewrite list_insert_insert_eq, (costs_insert _ _ _ _ Hi). lia.
    + cbn beta. intros _ s2 [V2 Im2]. exists V2. by rewrite list_insert_insert_eq in Im2.
Qed.

Lemma wp_add_file s V files f :
  image s V (tree files) -> good f -> total (tree (files ++ [f])) <= 1024 - 29 -> (length files < 198)%nat ->
  wp (add_file ROOTINO f) (fun _ s' => exists V', image s' V' (tree (files ++ [f]))) s.
Proof.
  intros Im [G1 G2 G3] Hroom Hlen. assert (length (tree files) = S (length files)) as El by (unfold tree; cbn; by rewrite length_fmap).
  pose proof (length_entries files) as Hle. pose proof (length_entry (length files) f) as Hl1.
  unfold add_file, assert_. rewrite bool_decide_eq_false_2 by done. cbn [negb]. wp_step. wp_step. cbv zeta.
  apply wp_bind. eapply wp_mono; [eapply wp_ialloc; [exact Im|unfold T_FILE; lia|lia]|]. cbn beta. intros n s1 (-> & V1 & Im1).
  wp_step. eapply wp_lift_opt; [by apply strncpy_padded|].
  replace (1 + Z.of_nat (length (tree files))) with (2 + Z.of_nat (length files)) by lia. fold (entry (length files) f).
  rewrite tree_snoc in Hroom |- *. set (fs1 := tree files ++ [(T_FILE, [])]) in *.
  assert (fs1 !! 0%nat = Some (T_DIR, entries files)) as H0 by done.
  assert (fs1 !! length (tree files) = Some (T_FILE, [])) as Hn by (unfold fs1; by rewrite list_lookup_middle).
  rewrite list_insert_insert_ne in Hroom |- * by lia. set (fs2 := <[0%nat := _]> fs1) in *.
  assert (fs2 !! length (tree files) = Some (T_FILE, [])) as Hn2 by (unfold fs2; rewrite list_lookup_insert_ne by lia; done).
  pose proof (costs_insert fs2 _ _ (T_FILE, concat (in_reads f)) Hn2) as Et. pose proof (cost_mono T_FILE [] (concat (in_reads f))) as Hc. cbn [app] in Hc.
  apply wp_bind. change ROOTINO with (1 + Z.of_nat 0). eapply wp_mono; [eapply wp_iappend; [exact Im1|exact H0| |]|].
  - fold fs2. lia.
  - rewrite length_app. lia.
  - cbn beta. fold fs2. intros _ s2 [V2 Im2].
    replace (2 + Z.of_nat (length files)) with (1 + Z.of_nat (length (tree files))) by lia.
    eapply (wp_appends (in_reads f) s2 V2 fs2 _ T_FILE []); [exact Im2|exact Hn2|exact Hroom|exact G3].
Qed.

(** The sectors of zeros, then the super block. *)
Lemma wp_zeroes k s :
  img s = [] ->
  wp (forM (seq 0 k) (fun i => wsect (Z.of_nat i) (replicate 512 0)))
    (fun _ s' => s' = mkmk (replicate k zeros) (freeblock s) (usedblocks s) (freeinode s)) s.
Proof.
  intros E. eapply wp_mono.
  - apply (wp_forM _ _ (fun k s' => s' = mkmk (replicate k zeros) (freeblock s) (usedblocks s) (freeinode s))).
    + destruct s. cbn in E. by subst.
    + intros i a s' Ha ->. apply lookup_seq in Ha as [-> _]. cbn [Nat.add]. unfold wsect, set_img. wp_steps.
      cbn [img freeblock usedblocks freeinode]. rewrite length_replicate, Nat2Z.id. replace (S i - i)%nat with 1%nat by lia.
      f_equal. rewrite insert_app_r_alt by (by rewrite length_replicate). rewrite length_replicate, Nat.sub_diag.
      symmetry. apply (replicate_S_end i zeros).
  - cbn beta. intros _ s' ->. by rewrite length_seq.
Qed.

Lemma wp_super f u n :
  wp (wsect 1 super) (fun _ s' => s' = mkmk (<[Z.to_nat 1 := super]> (replicate (Z.to_nat 1024) zeros)) f u n)
    (mkmk (replicate (Z.to_nat 1024) zeros) f u n).
Proof.
  unfold wsect, set_img. wp_steps. cbn [img freeblock usedblocks freeinode]. rewrite length_replicate.
  replace (S (Z.to_nat 1) - Z.to_nat 1024)%nat with 0%nat by lia. by rewrite app_nil_r.
Qed.

Lemma image_empty : image (mkmk (<[Z.to_nat 1 := super]> (replicate (Z.to_nat 1024) zeros)) 29 29 1) (<[1 := super]> (fun _ => zeros)) [].
Proof.
  assert (forall n, length (<[1 := super]> (fun _ : Z => zeros) n) = BSIZE) as Hl.
  { intros n. destruct (decide (n = 1)) as [->|]; [by rewrite fn_lookup_insert|]. by rewrite fn_lookup_insert_ne. }
  constructor; cbn [total length]; try done.
  - constructor; try done; cbn [img]. intros n Hn. destruct (decide (n = 1)) as [->|].
    + rewrite fn_lookup_insert. apply list_lookup_insert_eq. rewrite length_replicate. lia.
    + rewrite fn_lookup_insert_ne by done. rewrite list_lookup_insert_ne by lia. apply lookup_replicate_2. lia.
  - constructor; [|exact Hl]. intros n Hn. by rewrite fn_lookup_insert_ne by lia.
  - lia.
  - intros n Hn. unfold dino. pose proof (IBLOCK_meta n ltac:(lia)). rewrite fn_lookup_insert_ne by lia.
    unfold load_dinode. cbn [i_type]. unfold get16, slice, zeros. rewrite drop_replicate, take_replicate.
    pose proof (dip_off_fits n). rewrite Nat.min_l by lia. done.
Qed.

(** ** The bitmap and the size of the root directory *)

Lemma bit_set_bits k j : (k <= 4096)%nat -> bit (set_bits k) j = bool_decide (j < k)%nat /\ length (set_bits k) = BSIZE.
Proof.
  induction k as [|k IH]; intros Hk.
  - split; [|done]. rewrite bool_decide_eq_false_2 by lia. cbn [set_bits]. unfold bit.
    destruct (decide (j / 8 < 512)%nat); [by rewrite lookup_replicate_2, Z.testbit_0_l by done|].
    rewrite lookup_ge_None_2, Z.testbit_0_l; [done|]. rewrite length_replicate. lia.
  - destruct IH as [IH1 IH2]; [lia|]. change (set_bits (S k)) with (set_bit (set_bits k) k).
    split; [|unfold set_bit; by rewrite length_alter]. rewrite bit_set, IH1.
    + destruct (decide (k = j)) as [->|]; [rewrite (bool_decide_eq_true_2 (j = j)) by done; symmetry; apply bool_decide_eq_true_2; lia|].
      rewrite (bool_decide_eq_false_2 (k = j)) by done. apply bool_decide_ext. lia.
    + rewrite IH2. apply Nat.Div0.div_lt_upper_bound. unfold BSIZE. lia.
Qed.

Definition mkfs_sb : superblock := mksb 1024 965 200 30.

Definition rounded (sz : Z) : Z := (sz / 512 + 1) * 512.

Lemma rounded_bounds sz : 0 <= sz < 71680 -> 0 <= rounded sz <= 71680.
Proof.
  intros. unfold rounded. assert (0 <= sz / 512 < 140) by (split; [apply Z.div_pos|apply Z.div_lt_upper_bound]; lia). lia.
Qed.

(** The files of the finished image: the root directory has its size rounded. *)
Section Finished.
Context (s : mkst) (V : Z -> list Z) (fs : list (Z * list Z)) (c : list Z).
Context (Im : image s V fs) (Hroot : fs !! 0%nat = Some (T_DIR, c)).
Hypothesis Hroom : total fs <= 994 - 29.
Hypothesis Hc : Z.of_nat (length c) < 71680.
Let fb := 29 + total fs.
Let y := iw_size (rounded (Z.of_nat (length c))) (dino V 1).
Let V' := <[28 := set_bits (Z.to_nat fb)]> (with_ino V 1 y).

Lemma fin_y : y = mkinode ROOTDEV 1 0 0 T_DIR 0 0 1 (rounded (Z.of_nat (length c))) (i_addrs (dino V 1)) /\ inode_fits y.
Proof.
  pose proof (im_has _ _ _ Im 0%nat _ Hroot) as [H1 H2 _ _ _]. change (1 + Z.of_nat 0) with 1 in H1, H2. cbn [fst snd] in H1.
  assert (y = mkinode ROOTDEV 1 0 0 T_DIR 0 0 1 (rounded (Z.of_nat (length c))) (i_addrs (dino V 1))) as E by (unfold y; by rewrite H1).
  split; [done|]. rewrite E. pose proof (rounded_bounds (Z.of_nat (length c)) ltac:(lia)). eapply wfile_fits; [exact H2|unfold T_DIR..]; lia.
Qed.

Lemma fin_dino n : 0 <= n < 200 -> dino V' n = if decide (n = 1) then y else dino V n.
Proof.
  intros Hn. destruct fin_y as [Ey Hy]. transitivity (dino (with_ino V 1 y) n).
  { unfold dino, V'. pose proof (IBLOCK_meta n Hn). by rewrite fn_lookup_insert_ne by lia. }
  rewrite dino_with; [|lia|lia|apply (im_spare _ _ _ Im)|exact Hy]. by rewrite Ey.
Qed.

Lemma fin_data k : 29 <= k -> V' k = V k.
Proof. intros Hk. unfold V', with_ino. by rewrite !fn_lookup_insert_ne by (try change (IBLOCK 1) with 2; lia). Qed.

Lemma fin_used b : 0 <= b < 1024 -> used V' mkfs_sb b = bool_decide (b < fb).
Proof.
  intros Hb. unfold used, mkfs_sb, BBLOCK, bit_of, BPB, IPB. cbn [sb_ninodes]. rewrite Z.div_small, Z.mod_small by lia.
  change (0 + 200 / 8 + 3) with 28. unfold V'. rewrite fn_lookup_insert. pose proof (im_room _ _ _ Im) as [Hr _].
  rewrite (proj1 (bit_set_bits (Z.to_nat fb) (Z.to_nat b) ltac:(unfold fb; lia))). apply bool_decide_ext. unfold fb. lia.
Qed.

Lemma fin_shape : fs_shape V' mkfs_sb 994.
Proof.
  constructor; try (cbn; lia).
  - unfold V', with_ino. rewrite !fn_lookup_insert_ne by (try change (IBLOCK 1) with 2; lia). rewrite (im_super _ _ _ Im). by vm_compute.
  - change (29 <= 994). lia.
  - intros b Hb. change (data_start mkfs_sb) with 29 in Hb. rewrite fin_used by lia. apply bool_decide_eq_true_2.
    pose proof (im_room _ _ _ Im). unfold fb. lia.
Qed.

(** A file of the image, with the size it has in the end. *)
Lemma fin_file i f sz : fs !! i = Some f -> 0 <= sz <= 71680 ->
  let x := iw_size sz (dino V (1 + Z.of_nat i)) in
  file_ok V' mkfs_sb 994 x /\ (full V' x <-> blocks sz <= blocks (Z.of_nat (length (snd f)))) /\
  (Z.of_nat (length (snd f)) <= sz -> content V' x = snd f ++ replicate (Z.to_nat sz - length (snd f)) 0).
Proof.
  intros Hf Hsz x. destruct (im_has _ _ _ Im i f Hf) as [H1 H2 H3 [z H4] [_ H5]]. set (x0 := dino V (1 + Z.of_nat i)) in *.
  assert (forall p, (p < nslots)%nat -> slot V x0 p <> 0 -> V' (slot V x0 p) = V (slot V x0 p)) as Hk.
  { intros p Hp Hz. apply fin_data. pose proof (wf_range _ _ _ H2 p Hp Hz). lia. }
  assert (forall p, slot V' x p = slot V x0 p) as Hs by exact (kept_slot V V' x0 Hk).
  split_and!.
  - constructor; try done.
    + intros p Hp. rewrite Hs. intros Hz. pose proof (wf_range _ _ _ H2 p Hp Hz) as Hr. change (data_start mkfs_sb) with 29.
      split_and!; [lia..|cbn; lia|]. rewrite fin_used by lia. apply bool_decide_eq_true_2. unfold fb. lia.
    + intros p q Hp Hq. rewrite !Hs. by apply H2.
  - pose proof (blocks_bounds sz). pose proof (blocks_bounds (Z.of_nat (length (snd f)))). destruct H3 as [X _]. split.
    + intros Hfull. destruct (decide (blocks sz <= 0)); [lia|].
      assert (Z.to_nat (blocks sz - 1) < nblocks)%nat as Hn by (unfold nblocks; lia).
      specialize (Hfull (Z.to_nat (blocks sz - 1))). rewrite Hs, X in Hfull by exact Hn.
      unfold x in Hfull. cbn [i_size iw_size] in Hfull. change (Z.of_nat BSIZE) with 512 in Hfull. lia.
    + intros Hle bn Hbn. unfold x in Hbn. cbn [i_size iw_size] in Hbn. change (Z.of_nat BSIZE) with 512 in Hbn.
      rewrite Hs. apply X; [unfold nblocks|]; lia.
  - intros Hle. unfold content, x. cbn [i_size iw_size]. change (flat V' (iw_size sz x0)) with (flat V' x0).
    rewrite (kept_flat V V' x0 Hk), H4. pose proof (flat_length V _ x0 (im_spare _ _ _ Im)) as Hl.
    rewrite H4, length_app, length_replicate in Hl. unfold BSIZE, nblocks in Hl.
    rewrite take_app_ge by lia. f_equal. rewrite take_replicate. f_equal. lia.
Qed.
End Finished.

(** ** main *)

Lemma take_snoc {A} (l : list A) k a : l !! k = Some a -> take (S k) l = take k l ++ [a].
Proof. intros. by rewrite (take_S_r _ _ a). Qed.

Lemma wp_root {A} s V (k : Z -> M mkst A) (Q : A -> mkst -> Prop) :
  image s V [] -> (forall s' V', image s' V' (tree []) -> wp (k ROOTINO) Q s') ->
  wp (rootino <- ialloc T_DIR ;; assert_ (rootino =? ROOTINO) ;; iappend rootino (entry_bytes rootino dot_name) ;;
      iappend rootino (entry_bytes rootino dotdot_name) ;; k rootino) Q s.
Proof.
  intros Im HQ. apply wp_bind. eapply wp_mono; [eapply wp_ialloc; [exact Im|unfold T_DIR; lia|cbn; lia]|].
  cbn beta. intros n s1 (-> & V1 & Im1). cbn [app length Z.of_nat] in *. change (1 + 0) with (1 + Z.of_nat 0).
  wp_step. change (1 + Z.of_nat 0 =? ROOTINO) with true. unfold assert_. wp_step. apply wp_bind.
  eapply wp_mono; [eapply (wp_iappend s1 V1 _ 0%nat T_DIR []); [exact Im1|done|by vm_compute|by vm_compute]|].
  cbn beta. intros _ s2 (V2 & Im2). apply wp_bind.
  eapply wp_mono; [eapply (wp_iappend s2 V2 _ 0%nat T_DIR); [exact Im2|done|by vm_compute|by vm_compute]|].
  cbn beta. intros _ s3 (V3 & Im3). eapply HQ. exact Im3.
Qed.

Lemma wp_files s V files :
  image s V (tree []) -> Forall good files -> (length files <= 198)%nat -> total (tree files) <= 1024 - 29 ->
  wp (forM files (add_file ROOTINO)) (fun _ s' => exists V', image s' V' (tree files)) s.
Proof.
  intros Im Hg Hlen Hroom. eapply wp_mono.
  - apply (wp_forM _ _ (fun k s' => exists V', image s' V' (tree (take k files)))); [by exists V|].
    intros k f s' Hf (V' & Im'). rewrite (take_snoc _ _ _ Hf). pose proof (lookup_lt_Some _ _ _ Hf) as Hk.
    eapply wp_add_file; [exact Im'|by eapply Forall_lookup_1| |rewrite length_take; lia].
    rewrite <- (take_snoc _ _ _ Hf). pose proof (total_prefix files (S k)). lia.
  - cbn beta. intros _ s' (V' & Im'). rewrite take_ge in Im' by lia. by exists V'.
Qed.

Lemma wp_finish s V files :
  image s V (tree files) -> (length files <= 198)%nat -> total (tree files) <= 994 - 29 ->
  wp (fix_root ROOTINO ;; u <- gets usedblocks ;; balloc u)
    (fun _ s' => let fb := 29 + total (tree files) in
       mk_rep s' (<[28 := set_bits (Z.to_nat fb)]> (with_ino V 1 (iw_size (rounded (Z.of_nat (length (entries files)))) (dino V 1)))) fb
         (1 + Z.of_nat (length (tree files)))) s.
Proof.
  intros Im Hlen Hroom. pose proof (im_rep _ _ _ Im) as R. pose proof (im_room _ _ _ Im) as [Hr _]. pose proof (length_entries files) as Hle.
  pose proof (rounded_bounds (Z.of_nat (length (entries files))) ltac:(lia)) as Hrb.
  pose proof (has_ino _ _ _ _ (im_has _ _ _ Im 0%nat _ eq_refl)) as H1. change (1 + Z.of_nat 0) with 1 in H1. cbn [fst snd] in H1.
  apply wp_bind. unfold fix_root. change ROOTINO with 1. apply wp_bind. eapply wp_rinode; [exact R|lia|]. cbv zeta.
  assert (i_size (dino V 1) = Z.of_nat (length (entries files))) as -> by by rewrite H1.
  change (Z.of_nat BSIZE) with 512. rewrite (xint_id (Z.of_nat _)) by lia. fold (rounded (Z.of_nat (length (entries files)))).
  rewrite xint_id by lia. eapply wp_winode; [exact R|lia|]. intros s1 R1. wp_steps. rewrite (mr_ub _ _ _ _ R1).
  unfold balloc, assert_. rewrite (proj2 (Z.ltb_lt _ _)) by lia. wp_step. wp_step. change (ninodes / IPB + 3) with 28.
  eapply wp_wsect; [exact R1|lia|]. intros s2 R2. exact R2.
Qed.

Lemma wp_main files (Q : unit -> mkst -> Prop) :
  Forall good files -> (length files <= 198)%nat -> total (tree files) <= 994 - 29 ->
  (forall s V s', image s V (tree files) -> let fb := 29 + total (tree files) in
     mk_rep s' (<[28 := set_bits (Z.to_nat fb)]> (with_ino V 1 (iw_size (rounded (Z.of_nat (length (entries files)))) (dino V 1)))) fb
       (1 + Z.of_nat (length (tree files))) -> Q tt s') ->
  wp (main files) Q start.
Proof.
  intros Hg Hlen Hroom HQ. unfold main. cbv zeta. change (ninodes / IPB + 3 + (size / (512 * 8) + 1)) with 29.
  change (nblocks_ + 29 + nlog) with 1024. unfold set_blocks at 1. wp_step. wp_step. change (1024 =? size) with true. unfold assert_ at 1. wp_step. wp_step.
  apply wp_bind. eapply wp_mono; [apply wp_zeroes; done|]. cbn beta. intros _ s0 ->.
  apply wp_bind. eapply wp_mono; [apply wp_super|]. cbn beta. intros _ s0 ->.
  eapply wp_root; [exact image_empty|]. intros s1 V1 Im1. apply wp_bind.
  eapply wp_mono; [eapply wp_files; [exact Im1|exact Hg|exact Hlen|lia]|]. cbn beta. intros _ s2 [V2 Im2].
  eapply wp_mono; [eapply wp_finish; [exact Im2|exact Hlen|exact Hroom]|]. cbn beta. intros [] s3 R3. by eapply HQ.
Qed.

(** The file of inode [n]: its blocks are its own and all there, and the kernel reads [c]. *)
Definition is_file (V : Z -> list Z) (n ty : Z) (c : list Z) : Prop :=
  let x := dino V n in
  file_ok V mkfs_sb 994 x /\ i_type x = ty /\ i_nlink x = 1 /\ full V x /\ content V x = c.

(** The root directory: the entries, then zeros, that are free entries, up to the end of a block. *)
Definition is_root (V : Z -> list Z) (files : list input) : Prop :=
  let x := dino V ROOTINO in
  file_ok V mkfs_sb 994 x /\ i_type x = T_DIR /\ i_nlink x = 1 /\
  (exists z, content V x = entries files ++ replicate z 0 /\ i_size x = Z.of_nat (length (entries files)) + Z.of_nat z /\
     i_size x mod Z.of_nat BSIZE = 0) /\
  (full V x <-> ((2 + length files) mod 32 <> 0)%nat).

Section Image.
Context (s : mkst) (V : Z -> list Z) (files : list input).
Context (Im : image s V (tree files)) (Hlen : (length files <= 198)%nat) (Hroom : total (tree files) <= 994 - 29).
Let sz := rounded (Z.of_nat (length (entries files))).
Let V' := <[28 := set_bits (Z.to_nat (29 + total (tree files)))]> (with_ino V 1 (iw_size sz (dino V 1))).

Lemma entries_small : Z.of_nat (length (entries files)) < 71680.
Proof. rewrite length_entries. lia. Qed.

Lemma image_dino n : 0 <= n < 200 -> dino V' n = if decide (n = 1) then iw_size sz (dino V 1) else dino V n.
Proof. apply (fin_dino s V (tree files) (entries files)); try done. apply entries_small. Qed.

Lemma image_slot n p : 0 <= n < 200 -> (1 <= n <= 1 + Z.of_nat (length files)) -> slot V' (dino V' n) p = slot V (dino V n) p.
Proof.
  intros Hn Hn'. transitivity (slot V' (dino V n) p).
  { rewrite image_dino by done. by case_decide; subst. }
  apply kept_slot. intros q Hq Hz. apply (fin_data V (tree files) (entries files)).
  destruct (lookup_lt_is_Some_2 (tree files) (Z.to_nat (n - 1))) as [f Hf]; [unfold tree; cbn; rewrite length_fmap; lia|].
  pose proof (im_has _ _ _ Im _ _ Hf) as Hh. replace (1 + Z.of_nat (Z.to_nat (n - 1))) with n in Hh by lia.
  pose proof (wf_range _ _ _ (has_file _ _ _ _ Hh) q Hq Hz). lia.
Qed.

Lemma image_root : is_root V' files.
Proof.
  pose proof entries_small as He. pose proof (rounded_bounds (Z.of_nat (length (entries files))) ltac:(lia)) as Hrb. fold sz in Hrb.
  destruct (fin_file s V (tree files) (entries files) Im Hroom 0%nat (T_DIR, entries files) sz eq_refl Hrb) as (F1 & F2 & F3).
  fold sz in F1, F2, F3. change (1 + Z.of_nat 0) with 1 in F1, F2, F3. cbn [snd] in *. fold V' in F1, F2, F3.
  pose proof (has_ino _ _ _ _ (im_has _ _ _ Im 0%nat _ eq_refl)) as H1. change (1 + Z.of_nat 0) with 1 in H1. cbn [fst snd] in H1.
  unfold is_root. change ROOTINO with 1. rewrite image_dino, decide_True by lia || done. cbv zeta.
  pose proof (Z.div_mod (Z.of_nat (length (entries files))) 512 ltac:(lia)) as Hdm.
  pose proof (Z.mod_pos_bound (Z.of_nat (length (entries files))) 512 ltac:(lia)) as Hmb.
  assert (sz = Z.of_nat (length (entries files)) / 512 * 512 + 512) as Esz by (unfold sz, rounded; lia).
  split_and!; [exact F1|by rewrite H1|by rewrite H1| |].
  - eexists. split; [apply F3; lia|]. cbn [i_size iw_size]. split; [lia|]. unfold sz, rounded. apply Z.mod_mul. done.
  - rewrite F2. pose proof (blocks_bounds sz). pose proof (blocks_bounds (Z.of_nat (length (entries files)))).
    pose proof (length_entries files) as Hle. pose proof (Nat.div_mod_eq (2 + length files) 32).
    pose proof (Nat.mod_upper_bound (2 + length files) 32 ltac:(lia)). lia.
Qed.

Lemma image_file k f : files !! k = Some f -> is_file V' (2 + Z.of_nat k) T_FILE (concat (in_reads f)).
Proof.
  intros Hf. pose proof (lookup_lt_Some _ _ _ Hf) as Hk.
  assert (tree files !! S k = Some (T_FILE, concat (in_reads f))) as Ht.
  { change (((fun f => (T_FILE, concat (in_reads f))) <$> files) !! k = Some (T_FILE, concat (in_reads f))). by rewrite list_lookup_fmap, Hf. }
  destruct (im_has _ _ _ Im _ _ Ht) as [H1 _ _ _ [_ H5]]. cbn [fst snd] in *. replace (1 + Z.of_nat (S k)) with (2 + Z.of_nat k) in H1 by lia.
  destruct (fin_file s V (tree files) (entries files) Im Hroom (S k) _ (Z.of_nat (length (concat (in_reads f)))) Ht ltac:(cbn [snd]; lia)) as (F1 & F2 & F3).
  replace (1 + Z.of_nat (S k)) with (2 + Z.of_nat k) in F1, F2, F3 by lia. fold sz in F1, F2, F3. fold V' in F1, F2, F3. cbn [snd] in *.
  assert (iw_size (Z.of_nat (length (concat (in_reads f)))) (dino V (2 + Z.of_nat k)) = dino V (2 + Z.of_nat k)) as E by (rewrite H1; done).
  rewrite E in *. unfold is_file. rewrite image_dino, decide_False by lia. cbv zeta.
  split_and!; [exact F1|by rewrite H1|by rewrite H1|apply F2; lia|].
  rewrite F3 by lia. rewrite Nat2Z.id, Nat.sub_diag. apply app_nil_r.
Qed.

Lemma image_zero n : 29 + total (tree files) <= n -> V' n = zeros.
Proof.
  intros Hn. pose proof (im_room _ _ _ Im) as [Hr _].
  transitivity (V n); [apply (fin_data V (tree files) (entries files)); lia|by apply (im_spare _ _ _ Im)].
Qed.

Lemma image_len n : length (V' n) = BSIZE.
Proof.
  unfold V', with_ino. destruct (decide (n = 28)) as [->|]; [rewrite fn_lookup_insert|rewrite fn_lookup_insert_ne by done].
  - apply (bit_set_bits _ 0%nat). lia.
  - destruct (decide (n = IBLOCK 1)) as [->|]; [rewrite fn_lookup_insert|rewrite fn_lookup_insert_ne by done; apply Im].
    pose proof (sp_len _ _ (im_spare _ _ _ Im) (IBLOCK 1)) as Hl. rewrite length_store; [done|rewrite Hl; apply dip_off_fits|].
    apply (fin_y s V (tree files) (entries files)); try done. apply entries_small.
Qed.
End Image.

(** The file system mkfs makes of [files]. *)
Record mk_image (files : list input) (s : mkst) (V : Z -> list Z) : Prop := {
  mi_length : length (img s) = 1024%nat;
  mi_blocks n : 0 <= n < 1024 -> img s !! Z.to_nat n = Some (V n) /\ length (V n) = BSIZE;
  mi_shape : fs_shape V mkfs_sb 994;
  mi_bitmap b : 0 <= b < 1024 -> used V mkfs_sb b = bool_decide (b < 29 + total (tree files));
  mi_zero n : 29 + total (tree files) <= n -> V n = zeros;
  mi_root : is_root V files;
  mi_file k f : files !! k = Some f -> is_file V (2 + Z.of_nat k) T_FILE (concat (in_reads f));
  mi_disjoint n m p q : 1 <= n <= 1 + Z.of_nat (length files) -> 1 <= m <= 1 + Z.of_nat (length files) -> n <> m ->
    (p < nslots)%nat -> (q < nslots)%nat -> slot V (dino V n) p <> 0 -> slot V (dino V n) p <> slot V (dino V m) q;
  mi_free n : 1 + Z.of_nat (length files) < n < 200 -> i_type (dino V n) = 0 }.

Lemma wp_main_image files :
  Forall good files -> (length files <= 198)%nat -> total (tree files) <= 994 - 29 ->
  wp (main files) (fun _ s => exists V, mk_image files s V) start.
Proof.
  intros Hg Hlen Hroom. eapply wp_main; [exact Hg|exact Hlen|exact Hroom|]. cbv zeta. intros s V s' Im R.
  match type of R with mk_rep _ ?W _ _ => exists W end. pose proof (entries_small files Hlen) as He.
  assert (length (tree files) = S (length files)) as El by (unfold tree; cbn; by rewrite length_fmap).
  constructor.
  - apply R.
  - intros n Hn. split; [by apply R|by apply (image_len s)].
  - by apply (fin_shape s V (tree files) (entries files)).
  - by apply (fin_used s V (tree files) (entries files)).
  - by apply (image_zero s).
  - by apply (image_root s).
  - by apply (image_file s).
  - intros n m p q Hn Hm Hne Hp Hq. rewrite (image_slot s V files Im Hlen Hroom n p), (image_slot s V files Im Hlen Hroom m q) by lia.
    pose proof (im_disj _ _ _ Im (Z.to_nat (n - 1)) (Z.to_nat (m - 1)) p q) as D.
    replace (1 + Z.of_nat (Z.to_nat (n - 1))) with n in D by lia. replace (1 + Z.of_nat (Z.to_nat (m - 1))) with m in D by lia.
    apply D; [lia|lia|lia|exact Hp|exact Hq].
  - intros n Hn. rewrite (image_dino s V files Im Hlen Hroom n) by lia. rewrite decide_False by lia. apply (im_free _ _ _ Im). lia.
Qed.

(** C13: mkfs, given files whose names have no slash and whose sizes and number fit the
    file system, ends, and the image it leaves is a file system as the kernel wants it:
    1024 sectors, the super block in sector 1, the bitmap marking exactly the blocks in
    front of the data and the blocks given to files, all other blocks, the log among them,
    zero; inode 2 + k is file k with the bytes that were read from it; inode 1 is the root
    directory with the entries in order, padded with zeros; different files have different
    blocks, and the other inodes are free.  The blocks of the root directory are all there
    exactly when the number of its entries is not a multiple of 32. *)
Theorem mkfs_builds files :
  Forall good files -> (length files <= 198)%nat -> total (tree files) <= sb_nblocks mkfs_sb ->
  exists s V, main files start = Ret tt s /\ mk_image files s V.
Proof.
  intros Hg Hlen Hroom. change (sb_nblocks mkfs_sb) with (994 - 29) in Hroom.
  destruct (wp_run _ _ _ (wp_main_image files Hg Hlen Hroom)) as ([] & s & E & V & HV). exists s, V. split; [exact E|exact HV].
Qed.

Definition demo_files : list input :=
  [mkinput [95; 99; 97; 116; 0] [replicate 512 7; replicate 88 8]; mkinput [82; 69; 65; 68; 77; 69; 0] [[104; 105]]].

Lemma mkfs_builds_witness :
  exists s V, main demo_files start = Ret tt s /\ fs_shape V mkfs_sb 994 /\
    is_file V 2 T_FILE (replicate 512 7 ++ replicate 88 8) /\ is_file V 3 T_FILE [104; 105].
Proof.
  destruct (mkfs_builds demo_files) as (s & V & E & M).
  - repeat constructor; try (by vm_compute); try (intros Hs; by repeat (apply elem_of_cons in Hs as [Hs|Hs]; [discriminate|])
      || apply not_elem_of_nil in Hs); left; simpl; tauto.
  - simpl. lia.
  - by vm_compute.
  - exists s, V. split; [exact E|]. split; [exact (mi_shape _ _ _ M)|]. split.
    + exact (mi_file _ _ _ M 0%nat _ eq_refl).
    + exact (mi_file _ _ _ M 1%nat _ eq_refl).
Defined.
