(* ===== verification/Mount.v ===== *)
(** * From mkfs to the kernel

    The names of the image mkfs builds, and the first system calls on it: after the boot
    on the image, namei of the path of a file, ilock and readi give the bytes mkfs was
    given. *)

From stdpp Require Import base list numbers strings functions gmap sets.
From S2P Require Import Prelude CString Spinlock Layout Buf Log Block Inode Content Dinode Icache Dir Dirent Mkfs Fsimage.
Import Ctx.

Open Scope Z_scope.
Local Open Scope kernel_scope.

(** ** The entries of the root directory *)

Definition file_name (f : input) : list Z := skip_underscore (in_name f).

(** The name of entry [k] of the root directory, and its inode. *)
Definition root_name (files : list input) (k : nat) : option (list Z) :=
  match k with
  | 0%nat => Some [46; 0]
  | 1%nat => Some [46; 46; 0]
  | S (S k) => file_name <$> files !! k
  end.

Definition root_inum (k : nat) : Z := match k with 0%nat | 1%nat => 1 | S (S k) => 2 + Z.of_nat k end.

Lemma dent_concat l z k e :
  Forall (fun b => length b = 16%nat) l -> l !! k = Some e -> dent (concat l ++ z) k = dirent_of e.
Proof.
  intros Hl Hk. unfold dent. f_equal. pose proof (lookup_lt_Some _ _ _ Hk) as Hlt.
  pose proof (length_concat_blocks 16 l Hl) as Hlen. rewrite list.Forall_lookup in Hl. pose proof (Hl _ _ Hk) as He.
  unfold slice. rewrite drop_app_le by lia. rewrite take_app_le by (rewrite length_drop; lia).
  pose proof (slice_concat 16 l k 0 16 e) as E. unfold slice in E. rewrite Nat.add_0_r in E. rewrite E.
  - rewrite drop_0. apply take_ge. lia.
  - by apply list.Forall_lookup.
  - done.
  - lia.
Qed.

Definition root_entries (files : list input) : list (list Z) :=
  entry_bytes 1 dot_name :: entry_bytes 1 dotdot_name :: imap entry files.

Lemma entries_concat files : entries files = concat (root_entries files).
Proof. done. Qed.

Lemma root_entries_len files : Forall (fun b => length b = 16%nat) (root_entries files).
Proof.
  constructor; [done|]. constructor; [done|]. apply list.Forall_forall. intros b Hb.
  apply elem_of_lookup_imap in Hb as (k & f & -> & _). apply length_entry.
Qed.

Lemma dirent_roundtrip inum nm : 0 <= inum < 2 ^ 16 -> dirent_of (entry_bytes inum nm) = mkdirent inum nm.
Proof.
  intros Hi. unfold entry_bytes. rewrite xshort_id by lia. unfold dirent_of, dirent_bytes. cbn [de_inum de_name]. f_equal.
  unfold get16, slice. rewrite drop_0, take_app_length' by (by rewrite length_to_le). rewrite of_le_to_le.
  apply Z.mod_small. change (256 ^ Z.of_nat 2) with (2 ^ 16). lia.
Qed.

Lemma root_dent files z k nm :
  (length files <= 198)%nat -> root_name files k = Some nm ->
  de_inum (dent (entries files ++ z) k) = root_inum k /\ same_name nm (de_name (dent (entries files ++ z) k)).
Proof.
  intros Hlen Hk. rewrite entries_concat.
  destruct k as [|[|k]]; cbn [root_name root_inum] in *.
  - injection Hk as <-. erewrite dent_concat; [|apply root_entries_len|done]. rewrite dirent_roundtrip by lia. done.
  - injection Hk as <-. erewrite dent_concat; [|apply root_entries_len|done]. rewrite dirent_roundtrip by lia. done.
  - apply fmap_Some in Hk as (f & Hf & ->). pose proof (lookup_lt_Some _ _ _ Hf).
    rewrite (dent_concat _ _ (S (S k)) (entry k f)); [|apply root_entries_len|]; cycle 1.
    { transitivity (imap entry files !! k); [done|]. by rewrite list_lookup_imap, Hf. }
    unfold entry.
    rewrite dirent_roundtrip by lia. split; [done|]. apply same_padded.
Qed.

Lemma root_find files z k nm name :
  (length files <= 198)%nat -> root_name files k = Some nm -> same_name name nm ->
  (forall j nm', (j < k)%nat -> root_name files j = Some nm' -> ~ same_name nm' nm) ->
  dir_find (entries files ++ z) name = Some k /\ de_inum (dent (entries files ++ z) k) = root_inum k.
Proof.
  intros Hlen Hk Hs Hfirst. destruct (root_dent files z k nm Hlen Hk) as [E1 E2]. split; [|done].
  assert (k < 2 + length files)%nat as Hlt.
  { destruct k as [|[|k]]; [lia..|]. cbn in Hk. apply fmap_Some in Hk as (f & Hf & _). apply lookup_lt_Some in Hf. lia. }
  apply dir_find_Some. split_and!.
  - rewrite length_app, length_entries. apply Nat.div_le_lower_bound; lia.
  - split; [rewrite E1; destruct k as [|[|k]]; cbn; lia|]. unfold same_name in *. congruence.
  - intros j Hj. assert (exists nm', root_name files j = Some nm') as [nm' Hj'].
    { destruct j as [|[|j]]; cbn; [eauto..|]. destruct (lookup_lt_is_Some_2 files j) as [f Hf]; [lia|]. rewrite Hf. by eexists. }
    destruct (root_dent files z j nm' Hlen Hj') as [_ E3]. intros [_ Hn]. apply (Hfirst j nm' Hj Hj'). unfold same_name in *. congruence.
Qed.

(** ** The kernel's walk to a file of the root directory *)

Lemma parts_single nm : slash ∉ nm -> parts nm = [nm].
Proof.
  induction nm as [|a nm IH]; intros Hs; [done|]. apply not_elem_of_cons in Hs as [Ha Hs]. cbn [parts].
  rewrite (proj2 (Z.eqb_neq a slash)) by congruence. by rewrite IH.
Qed.

Lemma elems_single nm : slash ∉ nm -> nm <> [] -> elems (slash :: nm) = [nm].
Proof. intros Hs Hn. rewrite elems_slash. unfold elems. rewrite parts_single by done. by rewrite filter_cons_True. Qed.

Lemma cstr_nul n nm : no_nul nm -> Str.cstr n (nm ++ [0]) = take n nm.
Proof.
  revert nm. induction n as [|n IH]; intros nm Hn; [done|]. destruct nm as [|a nm]; [done|].
  apply list.Forall_cons in Hn as [Ha Hn]. cbn [app Str.cstr take]. rewrite (proj2 (Z.eqb_neq a 0) Ha). by rewrite IH.
Qed.

Lemma cstr_nul' n nm l : no_nul nm -> (length nm < n)%nat -> Str.cstr n (nm ++ 0 :: l) = nm.
Proof.
  revert nm. induction n as [|n IH]; intros nm Hn Hl; [lia|]. destruct nm as [|a nm]; [done|].
  apply list.Forall_cons in Hn as [Ha Hn]. cbn [app Str.cstr]. rewrite (proj2 (Z.eqb_neq a 0) Ha). rewrite IH; [done|done|cbn in Hl; lia].
Qed.

Lemma cstr_full n nm l : no_nul nm -> length nm = n -> Str.cstr n (nm ++ l) = nm.
Proof.
  revert nm. induction n as [|n IH]; intros nm Hn Hl; [by apply nil_length_inv in Hl as ->|]. destruct nm as [|a nm]; [done|].
  apply list.Forall_cons in Hn as [Ha Hn]. cbn [app Str.cstr]. rewrite (proj2 (Z.eqb_neq a 0) Ha). rewrite IH; [done|done|cbn in Hl; lia].
Qed.

(** The buffer with an element of the path is the name of the element. *)
Lemma put_name_same nm : no_nul nm -> same_name (put_name nm (replicate DIRSIZ 0)) (nm ++ [0]).
Proof.
  intros Hn. unfold same_name, put_name. rewrite cstr_nul by done. destruct (Nat.leb_spec DIRSIZ (length nm)).
  - apply cstr_full; [by apply Forall_take|]. rewrite length_take. lia.
  - rewrite cstr_nul' by done. rewrite take_ge by lia. done.
Qed.

Lemma put_name_ok nm : bytes nm -> bytes (put_name nm (replicate DIRSIZ 0)) /\ Str.readable DIRSIZ (put_name nm (replicate DIRSIZ 0)).
Proof.
  intros Hn. assert (byte 0) as H0 by (unfold byte; lia). split.
  - unfold put_name. destruct (DIRSIZ <=? length nm)%nat; apply Forall_app; split; try done.
    + by apply Forall_take.
    + constructor; [done|]. apply Forall_drop, Forall_replicate, H0.
  - right. rewrite (proj2 (splice_put_name nm (replicate DIRSIZ 0) ltac:(by rewrite length_replicate))). by rewrite length_replicate.
Qed.

Section Walk.
Context {S : Type} `{HasCtx S} `{!BlockLayer S} `{!BlockLaws S}.
Implicit Types (s : ist S) (b : S) (V : Z -> list Z).
Variable dev_read : Z -> option (nat -> Z -> M (ist S) (Z * list Z)).
Variable cwd : nat.

Lemma wp_iunlock i x s V r (Q : unit -> ist S -> Prop) :
  bl_rep (blk s) V ∅ ∅ r -> held (ctx s) = [] -> icache s !! i = Some x -> Buf.has (i_flags x) I_BUSY = true -> 1 <= i_ref x ->
  (forall b', bl_rep b' V ∅ ∅ r -> bl_ext ∅ (blk s) b' ->
     Q tt (mkist (<[i := iw_flags (Z.ldiff (i_flags x) I_BUSY) x]> (icache s)) b')) ->
  wp (iunlock i) Q s.
Proof.
  intros R Hh Hi Hb Hr HQ. unfold iunlock. wp_steps. eapply wp_geti; [exact Hi|].
  rewrite Hb, (proj2 (Z.ltb_ge _ _)) by lia. cbn [negb orb]. wp_steps.
  apply wp_acquire; [rewrite Hh; apply not_elem_of_nil|]. wp_steps. eapply wp_seti; [exact Hi|]. wp_steps.
  apply wp_wakeup; [cbn; rewrite ctx_with; cbn; change (held (ctx (blk s))) with (held (ctx s)); rewrite Hh; set_solver|].
  eapply wp_release; [cbn; by rewrite !ctx_with|]. cbn. rewrite !ctx_with. cbn [held woken killed]. rewrite !with_with.
  destruct (bl_woken (blk s) V ∅ ∅ r (ChInode (Z.of_nat i) :: woken (ctx (blk s))) R) as [R' E']. by apply HQ.
Qed.

(** The slot of inode [n] after iget, and after ilock loaded it. *)
Definition got (n : Z) (x : inode) : inode := iw_flags 0 (iw_ref 1 (iw_id ROOTDEV n x)).
Definition loaded (V : Z -> list Z) (n : Z) : inode := iw_ref 1 (iw_flags 3 (dino V n)).

Lemma wp_ilock_got i n x s V r (Q : unit -> ist S -> Prop) :
  bl_rep (blk s) V ∅ ∅ r -> held (ctx s) = [] -> icache s !! i = Some (got n x) -> 0 <= IBLOCK n < bl_lim (blk s) ->
  i_type (dino V n) <> 0 ->
  (forall b', bl_rep b' V ∅ ∅ r -> bl_ext ∅ (blk s) b' -> Q tt (mkist (<[i := loaded V n]> (icache s)) b')) ->
  wp (ilock i) Q s.
Proof.
  intros R Hh Hi Hb Ht HQ. eapply (wp_ilock_load i (got n x) s V r); [exact R|rewrite Hh; apply not_elem_of_nil|exact Hi|cbn; lia|done|done|exact Hb|exact Ht|].
  exact HQ.
Qed.

Lemma dir_ok_loaded V sb lim n : dir_ok V sb lim (dino V n) -> dir_ok V sb lim (loaded V n).
Proof. intros [[F1 F2 F3 F4 F5] D2 D3 D4 D5]. constructor; [by constructor|done..]. Qed.

Section Namei.
Context (s : ist S) (V : Z -> list Z) (r : nat) (sb : superblock) (x0 x1 : inode) (rest : list inode) (nm : list Z) (n : Z) (k : nat).
Hypothesis (R : bl_rep (blk s) V ∅ ∅ r) (Sh : fs_shape V sb (bl_lim (blk s))) (Hh : held (ctx s) = []).
Hypothesis (Hc : icache s = x0 :: x1 :: rest) (Hfree : Forall (fun x => i_ref x = 0) (icache s)).
Hypothesis (Hnm : bytes nm) (Hnul : no_nul nm) (Hsl : slash ∉ nm) (Hne : nm <> []).
Hypothesis (D : dir_ok V sb (bl_lim (blk s)) (dino V 1)) (Hnl : i_nlink (dino V 1) <> 0) (Hlim : IBLOCK 1 < bl_lim (blk s)).
Hypothesis Hfind : forall name, same_name name (nm ++ [0]) -> dir_find (content V (dino V 1)) name = Some k.
Hypothesis (Hino : de_inum (dent (content V (dino V 1)) k) = n) (Hn1 : n <> 1).

Lemma free_slots : i_ref x0 = 0 /\ i_ref x1 = 0 /\ forall j y d m, rest !! j = Some y -> ~ is_for d m y.
Proof.
  rewrite Hc in Hfree. inversion_clear Hfree as [|? ? F0 F]. inversion_clear F as [|? ? F1 F2]. split_and!; [done..|].
  intros j y d m Hy [Hr _]. rewrite list.Forall_lookup in F2. pose proof (F2 _ _ Hy). cbn in *. lia.
Qed.

(** The round of namex for the one element of the path, at the root directory. *)
Lemma wp_namex_elem fuel b (Q : option nat * list Z -> ist S -> Prop) :
  bl_rep b V ∅ ∅ r -> bl_ext ∅ (blk s) b ->
  (forall b' u0, bl_rep b' V ∅ ∅ r -> bl_ext ∅ (blk s) b' -> i_ref u0 = 0 ->
     Q (Some 1%nat, put_name nm (replicate DIRSIZ 0)) (mkist (u0 :: got n x1 :: rest) b')) ->
  wp (namex_loop dev_read (2 + fuel) 0 (slash :: nm ++ [0]) false (replicate DIRSIZ 0)) Q (mkist (got 1 x0 :: x1 :: rest) b).
Proof.
  intros Rb Eb HQ. destruct free_slots as (F0 & F1 & Fr). pose proof (bl_ext_lim _ _ _ Eb) as Elb. pose proof (proj1 Eb) as Ehb.
  change (held (ctx (blk s))) with (held (ctx s)) in Ehb. rewrite Hh in Ehb.
  cbn [Nat.add namex_loop]. pose proof (skipelem_spec (slash :: nm) (replicate DIRSIZ 0)) as Hsk. rewrite elems_single in Hsk by done.
  destruct Hsk as (c' & Esk & Ec' & Hc' & _); [by constructor|by rewrite length_replicate|]. cbn [app] in Esk.
  wp_step. eapply wp_lift_opt; [exact Esk|]. apply wp_bind.
  eapply (wp_ilock_got 0 1 x0); cbn [blk icache]; rewrite ?Elb; [exact Rb|exact Ehb|done|change (IBLOCK 1) with 2 in *; lia|rewrite (dr_type _ _ _ _ D); done|].
  intros b1 R1 E1. cbn [insert list_insert]. wp_step. eapply wp_geti; [done|].
  change (i_type (loaded V 1)) with (i_type (dino V 1)). rewrite (dr_type _ _ _ _ D), Z.eqb_refl. cbn [negb].
  assert (exists a, head (c' ++ [0]) = Some a) as [a Ea] by (destruct c'; cbn; eauto).
  wp_step. eapply wp_lift_opt; [exact Ea|]. cbn [andb]. apply wp_bind.
  pose proof (bl_ext_trans _ _ _ _ _ Eb E1 ltac:(done)) as E1'. pose proof (bl_ext_lim _ _ _ E1') as El1. pose proof (proj1 E1') as Eh1.
  change (held (ctx (blk s))) with (held (ctx s)) in Eh1. rewrite Hh in Eh1. destruct (put_name_ok nm Hnm) as [Hpb Hpr].
  eapply (wp_dirlookup dev_read 0 (loaded V 1)); cbn [blk icache]; rewrite ?El1; [exact R1|exact Sh|done|by apply dir_ok_loaded|exact Hpb|exact Hpr| |].
  { change (content V (loaded V 1)) with (content V (dino V 1)). rewrite Hfind by by apply put_name_same. done. }
  change (content V (loaded V 1)) with (content V (dino V 1)). rewrite Hfind by by apply put_name_same.
  intros j b2 [= <-] R2 E2. rewrite Hino. pose proof (bl_ext_trans _ _ _ _ _ E1' E2 ltac:(done)) as E2'. pose proof (proj1 E2') as Eh2.
  change (held (ctx (blk s))) with (held (ctx s)) in Eh2. rewrite Hh in Eh2. apply wp_bind.
  eapply (wp_iget_miss 1 x1); cbn [icache blk].
  { change (LkIcache ∉ held (ctx b2)). rewrite Eh2. apply not_elem_of_nil. }
  { intros [|[|j]] y Hy F; cbn in Hy; [injection Hy as <-; destruct F as (_ & _ & F); cbn in F; congruence|injection Hy as <-; destruct F; lia|].
    by apply (Fr j y ROOTDEV n). }
  { cbn [list_find]. rewrite decide_False by (cbn; lia). rewrite decide_True by done. done. }
  cbn [insert list_insert]. wp_step. cbn [wp]. apply wp_bind. unfold iunlockput. apply wp_bind.
  eapply (wp_iunlock 0 (loaded V 1) _ V r); cbn [blk icache]; [exact R2|exact Eh2|done|done|cbn; lia|].
  intros b3 R3 E3. pose proof (bl_ext_trans _ _ _ _ _ E2' E3 ltac:(done)) as E3'. pose proof (proj1 E3') as Eh3.
  change (held (ctx (blk s))) with (held (ctx s)) in Eh3. rewrite Hh in Eh3. cbn [insert list_insert].
  eapply wp_iput_keep; cbn [icache blk]; [change (LkIcache ∉ held (ctx b3)); rewrite Eh3; apply not_elem_of_nil|done|right; right; exact Hnl|].
  cbn [insert list_insert]. pose proof (skipelem_spec c' (put_name nm (replicate DIRSIZ 0)) Hc') as Hend. rewrite Ec' in Hend.
  wp_step. eapply wp_lift_opt; [apply Hend|]. { rewrite (proj2 (splice_put_name nm _ ltac:(by rewrite length_replicate))). by rewrite length_replicate. }
  wp_steps. by apply HQ.
Qed.

Lemma wp_namei_file (Q : option nat -> ist S -> Prop) :
  (forall b' u0, bl_rep b' V ∅ ∅ r -> bl_ext ∅ (blk s) b' -> i_ref u0 = 0 -> Q (Some 1%nat) (mkist (u0 :: got n x1 :: rest) b')) ->
  wp (namei dev_read cwd (slash :: nm ++ [0])) Q s.
Proof.
  intros HQ. destruct free_slots as (F0 & F1 & Fr). unfold namei, namex. apply wp_bind. wp_step. eapply wp_lift_opt; [done|].
  rewrite Z.eqb_refl. apply wp_bind. eapply (wp_iget_miss 0 x0).
  { rewrite Hh. apply not_elem_of_nil. }
  { rewrite Hc. intros [|[|j]] y Hy F; cbn in Hy; [injection Hy as <-; destruct F; lia..|]. by apply (Fr j y ROOTDEV ROOTINO). }
  { rewrite Hc. cbn [list_find]. by rewrite decide_True. }
  rewrite Hc. cbn [insert list_insert]. change (1 + length (slash :: nm ++ [0%Z]))%nat with (2 + length (nm ++ [0%Z]))%nat.
  eapply wp_namex_elem; [exact R|apply bl_ext_refl|]. intros b' u0 R' E' Hu. wp_steps. by apply HQ.
Qed.

(** The path of the file, its inode, and its bytes. *)
Lemma wp_open_read c (Q : list Z -> ist S -> Prop) :
  file_ok V sb (bl_lim (blk s)) (dino V n) -> full V (dino V n) -> i_type (dino V n) = T_FILE -> content V (dino V n) = c ->
  0 <= n < sb_ninodes sb -> (forall s', Q c s') ->
  wp (o <- namei dev_read cwd (slash :: nm ++ [0]) ;; i <- lift_opt o ;; ilock i ;; x <- geti i ;;
      r <- readi dev_read i 0 (i_size x) ;; ret (snd r)) Q s.
Proof.
  intros F Hf Ht Hcn Hni HQ. pose proof (data_start_pos _ _ _ Sh) as Hds. pose proof (sh_lim _ _ _ Sh).
  apply wp_bind. apply wp_namei_file. intros b1 u0 R1 E1 Hu. pose proof (bl_ext_lim _ _ _ E1) as El. pose proof (proj1 E1) as Eh.
  change (held (ctx (blk s))) with (held (ctx s)) in Eh. rewrite Hh in Eh. wp_step. eapply wp_lift_opt; [done|]. apply wp_bind.
  destruct (IBLOCK_inode _ _ _ _ Sh Hni) as [Hib _].
  eapply (wp_ilock_got 1 n x1); cbn [blk icache]; rewrite ?El; [exact R1|exact Eh|done|lia|rewrite Ht; unfold T_FILE; lia|].
  intros b2 R2 E2. cbn [insert list_insert]. wp_step. eapply wp_geti; [done|]. apply wp_bind.
  pose proof (bl_ext_lim _ _ _ E2) as El2. pose proof (fo_size _ _ _ _ F) as Hsz.
  assert (MAXFILE * Z.of_nat BSIZE = 71680) as HM by reflexivity.
  eapply (wp_readi dev_read 1 (loaded V n) 0 _ _ V r sb); cbn [blk icache]; rewrite ?El2, ?El; try done; try lia.
  - destruct F as [G1 G2 G3 G4 G5]. by constructor.
  - change (i_type (loaded V n)) with (i_type (dino V n)). rewrite Ht. unfold T_FILE, T_DEV. lia.
  - change (i_size (loaded V n)) with (i_size (dino V n)). lia.
  - change (i_size (loaded V n)) with (i_size (dino V n)). lia.
  - change (i_size (loaded V n)) with (i_size (dino V n)). lia.
  - cbv zeta. intros b3 R3 E3. wp_steps. cbn [snd]. change (content V (loaded V n)) with (content V (dino V n)).
    change (i_size (loaded V n)) with (i_size (dino V n)). rewrite Z.sub_0_r, Z.min_id. unfold slice. rewrite drop_0.
    rewrite take_ge; [rewrite Hcn; apply HQ|]. unfold content. rewrite length_take. lia.
Qed.
End Namei.
End Walk.

(** ** The boot on the image *)

Lemma agree_file V V' sb lim x :
  fs_shape V sb lim -> lim <= sb_size sb -> (forall m, 0 <= m < lim -> V' m = V m) -> file_ok V sb lim x ->
  file_ok V' sb lim x /\ (full V x -> full V' x) /\ content V' x = content V x.
Proof.
  intros Sh Hlim HV F. pose proof (data_start_pos _ _ _ Sh) as Hds. pose proof (sh_lim _ _ _ Sh) as Hsl.
  assert (forall p, (p < nslots)%nat -> slot V x p <> 0 -> V' (slot V x p) = V (slot V x p)) as Hk.
  { intros p Hp Hz. destruct (fo_slot _ _ _ _ F p Hp Hz) as (A1 & _). apply HV. lia. }
  assert (forall p, slot V' x p = slot V x p) as Hs by exact (kept_slot V V' x Hk).
  split_and!.
  - destruct F as [F1 F2 F3 F4 F5]. constructor; try done.
    + intros p Hp. rewrite Hs. intros Hz. destruct (F4 p Hp Hz) as (A1 & A2 & A3). split_and!; [lia..|].
      rewrite <- A3. unfold used. rewrite HV; [done|]. pose proof (BBLOCK_data _ _ _ (slot V x p) Sh). lia.
    + intros p q Hp Hq. rewrite !Hs. by apply F5.
  - intros Hf bn Hbn. rewrite Hs. by apply Hf.
  - unfold content. by rewrite (kept_flat V V' x Hk).
Qed.

Lemma agree_dino V V' n : (forall m, 0 <= m < 994 -> V' m = V m) -> 0 <= n < 200 -> dino V' n = dino V n.
Proof. intros HV Hn. unfold dino. rewrite HV; [done|]. pose proof (IBLOCK_meta n Hn). lia. Qed.

(** An image with the super block of mkfs and a log of zeros. *)
Lemma image_valid d V :
  length d = 1024%nat -> (forall n, 0 <= n < 1024 -> d !! Z.to_nat n = Some (V n) /\ length (V n) = BSIZE) ->
  sb_of (V 1) = mkfs_sb -> V 994 = zeros -> valid_log d 994 30.
Proof.
  intros Hl Hd Hsb Hz. assert (forall n, 0 <= n < 1024 -> disk_view d n = V n) as Hv
    by (intros n Hn; unfold disk_view; by rewrite (proj1 (Hd n Hn))).
  constructor.
  - apply list.Forall_lookup. intros i b Hb. pose proof (lookup_lt_Some _ _ _ Hb). destruct (Hd (Z.of_nat i)) as [E El]; [lia|].
    rewrite Nat2Z.id, Hb in E. by injection E as ->.
  - rewrite Hv, Hsb by lia. done.
  - rewrite Hv, Hsb by lia. done.
  - rewrite Hl. lia.
  - rewrite Hv, Hz by lia. assert (hdr_n zeros = 0) as -> by (vm_compute; reflexivity). unfold NBUF. lia.
  - rewrite Hv, Hz by lia. assert (hdr_secs zeros = []) as -> by (vm_compute; reflexivity). intros m Hm. inversion Hm.
Qed.

(** The inode cache at boot. *)
Definition boot_icache : list inode := replicate NINODE (mkinode 0 0 0 0 0 0 0 0 0 (replicate 13 0)).

Lemma bytes_entries files : Forall (fun f => bytes (in_name f)) files -> bytes (entries files).
Proof.
  intros Hb. assert (forall i nm, bytes nm -> bytes (entry_bytes i nm)) as He.
  { intros i nm Hn. apply Forall_app. split; [apply bytes_to_le|done]. }
  assert (forall l, Forall bytes l -> bytes (concat l)) as Hcc by (intros l; induction 1; [constructor|by apply Forall_app]).
  rewrite entries_concat. apply Hcc. constructor; [|constructor]; [apply He; repeat constructor; unfold byte; lia..|].
  apply list.Forall_forall. intros e Hin. apply elem_of_lookup_imap in Hin as (k & f & -> & Hf). apply He, bytes_padded.
  rewrite list.Forall_lookup in Hb. pose proof (Hb _ _ Hf) as Hn. unfold skip_underscore. destruct (in_name f) as [|a l]; [done|].
  destruct (a =? 95); [by inversion Hn|done].
Qed.

Lemma root_dir_ok V V' files :
  is_root V files -> fs_shape V mkfs_sb 994 -> (forall m, 0 <= m < 994 -> V' m = V m) -> (length files <= 198)%nat ->
  Forall (fun f => bytes (in_name f)) files -> ((2 + length files) mod 32 <> 0)%nat ->
  dir_ok V' mkfs_sb 994 (dino V' 1) /\ i_nlink (dino V' 1) = 1 /\ exists z, content V' (dino V' 1) = entries files ++ replicate z 0.
Proof.
  intros (F & Ht & Hn & (z & Hc & Hs & Hm) & Hfull) Sh HV Hlen Hb Hmod. change ROOTINO with 1 in *.
  destruct (agree_file V V' mkfs_sb 994 (dino V 1) Sh) as (F' & Hf' & Hc'); [cbn; lia|done|done|].
  rewrite (agree_dino V V' 1) by (done || lia). rewrite Hc in Hc'. split; [|split; [done|by exists z]].
  constructor; [done|by apply Hf', Hfull|done| |]; rewrite Hc'.
  - rewrite Hs in *. rewrite length_app, length_replicate. change (Z.of_nat BSIZE) with (32 * 16) in Hm.
    apply Z.mod_divide in Hm as [q Hq]; [|done]. set (L := length (entries files)) in *.
    replace (L + z)%nat with (Z.to_nat (q * 32) * 16)%nat by lia. rewrite Nat.div_mul by done. lia.
  - apply Forall_app. split; [|apply Forall_replicate; unfold byte; lia]. apply bytes_entries. done.
Qed.

Lemma file_name_facts f nm : good f -> bytes (in_name f) -> file_name f = nm ++ [0] -> (slash ∉ nm) /\ bytes nm.
Proof.
  intros [G1 _ _] G2 Hnm. assert (forall a, a ∈ nm -> a ∈ in_name f) as Hsub.
  { intros a Ha. assert (a ∈ file_name f) as Hf by (rewrite Hnm; apply elem_of_app; by left). revert Hf.
    unfold file_name, skip_underscore. destruct (in_name f) as [|c l]; [done|]. destruct (c =? 95); [|done]. intros. by right. }
  split; [by intros ?%Hsub|]. unfold bytes in *. rewrite list.Forall_forall in *. auto.
Qed.

(** The boot on an image of mkfs, and the first transaction. *)
Lemma mkfs_booted files s V :
  mk_image files s V -> total (tree files) <= 994 - 29 ->
  exists s1 s2 V', mount (power_on (img s)) = Ret tt s1 /\ begin_op s1 = Ret tt s2 /\ bl_rep s2 V' ∅ ∅ 27 /\ bl_lim s2 = 994 /\
    held (ctx s2) = [] /\ forall m, 0 <= m < 994 -> V' m = V m.
Proof.
  intros M Hroom. assert (valid_log (img s) 994 30) as VL.
  { apply (image_valid _ V); [apply M|apply M|apply (sh_sb _ _ _ (mi_shape _ _ _ M))|apply (mi_zero _ _ _ M); lia]. }
  destruct (mount_quiet (img s) 994 30 V) as (s1 & E1 & Q1 & Est & HC).
  { apply (recovers_logged _ _ _ _ []); [exact VL| |done|].
    - unfold disk_view. rewrite (proj1 (mi_blocks _ _ _ M 994 ltac:(lia))). cbn [default]. rewrite (mi_zero _ _ _ M) by lia. by vm_compute.
    - intros m Hm _. unfold disk_view. rewrite (proj1 (mi_blocks _ _ _ M m ltac:(lia))). done. }
  { unfold LOGSIZE, MAXOPBLOCKS. lia. }
  destruct (wp_run _ _ _ (wp_mount _ _ _ VL)) as ([] & s1' & E1' & _ & _ & _ & Eh & secs & _ & El). rewrite E1 in E1'. injection E1' as <-.
  destruct (begin_transaction s1 _ Q1 eq_refl) as (s2 & E2 & R & Hlim & Hlb & _); [rewrite El; simpl; lia|].
  exists s1, s2, (disk_view (disk (lb s1))). split_and!; [done|done|done|by rewrite Hlim| |done].
  change (held (bctx (lb s2)) = []). by rewrite Hlb.
Qed.

(** C12: What mkfs was given is what the kernel reads: for the image mkfs builds of files whose
    names differ, the boot on it returns, the first transaction begins, and namei of the
    path of a file with ilock and readi give the bytes of the file.  (The root directory
    must not have a multiple of 32 entries.) *)
Theorem mkfs_boot_read files k f nm :
  Forall good files -> (length files <= 198)%nat -> total (tree files) <= sb_nblocks mkfs_sb ->
  ((2 + length files) mod 32 <> 0)%nat -> Forall (fun f => bytes (in_name f)) files ->
  files !! k = Some f -> file_name f = nm ++ [0] -> no_nul nm -> nm <> [] ->
  (forall j nm', (j < 2 + k)%nat -> root_name files j = Some nm' -> ~ same_name nm' (nm ++ [0])) ->
  exists s s1 s2, main files start = Ret tt s /\ mount (power_on (img s)) = Ret tt s1 /\ begin_op s1 = Ret tt s2 /\
    forall dev_read cwd, exists s3,
      (o <- namei dev_read cwd (slash :: nm ++ [0]) ;; i <- lift_opt o ;; ilock i ;; x <- geti i ;;
       r <- readi dev_read i 0 (i_size x) ;; ret (snd r)) (mkist boot_icache s2) = Ret (concat (in_reads f)) s3.
Proof.
  intros Hg Hlen Hroom Hmod Hb Hf Hnm Hnul Hne Hdiff. change (sb_nblocks mkfs_sb) with (994 - 29) in Hroom.
  destruct (wp_run _ _ _ (wp_main_image files Hg Hlen Hroom)) as ([] & s & E & V & M).
  destruct (mkfs_booted files s V M Hroom) as (s1 & s2 & V' & E1 & E2 & R & Hlim & Hh & HV). exists s, s1, s2.
  split; [exact E|]. split; [exact E1|]. split; [exact E2|]. intros dev_read cwd.
  pose proof (mi_shape _ _ _ M) as Sh. destruct (root_dir_ok V V' files (mi_root _ _ _ M) Sh HV Hlen Hb Hmod) as (D & Hnl & z & Hc).
  pose proof (lookup_lt_Some _ _ _ Hf) as Hk. destruct (mi_file _ _ _ M k f Hf) as (F & Ht & _ & Hfull & Hcf).
  assert (fs_shape V' mkfs_sb 994) as Sh' by (eapply fs_shape_ext; [exact Sh|intros m Hm; apply HV; change (data_start mkfs_sb) with 29 in Hm; lia|by vm_compute]).
  destruct (agree_file V V' mkfs_sb 994 (dino V (2 + Z.of_nat k)) Sh) as (F' & Hfull' & Hc'); [cbn; lia|done|done|].
  pose proof (agree_dino V V' (2 + Z.of_nat k) HV ltac:(lia)) as Ed. rewrite <- Ed in Ht, F', Hfull', Hc'.
  assert (forall name, same_name name (nm ++ [0]) -> dir_find (content V' (dino V' 1)) name = Some (2 + k)%nat /\
    de_inum (dent (content V' (dino V' 1)) (2 + k)) = 2 + Z.of_nat k) as Hfind.
  { intros name Hs. rewrite Hc. eapply (root_find files (replicate z 0) (2 + k)); [exact Hlen| |exact Hs|exact Hdiff]. cbn. by rewrite Hf, <- Hnm. }
  rewrite list.Forall_lookup in Hg, Hb. destruct (file_name_facts f nm (Hg _ _ Hf) (Hb _ _ Hf) Hnm) as [Hsl Hnb].
  assert (exists x0 x1 rest, boot_icache = x0 :: x1 :: rest) as (x0 & x1 & rest & Hic) by (unfold boot_icache, NINODE; cbn; eauto).
  enough (wp (o <- namei dev_read cwd (slash :: nm ++ [0]) ;; i <- lift_opt o ;; ilock i ;; x <- geti i ;;
       r <- readi dev_read i 0 (i_size x) ;; ret (snd r)) (fun c _ => c = concat (in_reads f)) (mkist boot_icache s2)) as Hw.
  { apply wp_run in Hw as (c & s3 & Er & ->). by exists s3. }
  eapply (wp_open_read dev_read cwd (mkist boot_icache s2) V' 27 mkfs_sb x0 x1 rest nm (2 + Z.of_nat k) (2 + k)); cbn [blk icache];
    rewrite ?Hlim; [exact R|exact Sh'|exact Hh|exact Hic|by apply Forall_replicate|exact Hnb|exact Hnul|exact Hsl|exact Hne|exact D|by rewrite Hnl|
      change (IBLOCK 1) with 2; lia|intros name Hs; by apply Hfind|by apply (Hfind (nm ++ [0]))|lia|exact F'|by apply Hfull'; rewrite Ed|exact Ht|
      by rewrite Hc', Ed|cbn; lia|done].
Qed.

Lemma mkfs_boot_read_witness :
  exists s s1 s2, main demo_files start = Ret tt s /\ mount (power_on (img s)) = Ret tt s1 /\ begin_op s1 = Ret tt s2 /\
    forall dev_read cwd, exists s3,
      (o <- namei dev_read cwd [47; 82; 69; 65; 68; 77; 69; 0] ;; i <- lift_opt o ;; ilock i ;; x <- geti i ;;
       r <- readi dev_read i 0 (i_size x) ;; ret (snd r)) (mkist boot_icache s2) = Ret [104; 105] s3.
Proof.
  destruct (mkfs_boot_read demo_files 1 (mkinput [82; 69; 65; 68; 77; 69; 0] [[104; 105]]) [82; 69; 65; 68; 77; 69])
    as (s & s1 & s2 & E & E1 & E2 & Er).
  - repeat constructor; try (by vm_compute); try (intros Hs; by repeat (apply elem_of_cons in Hs as [Hs|Hs]; [discriminate|])
      || apply not_elem_of_nil in Hs); left; simpl; tauto.
  - simpl. lia.
  - by vm_compute.
  - by vm_compute.
  - repeat constructor; unfold byte; lia.
  - done.
  - done.
  - repeat constructor; done.
  - done.
  - intros [|[|[|j]]] nm' Hj Hn; try lia; cbn in Hn; injection Hn as <-; by vm_compute.
  - exists s, s1, s2. split; [exact E|]. split; [exact E1|]. split; [exact E2|exact Er].
Defined.
