(* ===== verification/Mp.v ===== *)
(** * mp.c: the processors of the machine

    mpinit finds the tables the firmware left in memory and reads from them which
    processors there are.  The memory is a function of addresses; addresses are 32-bit
    words.  The messages and the writes to ports are recorded in the state. *)

From stdpp Require Import base list numbers strings.
From S2P Require Import Prelude Kalloc.

Open Scope Z_scope.
Local Open Scope kernel_scope.

Definition NCPU : Z := 8.

Definition MPBOOT : Z := 2.
Definition MPPROC : Z := 0.
Definition MPBUS : Z := 1.
Definition MPIOAPIC : Z := 2.
Definition MPIOINTR : Z := 3.
Definition MPLINTR : Z := 4.

Definition sizeof_mp : Z := 16.
Definition sizeof_mpconf : Z := 44.
Definition sizeof_mpproc : Z := 20.
Definition sizeof_mpioapic : Z := 8.

Section Memory.
Variable mem : Z -> Z.

(** The [n] bytes at an address; a number there. *)
Definition bytes_at (a : Z) (n : nat) : list Z := (fun i => mem (u32 (a + Z.of_nat i))) <$> seq 0 n.
Definition rd (n : nat) (a : Z) : Z := of_le (bytes_at a n).

(** The fields of struct mp and struct mpconf. *)
Definition mp_physaddr (mp : Z) : Z := rd 4 (mp + 4).
Definition mp_imcrp (mp : Z) : Z := rd 1 (mp + 12).
Definition conf_length (conf : Z) : Z := rd 2 (conf + 4).
Definition conf_version (conf : Z) : Z := rd 1 (conf + 6).
Definition conf_lapicaddr (conf : Z) : Z := rd 4 (conf + 36).

Definition sum (addr : Z) (len : nat) : Z := u8 (foldr Z.add 0 (bytes_at addr len)).

(** memcmp with a string of four characters. *)
Definition signature (a : Z) (sig : list Z) : bool := bool_decide (bytes_at a 4 = sig).

(** The loop of mpsearch1, from [p] on. *)
Fixpoint mpsearch1_loop (fuel : nat) (p e : Z) : option Z :=
  match fuel with
  | O => None
  | S fuel =>
      if p <? e then
        if signature p [95; 77; 80; 95] && (sum p (Z.to_nat sizeof_mp) =? 0) then Some p
        else mpsearch1_loop fuel (u32 (p + sizeof_mp)) e
      else Some 0
  end.

Definition mpsearch1 (a len : Z) : option Z :=
  let addr := p2v a in
  mpsearch1_loop (1 + Z.to_nat (len / sizeof_mp)) addr (u32 (addr + len)).

Definition mpsearch : option Z :=
  let bda := p2v 1024 in
  let p := Z.shiftl (Z.lor (Z.shiftl (rd 1 (bda + 15)) 8) (rd 1 (bda + 14))) 4 in
  mp ← (if negb (p =? 0) then mpsearch1 p 1024
        else mpsearch1 (u32 (Z.lor (Z.shiftl (rd 1 (bda + 20)) 8) (rd 1 (bda + 19)) * 1024 - 1024)) 1024);
  if negb (mp =? 0) then Some mp else mpsearch1 983040 65536.

(** mpconfig: the configuration table and the floating pointer, or 0. *)
Definition mpconfig : option (Z * Z) :=
  mp ← mpsearch;
  if (mp =? 0) || (mp_physaddr mp =? 0) then Some (0, 0) else
  let conf := p2v (mp_physaddr mp) in
  if negb (signature conf [80; 67; 77; 80]) then Some (0, 0) else
  if negb (conf_version conf =? 1) && negb (conf_version conf =? 4) then Some (0, 0) else
  if negb (sum conf (Z.to_nat (conf_length conf)) =? 0) then Some (0, 0) else
  Some (conf, mp).

(** ** mpinit *)

(** cpus[].id, bcpu - cpus, ismp, ncpu, ioapicid and lapic; the messages; the writes to
    ports. *)
Record mpst := mkmp {
  cpu_id : list Z; bcpu : Z; ismp : Z; ncpu : Z; ioapicid : Z; lapic : Z;
  messages : list (string * list Z); outs : list (Z * Z) }.

Definition set_ismp v s := mkmp (cpu_id s) (bcpu s) v (ncpu s) (ioapicid s) (lapic s) (messages s) (outs s).
Definition set_bcpu v s := mkmp (cpu_id s) v (ismp s) (ncpu s) (ioapicid s) (lapic s) (messages s) (outs s).
Definition set_lapic v s := mkmp (cpu_id s) (bcpu s) (ismp s) (ncpu s) (ioapicid s) v (messages s) (outs s).
Definition set_ioapicid v s := mkmp (cpu_id s) (bcpu s) (ismp s) (ncpu s) v (lapic s) (messages s) (outs s).
Definition set_ncpu v s := mkmp (cpu_id s) (bcpu s) (ismp s) v (ioapicid s) (lapic s) (messages s) (outs s).
Definition set_cpus l s := mkmp l (bcpu s) (ismp s) (ncpu s) (ioapicid s) (lapic s) (messages s) (outs s).
Definition message f a s := mkmp (cpu_id s) (bcpu s) (ismp s) (ncpu s) (ioapicid s) (lapic s) (messages s ++ [(f, a)]) (outs s).
Definition out_port p v s := mkmp (cpu_id s) (bcpu s) (ismp s) (ncpu s) (ioapicid s) (lapic s) (messages s) (outs s ++ [(p, v)]).

Definition mpbcpu : M mpst Z := gets bcpu.

(** case MPPROC. *)
Definition mp_proc (p : Z) : M mpst unit :=
  n <- gets ncpu ;;
  let apicid := rd 1 (p + 1) in
  (when (negb (n =? apicid)) do
     (modify (message "mpinit: ncpu=%d apicid=%d" [n; apicid]) ;; modify (set_ismp 0))) ;;
  (when (negb (Z.land (rd 1 (p + 3)) MPBOOT =? 0)) do modify (set_bcpu n)) ;;
  ids <- gets cpu_id ;;
  if (0 <=? n) && (n <? Z.of_nat (length ids)) then
    modify (set_cpus (<[Z.to_nat n := u8 n]> ids)) ;;
    modify (set_ncpu (n + 1))
  else fault.

Fixpoint mpinit_loop (fuel : nat) (p e : Z) : M mpst unit :=
  match fuel with
  | O => out_of_fuel
  | S fuel =>
      if p <? e then
        let t := rd 1 p in
        if t =? MPPROC then mp_proc p ;; mpinit_loop fuel (u32 (p + sizeof_mpproc)) e
        else if t =? MPIOAPIC then
          modify (set_ioapicid (rd 1 (p + 1))) ;;
          mpinit_loop fuel (u32 (p + sizeof_mpioapic)) e
        else if (t =? MPBUS) || (t =? MPIOINTR) || (t =? MPLINTR) then
          mpinit_loop fuel (u32 (p + 8)) e
        else
          modify (message "mpinit: unknown config type %x" [t]) ;;
          modify (set_ismp 0) ;;
          mpinit_loop fuel p e
      else ret tt
  end.

(** [port] is what inb(0x23) reads. *)
Definition mpinit (fuel : nat) (port : Z) : M mpst unit :=
  modify (set_bcpu 0) ;;
  c <- lift_opt mpconfig ;;
  let conf := fst c in let mp := snd c in
  if conf =? 0 then ret tt else
  modify (set_ismp 1) ;;
  modify (set_lapic (conf_lapicaddr conf)) ;;
  mpinit_loop fuel (u32 (conf + sizeof_mpconf)) (u32 (conf + conf_length conf)) ;;
  s <- gets ismp ;;
  if s =? 0 then
    modify (set_ncpu 1) ;;
    modify (set_lapic 0) ;;
    modify (set_ioapicid 0)
  else
    when (negb (mp_imcrp mp =? 0)) do
      (modify (out_port 34 112) ;;
       modify (out_port 35 (u8 (Z.lor port 1)))).
End Memory.

(** ** The search *)

Lemma length_bytes_at mem a n : length (bytes_at mem a n) = n.
Proof. unfold bytes_at. by rewrite length_fmap, length_seq. Qed.

(** A floating pointer structure at [p]. *)
Definition is_mp (mem : Z -> Z) (p : Z) : Prop := bytes_at mem p 4 = [95; 77; 80; 95] /\ sum mem p 16 = 0.

(** mpsearch1 looks at every sixteenth address of the range and returns the first one with
    a structure, or 0. *)
Lemma mpsearch1_spec mem a k :
  0 <= k -> p2v a + 16 * k < 2 ^ 32 ->
  exists r, mpsearch1 mem a (16 * k) = Some r /\
    ((exists i, 0 <= i < k /\ r = p2v a + 16 * i /\ is_mp mem r /\ forall j, 0 <= j < i -> ~ is_mp mem (p2v a + 16 * j)) \/
     (r = 0 /\ forall j, 0 <= j < k -> ~ is_mp mem (p2v a + 16 * j))).
Proof.
  intros Hk Hw. pose proof (Z.mod_pos_bound (a + KERNBASE) (2 ^ 32) ltac:(lia)) as Hp. change ((a + KERNBASE) mod 2 ^ 32) with (p2v a) in Hp.
  unfold mpsearch1, sizeof_mp. cbv zeta. rewrite u32_small by lia. replace (16 * k / 16) with k by (symmetry; rewrite Z.mul_comm; apply Z.div_mul; lia).
  assert (forall m i, 0 <= i <= k -> Z.to_nat (k - i) = m -> (forall j, 0 <= j < i -> ~ is_mp mem (p2v a + 16 * j)) ->
    exists r, mpsearch1_loop mem (1 + m) (p2v a + 16 * i) (p2v a + 16 * k) = Some r /\
    ((exists i, 0 <= i < k /\ r = p2v a + 16 * i /\ is_mp mem r /\ forall j, 0 <= j < i -> ~ is_mp mem (p2v a + 16 * j)) \/
     (r = 0 /\ forall j, 0 <= j < k -> ~ is_mp mem (p2v a + 16 * j)))) as Hloop.
  { induction m as [|m IH]; intros i Hi Hm Hno; cbn [Nat.add mpsearch1_loop].
    - rewrite (proj2 (Z.ltb_ge _ _)) by lia. exists 0. split; [done|]. right. split; [done|]. intros j Hj. apply Hno. lia.
    - rewrite (proj2 (Z.ltb_lt _ _)) by lia. unfold signature. change (Z.to_nat sizeof_mp) with 16%nat. case_bool_decide as E1.
      + destruct (Z.eqb_spec (sum mem (p2v a + 16 * i) 16) 0) as [E2|E2]; cbn [andb].
        * exists (p2v a + 16 * i). split; [done|]. left. exists i. split_and!; try done; lia.
        * unfold sizeof_mp. rewrite u32_small by lia. replace (p2v a + 16 * i + 16) with (p2v a + 16 * (i + 1)) by lia.
          apply IH; [lia|lia|]. intros j Hj. destruct (decide (j = i)) as [->|]; [intros [_ ?]; done|]. apply Hno. lia.
      + cbn [andb]. unfold sizeof_mp. rewrite u32_small by lia. replace (p2v a + 16 * i + 16) with (p2v a + 16 * (i + 1)) by lia.
        apply IH; [lia|lia|]. intros j Hj. destruct (decide (j = i)) as [->|]; [intros [? _]; done|]. apply Hno. lia. }
  destruct (Hloop (Z.to_nat k) 0) as (r & E & Hr); [lia|by rewrite Z.sub_0_r|lia|]. rewrite Z.mul_0_r, Z.add_0_r in E. by exists r.
Qed.

(** ** The table *)

(** The entries of the table, with the bytes mpinit does not look at. *)
Inductive mpentry :=
| Proc (apicid version flags : Z) (l : list Z)
| Bus (l : list Z)
| Ioapic (apicno : Z) (l : list Z)
| Iointr (l : list Z)
| Lintr (l : list Z).

Definition encode (e : mpentry) : list Z :=
  match e with
  | Proc a v f l => 0 :: a :: v :: f :: l
  | Bus l => 1 :: l
  | Ioapic n l => 2 :: n :: l
  | Iointr l => 3 :: l
  | Lintr l => 4 :: l
  end.

Definition entry_size (e : mpentry) : nat := match e with Proc _ _ _ _ => 20 | _ => 8 end.

(** The processors of a table: APIC id and flags. *)
Definition procs (es : list mpentry) : list (Z * Z) :=
  omap (fun e => match e with Proc a _ f _ => Some (a, f) | _ => None end) es.

Definition ioapics (es : list mpentry) : list Z := omap (fun e => match e with Ioapic n _ => Some n | _ => None end) es.

(** The processor with the boot flag that comes last, from number [k] on. *)
Fixpoint boot_cpu (ps : list (Z * Z)) (k b : Z) : Z :=
  match ps with
  | [] => b
  | (_, f) :: ps => boot_cpu ps (k + 1) (if Z.land f MPBOOT =? 0 then b else k)
  end.

(** The APIC ids are the numbers of the processors, from [k] on. *)
Fixpoint numbered (ps : list (Z * Z)) (k : Z) : bool :=
  match ps with
  | [] => true
  | (a, _) :: ps => (k =? a) && numbered ps (k + 1)
  end.

Definition entry_ok (e : mpentry) : Prop := length (encode e) = entry_size e.

Section Table.
Variable mem : Z -> Z.

Definition holds (a : Z) (l : list Z) : Prop := forall i x, l !! i = Some x -> mem (u32 (a + Z.of_nat i)) = x.

Lemma holds_app a l1 l2 : holds a (l1 ++ l2) <-> holds a l1 /\ holds (a + Z.of_nat (length l1)) l2.
Proof.
  unfold holds. split.
  - intros Hh. split; intros i x Hx; [apply Hh; by apply lookup_app_l_Some|].
    rewrite <- Z.add_assoc, <- Nat2Z.inj_add. apply Hh. rewrite lookup_app_r by lia. by rewrite Nat.add_comm, Nat.add_sub.
  - intros [H1 H2] i x Hx. apply lookup_app_Some in Hx as [Hx|[Hl Hx]]; [by apply H1|].
    pose proof (H2 _ _ Hx) as E. by replace (a + Z.of_nat (length l1) + Z.of_nat (i - length l1)) with (a + Z.of_nat i) in E by lia.
Qed.

Lemma bytes_holds a l : bytes_at mem a (length l) = l -> holds a l.
Proof.
  intros E i x Hx. pose proof (lookup_lt_Some _ _ _ Hx). rewrite <- E in Hx. unfold bytes_at in Hx.
  rewrite list_lookup_fmap, lookup_seq_lt in Hx by done. by injection Hx.
Qed.

Lemma holds_rd a l k x : holds a l -> l !! k = Some x -> rd mem 1 (a + Z.of_nat k) = x.
Proof.
  intros Hh Hk. change (mem (u32 (a + Z.of_nat k + Z.of_nat 0)) + 256 * 0 = x). rewrite (Z.add_0_r (_ + _)), (Hh _ _ Hk). lia.
Qed.

(** What the entries make of the state. *)
Record after (s : mpst) (es : list mpentry) (s' : mpst) : Prop := {
  af_ncpu : ncpu s' = ncpu s + Z.of_nat (length (procs es));
  af_ids i : (i < Z.to_nat (ncpu s'))%nat -> cpu_id s' !! i = Some (Z.of_nat i);
  af_boot : bcpu s' = boot_cpu (procs es) (ncpu s) (bcpu s);
  af_mp : ismp s' = if numbered (procs es) (ncpu s) then ismp s else 0;
  af_ioapic : ioapicid s' = default (ioapicid s) (last (ioapics es));
  af_lapic : lapic s' = lapic s;
  af_outs : outs s' = outs s }.

(** The numbers given so far, with room for [n] more. *)
Record counted (s : mpst) (n : nat) : Prop := {
  ct_len : length (cpu_id s) = Z.to_nat NCPU;
  ct_room : 0 <= ncpu s /\ ncpu s + Z.of_nat n <= NCPU;
  ct_ids i : (i < Z.to_nat (ncpu s))%nat -> cpu_id s !! i = Some (Z.of_nat i) }.

Lemma after_nil s n : counted s n -> after s [] s.
Proof. intros [C1 C2 C3]. constructor; cbn; try done; lia. Qed.

(** An entry that is no processor. *)
Lemma after_skip s n e es s1 s' :
  counted s n -> (forall a v f l, e <> Proc a v f l) -> s1 = set_ioapicid (default (ioapicid s) (match e with Ioapic n _ => Some n | _ => None end)) s ->
  after s1 es s' -> after s (e :: es) s'.
Proof.
  intros C He -> [A1 A2 A3 A4 A5 A6 A7].
  assert (procs (e :: es) = procs es) as Ep by (destruct e; [by edestruct He|done..]).
  constructor; rewrite ?Ep; try done. rewrite A5. destruct e; try done. cbn [default].
  change (ioapics (Ioapic apicno l :: es)) with (apicno :: ioapics es). rewrite last_cons. by destruct (last (ioapics es)).
Qed.

(** One processor. *)
Lemma wp_mp_proc p a v f l s n (Q : unit -> mpst -> Prop) :
  holds p (encode (Proc a v f l)) -> counted s (S n) ->
  (forall s1, counted s1 n -> (forall es s', after s1 es s' -> after s (Proc a v f l :: es) s') -> Q tt s1) ->
  wp (mp_proc mem p) Q s.
Proof.
  intros Hh [C1 [C2 C2'] C3] HQ. unfold mp_proc. wp_step. wp_step. cbv zeta.
  pose proof (holds_rd p _ 1 a Hh eq_refl) as Ea. pose proof (holds_rd p _ 3 f Hh eq_refl) as Ef. change (Z.of_nat 1) with 1 in Ea. change (Z.of_nat 3) with 3 in Ef.
  rewrite Ea, Ef. set (k := ncpu s) in *. unfold NCPU in *.
  set (s1 := if negb (k =? a) then set_ismp 0 (message "mpinit: ncpu=%d apicid=%d" [k; a] s) else s).
  set (s2 := if negb (Z.land f MPBOOT =? 0) then set_bcpu k s1 else s1).
  assert (wp (when (negb (k =? a)) do (modify (message "mpinit: ncpu=%d apicid=%d" [k; a]) ;; modify (set_ismp 0))) (fun _ s' => s' = s1) s) as W1
    by (unfold s1; destruct (negb (k =? a)); wp_steps; done).
  apply wp_bind. eapply wp_mono; [exact W1|]. cbn beta. intros _ s' ->.
  assert (wp (when (negb (Z.land f MPBOOT =? 0)) do modify (set_bcpu k)) (fun _ s' => s' = s2) s1) as W2
    by (unfold s2; destruct (negb (Z.land f MPBOOT =? 0)); wp_steps; done).
  apply wp_bind. eapply wp_mono; [exact W2|]. cbn beta. intros _ s' ->.
  assert (cpu_id s2 = cpu_id s /\ ioapicid s2 = ioapicid s /\ lapic s2 = lapic s /\ outs s2 = outs s /\
    bcpu s2 = (if Z.land f MPBOOT =? 0 then bcpu s else k) /\ ismp s2 = if k =? a then ismp s else 0) as (Ei & Eo & El & Eu & Eb & Em)
    by (unfold s2, s1; destruct (k =? a), (Z.land f MPBOOT =? 0); done).
  clearbody s2. clear s1 W1 W2. wp_step. wp_step. rewrite Ei, C1. change (Z.of_nat (Z.to_nat 8)) with 8.
  rewrite (proj2 (Z.leb_le 0 k)), (proj2 (Z.ltb_lt k 8)) by lia. cbn [andb]. wp_steps. rewrite u8_small by lia. apply HQ.
  - constructor; cbn [cpu_id ncpu set_ncpu set_cpus]; [by rewrite length_insert|unfold NCPU; lia|]. intros i Hi.
    destruct (decide (i = Z.to_nat k)) as [->|Hne]; [rewrite list_lookup_insert_eq by (rewrite C1; lia); f_equal; lia|].
    rewrite list_lookup_insert_ne by done. apply C3. lia.
  - intros es s' [A1 A2 A3 A4 A5 A6 A7]. cbn [cpu_id ncpu bcpu ismp ioapicid lapic outs set_ncpu set_cpus] in *.
    assert (procs (Proc a v f l :: es) = (a, f) :: procs es) as Ep by done. assert (ioapics (Proc a v f l :: es) = ioapics es) as Eio by done.
    constructor; rewrite ?Ep, ?Eio; cbn [length boot_cpu numbered]; fold k; try done; [lia|by rewrite A3, Eb|rewrite A4, Em; by destruct (k =? a), (numbered (procs es) (k + 1))|by rewrite A5, Eo|congruence|congruence].
Qed.

Lemma wp_mpinit_loop es fuel p s :
  let l := concat (encode <$> es) in
  Forall entry_ok es -> holds p l -> 0 <= p -> p + Z.of_nat (length l) < 2 ^ 32 -> (length es < fuel)%nat ->
  counted s (length (procs es)) ->
  wp (mpinit_loop mem fuel p (p + Z.of_nat (length l))) (fun _ s' => after s es s') s.
Proof.
  cbv zeta. revert fuel p s. induction es as [|e es IH]; intros fuel p s Hok Hh Hp Hw Hf C;
    (destruct fuel as [|fuel]; [cbn in Hf; lia|]); cbn [mpinit_loop].
  - cbn [fmap list_fmap concat length Z.of_nat]. rewrite Z.add_0_r, Z.ltb_irrefl. wp_steps. by eapply after_nil.
  - inversion Hok as [|? ? He Hes]; subst. cbn [fmap list_fmap concat] in Hh, Hw |- *. rewrite length_app, Nat2Z.inj_add in Hw |- *.
    apply holds_app in Hh as [H1 H2]. unfold entry_ok in He. set (n := length (encode e)) in *. set (l := concat (encode <$> es)) in *.
    assert (0 < Z.of_nat n) by (rewrite He; destruct e; cbn; lia). rewrite (proj2 (Z.ltb_lt _ _)) by lia.
    assert (forall k s1, k = Z.of_nat n -> counted s1 (length (procs es)) ->
      wp (mpinit_loop mem fuel (u32 (p + k)) (p + (Z.of_nat n + Z.of_nat (length l)))) (fun _ s' => after s1 es s') s1) as Hnext.
    { intros k s1 -> C1. rewrite u32_small by lia. rewrite Z.add_assoc. apply IH; [done|done|lia|lia|cbn in Hf; lia|done]. }
    pose proof (holds_rd p (encode e) 0) as Ht. change (Z.of_nat 0) with 0 in Ht. rewrite Z.add_0_r in Ht.
    destruct e as [a v f x|x|k x|x|x]; rewrite (Ht _ H1 eq_refl); cbn [Z.eqb MPPROC MPIOAPIC MPBUS MPIOINTR MPLINTR Pos.eqb orb].
    + apply wp_bind. eapply wp_mp_proc; [exact H1|exact C|]. intros s1 C1 Ha. eapply wp_mono; [apply Hnext; [by rewrite He|exact C1]|].
      cbn beta. intros [] s'. apply Ha.
    + eapply wp_mono; [apply Hnext; [by rewrite He|exact C]|]. cbn beta. intros _ s' A. eapply (after_skip s _ _ es s); [exact C|done|by destruct s|exact A].
    + wp_step. wp_step. pose proof (holds_rd p _ 1 k H1 eq_refl) as Ek. change (Z.of_nat 1) with 1 in Ek. rewrite Ek.
      eapply wp_mono; [apply Hnext; [by rewrite He|by destruct C; constructor]|]. cbn beta. intros _ s' A. eapply after_skip; [exact C|done|done|exact A].
    + eapply wp_mono; [apply Hnext; [by rewrite He|exact C]|]. cbn beta. intros _ s' A. eapply (after_skip s _ _ es s); [exact C|done|by destruct s|exact A].
    + eapply wp_mono; [apply Hnext; [by rewrite He|exact C]|]. cbn beta. intros _ s' A. eapply (after_skip s _ _ es s); [exact C|done|by destruct s|exact A].
Qed.
End Table.

(** ** The result *)

Definition mp_boot : mpst := mkmp (replicate (Z.to_nat NCPU) 0) 0 0 0 0 0 [] [].

(** C40: mpinit on a configuration table of entries of the known types, with at most eight
    processors, returns: when the processors carry the numbers 0, 1, ... in their order,
    ncpu is their number, each has its number as id, the boot processor is the last one
    with the boot flag, and the local and the I/O APIC are those of the table; otherwise
    the machine is taken for one with a single processor and no APICs. *)
Theorem mpinit_reads_table mem conf mp es port fuel :
  let l := concat (encode <$> es) in
  mpconfig mem = Some (conf, mp) -> 0 < conf -> conf + conf_length mem conf < 2 ^ 32 -> Forall entry_ok es ->
  holds mem (conf + sizeof_mpconf) l -> conf_length mem conf = sizeof_mpconf + Z.of_nat (length l) ->
  Z.of_nat (length (procs es)) <= NCPU -> (length es < fuel)%nat ->
  exists s', mpinit mem fuel port mp_boot = Ret tt s' /\
    if numbered (procs es) 0 then
      ismp s' = 1 /\ ncpu s' = Z.of_nat (length (procs es)) /\
      (forall i, (i < length (procs es))%nat -> cpu_id s' !! i = Some (Z.of_nat i)) /\
      bcpu s' = boot_cpu (procs es) 0 0 /\ ioapicid s' = default 0 (last (ioapics es)) /\
      lapic s' = conf_lapicaddr mem conf /\
      outs s' = if mp_imcrp mem mp =? 0 then [] else [(34, 112); (35, u8 (Z.lor port 1))]
    else ismp s' = 0 /\ ncpu s' = 1 /\ ioapicid s' = 0 /\ lapic s' = 0 /\ outs s' = [].
Proof.
  cbv zeta. set (l := concat _). intros Hc Hpos Hw Hok Hh Hlen Hn Hf. unfold sizeof_mpconf in *.
  assert (forall Q : unit -> mpst -> Prop,
    (forall s', after (set_lapic (conf_lapicaddr mem conf) (set_ismp 1 (set_bcpu 0 mp_boot))) es s' ->
       wp (x <- gets ismp ;; if x =? 0 then modify (set_ncpu 1) ;; modify (set_lapic 0) ;; modify (set_ioapicid 0)
           else when (negb (mp_imcrp mem mp =? 0)) do (modify (out_port 34 112) ;; modify (out_port 35 (u8 (Z.lor port 1))))) Q s') ->
    wp (mpinit mem fuel port) Q mp_boot) as Hwp.
  { intros Q HQ. unfold mpinit. wp_step. wp_step. wp_step. eapply wp_lift_opt; [exact Hc|]. cbn [fst snd].
    rewrite (proj2 (Z.eqb_neq conf 0)) by lia. do 4 wp_step. apply wp_bind. unfold sizeof_mpconf. rewrite Hlen, Z.add_assoc.
    rewrite !u32_small by lia. eapply wp_mono; [apply wp_mpinit_loop; [done|exact Hh|lia|fold l; lia|exact Hf|]|].
    - constructor; [done|cbn; unfold NCPU in *; lia|intros i Hi; cbn in Hi; lia].
    - cbn beta. intros [] s' A. by apply HQ. }
  match goal with |- exists s', _ /\ @?P s' => enough (wp (mpinit mem fuel port) (fun _ s' => P s') mp_boot) as Hend end.
  { apply wp_run in Hend as ([] & s' & E & HP). exists s'. split; [exact E|exact HP]. }
  apply Hwp. intros s' [A1 A2 A3 A4 A5 A6 A7]. cbn [ncpu bcpu ismp ioapicid lapic outs set_lapic set_ismp set_bcpu mp_boot] in *.
  rewrite Z.add_0_l in A1. wp_step. wp_step. rewrite A4. destruct (numbered (procs es) 0); cbn [Z.eqb].
  - assert (forall i, (i < length (procs es))%nat -> cpu_id s' !! i = Some (Z.of_nat i)) as Hids by (intros i Hi; apply A2; lia).
    destruct (mp_imcrp mem mp =? 0); cbn [negb]; wp_steps; split_and!; try done. cbn. by rewrite A7.
  - wp_steps. done.
Qed.

(** A machine with two processors. *)
Definition demo_es : list mpentry := [Proc 0 20 3 (replicate 16 0); Proc 1 20 1 (replicate 16 0); Bus (replicate 7 0); Ioapic 2 (replicate 6 0)].
Definition demo_mp : list Z := [95; 77; 80; 95; 64; 252; 9; 0; 1; 4; 219; 0; 128; 0; 0; 0].
Definition demo_conf : list Z := [80; 67; 77; 80; 100; 0; 4; 84; 0; 0; 0; 0; 0; 0; 0; 0; 0; 0; 0; 0; 0; 0; 0; 0; 0; 0; 0; 0; 0; 0; 0; 0; 0; 0; 4; 0; 0; 0; 224; 254; 0; 0; 0; 0] ++ concat (encode <$> demo_es).
Definition demo_mem (a : Z) : Z :=
  if a =? p2v 1038 then 192 else if a =? p2v 1039 then 159 else
  if p2v 654336 <=? a then
    if a <? p2v 654400 then default 0 (demo_mp !! Z.to_nat (a - p2v 654336)) else default 0 (demo_conf !! Z.to_nat (a - p2v 654400))
  else 0.

Lemma mpinit_reads_table_witness :
  exists s', mpinit demo_mem 5 0 mp_boot = Ret tt s' /\ ncpu s' = 2 /\ bcpu s' = 0 /\ ioapicid s' = 2 /\ lapic s' = 4276092928.
Proof.
  destruct (mpinit_reads_table demo_mem (p2v 654400) (p2v 654336) demo_es 0 5) as (s' & E & H).
  - vm_compute. reflexivity.
  - vm_compute. reflexivity.
  - vm_compute. reflexivity.
  - repeat constructor.
  - apply bytes_holds. vm_compute. reflexivity.
  - vm_compute. reflexivity.
  - vm_compute. discriminate.
  - cbn. lia.
  - change (numbered (procs demo_es) 0) with true in H. destruct H as (_ & H2 & _ & H4 & H5 & H6 & _). exists s'.
    split; [exact E|]. split; [exact H2|]. split; [exact H4|]. split; [exact H5|]. rewrite H6. vm_compute. reflexivity.
Defined.

(** An entry of an unknown type makes mpinit loop forever: it prints its message again
    and again and never gets past the entry. *)
Theorem mpinit_unknown_hangs mem fuel p e s :
  p < e -> MPLINTR < rd mem 1 p -> mpinit_loop mem fuel p e s = Fuel.
Proof.
  intros Hp Ht. unfold MPLINTR in Ht. revert s. induction fuel as [|fuel IH]; intros s; [done|]. cbn [mpinit_loop].
  rewrite (proj2 (Z.ltb_lt _ _) Hp). unfold MPPROC, MPIOAPIC, MPBUS, MPIOINTR, MPLINTR.
  rewrite !(proj2 (Z.eqb_neq _ _)) by lia. cbn [orb]. unfold bind, modify. apply IH.
Qed.

Lemma mpinit_unknown_hangs_witness : mpinit_loop (fun _ => 9) 1000 16 24 mp_boot = Fuel.
Proof. apply (mpinit_unknown_hangs (fun _ => 9) 1000 16 24 mp_boot); vm_compute; reflexivity. Defined.
