(* ===== verification/Uprog.v ===== *)
(** * The small user programs: cat.c, echo.c, grep.c main, init.c, kill.c, ln.c, ls.c, mkdir.c, rm.c, wc.c, zombie.c

    A program is an interaction tree whose events are the system calls it makes.  exit() and a
    run off an object end it: the outcome of a piece of a program is [Ok] of its result,
    [Exited] or [Faulted].  [world] is what the programs see of the system: the descriptors,
    the files, what each read of a file returns, and what was written; [sys] is the effect
    of the calls on it, and the results of the calls on names and processes are taken from a
    list.  [ends] says that a program ends, in which world and how. *)

From stdpp Require Import base list numbers strings gmap.
From S2P Require Import Prelude CString Layout Ulib Grep Inode Dir.
From ITree Require Import ITree ITreeFacts Basics.Basics Events.State Events.StateFacts.
Import Monads.

Open Scope Z_scope.

Inductive call :=
| Mknod (path : list Z) (major minor : Z) | Mkdir (path : list Z) | Link (old new : list Z) | Unlink (path : list Z)
| Dup (fd : Z) | Fork | Wait | Exec (path : list Z) (argv : list (list Z)) | Kill (pid : Z) | Sleep (n : Z).

(** The system calls.  read returns the bytes it stored, as many as its result says. *)
Variant sysE : Type -> Type :=
| Open (path : list Z) (mode : Z) : sysE Z
| Close (fd : Z) : sysE Z
| Read (fd n : Z) : sysE (option (list Z))
| Write (fd : Z) (bs : list Z) : sysE Z
| Fstat (fd : Z) : sysE (option stat)
| Call (c : call) : sysE Z.

Inductive out (A : Type) := Ok (a : A) | Exited | Faulted.
Arguments Ok {A}. Arguments Exited {A}. Arguments Faulted {A}.

Definition U (A : Type) : Type := itree sysE (out A).
Definition uret {A} (a : A) : U A := Ret (Ok a).
Definition ubind {A B} (m : U A) (k : A -> U B) : U B :=
  ITree.bind m (fun r => match r with Ok a => k a | Exited => Ret Exited | Faulted => Ret Faulted end).
Definition ucall {A} (e : sysE A) : U A := ITree.map Ok (ITree.trigger e).
Definition exit {A} : U A := Ret Exited.
Definition fault {A} : U A := Ret Faulted.
Definition ulift {A} (o : option A) : U A := match o with Some a => uret a | None => fault end.
Definition uiter {I A} (body : I -> U (I + A)) (i : I) : U A :=
  ITree.iter (fun i => ITree.map (fun r =>
    match r with Ok (inl j) => inl j | Ok (inr a) => inr (Ok a) | Exited => inr Exited | Faulted => inr Faulted end) (body i)) i.

Declare Scope uprog_scope.
Notation "x <~ m ;; k" := (ubind m (fun x => k)) (at level 62, m at next level, right associativity) : uprog_scope.
Notation "m ;~ k" := (ubind m (fun _ => k)) (at level 62, right associativity) : uprog_scope.
Open Scope uprog_scope.

(** The characters of a literal. *)
Definition chars (s : string) : list Z := (fun a => Z.of_nat (Ascii.nat_of_ascii a)) <$> String.list_ascii_of_string s.

(** printf passes its bytes to write one at a time. *)
Fixpoint putcs (fd : Z) (bs : list Z) : U unit :=
  match bs with [] => uret tt | c :: bs => ucall (Write fd [c]) ;~ putcs fd bs end.
(** Every format ends with a newline. *)
Definition print (fd : Z) (fmt : string) (args : list arg) : U unit :=
  bs <~ ulift (printf (chars fmt ++ [10; 0]) args) ;; putcs fd bs.

(** Arguments of printf: a number, and a string at an address that is not null. *)
Definition num (n : Z) : arg := mkarg n None.
Definition text (s : list Z) : arg := mkarg 1 (Some (s ++ [0])).

(** ** cat.c *)

Definition cat (fd : Z) : U unit :=
  uiter (fun _ : unit =>
    r <~ ucall (Read fd 512) ;;
    match r with
    | None => print 1 "cat: read error" [] ;~ exit
    | Some [] => uret (inr tt)
    | Some bs => ucall (Write 1 bs) ;~ uret (inl tt)
    end) tt.

(** The loop of main over its arguments, in cat.c and wc.c. *)
Fixpoint over_files (f : Z -> list Z -> U unit) (msg : string) (paths : list (list Z)) : U unit :=
  match paths with
  | [] => exit
  | p :: paths =>
      fd <~ ucall (Open p 0) ;;
      if fd <? 0 then print 1 msg [text p] ;~ exit
      else f fd p ;~ ucall (Close fd) ;~ over_files f msg paths
  end.

(** main, the arguments after the name of the program. *)
Definition cat_main (args : list (list Z)) : U unit :=
  match args with [] => cat 0 ;~ exit | _ => over_files (fun fd _ => cat fd) "cat: cannot open %s" args end.

(** ** wc.c *)

Record counts := mkcounts { n_l : Z; n_w : Z; n_c : Z; inword : bool }.

Definition wc_char (k : counts) (c : Z) : option counts :=
  let k := mkcounts (if c =? 10 then i32 (n_l k + 1) else n_l k) (n_w k) (i32 (n_c k + 1)) (inword k) in
  match strchr [32; 13; 9; 10; 11; 0] c with
  | None => None
  | Some (Some _) => Some (mkcounts (n_l k) (n_w k) (n_c k) false)
  | Some None => Some (if inword k then k else mkcounts (n_l k) (i32 (n_w k + 1)) (n_c k) true)
  end.

Fixpoint wc_chars (k : counts) (bs : list Z) : option counts :=
  match bs with
  | [] => Some k
  | c :: bs => match wc_char k c with Some k => wc_chars k bs | None => None end
  end.

Definition wc (fd : Z) (name : list Z) : U unit :=
  k <~ uiter (fun k =>
    r <~ ucall (Read fd 512) ;;
    match r with
    | None => print 1 "wc: read error" [] ;~ exit
    | Some [] => uret (inr k)
    | Some bs => k <~ ulift (wc_chars k bs) ;; uret (inl k)
    end) (mkcounts 0 0 0 false) ;;
  print 1 "%d %d %d %s" [num (n_l k); num (n_w k); num (n_c k); text name].

Definition wc_main (args : list (list Z)) : U unit :=
  match args with [] => wc 0 [] ;~ exit | _ => over_files wc "wc: cannot open %s" args end.

(** ** echo.c: printf with the format "%s%s". *)

Fixpoint echo_main (args : list (list Z)) : U unit :=
  match args with
  | [] => exit
  | a :: args =>
      bs <~ ulift (printf [37; 115; 37; 115; 0] [text a; text (match args with [] => [10] | _ => [32] end)]) ;;
      putcs 1 bs ;~ echo_main args
  end.

(** ** ls.c *)

Definition SLASH : Z := 47.

(** for(p=path+strlen(path); p >= path && *p != '/'; p--), then p++: [p] characters before
    the end are left to look at. *)
Fixpoint after_slash (path : list Z) (p : nat) : option nat :=
  match path !! p with
  | None => None
  | Some c => if c =? SLASH then Some (S p) else match p with O => Some 0%nat | S p => after_slash path p end
  end.

(** The string returned, and the static buffer. *)
Definition fmtname (path sbuf : list Z) : option (list Z * list Z) :=
  n ← strlen path;
  p ← after_slash path (Z.to_nat n);
  let s := drop p path in
  k ← strlen s;
  if Z.of_nat DIRSIZ <=? k then Some (s, sbuf) else
  let sbuf := splice (Z.to_nat k) (replicate (DIRSIZ - Z.to_nat k) 32) (splice 0 (take (Z.to_nat k) s) sbuf) in
  Some (sbuf, sbuf).

(** ulib.c stat. *)
Definition stat_ (path : list Z) : U (option stat) :=
  fd <~ ucall (Open path 0) ;;
  if fd <? 0 then uret None else
  r <~ ucall (Fstat fd) ;; ucall (Close fd) ;~ uret r.

Definition print_entry (path sbuf : list Z) (st : stat) : U (list Z) :=
  r <~ ulift (fmtname path sbuf) ;;
  print 1 "%s %d %d %d" [mkarg 1 (Some (fst r)); num (st_type st); num (st_ino st); num (st_size st)] ;~
  uret (snd r).

(** The entries of the directory [fd]: [buf] holds its path and a slash, up to [p]. *)
Definition ls_entries (fd : Z) (p : nat) (buf sbuf : list Z) : U (list Z) :=
  uiter (fun bs : list Z * list Z => let '(buf, sbuf) := bs in
    r <~ ucall (Read fd 16) ;;
    match r with
    | None => uret (inr sbuf)
    | Some de =>
        if negb (length de =? 16)%nat then uret (inr sbuf) else
        if de_inum (dirent_of de) =? 0 then uret (inl (buf, sbuf)) else
        let buf := <[(p + DIRSIZ)%nat := 0]> (splice p (de_name (dirent_of de)) buf) in
        st <~ stat_ (Str.cstr (length buf) buf) ;;
        match st with
        | None => print 1 "ls: cannot stat %s" [mkarg 1 (Some buf)] ;~ uret (inl (buf, sbuf))
        | Some st => sbuf <~ print_entry buf sbuf st ;; uret (inl (buf, sbuf))
        end
    end) (buf, sbuf).

(** ls(path); [buf] is what the array on the stack holds at the start. *)
Definition ls (path buf sbuf : list Z) : U (list Z) :=
  fd <~ ucall (Open path 0) ;;
  if fd <? 0 then print 2 "ls: cannot open %s" [text path] ;~ uret sbuf else
  st <~ ucall (Fstat fd) ;;
  match st with
  | None => print 2 "ls: cannot stat %s" [text path] ;~ ucall (Close fd) ;~ uret sbuf
  | Some st =>
      sbuf <~ (if st_type st =? T_FILE then print_entry (path ++ [0]) sbuf st
               else if st_type st =? T_DIR then
                 n <~ ulift (strlen (path ++ [0])) ;;
                 if 512 <? n + 1 + Z.of_nat DIRSIZ + 1 then print 1 "ls: path too long" [] ;~ uret sbuf else
                 buf <~ ulift (strcpy buf (path ++ [0])) ;;
                 k <~ ulift (strlen buf) ;;
                 ls_entries fd (S (Z.to_nat k)) (<[Z.to_nat k := SLASH]> buf) sbuf
               else uret sbuf) ;;
      ucall (Close fd) ;~ uret sbuf
  end.

Fixpoint ls_all (paths : list (list Z)) (bufs : list (list Z)) (sbuf : list Z) : U unit :=
  match paths with
  | [] => exit
  | p :: paths => sbuf <~ ls p (default (replicate 512 0) (head bufs)) sbuf ;; ls_all paths (tail bufs) sbuf
  end.
Definition ls_main (args bufs : list (list Z)) : U unit :=
  ls_all (match args with [] => [[46]] | _ => args end) bufs (replicate (S DIRSIZ) 0).

(** ** rm.c, mkdir.c, ln.c, kill.c, zombie.c *)

Fixpoint each (f : list Z -> call) (msg : string) (args : list (list Z)) : U unit :=
  match args with
  | [] => exit
  | a :: args => r <~ ucall (Call (f a)) ;; if r <? 0 then print 2 msg [text a] ;~ exit else each f msg args
  end.
Definition rm_main (args : list (list Z)) : U unit :=
  match args with [] => print 2 "Usage: rm files..." [] ;~ exit | _ => each Unlink "rm: %s failed to delete" args end.
Definition mkdir_main (args : list (list Z)) : U unit :=
  match args with [] => print 2 "Usage: mkdir files..." [] ;~ exit | _ => each Mkdir "mkdir: %s failed to create" args end.

Definition ln_main (args : list (list Z)) : U unit :=
  match args with
  | [old; new] =>
      r <~ ucall (Call (Link old new)) ;;
      (if r <? 0 then print 2 "link %s %s: failed" [text old; text new] else uret tt) ;~ exit
  | _ => print 2 "Usage: ln old new" [] ;~ exit
  end.

Fixpoint kill_main (args : list (list Z)) : U unit :=
  match args with
  | [] => exit
  | a :: args => n <~ ulift (atoi (a ++ [0])) ;; ucall (Call (Kill n)) ;~ kill_main args
  end.

Definition zombie_main : U unit :=
  r <~ ucall (Call Fork) ;;
  (if 0 <? r then ucall (Call (Sleep 5)) ;~ uret tt else uret tt) ;~ exit.

(** ** init.c *)

Definition O_RDWR : Z := 2.
Definition console : list Z := chars "console".

(** while((wpid=wait()) >= 0 && wpid != pid). *)
Definition wait_for (pid : Z) : U unit :=
  uiter (fun _ : unit =>
    wpid <~ ucall (Call Wait) ;;
    if (0 <=? wpid) && negb (wpid =? pid) then print 1 "zombie!" [] ;~ uret (inl tt) else uret (inr tt)) tt.

Definition init_round : U (unit + unit) :=
  print 1 "init: starting sh" [] ;~
  pid <~ ucall (Call Fork) ;;
  if pid <? 0 then print 1 "init: fork failed" [] ;~ exit else
  if pid =? 0 then ucall (Call (Exec (chars "sh") [chars "sh"])) ;~ print 1 "init: exec sh failed" [] ;~ exit else
  wait_for pid ;~ uret (inl tt).

Definition init_main : U unit :=
  fd <~ ucall (Open console O_RDWR) ;;
  (if fd <? 0 then ucall (Call (Mknod console 1 1)) ;~ ucall (Open console O_RDWR) ;~ uret tt else uret tt) ;~
  ucall (Call (Dup 0)) ;~
  ucall (Call (Dup 0)) ;~
  uiter (fun _ : unit => init_round) tt.

(** ** grep.c: the loops as system calls, and main *)

(** A round of while((q = strchr(p, '\n')) != 0), and the loop: the buffer and p at the end. *)
Definition grep_line (re : list Z) (bp : list Z * nat) : U ((list Z * nat) + (list Z * nat)) :=
  let '(buf, p) := bp in
  o <~ ulift (strchr_nl (drop p buf) p) ;;
  match o with
  | None => uret (inr (buf, p))
  | Some q =>
      let line := slice p (q - p) buf in
      if match_ re line then ucall (Write 1 (line ++ [NL])) ;~ uret (inl (buf, S q))
      else uret (inl (<[q := 0]> buf, S q))
  end.
Definition grep_lines (re buf : list Z) : U (list Z * nat) := uiter (grep_line re) (buf, 0%nat).

(** A round of the reads of grep(pattern, fd), on the static buffer; a read below the
    buffer is a fault. *)
Definition grep_read (re : list Z) (fd : Z) (bm : list Z * Z) : U ((list Z * Z) + list Z) :=
  let '(buf, m) := bm in
  r <~ ucall (Read fd (u32 (Z.of_nat BUFSZ - m))) ;;
  match r with
  | None => uret (inr buf)
  | Some [] => uret (inr buf)
  | Some bs =>
      if (m <? 0) || (Z.of_nat BUFSZ <? m + Z.of_nat (length bs)) then fault else
      bp <~ grep_lines re (splice (Z.to_nat m) bs buf) ;;
      let '(buf, p) := bp : list Z * nat in
      let m := m + Z.of_nat (length bs) in
      let m := if Nat.eqb p 0 then 0 else m in
      if 0 <? m then
        let m := m - Z.of_nat p in uret (inl (splice 0 (slice p (Z.to_nat m) buf) buf, m))
      else uret (inl (buf, m))
  end.
Definition ugrep (re : list Z) (fd : Z) (buf : list Z) : U (list Z) := uiter (grep_read re fd) (buf, 0).

Fixpoint grep_files (re : list Z) (paths : list (list Z)) (buf : list Z) : U unit :=
  match paths with
  | [] => exit
  | p :: paths =>
      fd <~ ucall (Open p 0) ;;
      if fd <? 0 then print 1 "grep: cannot open %s" [text p] ;~ exit
      else buf <~ ugrep re fd buf ;; ucall (Close fd) ;~ grep_files re paths buf
  end.

Definition grep_main (args : list (list Z)) : U unit :=
  match args with
  | [] => print 2 "usage: grep pattern [file ...]" [] ;~ exit
  | [re] => ugrep re 0 (replicate BUFSZ 0) ;~ exit
  | re :: paths => grep_files re paths (replicate BUFSZ 0)
  end.

(** ** What the programs see of the system *)

(** What the reads of an open file return, [None] for an error, and its status. *)
Definition source : Type := list (option (list Z)) * stat.

Record world := mkworld {
  fdt : list (option source);
  files : gmap (list Z) source;
  written : list (Z * list Z);
  answers : list Z;
  calls : list call }.

Definition set_fdt (t : list (option source)) (w : world) : world := mkworld t (files w) (written w) (answers w) (calls w).
Definition wrote (ws : list (Z * list Z)) (w : world) : world :=
  mkworld (fdt w) (files w) (written w ++ ws) (answers w) (calls w).
Definition called (c : call) (w : world) : world :=
  mkworld (fdt w) (files w) (written w) (tail (answers w)) (calls w ++ [c]).

(** The bytes written to a descriptor. *)
Definition output (fd : Z) (w : world) : list Z := concat ((filter (fun x => fst x = fd) (written w)).*2).

Fixpoint lowest (t : list (option source)) : option nat :=
  match t with [] => None | None :: _ => Some 0%nat | Some _ :: t => S <$> lowest t end.
Definition desc (w : world) (fd : Z) : option source := if fd <? 0 then None else mjoin (fdt w !! Z.to_nat fd).
Definition set_desc (fd : Z) (o : option source) (w : world) : world := set_fdt (<[Z.to_nat fd := o]> (fdt w)) w.

Definition sys : sysE ~> stateT world (itree void1) := fun T e w =>
  match e in sysE T return itree void1 (world * T) with
  | Open path mode =>
      match files w !! path, lowest (fdt w) with
      | Some d, Some i => Ret (set_desc (Z.of_nat i) (Some d) w, Z.of_nat i)
      | _, _ => Ret (w, -1)
      end
  | Close fd => match desc w fd with Some _ => Ret (set_desc fd None w, 0) | None => Ret (w, -1) end
  | Read fd n =>
      match desc w fd with
      | None => Ret (w, None)
      | Some ([], st) => Ret (w, Some [])
      | Some (None :: rs, st) => Ret (set_desc fd (Some (rs, st)) w, None)
      | Some (Some bs :: rs, st) =>
          if Z.of_nat (length bs) <=? n then Ret (set_desc fd (Some (rs, st)) w, Some bs)
          else Ret (set_desc fd (Some (Some (drop (Z.to_nat n) bs) :: rs, st)) w, Some (take (Z.to_nat n) bs))
      end
  | Write fd bs =>
      match desc w fd with Some _ => Ret (wrote [(fd, bs)] w, Z.of_nat (length bs)) | None => Ret (w, -1) end
  | Fstat fd => match desc w fd with Some (_, st) => Ret (w, Some st) | None => Ret (w, None) end
  | Call c => Ret (called c w, default (-1) (head (answers w)))
  end.

Definition run {A} (p : itree sysE A) (w : world) : itree void1 (world * A) := interp_state sys p w.

(** The program [p] ends in the world [w'] with [r]. *)
Definition ends {A} (p : itree sysE A) (w w' : world) (r : A) : Prop := eutt eq (run p w) (Ret (w', r)).

Lemma prog_ret {A} (a : A) w : ends (Ret a) w w a.
Proof. unfold ends, run. rewrite interp_state_ret. reflexivity. Qed.

Lemma prog_bind {A B} (p : itree sysE A) (k : A -> itree sysE B) w w1 a w2 b :
  ends p w w1 a -> ends (k a) w1 w2 b -> ends (ITree.bind p k) w w2 b.
Proof. unfold ends, run. intros H1 H2. rewrite interp_state_bind, H1, bind_ret_l. exact H2. Qed.

Lemma ends_map {A B} (p : itree sysE A) (f : A -> B) w w1 a : ends p w w1 a -> ends (ITree.map f p) w w1 (f a).
Proof. intros H. unfold ITree.map. eapply prog_bind; [exact H|apply prog_ret]. Qed.

Lemma ends_ucall {A} (e : sysE A) w w' a : sys A e w = Ret (w', a) -> ends (ucall e) w w' (Ok a).
Proof.
  intros H. unfold ucall. apply (ends_map _ Ok). unfold ends, run. rewrite interp_state_trigger, H. reflexivity.
Qed.

Lemma ends_ubind {A B} (m : U A) (k : A -> U B) w w1 a w2 r :
  ends m w w1 (Ok a) -> ends (k a) w1 w2 r -> ends (ubind m k) w w2 r.
Proof. intros H1 H2. unfold ubind. eapply prog_bind; [exact H1|exact H2]. Qed.

Lemma ends_ubind_exit {A B} (m : U A) (k : A -> U B) w w1 :
  ends m w w1 Exited -> ends (ubind m k) w w1 Exited.
Proof. intros H1. unfold ubind. eapply prog_bind; [exact H1|apply prog_ret]. Qed.

Lemma ends_iter {I A} (body : I -> itree sysE (I + A)) i w w1 w2 x b :
  ends (body i) w w1 x ->
  match x with inl j => ends (ITree.iter body j) w1 w2 b | inr a => w2 = w1 /\ b = a end ->
  ends (ITree.iter body i) w w2 b.
Proof.
  intros H1 H2. unfold ends in *. unfold run in *. rewrite unfold_iter, interp_state_bind, H1, bind_ret_l.
  destruct x as [j|a]; cbn.
  - rewrite interp_state_tau, tau_eutt. exact H2.
  - destruct H2 as [-> ->]. rewrite interp_state_ret. reflexivity.
Qed.

Lemma ends_uiter_more {I A} (body : I -> U (I + A)) i j w w1 w2 r :
  ends (body i) w w1 (Ok (inl j)) -> ends (uiter body j) w1 w2 r -> ends (uiter body i) w w2 r.
Proof. intros H1 H2. unfold uiter. eapply ends_iter; [eapply ends_map; exact H1|exact H2]. Qed.

Lemma ends_uiter_done {I A} (body : I -> U (I + A)) i a w w1 :
  ends (body i) w w1 (Ok (inr a)) -> ends (uiter body i) w w1 (Ok a).
Proof. intros H1. unfold uiter. eapply ends_iter; [eapply ends_map; exact H1|done]. Qed.

Lemma ends_uiter_exit {I A} (body : I -> U (I + A)) i w w1 :
  ends (body i) w w1 Exited -> ends (uiter body i) w w1 (Exited : out A).
Proof. intros H1. unfold uiter. eapply ends_iter; [eapply ends_map; exact H1|done]. Qed.

(** ** Writes *)

Lemma wrote_wrote a b w : wrote b (wrote a w) = wrote (a ++ b) w.
Proof. unfold wrote. cbn. by rewrite <- app_assoc. Qed.
Lemma wrote_none w : wrote [] w = w.
Proof. unfold wrote. rewrite app_nil_r. by destruct w. Qed.
Lemma desc_wrote ws w fd : desc (wrote ws w) fd = desc w fd.
Proof. done. Qed.
Lemma set_wrote fd o ws w : set_desc fd o (wrote ws w) = wrote ws (set_desc fd o w).
Proof. done. Qed.

(** [ws] are writes of the bytes [bs] to [fd]. *)
Definition puts (fd : Z) (bs : list Z) (ws : list (Z * list Z)) : Prop := Forall (fun x => fst x = fd) ws /\ concat ws.*2 = bs.

Lemma puts_nil fd : puts fd [] [].
Proof. done. Qed.
Lemma puts_one fd bs : puts fd bs [(fd, bs)].
Proof. split; [by repeat constructor|]. cbn. apply app_nil_r. Qed.
Lemma puts_app fd a b xs ys : puts fd a xs -> puts fd b ys -> puts fd (a ++ b) (xs ++ ys).
Proof. intros [H1 <-] [H2 <-]. split; [by apply Forall_app|]. by rewrite fmap_app, concat_app. Qed.

Lemma output_wrote fd bs ws w : puts fd bs ws -> output fd (wrote ws w) = output fd w ++ bs.
Proof.
  intros [H <-]. unfold output. cbn [written wrote]. rewrite filter_app, fmap_app, concat_app. f_equal.
  induction ws as [|x ws IH]; [done|]. apply list.Forall_cons in H as [Hx Hs].
  rewrite filter_cons_True by done. cbn. by rewrite IH.
Qed.

Lemma output_set_fdt fd t w : output fd (set_fdt t w) = output fd w.
Proof. done. Qed.

Lemma ends_write fd bs w : is_Some (desc w fd) -> ends (ucall (Write fd bs)) w (wrote [(fd, bs)] w) (Ok (Z.of_nat (length bs))).
Proof. intros [d Hd]. apply ends_ucall. cbn. by rewrite Hd. Qed.

Lemma ends_putcs fd bs w : is_Some (desc w fd) -> exists ws, puts fd bs ws /\ ends (putcs fd bs) w (wrote ws w) (Ok tt).
Proof.
  revert w. induction bs as [|c bs IH]; intros w Hd; cbn [putcs].
  - exists []. split; [done|]. rewrite wrote_none. apply prog_ret.
  - destruct (IH (wrote [(fd, [c])] w) Hd) as (ws & Hw & He). exists ([(fd, [c])] ++ ws).
    split; [apply (puts_app fd [c] bs); [apply puts_one|exact Hw]|]. rewrite <- wrote_wrote.
    eapply ends_ubind; [by apply ends_write|exact He].
Qed.

Lemma ends_print fd fmt args bs w :
  printf (chars fmt ++ [10; 0]) args = Some bs -> is_Some (desc w fd) ->
  exists ws, puts fd bs ws /\ ends (print fd fmt args) w (wrote ws w) (Ok tt).
Proof.
  intros Hp Hd. unfold print. rewrite Hp. destruct (ends_putcs fd bs w Hd) as (ws & Hw & He). exists ws. split; [exact Hw|].
  eapply ends_ubind; [apply prog_ret|exact He].
Qed.

Lemma put_str_text s t : Forall (fun c => c <> 0) s -> put_str (s ++ 0 :: t) = Some s.
Proof. induction 1 as [|c s Hc _ IH]; [done|]. cbn. rewrite (proj2 (Z.eqb_neq c 0) Hc), IH. done. Qed.

(** What a format prints, piece by piece. *)
Lemma printf_fmt fmt args :
  forallb (fun c => (0 <? c) && (c <? 256)) (chars fmt) = true ->
  printf (chars fmt ++ [10; 0]) args = print_pieces (pieces (chars fmt ++ [10])) args.
Proof.
  intros H. change [10; 0] with ([10] ++ 0 :: []). rewrite app_assoc. apply printf_pieces. apply Forall_app. split.
  - apply Forall_forall. intros c Hc. rewrite forallb_forall in H. specialize (H c (proj1 (list_elem_of_In _ _) Hc)). lia.
  - repeat constructor; lia.
Qed.
Lemma print_lits l ps ap : print_pieces ((Lit <$> l) ++ ps) ap = app l <$> print_pieces ps ap.
Proof.
  induction l as [|c l IH]; cbn [fmap list_fmap app print_pieces print_piece mbind option_bind fst snd]; [by destruct (print_pieces ps ap)|].
  cbn in IH. rewrite IH. by destruct (print_pieces ps ap).
Qed.
Lemma print_str s t ps ap :
  Forall (fun c => c <> 0) s -> print_pieces (Conv 115 :: ps) (mkarg 1 (Some (s ++ 0 :: t)) :: ap) = app s <$> print_pieces ps ap.
Proof.
  intros Hs.
  change (print_pieces (Conv 115 :: ps) (mkarg 1 (Some (s ++ 0 :: t)) :: ap))
    with (x ← (o ← put_str (s ++ 0 :: t); Some (o, ap)); app (fst x) <$> print_pieces ps (snd x)).
  by rewrite put_str_text.
Qed.
Lemma print_s s ps ap : Forall (fun c => c <> 0) s -> print_pieces (Conv 115 :: ps) (text s :: ap) = app s <$> print_pieces ps ap.
Proof. apply print_str.
Qed.
Lemma print_d n ps ap : - 2 ^ 31 <= n < 2 ^ 31 ->
  print_pieces (Conv 100 :: ps) (num n :: ap) = app (default [] (printint n 10 true)) <$> print_pieces ps ap.
Proof.
  intros Hn.
  change (print_pieces (Conv 100 :: ps) (num n :: ap))
    with (x ← (o ← printint (i32 n) 10 true; Some (o, ap)); app (fst x) <$> print_pieces ps (snd x)).
  rewrite i32_small by done. destruct (printint_total n 10 true) as [o ->]; [by left|done|]. done.
Qed.

Lemma pieces_lits l : Forall (fun c => c <> 37) l -> pieces l = Lit <$> l.
Proof. induction 1 as [|c l Hc _ IH]; [done|]. cbn. rewrite (proj2 (Z.eqb_neq c 37)) by done. by rewrite IH. Qed.

Lemma ends_print_lit fd fmt w :
  forallb (fun c => (0 <? c) && (c <? 256) && negb (c =? 37)) (chars fmt) = true -> is_Some (desc w fd) ->
  exists ws, puts fd (chars fmt ++ [10]) ws /\ ends (print fd fmt []) w (wrote ws w) (Ok tt).
Proof.
  intros H Ho. rewrite forallb_forall in H. apply ends_print; [|done]. rewrite printf_fmt.
  - rewrite pieces_lits.
    + rewrite <- (app_nil_r (Lit <$> _)), print_lits. cbn. by rewrite app_nil_r.
    + apply Forall_app. split; [|by repeat constructor]. apply Forall_forall. intros c Hc. specialize (H c (proj1 (list_elem_of_In _ _) Hc)). lia.
  - apply forallb_forall. intros c Hc. specialize (H c Hc). lia.
Qed.

Lemma prints_name msg p :
  forallb (fun c => (0 <? c) && (c <? 256)) (chars (msg +:+ "%s")) = true ->
  pieces (chars (msg +:+ "%s") ++ [10]) = (Lit <$> chars msg) ++ [Conv 115; Lit 10] ->
  Forall (fun c => c <> 0) p -> printf (chars (msg +:+ "%s") ++ [10; 0]) [text p] = Some (chars msg ++ p ++ [10]).
Proof. intros Hb Hp Hz. rewrite printf_fmt, Hp, print_lits, print_s by done. done. Qed.

(** ** Descriptors *)

Lemma desc_set fd o w : 0 <= fd -> (Z.to_nat fd < length (fdt w))%nat -> desc (set_desc fd o w) fd = o.
Proof.
  intros H0 Hl. unfold desc, set_desc. rewrite (proj2 (Z.ltb_ge fd 0)) by lia. cbn [fdt set_fdt].
  by rewrite list_lookup_insert_eq by done.
Qed.
Lemma desc_set_ne fd fd' o w : 0 <= fd -> 0 <= fd' -> fd <> fd' -> desc (set_desc fd o w) fd' = desc w fd'.
Proof.
  intros H0 H1 Hne. unfold desc, set_desc. destruct (fd' <? 0); [done|]. cbn [fdt set_fdt]. by rewrite list_lookup_insert_ne by lia.
Qed.
Lemma desc_some w fd d : desc w fd = Some d -> 0 <= fd /\ fdt w !! Z.to_nat fd = Some (Some d).
Proof.
  unfold desc. destruct (Z.ltb_spec fd 0); [done|]. destruct (fdt w !! Z.to_nat fd) as [[x|]|]; cbn; [intros [= ->]; split; [lia|done]|done..].
Qed.
Lemma desc_lt w fd d : desc w fd = Some d -> 0 <= fd /\ (Z.to_nat fd < length (fdt w))%nat.
Proof. intros H. apply desc_some in H as [H0 H]. split; [done|]. by apply lookup_lt_Some in H. Qed.
Lemma set_set fd a b w : set_desc fd b (set_desc fd a w) = set_desc fd b w.
Proof. unfold set_desc, set_fdt. cbn. by rewrite list_insert_insert_eq. Qed.
Lemma lowest_free t i : lowest t = Some i -> t !! i = Some None.
Proof.
  revert i. induction t as [|[d|] t IH]; intros i; cbn; [done| |by intros [= <-]].
  destruct (lowest t) as [k|]; cbn; [|done]. intros [= <-]. by apply IH.
Qed.
Lemma set_back i d w : lowest (fdt w) = Some i -> set_desc (Z.of_nat i) None (set_desc (Z.of_nat i) d w) = w.
Proof.
  intros H. rewrite set_set. unfold set_desc, set_fdt. rewrite Nat2Z.id, list_insert_id by (by apply lowest_free). by destruct w.
Qed.
Lemma free_closed i w fd : lowest (fdt w) = Some i -> is_Some (desc w fd) -> fd <> Z.of_nat i /\ 0 <= fd.
Proof.
  intros H [d Hd]. apply desc_some in Hd as [H0 Hd]. split; [|done]. intros ->. rewrite Nat2Z.id, (lowest_free _ _ H) in Hd. done.
Qed.

Lemma ends_open p d i w :
  files w !! p = Some d -> lowest (fdt w) = Some i -> ends (ucall (Open p 0)) w (set_desc (Z.of_nat i) (Some d) w) (Ok (Z.of_nat i)).
Proof. intros Hf Hi. apply ends_ucall. cbn. by rewrite Hf, Hi. Qed.
Lemma ends_open_fails p w : files w !! p = None -> ends (ucall (Open p 0)) w w (Ok (-1)).
Proof. intros Hf. apply ends_ucall. cbn. by rewrite Hf. Qed.
Lemma ends_close fd w : is_Some (desc w fd) -> ends (ucall (Close fd)) w (set_desc fd None w) (Ok 0).
Proof. intros [d Hd]. apply ends_ucall. cbn. by rewrite Hd. Qed.

Lemma ends_fstat fd r st w : desc w fd = Some (r, st) -> ends (ucall (Fstat fd)) w w (Ok (Some st)).
Proof. intros Hd. apply ends_ucall. cbn. by rewrite Hd. Qed.
Lemma ends_read_one fd n bs rs st w :
  desc w fd = Some (Some bs :: rs, st) -> Z.of_nat (length bs) <= n ->
  ends (ucall (Read fd n)) w (set_desc fd (Some (rs, st)) w) (Ok (Some bs)).
Proof. intros Hd Hn. apply ends_ucall. cbn. rewrite Hd. by rewrite (proj2 (Z.leb_le _ _) Hn). Qed.
Lemma ends_read_eof fd n st w : desc w fd = Some ([], st) -> ends (ucall (Read fd n)) w w (Ok (Some [])).
Proof. intros Hd. apply ends_ucall. cbn. by rewrite Hd. Qed.
(** Storing another source in an open descriptor leaves the same descriptors free. *)
Lemma lowest_same t i (d d' : source) : t !! i = Some (Some d) -> lowest (<[i := Some d']> t) = lowest t.
Proof. revert i. induction t as [|x t IH]; intros [|i] Hi; [done|done|by injection Hi as ->|]. cbn in *. destruct x; [by rewrite IH|done]. Qed.

(** ** Reading a descriptor to its end *)

(** The descriptor yields the text [s], in whatever pieces. *)
Definition gives (d : source) (s : list Z) : Prop := exists cs, fst d = Some <$> cs /\ Forall (fun c => c <> []) cs /\ concat cs = s.

(** A read of up to 512 bytes: nothing when all was read, else a part that is not empty. *)
Lemma ends_read fd d s w :
  desc w fd = Some d -> gives d s ->
  (s = [] /\ ends (ucall (Read fd 512)) w w (Ok (Some []))) \/
  exists b bs s' d', s = (b :: bs) ++ s' /\ gives d' s' /\
    ends (ucall (Read fd 512)) w (set_desc fd (Some d') w) (Ok (Some (b :: bs))).
Proof.
  intros Hd (cs & Hc & Hne & Hs). destruct d as [rs st]. cbn in Hc. subst rs s. destruct cs as [|c cs]; cbn in *.
  - left. split; [done|]. apply ends_ucall. cbn. by rewrite Hd.
  - right. apply list.Forall_cons in Hne as [Hc Hne]. destruct (Z.leb_spec (Z.of_nat (length c)) 512) as [Hl|Hl].
    + destruct c as [|b bs]; [done|]. exists b, bs, (concat cs), (Some <$> cs, st).
      split; [done|]. split; [by exists cs|]. apply ends_ucall. cbn [sys]. rewrite Hd. by rewrite (proj2 (Z.leb_le _ _) Hl).
    + destruct c as [|b bs]; [done|]. cbn [length] in Hl.
      exists b, (take 511 bs), (drop 511 bs ++ concat cs), (Some <$> (drop 511 bs :: cs), st).
      split; [cbn; by rewrite app_assoc, take_drop|]. split.
      * exists (drop 511 bs :: cs). split; [done|]. split; [|done]. constructor; [|done]. intros E. apply (f_equal length) in E. rewrite length_drop in E. cbn in E. lia.
      * apply ends_ucall. cbn [sys]. rewrite Hd. rewrite (proj2 (Z.leb_gt _ _)) by (cbn [length]; lia). done.
Qed.

(** ** cat *)

Lemma cat_ends fd d s w :
  desc w fd = Some d -> fd <> 1 -> gives d s -> is_Some (desc w 1) ->
  exists ws d', puts 1 s ws /\ ends (cat fd) w (wrote ws (set_desc fd (Some d') w)) (Ok tt).
Proof.
  revert d w. induction s as [s IH] using (well_founded_induction (well_founded_ltof _ length)). intros d w Hd H1 Hg Ho.
  destruct (desc_lt _ _ _ Hd) as [H0 Hl]. destruct (ends_read fd d s w Hd Hg) as [[-> He]|(b & bs & s' & d' & -> & Hg' & He)].
  - exists [], d. split; [apply puts_nil|]. rewrite wrote_none.
    replace (set_desc fd (Some d) w) with w; [by apply ends_uiter_done; eapply ends_ubind; [exact He|apply prog_ret]|].
    apply desc_some in Hd as [_ Hd]. unfold set_desc, set_fdt. rewrite list_insert_id by done. by destruct w.
  - set (w1 := wrote [(1, b :: bs)] (set_desc fd (Some d') w)).
    assert (desc w1 1 = desc w 1) as E1 by (unfold w1; rewrite desc_wrote; apply desc_set_ne; [done|lia|done]).
    destruct (IH s' ltac:(unfold ltof; rewrite length_app; cbn; lia) d' w1) as (ws & d2 & Hp & Hw);
      [by apply desc_set|done|done|by rewrite E1|].
    exists ([(1, b :: bs)] ++ ws), d2. split; [by apply puts_app; [apply puts_one|]|]. rewrite <- wrote_wrote.
    eapply (ends_uiter_more _ _ tt).
    + eapply ends_ubind; [exact He|]. cbn beta iota. eapply ends_ubind; [apply ends_write; rewrite desc_set_ne; [exact Ho|done|lia|done]|apply prog_ret].
    + unfold w1 in Hw. rewrite set_wrote, set_set in Hw. exact Hw.
Qed.

(** The file [p] yields the text [s]. *)
Definition file_text (w : world) (p s : list Z) : Prop := exists d, files w !! p = Some d /\ gives d s.

(** What the loop prints, [g] of a file, when the file after the files [ok] is missing. *)
Definition over_text (g : list Z -> list Z -> list Z) (msg : string) (ok texts rest : list (list Z)) : list Z :=
  concat (zip_with g ok texts) ++ match rest with [] => [] | p :: _ => chars msg ++ p ++ [10] end.

Section Over.
Variables (f : Z -> list Z -> U unit) (g : list Z -> list Z -> list Z) (msg : string) (good : list Z -> list Z -> Prop).
Hypothesis f_ends : forall fd d p s w, desc w fd = Some d -> fd <> 1 -> gives d s -> good p s -> is_Some (desc w 1) ->
  exists ws d', puts 1 (g p s) ws /\ ends (f fd p) w (wrote ws (set_desc fd (Some d') w)) (Ok tt).
Hypothesis msg_prints : forall p, Forall (fun c => c <> 0) p ->
  printf (chars (msg +:+ "%s") ++ [10; 0]) [text p] = Some (chars msg ++ p ++ [10]).

Lemma ends_over_files ok texts rest w :
  is_Some (lowest (fdt w)) -> is_Some (desc w 1) -> Forall2 (file_text w) ok texts -> Forall2 good ok texts ->
  match rest with [] => True | p :: _ => files w !! p = None /\ Forall (fun c => c <> 0) p end ->
  exists ws, ends (over_files f (msg +:+ "%s") (ok ++ rest)) w (wrote ws w) Exited /\ puts 1 (over_text g msg ok texts rest) ws.
Proof.
  intros [i Hi] Ho Hok Hgd Hr. revert w Hi Ho Hok Hr. induction Hgd as [|p s ok texts Hps Hgd IH]; intros w Hi Ho Hok Hr.
  - unfold over_text. cbn [app concat zip_with]. destruct rest as [|p rest]; cbn [over_files].
    + exists []. rewrite wrote_none. split; [apply prog_ret|apply puts_nil].
    + destruct Hr as [Hf Hz]. destruct (ends_print 1 _ _ _ w (msg_prints p Hz) Ho) as (ws & Hp & He).
      exists ws. split; [|exact Hp]. eapply ends_ubind; [by apply ends_open_fails|]. cbn. eapply ends_ubind; [exact He|apply prog_ret].
  - apply Forall2_cons_1 in Hok as [(d & Hf & Hg) Hok]. cbn [app over_files].
    destruct (free_closed _ _ _ Hi Ho) as [Hne _]. pose proof (lookup_lt_Some _ _ _ (lowest_free _ _ Hi)) as Hlt.
    set (w1 := set_desc (Z.of_nat i) (Some d) w).
    assert (desc w1 (Z.of_nat i) = Some d) as Hd by (apply desc_set; [lia|by rewrite Nat2Z.id]).
    assert (desc w1 1 = desc w 1) as E1 by (apply desc_set_ne; [lia|lia|done]).
    destruct (f_ends (Z.of_nat i) d p s w1 Hd ltac:(done) Hg Hps) as (ws & d' & Hp & He); [by rewrite E1|].
    destruct (IH (wrote ws w) Hi Ho Hok Hr) as (ws2 & He2 & Hp2).
    exists (ws ++ ws2). split; [|unfold over_text; cbn [zip_with concat]; rewrite <- app_assoc; by apply puts_app].
    rewrite <- wrote_wrote. eapply ends_ubind; [by apply ends_open|]. rewrite (proj2 (Z.ltb_ge _ 0)) by lia.
    eapply ends_ubind; [exact He|]. unfold w1. rewrite set_set.
    eapply ends_ubind; [apply ends_close; rewrite desc_wrote, desc_set; [by eexists|lia|by rewrite Nat2Z.id]|].
    rewrite set_wrote, set_back by done. exact He2.
Qed.
End Over.

(** C23: cat with file names copies the files to standard output, in order, byte for byte and
    in whatever pieces the reads deliver them, up to the first file that does not exist,
    which it reports, and leaves the descriptors as they were; without names it copies
    standard input.  It ends. *)
Theorem cat_copies w :
  is_Some (lowest (fdt w)) -> is_Some (desc w 1) ->
  (forall ok texts rest, ok ++ rest <> [] -> Forall2 (file_text w) ok texts ->
    match rest with [] => True | p :: _ => files w !! p = None /\ Forall (fun c => c <> 0) p end ->
    exists w', ends (cat_main (ok ++ rest)) w w' Exited /\ fdt w' = fdt w /\
      output 1 w' = output 1 w ++ concat texts ++ match rest with [] => [] | p :: _ => chars "cat: cannot open " ++ p ++ [10] end) /\
  (forall d s, desc w 0 = Some d -> gives d s ->
    exists w', ends (cat_main []) w w' Exited /\ output 1 w' = output 1 w ++ s).
Proof.
  intros Hl Ho. split.
  - intros ok texts rest Hne Hok Hr.
    destruct (ends_over_files (fun fd _ => cat fd) (fun _ s => s) "cat: cannot open " (fun _ _ => True)) with (ok := ok) (texts := texts) (rest := rest) (w := w)
      as (ws & He & Hp).
    1: { intros. by eapply cat_ends. }
    1: { intros. by apply (prints_name "cat: cannot open "). }
    1: done.
    1: done.
    1: done.
    1: by eapply Forall2_impl.
    1: done.
    exists (wrote ws w). split; [by destruct (ok ++ rest); [done|]|]. split; [done|]. rewrite (output_wrote _ _ _ _ Hp). unfold over_text.
    f_equal. f_equal. f_equal. clear -Hok. induction Hok; cbn; by f_equal.
  - intros d s Hd Hg. destruct (cat_ends 0 d s w Hd ltac:(done) Hg Ho) as (ws & d' & Hp & He). exists (wrote ws (set_desc 0 (Some d') w)).
    split; [eapply ends_ubind; [exact He|apply prog_ret]|]. by rewrite (output_wrote _ _ _ _ Hp).
Qed.

(** ** wc *)

Definition space (c : Z) : bool := bool_decide (c ∈ [32; 13; 9; 10; 11]).

(** The text begins with a character of a word. *)
Definition begins (s : list Z) : bool := match s with [] => false | c :: _ => negb (space c) end.

(** The words of a text: its longest runs of characters that are not white space. *)
Fixpoint words_of (s : list Z) : list (list Z) :=
  match s with
  | [] => []
  | c :: s =>
      if space c then words_of s else
      match words_of s with
      | [] => [[c]]
      | v :: vs => if begins s then (c :: v) :: vs else [c] :: v :: vs
      end
  end.
Definition lines_of (s : list Z) : nat := count_occ Z.eq_dec s 10.

Lemma strchr_space c : strchr [32; 13; 9; 10; 11; 0] c = Some None /\ space c = false \/
  (exists k, strchr [32; 13; 9; 10; 11; 0] c = Some (Some k)) /\ space c = true.
Proof.
  unfold space. cbn [strchr].
  destruct (decide (c ∈ [32; 13; 9; 10; 11])) as [Hc|Hc].
  - right. rewrite bool_decide_eq_true_2 by done. split; [|done]. rewrite !elem_of_cons, elem_of_nil in Hc.
    destruct Hc as [->|[->|[->|[->|[->|[]]]]]]; by eexists.
  - left. rewrite bool_decide_eq_false_2 by done. split; [|done]. rewrite !elem_of_cons, elem_of_nil in Hc.
    rewrite !(proj2 (Z.eqb_neq _ c)) by lia. reflexivity.
Qed.

Lemma words_cons c s : length (words_of (c :: s)) = (if space c then length (words_of s) else S (length (words_of s)) - if begins s then 1 else 0)%nat.
Proof.
  cbn [words_of]. destruct (space c); [done|].
  assert (begins s = true -> words_of s <> []) as Hn.
  { destruct s as [|d s]; [done|]. cbn [begins words_of]. destruct (space d); [done|]. intros _. destruct (words_of s); [done|]. by destruct (begins s). }
  destruct (words_of s) as [|v vs]; destruct (begins s); cbn [length]; try lia. by destruct Hn.
Qed.

Lemma wc_chars_counts s k :
  0 <= n_l k <= n_c k -> 0 <= n_w k <= n_c k -> n_c k + Z.of_nat (length s) < 2 ^ 31 ->
  exists b, wc_chars k s = Some (mkcounts (n_l k + Z.of_nat (lines_of s))
    (n_w k + Z.of_nat (length (words_of s)) - (if inword k && begins s then 1 else 0)) (n_c k + Z.of_nat (length s)) b).
Proof.
  revert k. induction s as [|c s IH]; intros k Hl Hw Hc.
  - exists (inword k). cbn. rewrite andb_false_r, !Z.add_0_r, Z.sub_0_r. by destruct k.
  - cbn [length] in Hc. cbn [wc_chars]. unfold wc_char. cbn [n_l n_w n_c inword]. rewrite (i32_small (n_c k + 1)) by lia.
    rewrite words_cons. unfold lines_of in *. cbn [count_occ begins length].
    set (l := if c =? 10 then i32 (n_l k + 1) else n_l k).
    assert (l = n_l k + (if Z.eq_dec c 10 then 1 else 0)) as El.
    { unfold l. destruct (Z.eqb_spec c 10), (Z.eq_dec c 10); try done; [rewrite i32_small by lia; lia|lia]. }
    destruct (strchr_space c) as [[-> Es]|[[j ->] Es]]; rewrite Es; cbn [negb].
    + destruct (inword k) eqn:Ei; rewrite ?(i32_small (n_w k + 1)) by lia; cbn [andb];
        match goal with |- context [wc_chars ?k' s] => destruct (IH k') as [b ->] end; cbn [n_l n_w n_c inword];
        try (destruct (Z.eq_dec c 10); lia); exists b; f_equal; f_equal; destruct (Z.eq_dec c 10), (begins s); cbn [andb]; lia.
    + match goal with |- context [wc_chars ?k' s] => destruct (IH k') as [b ->] end; cbn [n_l n_w n_c inword];
        try (destruct (Z.eq_dec c 10); lia); exists b; f_equal; f_equal; destruct (Z.eq_dec c 10), (inword k); cbn [andb]; lia.
Qed.

Lemma wc_chars_app k a b : wc_chars k (a ++ b) = match wc_chars k a with Some k => wc_chars k b | None => None end.
Proof. revert k. induction a as [|c a IH]; intros k; cbn; [done|]. by destruct (wc_char k c). Qed.

(** What wc prints for the text [s] of the file [name]. *)
Definition decimal (n : nat) : list Z := default [] (printint (Z.of_nat n) 10 true).
Definition wc_line (name s : list Z) : list Z :=
  decimal (lines_of s) ++ [32] ++ decimal (length (words_of s)) ++ [32] ++ decimal (length s) ++ [32] ++ name ++ [10].

Lemma wc_prints k name : Forall (fun c => c <> 0) name ->
  - 2 ^ 31 <= n_l k < 2 ^ 31 -> - 2 ^ 31 <= n_w k < 2 ^ 31 -> - 2 ^ 31 <= n_c k < 2 ^ 31 ->
  printf (chars "%d %d %d %s" ++ [10; 0]) [num (n_l k); num (n_w k); num (n_c k); text name] =
    Some (default [] (printint (n_l k) 10 true) ++ [32] ++ default [] (printint (n_w k) 10 true) ++ [32] ++
      default [] (printint (n_c k) 10 true) ++ [32] ++ name ++ [10]).
Proof.
  intros Hz H1 H2 H3. rewrite printf_fmt by (vm_compute; reflexivity).
  assert (pieces (chars "%d %d %d %s" ++ [10]) =
    Conv 100 :: (Lit <$> [32]) ++ Conv 100 :: (Lit <$> [32]) ++ Conv 100 :: (Lit <$> [32]) ++ [Conv 115; Lit 10]) as -> by (vm_compute; reflexivity).
  rewrite print_d, print_lits, print_d, print_lits, print_d, print_lits, print_s by done. done.
Qed.

Lemma words_le s : (length (words_of s) <= length s)%nat.
Proof. induction s as [|c s IH]; [done|]. rewrite words_cons. cbn [length]. destruct (space c), (begins s); lia. Qed.
Lemma lines_le s : (lines_of s <= length s)%nat.
Proof. apply count_occ_bound. Qed.

Lemma wc_ends fd d name s w :
  desc w fd = Some d -> fd <> 1 -> gives d s -> Forall (fun c => c <> 0) name /\ Z.of_nat (length s) < 2 ^ 31 -> is_Some (desc w 1) ->
  exists ws d', puts 1 (wc_line name s) ws /\ ends (wc fd name) w (wrote ws (set_desc fd (Some d') w)) (Ok tt).
Proof.
  intros Hd H1 Hg [Hz Hlen] Ho. unfold wc.
  destruct (wc_chars_counts s (mkcounts 0 0 0 false)) as [b Hk]; [cbn; lia..|]. cbn [n_l n_w n_c inword andb] in Hk.
  rewrite !Z.add_0_l, Z.sub_0_r in Hk. set (body := fun k : counts => _).
  assert (forall n k s d w k', (length s <= n)%nat -> desc w fd = Some d -> gives d s -> wc_chars k s = Some k' ->
    exists d', ends (uiter body k) w (set_desc fd (Some d') w) (Ok k')) as Hloop.
  { clear -H1. induction n as [|n IH]; intros k s d w k' Hn Hd Hg Hk;
      (destruct (ends_read fd d s w Hd Hg) as [[-> He]|(b & bs & s' & d' & -> & Hg' & He)]; [|try (cbn in Hn; lia)]).
    1, 2: exists d; injection Hk as <-; replace (set_desc fd (Some d) w) with w
        by (apply desc_some in Hd as [_ Hd]; unfold set_desc, set_fdt; rewrite list_insert_id by done; by destruct w);
      apply ends_uiter_done; unfold body; eapply ends_ubind; [exact He|apply prog_ret].
    rewrite wc_chars_app in Hk. destruct (wc_chars k (b :: bs)) as [k1|] eqn:E1; [|done]. destruct (desc_lt _ _ _ Hd) as [H0 Hl].
    destruct (IH k1 s' d' (set_desc fd (Some d') w) k') as (d2 & Hi); [rewrite length_app in Hn; cbn in Hn; lia|by apply desc_set|done|done|].
    rewrite set_set in Hi. exists d2. eapply ends_uiter_more; [|exact Hi]. unfold body. eapply ends_ubind; [exact He|]. cbn beta iota.
    rewrite E1. eapply ends_ubind; [apply prog_ret|apply prog_ret]. }
  destruct (Hloop (length s) _ s d w _ ltac:(lia) Hd Hg Hk) as [d' Hi]. destruct (desc_lt _ _ _ Hd) as [H0 Hl].
  pose proof (words_le s). pose proof (lines_le s).
  destruct (ends_print 1 _ _ _ (set_desc fd (Some d') w) (wc_prints (mkcounts (Z.of_nat (lines_of s)) (Z.of_nat (length (words_of s))) (Z.of_nat (length s)) b) name Hz
    ltac:(cbn [n_l]; lia) ltac:(cbn [n_w]; lia) ltac:(cbn [n_c]; lia))) as (ws & Hp & He); [by rewrite desc_set_ne by (done || lia)|].
  exists ws, d'. split; [exact Hp|]. eapply ends_ubind; [exact Hi|exact He].
Qed.

(** C22: For files below 2^31 bytes that are read without errors, wc prints for each the number of its lines, words and characters, where a word
    is a longest run of characters that are not white space, whatever pieces the reads
    deliver: a word cut by the end of the buffer counts once.  It stops at the first file
    that does not exist and reports it; without names it counts standard input. *)
Theorem wc_counts w :
  is_Some (lowest (fdt w)) -> is_Some (desc w 1) ->
  (forall ok texts rest, ok ++ rest <> [] -> Forall2 (file_text w) ok texts ->
    Forall2 (fun p s => Forall (fun c => c <> 0) p /\ Z.of_nat (length s) < 2 ^ 31) ok texts ->
    match rest with [] => True | p :: _ => files w !! p = None /\ Forall (fun c => c <> 0) p end ->
    exists w', ends (wc_main (ok ++ rest)) w w' Exited /\ fdt w' = fdt w /\
      output 1 w' = output 1 w ++ concat (zip_with wc_line ok texts) ++
        match rest with [] => [] | p :: _ => chars "wc: cannot open " ++ p ++ [10] end) /\
  (forall d s, desc w 0 = Some d -> gives d s -> Z.of_nat (length s) < 2 ^ 31 ->
    exists w', ends (wc_main []) w w' Exited /\ output 1 w' = output 1 w ++ wc_line [] s).
Proof.
  intros Hl Ho. split.
  - intros ok texts rest Hne Hok Hgd Hr.
    destruct (ends_over_files wc wc_line "wc: cannot open " _ wc_ends) with (ok := ok) (texts := texts) (rest := rest) (w := w)
      as (ws & He & Hp); [intros; by apply (prints_name "wc: cannot open ")|done|done|done|done|done|].
    exists (wrote ws w). split; [by destruct (ok ++ rest); [done|]|]. split; [done|]. apply (output_wrote _ _ _ _ Hp).
  - intros d s Hd Hg Hlen. destruct (wc_ends 0 d [] s w Hd ltac:(done) Hg ltac:(done) Ho) as (ws & d' & Hp & He).
    exists (wrote ws (set_desc 0 (Some d') w)).
    split; [eapply ends_ubind; [exact He|apply prog_ret]|]. by rewrite (output_wrote _ _ _ _ Hp).
Qed.

(** ** echo, rm and mkdir, init *)

Fixpoint joined (args : list (list Z)) : list Z :=
  match args with [] => [] | [a] => a ++ [10] | a :: args => a ++ [32] ++ joined args end.

(** echo prints its arguments separated by blanks and ends the line; without arguments it
    prints nothing at all. *)
Lemma echo_prints args w :
  is_Some (desc w 1) -> Forall (Forall (fun c => c <> 0)) args ->
  exists ws, ends (echo_main args) w (wrote ws w) Exited /\ puts 1 (joined args) ws.
Proof.
  intros Ho Hz. revert w Ho. induction Hz as [|a args Ha Hz IH]; intros w Ho; cbn [echo_main joined].
  - exists []. rewrite wrote_none. split; [apply prog_ret|apply puts_nil].
  - set (sep := match args with [] => [10] | _ => [32] end).
    assert (printf [37; 115; 37; 115; 0] [text a; text sep] = Some (a ++ sep)) as Hp.
    { change [37; 115; 37; 115; 0] with ([37; 115; 37; 115] ++ 0 :: []). rewrite printf_pieces by (repeat constructor; lia).
      change (pieces [37; 115; 37; 115]) with [Conv 115; Conv 115]. rewrite !print_s; [cbn; by rewrite ?app_nil_r|unfold sep; destruct args; by repeat constructor|done]. }
    rewrite Hp. destruct (ends_putcs 1 (a ++ sep) w Ho) as (ws & Hw & He). destruct (IH (wrote ws w) Ho) as (ws2 & He2 & Hw2).
    exists (ws ++ ws2). rewrite <- wrote_wrote. split.
    + eapply ends_ubind; [apply prog_ret|]. eapply ends_ubind; [exact He|exact He2].
    + replace (match args with [] => a ++ [10] | _ :: _ => a ++ [32] ++ joined args end) with ((a ++ sep) ++ joined args)
        by (unfold sep; destruct args; cbn [joined]; by rewrite <- ?app_assoc, ?app_nil_r). by apply puts_app.
Qed.

(** rm and mkdir make their calls in order, up to the first that fails. *)
Lemma each_calls f msg args w :
  Forall (fun r => 0 <= r) (take (length args) (answers w)) -> (length args <= length (answers w))%nat ->
  ends (each f msg args) w (foldl (fun w a => called (f a) w) w args) Exited.
Proof.
  revert w. induction args as [|a args IH]; intros w Hr Hl; cbn [each foldl]; [apply prog_ret|].
  destruct (answers w) as [|r rs] eqn:E; [cbn in Hl; lia|]. cbn in Hr, Hl. apply list.Forall_cons in Hr as [Hr Hrs].
  eapply ends_ubind; [by apply ends_ucall|]. cbn [sys]. rewrite E. cbn. rewrite (proj2 (Z.ltb_ge r 0)) by lia.
  apply IH; cbn; rewrite E; cbn; [done|lia].
Qed.

(** One round of init: it starts a shell, reaps the processes that were handed to it and
    starts the next round when the shell has ended. *)
Lemma init_restarts pid zs rest w :
  is_Some (desc w 1) -> 0 < pid -> Forall (fun z => 0 <= z /\ z <> pid) zs -> answers w = pid :: zs ++ pid :: rest ->
  exists ws w', ends init_round w (wrote ws w') (Ok (inl tt)) /\ answers w' = rest /\ fdt w' = fdt w /\ written w' = written w /\
    puts 1 (chars "init: starting sh" ++ [10] ++ concat (replicate (length zs) (chars "zombie!" ++ [10]))) ws /\
    calls w' = calls w ++ Fork :: replicate (S (length zs)) Wait.
Proof.
  intros Ho Hpid Hz Ha. unfold init_round.
  destruct (ends_print_lit 1 "init: starting sh" w eq_refl Ho) as (ws & Hp & He).
  assert (forall w, is_Some (desc w 1) -> answers w = zs ++ pid :: rest ->
    exists ws w', ends (wait_for pid) w (wrote ws w') (Ok tt) /\ answers w' = rest /\ fdt w' = fdt w /\ written w' = written w /\
      puts 1 (concat (replicate (length zs) (chars "zombie!" ++ [10]))) ws /\ calls w' = calls w ++ replicate (S (length zs)) Wait) as Hloop.
  { clear -Hz. induction Hz as [|z zs [Hz0 Hzp] Hz IH]; intros w Ho Ha; cbn [app] in Ha.
    - exists [], (called Wait w). rewrite wrote_none. cbn [calls called answers fdt written length replicate]. rewrite Ha. split_and!; try done.
      apply ends_uiter_done. eapply ends_ubind; [by apply ends_ucall|]. rewrite Ha. cbn. rewrite Z.eqb_refl, andb_false_r. apply prog_ret.
    - destruct (ends_print_lit 1 "zombie!" (called Wait w) eq_refl Ho) as (ws & Hp & He).
      destruct (IH (wrote ws (called Wait w)) Ho) as (ws2 & w2 & He2 & Ha2 & Hf2 & Hw2 & Hp2 & Hc2); [cbn; by rewrite Ha|].
      exists (ws ++ ws2), (mkworld (fdt w2) (files w2) (written w) (answers w2) (calls w2)). cbn [fdt files written answers calls].
      split_and!; try done; [|by apply puts_app|by rewrite Hc2; cbn [calls wrote called]; rewrite <- app_assoc].
      eapply ends_uiter_more; [eapply ends_ubind; [by apply ends_ucall|]; rewrite Ha; cbn [default head from_option id]|].
      + rewrite (proj2 (Z.leb_le 0 z)), (proj2 (Z.eqb_neq z pid)) by done. cbn [andb negb]. eapply ends_ubind; [exact He|apply prog_ret].
      + cbn in Hw2. replace (wrote (ws ++ ws2) _) with (wrote ws2 w2); [exact He2|].
        unfold wrote. cbn. rewrite Hw2, app_assoc. done. }
  destruct (Hloop (called Fork (wrote ws w)) Ho) as (ws2 & w2 & He2 & Ha2 & Hf2 & Hw2 & Hp2 & Hc2); [cbn; by rewrite Ha|].
  exists (ws ++ ws2), (mkworld (fdt w2) (files w2) (written w) (answers w2) (calls w2)). cbn [fdt files written answers calls].
  split_and!; try done; [|rewrite app_assoc; by apply puts_app|by rewrite Hc2; cbn [calls wrote called]; rewrite <- app_assoc].
  eapply ends_ubind; [exact He|]. eapply ends_ubind; [by apply ends_ucall|]. cbn [answers wrote]. rewrite Ha. cbn [default head from_option id].
  rewrite (proj2 (Z.ltb_ge pid 0)), (proj2 (Z.eqb_neq pid 0)) by lia.
  replace (wrote (ws ++ ws2) _) with (wrote ws2 w2) by (unfold wrote; cbn; rewrite Hw2; cbn; by rewrite app_assoc).
  eapply ends_ubind; [exact He2|apply prog_ret].
Qed.

(** ** ls *)

Lemma strlen_from_text s t n :
  Forall (fun c => c <> 0) s -> 0 <= n -> n + Z.of_nat (length s) < 2 ^ 31 ->
  strlen_from n (s ++ 0 :: t) = Some (n + Z.of_nat (length s)).
Proof.
  intros Hs. revert n. induction Hs as [|c s Hc Hs IH]; intros n Hn Hl; cbn [app strlen_from length] in *.
  - rewrite u32_small by lia. f_equal. lia.
  - rewrite (proj2 (Z.eqb_neq c 0)) by done. rewrite i32_small, IH by lia. f_equal. lia.
Qed.
Lemma strlen_text s t : Forall (fun c => c <> 0) s -> Z.of_nat (length s) < 2 ^ 31 -> strlen (s ++ 0 :: t) = Some (Z.of_nat (length s)).
Proof. intros Hs Hl. unfold strlen. by rewrite strlen_from_text by (done || lia). Qed.

Lemma strcpy_text s t : Forall (fun c => c <> 0) s -> strcpy_bytes (s ++ 0 :: t) = Some (s ++ [0]).
Proof. induction 1 as [|c s Hc _ IH]; [done|]. cbn. rewrite (proj2 (Z.eqb_neq c 0)) by done. by rewrite IH. Qed.

(** The last component of a path. *)
Lemma after_slash_last dir name t k :
  Forall (fun c => c <> SLASH) (name ++ [0]) -> (k <= length name)%nat ->
  after_slash (dir ++ SLASH :: name ++ 0 :: t) (S (length dir) + k) = Some (S (length dir)).
Proof.
  intros Hn. induction k as [|k IH]; intros Hk.
  - rewrite Nat.add_0_r. cbn [after_slash].
    replace ((dir ++ SLASH :: name ++ 0 :: t) !! S (length dir)) with ((name ++ 0 :: t) !! 0%nat)
      by (rewrite (lookup_app_r dir) by lia; replace (S (length dir) - length dir)%nat with 1%nat by lia; done).
    assert (exists c, (name ++ 0 :: t) !! 0%nat = Some c /\ c <> SLASH) as (c & -> & Hc).
    { destruct name as [|c name]; [by exists 0|]. exists c. split; [done|]. by apply list.Forall_cons in Hn as [? _]. }
    rewrite (proj2 (Z.eqb_neq c SLASH)) by done. cbn [after_slash].
    destruct (length dir) eqn:E; cbn [after_slash]; rewrite list_lookup_middle by done; by rewrite Z.eqb_refl.
  - replace (S (length dir) + S k)%nat with (S (S (length dir) + k)) by lia. cbn [after_slash].
    assert (exists c, (dir ++ SLASH :: name ++ 0 :: t) !! S (S (length dir) + k) = Some c /\ c <> SLASH) as (c & -> & Hc).
    { rewrite lookup_app_r by lia. replace (S (S (length dir) + k) - length dir)%nat with (S (S k)) by lia. cbn.
      replace (name ++ 0 :: t) with ((name ++ [0]) ++ t) by (by rewrite <- app_assoc).
      destruct (lookup_lt_is_Some_2 (name ++ [0]) (S k)) as [c Ec]; [rewrite length_app; cbn; lia|]. exists c.
      split; [by apply lookup_app_l_Some|].
      eapply Forall_lookup_1 in Hn; [|exact Ec]. done. }
    rewrite (proj2 (Z.eqb_neq c SLASH)) by done. apply IH. lia.
Qed.

(** A name padded with blanks, or left as it is when it fills the field. *)
Definition padded (name : list Z) : list Z := name ++ replicate (DIRSIZ - length name) 32.

(** fmtname returns the last component of the path, padded to DIRSIZ characters. *)
Lemma fmtname_pads dir name t sbuf :
  Forall (fun c => c <> 0) dir -> Forall (fun c => c <> 0 /\ c <> SLASH) name ->
  Z.of_nat (length dir + length name) < 2 ^ 31 - 1 -> length sbuf = S DIRSIZ -> sbuf !! DIRSIZ = Some 0 ->
  exists s sbuf' t', fmtname (dir ++ SLASH :: name ++ 0 :: t) sbuf = Some (s, sbuf') /\ s = padded name ++ 0 :: t' /\
    length sbuf' = S DIRSIZ /\ sbuf' !! DIRSIZ = Some 0.
Proof.
  intros Hd Hn Hl Hb H0. assert (Forall (fun c => c <> 0) name) as Hz by (eapply Forall_impl; [exact Hn|]; by intros ? []).
  assert (strlen (dir ++ SLASH :: name ++ 0 :: t) = Some (Z.of_nat (length (dir ++ SLASH :: name)))) as El.
  { change (dir ++ SLASH :: name ++ 0 :: t) with (dir ++ (SLASH :: name) ++ 0 :: t). rewrite app_assoc.
    apply strlen_text; [apply Forall_app; split; [done|by constructor]|rewrite length_app; cbn [length]; lia]. }
  unfold fmtname. rewrite El. cbn [mbind option_bind].
  rewrite Nat2Z.id, length_app. cbn [length]. replace (length dir + S (length name))%nat with (S (length dir) + length name)%nat by lia.
  rewrite after_slash_last; [|apply Forall_app; split; [eapply Forall_impl; [exact Hn|]; by intros ? []|by repeat constructor]|done]. cbn [mbind option_bind].
  replace (drop (S (length dir)) (dir ++ SLASH :: name ++ 0 :: t)) with (name ++ 0 :: t)
    by (rewrite drop_app_ge by lia; by replace (S (length dir) - length dir)%nat with 1%nat by lia).
  rewrite strlen_text by (done || lia). cbn [mbind option_bind]. rewrite Nat2Z.id, take_app_length. unfold padded.
  destruct (Z.leb_spec (Z.of_nat DIRSIZ) (Z.of_nat (length name))) as [Hge|Hlt].
  - exists (name ++ 0 :: t), sbuf, t. split; [done|]. replace (DIRSIZ - length name)%nat with 0%nat by lia. cbn [replicate]. by rewrite app_nil_r.
  - set (pad := replicate (DIRSIZ - length name) 32). assert (length pad = DIRSIZ - length name)%nat as Hp by (unfold pad; by rewrite length_replicate).
    assert (splice (length name) pad (splice 0 name sbuf) = (name ++ pad) ++ [0]) as E.
    { replace (length name) with (0 + length name)%nat at 1 by lia. rewrite splice_app_l by (rewrite length_app, Hp; lia).
      unfold splice. cbn [take app]. rewrite length_app, Hp. replace (0 + (length name + (DIRSIZ - length name)))%nat with DIRSIZ by lia.
      by rewrite (drop_S sbuf 0 DIRSIZ H0), drop_ge by lia. }
    rewrite E. exists ((name ++ pad) ++ [0]), ((name ++ pad) ++ [0]), []. split_and!; try done.
    + rewrite !length_app, Hp. cbn [length]. lia.
    + rewrite lookup_app_r by (rewrite length_app, Hp; lia). rewrite length_app, Hp. by replace (DIRSIZ - (length name + (DIRSIZ - length name)))%nat with 0%nat by lia.
Qed.

Lemma cstr_text n s t : Forall (fun c => c <> 0) s -> (length s < n)%nat -> Str.cstr n (s ++ 0 :: t) = s.
Proof.
  intros Hs. revert n. induction Hs as [|c s Hc _ IH]; intros [|n] Hn; cbn in *; try lia; [done|].
  rewrite (proj2 (Z.eqb_neq c 0)) by done. by rewrite IH by lia.
Qed.

Lemma cstr_length n l : (length (Str.cstr n l) <= n)%nat.
Proof. revert l. induction n as [|n IH]; intros [|c l]; cbn; try lia. destruct (c =? 0); cbn; [lia|]. specialize (IH l). lia. Qed.

(** The name in an entry of a directory. *)
Definition entry_name (e : list Z) : list Z := Str.cstr DIRSIZ (de_name (dirent_of e)).
Definition used (e : list Z) : bool := negb (de_inum (dirent_of e) =? 0).

Lemma cstr_split n l : length l = n -> Forall (fun c => c <> 0) (Str.cstr n l) /\ exists t, l ++ [0] = Str.cstr n l ++ 0 :: t.
Proof.
  revert l. induction n as [|n IH]; intros [|c l] Hl; cbn in *; try lia; [split; [done|by exists []]|].
  destruct (Z.eqb_spec c 0) as [->|Hc]; [split; [done|by exists (l ++ [0])]|].
  destruct (IH l ltac:(lia)) as (Hz & t & ->). split; [by constructor|by exists t].
Qed.

(** The path of an entry, built in the buffer. *)
Lemma entry_path path e buf :
  length e = 16%nat -> length buf = 512%nat -> (length path + 16 <= 512)%nat -> take (S (length path)) buf = path ++ [SLASH] ->
  exists t, <[(S (length path) + DIRSIZ)%nat := 0]> (splice (S (length path)) (de_name (dirent_of e)) buf) = path ++ SLASH :: entry_name e ++ 0 :: t.
Proof.
  intros He Hb Hl Ht. assert (length (de_name (dirent_of e)) = DIRSIZ) as Hn by (unfold dirent_of; cbn [de_name]; rewrite length_drop, He; done).
  destruct (cstr_split DIRSIZ _ Hn) as (_ & t & Et). unfold splice. rewrite Ht, Hn.
  assert (length (path ++ [SLASH]) = S (length path)) as Hp by (rewrite length_app; cbn; lia).
  rewrite (app_assoc (path ++ [SLASH])), insert_app_r_alt by (rewrite length_app, Hp, Hn; lia).
  rewrite length_app, Hp, Hn, Nat.sub_diag.
  destruct (drop (S (length path) + DIRSIZ) buf) as [|x r] eqn:Ed; [apply (f_equal length) in Ed; rewrite length_drop in Ed; cbn in Ed; unfold DIRSIZ in *; lia|].
  exists (t ++ r). cbn [insert list_insert]. rewrite <- !app_assoc. cbn [app]. f_equal. f_equal. unfold entry_name.
  replace (de_name (dirent_of e) ++ 0 :: r) with ((de_name (dirent_of e) ++ [0]) ++ r) by (by rewrite <- app_assoc). rewrite Et.
  by rewrite <- app_assoc.
Qed.

Definition small (st : stat) : Prop :=
  - 2 ^ 31 <= st_type st < 2 ^ 31 /\ - 2 ^ 31 <= st_ino st < 2 ^ 31 /\ - 2 ^ 31 <= st_size st < 2 ^ 31.
Definition dec (n : Z) : list Z := default [] (printint n 10 true).
Definition ls_line (name : list Z) (st : stat) : list Z :=
  padded name ++ [32] ++ dec (st_type st) ++ [32] ++ dec (st_ino st) ++ [32] ++ dec (st_size st) ++ [10].

Lemma ends_stat p r st j w : files w !! p = Some (r, st) -> lowest (fdt w) = Some j -> ends (stat_ p) w w (Ok (Some st)).
Proof.
  intros Hf Hj. pose proof (lookup_lt_Some _ _ _ (lowest_free _ _ Hj)) as Hlt.
  assert (desc (set_desc (Z.of_nat j) (Some (r, st)) w) (Z.of_nat j) = Some (r, st)) as Hd by (apply desc_set; [lia|by rewrite Nat2Z.id]).
  unfold stat_. eapply ends_ubind; [by apply ends_open|]. rewrite (proj2 (Z.ltb_ge _ 0)) by lia.
  eapply ends_ubind; [by eapply ends_fstat|]. eapply ends_ubind; [apply ends_close; eexists; exact Hd|].
  rewrite set_back by done. apply prog_ret.
Qed.

Lemma ends_print_entry dir name t sbuf st w :
  Forall (fun c => c <> 0) dir -> Forall (fun c => c <> 0 /\ c <> SLASH) name -> Z.of_nat (length dir + length name) < 2 ^ 31 - 1 ->
  length sbuf = S DIRSIZ -> sbuf !! DIRSIZ = Some 0 -> small st -> is_Some (desc w 1) ->
  exists ws sbuf', puts 1 (ls_line name st) ws /\ ends (print_entry (dir ++ SLASH :: name ++ 0 :: t) sbuf st) w (wrote ws w) (Ok sbuf') /\
    length sbuf' = S DIRSIZ /\ sbuf' !! DIRSIZ = Some 0.
Proof.
  intros Hd Hn Hl Hb H0 (S1 & S2 & S3) Ho. destruct (fmtname_pads dir name t sbuf Hd Hn Hl Hb H0) as (s & sbuf' & t' & Ef & -> & Hb' & H0').
  assert (Forall (fun c => c <> 0) (padded name)) as Hz.
  { apply Forall_app. split; [eapply Forall_impl; [exact Hn|]; by intros ? []|by apply Forall_replicate]. }
  destruct (ends_print 1 "%s %d %d %d" [mkarg 1 (Some (padded name ++ 0 :: t')); num (st_type st); num (st_ino st); num (st_size st)] (ls_line name st) w)
    as (ws & Hp & He); [|done|].
  { rewrite printf_fmt by (vm_compute; reflexivity).
    assert (pieces (chars "%s %d %d %d" ++ [10]) = Conv 115 :: (Lit <$> [32]) ++ Conv 100 :: (Lit <$> [32]) ++ Conv 100 :: (Lit <$> [32]) ++ [Conv 100; Lit 10])
      as -> by (vm_compute; reflexivity).
    rewrite print_str, print_lits, print_d, print_lits, print_d, print_lits, print_d by done. done. }
  exists ws, sbuf'. split; [exact Hp|]. split; [|done]. unfold print_entry. rewrite Ef.
  eapply ends_ubind; [apply prog_ret|]. eapply ends_ubind; [exact He|apply prog_ret].
Qed.

(** An entry of the directory [path] is unused or names a file whose status is [sts] of it. *)
Definition listed_ok (w : world) (path : list Z) (sts : list Z -> stat) (e : list Z) : Prop :=
  length e = 16%nat /\
  (used e = true -> Forall (fun c => c <> SLASH) (entry_name e) /\ small (sts e) /\
     exists r, files w !! (path ++ SLASH :: entry_name e) = Some (r, sts e)).
Definition ls_text (sts : list Z -> stat) (es : list (list Z)) : list Z :=
  concat ((fun e => ls_line (entry_name e) (sts e)) <$> filter (fun e => used e = true) es).

Lemma ends_ls_entries fd path sts es st j w buf sbuf :
  desc w fd = Some (Some <$> es, st) -> fd <> 1 -> is_Some (desc w 1) -> lowest (fdt w) = Some j -> Forall (listed_ok w path sts) es ->
  Forall (fun c => c <> 0) path -> length buf = 512%nat -> (length path + 16 <= 512)%nat -> take (S (length path)) buf = path ++ [SLASH] ->
  length sbuf = S DIRSIZ -> sbuf !! DIRSIZ = Some 0 ->
  exists ws sbuf', puts 1 (ls_text sts es) ws /\
    ends (ls_entries fd (S (length path)) buf sbuf) w (wrote ws (set_desc fd (Some ([], st)) w)) (Ok sbuf').
Proof.
  intros Hd Hf1 Ho Hj Hes Hz Hb Hl Ht Hs H0. revert w buf sbuf Hd Ho Hj Hes Hb Ht Hs H0.
  induction es as [|e es IH]; intros w buf sbuf Hd Ho Hj Hes Hb Ht Hs H0.
  - exists [], sbuf. split; [apply puts_nil|]. rewrite wrote_none.
    replace (set_desc fd (Some ([], st)) w) with w
      by (apply desc_some in Hd as [_ Hd]; unfold set_desc, set_fdt; rewrite list_insert_id by done; by destruct w).
    apply ends_uiter_done. eapply ends_ubind; [by eapply ends_read_eof|]. apply prog_ret.
  - apply list.Forall_cons in Hes as [[He Hu] Hes]. destruct (desc_lt _ _ _ Hd) as [Hf0 Hlt].
    set (w1 := set_desc fd (Some (Some <$> es, st)) w).
    assert (ends (ucall (Read fd 16)) w w1 (Ok (Some e))) as Hr by (apply ends_read_one; [exact Hd|rewrite He; done]).
    assert (desc w1 fd = Some (Some <$> es, st)) as Hd1 by (by apply desc_set).
    assert (is_Some (desc w1 1)) as Ho1 by (unfold w1; by rewrite desc_set_ne by (done || lia)).
    assert (lowest (fdt w1) = Some j) as Hj1.
    { apply desc_some in Hd as [_ Hd]. unfold w1, set_desc. cbn [fdt set_fdt]. by rewrite (lowest_same _ _ _ _ Hd). }
    assert (Forall (listed_ok w1 path sts) es) as Hes1 by done.
    destruct (used e) eqn:Eu.
    + destruct (Hu eq_refl) as (Hsl & Hsm & r & Hfile). destruct (entry_path path e buf He Hb Hl Ht) as [t Et].
      destruct (cstr_split DIRSIZ (de_name (dirent_of e))) as [Hnz _]; [unfold dirent_of; cbn [de_name]; rewrite length_drop, He; done|].
      fold (entry_name e) in Hnz. pose proof (cstr_length DIRSIZ (de_name (dirent_of e))) as Hen. fold (entry_name e) in Hen.
      set (buf' := path ++ SLASH :: entry_name e ++ 0 :: t) in *.
      assert (length buf' = 512%nat) as Hb'.
      { rewrite <- Et, length_insert. rewrite length_splice; [done|]. rewrite Hb. unfold dirent_of. cbn [de_name]. rewrite length_drop, He. lia. }
      destruct (ends_print_entry path (entry_name e) t sbuf (sts e) w1) as (ws & sbuf' & Hp & Hpe & Hs' & H0');
        [done|by apply Forall_and|unfold DIRSIZ in Hen; lia|done|done|done|done|].
      destruct (IH (wrote ws w1) buf' sbuf') as (ws2 & sbuf2 & Hp2 & He2);
        [done|done|done|done|done|unfold buf'; rewrite cons_middle, app_assoc, take_app_length' by (rewrite length_app; cbn; lia); done|done|done|].
      exists (ws ++ ws2), sbuf2. split.
      { unfold ls_text. rewrite filter_cons_True by done. cbn [fmap list_fmap concat]. by apply puts_app. }
      rewrite <- wrote_wrote. eapply ends_uiter_more.
      { eapply ends_ubind; [exact Hr|]. cbn beta iota. rewrite He. cbn [Nat.eqb negb]. unfold used in Eu. apply negb_true_iff in Eu. rewrite Eu, Et.
        eapply (ends_ubind _ _ _ w1 (Some (sts e))); [|cbn beta iota; eapply ends_ubind; [exact Hpe|apply prog_ret]].
        rewrite Hb'. unfold buf'. change (path ++ SLASH :: entry_name e ++ 0 :: t) with (path ++ (SLASH :: entry_name e) ++ 0 :: t).
        rewrite app_assoc, cstr_text; [by eapply ends_stat|apply Forall_app; split; [done|by constructor]|rewrite length_app; cbn [length]; unfold DIRSIZ in Hen; lia]. }
      rewrite set_wrote in He2. unfold w1 in He2. rewrite set_set in He2. exact He2.
    + destruct (IH w1 buf sbuf) as (ws2 & sbuf2 & Hp2 & He2); [done..|].
      exists ws2, sbuf2. split; [unfold ls_text; rewrite filter_cons_False by (by rewrite Eu); exact Hp2|].
      eapply ends_uiter_more; [|unfold w1 in He2; rewrite set_set in He2; exact He2].
      eapply ends_ubind; [exact Hr|]. cbn beta iota. rewrite He. cbn [Nat.eqb negb]. unfold used in Eu. apply negb_false_iff in Eu. rewrite Eu. apply prog_ret.
Qed.

(** C24: ls of a directory prints a line for each entry that is in use, in the order of the
    directory: the name padded with blanks, the type, the number and the size of the file;
    the descriptors are as before.  Standard output is open and two descriptors are free,
    the path leaves room for a name in the buffer, a read returns one entry, and each entry
    in use names a file that is there. *)
Theorem ls_lists path sts es st i j w buf :
  lowest (fdt w) = Some i -> lowest (<[i := Some (Some <$> es, st)]> (fdt w)) = Some j -> is_Some (desc w 1) ->
  files w !! path = Some (Some <$> es, st) -> st_type st = T_DIR -> Forall (listed_ok w path sts) es ->
  Forall (fun c => c <> 0) path -> (length path + 16 <= 512)%nat -> length buf = 512%nat ->
  exists w', ends (ls_main [path] [buf]) w w' Exited /\ fdt w' = fdt w /\ output 1 w' = output 1 w ++ ls_text sts es.
Proof.
  intros Hi Hj Ho Hf Hty Hes Hz Hl Hb. set (d := (Some <$> es, st) : source) in *.
  destruct (free_closed _ _ _ Hi Ho) as [Hne _]. pose proof (lookup_lt_Some _ _ _ (lowest_free _ _ Hi)) as Hlt.
  set (w1 := set_desc (Z.of_nat i) (Some d) w). set (fd := Z.of_nat i) in *.
  assert (desc w1 fd = Some d) as Hd by (apply desc_set; [unfold fd; lia|unfold fd; by rewrite Nat2Z.id]).
  assert (is_Some (desc w1 1)) as Ho1 by (unfold w1; rewrite desc_set_ne; [done|unfold fd; lia|lia|done]).
  assert (lowest (fdt w1) = Some j) as Hj1 by (unfold w1, set_desc, fd; cbn [fdt set_fdt]; by rewrite Nat2Z.id).
  set (n := length path) in *. assert (strlen (path ++ [0]) = Some (Z.of_nat n)) as Hs1 by (apply strlen_text; [done|unfold n; lia]).
  set (buf1 := splice 0 (path ++ [0]) buf).
  assert (strcpy buf (path ++ [0]) = Some buf1) as Hc.
  { unfold strcpy. rewrite strcpy_text by done. cbn [mbind option_bind]. rewrite decide_True; [done|rewrite length_app; cbn; fold n; lia]. }
  assert (exists t, buf1 = path ++ 0 :: t) as [t Et].
  { exists (drop (length (path ++ [0])) buf). unfold buf1, splice. cbn [take app]. by rewrite <- app_assoc. }
  assert (length buf1 = 512%nat) as Hb1 by (unfold buf1; rewrite length_splice; [done|rewrite length_app; cbn; fold n; lia]).
  destruct (ends_ls_entries fd path sts es st j w1 (<[n := SLASH]> buf1) (replicate (S DIRSIZ) 0)) as (ws & sbuf' & Hp & He);
    [done|done|done|done|done|done|by rewrite length_insert|done| |done|done|].
  { rewrite Et. unfold n. rewrite insert_app_r_alt, Nat.sub_diag by lia. cbn [insert list_insert].
    rewrite cons_middle, app_assoc, take_app_length' by (rewrite length_app; cbn; lia). done. }
  exists (wrote ws w). split; [|split; [done|apply (output_wrote _ _ _ _ Hp)]].
  unfold ls_main, ls_all. eapply ends_ubind; [|apply prog_ret]. unfold ls.
  eapply ends_ubind; [by apply ends_open|]. fold fd. rewrite (proj2 (Z.ltb_ge fd 0)) by (unfold fd; lia).
  eapply ends_ubind; [by eapply ends_fstat|]. cbn beta iota. rewrite Hty. change (T_DIR =? T_FILE) with false. rewrite Z.eqb_refl. cbn match.
  eapply ends_ubind.
  { rewrite Hs1. eapply ends_ubind; [apply prog_ret|]. rewrite (proj2 (Z.ltb_ge _ _)) by (unfold DIRSIZ; lia).
    cbn [head default from_option id]. rewrite Hc. eapply ends_ubind; [apply prog_ret|].
    replace (strlen buf1) with (Some (Z.of_nat n)) by (rewrite Et; symmetry; apply strlen_text; [done|unfold n; lia]).
    eapply ends_ubind; [apply prog_ret|]. rewrite Nat2Z.id. exact He. }
  eapply ends_ubind; [apply ends_close; rewrite desc_wrote, desc_set; [by eexists|unfold fd; lia|]|].
  { unfold fd, w1, set_desc. cbn [fdt set_fdt]. rewrite Nat2Z.id, length_insert. done. }
  unfold w1, fd. rewrite set_wrote, set_set, set_back by done. apply prog_ret.
Qed.

(** ** grep *)

Lemma grep_lines_ends fuel re buf p outp buf' p' outp' w :
  lines_loop fuel re buf p outp = Some (buf', p', outp') -> is_Some (desc w 1) ->
  exists ws bs, outp' = outp ++ bs /\ puts 1 bs ws /\ ends (uiter (grep_line re) (buf, p)) w (wrote ws w) (Ok (buf', p')).
Proof.
  revert buf p outp w. induction fuel as [|fuel IH]; intros buf p outp w Hl Ho; [done|]. cbn [lines_loop] in Hl.
  destruct (strchr_nl (drop p buf) p) as [[q|]|] eqn:Es; [|injection Hl as <- <- <-|done].
  - destruct (match_ re (slice p (q - p) buf)) eqn:Em.
    + destruct (IH _ _ _ (wrote [(1, slice p (q - p) buf ++ [NL])] w) Hl Ho) as (ws & bs & -> & Hp & He).
      exists ([(1, slice p (q - p) buf ++ [NL])] ++ ws), ((slice p (q - p) buf ++ [NL]) ++ bs).
      split; [by rewrite !app_assoc|]. split; [apply puts_app; [apply puts_one|exact Hp]|]. rewrite <- wrote_wrote.
      eapply ends_uiter_more; [|exact He]. unfold grep_line. rewrite Es. eapply ends_ubind; [apply prog_ret|]. cbn beta iota zeta. rewrite Em.
      eapply ends_ubind; [by apply ends_write|apply prog_ret].
    + destruct (IH _ _ _ w Hl Ho) as (ws & bs & -> & Hp & He). exists ws, bs. split; [done|]. split; [exact Hp|].
      eapply ends_uiter_more; [|exact He]. unfold grep_line. rewrite Es. eapply ends_ubind; [apply prog_ret|]. cbn beta iota zeta. rewrite Em. apply prog_ret.
  - exists [], []. rewrite wrote_none, app_nil_r. split; [done|]. split; [apply puts_nil|]. apply ends_uiter_done. unfold grep_line. rewrite Es.
    eapply ends_ubind; apply prog_ret.
Qed.

(** grep over a descriptor prints what [Grep.grep_loop] computes from the results of its
    reads. *)
Lemma ugrep_prints re fd cs st buf m outp buf' m' outp' w :
  grep_loop re cs buf m outp = Some (buf', m', outp') -> desc w fd = Some (Some <$> cs, st) -> Forall (fun c => c <> []) cs ->
  fd <> 1 -> is_Some (desc w 1) -> 0 <= m ->
  exists ws bs, outp' = outp ++ bs /\ puts 1 bs ws /\
    ends (uiter (grep_read re fd) (buf, m)) w (wrote ws (set_desc fd (Some ([], st)) w)) (Ok buf').
Proof.
  intros Hg Hd Hne Hf Ho Hm. revert buf m outp w Hg Hd Ho Hm. induction Hne as [|c cs Hc Hne IH]; intros buf m outp w Hg Hd Ho Hm.
  - injection Hg as <- <- <-. exists [], []. rewrite app_nil_r, wrote_none. split; [done|]. split; [apply puts_nil|].
    replace (set_desc fd (Some ([], st)) w) with w
      by (apply desc_some in Hd as [_ Hd]; unfold set_desc, set_fdt; rewrite list_insert_id by done; by destruct w).
    apply ends_uiter_done. unfold grep_read. eapply ends_ubind; [by eapply ends_read_eof|]. apply prog_ret.
  - cbn [grep_loop] in Hg. destruct ((m <? 0) || (Z.of_nat BUFSZ <? m + Z.of_nat (length c))) eqn:Eb; [done|].
    destruct (lines_loop (S BUFSZ) re (splice (Z.to_nat m) c buf) 0 outp) as [[[buf1 p] outp1]|] eqn:El; [|done].
    assert (m + Z.of_nat (length c) <= 1024) as Hsz by (apply orb_false_iff in Eb as [_ Eb]; apply Z.ltb_ge in Eb; exact Eb).
    destruct (desc_lt _ _ _ Hd) as [H0 Hlt]. set (w1 := set_desc fd (Some (Some <$> cs, st)) w).
    assert (is_Some (desc w1 1)) as Ho1 by (unfold w1; by rewrite desc_set_ne by (done || lia)).
    destruct (grep_lines_ends _ _ _ _ _ _ _ _ w1 El Ho1) as (ws & bs & -> & Hp & He).
    set (m1 := if Nat.eqb p 0 then 0 else m + Z.of_nat (length c)) in *.
    set (buf2 := if 0 <? m1 then splice 0 (slice p (Z.to_nat (m1 - Z.of_nat p)) buf1) buf1 else buf1).
    set (m2 := if 0 <? m1 then m1 - Z.of_nat p else m1).
    assert (grep_loop re cs buf2 m2 (outp ++ bs) = Some (buf', m', outp')) as Hg2 by (unfold buf2, m2; by destruct (0 <? m1)).
    assert (0 <= m2 \/ cs = []) as Hm2.
    { destruct cs as [|c2 cs]; [by right|]. left. cbn [grep_loop] in Hg2. destruct (Z.ltb_spec m2 0); [done|lia]. }
    assert (ends (grep_read re fd (buf, m)) w (wrote ws w1) (Ok (inl (buf2, m2)))) as Hr.
    { unfold grep_read. eapply ends_ubind; [apply ends_read_one; [exact Hd|change (Z.of_nat BUFSZ) with 1024; rewrite u32_small by lia; lia]|].
      destruct c as [|b c]; [done|]. cbn beta iota. rewrite Eb. eapply ends_ubind; [exact He|]. cbn beta iota zeta. fold m1.
      unfold buf2, m2. destruct (0 <? m1); apply prog_ret. }
    destruct Hm2 as [Hm2| ->].
    + destruct (IH buf2 m2 (outp ++ bs) (wrote ws w1) Hg2) as (ws2 & bs2 & -> & Hp2 & He2); [by apply desc_set|done|done|].
      exists (ws ++ ws2), (bs ++ bs2). split; [by rewrite app_assoc|]. split; [by apply puts_app|]. rewrite <- wrote_wrote.
      eapply ends_uiter_more; [exact Hr|]. unfold w1 in He2. rewrite set_wrote, set_set in He2. exact He2.
    + cbn in Hg2. injection Hg2 as -> _ <-. exists ws, bs. split; [done|]. split; [exact Hp|]. eapply ends_uiter_more; [exact Hr|].
      apply ends_uiter_done. unfold grep_read. eapply ends_ubind; [eapply ends_read_eof; by apply desc_set|]. apply prog_ret.
Qed.

(** ** Examples *)

Definition demo_st : stat := mkstat T_FILE 1 7 1 9.
(** The file a arrives in two reads that cut a word; b is one line; d is a directory. *)
Definition demo_entry (inum : Z) (name : list Z) : list Z := [inum; 0] ++ name ++ replicate (14 - length name) 0.
Definition demo_world : world :=
  mkworld [Some ([], demo_st); Some ([], demo_st); Some ([], demo_st); None; None]
    (<[[97] := ([Some [104; 105; 32; 116; 104]; Some [101; 114; 101; 10]], demo_st)]>
    (<[[98] := ([Some [120; 10]], demo_st)]>
    (<[[100] := ([Some (demo_entry 7 [97]); Some (demo_entry 0 [98]); Some (demo_entry 9 [99])], mkstat T_DIR 1 2 1 48)]>
    (<[[100; 47; 97] := ([], demo_st)]> (<[[100; 47; 99] := ([], mkstat T_FILE 1 9 1 0)]> ∅))))) [] [] [].

Lemma cat_copies_witness :
  exists w', ends (cat_main [[97]; [98]; [99]; [97]]) demo_world w' Exited /\
    output 1 w' = [104; 105; 32; 116; 104; 101; 114; 101; 10] ++ [120; 10] ++ chars "cat: cannot open " ++ [99; 10].
Proof.
  destruct (cat_copies demo_world ltac:(by eexists) ltac:(by eexists)) as [Hc _].
  destruct (Hc [[97]; [98]] [[104; 105; 32; 116; 104; 101; 114; 101; 10]; [120; 10]] [[99]; [97]]) as (w' & He & _ & Ho).
  - discriminate.
  - constructor; [|constructor; [|constructor]].
    + eexists. split; [vm_compute; reflexivity|]. exists [[104; 105; 32; 116; 104]; [101; 114; 101; 10]]. split; [reflexivity|]. split; [by repeat constructor|reflexivity].
    + eexists. split; [vm_compute; reflexivity|]. exists [[120; 10]]. split; [reflexivity|]. split; [by repeat constructor|reflexivity].
  - split; [vm_compute; reflexivity|by repeat constructor].
  - exists w'. split; [exact He|]. rewrite Ho. reflexivity.
Defined.

(** "1 2 9 a". *)
Lemma wc_counts_witness :
  exists w', ends (wc_main [[97]]) demo_world w' Exited /\ output 1 w' = [49; 32; 50; 32; 57; 32; 97; 10].
Proof.
  destruct (wc_counts demo_world ltac:(by eexists) ltac:(by eexists)) as [Hc _].
  destruct (Hc [[97]] [[104; 105; 32; 116; 104; 101; 114; 101; 10]] []) as (w' & He & _ & Ho).
  - discriminate.
  - constructor; [|constructor].
    eexists. split; [vm_compute; reflexivity|]. exists [[104; 105; 32; 116; 104]; [101; 114; 101; 10]]. split; [reflexivity|]. split; [by repeat constructor|reflexivity].
  - constructor; [|constructor]. split; [by repeat constructor|reflexivity].
  - done.
  - exists w'. split; [exact He|]. rewrite Ho. vm_compute. reflexivity.
Defined.

Lemma ls_lists_witness :
  exists w', ends (ls_main [[100]] [replicate 512 1]) demo_world w' Exited /\
    output 1 w' = [97] ++ replicate 13 32 ++ chars " 2 7 9" ++ [10] ++ [99] ++ replicate 13 32 ++ chars " 2 9 0" ++ [10].
Proof.
  destruct (ls_lists [100] (fun e => if decide (e = demo_entry 7 [97]) then demo_st else mkstat T_FILE 1 9 1 0)
    [demo_entry 7 [97]; demo_entry 0 [98]; demo_entry 9 [99]] (mkstat T_DIR 1 2 1 48) 3 4 demo_world (replicate 512 1)) as (w' & He & _ & Ho).
  - reflexivity.
  - reflexivity.
  - by eexists.
  - vm_compute. reflexivity.
  - reflexivity.
  - constructor; [|constructor; [|constructor; [|constructor]]]; (split; [reflexivity|]); intros Hu; try (vm_compute in Hu; discriminate);
      (split; [vm_compute; by repeat constructor|]); (split; [vm_compute; repeat split; discriminate|]); eexists; vm_compute; reflexivity.
  - by repeat constructor.
  - cbn. lia.
  - reflexivity.
  - exists w'. split; [exact He|]. rewrite Ho. vm_compute. reflexivity.
Defined.
